(* ===== verification/_CoqProject ===== *)
-Q . S2P
Prelude.v
Types.v
Memory.v
Spinlock.v
Kalloc.v
Vm.v
PageTable.v
UserMem.v
UserCopy.v
UvmFree.v
UvmCopy.v
Sched.v
Sleeplock.v
Bio.v
Uart.v
Printf.v
Ulib.v
User.v
Programs.v
ProgSpec.v
Grep.v
Umalloc.v
Sh.v
Grind.v
UserTests.v
TestRun.v
Block.v
Log.v
LogSpec.v
Txn.v
Crash.v
Fs.v
FsSpec.v
FsAlloc.v
Path.v
Inode.v
Mkfs.v
Console.v
InitCode.v
Proc.v
SleepWake.v
SchedSpec.v
ProcSpec.v
ProcMem.v
ForkSpec.v
Exec.v
Mach.v
Virtio.v
VirtioSpec.v
Syscall.v
Pipe.v
PipeSpec.v
File.v
Sysfile.v
FileSpec.v
PipeLife.v
Trap.v
TrapSpec.v
