(* ===== verification/Prelude.v ===== *)
(** * A verification of the xv6-riscv system of this repository

    The program is a small Unix kernel for RISC-V (src/kernel), the tool that
    builds its file system image (src/mkfs) and user programs (src/user).  This
    library models their C functions as Rocq functions and proves what they do.
    The parts meet at the system calls: a user program is a tree of calls, the
    kernel handles one from the trap to the return, and below the handlers lie
    processes, address spaces, files and the log on the disk that mkfs wrote.

    ** How C is modelled

    All kernel code runs in one monad (this file): a function of type [K A]
    takes the kernel state and returns a value and a new state, or panics, or
    is suspended in [sched], or does something undefined, or spins on a lock, or
    (only in the model) runs out of the fuel that bounds a loop.  The state
    [kstate] (Types.v) is one record with a field per global variable, plus the
    byte memory, the disk and the devices.  Integers are [Z] with the wrap-around
    of their C type written out where it can happen ([u32], [u64], [i32]);
    addresses are [Z]; pointers to elements of a global array are indices;
    buffers that a function only fills or reads are lists of bytes.  Spin locks
    are part of the state, so that every acquire and release of the code is in
    the model and its panics are.  Symbols of the linker script are a class of
    constants, [KernelLayout] (Kalloc.v).

    A thread of the kernel runs alone in these functions: the model follows one
    hart from the call to the return, a panic or the call of [sched].  [sched]
    is the outcome [Asleep] with the state it suspends in and what is left to
    do, so a sleeping process can be resumed in any later state: SleepWake.v and
    VirtioSpec.v follow it through the scheduler, and through the interrupt that
    wakes it up.  Interleaving of single memory accesses is modelled where the
    code is about it: Spinlock.v has the step relation of all harts over one
    lock.

    Code that needs more than [kstate] (the disk queue, the control registers,
    the interrupt controller) runs in the same monad over the larger state
    [mach] (Mach.v); [lift] runs kernel code there.  file.c and sysfile.c run
    over [fstate] (File.v): the kernel, the table of open files, [devsw] and the
    descriptors of each process; [liftk] runs kernel code there, which cannot
    touch the other fields.  The Makefile does not compile file.c, pipe.c and
    sysfile.c, and they need a field of [struct proc] ([ofile]) and two functions
    that the kernel lacks: the field is part of [fstate], the functions are
    parameters.

    A user program is an interaction tree over the system calls ([sysE],
    User.v); its own memory is a list of bytes or a byte memory passed along.
    Theorems on programs are about every [World], which answers the calls:
    [goes] says that a program ends in a world and with what, [diverges] that it
    never does.  mkfs is a function on the image and the files of the host.

    ** Interfaces

    What one part relies on is a class, which the part below instantiates:
    - [KernelLayout] (Kalloc.v), [Text] (Proc.v): addresses chosen by the linker.
    - [DiskDriver] and [DiskContract] (Bio.v): what the buffer cache, the log and
      the file system are proved against; VirtioSpec.v discharges it with the
      model of virtio_disk.c.
    - [Device] and [DeviceContract] (VirtioSpec.v): the virtio device, which is
      hardware; the contract is that of the virtio specification for a queue
      with one request.
    - [Threads] (Proc.v) and [ThreadsContract] (SchedSpec.v): what a process does
      between being switched to and switching back.
    - [Wakeups] (Sleeplock.v): how often a thread is woken up and finds its
      condition still false.
    - [PipeSleep] (Pipe.v): the two functions pipe.c calls and no file defines.
    - [World] and [Io] (User.v), [Procs] (ProgSpec.v), [Brk] (Umalloc.v),
      [BrkStable] (Sh.v) and [Bed] (TestRun.v): what a program may expect of the
      calls it makes: files that read back, children that can be waited for, a
      heap that grows.
    Each contract has an instance, used in the examples after the theorems.

    ** Files

    - Prelude.v: outcomes and the monad, machine integers, little-endian words,
      tactics.
    - Types.v: constants of param.h, memlayout.h, riscv.h, fs.h, stat.h and the
      structs of the kernel; [boot], the state before main.
    - Memory.v: byte memory and string.c.
    - Spinlock.v: spinlock.c on one hart ([acquire_free], [release_enter] are
      what clients use) and interleaved ([Interleaved]).
    - Kalloc.v: kalloc.c.  [kmem_inv] ties the linked list in memory to an
      abstract list of free pages.
    - Vm.v: the functions of vm.c and proc_mapstacks of proc.c.
    - PageTable.v: a page table in memory as an abstract tree ([ptree],
      [pt_wf]); what [walk] and [mappages] do to it ([grew], [chg]).
    - UserMem.v: one address space and the allocator ([as_inv]); [uvmunmap],
      [uvmalloc], [uvmdealloc] as changes of it ([as_chg]).
    - UserCopy.v: user memory as the process sees it ([uread]); copyout, copyin
      and copyinstr are shown to read and write exactly that.
    - UvmFree.v, UvmCopy.v: uvmfree gives back every page of an address space;
      uvmcopy copies one beside another that stays as it is.
    - Sched.v, Sleeplock.v: sleeping, waking and the small operations of proc.c;
      sleeplock.c.
    - Bio.v: bio.c; [rep] shows the cache, with its doubly linked list, as the
      contents of blocks.  Block.v: a form of its specifications that composes.
    - Uart.v, Printf.v, Console.v: uart.c, printf.c, console.c.
    - Log.v: log.c.  LogSpec.v: what each function writes, in order.  Txn.v: what
      code inside a transaction sees ([tx]).  Crash.v: the theorems on crashes,
      and [Machine], a small machine for examples.
    - Fs.v: fs.c.  FsSpec.v, FsAlloc.v: the block allocator.  Inode.v: the inode
      table and inodes on disk.  Path.v: path names.
    - InitCode.v, Proc.v: proc.c.  SleepWake.v: a process that sleeps, is woken up
      and scheduled again.  SchedSpec.v: the scheduler.  ProcSpec.v: pids, kill,
      growing and shrinking.  ProcMem.v: the page table of a process, made and
      given back (proc_pagetable, freeproc).  ForkSpec.v: allocproc and kfork.
    - Exec.v: exec.c.
    - Pipe.v, PipeSpec.v: pipe.c, and a pipe as a queue of bytes ([pipe_rep]).
      File.v, Sysfile.v: file.c, sysfile.c.  FileSpec.v: descriptors and
      reference counts ([files_ok]).  PipeLife.v: a pipe from its creation to the
      close of its last end.
    - Ulib.v, User.v, Umalloc.v: the user library (ulib.c, printf.c, umalloc.c).
      Programs.v, ProgSpec.v: the small programs.  Grep.v, Grind.v, Sh.v: grep.c,
      grind.c, sh.c.  UserTests.v, TestRun.v: usertests.c, and what it reports.
    - Mkfs.v: mkfs.c.
    - Mach.v, Virtio.v: the machine and virtio_disk.c.  VirtioSpec.v: a request
      from start to completion.
    - Syscall.v: syscall.c, sysproc.c.  Trap.v: trap.c, plic.c, start.c, main.c.
      TrapSpec.v: a system call from the trap to the return to user space.

    ** What the theorems show

    Spin locks exclude each other in every interleaving and their sanity checks
    never fire; a critical section restores the interrupt state.  The page
    allocator hands out every page once and refines a list.  Page-table
    operations change exactly the mappings they are asked to change; a page is
    always exactly one of free, part of the table, or mapped once, so none leaks
    or is used twice.  The copies between kernel and user memory are exact, stop
    at the first byte the process could not access, and never write anything
    but the process's own writable memory.  growproc keeps the page table in step
    with the size of the process; sbrk is followed from the trap through the
    dispatch, the allocator and the page table back to user space.  uvmcopy gives
    a new process the memory of its parent, or nothing, and uvmfree returns all
    of an address space.  kfork is followed through the process table, the
    allocator, the page tables, the trap frames and the inode table: the child is
    a copy of its parent, or, when slots or pages run out, everything is free
    again.  The allocator's list bounds these: three free pages for each page to
    map are enough, and six more for a new process.

    The count of an open file is the number of descriptors that refer to it, and
    dup and close keep it so; only the last close gives up what is behind it.
    Writing to a pipe appends to a queue and reading takes from its front, also
    when the 32-bit counters wrap; what goes in at one end comes out at the
    other, and closing both ends frees the page.

    A transaction is atomic under a crash between any two disk writes, and
    recovery can itself be interrupted; inside a transaction a block reads back
    as it was logged; the block allocator takes the first free block and gives
    it back.  These are proved against the disk contract, and the virtio driver
    is proved to satisfy it: a request puts the process to sleep, the device and
    the interrupt handler complete it, and the process returns.  No wakeup is
    lost between sleep and wakeup; the scheduler gives each runnable process a
    turn in every round.

    The console's line editor and its reader refine an abstract editor; the
    transmit ring of the UART is a queue.  The inode table counts references;
    inodes survive the trip to the disk; the path walk visits the elements of
    the path.  Pids stay positive; kill marks the process it names.

    On the user side, malloc returns memory nobody uses and free gives it back
    (and a block of 16 KB or more makes malloc run for ever); a line typed at the
    shell reaches exec with its words as arguments; grep prints the lines its
    matcher accepts, and the matcher decides the language of its patterns; cat,
    wc, init and the generator of grind do what they are meant to.  The runner of
    usertests reports each test by the exit status of its process, and exits with
    0 just when all pass and no page is lost; what the tests themselves do has no
    theorems.  mkfs always
    ends, and builds an image with the superblock, the bitmap, the root directory
    and the contents of every file.

    The file-system theorems speak of one process at a time ([calm]: it holds no
    spin lock and nobody else waits for the file system).  Exec.v, the start-up
    code of Trap.v, the calls of Sysfile.v on paths and the functions of Fs.v above
    the block allocator other than those named are models without theorems of
    their own so far.

    ** Fuel

    Loops whose bound is a C expression take that bound as fuel (mappages: the
    number of pages; the copies: the number of bytes, as every round moves at
    least one; a path: its characters; a chain of descriptors: their number; a
    write to a file or a pipe: its bytes, plus [n_wakeups] for a pipe);
    the loops of log.c take the size of the log; loops around sleep take
    [n_wakeups] turns.  The specifications are equations that end in [Ret], so
    they also show that the fuel suffices.  The scheduler, which never returns,
    is followed for any number of rounds.  Loops of user programs are [ITree.iter]
    and need none.

    ** Not modelled

    Assembly (entry.S, kernelvec.S, swtch.S, trampoline.S), timing, and
    memory-ordering effects below the level of single accesses, the fences of
    virtio_disk.c and the flag [started] of main.c among them; what mkfs prints;
    and the build and test scripts. *)

From stdpp Require Export base gmap strings list fin_maps.
From Stdlib Require Export ZArith Lia.

#[export] Set Default Goal Selector "!".

(** * Outcomes of running C code *)

Declare Scope c_scope.
Delimit Scope c_scope with C.

(** What one thread does when it runs a piece of kernel code from a state:
    it returns; it calls [panic]; it gives up the CPU in [sched], to go on as
    [resume] says from the state it finds when the scheduler comes back to it;
    it does something C leaves undefined (a null or out-of-range access); it
    spins for ever on a lock held by another CPU; or the fuel that bounds a loop
    of the model runs out (theorems show which fuel suffices). *)
Inductive outcome (S A : Type) : Type :=
| Ret (a : A) (s : S)
| Panic (msg : string) (s : S)
| Asleep (s : S) (resume : S -> outcome S A)
| Fault (what : string)
| Spin
| NoFuel.
Arguments Ret {S A} a s.
Arguments Panic {S A} msg s.
Arguments Asleep {S A} s resume.
Arguments Fault {S A} what.
Arguments Spin {S A}.
Arguments NoFuel {S A}.

(** Stateful C code over a state of type [S]. *)
Definition M (S A : Type) : Type := S -> outcome S A.

Section Monad.
Context {S : Type}.

Definition ret {A} (a : A) : M S A := fun s => Ret a s.

(** Going on with [k] after an outcome. *)
Fixpoint obind {A B} (o : outcome S A) (k : A -> M S B) : outcome S B :=
  match o with
  | Ret a s' => k a s'
  | Panic msg s' => Panic msg s'
  | Asleep s' r => Asleep s' (fun s => obind (r s) k)
  | Fault w => Fault w
  | Spin => Spin
  | NoFuel => NoFuel
  end.

Definition bind {A B} (m : M S A) (k : A -> M S B) : M S B :=
  fun s =>
    match m s with
    | Ret a s' => k a s'
    | Panic msg s' => Panic msg s'
    | Asleep s' r => Asleep s' (fun s => obind (r s) k)
    | Fault w => Fault w
    | Spin => Spin
    | NoFuel => NoFuel
    end.

Definition gets {A} (f : S -> A) : M S A := fun s => Ret (f s) s.
Definition modify (f : S -> S) : M S unit := fun s => Ret tt (f s).
Definition panic {A} (msg : string) : M S A := fun s => Panic msg s.
Definition fault {A} (what : string) : M S A := fun _ => Fault what.
Definition nofuel {A} : M S A := fun _ => NoFuel.

(** An access that C leaves undefined when it misses. *)
Definition deref {A} (what : string) (o : option A) : M S A :=
  match o with Some a => ret a | None => fault what end.

(** [if (c) m;] *)
Definition when (c : bool) (m : M S unit) : M S unit :=
  if c then m else ret tt.

Lemma bind_Ret {A B} (m : M S A) (k : A -> M S B) s a s' :
  m s = Ret a s' -> bind m k s = k a s'.
Proof. intros H. unfold bind. by rewrite H. Qed.

Lemma bind_Panic {A B} (m : M S A) (k : A -> M S B) s x s' :
  m s = Panic x s' -> bind m k s = Panic x s'.
Proof. intros H. unfold bind. by rewrite H. Qed.

Lemma bind_obind {A B} (m : M S A) (k : A -> M S B) s : bind m k s = obind (m s) k.
Proof. unfold bind. by destruct (m s). Qed.

Lemma bind_assoc_Ret {A B C} (m : M S A) (f : A -> M S B) (g : B -> M S C) s a s' :
  m s = Ret a s' -> bind (bind m f) g s = bind m (fun x => bind (f x) g) s.
Proof. intros H. unfold bind. by rewrite H. Qed.

Lemma bind_inv {A B} (m : M S A) (k : A -> M S B) s b s' :
  bind m k s = Ret b s' -> exists a s1, m s = Ret a s1 /\ k a s1 = Ret b s'.
Proof. unfold bind. destruct (m s); intros H; try discriminate. eauto. Qed.

End Monad.

Notation "x <- m ;; k" := (bind m (fun x => k))
  (at level 100, m at next level, k at level 200, right associativity) : c_scope.
Notation "' p <- m ;; k" := (bind m (fun x => match x with p => k end))
  (at level 20, p pattern, m at level 99, k at level 200, only parsing) : c_scope.
Notation "m ;; k" := (bind m (fun _ => k))
  (at level 100, k at level 200, right associativity) : c_scope.

Create HintDb kern discriminated.

(** Run one monadic step with the equation [H : m s = Ret a s']. *)
Tactic Notation "run" uconstr(H) := rewrite (bind_Ret _ _ _ _ _ H).

(** Split a returning computation into the returning steps it is made of. *)
Ltac inv_ret :=
  repeat match goal with
  | H : bind _ _ _ = Ret _ _ |- _ =>
      let a := fresh "a" in let s1 := fresh "s" in
      apply bind_inv in H; destruct H as (a & s1 & ? & ?)
  | H : Ret _ _ = Ret _ _ |- _ => injection H as ? ?; subst
  | H : ret _ _ = Ret _ _ |- _ => unfold ret in H
  | H : gets _ _ = Ret _ _ |- _ => unfold gets in H
  | H : modify _ _ = Ret _ _ |- _ => unfold modify in H
  | H : panic _ _ = Ret _ _ |- _ => discriminate H
  | H : fault _ _ = Ret _ _ |- _ => discriminate H
  end.

(** * C integers *)

Open Scope Z_scope.

(** Values of an unsigned type are kept in [0, 2^w); an expression that may
    leave the range is wrapped where C wraps it. *)
Definition wrap (w z : Z) : Z := z mod 2 ^ w.
Abbreviation u8 := (wrap 8).
Abbreviation u16 := (wrap 16).
Abbreviation u32 := (wrap 32).
Abbreviation u64 := (wrap 64).

(** Two's complement reading of the low [w] bits. *)
Definition swrap (w z : Z) : Z := (z + 2 ^ (w - 1)) mod 2 ^ w - 2 ^ (w - 1).
Abbreviation i8 := (swrap 8).
Abbreviation i16 := (swrap 16).
Abbreviation i32 := (swrap 32).
Abbreviation i64 := (swrap 64).

#[global] Arguments wrap : simpl never.
#[global] Arguments swrap : simpl never.

Definition b2z (b : bool) : Z := if b then 1 else 0.

Lemma wrap_range w z : 0 <= w -> 0 <= wrap w z < 2 ^ w.
Proof. intros. apply Z.mod_pos_bound. by apply Z.pow_pos_nonneg. Qed.

Lemma wrap_small w z : 0 <= z < 2 ^ w -> wrap w z = z.
Proof. apply Z.mod_small. Qed.

Lemma wrap_wrap w z : 0 <= w -> wrap w (wrap w z) = wrap w z.
Proof. intros. apply wrap_small. by apply wrap_range. Qed.

Lemma wrap_add_l w a b : wrap w (wrap w a + b) = wrap w (a + b).
Proof. unfold wrap. by rewrite Zplus_mod_idemp_l. Qed.

Lemma wrap_sub_l w a b : wrap w (wrap w a - b) = wrap w (a - b).
Proof. unfold wrap. by rewrite Zminus_mod_idemp_l. Qed.

Lemma wrap_sub_r w a b : wrap w (a - wrap w b) = wrap w (a - b).
Proof. unfold wrap. by rewrite Zminus_mod_idemp_r. Qed.

Lemma swrap_small w z :
  0 < w -> - 2 ^ (w - 1) <= z < 2 ^ (w - 1) -> swrap w z = z.
Proof.
  intros Hw Hz. unfold swrap. rewrite Z.mod_small; [lia|].
  assert (2 ^ w = 2 * 2 ^ (w - 1)) by (rewrite <- Z.pow_succ_r by lia; f_equal; lia).
  lia.
Qed.

Lemma swrap_range w z : 0 < w -> - 2 ^ (w - 1) <= swrap w z < 2 ^ (w - 1).
Proof.
  intros Hw. unfold swrap.
  assert (2 ^ w = 2 * 2 ^ (w - 1)) by (rewrite <- Z.pow_succ_r by lia; f_equal; lia).
  assert (0 < 2 ^ w) by (apply Z.pow_pos_nonneg; lia).
  pose proof (Z.mod_pos_bound (z + 2 ^ (w - 1)) (2 ^ w)). lia.
Qed.

(** Turn boolean tests of the code into the propositions they decide. *)
Ltac b2p :=
  repeat match goal with
  | H : (_ && _) = true |- _ => apply andb_true_iff in H; destruct H
  | H : (_ || _) = false |- _ => apply orb_false_iff in H; destruct H
  | H : negb _ = true |- _ => apply negb_true_iff in H
  | H : negb _ = false |- _ => apply negb_false_iff in H
  | H : (_ =? _) = true |- _ => apply Z.eqb_eq in H
  | H : (_ =? _) = false |- _ => apply Z.eqb_neq in H
  | H : (_ <? _) = true |- _ => apply Z.ltb_lt in H
  | H : (_ <? _) = false |- _ => apply Z.ltb_ge in H
  | H : (_ <=? _) = true |- _ => apply Z.leb_le in H
  | H : (_ <=? _) = false |- _ => apply Z.leb_gt in H
  | H : bool_decide _ = true |- _ => apply bool_decide_eq_true in H
  | H : bool_decide _ = false |- _ => apply bool_decide_eq_false in H
  end.

(** Case analysis on the comparison the goal is stuck on. *)
Ltac case_ltb :=
  match goal with
  | |- context [?a =? ?b] => destruct (Z.eqb_spec a b)
  | |- context [?a <? ?b] => destruct (Z.ltb_spec a b)
  | |- context [?a <=? ?b] => destruct (Z.leb_spec a b)
  end.

(** Evaluate the comparisons of the goal that arithmetic decides. *)
Ltac zsimp :=
  repeat match goal with
  | |- context [?a =? ?b] =>
      first [ replace (a =? b) with true by (symmetry; apply Z.eqb_eq; lia)
            | replace (a =? b) with false by (symmetry; apply Z.eqb_neq; lia) ]
  | |- context [?a <? ?b] =>
      first [ replace (a <? b) with true by (symmetry; apply Z.ltb_lt; lia)
            | replace (a <? b) with false by (symmetry; apply Z.ltb_ge; lia) ]
  | |- context [?a <=? ?b] =>
      first [ replace (a <=? b) with true by (symmetry; apply Z.leb_le; lia)
            | replace (a <=? b) with false by (symmetry; apply Z.leb_gt; lia) ]
  end; cbv iota.

(** * Words as little-endian bytes *)

(** A byte is a [Z] in [0, 256). *)
Definition byte_ok (b : Z) : Prop := 0 <= b < 256.

Fixpoint le_enc (n : nat) (v : Z) : list Z :=
  match n with
  | O => []
  | S n => v mod 256 :: le_enc n (v / 256)
  end.

Fixpoint le_dec (l : list Z) : Z :=
  match l with
  | [] => 0
  | b :: l => b + 256 * le_dec l
  end.

Lemma length_le_enc n v : length (le_enc n v) = n.
Proof. revert v; induction n as [|n IH]; intros v; simpl; [done|]. by rewrite IH. Qed.

Lemma le_enc_bytes n v : Forall byte_ok (le_enc n v).
Proof.
  revert v; induction n as [|n IH]; intros v; simpl; constructor; [|done].
  unfold byte_ok. apply Z.mod_pos_bound. lia.
Qed.

Lemma le_dec_enc n v : le_dec (le_enc n v) = v mod 256 ^ Z.of_nat n.
Proof.
  revert v; induction n as [|n IH]; intros v.
  { simpl. by rewrite Z.mod_1_r. }
  cbn [le_enc le_dec]. rewrite IH, Nat2Z.inj_succ, Z.pow_succ_r by lia.
  rewrite Z.rem_mul_r; lia.
Qed.

Lemma le_dec_enc_id n v : 0 <= v < 256 ^ Z.of_nat n -> le_dec (le_enc n v) = v.
Proof. intros. rewrite le_dec_enc. by apply Z.mod_small. Qed.

Lemma le_enc_dec l : Forall byte_ok l -> le_enc (length l) (le_dec l) = l.
Proof.
  induction 1 as [|b l Hb _ IH]; simpl; [done|]. unfold byte_ok in Hb.
  f_equal.
  - rewrite Z.mul_comm, Z.mod_add by lia. by apply Z.mod_small.
  - rewrite Z.mul_comm, Z.div_add by lia. by rewrite Z.div_small.
Qed.

Lemma le_dec_range l : Forall byte_ok l -> 0 <= le_dec l < 256 ^ Z.of_nat (length l).
Proof.
  induction 1 as [|b l Hb _ IH]; cbn [le_dec length]; [done|].
  unfold byte_ok in Hb. rewrite Nat2Z.inj_succ, Z.pow_succ_r by lia. lia.
Qed.

Lemma le_enc_lookup n v (i : nat) :
  (i < n)%nat -> le_enc n v !! i = Some (v / 256 ^ Z.of_nat i mod 256).
Proof.
  revert v i; induction n as [|n IH]; intros v i Hi; [lia|].
  destruct i as [|i]; simpl le_enc; [simpl; by rewrite Z.div_1_r|].
  change (le_enc n (v / 256) !! i = Some (v / 256 ^ Z.of_nat (S i) mod 256)).
  rewrite IH by lia. rewrite Nat2Z.inj_succ, Z.pow_succ_r by lia.
  rewrite Z.div_div; [done|lia|]. apply Z.pow_pos_nonneg; lia.
Qed.

(** * Lists *)

Lemma list_alter_twice {A} (f g : A -> A) (i : nat) (l : list A) :
  alter f i (alter g i l) = alter (fun x => f (g x)) i l.
Proof.
  revert i; induction l as [|a l IH]; intros [|i]; simpl; try done.
  change (a :: alter f i (alter g i l) = a :: alter (fun x => f (g x)) i l). by rewrite IH.
Qed.

Lemma list_alter_insert {A} (f : A -> A) (i : nat) (l : list A) a :
  l !! i = Some a -> alter f i l = <[i := f a]> l.
Proof.
  revert i; induction l as [|b l IH]; intros [|i] H; simplify_eq/=; try done.
  change (b :: alter f i l = b :: <[i := f a]> l). by rewrite IH.
Qed.
