(* ===== verification/Types.v ===== *)
(** The kernel's constants, structures and global variables.

    The constants are those of kernel/param.h, memlayout.h, riscv.h, fs.h and
    stat.h; the structures those of spinlock.h, sleeplock.h, buf.h, fs.h,
    file.h, proc.h and of the C files that declare their own; the record
    [kstate] gathers the globals of the C files, the physical memory and the
    disk.  Arrays are lists, pointers into a static array are indices into it,
    pointers into physical memory are addresses.  Names kept only for
    debugging ([spinlock.name], [sleeplock.name]) are left out: no code reads
    them.  Every record has one functional setter per field. *)

From S2P Require Import Prelude.
From Stdlib Require Import ZifyClasses ZifyInst.

(** * param.h *)

Definition NPROC : nat := 64.
Definition NCPU : nat := 8.
Definition NINODE : nat := 50.
Definition NDEV : Z := 10.
Definition ROOTDEV : Z := 1.
Definition MAXOPBLOCKS : Z := 10.
Definition LOGBLOCKS : Z := MAXOPBLOCKS * 3.
Definition NBUF : nat := 30.
Definition FSSIZE : Z := 2000.
Definition MAXPATH : Z := 128.
Definition MAXARG : nat := 32.
Definition USERSTACK : Z := 1.

(** * file.h *)

Definition CONSOLE : Z := 1.

(** [NBUF] is [(MAXOPBLOCKS * 3)] in the source; here it counts list cells. *)
Lemma NBUF_eq : Z.of_nat NBUF = MAXOPBLOCKS * 3.
Proof. reflexivity. Qed.

(** * riscv.h: pages and page-table entries *)

Definition PGSIZE : Z := 4096.
Definition PGSHIFT : Z := 12.
Definition PGROUNDUP (sz : Z) : Z :=
  Z.land (u64 (sz + PGSIZE - 1)) (Z.lnot (PGSIZE - 1)).
Definition PGROUNDDOWN (a : Z) : Z := Z.land a (Z.lnot (PGSIZE - 1)).

Definition PTE_V : Z := Z.shiftl 1 0.
Definition PTE_R : Z := Z.shiftl 1 1.
Definition PTE_W : Z := Z.shiftl 1 2.
Definition PTE_X : Z := Z.shiftl 1 3.
Definition PTE_U : Z := Z.shiftl 1 4.

Definition PA2PTE (pa : Z) : Z := u64 (Z.shiftl (Z.shiftr pa 12) 10).
Definition PTE2PA (pte : Z) : Z := u64 (Z.shiftl (Z.shiftr pte 10) 12).
Definition PTE_FLAGS (pte : Z) : Z := Z.land pte 0x3FF.

Definition PXMASK : Z := 0x1FF.
Definition PXSHIFT (level : Z) : Z := PGSHIFT + 9 * level.
Definition PX (level va : Z) : Z := Z.land (Z.shiftr va (PXSHIFT level)) PXMASK.
Definition MAXVA : Z := Z.shiftl 1 (9 + 9 + 9 + 12 - 1).

(** * memlayout.h *)

Definition UART0 : Z := 0x10000000.
Definition VIRTIO0 : Z := 0x10001000.
Definition PLIC : Z := 0x0c000000.
Definition KERNBASE : Z := 0x80000000.
Definition PHYSTOP : Z := KERNBASE + 128 * 1024 * 1024.
Definition TRAMPOLINE : Z := MAXVA - PGSIZE.
Definition KSTACK (p : Z) : Z := TRAMPOLINE - (p + 1) * 2 * PGSIZE.
Definition TRAPFRAME : Z := TRAMPOLINE - PGSIZE.

(** * fs.h and stat.h *)

Definition ROOTINO : Z := 1.
Definition BSIZE : Z := 1024.
Definition FSMAGIC : Z := 0x10203040.
Definition NDIRECT : Z := 12.
Definition NINDIRECT : Z := BSIZE / 4.
Definition MAXFILE : Z := NDIRECT + NINDIRECT.
Definition NLINK_MAX : Z := 32767.
Definition DIRSIZ : Z := 14.
Definition T_DIR : Z := 1.
Definition T_FILE : Z := 2.
Definition T_DEVICE : Z := 3.

(** fs.h: [struct superblock]. *)
Record superblock := mk_superblock {
  sb_magic : Z;
  sb_size : Z;  (* size of file system image (blocks) *)
  sb_nblocks : Z;  (* number of data blocks *)
  sb_ninodes : Z;  (* number of inodes *)
  sb_nlog : Z;  (* number of log blocks *)
  sb_logstart : Z;  (* block number of first log block *)
  sb_inodestart : Z;  (* block number of first inode block *)
  sb_bmapstart : Z;  (* block number of first free map block *)
}.
Definition set_sb_magic (x : Z) (r : superblock) : superblock :=
  mk_superblock x (sb_size r) (sb_nblocks r) (sb_ninodes r) (sb_nlog r) (sb_logstart r) (sb_inodestart r) (sb_bmapstart r).
Definition set_sb_size (x : Z) (r : superblock) : superblock :=
  mk_superblock (sb_magic r) x (sb_nblocks r) (sb_ninodes r) (sb_nlog r) (sb_logstart r) (sb_inodestart r) (sb_bmapstart r).
Definition set_sb_nblocks (x : Z) (r : superblock) : superblock :=
  mk_superblock (sb_magic r) (sb_size r) x (sb_ninodes r) (sb_nlog r) (sb_logstart r) (sb_inodestart r) (sb_bmapstart r).
Definition set_sb_ninodes (x : Z) (r : superblock) : superblock :=
  mk_superblock (sb_magic r) (sb_size r) (sb_nblocks r) x (sb_nlog r) (sb_logstart r) (sb_inodestart r) (sb_bmapstart r).
Definition set_sb_nlog (x : Z) (r : superblock) : superblock :=
  mk_superblock (sb_magic r) (sb_size r) (sb_nblocks r) (sb_ninodes r) x (sb_logstart r) (sb_inodestart r) (sb_bmapstart r).
Definition set_sb_logstart (x : Z) (r : superblock) : superblock :=
  mk_superblock (sb_magic r) (sb_size r) (sb_nblocks r) (sb_ninodes r) (sb_nlog r) x (sb_inodestart r) (sb_bmapstart r).
Definition set_sb_inodestart (x : Z) (r : superblock) : superblock :=
  mk_superblock (sb_magic r) (sb_size r) (sb_nblocks r) (sb_ninodes r) (sb_nlog r) (sb_logstart r) x (sb_bmapstart r).
Definition set_sb_bmapstart (x : Z) (r : superblock) : superblock :=
  mk_superblock (sb_magic r) (sb_size r) (sb_nblocks r) (sb_ninodes r) (sb_nlog r) (sb_logstart r) (sb_inodestart r) x.

(** Inodes per block, block containing inode [i], bitmap bits per block, block
    of the free map containing the bit for block [b]. [sizeof(struct dinode)]
    is 64: four shorts, one uint, thirteen uints. *)
Definition DINODE_SIZE : Z := 2 * 4 + 4 + 4 * (NDIRECT + 1).
Definition IPB : Z := BSIZE / DINODE_SIZE.
Definition IBLOCK (i : Z) (sb : superblock) : Z := u32 (i / IPB + sb_inodestart sb).
Definition BPB : Z := BSIZE * 8.
Definition BBLOCK (b : Z) (sb : superblock) : Z := u32 (b / BPB + sb_bmapstart sb).

(** fcntl.h: the modes of open *)
Definition O_RDONLY : Z := 0.
Definition O_WRONLY : Z := 1.
Definition O_RDWR : Z := 2.
Definition O_CREATE : Z := 512.
Definition O_TRUNC : Z := 1024.

(** stat.h: [struct stat] *)
Record stat := mk_stat { st_dev : Z; st_ino : Z; st_type : Z; st_nlink : Z; st_size : Z }.

(** fs.h: [struct dinode], the on-disk inode. *)
Record dinode := mk_dinode {
  di_type : Z;
  di_major : Z;
  di_minor : Z;
  di_nlink : Z;
  di_size : Z;
  di_addrs : list Z;  (* NDIRECT + 1 block numbers *)
}.
Definition set_di_type (x : Z) (r : dinode) : dinode :=
  mk_dinode x (di_major r) (di_minor r) (di_nlink r) (di_size r) (di_addrs r).
Definition set_di_major (x : Z) (r : dinode) : dinode :=
  mk_dinode (di_type r) x (di_minor r) (di_nlink r) (di_size r) (di_addrs r).
Definition set_di_minor (x : Z) (r : dinode) : dinode :=
  mk_dinode (di_type r) (di_major r) x (di_nlink r) (di_size r) (di_addrs r).
Definition set_di_nlink (x : Z) (r : dinode) : dinode :=
  mk_dinode (di_type r) (di_major r) (di_minor r) x (di_size r) (di_addrs r).
Definition set_di_size (x : Z) (r : dinode) : dinode :=
  mk_dinode (di_type r) (di_major r) (di_minor r) (di_nlink r) x (di_addrs r).
Definition set_di_addrs (x : list Z) (r : dinode) : dinode :=
  mk_dinode (di_type r) (di_major r) (di_minor r) (di_nlink r) (di_size r) x.

(** * Locks and wait channels *)

(** The addresses of the kernel's spin locks: one name per [struct spinlock]
    object.  [LK_buf i] and [LK_inode i] are the spin locks inside the sleep
    locks of [bcache.buf[i]] and [itable.inode[i]]. *)
Inductive lockid : Type :=
| LK_kmem | LK_pid | LK_wait | LK_ticks | LK_bcache | LK_itable | LK_log
| LK_cons | LK_tx | LK_pr | LK_vdisk | LK_ftable
| LK_proc (i : nat) | LK_buf (i : nat) | LK_inode (i : nat)
| LK_pipe (pi : Z).  (* the lock of the [struct pipe] at [pi] *)

#[global] Instance lockid_eq_dec : EqDecision lockid.
Proof. solve_decision. Defined.

Definition lockid_enc (l : lockid) : nat * Z :=
  match l with
  | LK_kmem => (0%nat, 0) | LK_pid => (1%nat, 0) | LK_wait => (2%nat, 0) | LK_ticks => (3%nat, 0)
  | LK_bcache => (4%nat, 0) | LK_itable => (5%nat, 0) | LK_log => (6%nat, 0) | LK_cons => (7%nat, 0)
  | LK_tx => (8%nat, 0) | LK_pr => (9%nat, 0) | LK_vdisk => (10%nat, 0) | LK_ftable => (14%nat, 0)
  | LK_proc i => (11%nat, Z.of_nat i) | LK_buf i => (12%nat, Z.of_nat i) | LK_inode i => (13%nat, Z.of_nat i)
  | LK_pipe pi => (15%nat, pi)
  end.

Definition lockid_dec (p : nat * Z) : option lockid :=
  match p with
  | (0%nat, _) => Some LK_kmem | (1%nat, _) => Some LK_pid | (2%nat, _) => Some LK_wait
  | (3%nat, _) => Some LK_ticks | (4%nat, _) => Some LK_bcache | (5%nat, _) => Some LK_itable
  | (6%nat, _) => Some LK_log | (7%nat, _) => Some LK_cons | (8%nat, _) => Some LK_tx
  | (9%nat, _) => Some LK_pr | (10%nat, _) => Some LK_vdisk | (11%nat, i) => Some (LK_proc (Z.to_nat i))
  | (12%nat, i) => Some (LK_buf (Z.to_nat i)) | (13%nat, i) => Some (LK_inode (Z.to_nat i))
  | (14%nat, _) => Some LK_ftable | (15%nat, pi) => Some (LK_pipe pi)
  | _ => None
  end.

#[global] Instance lockid_countable : Countable lockid.
Proof. apply (inj_countable lockid_enc lockid_dec). intros []; cbn; by rewrite ?Nat2Z.id. Defined.

(** The addresses code sleeps on. *)
Inductive chan : Type :=
| CH_log | CH_ticks | CH_cons_r | CH_tx_r | CH_disk_free
| CH_proc (i : nat)          (* a [struct proc], in kwait *)
| CH_buf (i : nat)           (* a [struct buf], in virtio_disk_rw *)
| CH_buflock (i : nat)       (* the sleep lock of a [struct buf] *)
| CH_inodelock (i : nat)     (* the sleep lock of a [struct inode] *)
| CH_pipe_r (pi : Z)         (* [nread] of a [struct pipe] *)
| CH_pipe_w (pi : Z).        (* [nwrite] of a [struct pipe] *)

#[global] Instance chan_eq_dec : EqDecision chan.
Proof. solve_decision. Defined.

(** spinlock.h: [struct spinlock]. *)
Record spinlock := mk_spinlock {
  lk_locked : bool;
  lk_cpu : option nat;  (* the cpu holding the lock *)
}.
Definition set_lk_locked (x : bool) (r : spinlock) : spinlock :=
  mk_spinlock x (lk_cpu r).
Definition set_lk_cpu (x : option nat) (r : spinlock) : spinlock :=
  mk_spinlock (lk_locked r) x.

(** A lock as [initlock] leaves it, and as zero-initialised memory is. *)
Definition unlocked : spinlock := mk_spinlock false None.

#[global] Instance spinlock_eq_dec : EqDecision spinlock.
Proof. solve_decision. Defined.

(** sleeplock.h: [struct sleeplock]; its spin lock is named by a [lockid]. *)
Record sleeplock := mk_sleeplock {
  sl_locked : bool;
  sl_pid : Z;  (* process holding the lock *)
}.
Definition set_sl_locked (x : bool) (r : sleeplock) : sleeplock :=
  mk_sleeplock x (sl_pid r).
Definition set_sl_pid (x : Z) (r : sleeplock) : sleeplock :=
  mk_sleeplock (sl_locked r) x.

(** * CPUs and processes (proc.h) *)

(** proc.h: [struct cpu]. The scheduler context is saved by swtch.S and has no C-visible content; the hart's interrupt-enable bit is kept beside it. *)
Record cpu := mk_cpu {
  c_proc : option nat;  (* the process running on this cpu, an index into proc[] *)
  c_noff : Z;  (* depth of push_off() nesting *)
  c_intena : bool;  (* were interrupts enabled before push_off()? *)
  c_sie : bool;  (* the hart's SSTATUS_SIE bit *)
}.
Definition set_c_proc (x : option nat) (r : cpu) : cpu :=
  mk_cpu x (c_noff r) (c_intena r) (c_sie r).
Definition set_c_noff (x : Z) (r : cpu) : cpu :=
  mk_cpu (c_proc r) x (c_intena r) (c_sie r).
Definition set_c_intena (x : bool) (r : cpu) : cpu :=
  mk_cpu (c_proc r) (c_noff r) x (c_sie r).
Definition set_c_sie (x : bool) (r : cpu) : cpu :=
  mk_cpu (c_proc r) (c_noff r) (c_intena r) x.

Inductive procstate := UNUSED | USED | SLEEPING | RUNNABLE | RUNNING | ZOMBIE.

#[global] Instance procstate_eq_dec : EqDecision procstate.
Proof. solve_decision. Defined.

(** proc.h: [struct context]. *)
Record context := mk_context {
  cx_ra : Z;
  cx_sp : Z;
  cx_s : list Z;  (* s0 .. s11 *)
}.
Definition set_cx_ra (x : Z) (r : context) : context :=
  mk_context x (cx_sp r) (cx_s r).
Definition set_cx_sp (x : Z) (r : context) : context :=
  mk_context (cx_ra r) x (cx_s r).
Definition set_cx_s (x : list Z) (r : context) : context :=
  mk_context (cx_ra r) (cx_sp r) x.

(** proc.h: [struct proc]; its spin lock is [LK_proc i]. *)
Record proc := mk_proc {
  p_state : procstate;
  p_chan : option chan;
  p_killed : Z;
  p_xstate : Z;
  p_pid : Z;
  p_parent : option nat;
  p_kstack : Z;
  p_sz : Z;
  p_pagetable : Z;
  p_trapframe : Z;  (* address of the trapframe page *)
  p_context : context;
  p_cwd : option nat;  (* index into itable.inode[] *)
  p_name : list Z;
}.
Definition set_p_state (x : procstate) (r : proc) : proc :=
  mk_proc x (p_chan r) (p_killed r) (p_xstate r) (p_pid r) (p_parent r) (p_kstack r) (p_sz r) (p_pagetable r) (p_trapframe r) (p_context r) (p_cwd r) (p_name r).
Definition set_p_chan (x : option chan) (r : proc) : proc :=
  mk_proc (p_state r) x (p_killed r) (p_xstate r) (p_pid r) (p_parent r) (p_kstack r) (p_sz r) (p_pagetable r) (p_trapframe r) (p_context r) (p_cwd r) (p_name r).
Definition set_p_killed (x : Z) (r : proc) : proc :=
  mk_proc (p_state r) (p_chan r) x (p_xstate r) (p_pid r) (p_parent r) (p_kstack r) (p_sz r) (p_pagetable r) (p_trapframe r) (p_context r) (p_cwd r) (p_name r).
Definition set_p_xstate (x : Z) (r : proc) : proc :=
  mk_proc (p_state r) (p_chan r) (p_killed r) x (p_pid r) (p_parent r) (p_kstack r) (p_sz r) (p_pagetable r) (p_trapframe r) (p_context r) (p_cwd r) (p_name r).
Definition set_p_pid (x : Z) (r : proc) : proc :=
  mk_proc (p_state r) (p_chan r) (p_killed r) (p_xstate r) x (p_parent r) (p_kstack r) (p_sz r) (p_pagetable r) (p_trapframe r) (p_context r) (p_cwd r) (p_name r).
Definition set_p_parent (x : option nat) (r : proc) : proc :=
  mk_proc (p_state r) (p_chan r) (p_killed r) (p_xstate r) (p_pid r) x (p_kstack r) (p_sz r) (p_pagetable r) (p_trapframe r) (p_context r) (p_cwd r) (p_name r).
Definition set_p_kstack (x : Z) (r : proc) : proc :=
  mk_proc (p_state r) (p_chan r) (p_killed r) (p_xstate r) (p_pid r) (p_parent r) x (p_sz r) (p_pagetable r) (p_trapframe r) (p_context r) (p_cwd r) (p_name r).
Definition set_p_sz (x : Z) (r : proc) : proc :=
  mk_proc (p_state r) (p_chan r) (p_killed r) (p_xstate r) (p_pid r) (p_parent r) (p_kstack r) x (p_pagetable r) (p_trapframe r) (p_context r) (p_cwd r) (p_name r).
Definition set_p_pagetable (x : Z) (r : proc) : proc :=
  mk_proc (p_state r) (p_chan r) (p_killed r) (p_xstate r) (p_pid r) (p_parent r) (p_kstack r) (p_sz r) x (p_trapframe r) (p_context r) (p_cwd r) (p_name r).
Definition set_p_trapframe (x : Z) (r : proc) : proc :=
  mk_proc (p_state r) (p_chan r) (p_killed r) (p_xstate r) (p_pid r) (p_parent r) (p_kstack r) (p_sz r) (p_pagetable r) x (p_context r) (p_cwd r) (p_name r).
Definition set_p_context (x : context) (r : proc) : proc :=
  mk_proc (p_state r) (p_chan r) (p_killed r) (p_xstate r) (p_pid r) (p_parent r) (p_kstack r) (p_sz r) (p_pagetable r) (p_trapframe r) x (p_cwd r) (p_name r).
Definition set_p_cwd (x : option nat) (r : proc) : proc :=
  mk_proc (p_state r) (p_chan r) (p_killed r) (p_xstate r) (p_pid r) (p_parent r) (p_kstack r) (p_sz r) (p_pagetable r) (p_trapframe r) (p_context r) x (p_name r).
Definition set_p_name (x : list Z) (r : proc) : proc :=
  mk_proc (p_state r) (p_chan r) (p_killed r) (p_xstate r) (p_pid r) (p_parent r) (p_kstack r) (p_sz r) (p_pagetable r) (p_trapframe r) (p_context r) (p_cwd r) x.

(** * Buffers, log, inodes *)

(** buf.h: [struct buf]. [prev] and [next] are indices into [bcache.buf]; [NBUF] stands for [&bcache.head]. *)
Record buf := mk_buf {
  b_valid : bool;  (* has data been read from disk? *)
  b_disk : bool;  (* does disk own buf? *)
  b_dev : Z;
  b_blockno : Z;
  b_lock : sleeplock;
  b_refcnt : Z;
  b_prev : nat;  (* LRU cache list *)
  b_next : nat;
  b_data : list Z;  (* BSIZE bytes *)
}.
Definition set_b_valid (x : bool) (r : buf) : buf :=
  mk_buf x (b_disk r) (b_dev r) (b_blockno r) (b_lock r) (b_refcnt r) (b_prev r) (b_next r) (b_data r).
Definition set_b_disk (x : bool) (r : buf) : buf :=
  mk_buf (b_valid r) x (b_dev r) (b_blockno r) (b_lock r) (b_refcnt r) (b_prev r) (b_next r) (b_data r).
Definition set_b_dev (x : Z) (r : buf) : buf :=
  mk_buf (b_valid r) (b_disk r) x (b_blockno r) (b_lock r) (b_refcnt r) (b_prev r) (b_next r) (b_data r).
Definition set_b_blockno (x : Z) (r : buf) : buf :=
  mk_buf (b_valid r) (b_disk r) (b_dev r) x (b_lock r) (b_refcnt r) (b_prev r) (b_next r) (b_data r).
Definition set_b_lock (x : sleeplock) (r : buf) : buf :=
  mk_buf (b_valid r) (b_disk r) (b_dev r) (b_blockno r) x (b_refcnt r) (b_prev r) (b_next r) (b_data r).
Definition set_b_refcnt (x : Z) (r : buf) : buf :=
  mk_buf (b_valid r) (b_disk r) (b_dev r) (b_blockno r) (b_lock r) x (b_prev r) (b_next r) (b_data r).
Definition set_b_prev (x : nat) (r : buf) : buf :=
  mk_buf (b_valid r) (b_disk r) (b_dev r) (b_blockno r) (b_lock r) (b_refcnt r) x (b_next r) (b_data r).
Definition set_b_next (x : nat) (r : buf) : buf :=
  mk_buf (b_valid r) (b_disk r) (b_dev r) (b_blockno r) (b_lock r) (b_refcnt r) (b_prev r) x (b_data r).
Definition set_b_data (x : list Z) (r : buf) : buf :=
  mk_buf (b_valid r) (b_disk r) (b_dev r) (b_blockno r) (b_lock r) (b_refcnt r) (b_prev r) (b_next r) x.

(** bio.c: the buffer cache. Of [head] only the links are used. *)
Record bcache := mk_bcache {
  bc_buf : list buf;  (* NBUF buffers *)
  bc_head_prev : nat;  (* head.prev *)
  bc_head_next : nat;  (* head.next *)
}.
Definition set_bc_buf (x : list buf) (r : bcache) : bcache :=
  mk_bcache x (bc_head_prev r) (bc_head_next r).
Definition set_bc_head_prev (x : nat) (r : bcache) : bcache :=
  mk_bcache (bc_buf r) x (bc_head_next r).
Definition set_bc_head_next (x : nat) (r : bcache) : bcache :=
  mk_bcache (bc_buf r) (bc_head_prev r) x.

(** log.c: [struct logheader]. *)
Record logheader := mk_logheader {
  lh_n : Z;
  lh_block : list Z;  (* LOGBLOCKS block numbers *)
}.
Definition set_lh_n (x : Z) (r : logheader) : logheader :=
  mk_logheader x (lh_block r).
Definition set_lh_block (x : list Z) (r : logheader) : logheader :=
  mk_logheader (lh_n r) x.

(** log.c: [struct log]; its spin lock is [LK_log]. *)
Record log := mk_log {
  log_start : Z;
  log_outstanding : Z;  (* how many FS sys calls are executing *)
  log_committing : bool;  (* in commit(), please wait *)
  log_dev : Z;
  log_ncommit : Z;
  log_lh : logheader;
}.
Definition set_log_start (x : Z) (r : log) : log :=
  mk_log x (log_outstanding r) (log_committing r) (log_dev r) (log_ncommit r) (log_lh r).
Definition set_log_outstanding (x : Z) (r : log) : log :=
  mk_log (log_start r) x (log_committing r) (log_dev r) (log_ncommit r) (log_lh r).
Definition set_log_committing (x : bool) (r : log) : log :=
  mk_log (log_start r) (log_outstanding r) x (log_dev r) (log_ncommit r) (log_lh r).
Definition set_log_dev (x : Z) (r : log) : log :=
  mk_log (log_start r) (log_outstanding r) (log_committing r) x (log_ncommit r) (log_lh r).
Definition set_log_ncommit (x : Z) (r : log) : log :=
  mk_log (log_start r) (log_outstanding r) (log_committing r) (log_dev r) x (log_lh r).
Definition set_log_lh (x : logheader) (r : log) : log :=
  mk_log (log_start r) (log_outstanding r) (log_committing r) (log_dev r) (log_ncommit r) x.

(** file.h: [struct inode], the in-memory copy of an inode. *)
Record inode := mk_inode {
  i_dev : Z;
  i_inum : Z;
  i_ref : Z;
  i_lock : sleeplock;
  i_valid : bool;
  i_type : Z;
  i_major : Z;
  i_minor : Z;
  i_nlink : Z;
  i_size : Z;
  i_addrs : list Z;  (* NDIRECT + 1 *)
}.
Definition set_i_dev (x : Z) (r : inode) : inode :=
  mk_inode x (i_inum r) (i_ref r) (i_lock r) (i_valid r) (i_type r) (i_major r) (i_minor r) (i_nlink r) (i_size r) (i_addrs r).
Definition set_i_inum (x : Z) (r : inode) : inode :=
  mk_inode (i_dev r) x (i_ref r) (i_lock r) (i_valid r) (i_type r) (i_major r) (i_minor r) (i_nlink r) (i_size r) (i_addrs r).
Definition set_i_ref (x : Z) (r : inode) : inode :=
  mk_inode (i_dev r) (i_inum r) x (i_lock r) (i_valid r) (i_type r) (i_major r) (i_minor r) (i_nlink r) (i_size r) (i_addrs r).
Definition set_i_lock (x : sleeplock) (r : inode) : inode :=
  mk_inode (i_dev r) (i_inum r) (i_ref r) x (i_valid r) (i_type r) (i_major r) (i_minor r) (i_nlink r) (i_size r) (i_addrs r).
Definition set_i_valid (x : bool) (r : inode) : inode :=
  mk_inode (i_dev r) (i_inum r) (i_ref r) (i_lock r) x (i_type r) (i_major r) (i_minor r) (i_nlink r) (i_size r) (i_addrs r).
Definition set_i_type (x : Z) (r : inode) : inode :=
  mk_inode (i_dev r) (i_inum r) (i_ref r) (i_lock r) (i_valid r) x (i_major r) (i_minor r) (i_nlink r) (i_size r) (i_addrs r).
Definition set_i_major (x : Z) (r : inode) : inode :=
  mk_inode (i_dev r) (i_inum r) (i_ref r) (i_lock r) (i_valid r) (i_type r) x (i_minor r) (i_nlink r) (i_size r) (i_addrs r).
Definition set_i_minor (x : Z) (r : inode) : inode :=
  mk_inode (i_dev r) (i_inum r) (i_ref r) (i_lock r) (i_valid r) (i_type r) (i_major r) x (i_nlink r) (i_size r) (i_addrs r).
Definition set_i_nlink (x : Z) (r : inode) : inode :=
  mk_inode (i_dev r) (i_inum r) (i_ref r) (i_lock r) (i_valid r) (i_type r) (i_major r) (i_minor r) x (i_size r) (i_addrs r).
Definition set_i_size (x : Z) (r : inode) : inode :=
  mk_inode (i_dev r) (i_inum r) (i_ref r) (i_lock r) (i_valid r) (i_type r) (i_major r) (i_minor r) (i_nlink r) x (i_addrs r).
Definition set_i_addrs (x : list Z) (r : inode) : inode :=
  mk_inode (i_dev r) (i_inum r) (i_ref r) (i_lock r) (i_valid r) (i_type r) (i_major r) (i_minor r) (i_nlink r) (i_size r) x.

(** The disk behind virtio_disk.c: its contents and the history of the writes that reached it. *)
Record disk := mk_disk {
  dk_blocks : gmap Z (list Z);  (* contents; a missing block is all zeros *)
  dk_writes : list (Z * list Z);  (* the block writes performed so far, oldest first *)
}.
Definition set_dk_blocks (x : gmap Z (list Z)) (r : disk) : disk :=
  mk_disk x (dk_writes r).
Definition set_dk_writes (x : list (Z * list Z)) (r : disk) : disk :=
  mk_disk (dk_blocks r) x.

(** * Console and UART *)

Definition INPUT_BUF_SIZE : Z := 128.
Definition UART_TX_BUF_SIZE : Z := 32.

(** console.c: the input buffer; its spin lock is [LK_cons]. *)
Record cons := mk_cons {
  cons_buf : list Z;
  cons_r : Z;  (* read index *)
  cons_w : Z;  (* write index *)
  cons_e : Z;  (* edit index *)
}.
Definition set_cons_buf (x : list Z) (r : cons) : cons :=
  mk_cons x (cons_r r) (cons_w r) (cons_e r).
Definition set_cons_r (x : Z) (r : cons) : cons :=
  mk_cons (cons_buf r) x (cons_w r) (cons_e r).
Definition set_cons_w (x : Z) (r : cons) : cons :=
  mk_cons (cons_buf r) (cons_r r) x (cons_e r).
Definition set_cons_e (x : Z) (r : cons) : cons :=
  mk_cons (cons_buf r) (cons_r r) (cons_w r) x.

(** uart.c: the transmit ring [tx_buf], [tx_r], [tx_w] (spin lock [LK_tx]) and the device behind the registers. *)
Record uart := mk_uart {
  tx_buf : list Z;
  tx_r : Z;
  tx_w : Z;
  u_out : list Z;  (* bytes the device has been given, oldest first *)
  u_rx : list Z;  (* bytes waiting in the receive register, oldest first *)
  u_busy : list bool;  (* answers of the next reads of LSR_TX_IDLE; true: not idle *)
}.
Definition set_tx_buf (x : list Z) (r : uart) : uart :=
  mk_uart x (tx_r r) (tx_w r) (u_out r) (u_rx r) (u_busy r).
Definition set_tx_r (x : Z) (r : uart) : uart :=
  mk_uart (tx_buf r) x (tx_w r) (u_out r) (u_rx r) (u_busy r).
Definition set_tx_w (x : Z) (r : uart) : uart :=
  mk_uart (tx_buf r) (tx_r r) x (u_out r) (u_rx r) (u_busy r).
Definition set_u_out (x : list Z) (r : uart) : uart :=
  mk_uart (tx_buf r) (tx_r r) (tx_w r) x (u_rx r) (u_busy r).
Definition set_u_rx (x : list Z) (r : uart) : uart :=
  mk_uart (tx_buf r) (tx_r r) (tx_w r) (u_out r) x (u_busy r).
Definition set_u_busy (x : list bool) (r : uart) : uart :=
  mk_uart (tx_buf r) (tx_r r) (tx_w r) (u_out r) (u_rx r) x.

(** * The whole state *)

(** The globals of the kernel, memory and devices. *)
Record kstate := mk_kstate {
  k_hart : nat;  (* r_tp(): the hart that runs *)
  k_cpus : list cpu;  (* cpus[NCPU] *)
  k_locks : gmap lockid spinlock;  (* the spin locks; a missing one is unlocked *)
  k_procs : list proc;  (* proc[NPROC] *)
  k_nextpid : Z;
  k_initproc : option nat;
  k_ticks : Z;
  k_mem : gmap Z Z;  (* memory: bytes by address; a missing byte is 0 *)
  k_freelist : Z;  (* kmem.freelist *)
  k_kpgtbl : Z;  (* kernel_pagetable *)
  k_bcache : bcache;
  k_disk : disk;
  k_log : log;
  k_sb : superblock;
  k_itable : list inode;  (* itable.inode[NINODE] *)
  k_cons : cons;
  k_uart : uart;
}.
Definition set_k_hart (x : nat) (r : kstate) : kstate :=
  mk_kstate x (k_cpus r) (k_locks r) (k_procs r) (k_nextpid r) (k_initproc r) (k_ticks r) (k_mem r) (k_freelist r) (k_kpgtbl r) (k_bcache r) (k_disk r) (k_log r) (k_sb r) (k_itable r) (k_cons r) (k_uart r).
Definition set_k_cpus (x : list cpu) (r : kstate) : kstate :=
  mk_kstate (k_hart r) x (k_locks r) (k_procs r) (k_nextpid r) (k_initproc r) (k_ticks r) (k_mem r) (k_freelist r) (k_kpgtbl r) (k_bcache r) (k_disk r) (k_log r) (k_sb r) (k_itable r) (k_cons r) (k_uart r).
Definition set_k_locks (x : gmap lockid spinlock) (r : kstate) : kstate :=
  mk_kstate (k_hart r) (k_cpus r) x (k_procs r) (k_nextpid r) (k_initproc r) (k_ticks r) (k_mem r) (k_freelist r) (k_kpgtbl r) (k_bcache r) (k_disk r) (k_log r) (k_sb r) (k_itable r) (k_cons r) (k_uart r).
Definition set_k_procs (x : list proc) (r : kstate) : kstate :=
  mk_kstate (k_hart r) (k_cpus r) (k_locks r) x (k_nextpid r) (k_initproc r) (k_ticks r) (k_mem r) (k_freelist r) (k_kpgtbl r) (k_bcache r) (k_disk r) (k_log r) (k_sb r) (k_itable r) (k_cons r) (k_uart r).
Definition set_k_nextpid (x : Z) (r : kstate) : kstate :=
  mk_kstate (k_hart r) (k_cpus r) (k_locks r) (k_procs r) x (k_initproc r) (k_ticks r) (k_mem r) (k_freelist r) (k_kpgtbl r) (k_bcache r) (k_disk r) (k_log r) (k_sb r) (k_itable r) (k_cons r) (k_uart r).
Definition set_k_initproc (x : option nat) (r : kstate) : kstate :=
  mk_kstate (k_hart r) (k_cpus r) (k_locks r) (k_procs r) (k_nextpid r) x (k_ticks r) (k_mem r) (k_freelist r) (k_kpgtbl r) (k_bcache r) (k_disk r) (k_log r) (k_sb r) (k_itable r) (k_cons r) (k_uart r).
Definition set_k_ticks (x : Z) (r : kstate) : kstate :=
  mk_kstate (k_hart r) (k_cpus r) (k_locks r) (k_procs r) (k_nextpid r) (k_initproc r) x (k_mem r) (k_freelist r) (k_kpgtbl r) (k_bcache r) (k_disk r) (k_log r) (k_sb r) (k_itable r) (k_cons r) (k_uart r).
Definition set_k_mem (x : gmap Z Z) (r : kstate) : kstate :=
  mk_kstate (k_hart r) (k_cpus r) (k_locks r) (k_procs r) (k_nextpid r) (k_initproc r) (k_ticks r) x (k_freelist r) (k_kpgtbl r) (k_bcache r) (k_disk r) (k_log r) (k_sb r) (k_itable r) (k_cons r) (k_uart r).
Definition set_k_freelist (x : Z) (r : kstate) : kstate :=
  mk_kstate (k_hart r) (k_cpus r) (k_locks r) (k_procs r) (k_nextpid r) (k_initproc r) (k_ticks r) (k_mem r) x (k_kpgtbl r) (k_bcache r) (k_disk r) (k_log r) (k_sb r) (k_itable r) (k_cons r) (k_uart r).
Definition set_k_kpgtbl (x : Z) (r : kstate) : kstate :=
  mk_kstate (k_hart r) (k_cpus r) (k_locks r) (k_procs r) (k_nextpid r) (k_initproc r) (k_ticks r) (k_mem r) (k_freelist r) x (k_bcache r) (k_disk r) (k_log r) (k_sb r) (k_itable r) (k_cons r) (k_uart r).
Definition set_k_bcache (x : bcache) (r : kstate) : kstate :=
  mk_kstate (k_hart r) (k_cpus r) (k_locks r) (k_procs r) (k_nextpid r) (k_initproc r) (k_ticks r) (k_mem r) (k_freelist r) (k_kpgtbl r) x (k_disk r) (k_log r) (k_sb r) (k_itable r) (k_cons r) (k_uart r).
Definition set_k_disk (x : disk) (r : kstate) : kstate :=
  mk_kstate (k_hart r) (k_cpus r) (k_locks r) (k_procs r) (k_nextpid r) (k_initproc r) (k_ticks r) (k_mem r) (k_freelist r) (k_kpgtbl r) (k_bcache r) x (k_log r) (k_sb r) (k_itable r) (k_cons r) (k_uart r).
Definition set_k_log (x : log) (r : kstate) : kstate :=
  mk_kstate (k_hart r) (k_cpus r) (k_locks r) (k_procs r) (k_nextpid r) (k_initproc r) (k_ticks r) (k_mem r) (k_freelist r) (k_kpgtbl r) (k_bcache r) (k_disk r) x (k_sb r) (k_itable r) (k_cons r) (k_uart r).
Definition set_k_sb (x : superblock) (r : kstate) : kstate :=
  mk_kstate (k_hart r) (k_cpus r) (k_locks r) (k_procs r) (k_nextpid r) (k_initproc r) (k_ticks r) (k_mem r) (k_freelist r) (k_kpgtbl r) (k_bcache r) (k_disk r) (k_log r) x (k_itable r) (k_cons r) (k_uart r).
Definition set_k_itable (x : list inode) (r : kstate) : kstate :=
  mk_kstate (k_hart r) (k_cpus r) (k_locks r) (k_procs r) (k_nextpid r) (k_initproc r) (k_ticks r) (k_mem r) (k_freelist r) (k_kpgtbl r) (k_bcache r) (k_disk r) (k_log r) (k_sb r) x (k_cons r) (k_uart r).
Definition set_k_cons (x : cons) (r : kstate) : kstate :=
  mk_kstate (k_hart r) (k_cpus r) (k_locks r) (k_procs r) (k_nextpid r) (k_initproc r) (k_ticks r) (k_mem r) (k_freelist r) (k_kpgtbl r) (k_bcache r) (k_disk r) (k_log r) (k_sb r) (k_itable r) x (k_uart r).
Definition set_k_uart (x : uart) (r : kstate) : kstate :=
  mk_kstate (k_hart r) (k_cpus r) (k_locks r) (k_procs r) (k_nextpid r) (k_initproc r) (k_ticks r) (k_mem r) (k_freelist r) (k_kpgtbl r) (k_bcache r) (k_disk r) (k_log r) (k_sb r) (k_itable r) (k_cons r) x.

(** Code of the kernel. *)
Abbreviation K := (M kstate).

(** The values of the constants, for [lia]. *)
#[global] Instance Cst_PGSIZE : @CstOp Z Z PGSIZE Inj_Z_Z := @mkcst Z Z PGSIZE Inj_Z_Z 4096 eq_refl.
Add Zify CstOp Cst_PGSIZE.
#[global] Instance Cst_PGSHIFT : @CstOp Z Z PGSHIFT Inj_Z_Z := @mkcst Z Z PGSHIFT Inj_Z_Z 12 eq_refl.
Add Zify CstOp Cst_PGSHIFT.
#[global] Instance Cst_MAXVA : @CstOp Z Z MAXVA Inj_Z_Z := @mkcst Z Z MAXVA Inj_Z_Z 274877906944 eq_refl.
Add Zify CstOp Cst_MAXVA.
#[global] Instance Cst_TRAMPOLINE : @CstOp Z Z TRAMPOLINE Inj_Z_Z := @mkcst Z Z TRAMPOLINE Inj_Z_Z 274877902848 eq_refl.
Add Zify CstOp Cst_TRAMPOLINE.
#[global] Instance Cst_TRAPFRAME : @CstOp Z Z TRAPFRAME Inj_Z_Z := @mkcst Z Z TRAPFRAME Inj_Z_Z 274877898752 eq_refl.
Add Zify CstOp Cst_TRAPFRAME.
#[global] Instance Cst_KERNBASE : @CstOp Z Z KERNBASE Inj_Z_Z := @mkcst Z Z KERNBASE Inj_Z_Z 2147483648 eq_refl.
Add Zify CstOp Cst_KERNBASE.
#[global] Instance Cst_PHYSTOP : @CstOp Z Z PHYSTOP Inj_Z_Z := @mkcst Z Z PHYSTOP Inj_Z_Z 2281701376 eq_refl.
Add Zify CstOp Cst_PHYSTOP.
#[global] Instance Cst_UART0 : @CstOp Z Z UART0 Inj_Z_Z := @mkcst Z Z UART0 Inj_Z_Z 0x10000000 eq_refl.
Add Zify CstOp Cst_UART0.
#[global] Instance Cst_VIRTIO0 : @CstOp Z Z VIRTIO0 Inj_Z_Z := @mkcst Z Z VIRTIO0 Inj_Z_Z 0x10001000 eq_refl.
Add Zify CstOp Cst_VIRTIO0.
#[global] Instance Cst_PLIC : @CstOp Z Z PLIC Inj_Z_Z := @mkcst Z Z PLIC Inj_Z_Z 0x0c000000 eq_refl.
Add Zify CstOp Cst_PLIC.
#[global] Instance Cst_BSIZE : @CstOp Z Z BSIZE Inj_Z_Z := @mkcst Z Z BSIZE Inj_Z_Z 1024 eq_refl.
Add Zify CstOp Cst_BSIZE.
#[global] Instance Cst_NDIRECT : @CstOp Z Z NDIRECT Inj_Z_Z := @mkcst Z Z NDIRECT Inj_Z_Z 12 eq_refl.
Add Zify CstOp Cst_NDIRECT.
#[global] Instance Cst_NINDIRECT : @CstOp Z Z NINDIRECT Inj_Z_Z := @mkcst Z Z NINDIRECT Inj_Z_Z 256 eq_refl.
Add Zify CstOp Cst_NINDIRECT.
#[global] Instance Cst_MAXFILE : @CstOp Z Z MAXFILE Inj_Z_Z := @mkcst Z Z MAXFILE Inj_Z_Z 268 eq_refl.
Add Zify CstOp Cst_MAXFILE.
#[global] Instance Cst_NLINK_MAX : @CstOp Z Z NLINK_MAX Inj_Z_Z := @mkcst Z Z NLINK_MAX Inj_Z_Z 32767 eq_refl.
Add Zify CstOp Cst_NLINK_MAX.
#[global] Instance Cst_DIRSIZ : @CstOp Z Z DIRSIZ Inj_Z_Z := @mkcst Z Z DIRSIZ Inj_Z_Z 14 eq_refl.
Add Zify CstOp Cst_DIRSIZ.
#[global] Instance Cst_ROOTINO : @CstOp Z Z ROOTINO Inj_Z_Z := @mkcst Z Z ROOTINO Inj_Z_Z 1 eq_refl.
Add Zify CstOp Cst_ROOTINO.
#[global] Instance Cst_MAXOPBLOCKS : @CstOp Z Z MAXOPBLOCKS Inj_Z_Z := @mkcst Z Z MAXOPBLOCKS Inj_Z_Z 10 eq_refl.
Add Zify CstOp Cst_MAXOPBLOCKS.
#[global] Instance Cst_LOGBLOCKS : @CstOp Z Z LOGBLOCKS Inj_Z_Z := @mkcst Z Z LOGBLOCKS Inj_Z_Z 30 eq_refl.
Add Zify CstOp Cst_LOGBLOCKS.
#[global] Instance Cst_FSSIZE : @CstOp Z Z FSSIZE Inj_Z_Z := @mkcst Z Z FSSIZE Inj_Z_Z 2000 eq_refl.
Add Zify CstOp Cst_FSSIZE.
#[global] Instance Cst_PTE_V : @CstOp Z Z PTE_V Inj_Z_Z := @mkcst Z Z PTE_V Inj_Z_Z 1 eq_refl.
Add Zify CstOp Cst_PTE_V.
#[global] Instance Cst_PTE_R : @CstOp Z Z PTE_R Inj_Z_Z := @mkcst Z Z PTE_R Inj_Z_Z 2 eq_refl.
Add Zify CstOp Cst_PTE_R.
#[global] Instance Cst_PTE_W : @CstOp Z Z PTE_W Inj_Z_Z := @mkcst Z Z PTE_W Inj_Z_Z 4 eq_refl.
Add Zify CstOp Cst_PTE_W.
#[global] Instance Cst_PTE_X : @CstOp Z Z PTE_X Inj_Z_Z := @mkcst Z Z PTE_X Inj_Z_Z 8 eq_refl.
Add Zify CstOp Cst_PTE_X.
#[global] Instance Cst_PTE_U : @CstOp Z Z PTE_U Inj_Z_Z := @mkcst Z Z PTE_U Inj_Z_Z 16 eq_refl.
Add Zify CstOp Cst_PTE_U.
#[global] Instance Cst_PXMASK : @CstOp Z Z PXMASK Inj_Z_Z := @mkcst Z Z PXMASK Inj_Z_Z 511 eq_refl.
Add Zify CstOp Cst_PXMASK.
#[global] Instance Cst_MAXPATH : @CstOp Z Z MAXPATH Inj_Z_Z := @mkcst Z Z MAXPATH Inj_Z_Z 128 eq_refl.
Add Zify CstOp Cst_MAXPATH.
#[global] Instance Cst_ROOTDEV : @CstOp Z Z ROOTDEV Inj_Z_Z := @mkcst Z Z ROOTDEV Inj_Z_Z 1 eq_refl.
Add Zify CstOp Cst_ROOTDEV.
#[global] Instance Cst_FSMAGIC : @CstOp Z Z FSMAGIC Inj_Z_Z := @mkcst Z Z FSMAGIC Inj_Z_Z 0x10203040 eq_refl.
Add Zify CstOp Cst_FSMAGIC.
#[global] Instance Cst_T_DIR : @CstOp Z Z T_DIR Inj_Z_Z := @mkcst Z Z T_DIR Inj_Z_Z 1 eq_refl.
Add Zify CstOp Cst_T_DIR.
#[global] Instance Cst_T_FILE : @CstOp Z Z T_FILE Inj_Z_Z := @mkcst Z Z T_FILE Inj_Z_Z 2 eq_refl.
Add Zify CstOp Cst_T_FILE.
#[global] Instance Cst_T_DEVICE : @CstOp Z Z T_DEVICE Inj_Z_Z := @mkcst Z Z T_DEVICE Inj_Z_Z 3 eq_refl.
Add Zify CstOp Cst_T_DEVICE.
#[global] Instance Cst_DINODE_SIZE : @CstOp Z Z DINODE_SIZE Inj_Z_Z := @mkcst Z Z DINODE_SIZE Inj_Z_Z 64 eq_refl.
Add Zify CstOp Cst_DINODE_SIZE.
#[global] Instance Cst_IPB : @CstOp Z Z IPB Inj_Z_Z := @mkcst Z Z IPB Inj_Z_Z 16 eq_refl.
Add Zify CstOp Cst_IPB.
#[global] Instance Cst_BPB : @CstOp Z Z BPB Inj_Z_Z := @mkcst Z Z BPB Inj_Z_Z 8192 eq_refl.
Add Zify CstOp Cst_BPB.
#[global] Instance Cst_INPUT_BUF_SIZE : @CstOp Z Z INPUT_BUF_SIZE Inj_Z_Z := @mkcst Z Z INPUT_BUF_SIZE Inj_Z_Z 128 eq_refl.
Add Zify CstOp Cst_INPUT_BUF_SIZE.
#[global] Instance Cst_UART_TX_BUF_SIZE : @CstOp Z Z UART_TX_BUF_SIZE Inj_Z_Z := @mkcst Z Z UART_TX_BUF_SIZE Inj_Z_Z 32 eq_refl.
Add Zify CstOp Cst_UART_TX_BUF_SIZE.
#[global] Instance Cst_NPROC : @CstOp nat Z NPROC Inj_nat_Z := @mkcst nat Z NPROC Inj_nat_Z 64 eq_refl.
Add Zify CstOp Cst_NPROC.
#[global] Instance Cst_NCPU : @CstOp nat Z NCPU Inj_nat_Z := @mkcst nat Z NCPU Inj_nat_Z 8 eq_refl.
Add Zify CstOp Cst_NCPU.
#[global] Instance Cst_NINODE : @CstOp nat Z NINODE Inj_nat_Z := @mkcst nat Z NINODE Inj_nat_Z 50 eq_refl.
Add Zify CstOp Cst_NINODE.
#[global] Instance Cst_NBUF : @CstOp nat Z NBUF Inj_nat_Z := @mkcst nat Z NBUF Inj_nat_Z 30 eq_refl.
Add Zify CstOp Cst_NBUF.

(** * The state before [main] *)

(** Globals without an initialiser are zero; [nextpid] is initialised to 1.
    All harts have interrupts off. *)
Definition zero_proc : proc :=
  mk_proc UNUSED None 0 0 0 None 0 0 0 0 (mk_context 0 0 (replicate 12 0)) None (replicate 16 0).
Definition zero_buf : buf :=
  mk_buf false false 0 0 (mk_sleeplock false 0) 0 NBUF NBUF (replicate (Z.to_nat BSIZE) 0).
Definition zero_inode : inode :=
  mk_inode 0 0 0 (mk_sleeplock false 0) false 0 0 0 0 0 (replicate (Z.to_nat NDIRECT + 1) 0).
Definition boot : kstate := {|
  k_hart := 0;
  k_cpus := replicate NCPU (mk_cpu None 0 false false);
  k_locks := ∅;
  k_procs := replicate NPROC zero_proc;
  k_nextpid := 1;
  k_initproc := None;
  k_ticks := 0;
  k_mem := ∅;
  k_freelist := 0;
  k_kpgtbl := 0;
  k_bcache := mk_bcache (replicate NBUF zero_buf) NBUF NBUF;
  k_disk := mk_disk ∅ [];
  k_log := mk_log 0 0 false 0 0 (mk_logheader 0 (replicate (Z.to_nat LOGBLOCKS) 0));
  k_sb := mk_superblock 0 0 0 0 0 0 0 0;
  k_itable := replicate NINODE zero_inode;
  k_cons := mk_cons (replicate (Z.to_nat INPUT_BUF_SIZE) 0) 0 0 0;
  k_uart := mk_uart (replicate (Z.to_nat UART_TX_BUF_SIZE) 0) 0 0 [] [] []
|}.
