(* ===== verification/Memory.v ===== *)
(** Byte memory and kernel/string.c.

    Memory is a finite map from addresses to bytes, zero where nothing was
    written.  The functions of string.c are translated loop by loop over it;
    the lemmas then describe their result byte by byte ([mget]), which is all
    the other components use. *)

From S2P Require Import Prelude Types.
Local Open Scope c_scope.

(** * Bytes and words of memory *)

Definition mget (m : gmap Z Z) (a : Z) : Z := default 0 (m !! a).
Definition mset (m : gmap Z Z) (a v : Z) : gmap Z Z := <[a := u8 v]> m.

Lemma mget_mset m a v x : mget (mset m a v) x = if a =? x then u8 v else mget m x.
Proof.
  unfold mget, mset. destruct (Z.eqb_spec a x) as [->|H].
  - by rewrite lookup_insert_eq.
  - by rewrite lookup_insert_ne.
Qed.

(** Every byte of memory is a byte. *)
Definition mem_ok (m : gmap Z Z) : Prop := forall a, byte_ok (mget m a).

Lemma mset_ok m a v : mem_ok m -> mem_ok (mset m a v).
Proof.
  intros H x. rewrite mget_mset. case_ltb; [|apply H].
  unfold byte_ok, wrap. apply Z.mod_pos_bound. lia.
Qed.

(** The [n] bytes at [a], and writing a list of bytes at [a]. *)
Fixpoint bytes_at (m : gmap Z Z) (a : Z) (n : nat) : list Z :=
  match n with
  | O => []
  | S n => mget m a :: bytes_at m (a + 1) n
  end.

Fixpoint put_bytes (m : gmap Z Z) (a : Z) (l : list Z) : gmap Z Z :=
  match l with
  | [] => m
  | b :: l => put_bytes (mset m a b) (a + 1) l
  end.

Lemma length_bytes_at m a n : length (bytes_at m a n) = n.
Proof. revert a; induction n as [|n IH]; intros a; simpl; [done|]. by rewrite IH. Qed.

Lemma bytes_at_ok m a n : mem_ok m -> Forall byte_ok (bytes_at m a n).
Proof. intros H. revert a; induction n as [|n IH]; intros a; simpl; constructor; auto. Qed.

Lemma bytes_at_ext m m' a n :
  (forall x, a <= x < a + Z.of_nat n -> mget m x = mget m' x) ->
  bytes_at m a n = bytes_at m' a n.
Proof.
  revert a; induction n as [|n IH]; intros a H; simpl; [done|].
  rewrite (H a) by lia. f_equal. apply IH. intros. apply H. lia.
Qed.

Lemma bytes_at_lookup m a n (i : nat) :
  (i < n)%nat -> bytes_at m a n !! i = Some (mget m (a + Z.of_nat i)).
Proof.
  revert a i; induction n as [|n IH]; intros a i Hi; [lia|].
  destruct i as [|i]; simpl.
  - by rewrite Z.add_0_r.
  - rewrite IH by lia. do 2 f_equal. lia.
Qed.

Lemma bytes_at_app m a n1 n2 :
  bytes_at m a (n1 + n2) = bytes_at m a n1 ++ bytes_at m (a + Z.of_nat n1) n2.
Proof.
  revert a; induction n1 as [|n1 IH]; intros a; simpl.
  - by rewrite Z.add_0_r.
  - rewrite IH. do 3 f_equal. lia.
Qed.

Lemma mget_put_bytes m a l x :
  mget (put_bytes m a l) x =
  if (a <=? x) && (x <? a + Z.of_nat (length l))
  then u8 (nth (Z.to_nat (x - a)) l 0) else mget m x.
Proof.
  revert m a; induction l as [|b l IH]; intros m a; simpl length.
  { simpl put_bytes. destruct (Z.leb_spec a x); [|done]. simpl. by zsimp. }
  simpl put_bytes. rewrite IH, mget_mset.
  destruct (Z.eqb_spec a x) as [->|Hne].
  - zsimp. simpl. by rewrite Z.sub_diag.
  - destruct (Z.leb_spec (a + 1) x); zsimp; simpl; [|done].
    destruct (Z.ltb_spec x (a + 1 + Z.of_nat (length l))); zsimp; [|done].
    simpl. replace (Z.to_nat (x - a)) with (S (Z.to_nat (x - (a + 1)))) by lia. done.
Qed.

Lemma mget_put_bytes_out m a l x :
  x < a \/ a + Z.of_nat (length l) <= x -> mget (put_bytes m a l) x = mget m x.
Proof. intros H. rewrite mget_put_bytes. destruct H; zsimp; [done|]. by rewrite andb_false_r. Qed.

Lemma put_bytes_ok m a l : mem_ok m -> mem_ok (put_bytes m a l).
Proof. revert m a; induction l as [|b l IH]; intros m a H; simpl; [done|]. apply IH. by apply mset_ok. Qed.

Lemma bytes_at_put m a l :
  Forall byte_ok l -> bytes_at (put_bytes m a l) a (length l) = l.
Proof.
  intros Hl. apply list_eq. intros i.
  destruct (decide (i < length l)%nat) as [Hi|Hi].
  - rewrite bytes_at_lookup by done. rewrite mget_put_bytes. zsimp. simpl.
    replace (Z.to_nat (a + Z.of_nat i - a)) with i by lia.
    destruct (lookup_lt_is_Some_2 l i Hi) as [b Hb]. rewrite Hb.
    rewrite (nth_lookup_Some _ _ _ _ Hb). f_equal. apply wrap_small.
    by apply (Forall_lookup_1 _ _ _ _ Hl Hb).
  - rewrite !lookup_ge_None_2; [done|lia|rewrite length_bytes_at; lia].
Qed.

(** Loads and stores of an [n]-byte little-endian word. *)
Definition load (n : nat) (m : gmap Z Z) (a : Z) : Z := le_dec (bytes_at m a n).
Definition store (n : nat) (m : gmap Z Z) (a v : Z) : gmap Z Z :=
  put_bytes m a (le_enc n v).
Abbreviation load64 := (load 8).
Abbreviation store64 := (store 8).

Lemma load_ext n m m' a :
  (forall x, a <= x < a + Z.of_nat n -> mget m x = mget m' x) -> load n m a = load n m' a.
Proof. intros H. unfold load. by rewrite (bytes_at_ext m m'). Qed.

Lemma load_store n m a v : load n (store n m a v) a = v mod 256 ^ Z.of_nat n.
Proof.
  unfold load, store.
  pose proof (bytes_at_put m a (le_enc n v) (le_enc_bytes n v)) as H.
  rewrite length_le_enc in H. rewrite H. apply le_dec_enc.
Qed.

Lemma load64_store64 m a v : 0 <= v < 2 ^ 64 -> load64 (store64 m a v) a = v.
Proof. intros H. rewrite load_store. by apply Z.mod_small. Qed.

Lemma mget_store_out n m a v x :
  x < a \/ a + Z.of_nat n <= x -> mget (store n m a v) x = mget m x.
Proof. intros H. unfold store. rewrite mget_put_bytes_out; [done|]. by rewrite length_le_enc. Qed.

Lemma load_store_out n k m a v b :
  b + Z.of_nat k <= a \/ a + Z.of_nat n <= b -> load k (store n m a v) b = load k m b.
Proof. intros H. apply load_ext. intros x Hx. apply mget_store_out. lia. Qed.

Lemma store_ok n m a v : mem_ok m -> mem_ok (store n m a v).
Proof. apply put_bytes_ok. Qed.

Lemma load_range n m a : mem_ok m -> 0 <= load n m a < 256 ^ Z.of_nat n.
Proof.
  intros H. pose proof (le_dec_range _ (bytes_at_ok m a n H)) as Hr.
  by rewrite length_bytes_at in Hr.
Qed.

Lemma load64_range m a : mem_ok m -> 0 <= load64 m a < 2 ^ 64.
Proof. apply (load_range 8). Qed.

(** * string.c *)

(** [for (i = 0; i < n; i++) cdst[i] = c;] *)
Fixpoint memset_loop (n : nat) (m : gmap Z Z) (cdst c : Z) : gmap Z Z :=
  match n with
  | O => m
  | S n => memset_loop n (mset m cdst c) (cdst + 1) c
  end.

Definition memset (m : gmap Z Z) (dst c n : Z) : gmap Z Z :=
  memset_loop (Z.to_nat n) m dst c.

(** [while (n-- > 0) *d++ = *s++;] *)
Fixpoint copy_up (n : nat) (m : gmap Z Z) (d s : Z) : gmap Z Z :=
  match n with
  | O => m
  | S n => copy_up n (mset m d (mget m s)) (d + 1) (s + 1)
  end.

(** [while (n-- > 0) *--d = *--s;] *)
Fixpoint copy_down (n : nat) (m : gmap Z Z) (d s : Z) : gmap Z Z :=
  match n with
  | O => m
  | S n => copy_down n (mset m (d - 1) (mget m (s - 1))) (d - 1) (s - 1)
  end.

Definition memmove (m : gmap Z Z) (dst src n : Z) : gmap Z Z :=
  if n =? 0 then m
  else if (src <? dst) && (dst <? src + n)
       then copy_down (Z.to_nat n) m (dst + n) (src + n)
       else copy_up (Z.to_nat n) m dst src.

Definition memcpy (m : gmap Z Z) (dst src n : Z) : gmap Z Z := memmove m dst src n.

Fixpoint memcmp_loop (n : nat) (m : gmap Z Z) (s1 s2 : Z) : Z :=
  match n with
  | O => 0
  | S n => if mget m s1 =? mget m s2 then memcmp_loop n m (s1 + 1) (s2 + 1)
           else mget m s1 - mget m s2
  end.
Definition memcmp (m : gmap Z Z) (v1 v2 n : Z) : Z := memcmp_loop (Z.to_nat n) m v1 v2.

(** [while (n > 0 && *p && *p == *q) n--, p++, q++;] and the test after it. *)
Fixpoint strncmp_loop (n : nat) (m : gmap Z Z) (p q : Z) : Z :=
  match n with
  | O => 0
  | S n' => if negb (mget m p =? 0) && (mget m p =? mget m q)
            then strncmp_loop n' m (p + 1) (q + 1)
            else mget m p - mget m q
  end.
Definition strncmp (m : gmap Z Z) (p q n : Z) : Z := strncmp_loop (Z.to_nat n) m p q.

(** [while (n-- > 0) *s++ = 0;] *)
Fixpoint pad_loop (n : nat) (m : gmap Z Z) (s : Z) : gmap Z Z :=
  match n with O => m | S n => pad_loop n (mset m s 0) (s + 1) end.

(** [while (n-- > 0 && ( *s++ = *t++ ) != 0);] then the padding loop, which runs
    for the [n] that is left. *)
Fixpoint strncpy_loop (n : nat) (m : gmap Z Z) (s t : Z) : gmap Z Z :=
  match n with
  | O => m
  | S n =>
      let m' := mset m s (mget m t) in
      if mget m' s =? 0 then pad_loop n m' (s + 1)
      else strncpy_loop n m' (s + 1) (t + 1)
  end.
Definition strncpy (m : gmap Z Z) (s t n : Z) : gmap Z Z := strncpy_loop (Z.to_nat n) m s t.

(** [while (--n > 0 && ( *s++ = *t++ ) != 0); *s = 0;], entered with [n]
    standing for the value after the first [--n]. *)
Fixpoint safestrcpy_loop (n : nat) (m : gmap Z Z) (s t : Z) : gmap Z Z :=
  match n with
  | O => mset m s 0
  | S n =>
      let m' := mset m s (mget m t) in
      if mget m' s =? 0 then mset m' (s + 1) 0
      else safestrcpy_loop n m' (s + 1) (t + 1)
  end.
Definition safestrcpy (m : gmap Z Z) (s t n : Z) : gmap Z Z :=
  if n <=? 0 then m else safestrcpy_loop (Z.to_nat (n - 1)) m s t.

(** [for (n = 0; s[n]; n++);] The fuel bounds the search for the NUL. *)
Fixpoint strlen_loop (fuel : nat) (m : gmap Z Z) (s n : Z) : option Z :=
  match fuel with
  | O => None
  | S fuel => if mget m (s + n) =? 0 then Some n else strlen_loop fuel m s (n + 1)
  end.
Definition strlen (fuel : nat) (m : gmap Z Z) (s : Z) : option Z := strlen_loop fuel m s 0.

#[global] Arguments memset : simpl never.
#[global] Arguments memmove : simpl never.
#[global] Arguments memcmp : simpl never.
#[global] Arguments strncmp : simpl never.
#[global] Arguments strncpy : simpl never.
#[global] Arguments safestrcpy : simpl never.
#[global] Arguments load : simpl never.
#[global] Arguments store : simpl never.
#[global] Arguments mget : simpl never.
#[global] Arguments mset : simpl never.

(** ** What the loops compute *)

Lemma mget_memset_loop n m d c x :
  mget (memset_loop n m d c) x =
  if (d <=? x) && (x <? d + Z.of_nat n) then u8 c else mget m x.
Proof.
  revert m d; induction n as [|n IH]; intros m d.
  { simpl. destruct (Z.leb_spec d x); [|done]. simpl. by zsimp. }
  simpl memset_loop. rewrite IH, mget_mset. repeat case_ltb; simpl; try done; lia.
Qed.

Lemma mget_memset m d c n x :
  0 <= n ->
  mget (memset m d c n) x = if (d <=? x) && (x <? d + n) then u8 c else mget m x.
Proof. intros H. unfold memset. rewrite mget_memset_loop. by rewrite Z2Nat.id. Qed.

Lemma mget_memset_out m d c n x :
  0 <= n -> x < d \/ d + n <= x -> mget (memset m d c n) x = mget m x.
Proof. intros Hn H. rewrite mget_memset by done. destruct H; zsimp; [done|]. by rewrite andb_false_r. Qed.

Lemma memset_ok m d c n : mem_ok m -> mem_ok (memset m d c n).
Proof.
  intros H. unfold memset. generalize (Z.to_nat n). intros k.
  revert m d H; induction k as [|k IH]; intros m d H; simpl; [done|]. apply IH. by apply mset_ok.
Qed.

Lemma load_memset_zero k m d n a :
  0 <= n -> d <= a -> a + Z.of_nat k <= d + n -> load k (memset m d 0 n) a = 0.
Proof.
  intros Hn Ha Hb. unfold load.
  assert (H : bytes_at (memset m d 0 n) a k = replicate k 0).
  { revert a Ha Hb; induction k as [|k IH]; intros a Ha Hb; simpl; [done|].
    rewrite IH by lia. rewrite mget_memset by done. by zsimp. }
  rewrite H. clear. induction k as [|k IH]; cbn [replicate le_dec]; lia.
Qed.

Lemma load_memset_out k m d c n a :
  0 <= n -> a + Z.of_nat k <= d \/ d + n <= a -> load k (memset m d c n) a = load k m a.
Proof. intros Hn H. apply load_ext. intros x Hx. apply mget_memset_out; lia. Qed.

(** Copying upwards is right when the destination does not start inside the
    source, copying downwards when the source does not start inside the
    destination. *)
Lemma mget_copy_up n m d s x :
  mem_ok m -> d <= s \/ s + Z.of_nat n <= d ->
  mget (copy_up n m d s) x =
  if (d <=? x) && (x <? d + Z.of_nat n) then mget m (s + (x - d)) else mget m x.
Proof.
  revert m d s; induction n as [|n IH]; intros m d s Hm H.
  { simpl. destruct (Z.leb_spec d x); [|done]. simpl. by zsimp. }
  simpl copy_up. rewrite IH; [|by apply mset_ok|lia].
  rewrite !mget_mset. replace (s + 1 + (x - (d + 1))) with (s + (x - d)) by lia.
  destruct (Z.eqb_spec d x) as [->|Hx].
  - zsimp. simpl. rewrite wrap_small by apply Hm. f_equal. lia.
  - repeat case_ltb; simpl; try done; lia.
Qed.

Lemma mget_copy_down n m d s x :
  mem_ok m -> s <= d ->
  mget (copy_down n m d s) x =
  if (d - Z.of_nat n <=? x) && (x <? d) then mget m (s + (x - d)) else mget m x.
Proof.
  revert m d s; induction n as [|n IH]; intros m d s Hm H.
  { simpl. rewrite Z.sub_0_r. destruct (Z.leb_spec d x); [|done]. simpl. by zsimp. }
  simpl copy_down. rewrite IH; [|by apply mset_ok|lia].
  rewrite !mget_mset. replace (s - 1 + (x - (d - 1))) with (s + (x - d)) by lia.
  destruct (Z.eqb_spec (d - 1) x) as [<-|Hx].
  - zsimp. simpl. rewrite wrap_small by apply Hm.
    rewrite ?andb_false_r. f_equal. lia.
  - repeat case_ltb; simpl; try done; lia.
Qed.

Lemma mget_memmove m d s n x :
  mem_ok m -> 0 <= n ->
  mget (memmove m d s n) x =
  if (d <=? x) && (x <? d + n) then mget m (s + (x - d)) else mget m x.
Proof.
  intros Hm Hn. unfold memmove. destruct (Z.eqb_spec n 0) as [->|Hn0].
  { destruct (Z.leb_spec d x); [|done]. simpl. by zsimp. }
  destruct (Z.ltb_spec s d); simpl.
  - destruct (Z.ltb_spec d (s + n)).
    + rewrite mget_copy_down by (done || lia). rewrite Z2Nat.id by lia.
      replace (d + n - n) with d by lia.
      by replace (s + n + (x - (d + n))) with (s + (x - d)) by lia.
    + rewrite mget_copy_up by (done || lia). by rewrite Z2Nat.id by lia.
  - rewrite mget_copy_up by (done || lia). by rewrite Z2Nat.id by lia.
Qed.

Lemma memmove_ok m d s n : mem_ok m -> 0 <= n -> mem_ok (memmove m d s n).
Proof. intros Hm Hn x. rewrite mget_memmove by done. by case_match. Qed.

(** Between disjoint ranges a [memmove] stores the bytes read. *)
Lemma bytes_at_memmove m d s n :
  mem_ok m -> bytes_at (memmove m d s (Z.of_nat n)) d n = bytes_at m s n.
Proof.
  intros Hm. apply list_eq. intros i. destruct (decide (i < n)%nat) as [Hi|Hi].
  - rewrite !bytes_at_lookup by done. rewrite mget_memmove by (done || lia).
    zsimp. simpl. do 2 f_equal. lia.
  - rewrite !lookup_ge_None_2; [done|rewrite length_bytes_at; lia..].
Qed.

(** ** Strings *)

(** [k] is the length of the string at [t], if it is shorter than [n], else [n]. *)
Definition str_upto (m : gmap Z Z) (t n k : Z) : Prop :=
  0 <= k <= n /\ (forall i, 0 <= i < k -> mget m (t + i) <> 0) /\ (k < n -> mget m (t + k) = 0).

Lemma str_upto_S m t n k :
  mget m t <> 0 -> str_upto m (t + 1) n k -> str_upto m t (n + 1) (k + 1).
Proof.
  intros H0 (H1 & H2 & H3). split_and!; try lia.
  - intros i Hi. destruct (decide (i = 0)) as [->|Hne]; [by rewrite Z.add_0_r|].
    replace (t + i) with (t + 1 + (i - 1)) by lia. apply H2. lia.
  - intros Hlt. replace (t + (k + 1)) with (t + 1 + k) by lia. apply H3. lia.
Qed.

Lemma str_upto_ext m m' t n k :
  (forall x, t <= x < t + n -> mget m' x = mget m x) -> str_upto m' t n k -> str_upto m t n k.
Proof.
  intros He (H1 & H2 & H3). split_and!; [lia|lia|..].
  - intros i Hi. rewrite <- He by lia. by apply H2.
  - intros Hk. rewrite <- He by lia. by apply H3.
Qed.

(** The loop of [safestrcpy] with room for [n] characters and the NUL. *)
Lemma safestrcpy_loop_spec n m s t :
  mem_ok m -> t + Z.of_nat n <= s \/ s + Z.of_nat n + 1 <= t ->
  exists k, str_upto m t (Z.of_nat n) k /\
    (forall i, 0 <= i < k -> mget (safestrcpy_loop n m s t) (s + i) = mget m (t + i)) /\
    mget (safestrcpy_loop n m s t) (s + k) = 0 /\
    (forall x, x < s \/ s + Z.of_nat n < x -> mget (safestrcpy_loop n m s t) x = mget m x).
Proof.
  revert m s t; induction n as [|n IH]; intros m s t Hm Hd.
  - exists 0. simpl. split_and!; try lia.
    + split_and!; lia.
    + rewrite mget_mset. by rewrite Z.add_0_r, Z.eqb_refl.
    + intros x Hx. rewrite mget_mset. by zsimp.
  - cbn [safestrcpy_loop]. rewrite mget_mset, Z.eqb_refl, wrap_small by apply Hm.
    destruct (Z.eqb_spec (mget m t) 0) as [E|E].
    + exists 0. split_and!; try lia.
      * split_and!; try lia. intros _. by rewrite Z.add_0_r.
      * rewrite !mget_mset, Z.add_0_r, Z.eqb_refl, E. by zsimp.
      * intros x Hx. rewrite !mget_mset. by zsimp.
    + set (m1 := mset m s (mget m t)).
      destruct (IH m1 (s + 1) (t + 1)) as (k & Hk & H1 & H2 & H3); [by apply mset_ok|lia|].
      exists (k + 1). replace (Z.of_nat (S n)) with (Z.of_nat n + 1) by lia.
      assert (He : forall x, t + 1 <= x < t + 1 + Z.of_nat n -> mget m1 x = mget m x).
      { intros x Hx. unfold m1. rewrite mget_mset. by zsimp. }
      split_and!.
      * apply str_upto_S; [done|]. by apply (str_upto_ext m m1).
      * intros i Hi. destruct (decide (i = 0)) as [->|Hne].
        -- rewrite H3 by lia. unfold m1. rewrite mget_mset. zsimp. rewrite Z.add_0_r.
           apply wrap_small, Hm.
        -- replace (s + i) with (s + 1 + (i - 1)) by lia. rewrite H1 by lia.
           destruct Hk as [Hk _]. rewrite He by lia. f_equal. lia.
      * by replace (s + (k + 1)) with (s + 1 + k) by lia.
      * intros x Hx. rewrite H3 by lia. unfold m1. rewrite mget_mset. by zsimp.
Qed.

(** Safestrcpy copies the string at [t], cut to [n - 1] characters, always
    ends it with a NUL, and writes nothing outside the [n] bytes at [s]. *)
Theorem safestrcpy_terminates_string m s t n :
  mem_ok m -> 0 < n -> t + n - 1 <= s \/ s + n <= t ->
  exists k, str_upto m t (n - 1) k /\
    (forall i, 0 <= i < k -> mget (safestrcpy m s t n) (s + i) = mget m (t + i)) /\
    mget (safestrcpy m s t n) (s + k) = 0 /\
    (forall x, x < s \/ s + n <= x -> mget (safestrcpy m s t n) x = mget m x).
Proof.
  intros Hm Hn Hd. unfold safestrcpy. rewrite (proj2 (Z.leb_gt _ _)) by lia.
  destruct (safestrcpy_loop_spec (Z.to_nat (n - 1)) m s t Hm) as (k & H1 & H2 & H3 & H4); [lia|].
  rewrite Z2Nat.id in * by lia. exists k. split_and!; try apply H1; try assumption.
  intros x Hx. apply H4. lia.
Qed.

Definition abc : gmap Z Z := put_bytes ∅ 100 [97; 98; 99; 0].

Lemma abc_ok : mem_ok abc.
Proof. apply put_bytes_ok. intros a. unfold mget. by rewrite lookup_empty. Qed.

Lemma safestrcpy_terminates_string_witness :
  mget (safestrcpy abc 200 100 3) 201 = 98 /\
  exists k, str_upto abc 100 2 k /\ mget (safestrcpy abc 200 100 3) (200 + k) = 0.
Proof.
  split; [vm_compute; reflexivity|].
  destruct (safestrcpy_terminates_string abc 200 100 3) as (k & H1 & _ & H2 & _);
    [apply abc_ok|lia|lia|]. by exists k.
Defined.

(** Strncmp answers 0 exactly when the two strings agree on their first [n]
    bytes, up to and including the first NUL. *)
Theorem strncmp_zero_iff m p q n :
  mem_ok m ->
  strncmp m p q n = 0 <->
  (forall i, 0 <= i < n -> (forall j, 0 <= j < i -> mget m (p + j) <> 0) ->
     mget m (p + i) = mget m (q + i)).
Proof.
  intros Hm. unfold strncmp. destruct (decide (n <= 0)) as [Hn|Hn].
  { replace (Z.to_nat n) with O by lia. split; [intros _ i Hi; lia|done]. }
  assert (exists k, n = Z.of_nat k) as [k ->] by (exists (Z.to_nat n); lia).
  rewrite Nat2Z.id. clear Hn. rename k into n.
  revert p q; induction n as [|n IH]; intros p q; cbn [strncmp_loop]; [split; [intros _ i Hi; lia|done]|].
  destruct (Z.eqb_spec (mget m p) 0) as [E0|E0]; simpl.
  - split.
    + intros H i Hi Hj. destruct (decide (i = 0)) as [->|Hne]; [rewrite !Z.add_0_r; lia|].
      exfalso. apply (Hj 0); [lia|]. by rewrite Z.add_0_r.
    + intros H. specialize (H 0 ltac:(lia)). rewrite !Z.add_0_r in H. rewrite H by lia. lia.
  - destruct (Z.eqb_spec (mget m p) (mget m q)) as [E|E].
    + rewrite IH. split; intros H i Hi Hj.
      * destruct (decide (i = 0)) as [->|Hne]; [by rewrite !Z.add_0_r|].
        replace (p + i) with (p + 1 + (i - 1)) by lia. replace (q + i) with (q + 1 + (i - 1)) by lia.
        apply H; [lia|]. intros j Hj'. replace (p + 1 + j) with (p + (j + 1)) by lia. apply Hj. lia.
      * replace (p + 1 + i) with (p + (i + 1)) by lia. replace (q + 1 + i) with (q + (i + 1)) by lia.
        apply H; [lia|]. intros j Hj'. destruct (decide (j = 0)) as [->|Hne]; [by rewrite Z.add_0_r|].
        replace (p + j) with (p + 1 + (j - 1)) by lia. apply Hj. lia.
    + split; [lia|]. intros H. exfalso. apply E. specialize (H 0 ltac:(lia)).
      rewrite !Z.add_0_r in H. apply H. lia.
Qed.

Lemma strncmp_zero_iff_witness :
  strncmp abc 100 100 8 = 0 /\
  (forall i, 0 <= i < 8 -> (forall j, 0 <= j < i -> mget abc (100 + j) <> 0) ->
     mget abc (100 + i) = mget abc (100 + i)).
Proof.
  split; [vm_compute; reflexivity|].
  apply (strncmp_zero_iff abc 100 100 8); [apply abc_ok|vm_compute; reflexivity].
Defined.

(** Memmove is right for every overlap of the two ranges: the destination
    holds the bytes the source held before, the rest of memory is unchanged. *)
Theorem memmove_overlap m dst src n :
  mem_ok m ->
  bytes_at (memmove m dst src (Z.of_nat n)) dst n = bytes_at m src n /\
  (forall x, x < dst \/ dst + Z.of_nat n <= x -> mget (memmove m dst src (Z.of_nat n)) x = mget m x).
Proof.
  intros Hm. split; [by apply bytes_at_memmove|].
  intros x Hx. rewrite mget_memmove by (done || lia).
  destruct Hx; zsimp; [done|]. by rewrite andb_false_r.
Qed.

Lemma memmove_overlap_witness : bytes_at (memmove abc 101 100 4) 101 4 = [97; 98; 99; 0].
Proof.
  change 4 with (Z.of_nat 4) at 1.
  rewrite (proj1 (memmove_overlap abc 101 100 4 abc_ok)). vm_compute. reflexivity.
Defined.

#[export] Hint Resolve mset_ok put_bytes_ok store_ok memset_ok memmove_ok : kern.

#[global] Opaque memset memmove load store.
