(* ===== verification/Spinlock.v ===== *)
(** kernel/spinlock.c.

    The first part translates the functions as one CPU runs them on the kernel
    state, with the panics of the code; a lock that another CPU holds makes
    [acquire] spin for ever, as nothing else runs meanwhile.  [enter] and
    [restore] describe a critical section, and the lemmas on them are how every
    other component gets through its locked regions.  The second part takes
    [acquire] and [release] apart into the atomic memory accesses they are made
    of, and shows mutual exclusion for any number of harts interleaved. *)

From S2P Require Import Prelude Types.
Local Open Scope c_scope.

(** * The functions *)

Definition lock_get (s : kstate) (l : lockid) : spinlock :=
  default unlocked (k_locks s !! l).

Definition lock_put (l : lockid) (v : spinlock) (s : kstate) : kstate :=
  set_k_locks (if decide (v = unlocked) then delete l (k_locks s)
               else <[l := v]> (k_locks s)) s.

(** proc.c: [cpuid], [mycpu]. *)
Definition cpuid : K nat := gets k_hart.
Definition mycpu : K cpu :=
  fun s => deref "cpus" (k_cpus s !! k_hart s) s.
Definition put_mycpu (c : cpu) : K unit :=
  modify (fun s => set_k_cpus (<[k_hart s := c]> (k_cpus s)) s).

(** riscv.h: the interrupt-enable bit of this hart. *)
Definition intr_on : K unit := c <- mycpu ;; put_mycpu (set_c_sie true c).
Definition intr_off : K unit := c <- mycpu ;; put_mycpu (set_c_sie false c).
Definition intr_get : K bool := c <- mycpu ;; ret (c_sie c).
(** [rc_sstatus(SSTATUS_SIE)]: read and clear. *)
Definition rc_sie : K bool := c <- mycpu ;; put_mycpu (set_c_sie false c) ;; ret (c_sie c).

Definition initlock (l : lockid) : K unit := modify (lock_put l unlocked).

Definition holding (l : lockid) : K bool :=
  h <- cpuid ;;
  lk <- gets (fun s => lock_get s l) ;;
  ret (lk_locked lk && bool_decide (lk_cpu lk = Some h)).

Definition push_off : K unit :=
  old <- rc_sie ;;
  c <- mycpu ;;
  when (c_noff c =? 0) (put_mycpu (set_c_intena old c)) ;;
  c <- mycpu ;;
  put_mycpu (set_c_noff (c_noff c + 1) c).

Definition pop_off : K unit :=
  i <- intr_get ;;
  if (i : bool) then panic "pop_off - interruptible" else
  c <- mycpu ;;
  if c_noff c <? 1 then panic "pop_off" else
  put_mycpu (set_c_noff (c_noff c - 1) c) ;;
  c <- mycpu ;;
  when ((c_noff c =? 0) && c_intena c) intr_on.

Definition acquire (l : lockid) : K unit :=
  push_off ;;
  h <- holding l ;;
  if (h : bool) then panic "acquire" else
  lk <- gets (fun s => lock_get s l) ;;
  if lk_locked lk then (fun _ => Spin) else
  modify (lock_put l (mk_spinlock true (lk_cpu lk))) ;;
  hart <- cpuid ;;
  modify (lock_put l (mk_spinlock true (Some hart))).

Definition release (l : lockid) : K unit :=
  h <- holding l ;;
  if (negb h : bool) then panic "release" else
  modify (fun s => lock_put l (set_lk_cpu None (lock_get s l)) s) ;;
  modify (fun s => lock_put l (set_lk_locked false (lock_get s l)) s) ;;
  pop_off.

(** * Critical sections *)

(** The invariant of the current CPU: the nesting depth is not negative,
    inside a critical section interrupts are off, outside of one [intena]
    agrees with the interrupt bit. *)
Definition cpu_inv (c : cpu) : Prop :=
  0 <= c_noff c /\ (0 < c_noff c -> c_sie c = false) /\
  (c_noff c = 0 -> c_intena c = c_sie c).

Definition cpu_ok (s : kstate) : Prop :=
  exists c, k_cpus s !! k_hart s = Some c /\ cpu_inv c.

(** The CPU one level deeper, and the state after [acquire l]. *)
Definition cpu_push (c : cpu) : cpu := mk_cpu (c_proc c) (c_noff c + 1) (c_intena c) false.

Definition enter (l : lockid) (s : kstate) : kstate :=
  match k_cpus s !! k_hart s with
  | Some c =>
      set_k_locks (<[l := mk_spinlock true (Some (k_hart s))]> (k_locks s))
        (set_k_cpus (<[k_hart s := cpu_push c]> (k_cpus s)) s)
  | None => s
  end.

(** [s'] with the locks and CPUs of [s]. *)
Definition restore (s s' : kstate) : kstate :=
  set_k_locks (k_locks s) (set_k_cpus (k_cpus s) s').

Definition lock_free (s : kstate) (l : lockid) : Prop := k_locks s !! l = None.

Lemma cpu_push_inv c : cpu_inv c -> cpu_inv (cpu_push c).
Proof. intros (H0 & H1 & H2). unfold cpu_inv, cpu_push; simpl. split_and!; [lia|done|lia]. Qed.

Lemma enter_cpu_ok l s : cpu_ok s -> cpu_ok (enter l s).
Proof.
  intros (c & Hc & Hi). unfold cpu_ok, enter. rewrite Hc. simpl.
  exists (cpu_push c). split; [|by apply cpu_push_inv].
  apply list_lookup_insert_eq. by eapply lookup_lt_Some.
Qed.

Lemma enter_lock_ne l l' s : cpu_ok s -> l <> l' -> k_locks (enter l s) !! l' = k_locks s !! l'.
Proof. intros (c & Hc & _) Hne. unfold enter. rewrite Hc. simpl. by apply lookup_insert_ne. Qed.

Lemma lock_get_put l v s : lock_get (lock_put l v s) l = v.
Proof.
  unfold lock_get, lock_put. simpl. case_decide as E.
  - by rewrite lookup_delete_eq.
  - by rewrite lookup_insert_eq.
Qed.

Lemma push_off_ok s c :
  k_cpus s !! k_hart s = Some c -> cpu_inv c ->
  push_off s = Ret tt (set_k_cpus (<[k_hart s := cpu_push c]> (k_cpus s)) s).
Proof.
  intros Hc (H0 & H1 & H2).
  assert (Hlt : (k_hart s < length (k_cpus s))%nat) by (by eapply lookup_lt_Some).
  unfold push_off, rc_sie, mycpu, put_mycpu, bind, deref, modify, ret, when.
  rewrite Hc. simpl. rewrite list_lookup_insert_eq by done. simpl.
  destruct (Z.eqb_spec (c_noff c) 0) as [E|E]; simpl.
  - rewrite list_lookup_insert_eq by (by rewrite length_insert). simpl.
    f_equal. unfold set_k_cpus; simpl. f_equal. rewrite !list_insert_insert_eq. f_equal.
    unfold cpu_push, set_c_noff, set_c_intena; simpl. by rewrite H2.
  - rewrite list_lookup_insert_eq by done. simpl.
    f_equal. unfold set_k_cpus; simpl. f_equal. by rewrite !list_insert_insert_eq.
Qed.

Lemma acquire_free l s :
  cpu_ok s -> lock_free s l -> acquire l s = Ret tt (enter l s).
Proof.
  intros (c & Hc & Hi) Hl. unfold acquire. run (push_off_ok s c Hc Hi).
  unfold enter. rewrite Hc.
  unfold holding, cpuid, bind, gets, lock_get, modify, ret. simpl.
  unfold lock_free in Hl. repeat (rewrite Hl; simpl). unfold lock_put. simpl.
  f_equal. unfold set_k_locks; simpl. f_equal.
  by rewrite insert_insert_eq.
Qed.

Lemma pop_off_ok s c :
  k_cpus s !! k_hart s = Some (cpu_push c) -> cpu_inv c ->
  pop_off s = Ret tt (set_k_cpus (<[k_hart s := c]> (k_cpus s)) s).
Proof.
  intros Hc (H0 & H1 & H2).
  assert (Hlt : (k_hart s < length (k_cpus s))%nat) by (by eapply lookup_lt_Some).
  unfold pop_off, intr_get, mycpu, put_mycpu, intr_on, bind, modify, ret, deref, when.
  rewrite Hc. simpl. rewrite Hc. simpl. zsimp.
  rewrite list_lookup_insert_eq by done. simpl.
  replace (c_noff c + 1 - 1) with (c_noff c) by lia.
  destruct c as [pr no ie si]; simpl in *. unfold set_c_noff; simpl.
  destruct (Z.eqb_spec no 0) as [->|E]; simpl.
  - rewrite <- H2 by done. destruct ie; simpl; [|done].
    unfold mycpu. simpl. rewrite list_lookup_insert_eq by done. simpl.
    unfold put_mycpu, modify, set_k_cpus; simpl. by rewrite list_insert_insert_eq.
  - rewrite H1 by lia. done.
Qed.

(** Leaving the critical section of [l], whatever the code did inside that is
    not the lock or the CPU, gives back the locks and the CPUs of before. *)
Lemma release_enter l s s' :
  cpu_ok s -> lock_free s l ->
  k_hart s' = k_hart s ->
  k_locks s' = k_locks (enter l s) -> k_cpus s' = k_cpus (enter l s) ->
  release l s' = Ret tt (restore s s').
Proof.
  intros (c & Hc & Hi) Hl Hh Hk Hcp.
  assert (Hlt : (k_hart s < length (k_cpus s))%nat) by (by eapply lookup_lt_Some).
  unfold enter in Hk, Hcp. rewrite Hc in Hk, Hcp. simpl in Hk, Hcp.
  assert (Hg : lock_get s' l = mk_spinlock true (Some (k_hart s))).
  { unfold lock_get. by rewrite Hk, lookup_insert_eq. }
  unfold release, holding, cpuid, bind, gets, modify, ret. simpl.
  rewrite Hg, Hh. simpl. rewrite bool_decide_true by done. simpl.
  rewrite Hg, lock_get_put. simpl.
  rewrite (pop_off_ok _ c); [|simpl; rewrite Hh, Hcp; by apply list_lookup_insert_eq|done].
  f_equal. unfold restore, lock_put, set_k_locks, set_k_cpus; simpl. f_equal.
  - rewrite Hh, Hcp, list_insert_insert_eq. by apply list_insert_id.
  - rewrite Hk. by rewrite insert_insert_eq, delete_insert_eq, delete_id.
Qed.

Create Rewrite HintDb kproj.

(** What a lock does not touch, and how updates made inside a critical section
    survive it. *)
Lemma k_hart_enter l s : k_hart (enter l s) = k_hart s.
Proof. unfold enter. by destruct (k_cpus s !! k_hart s). Qed.
Lemma k_procs_enter l s : k_procs (enter l s) = k_procs s.
Proof. unfold enter. by destruct (k_cpus s !! k_hart s). Qed.
Lemma k_nextpid_enter l s : k_nextpid (enter l s) = k_nextpid s.
Proof. unfold enter. by destruct (k_cpus s !! k_hart s). Qed.
Lemma k_initproc_enter l s : k_initproc (enter l s) = k_initproc s.
Proof. unfold enter. by destruct (k_cpus s !! k_hart s). Qed.
Lemma k_ticks_enter l s : k_ticks (enter l s) = k_ticks s.
Proof. unfold enter. by destruct (k_cpus s !! k_hart s). Qed.
Lemma k_mem_enter l s : k_mem (enter l s) = k_mem s.
Proof. unfold enter. by destruct (k_cpus s !! k_hart s). Qed.
Lemma k_freelist_enter l s : k_freelist (enter l s) = k_freelist s.
Proof. unfold enter. by destruct (k_cpus s !! k_hart s). Qed.
Lemma k_kpgtbl_enter l s : k_kpgtbl (enter l s) = k_kpgtbl s.
Proof. unfold enter. by destruct (k_cpus s !! k_hart s). Qed.
Lemma k_bcache_enter l s : k_bcache (enter l s) = k_bcache s.
Proof. unfold enter. by destruct (k_cpus s !! k_hart s). Qed.
Lemma k_disk_enter l s : k_disk (enter l s) = k_disk s.
Proof. unfold enter. by destruct (k_cpus s !! k_hart s). Qed.
Lemma k_log_enter l s : k_log (enter l s) = k_log s.
Proof. unfold enter. by destruct (k_cpus s !! k_hart s). Qed.
Lemma k_sb_enter l s : k_sb (enter l s) = k_sb s.
Proof. unfold enter. by destruct (k_cpus s !! k_hart s). Qed.
Lemma k_itable_enter l s : k_itable (enter l s) = k_itable s.
Proof. unfold enter. by destruct (k_cpus s !! k_hart s). Qed.
Lemma k_cons_enter l s : k_cons (enter l s) = k_cons s.
Proof. unfold enter. by destruct (k_cpus s !! k_hart s). Qed.
Lemma k_uart_enter l s : k_uart (enter l s) = k_uart s.
Proof. unfold enter. by destruct (k_cpus s !! k_hart s). Qed.
#[export] Hint Rewrite k_hart_enter k_procs_enter k_nextpid_enter k_initproc_enter k_ticks_enter k_mem_enter k_freelist_enter k_kpgtbl_enter k_bcache_enter k_disk_enter k_log_enter k_sb_enter k_itable_enter k_cons_enter k_uart_enter : kproj.

Lemma restore_enter l s : restore s (enter l s) = s.
Proof. unfold enter. destruct (k_cpus s !! k_hart s); by destruct s. Qed.

Lemma restore_k_procs s s' v : restore s (set_k_procs v s') = set_k_procs v (restore s s').
Proof. reflexivity. Qed.
Lemma restore_k_nextpid s s' v : restore s (set_k_nextpid v s') = set_k_nextpid v (restore s s').
Proof. reflexivity. Qed.
Lemma restore_k_initproc s s' v : restore s (set_k_initproc v s') = set_k_initproc v (restore s s').
Proof. reflexivity. Qed.
Lemma restore_k_ticks s s' v : restore s (set_k_ticks v s') = set_k_ticks v (restore s s').
Proof. reflexivity. Qed.
Lemma restore_k_mem s s' v : restore s (set_k_mem v s') = set_k_mem v (restore s s').
Proof. reflexivity. Qed.
Lemma restore_k_freelist s s' v : restore s (set_k_freelist v s') = set_k_freelist v (restore s s').
Proof. reflexivity. Qed.
Lemma restore_k_kpgtbl s s' v : restore s (set_k_kpgtbl v s') = set_k_kpgtbl v (restore s s').
Proof. reflexivity. Qed.
Lemma restore_k_bcache s s' v : restore s (set_k_bcache v s') = set_k_bcache v (restore s s').
Proof. reflexivity. Qed.
Lemma restore_k_disk s s' v : restore s (set_k_disk v s') = set_k_disk v (restore s s').
Proof. reflexivity. Qed.
Lemma restore_k_log s s' v : restore s (set_k_log v s') = set_k_log v (restore s s').
Proof. reflexivity. Qed.
Lemma restore_k_sb s s' v : restore s (set_k_sb v s') = set_k_sb v (restore s s').
Proof. reflexivity. Qed.
Lemma restore_k_itable s s' v : restore s (set_k_itable v s') = set_k_itable v (restore s s').
Proof. reflexivity. Qed.
Lemma restore_k_cons s s' v : restore s (set_k_cons v s') = set_k_cons v (restore s s').
Proof. reflexivity. Qed.
Lemma restore_k_uart s s' v : restore s (set_k_uart v s') = set_k_uart v (restore s s').
Proof. reflexivity. Qed.
#[export] Hint Rewrite restore_enter restore_k_procs restore_k_nextpid restore_k_initproc restore_k_ticks restore_k_mem restore_k_freelist restore_k_kpgtbl restore_k_bcache restore_k_disk restore_k_log restore_k_sb restore_k_itable restore_k_cons restore_k_uart : kproj.

(** Projections of the state inside critical sections. *)
Ltac kproj := simpl; autorewrite with kproj; simpl.

(** [release l] at the end of a section entered from [s]; the side conditions
    are those of [release_enter]. *)
Ltac leave :=
  match goal with
  | Hc : cpu_ok ?s, Hl : lock_free ?s ?l |- context [bind (release ?l) _ ?s'] =>
      rewrite (bind_Ret _ _ _ _ _ (release_enter l s s' Hc Hl
        ltac:(by kproj) ltac:(reflexivity) ltac:(reflexivity)))
  | Hc : cpu_ok ?s, Hl : lock_free ?s ?l |- context [release ?l ?s'] =>
      rewrite (release_enter l s s' Hc Hl
        ltac:(by kproj) ltac:(reflexivity) ltac:(reflexivity))
  end.

(** A critical section is transparent: acquire, a body that leaves locks and
    CPU alone, release. Neither sanity check panics, interrupts are off inside,
    and afterwards the lock is free and the nesting depth and the interrupt
    state are those from before. *)
Theorem critical_section {A} l (body : K A) (a : A) s s' :
  cpu_ok s -> lock_free s l -> body (enter l s) = Ret a s' ->
  k_hart s' = k_hart s -> k_locks s' = k_locks (enter l s) -> k_cpus s' = k_cpus (enter l s) ->
  (acquire l ;; x <- body ;; release l ;; ret x) s = Ret a (restore s s') /\
  (exists c, k_cpus (enter l s) !! k_hart s = Some c /\ c_sie c = false) /\
  lock_free (restore s s') l /\ cpu_ok (restore s s').
Proof.
  intros Hc Hl Hb Hh Hk Hp. split_and!.
  - run (acquire_free l s Hc Hl). run Hb. by run (release_enter l s s' Hc Hl Hh Hk Hp).
  - destruct Hc as (c & Hc & Hi). exists (cpu_push c). unfold enter. rewrite Hc. simpl.
    split; [|done]. apply list_lookup_insert_eq. by eapply lookup_lt_Some.
  - done.
  - unfold cpu_ok, restore. simpl. by rewrite Hh.
Qed.

Lemma boot_cpu_ok : cpu_ok boot.
Proof. exists (mk_cpu None 0 false false). split; [done|]. by split_and!. Qed.

Lemma critical_section_witness :
  (acquire LK_kmem ;; x <- gets k_nextpid ;; release LK_kmem ;; ret x) boot = Ret 1 boot.
Proof.
  rewrite (proj1 (critical_section LK_kmem (gets k_nextpid) 1 boot (enter LK_kmem boot)
    boot_cpu_ok eq_refl eq_refl eq_refl eq_refl eq_refl)). by rewrite restore_enter.
Defined.

(** * Interleaved harts *)

Module Interleaved.

(** Where a hart is in [acquire]/[release] of one lock: outside; past the
    [holding] test and in the exchange loop; the exchange returned 0 but
    [lk->cpu] is not set yet; between [acquire] and [release]; in [release]
    after [lk->cpu = 0] and before the store to [locked]. *)
Inductive pc := Outside | Spinning | Swapped | Inside | Clearing.

Record st := mk_st { st_lk : spinlock; st_pc : gmap nat pc }.

Definition pc_of (x : st) (h : nat) : pc := default Outside (st_pc x !! h).
Definition at_pc (h : nat) (p : pc) (lk : spinlock) (x : st) : st :=
  mk_st lk (<[h := p]> (st_pc x)).

(** [holding(lk)] on hart [h]. *)
Definition holds (x : st) (h : nat) : bool :=
  lk_locked (st_lk x) && bool_decide (lk_cpu (st_lk x) = Some h).

(** One memory access of one hart; a failed [holding] test panics, so the
    machine has no step there. *)
Inductive step : st -> st -> Prop :=
| step_enter x h :
    pc_of x h = Outside -> holds x h = false ->
    step x (at_pc h Spinning (st_lk x) x)
| step_spin x h :   (* the exchange finds 1 and writes 1 *)
    pc_of x h = Spinning -> lk_locked (st_lk x) = true ->
    step x (at_pc h Spinning (set_lk_locked true (st_lk x)) x)
| step_swap x h :   (* the exchange finds 0 and writes 1 *)
    pc_of x h = Spinning -> lk_locked (st_lk x) = false ->
    step x (at_pc h Swapped (set_lk_locked true (st_lk x)) x)
| step_setcpu x h :
    pc_of x h = Swapped ->
    step x (at_pc h Inside (set_lk_cpu (Some h) (st_lk x)) x)
| step_clearcpu x h :
    pc_of x h = Inside -> holds x h = true ->
    step x (at_pc h Clearing (set_lk_cpu None (st_lk x)) x)
| step_store x h :
    pc_of x h = Clearing ->
    step x (at_pc h Outside (set_lk_locked false (st_lk x)) x).

Definition init : st := mk_st unlocked ∅.

Inductive reach : st -> Prop :=
| reach_init : reach init
| reach_step x y : reach x -> step x y -> reach y.

(** The part of the code that owns the lock. *)
Definition owns (p : pc) : bool :=
  match p with Swapped | Inside | Clearing => true | _ => false end.

(** Either nobody owns the lock and it is in its initial state, or one hart
    does, [locked] is set, and [lk->cpu] names it exactly while it is inside. *)
Definition inside (p : pc) : bool := match p with Inside => true | _ => false end.

Definition lk_of (x : st) (o : option nat) : spinlock :=
  match o with
  | None => unlocked
  | Some h => mk_spinlock true (if inside (pc_of x h) then Some h else None)
  end.

Definition inv (x : st) : Prop :=
  exists o, (forall h, owns (pc_of x h) = true <-> o = Some h) /\ st_lk x = lk_of x o.

Lemma pc_of_at x h p lk h' :
  pc_of (at_pc h p lk x) h' = if decide (h = h') then p else pc_of x h'.
Proof.
  unfold pc_of, at_pc; simpl. case_decide as E.
  - subst. by rewrite lookup_insert_eq.
  - by rewrite lookup_insert_ne.
Qed.

Lemma step_inv x y : inv x -> step x y -> inv y.
Proof.
  intros (o & Ho & Hlk) Hs.
  destruct Hs as [x h Hp Hh|x h Hp Hl|x h Hp Hl|x h Hp|x h Hp Hh|x h Hp];
    pose proof (Ho h) as Hoh; rewrite Hp in Hoh; simpl in Hoh.
  - exists o. split.
    + intros h'. rewrite pc_of_at. case_decide; [subst; done|apply Ho].
    + simpl. rewrite Hlk. destruct o as [h0|]; [|done]. simpl. rewrite pc_of_at.
      case_decide; [|done]. subst. by destruct Hoh as [_ Hoh]; discriminate Hoh.
  - exists o. split.
    + intros h'. rewrite pc_of_at. case_decide; [subst; done|apply Ho].
    + simpl. rewrite Hlk in Hl |- *. destruct o as [h0|]; [|done]. simpl. rewrite pc_of_at.
      case_decide; [|done]. subst. by destruct Hoh as [_ Hoh]; discriminate Hoh.
  - destruct o as [h0|]; [rewrite Hlk in Hl; discriminate|]. exists (Some h). split.
    + intros h'. rewrite pc_of_at. case_decide as E; [subst; done|].
      rewrite Ho. split; [done|congruence].
    + simpl. rewrite pc_of_at, decide_True, Hlk by done. done.
  - destruct Hoh as [Hoh _]. rewrite (Hoh eq_refl) in *. exists (Some h). split.
    + intros h'. rewrite pc_of_at. case_decide as E; [subst; done|apply Ho].
    + simpl. by rewrite pc_of_at, decide_True, Hlk by done.
  - destruct Hoh as [Hoh _]. rewrite (Hoh eq_refl) in *. exists (Some h). split.
    + intros h'. rewrite pc_of_at. case_decide as E; [subst; done|apply Ho].
    + simpl. by rewrite pc_of_at, decide_True, Hlk by done.
  - destruct Hoh as [Hoh _]. rewrite (Hoh eq_refl) in *. exists None. split.
    + intros h'. rewrite pc_of_at. case_decide as E; [done|].
      rewrite Ho. split; congruence.
    + simpl. rewrite Hlk. simpl. by rewrite Hp.
Qed.

Lemma reach_inv x : reach x -> inv x.
Proof.
  induction 1 as [|x y _ IH Hs]; [|by eapply step_inv].
  exists None. split; [|done]. intros h. unfold pc_of, init; simpl.
  rewrite lookup_empty. done.
Qed.

Lemma inside_owns p : inside p = true -> owns p = true.
Proof. by destruct p. Qed.

(** C26: at most one hart at a time is between the successful exchange in
    acquire and the clearing store in release, whatever the interleaving of the
    memory accesses of all harts. *)
Theorem mutual_exclusion x h h' :
  reach x -> owns (pc_of x h) = true -> owns (pc_of x h') = true -> h = h'.
Proof.
  intros Hr H1 H2. destruct (reach_inv x Hr) as (o & Ho & _).
  apply Ho in H1, H2. congruence.
Qed.

(** A run in which hart 0 is inside and hart 1 waits. *)
Definition contended : st :=
  at_pc 0 Inside (mk_spinlock true (Some 0%nat))
    (at_pc 1 Spinning (mk_spinlock true None) (at_pc 0 Swapped (mk_spinlock true None)
      (at_pc 0 Spinning unlocked init))).

Lemma contended_reach : reach contended.
Proof.
  assert (H1 : reach (at_pc 0 Spinning unlocked init)).
  { apply (reach_step init); [constructor|]. by apply (step_enter init 0%nat). }
  assert (H2 : reach (at_pc 0 Swapped (mk_spinlock true None) (at_pc 0 Spinning unlocked init))).
  { eapply reach_step; [exact H1|]. by apply (step_swap (at_pc 0 Spinning unlocked init) 0%nat). }
  set (y := at_pc 0 Swapped (mk_spinlock true None) (at_pc 0 Spinning unlocked init)) in *.
  assert (H3 : reach (at_pc 1 Spinning (mk_spinlock true None) y)).
  { eapply reach_step; [exact H2|]. by apply (step_enter y 1%nat). }
  eapply reach_step; [exact H3|].
  by apply (step_setcpu (at_pc 1 Spinning (mk_spinlock true None) y) 0%nat).
Qed.

Lemma mutual_exclusion_witness :
  pc_of contended 0 = Inside /\ pc_of contended 1 = Spinning /\
  forall h, owns (pc_of contended h) = true -> h = 0%nat.
Proof.
  split; [reflexivity|]. split; [reflexivity|].
  intros h Hh. apply (mutual_exclusion contended h 0 contended_reach Hh). reflexivity.
Defined.

(** The sanity checks of acquire and release never fire in a program that
    brackets its critical sections: a hart that has not acquired the lock does
    not hold it, and one that has acquired it does. *)
Theorem holding_agrees x h :
  reach x ->
  (pc_of x h = Outside -> holds x h = false) /\ (pc_of x h = Inside -> holds x h = true).
Proof.
  intros Hr. destruct (reach_inv x Hr) as (o & Ho & Hlk). unfold holds. rewrite Hlk.
  split; intros Hp.
  - destruct o as [h0|]; [|done]. simpl. destruct (inside (pc_of x h0)) eqn:Hi; [|done].
    apply bool_decide_eq_false_2. intros E. injection E as ->. by rewrite Hp in Hi.
  - assert (o = Some h) as -> by (apply Ho; by rewrite Hp). simpl. rewrite Hp. simpl.
    by apply bool_decide_eq_true_2.
Qed.

Lemma holding_agrees_witness : holds contended 0 = true /\ holds contended 5 = false.
Proof.
  split.
  - apply (holding_agrees contended 0 contended_reach). reflexivity.
  - apply (holding_agrees contended 5 contended_reach). reflexivity.
Defined.

End Interleaved.
