(* ===== verification/Kalloc.v ===== *)
(** kernel/kalloc.c: the physical page allocator.

    The free list is the one of the code: [kmem.freelist] holds the address of
    the first free page, and the first eight bytes of a free page hold the
    address of the next.  [flist m p l] says that the chain from [p] in memory
    [m] is the list [l]; [kmem_inv] is the allocator's invariant. *)

From S2P Require Import Prelude Types Memory Spinlock.
Local Open Scope c_scope.

(** The symbols of kernel.ld the C code uses as addresses, with the alignment
    and order the linker script gives them: text starts at [KERNBASE], the
    trampoline page is the last page of text, [etext] is page aligned, [end]
    lies between [etext] and the top of memory. *)
Class KernelLayout := {
  l_etext : Z;
  l_end : Z;
  l_trampoline : Z;
  l_etext_aligned : l_etext mod PGSIZE = 0;
  l_trampoline_aligned : l_trampoline mod PGSIZE = 0;
  l_text_order : KERNBASE <= l_trampoline < l_etext;
  l_end_order : l_etext <= l_end <= PHYSTOP
}.

(** * Page rounding *)

Lemma PGROUNDDOWN_eq a : PGROUNDDOWN a = a - a mod PGSIZE.
Proof.
  unfold PGROUNDDOWN, PGSIZE. change (4096 - 1) with (Z.ones 12).
  rewrite <- Z.ldiff_land, Z.ldiff_ones_r by lia.
  rewrite Z.shiftr_div_pow2, Z.shiftl_mul_pow2 by lia.
  change (2 ^ 12) with 4096. pose proof (Z.div_mod a 4096). lia.
Qed.

Lemma PGROUNDUP_eq a :
  0 <= a -> a + PGSIZE - 1 < 2 ^ 64 -> PGROUNDUP a = (a + PGSIZE - 1) / PGSIZE * PGSIZE.
Proof.
  intros H0 H1. unfold PGROUNDUP. rewrite wrap_small by (unfold PGSIZE in *; lia).
  fold (PGROUNDDOWN (a + PGSIZE - 1)). rewrite PGROUNDDOWN_eq. unfold PGSIZE.
  pose proof (Z.div_mod (a + 4096 - 1) 4096). lia.
Qed.

Lemma PGROUNDUP_bounds a :
  0 <= a -> a + PGSIZE - 1 < 2 ^ 64 ->
  a <= PGROUNDUP a < a + PGSIZE /\ PGROUNDUP a mod PGSIZE = 0.
Proof.
  intros H0 H1. rewrite PGROUNDUP_eq by done. split.
  - unfold PGSIZE. pose proof (Z.div_mod (a + 4096 - 1) 4096).
    pose proof (Z.mod_pos_bound (a + 4096 - 1) 4096). lia.
  - apply Z.mod_mul. unfold PGSIZE. lia.
Qed.

#[global] Arguments PGROUNDUP : simpl never.
#[global] Arguments PGROUNDDOWN : simpl never.

(** The [n] pages from [p] on. *)
Fixpoint pages (n : nat) (p : Z) : list Z :=
  match n with O => [] | S n => p :: pages n (p + PGSIZE) end.

Lemma elem_of_pages n p q :
  q ∈ pages n p <-> exists i, 0 <= i < Z.of_nat n /\ q = p + i * PGSIZE.
Proof.
  revert p; induction n as [|n IH]; intros p; cbn [pages].
  - split; [by intros ?%elem_of_nil|]. intros (i & Hi & _). lia.
  - rewrite elem_of_cons, IH. split.
    + intros [->|(i & Hi & ->)]; [exists 0|exists (i + 1)]; lia.
    + intros (i & Hi & ->). destruct (decide (i = 0)) as [->|Hne]; [left; lia|].
      right. exists (i - 1). lia.
Qed.

Lemma NoDup_pages n p : NoDup (pages n p).
Proof.
  revert p; induction n as [|n IH]; intros p; cbn [pages]; constructor; [|done].
  rewrite elem_of_pages. intros (i & Hi & Hp). unfold PGSIZE in Hp. lia.
Qed.

Section Kalloc.
Context {L : KernelLayout}.

(** * The functions *)

Definition kfree (pa : Z) : K unit :=
  if negb (pa mod PGSIZE =? 0) || (pa <? l_end) || (PHYSTOP <=? pa)
  then panic "kfree" else
  modify (fun s => set_k_mem (memset (k_mem s) pa 1 PGSIZE) s) ;;
  acquire LK_kmem ;;
  modify (fun s => set_k_mem (store64 (k_mem s) pa (k_freelist s)) s) ;;
  modify (set_k_freelist pa) ;;
  release LK_kmem.

Definition kalloc : K Z :=
  acquire LK_kmem ;;
  r <- gets k_freelist ;;
  when (negb (r =? 0))
    (modify (fun s => set_k_freelist (load64 (k_mem s) r) s)) ;;
  release LK_kmem ;;
  when (negb (r =? 0))
    (modify (fun s => set_k_mem (memset (k_mem s) r 5 PGSIZE) s)) ;;
  ret r.

(** [for (; p + PGSIZE <= pa_end; p += PGSIZE) kfree(p);] *)
Fixpoint freerange_loop (fuel : nat) (p pa_end : Z) : K unit :=
  match fuel with
  | O => nofuel
  | S fuel =>
      if p + PGSIZE <=? pa_end
      then kfree p ;; freerange_loop fuel (p + PGSIZE) pa_end
      else ret tt
  end.

Definition freerange (pa_start pa_end : Z) : K unit :=
  let p := PGROUNDUP pa_start in
  freerange_loop (S (Z.to_nat ((pa_end - p) / PGSIZE))) p pa_end.

Definition kinit : K unit :=
  initlock LK_kmem ;;
  freerange l_end PHYSTOP.

(** * The invariant *)

(** A page the allocator may own. *)
Definition page_ok (p : Z) : Prop := p mod PGSIZE = 0 /\ l_end <= p < PHYSTOP.

Fixpoint flist (m : gmap Z Z) (p : Z) (l : list Z) : Prop :=
  match l with
  | [] => p = 0
  | q :: l => p = q /\ flist m (load64 m q) l
  end.

Record kmem_inv (s : kstate) (l : list Z) : Prop := {
  km_list : flist (k_mem s) (k_freelist s) l;
  km_nodup : NoDup l;
  km_pages : Forall page_ok l;
  km_mem : mem_ok (k_mem s)
}.

(** Two memories that agree outside page [p]. *)
Definition same_but_page (p : Z) (m m' : gmap Z Z) : Prop :=
  forall x, x < p \/ p + PGSIZE <= x -> mget m' x = mget m x.

Lemma page_ok_pos p : page_ok p -> KERNBASE <= p < PHYSTOP.
Proof. intros [_ H]. pose proof l_end_order. pose proof l_text_order. lia. Qed.

Lemma page_ok_nonzero p : page_ok p -> p <> 0.
Proof. intros H. apply page_ok_pos in H. unfold KERNBASE in H. lia. Qed.

Lemma aligned_apart p q :
  p mod PGSIZE = 0 -> q mod PGSIZE = 0 -> p <> q -> p + PGSIZE <= q \/ q + PGSIZE <= p.
Proof.
  unfold PGSIZE. intros Hp Hq Hne.
  pose proof (Z.div_mod p 4096 ltac:(lia)). pose proof (Z.div_mod q 4096 ltac:(lia)). lia.
Qed.

Lemma page_ok_apart p q :
  page_ok p -> page_ok q -> p <> q -> p + PGSIZE <= q \/ q + PGSIZE <= p.
Proof. intros [Hp _] [Hq _]. by apply aligned_apart. Qed.

Lemma flist_ext m m' p l :
  (forall q, q ∈ l -> load64 m' q = load64 m q) -> flist m p l -> flist m' p l.
Proof.
  revert p; induction l as [|q l IH]; intros p H Hf; [done|].
  destruct Hf as [-> Hf]. split; [done|]. rewrite H by set_solver.
  apply IH; [set_solver|done].
Qed.

Lemma same_but_page_load64 p m m' a :
  same_but_page p m m' -> a + 8 <= p \/ p + PGSIZE <= a -> load64 m' a = load64 m a.
Proof. intros H Ha. apply load_ext. intros x Hx. apply H. lia. Qed.

(** Writing inside a page that is not in the list keeps the list. *)
Lemma flist_same_but p m m' q l :
  same_but_page p m m' -> page_ok p -> p ∉ l -> Forall page_ok l ->
  flist m q l -> flist m' q l.
Proof.
  intros Hs Hp Hn Hl. apply flist_ext. intros x Hx.
  rewrite Forall_forall in Hl. specialize (Hl x Hx).
  apply (same_but_page_load64 p); [done|].
  destruct (page_ok_apart p x Hp Hl) as [?|?]; [set_solver|..]; unfold PGSIZE in *; lia.
Qed.

Lemma same_but_page_trans p m1 m2 m3 :
  same_but_page p m1 m2 -> same_but_page p m2 m3 -> same_but_page p m1 m3.
Proof. intros H1 H2 x Hx. by rewrite H2, H1. Qed.

Lemma same_but_page_memset p m c : same_but_page p m (memset m p c PGSIZE).
Proof. intros x Hx. by apply mget_memset_out. Qed.

Lemma same_but_page_store p m a v :
  p <= a -> a + 8 <= p + PGSIZE -> same_but_page p m (store64 m a v).
Proof. intros H1 H2 x Hx. apply mget_store_out. lia. Qed.

(** A page of the list is not the null pointer and is less than 2^64. *)
Lemma flist_head_range l m p : Forall page_ok l -> flist m p l -> 0 <= p < 2 ^ 64.
Proof.
  intros Hl Hf. destruct l as [|q l]; simpl in Hf; [lia|]. destruct Hf as [-> _].
  apply Forall_cons in Hl as [Hq _]. apply page_ok_pos in Hq.
  unfold KERNBASE, PHYSTOP, KERNBASE in Hq. lia.
Qed.

(** * Behaviour *)

Lemma kfree_spec pa s l :
  cpu_ok s -> lock_free s LK_kmem -> kmem_inv s l -> page_ok pa -> pa ∉ l ->
  exists m, kfree pa s = Ret tt (set_k_freelist pa (set_k_mem m s)) /\
    same_but_page pa (k_mem s) m /\ mem_ok m /\
    kmem_inv (set_k_freelist pa (set_k_mem m s)) (pa :: l).
Proof.
  intros Hc Hl [Hf Hnd Hpg Hm] Hpa Hni. pose proof Hpa as [Ha Hr].
  unfold kfree. rewrite Ha. zsimp. simpl.
  set (m1 := memset (k_mem s) pa 1 PGSIZE).
  assert (Hc1 : cpu_ok (set_k_mem m1 s)) by done.
  assert (Hl1 : lock_free (set_k_mem m1 s) LK_kmem) by done.
  unfold modify at 1, bind at 1.
  run (acquire_free LK_kmem _ Hc1 Hl1).
  unfold modify, bind. kproj. leave. kproj.
  set (m2 := store64 m1 pa (k_freelist s)). exists m2.
  assert (Hsame : same_but_page pa (k_mem s) m2).
  { eapply same_but_page_trans; [apply same_but_page_memset|].
    apply same_but_page_store; unfold PGSIZE; lia. }
  assert (Hm2 : mem_ok m2) by (unfold m2, m1; auto with kern).
  split_and!; try fast_done. constructor; simpl; try fast_done.
  - split; [done|]. unfold m2. rewrite load64_store64.
    + by apply (flist_same_but pa (k_mem s)).
    + by apply (flist_head_range l (k_mem s)).
  - by constructor.
  - by constructor.
Qed.

Lemma kalloc_some p s l :
  cpu_ok s -> lock_free s LK_kmem -> kmem_inv s (p :: l) ->
  exists m, kalloc s = Ret p (set_k_freelist (load64 (k_mem s) p) (set_k_mem m s)) /\
    same_but_page p (k_mem s) m /\ mem_ok m /\ page_ok p /\ (p ∉ l) /\
    kmem_inv (set_k_freelist (load64 (k_mem s) p) (set_k_mem m s)) l.
Proof.
  intros Hc Hl [Hf Hnd Hpg Hm]. destruct Hf as [Hp Hf].
  apply Forall_cons in Hpg as [Hpp Hpl]. apply NoDup_cons in Hnd as [Hni Hnd].
  assert (Hp0 : p <> 0) by (by apply page_ok_nonzero).
  unfold kalloc. run (acquire_free LK_kmem s Hc Hl).
  unfold gets, bind at 1. kproj. rewrite Hp. zsimp. simpl.
  unfold modify at 1, bind at 1. kproj. leave. kproj.
  unfold modify, bind, ret; simpl.
  exists (memset (k_mem s) p 5 PGSIZE).
  assert (Hsame : same_but_page p (k_mem s) (memset (k_mem s) p 5 PGSIZE))
    by apply same_but_page_memset.
  split_and!; try fast_done.
  - auto with kern.
  - constructor; simpl; auto with kern. by apply (flist_same_but p (k_mem s)).
Qed.

Lemma kalloc_none s :
  cpu_ok s -> lock_free s LK_kmem -> kmem_inv s [] -> kalloc s = Ret 0 s.
Proof.
  intros Hc Hl [Hf _ _ _]. simpl in Hf.
  unfold kalloc. run (acquire_free LK_kmem s Hc Hl).
  unfold gets, bind at 1. kproj. rewrite Hf. simpl.
  unfold ret at 1, bind at 1. leave. kproj. done.
Qed.

(** kfree refuses every address that is not a page of the allocator's range. *)
Lemma kfree_panics pa s : ~ page_ok pa -> kfree pa s = Panic "kfree" s.
Proof.
  intros H. unfold kfree. destruct (Z.eqb_spec (pa mod PGSIZE) 0) as [E|E]; [|done].
  destruct (Z.ltb_spec pa l_end); [done|]. destruct (Z.leb_spec PHYSTOP pa); [done|].
  exfalso. apply H. split; [done|lia].
Qed.

Lemma freerange_loop_S fuel p pa_end :
  freerange_loop (S fuel) p pa_end =
  if p + PGSIZE <=? pa_end
  then kfree p ;; freerange_loop fuel (p + PGSIZE) pa_end else ret tt.
Proof. reflexivity. Qed.

(** The loop of [freerange] frees the [n] pages from [p] on, the last one
    ending up at the head of the list; [n + 1] rounds of fuel are enough. *)
Lemma freerange_loop_spec n p pa_end s l :
  cpu_ok s -> lock_free s LK_kmem -> kmem_inv s l ->
  (forall q, q ∈ pages n p -> page_ok q /\ q ∉ l) ->
  p + Z.of_nat n * PGSIZE <= pa_end < p + (Z.of_nat n + 1) * PGSIZE ->
  exists m f, freerange_loop (S n) p pa_end s = Ret tt (set_k_freelist f (set_k_mem m s)) /\
    kmem_inv (set_k_freelist f (set_k_mem m s)) (rev (pages n p) ++ l).
Proof.
  revert p s l; induction n as [|n IH]; intros p s l Hc Hl Hi Hq He.
  { rewrite freerange_loop_S. zsimp. exists (k_mem s), (k_freelist s).
    assert (set_k_freelist (k_freelist s) (set_k_mem (k_mem s) s) = s) as -> by (by destruct s).
    done. }
  rewrite freerange_loop_S. rewrite Nat2Z.inj_succ in He. zsimp. cbn [pages] in Hq |- *.
  destruct (kfree_spec p s l Hc Hl Hi) as (m & E & _ & _ & Hi');
    [by apply Hq; left|by apply Hq; left|].
  run E.
  destruct (IH (p + PGSIZE) (set_k_freelist p (set_k_mem m s)) (p :: l))
    as (m2 & f2 & E2 & Hi2); [done|done|done| |lia|].
  - intros q Hin. destruct (Hq q) as [H1 H2]; [by right|]. split; [done|].
    rewrite not_elem_of_cons. split; [|done]. intros ->.
    rewrite elem_of_pages in Hin. destruct Hin as (i & Hin & E2). unfold PGSIZE in E2. lia.
  - exists m2, f2. split; [by rewrite E2|].
    replace (rev (p :: pages n (p + PGSIZE)) ++ l)
      with (rev (pages n (p + PGSIZE)) ++ p :: l); [done|].
    cbn [rev]. by rewrite <- app_assoc.
Qed.

(** * Properties *)

(** Kinit gives the allocator every whole page between the end of the kernel
    and PHYSTOP, each exactly once. *)
Theorem kinit_all_pages s :
  cpu_ok s -> mem_ok (k_mem s) -> k_freelist s = 0 ->
  exists m f l, kinit s = Ret tt (set_k_freelist f (set_k_mem m (lock_put LK_kmem unlocked s))) /\
    kmem_inv (set_k_freelist f (set_k_mem m (lock_put LK_kmem unlocked s))) l /\
    forall p, p ∈ l <-> page_ok p.
Proof.
  intros Hc Hm Hf. unfold kinit, initlock, modify, bind at 1.
  set (s1 := lock_put LK_kmem unlocked s).
  pose proof l_end_order as Ho. pose proof l_text_order as Ht.
  destruct (PGROUNDUP_bounds l_end) as [Hb Ha]; [lia..|].
  set (p0 := PGROUNDUP l_end) in *. unfold freerange. fold p0.
  set (n := Z.to_nat ((PHYSTOP - p0) / PGSIZE)).
  assert (Hn : Z.of_nat n = (PHYSTOP - p0) / PGSIZE).
  { unfold n. apply Z2Nat.id. apply Z.div_pos; [|lia].
    pose proof (Z.div_mod p0 PGSIZE ltac:(lia)). lia. }
  assert (Hp0 : PHYSTOP = p0 + Z.of_nat n * PGSIZE).
  { pose proof (Z.div_mod p0 PGSIZE ltac:(lia)). rewrite Hn.
    pose proof (Z.div_mod (PHYSTOP - p0) PGSIZE ltac:(lia)).
    rewrite (Zminus_mod PHYSTOP p0 PGSIZE), Ha in *. change (PHYSTOP mod PGSIZE) with 0 in *.
    rewrite Z.sub_0_r in *. change (0 mod PGSIZE) with 0 in *. lia. }
  assert (Hin : forall q, q ∈ pages n p0 <-> page_ok q).
  { intros q. rewrite elem_of_pages. split.
    - intros (i & Hi & ->). split; [by rewrite Z.mod_add by lia|]. lia.
    - intros [Hq1 Hq2]. exists ((q - p0) / PGSIZE).
      pose proof (Z.div_mod q PGSIZE ltac:(lia)). pose proof (Z.div_mod p0 PGSIZE ltac:(lia)).
      replace (q - p0) with ((q / PGSIZE - p0 / PGSIZE) * PGSIZE) by lia. rewrite Z.div_mul by lia. lia. }
  destruct (freerange_loop_spec n p0 PHYSTOP s1 []) as (m & f & E & Hi); try done.
  - unfold lock_free, s1, lock_put. simpl. by rewrite lookup_delete_eq.
  - constructor; [done|constructor|constructor|done].
  - intros q Hq. split; [by apply Hin|]. by intros ?%elem_of_nil.
  - lia.
  - exists m, f, (rev (pages n p0)). rewrite app_nil_r in Hi. split_and!; [exact E|exact Hi|].
    intros q. rewrite <- Hin. rewrite !list_elem_of_In. symmetry. apply in_rev.
Qed.

(** Kalloc implements taking the head of the free list: with no free page it
    returns the null pointer and changes nothing; otherwise it returns a page
    that is no longer free and writes nothing outside that page. *)
Theorem kalloc_refines s l :
  cpu_ok s -> lock_free s LK_kmem -> kmem_inv s l ->
  match l with
  | [] => kalloc s = Ret 0 s
  | p :: l' => exists f m, kalloc s = Ret p (set_k_freelist f (set_k_mem m s)) /\
      kmem_inv (set_k_freelist f (set_k_mem m s)) l' /\
      page_ok p /\ (p ∉ l') /\ same_but_page p (k_mem s) m
  end.
Proof.
  intros Hc Hl Hi. destruct l as [|p l]; [by apply kalloc_none|].
  destruct (kalloc_some p s l Hc Hl Hi) as (m & E & H1 & _ & H2 & H3 & H4). eauto 10.
Qed.

(** Freeing a page and allocating again gives the same page back; the free
    list is as before, and only that page's contents changed. *)
Theorem kfree_kalloc_roundtrip s l p :
  cpu_ok s -> lock_free s LK_kmem -> kmem_inv s l -> page_ok p -> p ∉ l ->
  exists m, (kfree p ;; kalloc) s = Ret p (set_k_mem m s) /\
    same_but_page p (k_mem s) m /\ kmem_inv (set_k_mem m s) l.
Proof.
  intros Hc Hl Hi Hp Hn.
  destruct (kfree_spec p s l Hc Hl Hi Hp Hn) as (m1 & E1 & Hs1 & Hm1 & Hi1).
  run E1. set (s1 := set_k_freelist p (set_k_mem m1 s)) in *.
  destruct (kalloc_some p s1 l Hc Hl Hi1) as (m2 & E2 & Hs2 & _ & _ & _ & Hi2).
  assert (Hh : load64 m1 p = k_freelist s).
  { destruct Hi as [Hf _ _ _], Hi1 as [[_ Hf1] _ _ _]. simpl in Hf1.
    destruct l as [|q l]; simpl in Hf, Hf1; [congruence|]. destruct Hf, Hf1. congruence. }
  exists m2. rewrite E2. simpl. rewrite Hh. split_and!.
  - by destruct s.
  - by eapply same_but_page_trans.
  - destruct Hi2 as [K1 K2 K3 K4]. simpl in *. rewrite Hh in K1. by constructor.
Qed.

End Kalloc.

(** * A layout *)

(** Addresses such as the linker gives to this kernel. *)
Definition sample_layout : KernelLayout.
Proof.
  refine {| l_etext := KERNBASE + 0x8000; l_end := KERNBASE + 0x22450;
            l_trampoline := KERNBASE + 0x7000 |}; try reflexivity; lia.
Defined.

(** A state with two free pages. *)
Definition two_free : kstate :=
  set_k_freelist (KERNBASE + 0x30000)
    (set_k_mem (store64 ∅ (KERNBASE + 0x30000) (KERNBASE + 0x40000)) boot).

Lemma boot_mem_ok : mem_ok (k_mem boot).
Proof. intros a. unfold mget, boot. simpl. by rewrite lookup_empty. Qed.

Lemma two_free_inv : @kmem_inv sample_layout two_free [KERNBASE + 0x30000; KERNBASE + 0x40000].
Proof.
  constructor.
  - cbn [flist]. split_and!; [done| |].
    + unfold two_free. simpl. rewrite load64_store64 by lia. done.
    + unfold two_free. simpl. rewrite load_store_out by lia. by vm_compute.
  - by apply (bool_decide_unpack _).
  - repeat constructor; unfold sample_layout; simpl; try done; lia.
  - unfold two_free. simpl. apply store_ok, boot_mem_ok.
Qed.

Lemma kinit_all_pages_witness :
  exists s', @kinit sample_layout boot = Ret tt s' /\
    exists l, @kmem_inv sample_layout s' l /\ (KERNBASE + 0x23000 ∈ l).
Proof.
  destruct (@kinit_all_pages sample_layout boot) as (m & f & l & E & Hi & Hl);
    [exact boot_cpu_ok|exact boot_mem_ok|reflexivity|].
  eexists. split; [exact E|]. exists l. split; [exact Hi|].
  apply Hl. split; [reflexivity|]. simpl. lia.
Defined.

Lemma kalloc_refines_witness :
  exists s', @kalloc two_free = Ret (KERNBASE + 0x30000) s' /\
    @kmem_inv sample_layout s' [KERNBASE + 0x40000].
Proof.
  destruct (@kalloc_refines sample_layout two_free [KERNBASE + 0x30000; KERNBASE + 0x40000])
    as (f & m & E & Hi & _); [exact boot_cpu_ok|reflexivity|exact two_free_inv|].
  eexists. split; [exact E|exact Hi].
Defined.

Lemma kfree_kalloc_roundtrip_witness :
  exists m, (@kfree sample_layout (KERNBASE + 0x50000) ;; kalloc) two_free =
    Ret (KERNBASE + 0x50000) (set_k_mem m two_free).
Proof.
  destruct (@kfree_kalloc_roundtrip sample_layout two_free
    [KERNBASE + 0x30000; KERNBASE + 0x40000] (KERNBASE + 0x50000)) as (m & E & _).
  - exact boot_cpu_ok.
  - reflexivity.
  - exact two_free_inv.
  - split; [reflexivity|]. simpl. lia.
  - apply (bool_decide_unpack _). reflexivity.
  - exists m. exact E.
Defined.
