(* ===== verification/Vm.v ===== *)
(** kernel/vm.c: Sv39 page tables and the copies between kernel and user memory.

    A page table is what the code has: the address of a page of 512 eight-byte
    entries in memory.  [pte_t *] results are addresses of entries.  Kernel
    buffers that a copy reads or fills are lists of bytes.  This file holds the
    definitions; PageTable.v, UserMem.v prove what they do. *)

From S2P Require Import Prelude Types Memory Spinlock Kalloc.
Local Open Scope c_scope.

(** [*p & flag], as a test. *)
Definition has (flag v : Z) : bool := negb (Z.land v flag =? 0).

Definition mem_upd (f : gmap Z Z -> gmap Z Z) : K unit :=
  modify (fun s => set_k_mem (f (k_mem s)) s).
Definition ld64 (a : Z) : K Z := gets (fun s => load64 (k_mem s) a).
Definition st64 (a v : Z) : K unit := mem_upd (fun m => store64 m a v).

Section Vm.
Context {L : KernelLayout}.

(** The loop of [walk], from [level] down to 1, and the entry it ends at. *)
Fixpoint walk_loop (level : nat) (pagetable va : Z) (alloc : bool) : K Z :=
  match level with
  | O => ret (pagetable + 8 * PX 0 va)
  | S l =>
      let pte := pagetable + 8 * PX (Z.of_nat level) va in
      v <- ld64 pte ;;
      if has PTE_V v then walk_loop l (PTE2PA v) va alloc
      else if negb alloc then ret 0 else
      p <- kalloc ;;
      if p =? 0 then ret 0 else
      mem_upd (fun m => memset m p 0 PGSIZE) ;;
      st64 pte (Z.lor (PA2PTE p) PTE_V) ;;
      walk_loop l p va alloc
  end.

Definition walk (pagetable va : Z) (alloc : bool) : K Z :=
  if MAXVA <=? va then panic "walk" else walk_loop 2 pagetable va alloc.

Definition walkaddr (pagetable va : Z) : K Z :=
  if MAXVA <=? va then ret 0 else
  pte <- walk pagetable va false ;;
  if pte =? 0 then ret 0 else
  v <- ld64 pte ;;
  if negb (has PTE_V v) || negb (has PTE_U v) then ret 0
  else ret (PTE2PA v).

(** [for (;;) { ... if (a == last) break; a += PGSIZE; pa += PGSIZE; }] *)
Fixpoint mappages_loop (fuel : nat) (pagetable a last pa perm : Z) : K Z :=
  match fuel with
  | O => nofuel
  | S fuel =>
      pte <- walk pagetable a true ;;
      if pte =? 0 then ret (-1) else
      v <- ld64 pte ;;
      if has PTE_V v then panic "mappages: remap" else
      st64 pte (Z.lor (Z.lor (PA2PTE pa) perm) PTE_V) ;;
      if a =? last then ret 0
      else mappages_loop fuel pagetable (u64 (a + PGSIZE)) last (u64 (pa + PGSIZE)) perm
  end.

Definition mappages (pagetable va size pa perm : Z) : K Z :=
  if negb (va mod PGSIZE =? 0) then panic "mappages: va not aligned" else
  if negb (size mod PGSIZE =? 0) then panic "mappages: size not aligned" else
  if size =? 0 then panic "mappages: size" else
  mappages_loop (Z.to_nat (size / PGSIZE)) pagetable va (u64 (va + size - PGSIZE)) pa perm.

Definition kvmmap (kpgtbl va pa sz perm : Z) : K unit :=
  r <- mappages kpgtbl va sz pa perm ;;
  if negb (r =? 0) then panic "kvmmap" else ret tt.

(** proc.c: [for (int i = 0; i < NPROC; i++) ...] *)
Fixpoint proc_mapstacks_loop (n : nat) (i kpgtbl : Z) : K unit :=
  match n with
  | O => ret tt
  | S n =>
      pa <- kalloc ;;
      if pa =? 0 then panic "proc_mapstacks" else
      kvmmap kpgtbl (KSTACK i) pa PGSIZE (Z.lor PTE_R PTE_W) ;;
      proc_mapstacks_loop n (i + 1) kpgtbl
  end.
Definition proc_mapstacks (kpgtbl : Z) : K unit := proc_mapstacks_loop NPROC 0 kpgtbl.

Definition kvmmake : K Z :=
  kpgtbl <- kalloc ;;
  if kpgtbl =? 0 then panic "kvmmake" else
  mem_upd (fun m => memset m kpgtbl 0 PGSIZE) ;;
  kvmmap kpgtbl UART0 UART0 PGSIZE (Z.lor PTE_R PTE_W) ;;
  kvmmap kpgtbl VIRTIO0 VIRTIO0 PGSIZE (Z.lor PTE_R PTE_W) ;;
  kvmmap kpgtbl PLIC PLIC 0x4000000 (Z.lor PTE_R PTE_W) ;;
  kvmmap kpgtbl KERNBASE KERNBASE (l_etext - KERNBASE) (Z.lor PTE_R PTE_X) ;;
  kvmmap kpgtbl l_etext l_etext (PHYSTOP - l_etext) (Z.lor PTE_R PTE_W) ;;
  kvmmap kpgtbl TRAMPOLINE l_trampoline PGSIZE (Z.lor PTE_R PTE_X) ;;
  proc_mapstacks kpgtbl ;;
  ret kpgtbl.

Definition kvminit : K unit := p <- kvmmake ;; modify (set_k_kpgtbl p).

Definition uvmcreate : K Z :=
  pagetable <- kalloc ;;
  if pagetable =? 0 then ret 0 else
  mem_upd (fun m => memset m pagetable 0 PGSIZE) ;;
  ret pagetable.

(** [src] are the [sz] bytes to copy. *)
Definition uvmfirst (pagetable : Z) (src : list Z) : K unit :=
  if PGSIZE <? Z.of_nat (length src) then panic "uvmfirst" else
  mem <- kalloc ;;
  if mem =? 0 then panic "uvmfirst: kalloc" else
  mem_upd (fun m => memset m mem 0 PGSIZE) ;;
  mem_upd (fun m => put_bytes m mem src) ;;
  r <- mappages pagetable 0 PGSIZE mem (Z.lor (Z.lor (Z.lor PTE_R PTE_W) PTE_X) PTE_U) ;;
  if negb (r =? 0) then panic "uvmfirst: mappages" else ret tt.

(** The body of the loop of [uvmunmap] at page [a]. *)
Definition unmap1 (pagetable a : Z) (do_free : bool) : K unit :=
  pte <- walk pagetable a false ;;
  if pte =? 0 then ret tt else
  v <- ld64 pte ;;
  if negb (has PTE_V v) then ret tt else
  when do_free (kfree (PTE2PA v)) ;;
  st64 pte 0.

(** [for (a = va; a < va + npages * PGSIZE; a += PGSIZE)] *)
Fixpoint uvmunmap_loop (fuel : nat) (pagetable a lim : Z) (do_free : bool) : K unit :=
  match fuel with
  | O => nofuel
  | S fuel =>
      if negb (a <? lim) then ret tt else
      unmap1 pagetable a do_free ;;
      uvmunmap_loop fuel pagetable (u64 (a + PGSIZE)) lim do_free
  end.

Definition uvmunmap (pagetable va npages : Z) (do_free : bool) : K unit :=
  if negb (va mod PGSIZE =? 0) then panic "uvmunmap: not aligned" else
  uvmunmap_loop (S (Z.to_nat npages)) pagetable va
    (u64 (va + u64 (npages * PGSIZE))) do_free.

(** [for (a = oldsz; a < newsz; a += PGSIZE) { ... }], with the code at [err]. *)
Fixpoint uvmalloc_loop (fuel : nat) (pagetable oldsz a newsz xperm : Z) : K Z :=
  match fuel with
  | O => nofuel
  | S fuel =>
      if negb (a <? newsz) then ret newsz else
      let err := uvmunmap pagetable oldsz ((a - oldsz) / PGSIZE) true ;; ret 0 in
      mem <- kalloc ;;
      if mem =? 0 then err else
      mem_upd (fun m => memset m mem 0 PGSIZE) ;;
      r <- mappages pagetable a PGSIZE mem (Z.lor (Z.lor PTE_R PTE_U) xperm) ;;
      if negb (r =? 0) then kfree mem ;; err
      else uvmalloc_loop fuel pagetable oldsz (u64 (a + PGSIZE)) newsz xperm
  end.

Definition uvmalloc (pagetable oldsz newsz xperm : Z) : K Z :=
  if newsz <? oldsz then ret oldsz else
  let oldsz := PGROUNDUP oldsz in
  uvmalloc_loop (S (Z.to_nat ((newsz - oldsz + PGSIZE - 1) / PGSIZE)))
    pagetable oldsz oldsz newsz xperm.

Definition uvmdealloc (pagetable oldsz newsz : Z) : K Z :=
  if oldsz <=? newsz then ret oldsz else
  when (PGROUNDUP newsz <? PGROUNDUP oldsz)
    (uvmunmap pagetable (PGROUNDUP newsz)
       ((PGROUNDUP oldsz - PGROUNDUP newsz) / PGSIZE) true) ;;
  ret newsz.

(** [src] are the [len] bytes at the kernel pointer; every round of the loop
    copies at least one of them. *)
Fixpoint copyout_loop (fuel : nat) (pagetable dstva : Z) (src : list Z) : K Z :=
  match fuel with
  | O => nofuel
  | S fuel =>
      let len := Z.of_nat (length src) in
      if negb (0 <? len) then ret 0 else
      let va0 := PGROUNDDOWN dstva in
      pa0 <- walkaddr pagetable va0 ;;
      if pa0 =? 0 then ret (-1) else
      pte <- walk pagetable va0 false ;;
      v <- ld64 pte ;;
      if negb (has PTE_W v) then ret (-1) else
      let n := PGSIZE - (dstva - va0) in
      let n := if len <? n then len else n in
      mem_upd (fun m => put_bytes m (pa0 + dstva - va0) (take (Z.to_nat n) src)) ;;
      copyout_loop fuel pagetable (u64 (va0 + PGSIZE)) (drop (Z.to_nat n) src)
  end.
Definition copyout (pagetable dstva : Z) (src : list Z) : K Z :=
  copyout_loop (S (length src)) pagetable dstva src.

(** The result and the bytes stored at [dst] so far. *)
Fixpoint copyin_loop (fuel : nat) (pagetable srcva len : Z) (dst : list Z) : K (Z * list Z) :=
  match fuel with
  | O => nofuel
  | S fuel =>
      if negb (0 <? len) then ret (0, dst) else
      let va0 := PGROUNDDOWN srcva in
      pa0 <- walkaddr pagetable va0 ;;
      if pa0 =? 0 then ret (-1, dst) else
      let n := PGSIZE - (srcva - va0) in
      let n := if len <? n then len else n in
      l <- gets (fun s => bytes_at (k_mem s) (pa0 + srcva - va0) (Z.to_nat n)) ;;
      copyin_loop fuel pagetable (u64 (va0 + PGSIZE)) (len - n) (dst ++ l)
  end.
Definition copyin (pagetable srcva len : Z) : K (Z * list Z) :=
  copyin_loop (S (Z.to_nat len)) pagetable srcva len [].

(** [while (n-- > 0) { if (( *dst++ = *p++ ) == 0) { got_null = 1; break; } max--; }]:
    the bytes stored, the new [max], and [got_null]. *)
Fixpoint copystr_loop (n : nat) (m : gmap Z Z) (p max : Z) : list Z * Z * bool :=
  match n with
  | O => ([], max, false)
  | S n =>
      let c := mget m p in
      if c =? 0 then ([c], max, true)
      else let '(l, max', g) := copystr_loop n m (p + 1) (max - 1) in (c :: l, max', g)
  end.

Fixpoint copyinstr_loop (fuel : nat) (pagetable srcva max : Z) (dst : list Z) : K (Z * list Z) :=
  match fuel with
  | O => nofuel
  | S fuel =>
      if negb (0 <? max) then ret (-1, dst) else
      let va0 := PGROUNDDOWN srcva in
      pa0 <- walkaddr pagetable va0 ;;
      if pa0 =? 0 then ret (-1, dst) else
      let n := PGSIZE - (srcva - va0) in
      let n := if max <? n then max else n in
      r <- gets (fun s => copystr_loop (Z.to_nat n) (k_mem s) (pa0 + srcva - va0) max) ;;
      let '(l, max', got_null) := r in
      if (got_null : bool) then ret (0, dst ++ l)
      else copyinstr_loop fuel pagetable (u64 (va0 + PGSIZE)) max' (dst ++ l)
  end.
Definition copyinstr (pagetable srcva max : Z) : K (Z * list Z) :=
  copyinstr_loop (S (Z.to_nat max)) pagetable srcva max [].

(** [for (int i = 0; i < 512; i++)], [n] to go; [rec] is [freewalk] on a lower
    table. *)
Fixpoint freewalk_loop (rec : Z -> K unit) (pagetable : Z) (n : nat) (i : Z) : K unit :=
  match n with
  | O => ret tt
  | S n =>
      pte <- ld64 (pagetable + 8 * i) ;;
      (if has PTE_V pte && (Z.land pte (Z.lor (Z.lor PTE_R PTE_W) PTE_X) =? 0)
       then rec (PTE2PA pte) ;; st64 (pagetable + 8 * i) 0
       else if has PTE_V pte then panic "freewalk: leaf" else ret tt) ;;
      freewalk_loop rec pagetable n (i + 1)
  end.

(** [depth] bounds the recursion: a page table has three levels. *)
Fixpoint freewalk (depth : nat) (pagetable : Z) : K unit :=
  match depth with
  | O => nofuel
  | S depth => freewalk_loop (freewalk depth) pagetable 512 0 ;; kfree pagetable
  end.

Definition uvmfree (pagetable sz : Z) : K unit :=
  when (0 <? sz) (uvmunmap pagetable 0 (PGROUNDUP sz / PGSIZE) true) ;;
  freewalk 3 pagetable.

Definition uvmclear (pagetable va : Z) : K unit :=
  pte <- walk pagetable va false ;;
  if pte =? 0 then panic "uvmclear" else
  v <- ld64 pte ;;
  st64 pte (Z.land v (Z.lnot PTE_U)).

Fixpoint uvmcopy_loop (fuel : nat) (old new i sz : Z) : K Z :=
  match fuel with
  | O => nofuel
  | S fuel =>
      if negb (i <? sz) then ret 0 else
      let err := uvmunmap new 0 (i / PGSIZE) true ;; ret (-1) in
      let next := uvmcopy_loop fuel old new (u64 (i + PGSIZE)) sz in
      pte <- walk old i false ;;
      if pte =? 0 then next else
      v <- ld64 pte ;;
      if negb (has PTE_V v) then next else
      mem <- kalloc ;;
      if mem =? 0 then err else
      mem_upd (fun m => memmove m mem (PTE2PA v) PGSIZE) ;;
      r <- mappages new i PGSIZE mem (PTE_FLAGS v) ;;
      if negb (r =? 0) then kfree mem ;; err else next
  end.
Definition uvmcopy (old new sz : Z) : K Z :=
  uvmcopy_loop (S (Z.to_nat ((sz + PGSIZE - 1) / PGSIZE))) old new 0 sz.

End Vm.
