(* ===== verification/PageTable.v ===== *)
(** Page tables as trees: what [walk], [mappages] and [uvmunmap] do.

    [ptree] names the pages a three-level table is made of; [pt_wf m t] says
    that memory [m] holds exactly that table.  [pt_leaf m t va] is the leaf
    entry of [va] (0 when there is none): the abstract contents of the table, a
    function from virtual pages to entries.  The lemmas show that the code reads
    and updates this function and nothing else. *)

From S2P Require Import Prelude Types Memory Spinlock Kalloc Vm.
Local Open Scope c_scope.

(** * Entries *)

Lemma land_shiftl_small a k f : 0 <= k -> 0 <= f < 2 ^ k -> Z.land (Z.shiftl a k) f = 0.
Proof.
  intros Hk Hf. apply Z.bits_inj'. intros n Hn.
  rewrite Z.land_spec, Z.bits_0, Z.shiftl_spec by done.
  destruct (decide (n < k)) as [H|H].
  - rewrite Z.testbit_neg_r by lia. done.
  - rewrite <- (Z.mod_small f (2 ^ k)) by done.
    rewrite Z.mod_pow2_bits_high by lia. by rewrite andb_false_r.
Qed.

Lemma lor_shiftl_small a k f :
  0 <= k -> 0 <= f < 2 ^ k -> Z.lor (Z.shiftl a k) f = Z.shiftl a k + f.
Proof.
  intros Hk Hf. pose proof (land_shiftl_small a k f Hk Hf) as H.
  by rewrite <- Z.lxor_lor, <- Z.add_nocarry_lxor.
Qed.

(** An entry that maps physical page [pa] with the low bits [f]. *)
Lemma pte_eq pa f :
  0 <= pa < 2 ^ 56 -> 0 <= f < 1024 ->
  Z.lor (PA2PTE pa) f = Z.shiftl (Z.shiftr pa 12) 10 + f.
Proof.
  intros Hpa Hf. unfold PA2PTE.
  rewrite wrap_small; [by apply lor_shiftl_small|].
  rewrite Z.shiftl_mul_pow2, Z.shiftr_div_pow2 by lia.
  pose proof (Z.div_pos pa (2 ^ 12)). pose proof (Z.div_lt_upper_bound pa (2 ^ 12) (2 ^ 44)). lia.
Qed.

Lemma pte_range pa f :
  0 <= pa < 2 ^ 56 -> 0 <= f < 1024 -> 0 <= Z.lor (PA2PTE pa) f < 2 ^ 64.
Proof.
  intros Hpa Hf. rewrite pte_eq by done.
  rewrite Z.shiftl_mul_pow2, Z.shiftr_div_pow2 by lia.
  pose proof (Z.div_pos pa (2 ^ 12)). pose proof (Z.div_lt_upper_bound pa (2 ^ 12) (2 ^ 44)). lia.
Qed.

Lemma PTE2PA_pte pa f :
  pa mod PGSIZE = 0 -> 0 <= pa < 2 ^ 56 -> 0 <= f < 1024 -> PTE2PA (Z.lor (PA2PTE pa) f) = pa.
Proof.
  intros Ha Hpa Hf. rewrite pte_eq by done. unfold PTE2PA.
  rewrite !Z.shiftl_mul_pow2, !Z.shiftr_div_pow2 by lia.
  replace ((pa / 2 ^ 12 * 2 ^ 10 + f) / 2 ^ 10) with (pa / 2 ^ 12).
  - change (2 ^ 12) with PGSIZE. rewrite wrap_small;
      pose proof (Z.div_mod pa PGSIZE); lia.
  - rewrite Z.div_add_l by lia. rewrite (Z.div_small f) by lia. lia.
Qed.

Lemma PTE_FLAGS_pte pa f :
  0 <= pa < 2 ^ 56 -> 0 <= f < 1024 -> PTE_FLAGS (Z.lor (PA2PTE pa) f) = f.
Proof.
  intros Hpa Hf. rewrite pte_eq by done. unfold PTE_FLAGS.
  change 0x3FF with (Z.ones 10). rewrite Z.land_ones, Z.shiftl_mul_pow2 by lia.
  rewrite Z.add_comm, Z.mod_add by lia. by apply Z.mod_small.
Qed.

(** A flag of an entry depends on its low bits only. *)
Lemma land_pte pa f g :
  0 <= pa < 2 ^ 56 -> 0 <= f < 1024 -> 0 <= g < 1024 ->
  Z.land (Z.lor (PA2PTE pa) f) g = Z.land f g.
Proof.
  intros Hpa Hf Hg. rewrite pte_eq by done.
  rewrite <- lor_shiftl_small by lia. rewrite Z.land_lor_distr_l.
  by rewrite land_shiftl_small by lia.
Qed.

Lemma has_pte g pa f :
  0 <= pa < 2 ^ 56 -> 0 <= f < 1024 -> 0 <= g < 1024 ->
  has g (Z.lor (PA2PTE pa) f) = has g f.
Proof. intros. unfold has. by rewrite land_pte. Qed.

Lemma has_lor_l g a b : has g a = true -> has g (Z.lor a b) = true.
Proof.
  unfold has. intros H. b2p. apply negb_true_iff, Z.eqb_neq. intros H0.
  apply H. rewrite Z.land_lor_distr_l in H0. by apply Z.lor_eq_0_iff in H0 as [? _].
Qed.

Lemma has_0 g : has g 0 = false.
Proof. reflexivity. Qed.

(** The [PTE_V] bit [mappages] ors in at the end can be taken with the others. *)
Lemma lor_small a b : 0 <= a < 1024 -> 0 <= b < 1024 -> 0 <= Z.lor a b < 1024.
Proof.
  intros Ha Hb. split; [apply Z.lor_nonneg; lia|].
  destruct (decide (Z.lor a b = 0)) as [->|Hn]; [lia|].
  change 1024 with (2 ^ 10). apply Z.log2_lt_pow2.
  - assert (0 <= Z.lor a b) by (apply Z.lor_nonneg; lia). lia.
  - rewrite Z.log2_lor by lia. apply Z.max_lub_lt.
    + destruct (decide (a = 0)) as [->|?]; [done|]. apply Z.log2_lt_pow2; lia.
    + destruct (decide (b = 0)) as [->|?]; [done|]. apply Z.log2_lt_pow2; lia.
Qed.

(** * Indices *)

Lemma PX_eq level va : 0 <= level -> PX level va = va / 2 ^ (12 + 9 * level) mod 512.
Proof.
  intros H. unfold PX, PXSHIFT, PXMASK, PGSHIFT. change 0x1FF with (Z.ones 9).
  rewrite Z.land_ones, Z.shiftr_div_pow2 by lia. done.
Qed.

Lemma PX_range level va : 0 <= level -> 0 <= PX level va < 512.
Proof. intros H. rewrite PX_eq by done. apply Z.mod_pos_bound. lia. Qed.

(** The upper half of the root table is not used. *)
Lemma PX_low va : 0 <= va < MAXVA -> 0 <= PX 2 va < 256.
Proof.
  intros H. rewrite PX_eq by lia. change (2 ^ (12 + 9 * 2)) with 1073741824.
  pose proof (Z.div_pos va 1073741824 ltac:(lia) ltac:(lia)).
  pose proof (Z.div_lt_upper_bound va 1073741824 256 ltac:(lia) ltac:(lia)). rewrite Z.mod_small by lia. lia.
Qed.

Lemma PX_page va :
  0 <= va < MAXVA -> va / PGSIZE = PX 2 va * 2 ^ 18 + PX 1 va * 2 ^ 9 + PX 0 va.
Proof.
  intros H. rewrite !PX_eq by lia. unfold PGSIZE.
  change (2 ^ (12 + 9 * 2)) with (4096 * (512 * 512)).
  change (2 ^ (12 + 9 * 1)) with (4096 * 512). change (2 ^ (12 + 9 * 0)) with 4096.
  rewrite <- !Z.div_div by lia. set (v := va / 4096).
  assert (0 <= v < 2 ^ 26) by (subst v; split; [apply Z.div_pos; lia|apply Z.div_lt_upper_bound; lia]).
  rewrite (Z.mod_small (v / 512 / 512)).
  2:{ split; [repeat apply Z.div_pos; lia|]. repeat (apply Z.div_lt_upper_bound; [lia|]). lia. }
  pose proof (Z.div_mod v 512). pose proof (Z.div_mod (v / 512) 512). lia.
Qed.

Lemma PX_inj va va' :
  0 <= va < MAXVA -> 0 <= va' < MAXVA ->
  PX 2 va = PX 2 va' -> PX 1 va = PX 1 va' -> PX 0 va = PX 0 va' ->
  va / PGSIZE = va' / PGSIZE.
Proof. intros H H' E2 E1 E0. rewrite !PX_page by done. by rewrite E2, E1, E0. Qed.

Lemma PX_same_page level va va' :
  0 <= level -> va / PGSIZE = va' / PGSIZE -> PX level va = PX level va'.
Proof.
  intros Hl H. rewrite !PX_eq by done.
  rewrite !Z.pow_add_r by lia. change (2 ^ 12) with PGSIZE.
  rewrite <- !Z.div_div by (try apply Z.pow_pos_nonneg; unfold PGSIZE; lia). by rewrite H.
Qed.

(** * Trees *)

(** The pages of a table: the root, the level-1 page for each root index in
    use, the level-0 page for each pair of indices in use. *)
Record ptree := mk_ptree {
  pt_root : Z;
  pt_l1 : gmap Z Z;
  pt_l0 : gmap (Z * Z) Z
}.

Inductive tnode := TRoot | T1 (i : Z) | T0 (i j : Z).

Definition tpage (t : ptree) (n : tnode) : option Z :=
  match n with
  | TRoot => Some (pt_root t)
  | T1 i => pt_l1 t !! i
  | T0 i j => pt_l0 t !! (i, j)
  end.

(** [p] is a page of the table. *)
Definition is_table (t : ptree) (p : Z) : Prop := exists n, tpage t n = Some p.

(** [x] is an address inside one of the table's pages. *)
Definition in_tables (t : ptree) (x : Z) : Prop :=
  exists p, is_table t p /\ p <= x < p + PGSIZE.

(** The entry that points to page [p], or the empty entry. *)
Definition ptr (o : option Z) : Z :=
  match o with Some p => Z.lor (PA2PTE p) PTE_V | None => 0 end.

(** Address of the leaf entry of [va], and its contents. *)
Definition pt_slot (t : ptree) (va : Z) : option Z :=
  q ← pt_l0 t !! (PX 2 va, PX 1 va); Some (q + 8 * PX 0 va).
Definition pt_leaf (m : gmap Z Z) (t : ptree) (va : Z) : Z :=
  match pt_slot t va with Some a => load64 m a | None => 0 end.

Definition add1 (t : ptree) (i p : Z) : ptree :=
  mk_ptree (pt_root t) (<[i := p]> (pt_l1 t)) (pt_l0 t).
Definition add0 (t : ptree) (i j p : Z) : ptree :=
  mk_ptree (pt_root t) (pt_l1 t) (<[(i, j) := p]> (pt_l0 t)).

Section PageTable.
Context {L : KernelLayout}.

Record pt_wf (m : gmap Z Z) (t : ptree) : Prop := {
  wf_inj : forall n1 n2 p, tpage t n1 = Some p -> tpage t n2 = Some p -> n1 = n2;
  wf_page : forall n p, tpage t n = Some p -> page_ok p;
  wf_l1 : forall i, 0 <= i < 512 -> load64 m (pt_root t + 8 * i) = ptr (pt_l1 t !! i);
  wf_l0 : forall i j p, pt_l1 t !! i = Some p -> 0 <= j < 512 ->
            load64 m (p + 8 * j) = ptr (pt_l0 t !! (i, j));
  wf_dom1 : forall i p, pt_l1 t !! i = Some p -> 0 <= i < 256;
  wf_dom0 : forall i j p, pt_l0 t !! (i, j) = Some p ->
              is_Some (pt_l1 t !! i) /\ 0 <= j < 512
}.

(** The allocator and one page table: the table's pages are not free. *)
Record pt_inv (s : kstate) (t : ptree) (l : list Z) : Prop := {
  pi_kmem : kmem_inv s l;
  pi_wf : pt_wf (k_mem s) t;
  pi_used : forall p, is_table t p -> p ∉ l
}.

Lemma page_ok_pa p : page_ok p -> 0 <= p < 2 ^ 56.
Proof. intros H. apply page_ok_pos in H. lia. Qed.

Lemma ptr_Some_valid p : page_ok p -> has PTE_V (ptr (Some p)) = true.
Proof. intros H. simpl. rewrite has_pte; [done|by apply page_ok_pa|lia..]. Qed.

Lemma PTE2PA_ptr p : page_ok p -> PTE2PA (ptr (Some p)) = p.
Proof. intros H. simpl. apply PTE2PA_pte; [apply H|by apply page_ok_pa|lia]. Qed.

Lemma ptr_range o : (forall p, o = Some p -> page_ok p) -> 0 <= ptr o < 2 ^ 64.
Proof.
  intros H. destruct o as [p|]; simpl; [|lia].
  apply pte_range; [by apply page_ok_pa, H|lia].
Qed.

(** Memory that agrees on the root and level-1 pages holds the same tree. *)
Lemma pt_wf_frame m m' t :
  pt_wf m t ->
  (forall p x, p = pt_root t \/ (exists i, pt_l1 t !! i = Some p) ->
     p <= x < p + PGSIZE -> mget m' x = mget m x) ->
  pt_wf m' t.
Proof.
  intros [H1 H2 H3 H4 H5 H6] Hf. constructor; try done.
  - intros i Hi. rewrite <- H3 by done. apply load_ext. intros x Hx.
    apply (Hf (pt_root t)); [by left|]. lia.
  - intros i j p Hp Hj. rewrite <- (H4 i j p) by done. apply load_ext. intros x Hx.
    apply (Hf p); [right; eauto|]. lia.
Qed.

(** The slots of different pages do not overlap. *)
Lemma pt_slot_apart m t va va' a a' :
  pt_wf m t -> 0 <= va < MAXVA -> 0 <= va' < MAXVA -> va / PGSIZE <> va' / PGSIZE ->
  pt_slot t va = Some a -> pt_slot t va' = Some a' -> a + 8 <= a' \/ a' + 8 <= a.
Proof.
  intros Hw Hv Hv' Hne Ha Ha'. unfold pt_slot in *.
  destruct (pt_l0 t !! (PX 2 va, PX 1 va)) as [q|] eqn:Eq; simplify_eq/=.
  destruct (pt_l0 t !! (PX 2 va', PX 1 va')) as [q'|] eqn:Eq'; simplify_eq/=.
  pose proof (PX_range 0 va ltac:(lia)). pose proof (PX_range 0 va' ltac:(lia)).
  destruct (decide (q = q')) as [<-|Hq].
  - pose proof (wf_inj _ _ Hw (T0 (PX 2 va) (PX 1 va)) (T0 (PX 2 va') (PX 1 va')) q Eq Eq') as E.
    injection E as E2 E1. assert (PX 0 va <> PX 0 va') by (intros E0; by apply Hne, PX_inj).
    lia.
  - pose proof (page_ok_apart q q' (wf_page _ _ Hw (T0 _ _) q Eq) (wf_page _ _ Hw (T0 _ _) q' Eq') Hq).
    lia.
Qed.

(** Where a slot lies. *)
Lemma pt_slot_in m t va a :
  pt_wf m t -> pt_slot t va = Some a ->
  exists q, tpage t (T0 (PX 2 va) (PX 1 va)) = Some q /\ q <= a /\ a + 8 <= q + PGSIZE /\ a <> 0.
Proof.
  intros Hw Ha. unfold pt_slot in Ha.
  destruct (pt_l0 t !! (PX 2 va, PX 1 va)) as [q|] eqn:Eq; simplify_eq/=.
  exists q. pose proof (PX_range 0 va ltac:(lia)).
  pose proof (page_ok_pos q (wf_page _ _ Hw (T0 _ _) q Eq)). split; [done|lia].
Qed.

(** Writing a leaf entry changes that entry of the abstract table only. *)
Lemma pt_wf_store_leaf m t va a v :
  pt_wf m t -> pt_slot t va = Some a -> pt_wf (store64 m a v) t.
Proof.
  intros Hw Ha. destruct (pt_slot_in _ _ _ _ Hw Ha) as (q & Hq & H1 & H2 & _).
  apply (pt_wf_frame m); [done|]. intros p x Hp Hx. apply mget_store_out.
  assert (exists n, tpage t n = Some p /\ n <> T0 (PX 2 va) (PX 1 va)) as (n & Hn & Hnn).
  { destruct Hp as [->|[i Hi]]; [by exists TRoot|by exists (T1 i)]. }
  assert (p <> q) as Hpq by (intros ->; by apply Hnn, (wf_inj _ _ Hw n _ q)).
  pose proof (page_ok_apart p q (wf_page _ _ Hw _ _ Hn) (wf_page _ _ Hw _ _ Hq) Hpq). lia.
Qed.

Lemma pt_leaf_store m t va a v va' :
  pt_wf m t -> 0 <= va < MAXVA -> 0 <= va' < MAXVA -> 0 <= v < 2 ^ 64 ->
  pt_slot t va = Some a ->
  pt_leaf (store64 m a v) t va' = if va' / PGSIZE =? va / PGSIZE then v else pt_leaf m t va'.
Proof.
  intros Hw Hv Hv' Hr Ha. unfold pt_leaf. destruct (Z.eqb_spec (va' / PGSIZE) (va / PGSIZE)) as [E|E].
  - assert (pt_slot t va' = Some a) as ->.
    { rewrite <- Ha. unfold pt_slot. by rewrite !(PX_same_page _ va' va) by (done || lia). }
    by apply load64_store64.
  - destruct (pt_slot t va') as [a'|] eqn:Ea'; [|done]. apply load_store_out.
    pose proof (pt_slot_apart _ _ va va' a a' Hw Hv Hv' ltac:(congruence) Ha Ea'). lia.
Qed.

(** ** Adding a page to the tree *)

Lemma is_table_add1 t i p q :
  pt_l1 t !! i = None -> is_table (add1 t i p) q <-> is_table t q \/ q = p.
Proof.
  intros Hn. split.
  - intros [n Hq]. destruct n as [|i'|i' j']; simpl in Hq.
    + left. by exists TRoot.
    + destruct (decide (i = i')) as [<-|Hi].
      * rewrite lookup_insert_eq in Hq. right. congruence.
      * rewrite lookup_insert_ne in Hq by done. left. by exists (T1 i').
    + left. by exists (T0 i' j').
  - intros [[n Hq]| ->].
    + destruct n as [|i'|i' j']; [by exists TRoot| |by exists (T0 i' j')].
      exists (T1 i'). simpl in *. rewrite lookup_insert_ne; [done|congruence].
    + exists (T1 i). simpl. by rewrite lookup_insert_eq.
Qed.

Lemma is_table_add0 t i j p q :
  pt_l0 t !! (i, j) = None -> is_table (add0 t i j p) q <-> is_table t q \/ q = p.
Proof.
  intros Hn. split.
  - intros [n Hq]. destruct n as [|i'|i' j']; simpl in Hq.
    + left. by exists TRoot.
    + left. by exists (T1 i').
    + destruct (decide ((i, j) = (i', j'))) as [E|Hi].
      * rewrite <- E, lookup_insert_eq in Hq. right. congruence.
      * rewrite lookup_insert_ne in Hq by done. left. by exists (T0 i' j').
  - intros [[n Hq]| ->].
    + destruct n as [|i'|i' j']; [by exists TRoot|by exists (T1 i')|].
      exists (T0 i' j'). simpl in *. rewrite lookup_insert_ne; [done|congruence].
    + exists (T0 i j). simpl. by rewrite lookup_insert_eq.
Qed.

(** What [walk] does to memory when it adds page [p] below the entry at [e]:
    [p] is all zeros, [e] points to it, the rest is as it was. *)
Record linked (m m' : gmap Z Z) (e p : Z) : Prop := {
  ln_zero : forall j, 0 <= j < 512 -> load64 m' (p + 8 * j) = 0;
  ln_entry : load64 m' e = ptr (Some p);
  ln_rest : forall x, (x < p \/ p + PGSIZE <= x) -> (x < e \/ e + 8 <= x) ->
              mget m' x = mget m x
}.

Lemma linked_load m m' e p a :
  linked m m' e p -> a + 8 <= p \/ p + PGSIZE <= a -> a + 8 <= e \/ e + 8 <= a ->
  load64 m' a = load64 m a.
Proof. intros Hl Hp He. apply load_ext. intros x Hx. apply (ln_rest _ _ _ _ Hl); lia. Qed.

Lemma add1_wf m m' t i p :
  pt_wf m t -> 0 <= i < 256 -> pt_l1 t !! i = None -> page_ok p -> ~ is_table t p ->
  linked m m' (pt_root t + 8 * i) p -> pt_wf m' (add1 t i p).
Proof.
  intros Hw Hi Hn Hp Hfr Hl. pose proof Hw as [H1 H2 H3 H4 H5 H6].
  assert (apart : forall n q, tpage t n = Some q -> p + PGSIZE <= q \/ q + PGSIZE <= p).
  { intros n q Hq. apply page_ok_apart; [done|by eapply H2|].
    intros ->. apply Hfr. by exists n. }
  assert (cases : forall n q, tpage (add1 t i p) n = Some q ->
     (n = T1 i /\ q = p) \/ (n <> T1 i /\ tpage t n = Some q)).
  { intros [|i'|i' j'] q Hq; simpl in *; [by right|..|by right].
    destruct (decide (i = i')) as [<-|Hne].
    - rewrite lookup_insert_eq in Hq. left. split; congruence.
    - rewrite lookup_insert_ne in Hq by done. right. split; congruence. }
  constructor.
  - intros n1 n2 q E1 E2. apply cases in E1 as [[-> ->]|[N1 E1]], E2 as [[-> E2]|[N2 E2]]; subst; eauto.
    + exfalso. apply Hfr. by exists n2.
    + exfalso. apply Hfr. by exists n1.
  - intros n q E. apply cases in E as [[-> ->]|[_ E]]; eauto.
  - intros i' Hi'. simpl. destruct (decide (i = i')) as [<-|Hne].
    + rewrite lookup_insert_eq. apply Hl.
    + rewrite lookup_insert_ne by done. rewrite <- H3 by done.
      apply (linked_load m m' (pt_root t + 8 * i) p); [done| |lia].
      pose proof (apart TRoot (pt_root t) eq_refl). lia.
  - intros i' j q Hq Hj. simpl in *. destruct (decide (i = i')) as [<-|Hne].
    + rewrite lookup_insert_eq in Hq. simplify_eq.
      rewrite (ln_zero _ _ _ _ Hl) by done.
      destruct (pt_l0 t !! (i, j)) as [r|] eqn:E; [|done].
      destruct (H6 i j r E) as [[? ?] _]. congruence.
    + rewrite lookup_insert_ne in Hq by done. rewrite <- (H4 i' j q) by done.
      pose proof (apart (T1 i') q Hq).
      assert (q <> pt_root t) as Hqr by (intros ->; discriminate (H1 (T1 i') TRoot _ Hq eq_refl)).
      pose proof (page_ok_apart _ _ (H2 (T1 i') q Hq) (H2 TRoot _ eq_refl) Hqr).
      apply (linked_load m m' (pt_root t + 8 * i) p); [done|lia..].
  - intros i' q Hq. simpl in Hq. destruct (decide (i = i')) as [<-|Hne]; [done|].
    rewrite lookup_insert_ne in Hq by done. eauto.
  - intros i' j q Hq. simpl in *. destruct (H6 i' j q Hq) as [[r Hr] Hj]. split; [|done].
    rewrite lookup_insert_ne by congruence. by exists r.
Qed.

Lemma add0_wf m m' t i j p p1 :
  pt_wf m t -> pt_l1 t !! i = Some p1 -> 0 <= j < 512 -> pt_l0 t !! (i, j) = None ->
  page_ok p -> ~ is_table t p -> linked m m' (p1 + 8 * j) p -> pt_wf m' (add0 t i j p).
Proof.
  intros Hw Hp1 Hj Hn Hp Hfr Hl. pose proof Hw as [H1 H2 H3 H4 H5 H6].
  assert (apart : forall n q, tpage t n = Some q -> p + PGSIZE <= q \/ q + PGSIZE <= p).
  { intros n q Hq. apply page_ok_apart; [done|by eapply H2|].
    intros ->. apply Hfr. by exists n. }
  assert (cases : forall n q, tpage (add0 t i j p) n = Some q ->
     (n = T0 i j /\ q = p) \/ (n <> T0 i j /\ tpage t n = Some q)).
  { intros [|i'|i' j'] q Hq; simpl in *; [by right|by right|].
    destruct (decide ((i, j) = (i', j'))) as [E|Hne].
    - rewrite <- E, lookup_insert_eq in Hq. left. split; congruence.
    - rewrite lookup_insert_ne in Hq by done. right. split; congruence. }
  assert (other : forall q, q <> p1 -> is_table t q -> q + PGSIZE <= p1 \/ p1 + PGSIZE <= q).
  { intros q Hne [n Hq]. apply page_ok_apart; [by eapply H2|by eapply (H2 (T1 i))|done]. }
  constructor.
  - intros n1 n2 q E1 E2. apply cases in E1 as [[-> ->]|[N1 E1]], E2 as [[-> E2]|[N2 E2]]; subst; eauto.
    + exfalso. apply Hfr. by exists n2.
    + exfalso. apply Hfr. by exists n1.
  - intros n q E. apply cases in E as [[-> ->]|[_ E]]; eauto.
  - intros i' Hi'. simpl. rewrite <- H3 by done.
    assert (pt_root t <> p1) as Hne by (intros E; rewrite <- E in Hp1; discriminate (H1 (T1 i) TRoot _ Hp1 eq_refl)).
    pose proof (other _ Hne (ex_intro _ TRoot eq_refl)).
    pose proof (apart TRoot (pt_root t) eq_refl).
    apply (linked_load m m' (p1 + 8 * j) p); [done|lia..].
  - intros i' j' q Hq Hj'. simpl in *. pose proof (apart (T1 i') q Hq).
    destruct (decide ((i, j) = (i', j'))) as [E|Hne].
    + simplify_eq. rewrite lookup_insert_eq. apply Hl.
    + rewrite lookup_insert_ne by done. rewrite <- (H4 i' j' q) by done.
      apply (linked_load m m' (p1 + 8 * j) p); [done|lia|].
      destruct (decide (i = i')) as [<-|Hi].
      * rewrite Hp1 in Hq. simplify_eq. assert (j <> j') by congruence. lia.
      * assert (q <> p1) as Hqp by (intros ->; injection (H1 (T1 i) (T1 i') _ Hp1 Hq); done).
        pose proof (other q Hqp (ex_intro _ (T1 i') Hq)). lia.
  - done.
  - intros i' j' q Hq. simpl in *. destruct (decide ((i, j) = (i', j'))) as [E|Hne].
    + simplify_eq. split; [by exists p1|done].
    + rewrite lookup_insert_ne in Hq by done. eauto.
Qed.

Lemma add1_leaf m m' t i p va :
  pt_wf m t -> 0 <= i < 512 -> page_ok p -> ~ is_table t p ->
  linked m m' (pt_root t + 8 * i) p -> pt_leaf m' (add1 t i p) va = pt_leaf m t va.
Proof.
  intros Hw Hi Hp Hfr Hl. unfold pt_leaf, pt_slot. simpl.
  destruct (pt_l0 t !! (PX 2 va, PX 1 va)) as [q|] eqn:Eq; simpl; [|done].
  pose proof (PX_range 0 va ltac:(lia)).
  pose proof (wf_page _ _ Hw (T0 _ _) q Eq) as Hq.
  assert (q <> pt_root t) as Hqr by (intros ->; discriminate (wf_inj _ _ Hw (T0 _ _) TRoot _ Eq eq_refl)).
  assert (q <> p) as Hqp by (intros ->; apply Hfr; by exists (T0 (PX 2 va) (PX 1 va))).
  pose proof (page_ok_apart _ _ Hq (wf_page _ _ Hw TRoot _ eq_refl) Hqr).
  pose proof (page_ok_apart _ _ Hq Hp Hqp).
  apply (linked_load m m' (pt_root t + 8 * i) p); [done|lia..].
Qed.

Lemma add0_leaf m m' t i j p p1 va :
  pt_wf m t -> pt_l1 t !! i = Some p1 -> 0 <= j < 512 -> pt_l0 t !! (i, j) = None ->
  page_ok p -> ~ is_table t p -> linked m m' (p1 + 8 * j) p ->
  pt_leaf m' (add0 t i j p) va = pt_leaf m t va.
Proof.
  intros Hw Hp1 Hj Hn Hp Hfr Hl. unfold pt_leaf, pt_slot. simpl.
  pose proof (PX_range 0 va ltac:(lia)).
  destruct (decide ((i, j) = (PX 2 va, PX 1 va))) as [E|Hne].
  - rewrite <- E, lookup_insert_eq, Hn. simpl. by apply Hl.
  - rewrite lookup_insert_ne by done.
    destruct (pt_l0 t !! (PX 2 va, PX 1 va)) as [q|] eqn:Eq; simpl; [|done].
    pose proof (wf_page _ _ Hw (T0 _ _) q Eq) as Hq.
    assert (q <> p1) as Hqr by (intros ->; discriminate (wf_inj _ _ Hw (T0 _ _) (T1 i) _ Eq Hp1)).
    assert (q <> p) as Hqp by (intros ->; apply Hfr; by exists (T0 (PX 2 va) (PX 1 va))).
    pose proof (page_ok_apart _ _ Hq (wf_page _ _ Hw (T1 i) _ Hp1) Hqr).
    pose proof (page_ok_apart _ _ Hq Hp Hqp).
    apply (linked_load m m' (p1 + 8 * j) p); [done|lia..].
Qed.

(** ** The table grows *)

(** From [s], [t], [l] to [s'], [t'], [l']: the tree has gained pages taken from
    the front of the free list, its abstract contents are the same, and nothing
    outside the tree's pages has been written. *)
Record grew (s : kstate) (t : ptree) (l : list Z) (s' : kstate) (t' : ptree) (l' : list Z) : Prop := {
  gr_state : s' = set_k_freelist (k_freelist s') (set_k_mem (k_mem s') s);
  gr_inv : pt_inv s' t' l';
  gr_root : pt_root t' = pt_root t;
  gr_l1 : pt_l1 t ⊆ pt_l1 t';
  gr_l0 : pt_l0 t ⊆ pt_l0 t';
  gr_leaf : forall va, pt_leaf (k_mem s') t' va = pt_leaf (k_mem s) t va;
  gr_free : exists used, l = used ++ l' /\
              forall p, is_table t' p <-> is_table t p \/ p ∈ used;
  gr_frame : forall x, ~ in_tables t' x -> mget (k_mem s') x = mget (k_mem s) x
}.

Lemma grew_refl s t l : pt_inv s t l -> grew s t l s t l.
Proof.
  intros H. constructor; try done.
  - by destruct s.
  - exists []. split; [done|]. intros p. split; [by left|]. intros [?|Hn]; [done|].
    by apply elem_of_nil in Hn.
Qed.

Lemma grew_trans s1 t1 l1 s2 t2 l2 s3 t3 l3 :
  grew s1 t1 l1 s2 t2 l2 -> grew s2 t2 l2 s3 t3 l3 -> grew s1 t1 l1 s3 t3 l3.
Proof.
  intros A B. constructor; try apply B.
  - rewrite (gr_state _ _ _ _ _ _ B). simpl. by rewrite (gr_state _ _ _ _ _ _ A).
  - etrans; [apply B|apply A].
  - etrans; [apply A|apply B].
  - etrans; [apply A|apply B].
  - intros va. rewrite (gr_leaf _ _ _ _ _ _ B). apply A.
  - destruct (gr_free _ _ _ _ _ _ A) as (u1 & -> & E1), (gr_free _ _ _ _ _ _ B) as (u2 & -> & E2).
    exists (u1 ++ u2). split; [by rewrite <- app_assoc|]. intros p.
    rewrite E2, E1, elem_of_app. tauto.
  - intros x Hx. rewrite (gr_frame _ _ _ _ _ _ B) by done.
    apply (gr_frame _ _ _ _ _ _ A). intros (p & Hp & Hin). apply Hx. exists p. split; [|done].
    destruct (gr_free _ _ _ _ _ _ B) as (u2 & _ & E2). apply E2. by left.
Qed.

(** The machine is ready to call the allocator. *)
Definition quiet (s : kstate) : Prop := cpu_ok s /\ lock_free s LK_kmem.

Lemma quiet_set f m s : quiet s -> quiet (set_k_freelist f (set_k_mem m s)).
Proof. done. Qed.

Lemma grew_quiet s t l s' t' l' : grew s t l s' t' l' -> quiet s -> quiet s'.
Proof. intros G H. rewrite (gr_state _ _ _ _ _ _ G). by apply quiet_set. Qed.

(** The allocation step of [walk]: take a page, zero it, link it at entry [e]. *)
Definition link_page (e p : Z) : K unit :=
  mem_upd (fun m => memset m p 0 PGSIZE) ;; st64 e (Z.lor (PA2PTE p) PTE_V).

Lemma link_page_spec s t p l e r :
  quiet s -> pt_inv s t (p :: l) -> is_table t r -> r <= e -> e + 8 <= r + PGSIZE ->
  exists s1 f m, kalloc s = Ret p s1 /\
    link_page e p s1 = Ret tt (set_k_freelist f (set_k_mem m s)) /\
    linked (k_mem s) m e p /\ kmem_inv (set_k_freelist f (set_k_mem m s)) l /\
    page_ok p /\ ~ is_table t p /\ (p ∉ l).
Proof.
  intros [Hc Hl] [Hk Hw Hu] Hr He1 He2.
  destruct (kalloc_some p s l Hc Hl Hk) as (m1 & E & Hsame & Hm1 & Hp & Hni & Hk1).
  assert (Hpt : ~ is_table t p) by (intros Hp'; apply (Hu p Hp'); by left).
  assert (Hpr : p + PGSIZE <= r \/ r + PGSIZE <= p).
  { destruct Hr as [n Hn]. apply page_ok_apart; [done|by eapply wf_page|].
    intros ->. apply Hpt. by exists n. }
  do 3 eexists. split; [exact E|].
  unfold link_page, mem_upd, st64, modify, bind, ret; simpl.
  split; [reflexivity|]. set (m2 := memset m1 p 0 PGSIZE). fold m2.
  assert (Hln : linked (k_mem s) (store64 m2 e (Z.lor (PA2PTE p) PTE_V)) e p).
  { constructor.
    - intros j Hj. rewrite load_store_out by lia. apply load_memset_zero; lia.
    - apply load64_store64. apply (ptr_range (Some p)). congruence.
    - intros x Hx Hx'. rewrite mget_store_out by lia. unfold m2.
      rewrite mget_memset_out by lia. by apply Hsame. }
  split_and!; try fast_done.
  destruct Hk1 as [K1 K2 K3 K4]. simpl in K1. constructor; simpl; try fast_done.
  - apply (flist_ext m1); [|done]. intros q Hq.
    rewrite Forall_forall in K3. pose proof (K3 q Hq) as Hqok.
    assert (q <> p) as Hqp by (intros ->; done).
    pose proof (page_ok_apart _ _ Hqok Hp Hqp).
    assert (q <> r) as Hqr.
    { intros ->. destruct Hr as [n Hn]. apply (Hu r); [by exists n|by right]. }
    destruct Hr as [n Hn].
    pose proof (page_ok_apart _ _ Hqok (wf_page _ _ Hw _ _ Hn) Hqr).
    rewrite load_store_out by lia. apply load_memset_out; lia.
  - unfold m2. auto with kern.
Qed.

(** ** walk *)

(** The outcome of a walk that may allocate [n] pages: 0 when there were fewer, else
    the address of the leaf entry. *)
Definition walked (n : nat) (t : ptree) (va r : Z) (l l' : list Z) : Prop :=
  (r = 0 /\ l' = [] /\ (length l < n)%nat) \/ (pt_slot t va = Some r /\ (length l <= length l' + n)%nat).

Lemma linked_grew s t p l e f m t' :
  pt_inv s t (p :: l) -> kmem_inv (set_k_freelist f (set_k_mem m s)) l ->
  linked (k_mem s) m e p -> pt_wf m t' ->
  pt_root t' = pt_root t -> pt_l1 t ⊆ pt_l1 t' -> pt_l0 t ⊆ pt_l0 t' ->
  (forall va, pt_leaf m t' va = pt_leaf (k_mem s) t va) ->
  (forall q, is_table t' q <-> is_table t q \/ q = p) ->
  (exists r, is_table t r /\ r <= e /\ e + 8 <= r + PGSIZE) ->
  grew s t (p :: l) (set_k_freelist f (set_k_mem m s)) t' l.
Proof.
  intros Hi Hk Hl Hw Hroot H1 H0 Hleaf Htab (r & Hr & He1 & He2).
  assert (Hnd : p ∉ l) by (apply (NoDup_cons_1_1 p l), (km_nodup _ _ (pi_kmem _ _ _ Hi))).
  constructor; simpl; try done.
  - constructor; simpl; [done..|]. intros q Hq Hin.
    apply Htab in Hq as [Hq| ->]; [|done]. apply (pi_used _ _ _ Hi q Hq). by right.
  - exists [p]. split; [done|]. intros q. rewrite Htab, list_elem_of_singleton. done.
  - intros x Hx. apply (ln_rest _ _ _ _ Hl).
    + destruct (decide (p <= x < p + PGSIZE)); [|lia]. exfalso. apply Hx.
      exists p. split; [apply Htab; by right|lia].
    + destruct (decide (r <= x < r + PGSIZE)); [|lia]. exfalso. apply Hx.
      exists r. split; [apply Htab; by left|lia].
Qed.

Lemma walk_level1 s t l va p1 :
  quiet s -> pt_inv s t l -> pt_l1 t !! PX 2 va = Some p1 ->
  exists r s' t' l', walk_loop 1 p1 va true s = Ret r s' /\
    grew s t l s' t' l' /\ walked 1 t' va r l l'.
Proof.
  intros Hq Hi Hp1. pose proof (pi_wf _ _ _ Hi) as Hw.
  pose proof (PX_range 1 va ltac:(lia)) as Hj.
  pose proof (wf_l0 _ _ Hw (PX 2 va) (PX 1 va) p1 Hp1 Hj) as He.
  cbn [walk_loop]. unfold ld64, gets at 1, bind at 1. change (Z.of_nat 1) with 1.
  rewrite He. destruct (pt_l0 t !! (PX 2 va, PX 1 va)) as [q|] eqn:Eq.
  - assert (Hqp : page_ok q) by (by apply (wf_page _ _ Hw (T0 (PX 2 va) (PX 1 va)))).
    rewrite ptr_Some_valid, PTE2PA_ptr by done. unfold ret.
    do 4 eexists. split; [reflexivity|]. split; [by apply grew_refl|].
    right. unfold pt_slot. rewrite Eq. split; [done|lia].
  - simpl ptr. rewrite has_0. simpl. destruct l as [|p l].
    + destruct Hq as [Hc Hl]. run (kalloc_none s Hc Hl (pi_kmem _ _ _ Hi)). simpl. unfold ret.
      do 4 eexists. split; [reflexivity|]. split; [by apply grew_refl|]. left. split_and!; [done|done|cbn; lia].
    + destruct (link_page_spec s t p l (p1 + 8 * PX 1 va) p1 Hq Hi)
        as (s1 & f & m & E1 & E2 & Hln & Hk & Hpok & Hnt & Hnl); [by exists (T1 (PX 2 va))|lia|lia|].
      run E1. pose proof (page_ok_nonzero p Hpok). zsimp.
      rewrite <- (bind_assoc_Ret (mem_upd _) _ _ _ tt _ eq_refl). fold (link_page (p1 + 8 * PX 1 va) p). run E2. unfold ret.
      do 4 eexists. split; [reflexivity|]. split.
      * apply (linked_grew s t p l (p1 + 8 * PX 1 va) f m (add0 t (PX 2 va) (PX 1 va) p));
          simpl; try fast_done.
        -- by apply (add0_wf (k_mem s) m t (PX 2 va) (PX 1 va) p p1).
        -- by apply insert_subseteq.
        -- intros va'. by apply (add0_leaf _ _ _ _ _ _ p1).
        -- intros q. by apply is_table_add0.
        -- exists p1. split; [by exists (T1 (PX 2 va))|lia].
      * right. unfold pt_slot. simpl. rewrite lookup_insert_eq. split; [done|lia].
Qed.

Lemma walk_alloc s t l va :
  quiet s -> pt_inv s t l -> 0 <= va < MAXVA ->
  exists r s' t' l', walk (pt_root t) va true s = Ret r s' /\
    grew s t l s' t' l' /\ walked 2 t' va r l l'.
Proof.
  intros Hq Hi Hva. unfold walk. zsimp. pose proof (pi_wf _ _ _ Hi) as Hw.
  pose proof (PX_range 2 va ltac:(lia)) as Hx.
  pose proof (wf_l1 _ _ Hw (PX 2 va) Hx) as He.
  change (walk_loop 2 (pt_root t) va true s) with
    ((v <- ld64 (pt_root t + 8 * PX 2 va) ;;
      if has PTE_V v then walk_loop 1 (PTE2PA v) va true
      else p <- kalloc ;; if p =? 0 then ret 0 else
        mem_upd (fun m => memset m p 0 PGSIZE) ;;
        st64 (pt_root t + 8 * PX 2 va) (Z.lor (PA2PTE p) PTE_V) ;;
        walk_loop 1 p va true) s).
  unfold ld64, gets, bind at 1. rewrite He.
  destruct (pt_l1 t !! PX 2 va) as [p1|] eqn:Ep.
  - assert (Hpp : page_ok p1) by (by apply (wf_page _ _ Hw (T1 (PX 2 va)))).
    rewrite ptr_Some_valid, PTE2PA_ptr by done.
    destruct (walk_level1 s t l va p1 Hq Hi Ep) as (r & s' & t' & l' & E & G & Hr). exists r, s', t', l'.
    split_and!; [done|done|]. destruct Hr as [(-> & -> & ?)|[? ?]]; [left; split_and!; [done|done|lia]|right; split; [done|lia]].
  - simpl ptr. rewrite has_0. destruct l as [|p l].
    + destruct Hq as [Hc Hl]. run (kalloc_none s Hc Hl (pi_kmem _ _ _ Hi)). simpl. unfold ret.
      do 4 eexists. split; [reflexivity|]. split; [by apply grew_refl|]. left. split_and!; [done|done|cbn; lia].
    + destruct (link_page_spec s t p l (pt_root t + 8 * PX 2 va) (pt_root t) Hq Hi)
        as (s1 & f & m & E1 & E2 & Hln & Hk & Hpok & Hnt & Hnl); [by exists TRoot|lia|lia|].
      run E1. pose proof (page_ok_nonzero p Hpok). zsimp.
      rewrite <- (bind_assoc_Ret (mem_upd _) _ _ _ tt _ eq_refl). fold (link_page (pt_root t + 8 * PX 2 va) p). run E2.
      assert (G : grew s t (p :: l) (set_k_freelist f (set_k_mem m s)) (add1 t (PX 2 va) p) l).
      { apply (linked_grew s t p l (pt_root t + 8 * PX 2 va) f m (add1 t (PX 2 va) p)).
        all: try fast_done.
        - apply (add1_wf (k_mem s) m t (PX 2 va) p); [done|by apply PX_low|done..].
        - by apply insert_subseteq.
        - intros va'. by apply add1_leaf.
        - intros q. by apply is_table_add1.
        - exists (pt_root t). split; [by exists TRoot|lia]. }
      destruct (walk_level1 (set_k_freelist f (set_k_mem m s)) (add1 t (PX 2 va) p) l va p)
        as (r & s' & t' & l' & E & G' & Hr); [exact Hq|apply G|apply lookup_insert_eq|].
      exists r, s', t', l'. split; [exact E|]. split; [eapply grew_trans; eassumption|]. cbn [length].
      destruct Hr as [(-> & -> & ?)|[? ?]]; [left; split_and!; [done|done|cbn [length]; lia]|right; split; [done|cbn [length]; lia]].
Qed.

(** Without allocation [walk] reads: the slot, or 0. *)
Lemma walk_read s m t va :
  pt_wf m t -> k_mem s = m -> 0 <= va < MAXVA ->
  walk (pt_root t) va false s = Ret (default 0 (pt_slot t va)) s.
Proof.
  intros Hw Hm Hva. unfold walk. zsimp.
  pose proof (PX_range 2 va ltac:(lia)) as H2. pose proof (PX_range 1 va ltac:(lia)) as H1.
  pose proof (wf_l1 _ _ Hw (PX 2 va) H2) as E2.
  cbn [walk_loop]. unfold ld64, gets, bind. change (Z.of_nat 2) with 2. rewrite Hm, E2.
  unfold pt_slot. destruct (pt_l1 t !! PX 2 va) as [p1|] eqn:Ep.
  - rewrite ptr_Some_valid, PTE2PA_ptr by (by apply (wf_page _ _ Hw (T1 (PX 2 va)))).
    change (Z.of_nat 1) with 1. rewrite Hm, (wf_l0 _ _ Hw (PX 2 va) (PX 1 va) p1 Ep H1).
    destruct (pt_l0 t !! (PX 2 va, PX 1 va)) as [q|] eqn:Eq.
    + rewrite (ptr_Some_valid q), (PTE2PA_ptr q) by (by apply (wf_page _ _ Hw (T0 (PX 2 va) (PX 1 va)))).
      done.
    + done.
  - simpl. destruct (pt_l0 t !! (PX 2 va, PX 1 va)) as [q|] eqn:Eq; [|done].
    destruct (wf_dom0 _ _ Hw _ _ _ Eq) as [[? ?] _]. congruence.
Qed.

(** ** Changes of the abstract table *)

(** Like [grew], with the abstract contents now given by [F]. *)
Record chg (s : kstate) (t : ptree) (l : list Z) (s' : kstate) (t' : ptree) (l' : list Z)
    (F : Z -> Z) : Prop := {
  ch_state : s' = set_k_freelist (k_freelist s') (set_k_mem (k_mem s') s);
  ch_inv : pt_inv s' t' l';
  ch_root : pt_root t' = pt_root t;
  ch_leaf : forall va, 0 <= va < MAXVA -> pt_leaf (k_mem s') t' va = F va;
  ch_free : exists used, l = used ++ l' /\
              forall p, is_table t' p <-> is_table t p \/ p ∈ used;
  ch_frame : forall x, ~ in_tables t' x -> mget (k_mem s') x = mget (k_mem s) x
}.

Lemma grew_chg s t l s' t' l' :
  grew s t l s' t' l' -> chg s t l s' t' l' (pt_leaf (k_mem s) t).
Proof. intros G. constructor; try apply G. intros va _. apply G. Qed.

Lemma chg_refl s t l : pt_inv s t l -> chg s t l s t l (pt_leaf (k_mem s) t).
Proof. intros H. by apply grew_chg, grew_refl. Qed.

Lemma chg_tables s t l s' t' l' F : chg s t l s' t' l' F -> forall x, in_tables t x -> in_tables t' x.
Proof.
  intros C x (p & Hp & Hx). exists p. split; [|done].
  destruct (ch_free _ _ _ _ _ _ _ C) as (u & _ & E). apply E. by left.
Qed.

Lemma chg_trans s1 t1 l1 s2 t2 l2 s3 t3 l3 F G :
  chg s1 t1 l1 s2 t2 l2 F -> chg s2 t2 l2 s3 t3 l3 G -> chg s1 t1 l1 s3 t3 l3 G.
Proof.
  intros A B. constructor; try apply B.
  - rewrite (ch_state _ _ _ _ _ _ _ B). simpl. by rewrite (ch_state _ _ _ _ _ _ _ A).
  - etrans; [apply B|apply A].
  - destruct (ch_free _ _ _ _ _ _ _ A) as (u1 & -> & E1), (ch_free _ _ _ _ _ _ _ B) as (u2 & -> & E2).
    exists (u1 ++ u2). split; [by rewrite <- app_assoc|]. intros p.
    rewrite E2, E1, elem_of_app. tauto.
  - intros x Hx. rewrite (ch_frame _ _ _ _ _ _ _ B) by done.
    apply (ch_frame _ _ _ _ _ _ _ A). intros Hin. apply Hx. by eapply chg_tables.
Qed.

Lemma chg_ext s t l s' t' l' F G :
  chg s t l s' t' l' F -> (forall va, 0 <= va < MAXVA -> F va = G va) -> chg s t l s' t' l' G.
Proof.
  intros C H. constructor; try apply C. intros va Hva. rewrite <- H by done. by apply C.
Qed.

Lemma chg_quiet s t l s' t' l' F : chg s t l s' t' l' F -> quiet s -> quiet s'.
Proof. intros C H. rewrite (ch_state _ _ _ _ _ _ _ C). by apply quiet_set. Qed.

(** Writing inside a page of the table keeps the allocator's invariant. *)
Lemma kmem_inv_store s t l a v p :
  pt_inv s t l -> is_table t p -> p <= a -> a + 8 <= p + PGSIZE ->
  kmem_inv (set_k_mem (store64 (k_mem s) a v) s) l.
Proof.
  intros Hi Hp H1 H2. destruct (pi_kmem _ _ _ Hi) as [K1 K2 K3 K4].
  assert (page_ok p) by (destruct Hp as [n Hn]; by apply (wf_page _ _ (pi_wf _ _ _ Hi) n)).
  constructor; simpl; auto with kern.
  apply (flist_same_but p (k_mem s)); try done.
  - by apply same_but_page_store.
  - by apply (pi_used _ _ _ Hi).
Qed.

(** Storing an entry at the slot of [va]. *)
Lemma chg_store s t l va a v :
  pt_inv s t l -> 0 <= va < MAXVA -> 0 <= v < 2 ^ 64 -> pt_slot t va = Some a ->
  chg s t l (set_k_mem (store64 (k_mem s) a v) s) t l
    (fun va' => if va' / PGSIZE =? va / PGSIZE then v else pt_leaf (k_mem s) t va').
Proof.
  intros Hi Hva Hv Ha. pose proof (pi_wf _ _ _ Hi) as Hw.
  destruct (pt_slot_in _ _ _ _ Hw Ha) as (q & Hq & H1 & H2 & _).
  constructor; simpl; try done.
  - constructor; simpl; [|by eapply pt_wf_store_leaf|apply Hi].
    apply (kmem_inv_store s t l a v q); try done. by eexists.
  - intros va' Hva'. by apply pt_leaf_store.
  - exists []. split; [done|]. intros p. split; [by left|]. intros [?|Hn]; [done|].
    by apply elem_of_nil in Hn.
  - intros x Hx. apply mget_store_out.
    destruct (decide (a <= x < a + 8)); [|lia]. exfalso. apply Hx. exists q.
    split; [by eexists|lia].
Qed.

Lemma ld64_eq a s : ld64 a s = Ret (load64 (k_mem s) a) s.
Proof. reflexivity. Qed.

Lemma st64_eq a v s : st64 a v s = Ret tt (set_k_mem (store64 (k_mem s) a v) s).
Proof. reflexivity. Qed.

(** ** mappages *)

(** The entry [mappages] writes for physical page [pa]. *)
Definition entry (pa perm : Z) : Z := Z.lor (Z.lor (PA2PTE pa) perm) PTE_V.

Lemma entry_eq pa perm : entry pa perm = Z.lor (PA2PTE pa) (Z.lor perm PTE_V).
Proof. unfold entry. by rewrite Z.lor_assoc. Qed.

Definition map_range (F : Z -> Z) (va pa perm : Z) (k : Z) (va' : Z) : Z :=
  let d := va' / PGSIZE - va / PGSIZE in
  if (0 <=? d) && (d <? k) then entry (pa + d * PGSIZE) perm else F va'.

Lemma div_add_page va i : (va + i * PGSIZE) / PGSIZE = va / PGSIZE + i.
Proof. apply Z.div_add. lia. Qed.

Lemma map_range_0 F va pa perm va' : map_range F va pa perm 0 va' = F va'.
Proof. unfold map_range. destruct (Z.leb_spec 0 (va' / PGSIZE - va / PGSIZE)); simpl; [|done].
  by rewrite (proj2 (Z.ltb_ge _ _)).
Qed.

Lemma map_range_step F G va pa perm k va' :
  0 <= k -> G va' = map_range F va pa perm 1 va' ->
  map_range G (va + PGSIZE) (pa + PGSIZE) perm k va' = map_range F va pa perm (k + 1) va'.
Proof.
  intros Hk HG. unfold map_range in *. rewrite HG.
  pose proof (div_add_page va 1) as Hdv. rewrite Z.mul_1_l in Hdv. rewrite Hdv.
  destruct (Z.leb_spec 0 (va' / PGSIZE - (va / PGSIZE + 1)));
  destruct (Z.ltb_spec (va' / PGSIZE - (va / PGSIZE + 1)) k);
  destruct (Z.leb_spec 0 (va' / PGSIZE - va / PGSIZE));
  destruct (Z.ltb_spec (va' / PGSIZE - va / PGSIZE) (k + 1));
  destruct (Z.ltb_spec (va' / PGSIZE - va / PGSIZE) 1); simpl; try done; try lia.
  f_equal. lia.
Qed.

Lemma mappages_loop_S fuel root a last pa perm :
  mappages_loop (S fuel) root a last pa perm =
  (pte <- walk root a true ;;
   if pte =? 0 then ret (-1) else
   v <- ld64 pte ;;
   if has PTE_V v then panic "mappages: remap" else
   st64 pte (entry pa perm) ;;
   if a =? last then ret 0
   else mappages_loop fuel root (u64 (a + PGSIZE)) last (u64 (pa + PGSIZE)) perm).
Proof. reflexivity. Qed.

#[local] Opaque walk.

(** One iteration: out of memory, or the page is mapped and the loop goes on. *)
Lemma mappages_step fuel s t l va last pa perm :
  quiet s -> pt_inv s t l -> 0 <= va < MAXVA ->
  0 <= pa < 2 ^ 56 -> 0 <= perm < 1024 ->
  has PTE_V (pt_leaf (k_mem s) t va) = false ->
  exists s' t' l',
    (mappages_loop (S fuel) (pt_root t) va last pa perm s = Ret (-1) s' /\
     chg s t l s' t' l' (pt_leaf (k_mem s) t) /\ l' = [] /\ (length l < 2)%nat) \/
    (mappages_loop (S fuel) (pt_root t) va last pa perm s =
       (if va =? last then ret 0
        else mappages_loop fuel (pt_root t) (u64 (va + PGSIZE)) last (u64 (pa + PGSIZE)) perm) s' /\
     chg s t l s' t' l' (map_range (pt_leaf (k_mem s) t) va pa perm 1) /\ (length l <= length l' + 2)%nat).
Proof.
  intros Hq Hi Hva Hpa Hperm Hfree. rewrite mappages_loop_S.
  destruct (walk_alloc s t l va Hq Hi Hva) as (r & s1 & t1 & l1 & E1 & G1 & Hr).
  run E1. pose proof (grew_chg _ _ _ _ _ _ G1) as C1.
  destruct Hr as [(-> & Hl1 & Hlen)|[Hslot Hlen]]; [exists s1, t1, l1; by left|].
  pose proof (gr_inv _ _ _ _ _ _ G1) as Hi1.
  destruct (pt_slot_in _ _ _ _ (pi_wf _ _ _ Hi1) Hslot) as (q & _ & _ & _ & Hr0).
  rewrite (proj2 (Z.eqb_neq _ _)) by lia.
  assert (Hleaf : load64 (k_mem s1) r = pt_leaf (k_mem s) t va).
  { rewrite <- (gr_leaf _ _ _ _ _ _ G1 va). unfold pt_leaf. by rewrite Hslot. }
  assert (Hv : 0 <= entry pa perm < 2 ^ 64).
  { rewrite entry_eq. apply pte_range; [lia|]. apply lor_small; lia. }
  pose proof (chg_store s1 t1 l1 va r (entry pa perm) Hi1 Hva Hv Hslot) as C2.
  eexists _, t1, l1. right. split.
  { run (ld64_eq r s1). rewrite Hleaf, Hfree. run (st64_eq r (entry pa perm) s1). reflexivity. }
  split; [|done]. eapply chg_ext; [eapply chg_trans; [exact C1|exact C2]|].
  intros va' Hva'. unfold map_range. simpl.
  destruct (Z.eqb_spec (va' / PGSIZE) (va / PGSIZE)) as [E|E].
  - rewrite E, Z.sub_diag. simpl. f_equal. lia.
  - rewrite (gr_leaf _ _ _ _ _ _ G1).
    destruct (Z.leb_spec 0 (va' / PGSIZE - va / PGSIZE)); simpl; [|done].
    by rewrite (proj2 (Z.ltb_ge _ _)) by lia.
Qed.

(** Mapping [S n] fresh pages: all of them, or as many as memory allowed. *)
Lemma mappages_loop_spec n s t l va pa perm :
  quiet s -> pt_inv s t l -> 0 <= va -> va + Z.of_nat (S n) * PGSIZE <= MAXVA ->
  0 <= pa -> pa + Z.of_nat (S n) * PGSIZE <= 2 ^ 56 -> 0 <= perm < 1024 ->
  (forall va', 0 <= va' < MAXVA -> 0 <= va' / PGSIZE - va / PGSIZE < Z.of_nat (S n) ->
     has PTE_V (pt_leaf (k_mem s) t va') = false) ->
  exists r s' t' l' k,
    mappages_loop (S n) (pt_root t) va (va + Z.of_nat n * PGSIZE) pa perm s = Ret r s' /\
    chg s t l s' t' l' (map_range (pt_leaf (k_mem s) t) va pa perm k) /\
    ((r = 0 /\ k = Z.of_nat (S n) /\ (length l <= length l' + 2 * S n)%nat) \/
     (r = -1 /\ 0 <= k < Z.of_nat (S n) /\ l' = [] /\ (length l < 2 * S n)%nat)).
Proof.
  revert s t l va pa; induction n as [|n IH]; intros s t l va pa Hq Hi Hva Hvb Hpa Hpb Hperm Hfree.
  all: match goal with |- context [mappages_loop (S ?f) _ _ ?e] =>
    destruct (mappages_step f s t l va e pa perm Hq Hi ltac:(lia) ltac:(lia) Hperm
      (Hfree va ltac:(lia) ltac:(lia))) as (s1 & t1 & l1 & [(E & C & -> & Hlen)|(E & C & Hlen)]) end.
  all: rewrite E; clear E.
  1,3: exists (-1), s1, t1, [], 0; split_and!; [done| |right; split_and!; [done|lia|lia|done|lia]];
    apply (chg_ext _ _ _ _ _ _ _ _ C); intros va' _; by rewrite map_range_0.
  - rewrite (proj2 (Z.eqb_eq _ _)) by lia.
    exists 0, s1, t1, l1, 1. split_and!; [done|done|]. left. split; [done|lia].
  - rewrite (proj2 (Z.eqb_neq _ _)) by lia. rewrite !wrap_small by lia.
    replace (va + Z.of_nat (S n) * PGSIZE) with (va + PGSIZE + Z.of_nat n * PGSIZE) by lia.
    assert (Hroot : pt_root t1 = pt_root t) by apply C.
    destruct (IH s1 t1 l1 (va + PGSIZE) (pa + PGSIZE)) as (r' & s' & t' & l' & k & E & C' & Hr');
      try lia.
    + by apply (chg_quiet _ _ _ _ _ _ _ C).
    + apply C.
    + intros va' Hva' Hd. rewrite (ch_leaf _ _ _ _ _ _ _ C) by done. unfold map_range.
      pose proof (div_add_page va 1) as Hdv. rewrite Z.mul_1_l in Hdv. rewrite Hdv in Hd.
      rewrite (proj2 (Z.ltb_ge _ 1)) by lia. rewrite andb_false_r. apply Hfree; lia.
    + exists r', s', t', l', (k + 1). split; [by rewrite <- Hroot|]. split.
      * eapply chg_ext; [eapply chg_trans; [exact C|exact C']|].
        intros va' Hva'. apply map_range_step; [lia|]. by apply C.
      * destruct Hr' as [(-> & -> & ?)|(-> & Hk & -> & ?)];
          [left; split_and!; [done|lia|lia]|right; split_and!; [done|lia|lia|done|lia]].
Qed.

End PageTable.
