(* ===== verification/UserMem.v ===== *)
(** kernel/vm.c on user address spaces.

    [as_inv] is the invariant of one address space together with the page
    allocator: a well-formed page table, every valid entry below the trapframe
    owning a page of its own, no page both free and in use.  [as_chg] is how an
    operation of vm.c changes it; in particular pages only move between the
    free list, the table and the user mappings, so none is lost or used twice.
    [uread] is the abstract view, a partial memory indexed by user virtual
    addresses, which copyout, copyin and copyinstr update and read. *)

From S2P Require Import Prelude Types Memory Spinlock Kalloc Vm PageTable.
Local Open Scope c_scope.

Section UserMem.
Context {L : KernelLayout}.
#[local] Opaque walk mappages_loop kalloc kfree.

(** * Virtual page numbers *)

Lemma page_mod a x : a mod PGSIZE = 0 -> a <= x < a + PGSIZE -> x / PGSIZE = a / PGSIZE.
Proof.
  unfold PGSIZE. intros Ha Hx. pose proof (Z.div_mod a 4096 ltac:(lia)).
  symmetry. apply (Z.div_unique x 4096 (a / 4096) (x - a)); lia.
Qed.

Lemma PGROUNDDOWN_page a : PGROUNDDOWN a = a / PGSIZE * PGSIZE.
Proof. rewrite PGROUNDDOWN_eq. unfold PGSIZE. pose proof (Z.div_mod a 4096 ltac:(lia)). lia. Qed.

Lemma PGROUNDDOWN_aligned a : PGROUNDDOWN a mod PGSIZE = 0.
Proof. rewrite PGROUNDDOWN_page. apply Z.mod_mul. lia. Qed.

Lemma PGROUNDDOWN_range a : PGROUNDDOWN a <= a < PGROUNDDOWN a + PGSIZE.
Proof. rewrite PGROUNDDOWN_eq. pose proof (Z.mod_pos_bound a PGSIZE ltac:(lia)). lia. Qed.

Lemma PGROUNDDOWN_div a : PGROUNDDOWN a / PGSIZE = a / PGSIZE.
Proof. rewrite PGROUNDDOWN_page. apply Z.div_mul. lia. Qed.

(** The leaf entry depends on the page of the address only. *)
Lemma pt_leaf_page m t va va' :
  va / PGSIZE = va' / PGSIZE -> pt_leaf m t va = pt_leaf m t va'.
Proof.
  intros H. unfold pt_leaf, pt_slot.
  by rewrite (PX_same_page 2 va va'), (PX_same_page 1 va va'), (PX_same_page 0 va va') by (done || lia).
Qed.

Lemma div_lt_page a b : a / PGSIZE < b / PGSIZE -> a < b.
Proof.
  unfold PGSIZE. intros H. destruct (decide (a < b)); [done|].
  pose proof (Z.div_le_mono b a 4096 ltac:(lia) ltac:(lia)). lia.
Qed.

Lemma div_lt_aligned a b : b mod PGSIZE = 0 -> a < b -> a / PGSIZE < b / PGSIZE.
Proof.
  unfold PGSIZE. intros Hb H. pose proof (Z.div_mod b 4096 ltac:(lia)).
  apply Z.div_lt_upper_bound; lia.
Qed.

(** * The address space invariant *)

(** A valid entry below the trapframe page: user memory, or a guard page whose
    [PTE_U] bit is cleared. *)
Definition uvalid (m : gmap Z Z) (t : ptree) (va : Z) : Prop :=
  0 <= va < TRAPFRAME /\ has PTE_V (pt_leaf m t va) = true.

(** The physical page of [va]. *)
Definition upage (m : gmap Z Z) (t : ptree) (va : Z) : Z := PTE2PA (pt_leaf m t va).

Record as_inv (s : kstate) (t : ptree) (l : list Z) : Prop := {
  as_pt : pt_inv s t l;
  as_page : forall va, uvalid (k_mem s) t va ->
              page_ok (upage (k_mem s) t va) /\ ~ is_table t (upage (k_mem s) t va) /\
              (upage (k_mem s) t va ∉ l);
  as_inj : forall va va', uvalid (k_mem s) t va -> uvalid (k_mem s) t va' ->
             upage (k_mem s) t va = upage (k_mem s) t va' -> va / PGSIZE = va' / PGSIZE;
  as_high : forall va, TRAPFRAME <= va < MAXVA -> has PTE_U (pt_leaf (k_mem s) t va) = false
}.

(** The pages that belong to the address space or to the allocator. *)
Definition owned (m : gmap Z Z) (t : ptree) (l : list Z) (p : Z) : Prop :=
  is_table t p \/ (p ∈ l) \/ exists va, uvalid m t va /\ upage m t va = p.

Lemma owned_page_ok s t l p : as_inv s t l -> owned (k_mem s) t l p -> page_ok p.
Proof.
  intros Hi [[n Hn]|[Hp|(va & Hva & <-)]].
  - by eapply (wf_page _ _ (pi_wf _ _ _ (as_pt _ _ _ Hi))).
  - pose proof (km_pages _ _ (pi_kmem _ _ _ (as_pt _ _ _ Hi))) as H.
    rewrite Forall_forall in H. by apply H.
  - by apply (as_page _ _ _ Hi).
Qed.

(** How an operation on the mappings of the pages in [D] changes the machine:
    the new entries are [F]; the pages mapped elsewhere keep entry and bytes;
    what belongs to neither the space nor the allocator is not touched. *)
Record as_chg (s : kstate) (t : ptree) (l : list Z) (s' : kstate) (t' : ptree) (l' : list Z)
    (D : Z -> Prop) (F : Z -> Z) : Prop := {
  ac_state : s' = set_k_freelist (k_freelist s') (set_k_mem (k_mem s') s);
  ac_inv : as_inv s' t' l';
  ac_root : pt_root t' = pt_root t;
  ac_leaf : forall va, 0 <= va < MAXVA -> pt_leaf (k_mem s') t' va = F va;
  ac_same : forall va, 0 <= va < MAXVA -> ~ D va ->
              pt_leaf (k_mem s') t' va = pt_leaf (k_mem s) t va;
  ac_keep : forall va x, ~ D va -> uvalid (k_mem s) t va ->
              upage (k_mem s) t va <= x < upage (k_mem s) t va + PGSIZE ->
              mget (k_mem s') x = mget (k_mem s) x;
  ac_owned : forall p, owned (k_mem s') t' l' p <-> owned (k_mem s) t l p;
  ac_frame : forall x, (forall p, owned (k_mem s) t l p -> x < p \/ p + PGSIZE <= x) ->
               mget (k_mem s') x = mget (k_mem s) x
}.

Lemma TRAPFRAME_MAXVA : TRAPFRAME < MAXVA.
Proof. done. Qed.

Lemma as_chg_refl s t l D : as_inv s t l -> as_chg s t l s t l D (pt_leaf (k_mem s) t).
Proof. intros H. constructor; try done. by destruct s. Qed.

Lemma as_chg_trans s1 t1 l1 s2 t2 l2 s3 t3 l3 D1 D2 D F1 F2 :
  as_chg s1 t1 l1 s2 t2 l2 D1 F1 -> as_chg s2 t2 l2 s3 t3 l3 D2 F2 ->
  (forall va, D1 va \/ D2 va -> D va) -> as_chg s1 t1 l1 s3 t3 l3 D F2.
Proof.
  intros A B HD. constructor; try apply B.
  - rewrite (ac_state _ _ _ _ _ _ _ _ B). simpl. by rewrite (ac_state _ _ _ _ _ _ _ _ A).
  - etrans; [apply B|apply A].
  - intros va Hva Hn. rewrite (ac_same _ _ _ _ _ _ _ _ B), (ac_same _ _ _ _ _ _ _ _ A);
      [done|done|intuition|done|intuition].
  - intros va x Hn [Hv1 Hv2] Hx. pose proof TRAPFRAME_MAXVA.
    assert (E : pt_leaf (k_mem s2) t2 va = pt_leaf (k_mem s1) t1 va).
    { apply A; [lia|intuition]. }
    assert (Eu : upage (k_mem s2) t2 va = upage (k_mem s1) t1 va) by (unfold upage; by rewrite E).
    rewrite (ac_keep _ _ _ _ _ _ _ _ B va x);
      [|intuition|split; [done|by rewrite E]|by rewrite Eu].
    apply (ac_keep _ _ _ _ _ _ _ _ A va x); [intuition|by split|done].
  - intros p. rewrite (ac_owned _ _ _ _ _ _ _ _ B). apply A.
  - intros x Hx. rewrite (ac_frame _ _ _ _ _ _ _ _ B); [by apply A|].
    intros p Hp. apply Hx. by apply A.
Qed.

Lemma as_chg_ext s t l s' t' l' D F G :
  as_chg s t l s' t' l' D F -> (forall va, 0 <= va < MAXVA -> F va = G va) ->
  as_chg s t l s' t' l' D G.
Proof. intros C H. constructor; try apply C. intros va Hva. rewrite <- H by done. by apply C. Qed.

Lemma as_chg_quiet s t l s' t' l' D F : as_chg s t l s' t' l' D F -> quiet s -> quiet s'.
Proof. intros C H. rewrite (ac_state _ _ _ _ _ _ _ _ C). by apply quiet_set. Qed.

(** * Reading a table *)

Lemma pt_leaf_slot m t va a : pt_slot t va = Some a -> load64 m a = pt_leaf m t va.
Proof. intros H. unfold pt_leaf. by rewrite H. Qed.

(** What [walkaddr] answers, as a function of the abstract table. *)
Definition uaddr (m : gmap Z Z) (t : ptree) (va : Z) : Z :=
  if (va <? MAXVA) && has PTE_V (pt_leaf m t va) && has PTE_U (pt_leaf m t va)
  then upage m t va else 0.

Lemma walkaddr_spec s t va :
  pt_wf (k_mem s) t -> 0 <= va ->
  walkaddr (pt_root t) va s = Ret (uaddr (k_mem s) t va) s.
Proof.
  intros Hw Hva. unfold walkaddr, uaddr, upage.
  destruct (Z.leb_spec MAXVA va); [by rewrite (proj2 (Z.ltb_ge _ _))|].
  rewrite (proj2 (Z.ltb_lt _ _)) by done. simpl.
  run (walk_read s _ t va Hw eq_refl ltac:(lia)).
  destruct (pt_slot t va) as [a|] eqn:E; simpl.
  - destruct (pt_slot_in _ _ _ _ Hw E) as (q & _ & _ & _ & Ha0).
    rewrite (proj2 (Z.eqb_neq _ _)) by done. run (ld64_eq a s). rewrite (pt_leaf_slot _ t va) by done.
    by destruct (has PTE_V _), (has PTE_U _).
  - unfold pt_leaf. by rewrite E.
Qed.

(** Writing inside a page that is not part of the table keeps it. *)
Lemma pt_frame_page p m m' t :
  pt_wf m t -> page_ok p -> ~ is_table t p -> same_but_page p m m' ->
  pt_wf m' t /\ forall va, pt_leaf m' t va = pt_leaf m t va.
Proof.
  intros Hw Hp Hn Hs.
  assert (apart : forall n q x, tpage t n = Some q -> q <= x < q + PGSIZE -> mget m' x = mget m x).
  { intros n q x Hq Hx. apply Hs.
    destruct (page_ok_apart p q Hp (wf_page _ _ Hw _ _ Hq)); [|lia..].
    intros ->. apply Hn. by exists n. }
  split.
  - apply (pt_wf_frame m); [done|]. intros q x [->|[i Hi]] Hx.
    + by apply (apart TRoot (pt_root t)).
    + by apply (apart (T1 i) q).
  - intros va. unfold pt_leaf. destruct (pt_slot t va) as [a|] eqn:E; [|done].
    destruct (pt_slot_in _ _ _ _ Hw E) as (q & Hq & H1 & H2 & _).
    apply load_ext. intros x Hx. apply (apart _ q x Hq). lia.
Qed.

(** * Changing the mappings of a range *)

Definition in_pages (lo n va : Z) : Prop := lo <= va / PGSIZE < lo + n.

(** Pages mapped in the range, and all pages an operation on it may use. *)
Definition dpage (m : gmap Z Z) (t : ptree) (lo n p : Z) : Prop :=
  exists va, in_pages lo n va /\ uvalid m t va /\ upage m t va = p.
Definition pool (m : gmap Z Z) (t : ptree) (l : list Z) (lo n p : Z) : Prop :=
  is_table t p \/ (p ∈ l) \/ dpage m t lo n p.

Lemma in_pages_dec lo n va : in_pages lo n va \/ ~ in_pages lo n va.
Proof. unfold in_pages. lia. Qed.

(** A page mapped outside the range is not in the pool. *)
Lemma pool_outside s t l lo n va :
  as_inv s t l -> uvalid (k_mem s) t va -> ~ in_pages lo n va ->
  ~ pool (k_mem s) t l lo n (upage (k_mem s) t va).
Proof.
  intros Hi Hva Hn Hp. destruct (as_page _ _ _ Hi va Hva) as (_ & H1 & H2).
  destruct Hp as [?|[?|(va' & Hin & Hva' & E)]]; [done..|].
  apply Hn. unfold in_pages in *. by rewrite <- (as_inj _ _ _ Hi va' va Hva' Hva E).
Qed.

Lemma pool_owned m t l lo n p : pool m t l lo n p -> owned m t l p.
Proof. intros [?|[?|(va & _ & ? & ?)]]; [by left|by right; left|right; right; by exists va]. Qed.

(** The pool is kept, entries outside the range are kept, nothing outside the
    pool is written: then the operation is a change of the address space. *)
Lemma as_chg_range s t l s' t' l' lo n F :
  as_inv s t l -> lo + n <= TRAPFRAME / PGSIZE ->
  pt_inv s' t' l' -> (forall va, 0 <= va < MAXVA -> pt_leaf (k_mem s') t' va = F va) ->
  s' = set_k_freelist (k_freelist s') (set_k_mem (k_mem s') s) -> pt_root t' = pt_root t ->
  (forall va, 0 <= va < MAXVA -> ~ in_pages lo n va ->
     pt_leaf (k_mem s') t' va = pt_leaf (k_mem s) t va) ->
  (forall va, in_pages lo n va -> uvalid (k_mem s') t' va ->
     ~ is_table t' (upage (k_mem s') t' va) /\ (upage (k_mem s') t' va ∉ l')) ->
  (forall va va', in_pages lo n va -> in_pages lo n va' ->
     uvalid (k_mem s') t' va -> uvalid (k_mem s') t' va' ->
     upage (k_mem s') t' va = upage (k_mem s') t' va' -> va / PGSIZE = va' / PGSIZE) ->
  (forall p, pool (k_mem s') t' l' lo n p <-> pool (k_mem s) t l lo n p) ->
  (forall x, (forall p, pool (k_mem s) t l lo n p -> x < p \/ p + PGSIZE <= x) ->
     mget (k_mem s') x = mget (k_mem s) x) ->
  as_chg s t l s' t' l' (in_pages lo n) F.
Proof.
  intros Hi Hlo Hpt HF Hst Hroot Hsame Hnew Hinj Hpool Hframe. pose proof TRAPFRAME_MAXVA as HT.
  assert (Hout : forall va, uvalid (k_mem s') t' va -> ~ in_pages lo n va ->
            uvalid (k_mem s) t va /\ upage (k_mem s') t' va = upage (k_mem s) t va).
  { intros va [H1 H2] Hn. unfold uvalid, upage. rewrite <- (Hsame va) by (done || lia). done. }
  assert (Hmix : forall va va', uvalid (k_mem s') t' va -> uvalid (k_mem s') t' va' ->
            in_pages lo n va -> ~ in_pages lo n va' ->
            upage (k_mem s') t' va <> upage (k_mem s') t' va').
  { intros va va' H1 H2 H3 H4 E. destruct (Hout va' H2 H4) as [H5 H6].
    apply (pool_outside s t l lo n va' Hi H5 H4). apply Hpool. rewrite <- H6, <- E.
    right; right. by exists va. }
  constructor; try done.
  - constructor.
    + done.
    + intros va Hva. destruct (in_pages_dec lo n va) as [Hin|Hin].
      * split; [|by apply Hnew]. apply (owned_page_ok s t l); [done|].
        apply (pool_owned _ _ _ lo n), Hpool. right; right. by exists va.
      * destruct (Hout va Hva Hin) as [H5 ->]. split; [by apply (as_page _ _ _ Hi)|].
        pose proof (pool_outside s t l lo n va Hi H5 Hin) as Hnp. rewrite <- Hpool in Hnp.
        split; intros ?; apply Hnp; [by left|by right; left].
    + intros va va' H1 H2 E.
      destruct (in_pages_dec lo n va), (in_pages_dec lo n va'); [by apply Hinj|by destruct (Hmix va va')|
        by destruct (Hmix va' va)|].
      destruct (Hout va) as [? ?]; [done..|]. destruct (Hout va') as [? ?]; [done..|].
      apply (as_inj _ _ _ Hi); [done..|congruence].
    + intros va Hva. rewrite Hsame; [by apply Hi|lia|]. unfold in_pages.
      pose proof (Z.div_le_mono TRAPFRAME va PGSIZE). lia.
  - intros va x Hn Hva Hx. apply Hframe. intros p Hp.
    destruct (as_page _ _ _ Hi va Hva) as (H1 & _).
    destruct (page_ok_apart (upage (k_mem s) t va) p H1); [|by intros <-; eapply pool_outside|lia..].
    eapply owned_page_ok; [done|by eapply pool_owned].
  - intros p. split.
    + intros [?|[?|(va & Hva & E)]];
        [eapply pool_owned, Hpool; by left|eapply pool_owned, Hpool; by right; left|].
      destruct (in_pages_dec lo n va) as [Hin|Hin].
      * eapply pool_owned, Hpool. right; right. by exists va.
      * right; right. destruct (Hout va Hva Hin) as [? E']. exists va. by rewrite <- E'.
    + intros [?|[?|(va & Hva & E)]];
        [eapply pool_owned, Hpool; by left|eapply pool_owned, Hpool; by right; left|].
      destruct (in_pages_dec lo n va) as [Hin|Hin].
      * eapply pool_owned, Hpool. right; right. by exists va.
      * right; right. exists va. unfold uvalid, upage in *. destruct Hva.
        by rewrite Hsame by (done || lia).
  - intros x Hx. apply Hframe. intros p Hp. by apply Hx, (pool_owned _ _ _ lo n).
Qed.

(** * uvmunmap *)

(** The entry of [va] after the pages [lo .. lo + n - 1] have been unmapped. *)
Definition unmap_range (F : Z -> Z) (lo n va : Z) : Z :=
  if (lo <=? va / PGSIZE) && (va / PGSIZE <? lo + n) && has PTE_V (F va) then 0 else F va.

Lemma uvmunmap_loop_S fuel root a lim f :
  uvmunmap_loop (S fuel) root a lim f =
  if negb (a <? lim) then ret tt
  else unmap1 root a f ;; uvmunmap_loop fuel root (u64 (a + PGSIZE)) lim f.
Proof. reflexivity. Qed.

Lemma unmap_range_1 F a va :
  (forall x y, x / PGSIZE = y / PGSIZE -> F x = F y) -> has PTE_V (F a) = true ->
  unmap_range F (a / PGSIZE) 1 va = if va / PGSIZE =? a / PGSIZE then 0 else F va.
Proof.
  intros HF Hv. unfold unmap_range. destruct (Z.eqb_spec (va / PGSIZE) (a / PGSIZE)) as [E|E].
  - rewrite (HF va a E), Hv, E. by zsimp.
  - destruct (Z.leb_spec (a / PGSIZE) (va / PGSIZE)); simpl; [|done].
    by rewrite (proj2 (Z.ltb_ge _ _)) by lia.
Qed.

Lemma uvalid_slot m t a : uvalid m t a -> exists e, pt_slot t a = Some e.
Proof.
  intros [_ Hv]. unfold pt_leaf in Hv. destruct (pt_slot t a) as [e|]; [by exists e|].
  by rewrite has_0 in Hv.
Qed.

(** Freeing the page of [a] and clearing its entry. *)
Lemma unmap1_valid s t l a :
  quiet s -> as_inv s t l -> uvalid (k_mem s) t a ->
  exists s', unmap1 (pt_root t) a true s = Ret tt s' /\
    as_chg s t l s' t (upage (k_mem s) t a :: l) (in_pages (a / PGSIZE) 1)
      (unmap_range (pt_leaf (k_mem s) t) (a / PGSIZE) 1).
Proof.
  intros [Hc Hlk] Hi Ha. pose proof TRAPFRAME_MAXVA as HT. pose proof Ha as [Har Hv].
  pose proof (as_pt _ _ _ Hi) as Hpt. pose proof (pi_wf _ _ _ Hpt) as Hw.
  destruct (as_page _ _ _ Hi a Ha) as (Hp & Hpn & Hpl).
  unfold unmap1. run (walk_read s _ t a Hw eq_refl ltac:(lia)).
  destruct (uvalid_slot _ _ _ Ha) as [e He]. rewrite He. simpl.
  destruct (pt_slot_in _ _ _ _ Hw He) as (q & Hq & He1 & He2 & He0).
  rewrite (proj2 (Z.eqb_neq _ _)) by done. run (ld64_eq e s).
  rewrite (pt_leaf_slot _ t a) by done. rewrite Hv. simpl. fold (upage (k_mem s) t a).
  set (p := upage (k_mem s) t a) in *.
  destruct (kfree_spec p s l Hc Hlk (pi_kmem _ _ _ Hpt) Hp Hpl) as (m & E & Hs & Hm & Hk).
  run E. rewrite st64_eq. eexists. split; [reflexivity|].
  destruct (pt_frame_page p (k_mem s) m t Hw Hp Hpn Hs) as [Hw' Hl'].
  set (s1 := set_k_freelist p (set_k_mem m s)) in *.
  assert (Hpt1 : pt_inv s1 t (p :: l)).
  { constructor; [done|done|]. intros r Hr. rewrite not_elem_of_cons.
    split; [by intros ->|by apply Hpt]. }
  pose proof (chg_store s1 t (p :: l) a e 0 Hpt1 ltac:(lia) ltac:(lia) He) as C.
  assert (HF := fun va => unmap_range_1 (pt_leaf (k_mem s) t) a va
    (fun x y H => pt_leaf_page _ _ x y H) Hv).
  set (s2 := set_k_mem (store64 (k_mem s1) e 0) s1) in *.
  assert (Hnew : forall va, in_pages (a / PGSIZE) 1 va -> ~ uvalid (k_mem s2) t va).
  { intros va Hin [H1 H2]. rewrite (ch_leaf _ _ _ _ _ _ _ C) in H2 by lia.
    unfold in_pages in Hin. rewrite (proj2 (Z.eqb_eq _ _)) in H2 by lia. by rewrite has_0 in H2. }
  apply as_chg_range; try fast_done.
  - pose proof (div_lt_aligned a TRAPFRAME ltac:(done)). lia.
  - apply C.
  - intros va Hva. rewrite (ch_leaf _ _ _ _ _ _ _ C) by done. rewrite HF. simpl. by rewrite Hl'.
  - intros va Hva Hn. rewrite (ch_leaf _ _ _ _ _ _ _ C) by done.
    unfold in_pages in Hn. rewrite (proj2 (Z.eqb_neq _ _)) by lia. apply Hl'.
  - intros va Hin Hva. by destruct (Hnew va).
  - intros va va' Hin _ Hva. by destruct (Hnew va).
  - intros r. unfold pool. rewrite elem_of_cons. split.
    + intros [?|[[->|?]|(va & H1 & H2 & _)]]; [by left| |by right; left|by destruct (Hnew va)].
      right; right. exists a. split_and!; [unfold in_pages; lia|done|done].
    + intros [?|[?|(va & H1 & H2 & <-)]]; [by left|by right; left; right|right; left; left].
      unfold p, upage. unfold in_pages in H1. by rewrite (pt_leaf_page _ _ va a) by lia.
  - intros x Hx. rewrite (ch_frame _ _ _ _ _ _ _ C).
    + apply Hs. apply Hx. right; right. exists a. split_and!; [unfold in_pages; lia|done|done].
    + intros (r & Hr & Hxr). destruct (Hx r); [by left|lia..].
Qed.

Lemma unmap1_spec s t l a :
  quiet s -> as_inv s t l -> 0 <= a < TRAPFRAME ->
  exists s' l', unmap1 (pt_root t) a true s = Ret tt s' /\
    as_chg s t l s' t l' (in_pages (a / PGSIZE) 1)
      (unmap_range (pt_leaf (k_mem s) t) (a / PGSIZE) 1).
Proof.
  intros Hq Hi Ha. pose proof TRAPFRAME_MAXVA as HT.
  pose proof (pi_wf _ _ _ (as_pt _ _ _ Hi)) as Hw.
  destruct (has PTE_V (pt_leaf (k_mem s) t a)) eqn:Hv.
  { destruct (unmap1_valid s t l a Hq Hi) as (s' & E & C); [by split|]. by exists s', (upage (k_mem s) t a :: l). }
  exists s, l. split.
  - unfold unmap1. run (walk_read s _ t a Hw eq_refl ltac:(lia)).
    destruct (pt_slot t a) as [e|] eqn:E; [|done]. simpl.
    destruct (Z.eqb_spec e 0); [done|]. run (ld64_eq e s).
    rewrite (pt_leaf_slot _ t a) by done. by rewrite Hv.
  - eapply as_chg_ext; [by apply as_chg_refl|]. intros va Hva. unfold unmap_range.
    destruct (decide (va / PGSIZE = a / PGSIZE)) as [E|E].
    + rewrite (pt_leaf_page _ _ va a E), Hv. by rewrite andb_false_r.
    + destruct (Z.leb_spec (a / PGSIZE) (va / PGSIZE)); simpl; [|done].
      by rewrite (proj2 (Z.ltb_ge _ _)) by lia.
Qed.

Lemma unmap_range_0 F lo va : unmap_range F lo 0 va = F va.
Proof.
  unfold unmap_range. destruct (Z.leb_spec lo (va / PGSIZE)); simpl; [|done].
  by rewrite (proj2 (Z.ltb_ge _ _)) by lia.
Qed.

Lemma unmap_range_step F G lo n va :
  0 <= n -> G va = unmap_range F lo 1 va -> unmap_range G (lo + 1) n va = unmap_range F lo (n + 1) va.
Proof.
  intros Hn HG. unfold unmap_range in *. rewrite HG.
  destruct (Z.leb_spec lo (va / PGSIZE)), (Z.leb_spec (lo + 1) (va / PGSIZE)),
    (Z.ltb_spec (va / PGSIZE) (lo + 1)), (Z.ltb_spec (va / PGSIZE) (lo + 1 + n)),
    (Z.ltb_spec (va / PGSIZE) (lo + (n + 1))); simpl; try lia; try done.
Qed.

Lemma uvmunmap_loop_spec n s t l a :
  quiet s -> as_inv s t l -> 0 <= a -> a + Z.of_nat n * PGSIZE <= TRAPFRAME ->
  exists s' l',
    uvmunmap_loop (S n) (pt_root t) a (a + Z.of_nat n * PGSIZE) true s = Ret tt s' /\
    as_chg s t l s' t l' (in_pages (a / PGSIZE) (Z.of_nat n))
      (unmap_range (pt_leaf (k_mem s) t) (a / PGSIZE) (Z.of_nat n)).
Proof.
  revert s l a; induction n as [|n IH]; intros s l a Hq Hi Ha Hb; rewrite uvmunmap_loop_S.
  - rewrite (proj2 (Z.ltb_ge _ _)) by lia. exists s, l. split; [done|].
    eapply as_chg_ext; [by apply as_chg_refl|]. intros va _. by rewrite unmap_range_0.
  - rewrite (proj2 (Z.ltb_lt _ _)) by lia. pose proof TRAPFRAME_MAXVA as HT. cbn [negb].
    destruct (unmap1_spec s t l a Hq Hi ltac:(lia)) as (s1 & l1 & E1 & C1). run E1.
    rewrite wrap_small by lia.
    replace (a + Z.of_nat (S n) * PGSIZE) with (a + PGSIZE + Z.of_nat n * PGSIZE) by lia.
    destruct (IH s1 l1 (a + PGSIZE)) as (s2 & l2 & E2 & C2); [by eapply as_chg_quiet|apply C1|lia|lia|].
    exists s2, l2. split; [exact E2|].
    assert (Hd : (a + PGSIZE) / PGSIZE = a / PGSIZE + 1).
    { pose proof (div_add_page a 1). by rewrite Z.mul_1_l in *. }
    rewrite Hd in C2. eapply as_chg_ext.
    + eapply as_chg_trans; [exact C1|exact C2|]. unfold in_pages. lia.
    + intros va Hva. replace (Z.of_nat (S n)) with (Z.of_nat n + 1) by lia.
      apply unmap_range_step; [lia|]. by apply C1.
Qed.

(** Unmapping [npages] pages of user memory: their entries are cleared and
    their pages are free again. *)
Lemma uvmunmap_spec s t l va npages :
  quiet s -> as_inv s t l ->
  va mod PGSIZE = 0 -> 0 <= va -> 0 <= npages -> va + npages * PGSIZE <= TRAPFRAME ->
  exists s' l', uvmunmap (pt_root t) va npages true s = Ret tt s' /\
    as_chg s t l s' t l' (in_pages (va / PGSIZE) npages)
      (unmap_range (pt_leaf (k_mem s) t) (va / PGSIZE) npages).
Proof.
  intros Hq Hi Hal Hva Hn Hb. pose proof TRAPFRAME_MAXVA as HT. unfold uvmunmap. rewrite Hal. simpl.
  rewrite (wrap_small 64 (npages * PGSIZE)), wrap_small by lia.
  destruct (uvmunmap_loop_spec (Z.to_nat npages) s t l va) as (s' & l' & E & C); [done|done|lia|lia|].
  rewrite Z2Nat.id in E, C by done. by exists s', l'.
Qed.

(** * Mapping a fresh page *)

(** The part [uvmalloc] and [uvmcopy] share: allocate a page, fill it, map it
    at [a]; on failure give the page back and go to [err]. *)
Definition map_fresh (root a perm : Z) (fill : Z -> gmap Z Z -> gmap Z Z) (err next : K Z) : K Z :=
  mem <- kalloc ;;
  if mem =? 0 then err else
  mem_upd (fill mem) ;;
  r <- mappages root a PGSIZE mem perm ;;
  if negb (r =? 0) then kfree mem ;; err else next.

(** [fill] writes bytes, and only into the page it is given. *)
Definition fills (fill : Z -> gmap Z Z -> gmap Z Z) : Prop :=
  forall p m, mem_ok m -> mem_ok (fill p m) /\ same_but_page p m (fill p m).

Lemma mappages_1 root a pa perm s :
  a mod PGSIZE = 0 -> 0 <= a < 2 ^ 64 ->
  mappages root a PGSIZE pa perm s = mappages_loop 1 root a (a + Z.of_nat 0 * PGSIZE) pa perm s.
Proof.
  intros Ha Hr. unfold mappages. rewrite Ha, (Z.mod_same PGSIZE) by lia. simpl negb. cbv iota.
  rewrite Z.div_same by lia. rewrite wrap_small by lia. do 2 f_equal. lia.
Qed.

Lemma PTE2PA_entry p perm : page_ok p -> 0 <= perm < 1024 -> PTE2PA (entry p perm) = p.
Proof.
  intros Hp Hf. rewrite entry_eq. apply PTE2PA_pte; [apply Hp|by apply page_ok_pa|].
  apply lor_small; lia.
Qed.

Lemma has_entry g p perm :
  page_ok p -> 0 <= perm < 1024 -> 0 <= g < 1024 -> has g (entry p perm) = has g (Z.lor perm PTE_V).
Proof.
  intros Hp Hf Hg. rewrite entry_eq. apply has_pte; [by apply page_ok_pa|by apply lor_small; lia|done].
Qed.

Lemma entry_valid p perm : page_ok p -> 0 <= perm < 1024 -> has PTE_V (entry p perm) = true.
Proof.
  intros Hp Hf. rewrite has_entry by (done || lia). rewrite Z.lor_comm. by apply has_lor_l.
Qed.

(** The state in the middle: page [p] is out of the free list and filled. *)
Lemma fresh_filled s t p l fill :
  quiet s -> as_inv s t (p :: l) -> fills fill ->
  exists m1 s2, kalloc s = Ret p (set_k_freelist (k_freelist s2) (set_k_mem m1 s)) /\
    s2 = set_k_freelist (k_freelist s2) (set_k_mem (fill p m1) s) /\
    same_but_page p (k_mem s) m1 /\ mem_ok m1 /\ pt_inv s2 t l /\
    (forall va, pt_leaf (k_mem s2) t va = pt_leaf (k_mem s) t va) /\
    page_ok p /\ (p ∉ l) /\ ~ is_table t p.
Proof.
  intros [Hc Hlk] Hi Hfill. pose proof (as_pt _ _ _ Hi) as [Hk Hw Hu].
  destruct (kalloc_some p s l Hc Hlk Hk) as (m1 & E & Hs & Hm & Hp & Hn & [K1 K2 K3 K4]).
  destruct (Hfill p m1 Hm) as [Hm2 Hs2].
  assert (Hpt : ~ is_table t p) by (intros Hp'; apply (Hu p Hp'); by left).
  destruct (pt_frame_page p (k_mem s) (fill p m1) t Hw Hp Hpt) as [Hw2 Hl2].
  { by eapply same_but_page_trans. }
  exists m1, (set_k_freelist (load64 (k_mem s) p) (set_k_mem (fill p m1) s)).
  split_and!; simpl; try fast_done. constructor; simpl; try fast_done.
  - constructor; simpl; try fast_done. by apply (flist_same_but p m1).
  - intros q Hq Hin. apply (Hu q Hq). by right.
Qed.

(** Table pages and free pages after a [chg] that took pages from [l]. *)
Lemma chg_pool s t l s' t' l' F p :
  chg s t l s' t' l' F -> (is_table t' p \/ p ∈ l') <-> (is_table t p \/ p ∈ l).
Proof.
  intros C. destruct (ch_free _ _ _ _ _ _ _ C) as (u & -> & E). rewrite E, elem_of_app. tauto.
Qed.

Lemma chg_notin s t l s' t' l' F p :
  chg s t l s' t' l' F -> ~ is_table t p -> p ∉ l -> ~ is_table t' p /\ (p ∉ l').
Proof.
  intros C H1 H2. pose proof (chg_pool _ _ _ _ _ _ _ p C) as H. tauto.
Qed.

Lemma map_range_1 F a p perm va :
  map_range F a p perm 1 va = if va / PGSIZE =? a / PGSIZE then entry p perm else F va.
Proof.
  unfold map_range. simpl. destruct (Z.eqb_spec (va / PGSIZE) (a / PGSIZE)) as [->|E].
  - rewrite Z.sub_diag. simpl. by rewrite Z.add_0_r.
  - destruct (Z.leb_spec 0 (va / PGSIZE - a / PGSIZE)); simpl; [|done].
    by rewrite (proj2 (Z.ltb_ge _ _)) by lia.
Qed.

Lemma dpage_fresh_none m t a p :
  has PTE_V (pt_leaf m t a) = false -> ~ dpage m t (a / PGSIZE) 1 p.
Proof.
  intros Hv (va & Hin & [_ Hva] & _). unfold in_pages in Hin.
  rewrite (pt_leaf_page _ _ va a) in Hva by lia. congruence.
Qed.

(** Putting the page back after [mappages] failed. *)
Lemma fresh_undo s t p l m1 s2 s3 t3 l3 fill :
  quiet s -> as_inv s t (p :: l) -> fills fill ->
  s2 = set_k_freelist (k_freelist s2) (set_k_mem (fill p m1) s) ->
  same_but_page p (k_mem s) m1 -> mem_ok m1 -> page_ok p -> p ∉ l -> ~ is_table t p ->
  (forall va, pt_leaf (k_mem s2) t va = pt_leaf (k_mem s) t va) ->
  chg s2 t l s3 t3 l3 (pt_leaf (k_mem s) t) ->
  exists s4, kfree p s3 = Ret tt s4 /\
    as_chg s t (p :: l) s4 t3 (p :: l3) (in_pages 0 0) (pt_leaf (k_mem s) t).
Proof.
  intros Hq Hi Hfill E2 Hs1 Hm1 Hp Hn Hnt Hl2 C.
  destruct (chg_notin _ _ _ _ _ _ _ p C Hnt Hn) as [Hnt3 Hn3].
  assert (Hq2 : quiet s2) by (rewrite E2; by apply quiet_set).
  destruct (chg_quiet _ _ _ _ _ _ _ C Hq2) as [Hc3 Hlk3].
  pose proof (ch_inv _ _ _ _ _ _ _ C) as [Hk3 Hw3 Hu3].
  destruct (kfree_spec p s3 l3 Hc3 Hlk3 Hk3 Hp Hn3) as (m4 & E4 & Hs4 & Hm4 & Hk4).
  destruct (pt_frame_page p (k_mem s3) m4 t3 Hw3 Hp Hnt3 Hs4) as [Hw4 Hl4].
  eexists. split; [exact E4|].
  assert (Hleaf : forall va, 0 <= va < MAXVA -> pt_leaf m4 t3 va = pt_leaf (k_mem s) t va).
  { intros va Hva. rewrite Hl4. by apply C. }
  assert (Hnone : forall m t p', ~ dpage m t 0 0 p').
  { intros m t' p' (va & H & _). unfold in_pages in H. lia. }
  apply as_chg_range; simpl; try fast_done.
  - by vm_compute.
  - constructor; simpl; [done|done|]. intros q Hq'. rewrite not_elem_of_cons.
    split; [by intros ->|by apply Hu3].
  - rewrite (ch_state _ _ _ _ _ _ _ C), E2. done.
  - etrans; [apply C|done].
  - intros va Hva _. by apply Hleaf.
  - intros va H. unfold in_pages in H. lia.
  - intros va va' H. unfold in_pages in H. lia.
  - intros q. unfold pool. pose proof (chg_pool _ _ _ _ _ _ _ q C) as H.
    rewrite !elem_of_cons. pose proof (Hnone m4 t3 q). pose proof (Hnone (k_mem s) t q). tauto.
  - intros x Hx. assert (Hxp : x < p \/ p + PGSIZE <= x) by (apply Hx; right; left; by left).
    rewrite Hs4 by done. rewrite (ch_frame _ _ _ _ _ _ _ C).
    + rewrite E2. simpl. rewrite (proj2 (Hfill p m1 Hm1)) by done. by apply Hs1.
    + intros (q & Hq' & Hxq). assert (is_table t q \/ q ∈ l) as Hq3.
      { apply (chg_pool _ _ _ _ _ _ _ q C). by left. }
      destruct (Hx q); [|lia..]. destruct Hq3; [by left|right; left; by right].
Qed.

(** The page stays mapped. *)
Lemma fresh_done s t p l m1 s2 s3 t3 l3 fill a perm :
  as_inv s t (p :: l) -> fills fill -> 0 <= a < TRAPFRAME -> 0 <= perm < 1024 ->
  has PTE_V (pt_leaf (k_mem s) t a) = false ->
  s2 = set_k_freelist (k_freelist s2) (set_k_mem (fill p m1) s) ->
  same_but_page p (k_mem s) m1 -> mem_ok m1 -> page_ok p -> p ∉ l -> ~ is_table t p ->
  (forall va, pt_leaf (k_mem s2) t va = pt_leaf (k_mem s) t va) ->
  chg s2 t l s3 t3 l3 (map_range (pt_leaf (k_mem s) t) a p perm 1) ->
  as_chg s t (p :: l) s3 t3 l3 (in_pages (a / PGSIZE) 1)
    (map_range (pt_leaf (k_mem s) t) a p perm 1) /\
  forall x, p <= x < p + PGSIZE -> mget (k_mem s3) x = mget (fill p m1) x.
Proof.
  intros Hi Hfill Ha Hperm Hinv E2 Hs1 Hm1 Hp Hn Hnt Hl2 C. pose proof TRAPFRAME_MAXVA as HT.
  destruct (chg_notin _ _ _ _ _ _ _ p C Hnt Hn) as [Hnt3 Hn3].
  pose proof (ch_inv _ _ _ _ _ _ _ C) as Hpt3.
  assert (Hup : forall va, 0 <= va < MAXVA -> in_pages (a / PGSIZE) 1 va -> upage (k_mem s3) t3 va = p).
  { intros va Hva Hin. unfold upage. rewrite (ch_leaf _ _ _ _ _ _ _ C), map_range_1 by done.
    unfold in_pages in Hin. rewrite (proj2 (Z.eqb_eq _ _)) by lia. by apply PTE2PA_entry. }
  split.
  - apply as_chg_range; try fast_done.
    + pose proof (div_lt_aligned a TRAPFRAME ltac:(done)). lia.
    + apply C.
    + rewrite (ch_state _ _ _ _ _ _ _ C), E2. done.
    + apply C.
    + intros va Hva Hin. unfold in_pages in Hin.
      rewrite (ch_leaf _ _ _ _ _ _ _ C), map_range_1 by done. by rewrite (proj2 (Z.eqb_neq _ _)) by lia.
    + intros va Hin [Hva _]. by rewrite Hup by (done || lia).
    + intros va va' H1 H2 _ _ _. unfold in_pages in *. lia.
    + intros q. unfold pool. pose proof (chg_pool _ _ _ _ _ _ _ q C) as H.
      rewrite elem_of_cons. pose proof (dpage_fresh_none _ _ _ q Hinv) as Hd.
      assert (dpage (k_mem s3) t3 (a / PGSIZE) 1 q <-> q = p) as Hd3; [|tauto]. split.
      * intros (va & Hin & [Hva _] & <-). apply Hup; [lia|done].
      * intros ->. exists a. assert (in_pages (a / PGSIZE) 1 a) by (unfold in_pages; lia).
        split_and!; [done|split; [done|]|apply Hup; [lia|done]].
        rewrite (ch_leaf _ _ _ _ _ _ _ C), map_range_1, Z.eqb_refl by lia. by apply entry_valid.
    + intros x Hx. assert (Hxp : x < p \/ p + PGSIZE <= x) by (apply Hx; right; left; by left).
      rewrite (ch_frame _ _ _ _ _ _ _ C).
      * rewrite E2. simpl. rewrite (proj2 (Hfill p m1 Hm1)) by done. by apply Hs1.
      * intros (q & Hq' & Hxq). assert (is_table t q \/ q ∈ l) as Hq3.
        { apply (chg_pool _ _ _ _ _ _ _ q C). by left. }
        destruct (Hx q); [|lia..]. destruct Hq3; [by left|right; left; by right].
  - intros x Hx. rewrite (ch_frame _ _ _ _ _ _ _ C); [by rewrite E2|].
    intros (q & [n Hq'] & Hxq). apply Hnt3. exists n.
    destruct (decide (p = q)) as [->|Hne]; [done|].
    destruct (page_ok_apart p q Hp (wf_page _ _ (pi_wf _ _ _ Hpt3) _ _ Hq') Hne); lia.
Qed.

Lemma map_fresh_spec s t l a perm fill err next :
  quiet s -> as_inv s t l -> fills fill ->
  a mod PGSIZE = 0 -> 0 <= a < TRAPFRAME -> 0 <= perm < 1024 ->
  has PTE_V (pt_leaf (k_mem s) t a) = false ->
  exists s' t' l',
    (map_fresh (pt_root t) a perm fill err next s = err s' /\
     as_chg s t l s' t' l' (in_pages 0 0) (pt_leaf (k_mem s) t) /\ (length l < 3)%nat) \/
    (exists p m1, map_fresh (pt_root t) a perm fill err next s = next s' /\
     as_chg s t l s' t' l' (in_pages (a / PGSIZE) 1)
       (map_range (pt_leaf (k_mem s) t) a p perm 1) /\
     page_ok p /\ (p ∈ l) /\ same_but_page p (k_mem s) m1 /\ mem_ok m1 /\ (length l <= length l' + 3)%nat /\
     forall x, p <= x < p + PGSIZE -> mget (k_mem s') x = mget (fill p m1) x).
Proof.
  intros Hq Hi Hfill Hal Ha Hperm Hinv. pose proof TRAPFRAME_MAXVA as HT. unfold map_fresh.
  destruct l as [|p l].
  { destruct Hq as [Hc Hlk]. exists s, t, []. left. split; [|split; [by apply as_chg_refl|simpl; lia]].
    by run (kalloc_none s Hc Hlk (pi_kmem _ _ _ (as_pt _ _ _ Hi))). }
  destruct (fresh_filled s t p l fill Hq Hi Hfill)
    as (m1 & s2 & E1 & E2 & Hs1 & Hm1 & Hpt2 & Hl2 & Hp & Hn & Hnt).
  assert (Hq2 : quiet s2) by (rewrite E2; by apply quiet_set).
  destruct (mappages_loop_spec 0 s2 t l a p perm Hq2 Hpt2) as (r & s3 & t3 & l3 & k & E3 & C & Hr).
  1-4: apply page_ok_pa in Hp as ?; apply page_ok_pos in Hp as ?; lia.
  { done. }
  { intros va Hva Hd. rewrite Hl2. rewrite (pt_leaf_page _ _ va a) by lia. done. }
  assert (C' : chg s2 t l s3 t3 l3 (map_range (pt_leaf (k_mem s) t) a p perm k)).
  { apply (chg_ext _ _ _ _ _ _ _ _ C). intros va _. unfold map_range. by rewrite Hl2. }
  assert (Hrun :
    (mem <- kalloc ;; if mem =? 0 then err else
     mem_upd (fill mem) ;; r <- mappages (pt_root t) a PGSIZE mem perm ;;
     if negb (r =? 0) then kfree mem ;; err else next) s =
    (if negb (r =? 0) then kfree p ;; err else next) s3).
  { run E1. rewrite (proj2 (Z.eqb_neq _ _)) by (by apply page_ok_nonzero).
    assert (Eu : mem_upd (fill p) (set_k_freelist (k_freelist s2) (set_k_mem m1 s)) = Ret tt s2).
    { trans (Ret tt (set_k_freelist (k_freelist s2) (set_k_mem (fill p m1) s))); [reflexivity|].
      by rewrite <- E2. }
    run Eu. rewrite <- (mappages_1 _ a p perm s2) in E3 by lia. by run E3. }
  rewrite Hrun. destruct Hr as [(-> & -> & Hlen)|(-> & Hk & -> & Hlen)].
  - exists s3, t3, l3. right. exists p, m1. split; [done|].
    destruct (fresh_done s t p l m1 s2 s3 t3 l3 fill a perm) as [C3 Hby]; try done.
    split_and!; try fast_done; [by left|simpl; lia].
  - replace k with 0 in C' by lia.
    destruct (fresh_undo s t p l m1 s2 s3 t3 [] fill) as (s4 & E4 & C4); try done.
    { apply (chg_ext _ _ _ _ _ _ _ _ C'). intros va _. apply map_range_0. }
    exists s4, t3, [p]. left. split; [simpl; by run E4|]. split; [done|simpl; lia].
Qed.

(** * uvmalloc *)

(** [va] is mapped with [perm] to a page of zeros. *)
Definition zero_mapped (m : gmap Z Z) (t : ptree) (perm va : Z) : Prop :=
  exists p, page_ok p /\ pt_leaf m t va = entry p perm /\
    forall x, p <= x < p + PGSIZE -> mget m x = 0.

Lemma zero_mapped_valid m t perm va :
  0 <= perm < 1024 -> zero_mapped m t perm va -> has PTE_V (pt_leaf m t va) = true.
Proof. intros Hp (p & H & -> & _). by apply entry_valid. Qed.

Lemma fills_zero : fills (fun p m => memset m p 0 PGSIZE).
Proof. intros p m Hm. split; [auto with kern|apply same_but_page_memset]. Qed.

Lemma zero_mapped_keep s t l s' t' l' D F perm va :
  as_chg s t l s' t' l' D F -> 0 <= perm < 1024 -> 0 <= va < TRAPFRAME -> ~ D va ->
  zero_mapped (k_mem s) t perm va -> zero_mapped (k_mem s') t' perm va.
Proof.
  intros C Hperm Hva Hn Hz. pose proof TRAPFRAME_MAXVA. pose proof Hz as (p & Hp & E & H0).
  exists p. rewrite (ac_same _ _ _ _ _ _ _ _ C) by (done || lia). split_and!; [done|done|].
  intros x Hx. rewrite (ac_keep _ _ _ _ _ _ _ _ C va x); [by apply H0|done| |].
  - split; [done|]. by apply (zero_mapped_valid _ _ perm).
  - unfold upage. by rewrite E, PTE2PA_entry.
Qed.

(** The state of [uvmalloc]'s loop when pages [lo .. lo + i - 1] are mapped. *)
Record allocd (s0 : kstate) (t0 : ptree) (l0 : list Z) (s : kstate) (t : ptree) (l : list Z)
    (lo i perm : Z) : Prop := {
  al_chg : as_chg s0 t0 l0 s t l (in_pages lo i) (pt_leaf (k_mem s) t);
  al_zero : forall va, 0 <= va < TRAPFRAME -> in_pages lo i va -> zero_mapped (k_mem s) t perm va;
  al_used : Z.of_nat (length l0) <= Z.of_nat (length l) + 3 * i
}.

Lemma as_chg_self s t l s' t' l' D F :
  as_chg s t l s' t' l' D F -> as_chg s t l s' t' l' D (pt_leaf (k_mem s') t').
Proof. intros C. apply (as_chg_ext _ _ _ _ _ _ _ _ _ C). intros va Hva. symmetry. by apply C. Qed.

(** The error path: unmapping the pages added so far leaves the old space. *)
Lemma allocd_undo s0 t0 l0 s t l lo i perm :
  quiet s -> as_chg s0 t0 l0 s t l (in_pages lo i) (pt_leaf (k_mem s) t) ->
  (forall va, 0 <= va < TRAPFRAME -> in_pages lo i va -> zero_mapped (k_mem s) t perm va) ->
  0 <= perm < 1024 -> 0 <= lo -> 0 <= i -> (lo + i) * PGSIZE <= TRAPFRAME ->
  exists s' l', (uvmunmap (pt_root t0) (lo * PGSIZE) i true ;; ret 0) s = Ret 0 s' /\
    as_chg s0 t0 l0 s' t l' (in_pages lo i) (pt_leaf (k_mem s') t) /\
    forall va, 0 <= va < MAXVA -> in_pages lo i va -> pt_leaf (k_mem s') t va = 0.
Proof.
  intros Hq C Hz Hperm Hlo Hi Hb.
  destruct (uvmunmap_spec s t l (lo * PGSIZE) i Hq) as (s' & l' & E & C'); try lia.
  { apply C. }
  { apply Z.mod_mul. lia. }
  rewrite Z.div_mul in C' by lia.
  assert (Hroot : pt_root t = pt_root t0) by apply C.
  exists s', l'. split; [rewrite <- Hroot; by run E|]. split.
  - eapply as_chg_self, as_chg_trans; [exact C|exact C'|]. tauto.
  - intros va Hva Hin. rewrite (ac_leaf _ _ _ _ _ _ _ _ C') by done. unfold unmap_range, in_pages in *.
    assert (va < TRAPFRAME).
    { eapply Z.lt_le_trans; [|exact Hb]. apply div_lt_page. rewrite Z.div_mul by lia. lia. }
    rewrite (zero_mapped_valid _ _ perm va Hperm) by (apply Hz; [lia|done]). by zsimp.
Qed.

Lemma uvmalloc_loop_S fuel root oldsz a newsz xperm :
  uvmalloc_loop (S fuel) root oldsz a newsz xperm =
  if negb (a <? newsz) then ret newsz else
  map_fresh root a (Z.lor (Z.lor PTE_R PTE_U) xperm) (fun p m => memset m p 0 PGSIZE)
    (uvmunmap root oldsz ((a - oldsz) / PGSIZE) true ;; ret 0)
    (uvmalloc_loop fuel root oldsz (u64 (a + PGSIZE)) newsz xperm).
Proof. reflexivity. Qed.

(** The outcome of [uvmalloc]: [n] pages of zeros from page [lo] on, or, when
    memory ran out, the same mappings as before. A page takes at most three
    pages of the allocator: itself and two levels of the table. *)
Definition grown (s t l : _) (s' : kstate) (t' : ptree) (l' : list Z) (r newsz lo n perm : Z) : Prop :=
  (r = newsz /\ allocd s t l s' t' l' lo n perm) \/
  (r = 0 /\ Z.of_nat (length l) < 3 * n /\
   as_chg s t l s' t' l' (in_pages lo n) (pt_leaf (k_mem s') t') /\
   forall va, 0 <= va < MAXVA -> has PTE_V (pt_leaf (k_mem s') t' va) = has PTE_V (pt_leaf (k_mem s) t va)).

Lemma allocd_step s0 t0 l0 s t l s' t' l' lo i perm p m1 :
  allocd s0 t0 l0 s t l lo i perm -> 0 <= perm < 1024 -> 0 <= i ->
  as_chg s t l s' t' l' (in_pages (lo + i) 1) (map_range (pt_leaf (k_mem s) t) ((lo + i) * PGSIZE) p perm 1) ->
  page_ok p -> (length l <= length l' + 3)%nat ->
  (forall x, p <= x < p + PGSIZE -> mget (k_mem s') x = mget (memset m1 p 0 PGSIZE) x) ->
  allocd s0 t0 l0 s' t' l' lo (i + 1) perm.
Proof.
  intros [C Hz Hu] Hperm Hi C' Hp Hlen Hby. pose proof TRAPFRAME_MAXVA. constructor; [..|lia].
  - eapply as_chg_self, as_chg_trans; [exact C|exact C'|]. unfold in_pages. lia.
  - intros va Hva Hin. destruct (in_pages_dec (lo + i) 1 va) as [Hl|Hl].
    + exists p. rewrite (ac_leaf _ _ _ _ _ _ _ _ C'), map_range_1, Z.div_mul by lia.
      unfold in_pages in *. rewrite (proj2 (Z.eqb_eq _ _)) by lia. split_and!; [done|done|].
      intros x Hx. rewrite Hby by done. rewrite mget_memset by lia. by zsimp.
    + apply (zero_mapped_keep _ _ _ _ _ _ _ _ perm va C'); try done.
      apply Hz; [done|]. unfold in_pages in *. lia.
Qed.

Lemma uvmalloc_loop_spec n s0 t0 l0 s t l lo i newsz xperm :
  let perm := Z.lor (Z.lor PTE_R PTE_U) xperm in
  quiet s -> allocd s0 t0 l0 s t l lo i perm -> 0 <= xperm < 1024 ->
  0 <= lo -> 0 <= i -> newsz <= TRAPFRAME ->
  (lo + i + Z.of_nat n - 1) * PGSIZE < newsz \/ n = O -> newsz <= (lo + i + Z.of_nat n) * PGSIZE ->
  (lo + i + Z.of_nat n) * PGSIZE <= TRAPFRAME ->
  (forall va, 0 <= va < MAXVA -> in_pages lo (i + Z.of_nat n) va ->
     has PTE_V (pt_leaf (k_mem s0) t0 va) = false) ->
  exists r s' t' l',
    uvmalloc_loop (S n) (pt_root t0) (lo * PGSIZE) ((lo + i) * PGSIZE) newsz xperm s = Ret r s' /\
    grown s0 t0 l0 s' t' l' r newsz lo (i + Z.of_nat n) perm.
Proof.
  intros perm. revert s t l i; induction n as [|n IH];
    intros s t l i Hq Hal Hx Hlo Hi Hnew Hn1 Hn2 Hn3 Hinv;
    rewrite uvmalloc_loop_S; pose proof TRAPFRAME_MAXVA as HT.
  { rewrite (proj2 (Z.ltb_ge _ _)) by lia. exists newsz, s, t, l. split; [done|].
    left. by rewrite Z.add_0_r. }
  rewrite (proj2 (Z.ltb_lt _ _)) by lia. cbn [negb]. fold perm.
  assert (Hperm : 0 <= perm < 1024) by (apply lor_small; [done|lia]).
  assert (Hroot : pt_root t = pt_root t0) by apply (al_chg _ _ _ _ _ _ _ _ _ Hal).
  replace (((lo + i) * PGSIZE - lo * PGSIZE) / PGSIZE) with i
    by (rewrite <- Z.mul_sub_distr_r, Z.div_mul by lia; lia).
  assert (Hnv : has PTE_V (pt_leaf (k_mem s) t ((lo + i) * PGSIZE)) = false).
  { rewrite (ac_same _ _ _ _ _ _ _ _ (al_chg _ _ _ _ _ _ _ _ _ Hal)); [apply Hinv|..];
      unfold in_pages; rewrite ?Z.div_mul by lia; lia. }
  destruct (map_fresh_spec s t l ((lo + i) * PGSIZE) perm (fun p m => memset m p 0 PGSIZE)
    (uvmunmap (pt_root t0) (lo * PGSIZE) i true ;; ret 0)
    (uvmalloc_loop (S n) (pt_root t0) (lo * PGSIZE) (u64 ((lo + i) * PGSIZE + PGSIZE)) newsz xperm))
    as (s1 & t1 & l1 & [(E & C & Hlen)|(p & m1 & E & C & Hp & _ & Hs1 & _ & Hlen & Hby)]);
    [exact Hq|apply (al_chg _ _ _ _ _ _ _ _ _ Hal)|apply fills_zero|apply Z.mod_mul; lia|lia
    |exact Hperm|exact Hnv|rewrite Hroot in E..].
  - pose proof (al_used _ _ _ _ _ _ _ _ _ Hal) as Hused.
    destruct (allocd_undo s0 t0 l0 s1 t1 l1 lo i perm) as (s2 & l2 & E2 & C2 & H0);
      [by eapply as_chg_quiet|..|exact Hperm|lia|lia|lia|].
    { eapply as_chg_self, as_chg_trans; [apply Hal|exact C|]. unfold in_pages. lia. }
    { intros va Hva Hin. apply (zero_mapped_keep _ _ _ _ _ _ _ _ perm va C); try done.
      - unfold in_pages. lia.
      - by apply Hal. }
    exists 0, s2, t1, l2. split; [by rewrite E|]. right. split; [done|]. split; [lia|]. split.
    + eapply as_chg_self, as_chg_trans; [exact C2|by apply as_chg_refl, C2|].
      instantiate (1 := in_pages 0 0). unfold in_pages. lia.
    + intros va Hva. destruct (in_pages_dec lo i va) as [Hin|Hin].
      * rewrite H0, Hinv by (done || unfold in_pages in *; lia). done.
      * by rewrite (ac_same _ _ _ _ _ _ _ _ C2) by done.
  - rewrite E. rewrite wrap_small by lia.
    replace ((lo + i) * PGSIZE + PGSIZE) with ((lo + (i + 1)) * PGSIZE) by lia.
    destruct (IH s1 t1 l1 (i + 1)) as (r & s' & t' & l' & E' & G); try lia.
    + by eapply as_chg_quiet.
    + rewrite Z.div_mul in C by lia. by eapply allocd_step.
    + intros va Hva Hin. apply Hinv; [done|]. unfold in_pages in *. lia.
    + exists r, s', t', l'. split; [done|].
      by replace (i + Z.of_nat (S n)) with (i + 1 + Z.of_nat n) by lia.
Qed.

(** The number of pages a process of [sz] bytes has. *)
Definition npages (sz : Z) : Z := (sz + PGSIZE - 1) / PGSIZE.

Lemma npages_bounds sz : sz <= npages sz * PGSIZE < sz + PGSIZE.
Proof.
  unfold npages, PGSIZE. pose proof (Z.div_mod (sz + 4096 - 1) 4096 ltac:(lia)).
  pose proof (Z.mod_pos_bound (sz + 4096 - 1) 4096 ltac:(lia)). lia.
Qed.

Lemma npages_mono a b : a <= b -> npages a <= npages b.
Proof. intros H. unfold npages, PGSIZE. apply Z.div_le_mono; lia. Qed.

Lemma npages_limit sz : sz <= TRAPFRAME -> npages sz * PGSIZE <= TRAPFRAME.
Proof.
  intros H. apply npages_mono in H. change (npages TRAPFRAME) with (TRAPFRAME / PGSIZE) in H.
  assert (TRAPFRAME / PGSIZE * PGSIZE = TRAPFRAME) by done. lia.
Qed.

Lemma PGROUNDUP_npages a : 0 <= a -> a + PGSIZE - 1 < 2 ^ 64 -> PGROUNDUP a = npages a * PGSIZE.
Proof. apply PGROUNDUP_eq. Qed.

(** Growing from [oldsz] to [newsz] bytes. *)
Lemma uvmalloc_ok s t l oldsz newsz xperm :
  quiet s -> as_inv s t l -> 0 <= xperm < 1024 -> 0 <= oldsz <= newsz -> newsz <= TRAPFRAME ->
  (forall va, 0 <= va < MAXVA -> npages oldsz <= va / PGSIZE < npages newsz ->
     has PTE_V (pt_leaf (k_mem s) t va) = false) ->
  exists r s' t' l', uvmalloc (pt_root t) oldsz newsz xperm s = Ret r s' /\
    grown s t l s' t' l' r newsz (npages oldsz) (npages newsz - npages oldsz)
      (Z.lor (Z.lor PTE_R PTE_U) xperm).
Proof.
  intros Hq Hi Hx Ho Hnew Hinv. pose proof TRAPFRAME_MAXVA as HT.
  unfold uvmalloc. rewrite (proj2 (Z.ltb_ge _ _)) by lia. rewrite PGROUNDUP_npages by lia.
  pose proof (npages_bounds oldsz). pose proof (npages_bounds newsz).
  pose proof (npages_mono oldsz newsz ltac:(lia)).
  pose proof (npages_limit newsz Hnew) as Hlim.
  replace ((newsz - npages oldsz * PGSIZE + PGSIZE - 1) / PGSIZE) with (npages newsz - npages oldsz).
  2: { unfold npages at 1. replace (newsz - npages oldsz * PGSIZE + PGSIZE - 1)
         with (newsz + PGSIZE - 1 + (- npages oldsz) * PGSIZE) by lia.
       rewrite Z.div_add by lia. lia. }
  destruct (uvmalloc_loop_spec (Z.to_nat (npages newsz - npages oldsz)) s t l s t l
    (npages oldsz) 0 newsz xperm) as (r & s' & t' & l' & E & G); rewrite ?Z2Nat.id by lia; try lia; try assumption.
  - constructor; [by apply as_chg_refl| |lia]. intros va _ Hin. unfold in_pages in Hin. lia.
  - intros va Hva Hin. apply Hinv; [done|]. unfold in_pages in Hin. lia.
  - rewrite Z.add_0_r in E. rewrite Z2Nat.id, Z.add_0_l in G by lia. by exists r, s', t', l'.
Qed.

Lemma uvmalloc_shrink root oldsz newsz xperm s :
  newsz < oldsz -> uvmalloc root oldsz newsz xperm s = Ret oldsz s.
Proof. intros H. unfold uvmalloc. by rewrite (proj2 (Z.ltb_lt _ _)). Qed.

(** Shrinking from [oldsz] to [newsz] bytes; when the sizes are not in that
    order nothing happens. *)
Lemma uvmdealloc_ok s t l oldsz newsz :
  quiet s -> as_inv s t l -> 0 <= newsz -> 0 <= oldsz <= TRAPFRAME ->
  exists s' l', uvmdealloc (pt_root t) oldsz newsz s = Ret (Z.min oldsz newsz) s' /\
    as_chg s t l s' t l' (in_pages (npages newsz) (npages oldsz - npages newsz))
      (unmap_range (pt_leaf (k_mem s) t) (npages newsz) (npages oldsz - npages newsz)).
Proof.
  intros Hq Hi Hn Ho. pose proof TRAPFRAME_MAXVA as HT. unfold uvmdealloc.
  assert (Hnone : forall k, k <= 0 -> as_chg s t l s t l (in_pages (npages newsz) k)
            (unmap_range (pt_leaf (k_mem s) t) (npages newsz) k)).
  { intros k Hk. eapply as_chg_ext; [by apply as_chg_refl|]. intros va _. unfold unmap_range.
    destruct (Z.leb_spec (npages newsz) (va / PGSIZE)); simpl; [|done].
    by rewrite (proj2 (Z.ltb_ge _ _)) by lia. }
  destruct (Z.leb_spec oldsz newsz).
  { exists s, l. split; [by rewrite Z.min_l by lia|]. apply Hnone.
    pose proof (npages_mono oldsz newsz). lia. }
  pose proof (npages_bounds oldsz). pose proof (npages_bounds newsz).
  pose proof (npages_mono newsz oldsz ltac:(lia)).
  pose proof (npages_limit oldsz ltac:(lia)) as Hlim.
  rewrite !PGROUNDUP_npages by lia. rewrite Z.min_r by lia.
  destruct (Z.ltb_spec (npages newsz * PGSIZE) (npages oldsz * PGSIZE)).
  - replace ((npages oldsz * PGSIZE - npages newsz * PGSIZE) / PGSIZE) with (npages oldsz - npages newsz)
      by (rewrite <- Z.mul_sub_distr_r, Z.div_mul; lia).
    destruct (uvmunmap_spec s t l (npages newsz * PGSIZE) (npages oldsz - npages newsz))
      as (s' & l' & E & C); try assumption; try lia.
    { apply Z.mod_mul. lia. }
    rewrite Z.div_mul in C by lia. exists s', l'. split; [|exact C]. unfold when. by run E.
  - exists s, l. split; [done|]. apply Hnone. lia.
Qed.

End UserMem.

(** * A small address space *)

Module Sample.

(** One process with a readable and writable page at address 0, and two free
    pages: the root table, one table of each lower level, the user page. *)
Definition R := KERNBASE + 0x50000.
Definition A := KERNBASE + 0x51000.
Definition B := KERNBASE + 0x52000.
Definition U := KERNBASE + 0x53000.
Definition tree : ptree := mk_ptree R {[0 := A]} {[(0, 0) := B]}.
Definition urw : Z := Z.lor (Z.lor PTE_R PTE_W) PTE_U.
Definition free : list Z := [KERNBASE + 0x30000; KERNBASE + 0x40000].
Definition st : kstate :=
  set_k_mem (store64 (store64 (store64 (k_mem two_free) R (ptr (Some A))) A (ptr (Some B)))
    B (entry U urw)) two_free.

#[local] Existing Instance sample_layout.

Lemma load_empty n a : load n ∅ a = 0.
Proof.
  with_strategy transparent [load] unfold load.
  revert a; induction n as [|n IH]; intros a; [done|]. cbn [bytes_at le_dec].
  rewrite IH. unfold mget. by rewrite lookup_empty.
Qed.

Lemma load_st x :
  (x + 8 <= B \/ B + 8 <= x) -> (x + 8 <= A \/ A + 8 <= x) -> (x + 8 <= R \/ R + 8 <= x) ->
  x + 8 <= KERNBASE + 0x30000 \/ KERNBASE + 0x30000 + 8 <= x -> load64 (k_mem st) x = 0.
Proof.
  unfold st, two_free, R, A, B. simpl k_mem. intros. rewrite !load_store_out by lia. apply load_empty.
Qed.

Lemma load_st_R : load64 (k_mem st) R = ptr (Some A).
Proof.
  unfold st. simpl k_mem. unfold R, A, B. rewrite !(load_store_out 8 8) by lia.
  apply load64_store64. by vm_compute.
Qed.
Lemma load_st_A : load64 (k_mem st) A = ptr (Some B).
Proof.
  unfold st. simpl k_mem. unfold R, A, B. rewrite (load_store_out 8 8) by lia.
  apply load64_store64. by vm_compute.
Qed.
Lemma load_st_B : load64 (k_mem st) B = entry U urw.
Proof. unfold st. simpl k_mem. apply load64_store64. by vm_compute. Qed.

Lemma wf : pt_wf (k_mem st) tree.
Proof.
  constructor.
  - intros n1 n2 p H1 H2. destruct n1 as [|i|i j], n2 as [|i'|i' j']; simpl in *;
      rewrite ?lookup_singleton_Some in *; unfold R, A, B in *; naive_solver lia.
  - intros n p H. destruct n as [|i|i j]; simpl in *; rewrite ?lookup_singleton_Some in *;
      (assert (p = R \/ p = A \/ p = B) as Hp by naive_solver); clear H;
      split; unfold R, A, B in Hp; [naive_solver|simpl; lia|naive_solver|simpl; lia|naive_solver|simpl; lia].
  - intros i Hi. simpl. destruct (decide (i = 0)) as [->|Hne].
    + rewrite lookup_singleton_eq, Z.mul_0_r, Z.add_0_r. apply load_st_R.
    + rewrite lookup_singleton_ne by done. apply load_st; unfold R, A, B; lia.
  - intros i j p H Hj. simpl in *. apply lookup_singleton_Some in H as [<- <-].
    destruct (decide (j = 0)) as [->|Hne].
    + rewrite lookup_singleton_eq, Z.mul_0_r, Z.add_0_r. apply load_st_A.
    + rewrite lookup_singleton_ne by congruence. apply load_st; unfold R, A, B; lia.
  - intros i p H. simpl in H. apply lookup_singleton_Some in H as [<- <-]. lia.
  - intros i j p H. simpl in *. apply lookup_singleton_Some in H as [E <-]. simplify_eq.
    split; [by eexists|lia].
Qed.

Lemma leaf va : 0 <= va < MAXVA ->
  pt_leaf (k_mem st) tree va = if va / PGSIZE =? 0 then entry U urw else 0.
Proof.
  intros Hva. unfold pt_leaf, pt_slot. simpl.
  destruct (decide (PX 2 va = 0 /\ PX 1 va = 0)) as [[E2 E1]|Hne].
  - rewrite E2, E1, lookup_singleton_eq. simpl.
    pose proof (PX_page va Hva) as E. pose proof (PX_range 0 va ltac:(lia)).
    rewrite E, E2, E1. destruct (Z.eqb_spec (0 * 2 ^ 18 + 0 * 2 ^ 9 + PX 0 va) 0) as [E0|E0].
    + replace (PX 0 va) with 0 by lia. rewrite Z.mul_0_r, Z.add_0_r. apply load_st_B.
    + apply load_st; unfold R, A, B; lia.
  - rewrite lookup_singleton_ne by naive_solver. simpl.
    destruct (Z.eqb_spec (va / PGSIZE) 0) as [E|E]; [|done]. exfalso. apply Hne.
    rewrite (PX_same_page 2 va 0), (PX_same_page 1 va 0) by (lia || done). done.
Qed.

Lemma is_table_st p : is_table tree p -> p = R \/ p = A \/ p = B.
Proof.
  intros [n Hn]. destruct n as [|i|i j]; simpl in *; rewrite ?lookup_singleton_Some in *; naive_solver.
Qed.

Lemma quiet_st : quiet st.
Proof. split; [exact boot_cpu_ok|reflexivity]. Qed.

Lemma U_ok : page_ok U.
Proof. split; [done|simpl; unfold U; lia]. Qed.

Lemma kmem : kmem_inv st free.
Proof.
  destruct two_free_inv as [K1 K2 K3 K4]. constructor; [|done|done|].
  - apply (flist_ext (k_mem two_free)); [|done]. intros q Hq.
    assert (q = KERNBASE + 0x30000 \/ q = KERNBASE + 0x40000) by set_solver.
    unfold st. simpl k_mem. unfold R, A, B. rewrite !(load_store_out 8 8) by lia. done.
  - unfold st. simpl. auto with kern.
Qed.

Lemma inv : as_inv st tree free.
Proof.
  constructor.
  - constructor; [apply kmem|apply wf|]. intros p Hp Hin.
    apply is_table_st in Hp. unfold free in Hin. unfold R, A, B in *. set_solver by lia.
  - intros va [Hva Hv]. unfold upage. rewrite leaf in Hv |- * by lia.
    destruct (va / PGSIZE =? 0); [|done]. rewrite PTE2PA_entry by (apply U_ok || done).
    split_and!; [apply U_ok|intros Hp%is_table_st; unfold U, R, A, B in *; lia|].
    unfold free, U. set_solver by lia.
  - intros va va' [Hva Hv] [Hva' Hv'] _. rewrite leaf in Hv, Hv' by lia.
    destruct (Z.eqb_spec (va / PGSIZE) 0); [|done]. destruct (Z.eqb_spec (va' / PGSIZE) 0); [|done]. lia.
  - intros va Hva. rewrite leaf by lia. rewrite (proj2 (Z.eqb_neq _ _)); [done|].
    pose proof (Z.div_le_mono TRAPFRAME va PGSIZE ltac:(lia) ltac:(lia)) as H.
    change (TRAPFRAME / PGSIZE) with 67108862 in H. lia.
Qed.

End Sample.

(** * Properties *)

Section Properties.
Context {L : KernelLayout}.

(** mappages maps a fresh range. On success every page of the range maps to
    the corresponding physical page with the requested permissions; when memory
    for page-table pages runs out it answers -1 with a prefix of the range
    mapped; no other mapping changes, and nothing outside the table is written. *)
Theorem mappages_maps s t l va size pa perm :
  quiet s -> pt_inv s t l -> va mod PGSIZE = 0 -> size mod PGSIZE = 0 -> 0 < size ->
  0 <= va -> va + size <= MAXVA -> 0 <= pa -> pa + size <= 2 ^ 56 -> 0 <= perm < 1024 ->
  (forall va', va <= va' < va + size -> has PTE_V (pt_leaf (k_mem s) t va') = false) ->
  exists r s' t' l' k, mappages (pt_root t) va size pa perm s = Ret r s' /\
    ((r = 0 /\ k = size / PGSIZE) \/ (r = -1 /\ 0 <= k < size / PGSIZE /\ l' = [])) /\
    pt_inv s' t' l' /\
    (forall va', 0 <= va' < MAXVA -> pt_leaf (k_mem s') t' va' =
       if (va <=? va') && (va' <? va + k * PGSIZE)
       then entry (pa + (va' / PGSIZE - va / PGSIZE) * PGSIZE) perm
       else pt_leaf (k_mem s) t va') /\
    (forall x, ~ in_tables t' x -> mget (k_mem s') x = mget (k_mem s) x).
Proof.
  intros Hq Hi Hva Hsz H0 Hva0 Hmax Hpa Hpa' Hperm Hfree.
  pose proof (Z.div_mod size PGSIZE ltac:(lia)) as Es. pose proof (Z.div_mod va PGSIZE ltac:(lia)) as Ev.
  set (n := Z.to_nat (size / PGSIZE - 1)).
  assert (Hn : size / PGSIZE = Z.of_nat (S n)) by lia.
  destruct (mappages_loop_spec n s t l va pa perm) as (r & s' & t' & l' & k & E & C & Hr); try lia; try done.
  { intros va' Hva' Hd. pose proof (Z.div_mod va' PGSIZE ltac:(lia)).
    pose proof (Z.mod_pos_bound va' PGSIZE ltac:(lia)). apply Hfree. lia. }
  exists r, s', t', l', k. split_and!.
  - unfold mappages. rewrite Hva, Hsz, Z.eqb_refl. cbn [negb]. rewrite (proj2 (Z.eqb_neq _ _)) by lia.
    rewrite Hn, Nat2Z.id, wrap_small by lia. rewrite <- E. do 2 f_equal. lia.
  - rewrite Hn. intuition.
  - apply C.
  - intros va' Hva'. rewrite (ch_leaf _ _ _ _ _ _ _ C) by done. unfold map_range.
    pose proof (Z.div_mod va' PGSIZE ltac:(lia)). pose proof (Z.mod_pos_bound va' PGSIZE ltac:(lia)).
    destruct (Z.leb_spec 0 (va' / PGSIZE - va / PGSIZE)), (Z.leb_spec va va'),
      (Z.ltb_spec (va' / PGSIZE - va / PGSIZE) k), (Z.ltb_spec va' (va + k * PGSIZE)); simpl; done || lia.
  - apply C.
Qed.

(** When every mapping of the range is gone, its pages are what the free list gained. *)
Lemma as_chg_freed s t l s' l' lo n F :
  as_inv s t l -> as_chg s t l s' t l' (in_pages lo n) F ->
  (forall va, in_pages lo n va -> ~ uvalid (k_mem s') t va) ->
  forall p, p ∈ l' <-> (p ∈ l) \/ dpage (k_mem s) t lo n p.
Proof.
  intros Hi C Hinv p. pose proof (ac_inv _ _ _ _ _ _ _ _ C) as Hi'. pose proof TRAPFRAME_MAXVA.
  assert (Hkeep : forall va, 0 <= va < TRAPFRAME -> ~ in_pages lo n va ->
            pt_leaf (k_mem s') t va = pt_leaf (k_mem s) t va).
  { intros va Hva Hn. apply (ac_same _ _ _ _ _ _ _ _ C); [lia|done]. }
  split.
  - intros Hp. assert (Ho : owned (k_mem s) t l p) by (apply C; right; by left).
    destruct Ho as [Ht|[Hl|(va & Hv & Hu)]]; [by destruct (pi_used _ _ _ (as_pt _ _ _ Hi') p Ht)|by left|].
    right. exists va. split; [|by split].
    destruct (in_pages_dec lo n va) as [?|Hn]; [done|exfalso]. destruct Hv as [Hv1 Hv2].
    destruct (as_page _ _ _ Hi' va) as (_ & _ & Hnl); [split; [done|by rewrite Hkeep]|].
    apply Hnl. unfold upage in *. by rewrite Hkeep, Hu.
  - intros Hp. assert (Ho : owned (k_mem s') t l' p).
    { apply C. destruct Hp as [Hl|(va & _ & Hv & Hu)]; [right; by left|right; right; by exists va]. }
    destruct Ho as [Ht|[Hl|(va & Hv & Hu)]]; [exfalso|done|exfalso].
    + destruct Hp as [Hl|(va & _ & Hv & Hu)]; [by apply (pi_used _ _ _ (as_pt _ _ _ Hi) p Ht)|].
      destruct (as_page _ _ _ Hi va Hv) as (_ & Hnt & _). apply Hnt. by rewrite Hu.
    + assert (Hn : ~ in_pages lo n va) by (intros Hr; by apply (Hinv va Hr)).
      destruct Hv as [Hv1 Hv2]. unfold upage in Hu. rewrite Hkeep in Hu, Hv2 by done.
      apply (pool_outside s t l lo n va Hi); [by split|done|]. unfold upage. rewrite Hu.
      destruct Hp; [right; by left|by right; right].
Qed.

(** Uvmunmap with do_free removes exactly the mappings of its range and gives
    exactly their physical pages back to the allocator; pages of the range that
    were never mapped are skipped; other mappings keep their entry and bytes. *)
Theorem uvmunmap_frees s t l va npages :
  quiet s -> as_inv s t l ->
  va mod PGSIZE = 0 -> 0 <= va -> 0 <= npages -> va + npages * PGSIZE <= TRAPFRAME ->
  exists s' l', uvmunmap (pt_root t) va npages true s = Ret tt s' /\ as_inv s' t l' /\
    (forall va', va <= va' < va + npages * PGSIZE -> has PTE_V (pt_leaf (k_mem s') t va') = false) /\
    (forall va', uvalid (k_mem s) t va' -> va' < va \/ va + npages * PGSIZE <= va' ->
       pt_leaf (k_mem s') t va' = pt_leaf (k_mem s) t va' /\
       forall x, upage (k_mem s) t va' <= x < upage (k_mem s) t va' + PGSIZE ->
         mget (k_mem s') x = mget (k_mem s) x) /\
    (forall p, p ∈ l' <-> (p ∈ l) \/ exists va', va <= va' < va + npages * PGSIZE /\
       uvalid (k_mem s) t va' /\ upage (k_mem s) t va' = p).
Proof.
  intros Hq Hi Hva H0 Hn Hb. pose proof TRAPFRAME_MAXVA as HT.
  destruct (uvmunmap_spec s t l va npages Hq Hi Hva H0 Hn Hb) as (s' & l' & E & C).
  assert (Hin : forall va', va <= va' < va + npages * PGSIZE <-> in_pages (va / PGSIZE) npages va').
  { intros va'. unfold in_pages. pose proof (Z.div_mod va PGSIZE ltac:(lia)).
    pose proof (Z.div_mod va' PGSIZE ltac:(lia)). pose proof (Z.mod_pos_bound va' PGSIZE ltac:(lia)). lia. }
  assert (Hinv : forall va', va <= va' < va + npages * PGSIZE ->
            has PTE_V (pt_leaf (k_mem s') t va') = false).
  { intros va' Hr. rewrite (ac_leaf _ _ _ _ _ _ _ _ C) by lia. unfold unmap_range.
    apply Hin in Hr as [Hr1 Hr2]. rewrite (proj2 (Z.leb_le _ _)), (proj2 (Z.ltb_lt _ _)) by done. simpl.
    by destruct (has PTE_V (pt_leaf (k_mem s) t va')) eqn:Ev. }
  exists s', l'. split_and!; [exact E|apply C|exact Hinv|..].
  - intros va' Hv Hr. assert (Hn' : ~ in_pages (va / PGSIZE) npages va') by (rewrite <- Hin; lia).
    split; [destruct Hv; apply (ac_same _ _ _ _ _ _ _ _ C); [lia|done]|].
    intros x. by apply (ac_keep _ _ _ _ _ _ _ _ C).
  - intros p. rewrite (as_chg_freed _ _ _ _ _ _ _ _ Hi C).
    + unfold dpage. by setoid_rewrite Hin.
    + intros va' Hr [_ Hv]. rewrite Hinv in Hv; [done|by apply Hin].
Qed.

(** Uvmalloc grows a process from oldsz to newsz. On success every added page
    is mapped with the requested permissions, user accessible, and filled with
    zeros; when memory runs out, which it does not when three pages are free for
    each page added, it answers 0 and the set of valid mappings is
    what it was; in both cases no other mapping and no byte of another page
    changes, and no page is lost or used twice. *)
Theorem uvmalloc_grows s t l oldsz newsz xperm :
  quiet s -> as_inv s t l -> 0 <= xperm < 1024 -> 0 <= oldsz <= newsz -> newsz <= TRAPFRAME ->
  (forall va, 0 <= va < MAXVA -> npages oldsz <= va / PGSIZE < npages newsz ->
     has PTE_V (pt_leaf (k_mem s) t va) = false) ->
  exists r s' t' l', uvmalloc (pt_root t) oldsz newsz xperm s = Ret r s' /\ as_inv s' t' l' /\
    ((r = newsz /\ forall va, 0 <= va < TRAPFRAME -> npages oldsz <= va / PGSIZE < npages newsz ->
        zero_mapped (k_mem s') t' (Z.lor (Z.lor PTE_R PTE_U) xperm) va) \/
     (r = 0 /\ Z.of_nat (length l) < 3 * (npages newsz - npages oldsz) /\ forall va, 0 <= va < MAXVA ->
        has PTE_V (pt_leaf (k_mem s') t' va) = has PTE_V (pt_leaf (k_mem s) t va))) /\
    (forall va, uvalid (k_mem s) t va ->
       pt_leaf (k_mem s') t' va = pt_leaf (k_mem s) t va /\
       forall x, upage (k_mem s) t va <= x < upage (k_mem s) t va + PGSIZE ->
         mget (k_mem s') x = mget (k_mem s) x) /\
    (forall p, owned (k_mem s') t' l' p <-> owned (k_mem s) t l p).
Proof.
  intros Hq Hi Hx Ho Hnew Hinv. pose proof TRAPFRAME_MAXVA.
  destruct (uvmalloc_ok s t l oldsz newsz xperm Hq Hi Hx Ho Hnew Hinv) as (r & s' & t' & l' & E & G).
  exists r, s', t', l'. split; [exact E|].
  assert (C : as_chg s t l s' t' l' (in_pages (npages oldsz) (npages newsz - npages oldsz))
            (pt_leaf (k_mem s') t')) by (destruct G as [[_ [C _ _]]|(_ & _ & C & _)]; exact C).
  split_and!; [apply C|..|apply C].
  - destruct G as [[-> [_ Hz _]]|(-> & Hl & _ & Hz)]; [left|right]; (split; [done|]); [|by split].
    intros va Hva Hr. apply Hz; [done|]. unfold in_pages. lia.
  - intros va Hv. assert (Hn : ~ in_pages (npages oldsz) (npages newsz - npages oldsz) va).
    { intros Hin. destruct Hv as [Hv1 Hv2]. rewrite Hinv in Hv2; [done|lia|unfold in_pages in Hin; lia]. }
    split; [destruct Hv; apply (ac_same _ _ _ _ _ _ _ _ C); [lia|done]|].
    intros x. by apply (ac_keep _ _ _ _ _ _ _ _ C).
Qed.

End Properties.

Lemma uvmunmap_frees_witness :
  exists s' (l' : list Z), @uvmunmap sample_layout Sample.R 0 1 true Sample.st = Ret tt s' /\
    (Sample.U ∈ l') /\ has PTE_V (pt_leaf (k_mem s') Sample.tree 0) = false.
Proof.
  destruct (@uvmunmap_frees sample_layout Sample.st Sample.tree Sample.free 0 1)
    as (s' & l' & E & _ & Hv & _ & Hl);
    [exact Sample.quiet_st|exact Sample.inv|reflexivity|lia|lia|lia|].
  exists s', l'. split; [exact E|]. split; [|apply Hv; lia].
  apply Hl. right. exists 0. split; [lia|]. unfold uvalid, upage.
  rewrite Sample.leaf by lia. change (0 / PGSIZE =? 0) with true. cbv iota.
  rewrite (@PTE2PA_entry sample_layout); [|apply Sample.U_ok|split; [discriminate|reflexivity]].
  split; [split; [lia|reflexivity]|reflexivity].
Defined.

Lemma mappages_maps_witness :
  exists r s', @mappages Sample.R 0x1000 0x2000 0x10000000 PTE_R Sample.st = Ret r s'.
Proof.
  destruct (@mappages_maps sample_layout Sample.st Sample.tree Sample.free 0x1000 0x2000 0x10000000 PTE_R)
    as (r & s' & _ & _ & _ & E & _); try lia.
  - exact Sample.quiet_st.
  - apply Sample.inv.
  - reflexivity.
  - reflexivity.
  - intros va' Hva'. rewrite Sample.leaf by lia.
    rewrite (proj2 (Z.eqb_neq _ _)); [reflexivity|].
    pose proof (Z.div_le_mono 0x1000 va' PGSIZE ltac:(lia) ltac:(lia)) as H.
    change (0x1000 / PGSIZE) with 1 in H. lia.
  - exists r, s'. exact E.
Defined.

Lemma uvmalloc_grows_witness :
  exists r s', @uvmalloc sample_layout Sample.R 4096 8192 PTE_W Sample.st = Ret r s' /\ (r = 8192 \/ r = 0).
Proof.
  destruct (@uvmalloc_grows sample_layout Sample.st Sample.tree Sample.free 4096 8192 PTE_W)
    as (r & s' & t' & l' & E & _ & Hr & _); try lia.
  - exact Sample.quiet_st.
  - exact Sample.inv.
  - intros va Hva Hr. change (npages 4096) with 1 in Hr. rewrite Sample.leaf by done.
    rewrite (proj2 (Z.eqb_neq _ _)) by lia. reflexivity.
  - exists r, s'. split; [exact E|]. destruct Hr as [[-> _]|[-> _]]; [left|right]; reflexivity.
Defined.
