(* ===== verification/UserCopy.v ===== *)
(** kernel/vm.c: copyout, copyin and copyinstr.

    [uread] is user memory as a process sees it.  The copies are shown to read
    and write exactly that, page boundaries notwithstanding, and to fail on
    the first byte the process could not access itself. *)

From S2P Require Import Prelude Types Memory Spinlock Kalloc Vm PageTable UserMem.
Local Open Scope c_scope.

Section UserCopy.
Context {L : KernelLayout}.
#[local] Opaque walk walkaddr kalloc kfree.

(** * User memory *)

Definition readable (m : gmap Z Z) (t : ptree) (va : Z) : bool :=
  (0 <=? va) && (va <? MAXVA) && has PTE_V (pt_leaf m t va) && has PTE_U (pt_leaf m t va).
Definition writable (m : gmap Z Z) (t : ptree) (va : Z) : bool :=
  readable m t va && has PTE_W (pt_leaf m t va).

(** The physical address of [va]. *)
Definition phys (m : gmap Z Z) (t : ptree) (va : Z) : Z := upage m t va + va mod PGSIZE.

Definition uread (m : gmap Z Z) (t : ptree) (va : Z) : option Z :=
  if readable m t va then Some (mget m (phys m t va)) else None.

(** The [n] bytes at [va], if all of them can be read. *)
Fixpoint ureads (m : gmap Z Z) (t : ptree) (va : Z) (n : nat) : option (list Z) :=
  match n with
  | O => Some []
  | S n => b ← uread m t va; l ← ureads m t (va + 1) n; Some (b :: l)
  end.

(** The bytes from [va] up to and including the first NUL, if there is one
    among the first [n] and the bytes before it can be read. *)
Fixpoint ustr (m : gmap Z Z) (t : ptree) (va : Z) (n : nat) : option (list Z) :=
  match n with
  | O => None
  | S n => b ← uread m t va;
           if b =? 0 then Some [b] else l ← ustr m t (va + 1) n; Some (b :: l)
  end.

Lemma readable_uvalid s t l va :
  as_inv s t l -> readable (k_mem s) t va = true -> uvalid (k_mem s) t va.
Proof.
  intros Hi H. unfold readable in H. b2p. split; [|done].
  destruct (decide (va < TRAPFRAME)); [lia|].
  rewrite (as_high _ _ _ Hi va) in * by lia. done.
Qed.

Lemma phys_in_page m t va : upage m t va <= phys m t va < upage m t va + PGSIZE.
Proof. unfold phys. pose proof (Z.mod_pos_bound va PGSIZE ltac:(lia)). lia. Qed.

Lemma readable_page m t va va' :
  0 <= va -> 0 <= va' -> va / PGSIZE = va' / PGSIZE -> readable m t va = readable m t va'.
Proof.
  intros H0 H1 E. unfold readable. rewrite (pt_leaf_page m t va va' E).
  do 2 f_equal. rewrite !(proj2 (Z.leb_le 0 _)) by done. simpl.
  assert (Hm : forall a, (a <? MAXVA) = (a / PGSIZE <? MAXVA / PGSIZE)).
  { intros a. destruct (Z.ltb_spec a MAXVA).
    - symmetry. apply Z.ltb_lt. by apply div_lt_aligned.
    - symmetry. apply Z.ltb_ge. by apply Z.div_le_mono. }
  by rewrite !Hm, E.
Qed.

(** Consecutive addresses of one page. *)
Lemma same_page va i :
  0 <= i < PGSIZE - va mod PGSIZE ->
  (va + i) / PGSIZE = va / PGSIZE /\ (va + i) mod PGSIZE = va mod PGSIZE + i.
Proof.
  intros Hi. pose proof (Z.div_mod va PGSIZE ltac:(lia)) as E.
  pose proof (Z.mod_pos_bound va PGSIZE ltac:(lia)).
  split; symmetry.
  - apply (Z.div_unique _ _ _ (va mod PGSIZE + i)); lia.
  - apply (Z.mod_unique _ _ (va / PGSIZE)); lia.
Qed.

Lemma phys_add m t va i :
  0 <= i < PGSIZE - va mod PGSIZE -> phys m t (va + i) = phys m t va + i.
Proof.
  intros Hi. destruct (same_page va i Hi) as [E1 E2]. unfold phys, upage.
  rewrite E2, (pt_leaf_page m t (va + i) va E1). lia.
Qed.

Lemma uread_add m t va i :
  0 <= va -> 0 <= i < PGSIZE - va mod PGSIZE ->
  uread m t (va + i) = if readable m t va then Some (mget m (phys m t va + i)) else None.
Proof.
  intros Hva Hi. unfold uread. rewrite phys_add by done.
  by rewrite (readable_page m t (va + i) va) by (lia || by apply same_page).
Qed.

Lemma ureads_app m t va n1 n2 :
  ureads m t va (n1 + n2) =
  (l1 ← ureads m t va n1; l2 ← ureads m t (va + Z.of_nat n1) n2; Some (l1 ++ l2)).
Proof.
  revert va; induction n1 as [|n1 IH]; intros va; simpl.
  - rewrite Z.add_0_r. by destruct (ureads m t va n2).
  - rewrite IH. replace (va + 1 + Z.of_nat n1) with (va + Z.of_nat (S n1)) by lia.
    destruct (uread m t va); simpl; [|done]. destruct (ureads m t (va + 1) n1); simpl; [|done].
    by destruct (ureads m t _ n2).
Qed.

(** Inside one page the bytes read are consecutive bytes of memory. *)
Lemma ureads_page m t va n :
  0 <= va -> readable m t va = true -> Z.of_nat n <= PGSIZE - va mod PGSIZE ->
  ureads m t va n = Some (bytes_at m (phys m t va) n).
Proof.
  intros Hva Hr Hn.
  assert (H : forall k j, (j + k <= n)%nat ->
    ureads m t (va + Z.of_nat j) k = Some (bytes_at m (phys m t va + Z.of_nat j) k)).
  { induction k as [|k IH]; intros j Hj; simpl; [done|].
    rewrite uread_add, Hr by lia. simpl.
    replace (va + Z.of_nat j + 1) with (va + Z.of_nat (S j)) by lia.
    rewrite IH by lia. simpl. do 3 f_equal. lia. }
  specialize (H n 0%nat ltac:(lia)). by rewrite !Z.add_0_r in H.
Qed.

Lemma ureads_unreadable m t va n :
  (0 < n)%nat -> readable m t va = false -> ureads m t va n = None.
Proof. intros Hn Hr. destruct n; [lia|]. simpl. unfold uread. by rewrite Hr. Qed.

(** * walkaddr, on user memory *)

Lemma readable_rounddown m t va : 0 <= va -> readable m t (PGROUNDDOWN va) = readable m t va.
Proof.
  intros H. apply readable_page; [|done|apply PGROUNDDOWN_div].
  rewrite PGROUNDDOWN_page. pose proof (Z.div_pos va PGSIZE). lia.
Qed.

Lemma walkaddr_page s t l va :
  as_inv s t l -> 0 <= va ->
  walkaddr (pt_root t) (PGROUNDDOWN va) s =
    Ret (if readable (k_mem s) t va then upage (k_mem s) t va else 0) s /\
  (readable (k_mem s) t va = true -> upage (k_mem s) t va <> 0).
Proof.
  intros Hi Hva. pose proof (pi_wf _ _ _ (as_pt _ _ _ Hi)) as Hw.
  assert (0 <= PGROUNDDOWN va) by (rewrite PGROUNDDOWN_page; pose proof (Z.div_pos va PGSIZE); lia).
  split.
  - rewrite walkaddr_spec by done. f_equal. rewrite <- readable_rounddown by done.
    unfold uaddr, readable. rewrite (proj2 (Z.leb_le 0 _)) by done.
    unfold upage. by rewrite (pt_leaf_page _ t (PGROUNDDOWN va) va (PGROUNDDOWN_div va)).
  - intros Hr. apply page_ok_nonzero. apply (as_page _ _ _ Hi). by eapply readable_uvalid.
Qed.

Lemma rounddown_off va : va - PGROUNDDOWN va = va mod PGSIZE.
Proof. rewrite PGROUNDDOWN_eq. lia. Qed.

Lemma next_page va :
  0 <= va < MAXVA -> u64 (PGROUNDDOWN va + PGSIZE) = va + (PGSIZE - va mod PGSIZE).
Proof.
  intros Hva. pose proof (PGROUNDDOWN_range va). rewrite wrap_small; [rewrite PGROUNDDOWN_eq; lia|].
  rewrite PGROUNDDOWN_page in *. pose proof (Z.div_pos va PGSIZE). lia.
Qed.

(** * copyin *)

Lemma copyin_loop_S fuel root srcva len dst :
  copyin_loop (S fuel) root srcva len dst =
  if negb (0 <? len) then ret (0, dst) else
  let va0 := PGROUNDDOWN srcva in
  pa0 <- walkaddr root va0 ;;
  if pa0 =? 0 then ret (-1, dst) else
  let n := PGSIZE - (srcva - va0) in
  let n := if len <? n then len else n in
  l <- gets (fun s => bytes_at (k_mem s) (pa0 + srcva - va0) (Z.to_nat n)) ;;
  copyin_loop fuel root (u64 (va0 + PGSIZE)) (len - n) (dst ++ l).
Proof. reflexivity. Qed.

Lemma copyin_loop_spec fuel s t l va len dst :
  as_inv s t l -> 0 <= va -> (len < fuel)%nat ->
  exists rest, copyin_loop fuel (pt_root t) va (Z.of_nat len) dst s =
    Ret (match ureads (k_mem s) t va len with
         | Some bs => (0, dst ++ bs) | None => (-1, rest) end) s.
Proof.
  revert va len dst; induction fuel as [|fuel IH]; intros va len dst Hi Hva Hf; [lia|].
  rewrite copyin_loop_S. destruct len as [|len']; [exists []; simpl; by rewrite app_nil_r|].
  set (len := S len') in *. rewrite (proj2 (Z.ltb_lt _ _)) by lia. cbn [negb]. cbv zeta.
  destruct (walkaddr_page s t l va Hi Hva) as [E Hnz]. run E.
  destruct (readable (k_mem s) t va) eqn:Hr.
  2: { exists dst. rewrite ureads_unreadable by (done || lia). done. }
  rewrite (proj2 (Z.eqb_neq _ _)) by (by apply Hnz). rewrite rounddown_off.
  assert (Hm : va < MAXVA) by (unfold readable in Hr; b2p; lia).
  rewrite next_page by lia. unfold gets, bind.
  replace (upage (k_mem s) t va + va - PGROUNDDOWN va) with (phys (k_mem s) t va)
    by (unfold phys; pose proof (rounddown_off va); lia).
  pose proof (Z.mod_pos_bound va PGSIZE ltac:(lia)).
  destruct (Z.ltb_spec (Z.of_nat len) (PGSIZE - va mod PGSIZE)) as [Hlt|Hge].
  - rewrite Z.sub_diag, Nat2Z.id.
    rewrite (ureads_page _ _ _ len) by (done || lia). exists [].
    destruct fuel as [|fuel]; [lia|]. by rewrite copyin_loop_S.
  - set (n := Z.to_nat (PGSIZE - va mod PGSIZE)).
    replace (PGSIZE - va mod PGSIZE) with (Z.of_nat n) by lia.
    destruct (IH (va + Z.of_nat n) (len - n)%nat (dst ++ bytes_at (k_mem s) (phys (k_mem s) t va) n))
      as [rest E2]; [done|lia|lia|]. exists rest.
    replace (Z.of_nat len - Z.of_nat n) with (Z.of_nat (len - n)) by lia. rewrite E2.
    replace len with (n + (len - n))%nat at 2 by lia. rewrite ureads_app.
    rewrite (ureads_page _ _ _ n) by (done || lia). simpl.
    destruct (ureads (k_mem s) t (va + Z.of_nat n) (len - n)); simpl; [|done]. by rewrite app_assoc.
Qed.

(** C11: copyin returns exactly the bytes the process itself would read at the
    range, across page boundaries, and fails when some byte of the range is not
    mapped and accessible to the user; kernel state does not change. *)
Theorem copyin_exact s t l va len :
  as_inv s t l -> 0 <= va ->
  exists rest, copyin (pt_root t) va (Z.of_nat len) s =
    Ret (match ureads (k_mem s) t va len with Some bs => (0, bs) | None => (-1, rest) end) s.
Proof.
  intros Hi Hva. unfold copyin. rewrite Nat2Z.id.
  destruct (copyin_loop_spec (S len) s t l va len [] Hi Hva ltac:(lia)) as [rest E]. by exists rest.
Qed.

(** * copyinstr *)

(** The inner loop over [n] bytes of one page. *)
Lemma copystr_loop_spec m t va n max k :
  0 <= va -> readable m t va = true -> Z.of_nat n <= PGSIZE - va mod PGSIZE ->
  exists l g, copystr_loop n m (phys m t va) max = (l, if (g : bool) then max - Z.of_nat (length l) + 1
                                                   else max - Z.of_nat n, g) /\
    ustr m t va (n + k) =
      if g then Some l else (l' ← ustr m t (va + Z.of_nat n) k; Some (l ++ l')).
Proof.
  intros Hva Hr Hn.
  assert (H : forall n' j max, (j + n' <= n)%nat -> exists l g,
    copystr_loop n' m (phys m t va + Z.of_nat j) max =
      (l, if (g : bool) then max - Z.of_nat (length l) + 1 else max - Z.of_nat n', g) /\
    ustr m t (va + Z.of_nat j) (n' + k) =
      if g then Some l else (l' ← ustr m t (va + Z.of_nat j + Z.of_nat n') k; Some (l ++ l'))).
  { induction n' as [|n' IH]; intros j mx Hj.
    - exists [], false. simpl. rewrite !Z.add_0_r, Z.sub_0_r. split; [done|]. by destruct (ustr m t _ k).
    - cbn [copystr_loop Nat.add ustr]. rewrite uread_add, Hr by lia. simpl.
      destruct (Z.eqb_spec (mget m (phys m t va + Z.of_nat j)) 0) as [E0|E0].
      + exists [mget m (phys m t va + Z.of_nat j)], true. split; [|done]. simpl. do 2 f_equal. lia.
      + destruct (IH (S j) (mx - 1) ltac:(lia)) as (l & g & E & Hu).
        replace (phys m t va + Z.of_nat j + 1) with (phys m t va + Z.of_nat (S j)) by lia.
        replace (va + Z.of_nat j + 1) with (va + Z.of_nat (S j)) by lia.
        rewrite E, Hu. exists (mget m (phys m t va + Z.of_nat j) :: l), g. split.
        * destruct g; do 2 f_equal; cbn [length]; lia.
        * destruct g; simpl; [done|].
          replace (va + Z.of_nat (S j) + Z.of_nat n') with (va + Z.of_nat j + Z.of_nat (S n')) by lia.
          by destruct (ustr m t (va + Z.of_nat j + Z.of_nat (S n')) k). }
  destruct (H n 0%nat max ltac:(lia)) as (l & g & E & Hu). rewrite !Z.add_0_r in E, Hu.
  by exists l, g.
Qed.

Lemma copyinstr_loop_S fuel root srcva max dst :
  copyinstr_loop (S fuel) root srcva max dst =
  if negb (0 <? max) then ret (-1, dst) else
  let va0 := PGROUNDDOWN srcva in
  pa0 <- walkaddr root va0 ;;
  if pa0 =? 0 then ret (-1, dst) else
  let n := PGSIZE - (srcva - va0) in
  let n := if max <? n then max else n in
  r <- gets (fun s => copystr_loop (Z.to_nat n) (k_mem s) (pa0 + srcva - va0) max) ;;
  let '(l, max', got_null) := r in
  if (got_null : bool) then ret (0, dst ++ l)
  else copyinstr_loop fuel root (u64 (va0 + PGSIZE)) max' (dst ++ l).
Proof. reflexivity. Qed.

Lemma copyinstr_loop_spec fuel s t l va max dst :
  as_inv s t l -> 0 <= va -> (max < fuel)%nat ->
  exists rest, copyinstr_loop fuel (pt_root t) va (Z.of_nat max) dst s =
    Ret (match ustr (k_mem s) t va max with
         | Some bs => (0, dst ++ bs) | None => (-1, rest) end) s.
Proof.
  revert va max dst; induction fuel as [|fuel IH]; intros va max dst Hi Hva Hf; [lia|].
  rewrite copyinstr_loop_S. destruct max as [|max']; [by exists dst|].
  set (max := S max') in *. rewrite (proj2 (Z.ltb_lt _ _)) by lia. cbn [negb]. cbv zeta.
  destruct (walkaddr_page s t l va Hi Hva) as [E Hnz]. run E.
  destruct (readable (k_mem s) t va) eqn:Hr.
  2: { exists dst. unfold max. simpl. unfold uread. by rewrite Hr. }
  rewrite (proj2 (Z.eqb_neq _ _)) by (by apply Hnz). rewrite rounddown_off.
  assert (Hm : va < MAXVA) by (unfold readable in Hr; b2p; lia).
  rewrite next_page by lia. unfold gets, bind.
  replace (upage (k_mem s) t va + va - PGROUNDDOWN va) with (phys (k_mem s) t va)
    by (unfold phys; pose proof (rounddown_off va); lia).
  pose proof (Z.mod_pos_bound va PGSIZE ltac:(lia)).
  set (n := Z.to_nat (if Z.of_nat max <? PGSIZE - va mod PGSIZE then Z.of_nat max
                      else PGSIZE - va mod PGSIZE)).
  assert (Hn : Z.of_nat n <= PGSIZE - va mod PGSIZE /\ (n <= max)%nat /\
               (Z.of_nat n = PGSIZE - va mod PGSIZE \/ n = max) /\ (0 < n)%nat)
    by (unfold n, max in *; case_ltb; lia).
  destruct Hn as (Hn1 & Hn2 & Hn3 & Hn4).
  destruct (copystr_loop_spec (k_mem s) t va n (Z.of_nat max) (max - n) Hva Hr Hn1) as (cs & g & E2 & Hu).
  rewrite E2. replace (n + (max - n))%nat with max in Hu by lia. rewrite Hu.
  destruct g; [by exists []|].
  destruct (IH (va + (PGSIZE - va mod PGSIZE)) (max - n)%nat (dst ++ cs)) as [rest E3]; [done|lia|lia|].
  exists rest. replace (Z.of_nat max - Z.of_nat n) with (Z.of_nat (max - n)) by lia. rewrite E3.
  destruct Hn3 as [<-| ->].
  - destruct (ustr (k_mem s) t (va + Z.of_nat n) (max - n)); simpl; [|done]. by rewrite app_assoc.
  - rewrite Nat.sub_diag. done.
Qed.

(** C12: copyinstr returns the user string up to and including its NUL when one
    occurs within max readable bytes, and fails otherwise; it reads nothing past
    the NUL. *)
Theorem copyinstr_exact s t l va max :
  as_inv s t l -> 0 <= va ->
  exists rest, copyinstr (pt_root t) va (Z.of_nat max) s =
    Ret (match ustr (k_mem s) t va max with Some bs => (0, bs) | None => (-1, rest) end) s.
Proof.
  intros Hi Hva. unfold copyinstr. rewrite Nat2Z.id.
  destruct (copyinstr_loop_spec (S max) s t l va max [] Hi Hva ltac:(lia)) as [rest E]. by exists rest.
Qed.

(** * copyout *)

(** [m'] is [m] with the bytes [src] written at user address [va]. *)
Record uput (m : gmap Z Z) (t : ptree) (va : Z) (src : list Z) (m' : gmap Z Z) : Prop := {
  up_leaf : forall va', pt_leaf m' t va' = pt_leaf m t va';
  up_write : forall i, (i < length src)%nat -> writable m t (va + Z.of_nat i) = true;
  up_read : forall va', uread m' t va' =
    if (va <=? va') && (va' <? va + Z.of_nat (length src))
    then Some (nth (Z.to_nat (va' - va)) src 0) else uread m t va';
  up_frame : forall x, (forall i, (i < length src)%nat -> x <> phys m t (va + Z.of_nat i)) ->
    mget m' x = mget m x
}.

Lemma uput_nil m t va : uput m t va [] m.
Proof.
  constructor; simpl; try done.
  - intros i Hi. lia.
  - intros va'. rewrite Z.add_0_r. destruct (Z.leb_spec va va'); simpl; [|done].
    by rewrite (proj2 (Z.ltb_ge _ _)).
Qed.

Lemma writable_leaf m m' t va :
  pt_leaf m' t va = pt_leaf m t va -> writable m' t va = writable m t va.
Proof. intros H. unfold writable, readable. by rewrite H. Qed.

Lemma phys_leaf m m' t va : pt_leaf m' t va = pt_leaf m t va -> phys m' t va = phys m t va.
Proof. intros H. unfold phys, upage. by rewrite H. Qed.

Lemma uput_app m t va l1 m1 l2 m2 :
  uput m t va l1 m1 -> uput m1 t (va + Z.of_nat (length l1)) l2 m2 -> uput m t va (l1 ++ l2) m2.
Proof.
  intros [A1 A2 A3 A4] [B1 B2 B3 B4]. constructor.
  - intros va'. by rewrite B1, A1.
  - intros i Hi. rewrite length_app in Hi. destruct (decide (i < length l1)%nat) as [H|H]; [by apply A2|].
    rewrite <- (writable_leaf m m1) by apply A1.
    replace (va + Z.of_nat i) with (va + Z.of_nat (length l1) + Z.of_nat (i - length l1)) by lia.
    apply B2. lia.
  - intros va'. rewrite B3, A3, length_app.
    destruct (Z.leb_spec (va + Z.of_nat (length l1)) va'), (Z.leb_spec va va'),
      (Z.ltb_spec va' (va + Z.of_nat (length l1) + Z.of_nat (length l2))),
      (Z.ltb_spec va' (va + Z.of_nat (length l1))),
      (Z.ltb_spec va' (va + Z.of_nat (length l1 + length l2))); simpl; try lia; try done.
    + rewrite app_nth2 by lia. do 2 f_equal. lia.
    + rewrite app_nth1 by lia. done.
  - intros x Hx. rewrite length_app in Hx. rewrite B4.
    + apply A4. intros i Hi. apply Hx. lia.
    + intros i Hi. rewrite (phys_leaf m) by apply A1.
      replace (va + Z.of_nat (length l1) + Z.of_nat i) with (va + Z.of_nat (length l1 + i)) by lia.
      apply Hx. lia.
Qed.

(** Writing inside a page that is neither free nor part of the table keeps the
    address space. *)
Lemma as_inv_page s t l p m' :
  as_inv s t l -> page_ok p -> ~ is_table t p -> p ∉ l -> mem_ok m' -> same_but_page p (k_mem s) m' ->
  as_inv (set_k_mem m' s) t l /\ forall va', pt_leaf m' t va' = pt_leaf (k_mem s) t va'.
Proof.
  intros Hi Hp Hnt Hnl Hm Hs. pose proof (as_pt _ _ _ Hi) as [[K1 K2 K3 K4] Hw Hu].
  destruct (pt_frame_page _ _ m' t Hw Hp Hnt Hs) as [Hw' Hl]. split; [|done].
  constructor; simpl.
  - constructor; simpl; [|done|done]. constructor; simpl; [|done..].
    by apply (flist_same_but p (k_mem s)).
  - intros va' [H1 H2]. unfold uvalid, upage in *. rewrite Hl in *. by apply (as_page _ _ _ Hi va').
  - intros v1 v2 [H1 H2] [H3 H4]. unfold upage. rewrite !Hl in *. by apply (as_inj _ _ _ Hi).
  - intros va' Hva'. rewrite Hl. by apply Hi.
Qed.

Lemma as_inv_write s t l va m' :
  as_inv s t l -> uvalid (k_mem s) t va -> mem_ok m' ->
  same_but_page (upage (k_mem s) t va) (k_mem s) m' ->
  as_inv (set_k_mem m' s) t l /\ forall va', pt_leaf m' t va' = pt_leaf (k_mem s) t va'.
Proof.
  intros Hi Hva Hm Hs. destruct (as_page _ _ _ Hi va Hva) as (Hp & Hnt & Hnl).
  by apply (as_inv_page s t l (upage (k_mem s) t va)).
Qed.

Lemma writable_readable m t va : writable m t va = true -> readable m t va = true.
Proof. unfold writable. intros H. by b2p. Qed.

Lemma same_page_cases va va' :
  va <= va' < va + (PGSIZE - va mod PGSIZE) -> va' / PGSIZE = va / PGSIZE.
Proof.
  intros H. destruct (same_page va (va' - va)) as [E _]; [lia|]. by replace (va + (va' - va)) with va' in E by lia.
Qed.

(** The bytes of one iteration. *)
Lemma uput_page s t l va src :
  as_inv s t l -> writable (k_mem s) t va = true -> Forall byte_ok src ->
  Z.of_nat (length src) <= PGSIZE - va mod PGSIZE ->
  let m' := put_bytes (k_mem s) (phys (k_mem s) t va) src in
  uput (k_mem s) t va src m' /\ as_inv (set_k_mem m' s) t l.
Proof.
  intros Hi Hwr Hsrc Hlen m'. pose proof (writable_readable _ _ _ Hwr) as Hr.
  assert (Hva0 : 0 <= va) by (unfold readable in Hr; b2p; lia).
  pose proof (readable_uvalid _ _ _ _ Hi Hr) as Hv.
  pose proof (phys_in_page (k_mem s) t va) as Hph.
  pose proof (Z.mod_pos_bound va PGSIZE ltac:(lia)) as Hmod.
  assert (Hs : same_but_page (upage (k_mem s) t va) (k_mem s) m').
  { intros x Hx. apply mget_put_bytes_out. unfold phys. lia. }
  assert (Hm : mem_ok m') by (apply put_bytes_ok, (km_mem _ _ (pi_kmem _ _ _ (as_pt _ _ _ Hi)))).
  destruct (as_inv_write s t l va m' Hi Hv Hm Hs) as [Hi' Hl]. split; [|done]. constructor.
  - done.
  - intros i Hi0. rewrite <- Hwr. unfold writable.
    destruct (same_page va (Z.of_nat i)) as [E _]; [lia|].
    rewrite (pt_leaf_page _ _ _ va E). by rewrite (readable_page _ _ (va + Z.of_nat i) va) by (done || lia).
  - intros va'. unfold uread.
    assert (Hrd : readable m' t va' = readable (k_mem s) t va') by (unfold readable; by rewrite Hl).
    rewrite Hrd, (phys_leaf (k_mem s)) by apply Hl. unfold m' at 1. rewrite mget_put_bytes.
    destruct ((va <=? va') && (va' <? va + Z.of_nat (length src))) eqn:Hin.
    + b2p. rewrite (readable_page _ _ va' va), Hr by (lia || apply same_page_cases; lia).
      assert (Hpa : phys (k_mem s) t va' = phys (k_mem s) t va + (va' - va)).
      { rewrite <- phys_add by lia. f_equal. lia. }
      rewrite Hpa. zsimp. simpl.
      replace (phys (k_mem s) t va + (va' - va) - phys (k_mem s) t va) with (va' - va) by lia.
      f_equal. apply wrap_small. destruct (lookup_lt_is_Some_2 src (Z.to_nat (va' - va))) as [b Hb]; [lia|].
      rewrite (nth_lookup_Some _ _ _ _ Hb). by apply (Forall_lookup_1 _ _ _ _ Hsrc Hb).
    + destruct (readable (k_mem s) t va') eqn:Hr'; [|done]. f_equal.
      destruct ((phys (k_mem s) t va <=? phys (k_mem s) t va') &&
                (phys (k_mem s) t va' <? phys (k_mem s) t va + Z.of_nat (length src))) eqn:Hp; [|done].
      exfalso. b2p. pose proof (phys_in_page (k_mem s) t va') as Hph'.
      pose proof (readable_uvalid _ _ _ _ Hi Hr') as Hv'.
      assert (E : va' / PGSIZE = va / PGSIZE).
      { apply (as_inj _ _ _ Hi); [done|done|].
        destruct (decide (upage (k_mem s) t va' = upage (k_mem s) t va)) as [|Hne]; [done|].
        destruct (page_ok_apart _ _ (proj1 (as_page _ _ _ Hi _ Hv')) (proj1 (as_page _ _ _ Hi _ Hv)) Hne);
          unfold phys in *; lia. }
      unfold phys, upage in *. rewrite (pt_leaf_page _ _ va' va E) in *.
      pose proof (Z.div_mod va PGSIZE ltac:(lia)). pose proof (Z.div_mod va' PGSIZE ltac:(lia)).
      rewrite E in *. apply andb_false_iff in Hin as [Hin|Hin]; b2p; lia.
  - intros x Hx. apply mget_put_bytes_out.
    destruct (decide (phys (k_mem s) t va <= x < phys (k_mem s) t va + Z.of_nat (length src))) as [Hc|Hc]; [|lia].
    exfalso. apply (Hx (Z.to_nat (x - phys (k_mem s) t va))); [lia|].
    rewrite phys_add by lia. lia.
Qed.

Lemma copyout_loop_S fuel root dstva src :
  copyout_loop (S fuel) root dstva src =
  let len := Z.of_nat (length src) in
  if negb (0 <? len) then ret 0 else
  let va0 := PGROUNDDOWN dstva in
  pa0 <- walkaddr root va0 ;;
  if pa0 =? 0 then ret (-1) else
  pte <- walk root va0 false ;;
  v <- ld64 pte ;;
  if negb (has PTE_W v) then ret (-1) else
  let n := PGSIZE - (dstva - va0) in
  let n := if len <? n then len else n in
  mem_upd (fun m => put_bytes m (pa0 + dstva - va0) (take (Z.to_nat n) src)) ;;
  copyout_loop fuel root (u64 (va0 + PGSIZE)) (drop (Z.to_nat n) src).
Proof. reflexivity. Qed.

(** Whether all [n] bytes at [va] can be written. *)
Fixpoint writables (m : gmap Z Z) (t : ptree) (va : Z) (n : nat) : bool :=
  match n with O => true | S n => writable m t va && writables m t (va + 1) n end.

Lemma writables_spec m t va n :
  writables m t va n = true <-> forall i, (i < n)%nat -> writable m t (va + Z.of_nat i) = true.
Proof.
  revert va; induction n as [|n IH]; intros va; simpl; [split; [lia|done]|].
  rewrite andb_true_iff, IH. split.
  - intros [H0 H] i Hi. destruct i as [|i]; [by rewrite Z.add_0_r|].
    replace (va + Z.of_nat (S i)) with (va + 1 + Z.of_nat i) by lia. apply H. lia.
  - intros H. split; [specialize (H 0%nat ltac:(lia)); by rewrite Z.add_0_r in H|].
    intros i Hi. replace (va + 1 + Z.of_nat i) with (va + Z.of_nat (S i)) by lia. apply H. lia.
Qed.

Lemma writables_app m t va n1 n2 :
  writables m t va (n1 + n2) = writables m t va n1 && writables m t (va + Z.of_nat n1) n2.
Proof.
  revert va; induction n1 as [|n1 IH]; intros va; simpl; [by rewrite Z.add_0_r|].
  rewrite IH, andb_assoc. do 2 f_equal. lia.
Qed.

Lemma writables_leaf m m' t va n :
  (forall va, pt_leaf m' t va = pt_leaf m t va) -> writables m' t va n = writables m t va n.
Proof.
  intros H. revert va; induction n as [|n IH]; intros va; simpl; [done|].
  by rewrite IH, (writable_leaf m).
Qed.

(** The outcome of copying [src] out to [va]: all of it, or, when some byte of
    the range cannot be written, a prefix that stops before it. *)
Definition copied (s : kstate) (t : ptree) (l : list Z) (va : Z) (src : list Z) (o : outcome kstate Z) : Prop :=
  exists m' k, (k <= length src)%nat /\
    o = Ret (if writables (k_mem s) t va (length src) then 0 else -1) (set_k_mem m' s) /\
    uput (k_mem s) t va (take k src) m' /\ as_inv (set_k_mem m' s) t l /\
    (writables (k_mem s) t va (length src) = true -> k = length src).

Lemma copied_stop s t l va src :
  as_inv s t l -> writables (k_mem s) t va (length src) = false -> copied s t l va src (Ret (-1) s).
Proof.
  intros Hi Hn. exists (k_mem s), O. rewrite Hn. split; [lia|].
  assert (set_k_mem (k_mem s) s = s) as -> by (by destruct s).
  split_and!; [done|apply uput_nil|done|done].
Qed.

(** The test of an iteration: the page can be written, or the call fails. *)
Lemma copyout_guard s t l va (k : Z -> K Z) :
  as_inv s t l -> 0 <= va ->
  (pa0 <- walkaddr (pt_root t) (PGROUNDDOWN va) ;;
   if pa0 =? 0 then ret (-1) else
   pte <- walk (pt_root t) (PGROUNDDOWN va) false ;;
   v <- ld64 pte ;;
   if negb (has PTE_W v) then ret (-1) else k pa0) s =
  if writable (k_mem s) t va then k (upage (k_mem s) t va) s else Ret (-1) s.
Proof.
  intros Hi Hva. destruct (walkaddr_page s t l va Hi Hva) as [E Hnz]. run E.
  unfold writable. destruct (readable (k_mem s) t va) eqn:Hr; [|done].
  rewrite (proj2 (Z.eqb_neq _ _)) by (by apply Hnz). simpl.
  pose proof (readable_uvalid _ _ _ _ Hi Hr) as Hv. pose proof TRAPFRAME_MAXVA.
  pose proof (PGROUNDDOWN_range va). pose proof (Z.div_pos va PGSIZE).
  pose proof (PGROUNDDOWN_page va). destruct Hv as [Hv1 Hv2].
  pose proof (pi_wf _ _ _ (as_pt _ _ _ Hi)) as Hw.
  run (walk_read s _ t (PGROUNDDOWN va) Hw eq_refl ltac:(lia)).
  destruct (uvalid_slot (k_mem s) t (PGROUNDDOWN va)) as [e He].
  { split; [lia|]. by rewrite (pt_leaf_page _ _ _ va (PGROUNDDOWN_div va)). }
  rewrite He. simpl. run (ld64_eq e s). rewrite (pt_leaf_slot _ t (PGROUNDDOWN va)) by done.
  rewrite (pt_leaf_page _ _ _ va (PGROUNDDOWN_div va)). by destruct (has PTE_W _).
Qed.

Lemma copied_step s t l va src n o :
  as_inv s t l -> 0 <= va -> Forall byte_ok src -> writable (k_mem s) t va = true ->
  (n <= length src)%nat -> Z.of_nat n <= PGSIZE - va mod PGSIZE ->
  copied (set_k_mem (put_bytes (k_mem s) (phys (k_mem s) t va) (take n src)) s) t l
    (va + Z.of_nat n) (drop n src) o ->
  copied s t l va src o.
Proof.
  intros Hi Hva Hsrc Hw Hn1 Hn2 (m' & k & Hk & -> & Hu & Hi' & Hall).
  destruct (uput_page s t l va (take n src) Hi Hw) as [Hu1 Hi1].
  { by apply Forall_take. }
  { rewrite length_take. lia. }
  set (m1 := put_bytes (k_mem s) (phys (k_mem s) t va) (take n src)) in *. simpl in *.
  assert (Hlen : length (take n src) = n) by (rewrite length_take; lia).
  rewrite length_drop in *. rewrite (writables_leaf (k_mem s) m1) in * by apply Hu1.
  assert (Hws : writables (k_mem s) t va (length src) =
                writables (k_mem s) t (va + Z.of_nat n) (length src - n)).
  { replace (length src) with (n + (length src - n))%nat at 1 by lia. rewrite writables_app.
    assert (writables (k_mem s) t va n = true) as ->; [|done].
    apply writables_spec. intros i Hi0. apply (up_write _ _ _ _ _ Hu1). lia. }
  exists m', (n + k)%nat. rewrite Hws. split_and!; [lia|done| |done|intros H; rewrite Hall by done; lia].
  rewrite <- (take_drop n src) at 1.
  rewrite take_app_ge by lia. rewrite Hlen. replace (n + k - n)%nat with k by lia.
  eapply uput_app; [exact Hu1|]. by rewrite Hlen.
Qed.

Lemma copyout_loop_spec fuel s t l va src :
  as_inv s t l -> 0 <= va -> Forall byte_ok src -> (length src < fuel)%nat ->
  copied s t l va src (copyout_loop fuel (pt_root t) va src s).
Proof.
  revert s va src; induction fuel as [|fuel IH]; intros s va src Hi Hva Hsrc Hf; [lia|].
  rewrite copyout_loop_S. destruct src as [|b src'].
  { exists (k_mem s), O. simpl. assert (set_k_mem (k_mem s) s = s) as -> by (by destruct s).
    split_and!; [lia|done|apply uput_nil|done|done]. }
  set (src := b :: src') in *. assert (Hlen : (0 < length src)%nat) by (simpl; lia).
  cbv zeta. rewrite (proj2 (Z.ltb_lt _ _)) by lia. cbn [negb].
  rewrite (copyout_guard s t l va) by done.
  destruct (writable (k_mem s) t va) eqn:Hw.
  2: { apply copied_stop; [done|]. simpl. by rewrite Hw. }
  rewrite rounddown_off.
  replace (upage (k_mem s) t va + va - PGROUNDDOWN va) with (phys (k_mem s) t va)
    by (unfold phys; pose proof (rounddown_off va); lia).
  assert (Hm : va < MAXVA) by (pose proof (writable_readable _ _ _ Hw) as Hr; unfold readable in Hr; b2p; lia).
  rewrite next_page by lia. pose proof (Z.mod_pos_bound va PGSIZE ltac:(lia)).
  set (n := Z.to_nat (if Z.of_nat (length src) <? PGSIZE - va mod PGSIZE then Z.of_nat (length src)
                      else PGSIZE - va mod PGSIZE)).
  assert (Hn : Z.of_nat n <= PGSIZE - va mod PGSIZE /\ (n <= length src)%nat /\
               (Z.of_nat n = PGSIZE - va mod PGSIZE \/ n = length src) /\ (0 < n)%nat)
    by (unfold n; case_ltb; lia).
  destruct Hn as (Hn1 & Hn2 & Hn3 & Hn4).
  unfold mem_upd, modify, bind at 1.
  apply (copied_step s t l va src n); try assumption.
  destruct (uput_page s t l va (take n src) Hi Hw) as [Hu1 Hi1];
    [by apply Forall_take|rewrite length_take; lia|].
  destruct Hn3 as [Hn3|Hn3].
  - rewrite <- Hn3. apply IH; [exact Hi1|lia|by apply Forall_drop|rewrite length_drop; lia].
  - rewrite (drop_ge src n) by lia. destruct fuel as [|fuel]; [lia|].
    rewrite copyout_loop_S. simpl. eexists _, O. split; [lia|]. simpl.
    split_and!; [|apply uput_nil|exact Hi1|done]. unfold ret. reflexivity.
Qed.

(** C3: copyout succeeds exactly when every byte of the range is mapped, user
    accessible and writable, and then user memory reads as the bytes copied;
    otherwise it fails having written only a prefix. Either way it writes no
    byte outside the process's own writable pages, so page tables, free pages
    and read-only pages are safe. *)
Theorem copyout_exact s t l va src :
  as_inv s t l -> 0 <= va -> Forall byte_ok src ->
  copied s t l va src (copyout (pt_root t) va src s).
Proof. intros. apply copyout_loop_spec; try assumption. lia. Qed.

(** * Round trip *)

Lemma ureads_nth m t va (src : list Z) :
  (forall i, (i < length src)%nat -> uread m t (va + Z.of_nat i) = Some (nth i src 0)) ->
  ureads m t va (length src) = Some src.
Proof.
  revert va; induction src as [|b src IH]; intros va H; simpl; [done|].
  pose proof (H O ltac:(simpl; lia)) as H0. rewrite Z.add_0_r in H0. rewrite H0. simpl.
  rewrite IH; [done|]. intros i Hi.
  replace (va + 1 + Z.of_nat i) with (va + Z.of_nat (S i)) by lia. apply (H (S i)). simpl. lia.
Qed.

(** What copyout wrote, copyin reads back. *)
Theorem copyout_copyin_roundtrip s t l va src :
  as_inv s t l -> 0 <= va -> Forall byte_ok src ->
  writables (k_mem s) t va (length src) = true ->
  exists s', copyout (pt_root t) va src s = Ret 0 s' /\
    copyin (pt_root t) va (Z.of_nat (length src)) s' = Ret (0, src) s'.
Proof.
  intros Hi Hva Hsrc Hw. unfold copyout, copyin. rewrite Nat2Z.id.
  destruct (copyout_loop_spec (S (length src)) s t l va src Hi Hva Hsrc ltac:(lia))
    as (m' & k & _ & E & Hu & Hi' & Hk).
  rewrite Hw in E. rewrite (Hk Hw), take_ge in Hu by lia.
  exists (set_k_mem m' s). split; [exact E|].
  destruct (copyin_loop_spec (S (length src)) _ t l va (length src) [] Hi' Hva ltac:(lia)) as [rest E2].
  rewrite E2. rewrite ureads_nth; [done|]. intros i Hlt. simpl.
  rewrite (up_read _ _ _ _ _ Hu). zsimp. simpl. do 2 f_equal. lia.
Qed.

(** * Taking a page from the allocator and giving it back *)

(** A page that does not belong to the process changes nothing the process sees. *)
Lemma other_page s t l pi m' :
  as_inv s t l -> page_ok pi -> ~ owned (k_mem s) t l pi -> mem_ok m' -> same_but_page pi (k_mem s) m' ->
  as_inv (set_k_mem m' s) t l /\ ~ owned m' t l pi /\
  (forall va, uread m' t va = uread (k_mem s) t va) /\ (forall va, writable m' t va = writable (k_mem s) t va).
Proof.
  intros Hi Hp Hno Hm Hs.
  destruct (as_inv_page s t l pi m' Hi Hp) as [Hi' Hl]; [intros ?; apply Hno; by left|intros ?; apply Hno; right; by left|done|done|].
  assert (Hup : forall va, upage m' t va = upage (k_mem s) t va) by (intros va; unfold upage; by rewrite Hl).
  split_and!; [done| |intros va|intros va; by apply writable_leaf].
  - intros [?|[?|(va & [Hva Hv] & E)]]; apply Hno; [by left|right; by left|right; right]. exists va.
    rewrite Hl in Hv. rewrite Hup in E. by split.
  - unfold uread. assert (Er : readable m' t va = readable (k_mem s) t va) by (unfold readable; by rewrite Hl).
    rewrite Er. destruct (readable (k_mem s) t va) eqn:Hr; [|done]. f_equal. rewrite (phys_leaf (k_mem s)) by apply Hl.
    apply Hs. pose proof (readable_uvalid _ _ _ _ Hi Hr) as Hv. destruct (as_page _ _ _ Hi va Hv) as [Hok _].
    pose proof (phys_in_page (k_mem s) t va).
    destruct (page_ok_apart pi (upage (k_mem s) t va) Hp Hok); [|lia..]. intros ->. apply Hno. right; right. by exists va.
Qed.

(** Nothing the process sees differs. *)
Definition unseen (t : ptree) (m m' : gmap Z Z) : Prop :=
  (forall va, uread m' t va = uread m t va) /\ (forall va, writable m' t va = writable m t va).

Lemma unseen_trans t m1 m2 m3 : unseen t m1 m2 -> unseen t m2 m3 -> unseen t m1 m3.
Proof. intros [A1 A2] [B1 B2]. split; intros va; [by rewrite B1|by rewrite B2]. Qed.

(** A page of the free list belongs neither to the tables nor to the process. *)
Lemma free_page_apart s t p l : as_inv s t (p :: l) -> page_ok p /\ ~ owned (k_mem s) t l p.
Proof.
  intros Hi. pose proof (as_pt _ _ _ Hi) as [[_ Hnd Hpg _] _ Hu]. pose proof (NoDup_cons_1_1 _ _ Hnd) as Hn. apply Forall_cons_1 in Hpg as [Hp _].
  split; [done|]. intros [Ht|[Hl|(va & Hv & E)]]; [apply (Hu p Ht); by left|done|].
  destruct (as_page _ _ _ Hi va Hv) as (_ & _ & Hni). apply Hni. rewrite E. by left.
Qed.

Lemma kalloc_page s t p l :
  quiet s -> as_inv s t (p :: l) ->
  exists f m, kalloc s = Ret p (set_k_freelist f (set_k_mem m s)) /\ as_inv (set_k_freelist f (set_k_mem m s)) t l /\
    ~ owned m t l p /\ unseen t (k_mem s) m /\ same_but_page p (k_mem s) m.
Proof.
  intros [Hc Hlk] Hi. destruct (free_page_apart s t p l Hi) as [Hp Hno]. pose proof (as_pt _ _ _ Hi) as [Hk Hw Hu].
  destruct (kalloc_some p s l Hc Hlk Hk) as (m & E & Hs & Hm & _ & Hn & Hk').
  assert (Hil : as_inv (set_k_freelist (load64 (k_mem s) p) s) t l).
  { constructor; [constructor| |apply Hi|apply Hi]; cbn [k_mem set_k_freelist].
    - destruct Hk as [[_ Hf] Hnd Hpg Hm0]. apply NoDup_cons_1_2 in Hnd. apply Forall_cons_1 in Hpg as [_ Hpg].
      by constructor.
    - done.
    - intros q Hq Hin. apply (Hu q Hq). by right.
    - intros va Hv. destruct (as_page _ _ _ Hi va Hv) as (A & B & C). split_and!; [done|done|]. intros ?. apply C. by right. }
  destruct (other_page _ t l p m Hil Hp Hno Hm Hs) as (A & B & U).
  exists (load64 (k_mem s) p), m. split_and!; [done|exact A|done|done|done].
Qed.

Lemma kfree_page s t p l :
  quiet s -> as_inv s t l -> page_ok p -> ~ owned (k_mem s) t l p ->
  exists m, kfree p s = Ret tt (set_k_freelist p (set_k_mem m s)) /\ as_inv (set_k_freelist p (set_k_mem m s)) t (p :: l) /\
    (forall q, owned m t (p :: l) q <-> q = p \/ owned (k_mem s) t l q) /\
    unseen t (k_mem s) m /\ same_but_page p (k_mem s) m.
Proof.
  intros [Hc Hlk] Hi Hp Hno.
  destruct (kfree_spec p s l Hc Hlk (pi_kmem _ _ _ (as_pt _ _ _ Hi)) Hp) as (m & E & Hs & Hm & Hk).
  { intros ?. apply Hno. right; by left. }
  destruct (other_page _ t l p m Hi Hp Hno Hm Hs) as (A & B & U).
  destruct (as_inv_page s t l p m Hi Hp) as [_ Hleaf]; [intros ?; apply Hno; by left|intros ?; apply Hno; right; by left|done|done|].
  exists m. split_and!; [done| | |done|done].
  2:{ intros q. unfold owned, uvalid, upage. setoid_rewrite Hleaf. rewrite elem_of_cons. tauto. }
  pose proof (as_pt _ _ _ A) as [_ Hw Hu].
  constructor; [constructor| |apply A|apply A]; cbn [k_mem set_k_mem set_k_freelist] in *.
  - done.
  - done.
  - intros q Hq [->|Hin]%elem_of_cons; [apply B; by left|by apply (Hu q)].
  - intros va Hv. destruct (as_page _ _ _ A va Hv) as (A1 & A2 & A3). cbn [k_mem set_k_mem] in *.
    split_and!; [done|done|]. intros [E1|Hin]%elem_of_cons; [|done]. apply B. right; right. by exists va.
Qed.
End UserCopy.

Lemma Sample_writables n : (n <= 4096)%nat -> writables (k_mem Sample.st) Sample.tree 0 n = true.
Proof.
  intros Hn. apply writables_spec. intros i Hi. unfold writable, readable.
  rewrite Sample.leaf by lia. rewrite Z.div_small by lia. zsimp. by vm_compute.
Qed.

Lemma copyin_exact_witness :
  exists r, @copyin Sample.R 4090 8 Sample.st = Ret r Sample.st.
Proof.
  destruct (@copyin_exact sample_layout Sample.st Sample.tree Sample.free 4090 8 Sample.inv ltac:(lia))
    as [rest E]. eexists. exact E.
Defined.

Lemma copyinstr_exact_witness :
  exists r, @copyinstr Sample.R 0 16 Sample.st = Ret r Sample.st.
Proof.
  destruct (@copyinstr_exact sample_layout Sample.st Sample.tree Sample.free 0 16 Sample.inv ltac:(lia))
    as [rest E]. eexists. exact E.
Defined.

Lemma copyout_exact_witness :
  exists s', @copyout Sample.R 0 [1; 2; 3] Sample.st = Ret 0 s'.
Proof.
  destruct (@copyout_exact sample_layout Sample.st Sample.tree Sample.free 0 [1; 2; 3])
    as (m' & k & _ & E & _); [exact Sample.inv|lia|by repeat constructor|].
  rewrite Sample_writables in E by (simpl; lia). eexists. exact E.
Defined.

Lemma copyout_copyin_roundtrip_witness :
  exists s', @copyout Sample.R 0 [1; 2; 3] Sample.st = Ret 0 s' /\
    @copyin Sample.R 0 3 s' = Ret (0, [1; 2; 3]) s'.
Proof.
  exact (@copyout_copyin_roundtrip sample_layout Sample.st Sample.tree Sample.free 0 [1; 2; 3]
    Sample.inv ltac:(lia) ltac:(by repeat constructor) (Sample_writables 3 ltac:(lia))).
Defined.
