(* ===== verification/UvmFree.v ===== *)
(** kernel/vm.c: freewalk and uvmfree, which give the pages of an address space
    back to the allocator.

    [table] says which pages a table without mappings consists of, by recursion
    on its depth, as [freewalk] goes through it.  [moved] says that an operation
    wrote only to pages of a set and kept that set together; it composes where
    pages pass between the allocator, a table and a process. *)

From S2P Require Import Prelude Types Memory Spinlock Kalloc Vm PageTable UserMem.
Local Open Scope c_scope.

(** * Sets of pages *)

(** [x] is in none of the pages [O]. *)
Definition outside (O : Z -> Prop) (x : Z) : Prop := forall p, O p -> x < p \/ p + PGSIZE <= x.

(** From [m] to [m'] only pages of [O] were written; the pages are now [O']. *)
Record moved (m : gmap Z Z) (O : Z -> Prop) (m' : gmap Z Z) (O' : Z -> Prop) : Prop := {
  mv_pages : forall p, O' p <-> O p;
  mv_frame : forall x, outside O x -> mget m' x = mget m x
}.

Lemma moved_refl m O O' : (forall p, O' p <-> O p) -> moved m O m O'.
Proof. by constructor. Qed.

Lemma moved_trans m1 O1 m2 O2 m3 O3 : moved m1 O1 m2 O2 -> moved m2 O2 m3 O3 -> moved m1 O1 m3 O3.
Proof.
  intros [P1 F1] [P2 F2]. constructor; [intros p; by rewrite P2, P1|].
  intros x Hx. rewrite F2; [by apply F1|]. intros p Hp. apply Hx. by apply P1.
Qed.

(** More pages, which are left alone. *)
Lemma moved_add m O m' O' Q :
  moved m O m' O' -> moved m (fun p => Q p \/ O p) m' (fun p => Q p \/ O' p).
Proof.
  intros [P F]. constructor; [intros p; by rewrite P|]. intros x Hx. apply F. intros p Hp. apply Hx. by right.
Qed.

Section UvmFree.
Context {L : KernelLayout}.
#[local] Opaque walk mappages_loop kalloc kfree.

Lemma as_chg_moved s t l s' t' l' D F :
  as_chg s t l s' t' l' D F -> moved (k_mem s) (owned (k_mem s) t l) (k_mem s') (owned (k_mem s') t' l').
Proof. intros C. constructor; [apply C|]. intros x Hx. apply C. exact Hx. Qed.

(** The pages [ps] have joined the free list; the pages [ws] were written. *)
Record freed (s : kstate) (l ps ws : list Z) (s' : kstate) (l' : list Z) : Prop := {
  fr_state : s' = set_k_freelist (k_freelist s') (set_k_mem (k_mem s') s);
  fr_kmem : kmem_inv s' l';
  fr_perm : l' ≡ₚ ps ++ l;
  fr_frame : forall x, outside (.∈ ws) x -> mget (k_mem s') x = mget (k_mem s) x
}.

Lemma freed_nil s l ws : kmem_inv s l -> freed s l [] ws s l.
Proof. intros H. constructor; [by destruct s|done|done|done]. Qed.

Lemma freed_trans s l ps s1 l1 qs s2 l2 ws :
  freed s l ps ws s1 l1 -> freed s1 l1 qs ws s2 l2 -> freed s l (ps ++ qs) ws s2 l2.
Proof.
  intros A B. constructor.
  - rewrite (fr_state _ _ _ _ _ _ B). cbn. by rewrite (fr_state _ _ _ _ _ _ A).
  - apply B.
  - rewrite (fr_perm _ _ _ _ _ _ B), (fr_perm _ _ _ _ _ _ A). solve_Permutation.
  - intros x Hx. rewrite (fr_frame _ _ _ _ _ _ B) by done. by apply A.
Qed.

Lemma freed_weaken s l ps ws ws' s' l' : ws ⊆ ws' -> freed s l ps ws s' l' -> freed s l ps ws' s' l'.
Proof. intros Hs A. constructor; try apply A. intros x Hx. apply A. intros p Hp. by apply Hx, Hs. Qed.

Lemma freed_quiet s l ps ws s' l' : freed s l ps ws s' l' -> quiet s -> quiet s'.
Proof. intros A H. rewrite (fr_state _ _ _ _ _ _ A). by apply quiet_set. Qed.

Lemma freed_moved s l ps s' l' :
  freed s l ps ps s' l' -> moved (k_mem s) (fun p => p ∈ ps \/ p ∈ l) (k_mem s') (.∈ l').
Proof.
  intros A. constructor.
  - intros p. by rewrite (fr_perm _ _ _ _ _ _ A), elem_of_app.
  - intros x Hx. apply A. intros p Hp. apply Hx. by left.
Qed.

Lemma kfree_freed s l p :
  quiet s -> kmem_inv s l -> page_ok p -> p ∉ l ->
  exists s', kfree p s = Ret tt s' /\ freed s l [p] [p] s' (p :: l).
Proof.
  intros [Hc Hlk] Hk Hp Hn. destruct (kfree_spec p s l Hc Hlk Hk Hp Hn) as (m & E & Hs & _ & Hk').
  eexists. split; [exact E|]. constructor; [done|done|done|]. intros x Hx. apply Hs, Hx. set_solver.
Qed.

(** * Tables without mappings *)

(** The pages below the [n] entries from [i] on, [f k] being those below entry [k]. *)
Definition below (f : Z -> list Z) (i n : Z) : list Z := seqZ i n ≫= f.

Lemma elem_of_below f i n q : q ∈ below f i n <-> exists k, i <= k < i + n /\ q ∈ f k.
Proof. unfold below. rewrite list_elem_of_bind. setoid_rewrite elem_of_seqZ. naive_solver. Qed.

Lemma below_cons f i n : 0 < n -> below f i n = f i ++ below f (i + 1) (n - 1).
Proof.
  intros Hn. unfold below. rewrite seqZ_cons by done. replace (Z.succ i) with (i + 1) by lia.
  by replace (Z.pred n) with (n - 1) by lia.
Qed.

Lemma below_nil i n : below (fun _ => []) i n = [].
Proof. unfold below. by induction (seqZ i n). Qed.

Lemma NoDup_below f i n :
  (forall k k' q, q ∈ f k -> q ∈ f k' -> k = k') -> (forall k, NoDup (f k)) -> NoDup (below f i n).
Proof. intros H1 H2. apply NoDup_bind; [eauto|done|apply NoDup_seqZ]. Qed.
#[local] Opaque below.

(** The table at [p], of depth [d], consists of the pages [ps], in the order in
    which [freewalk] frees them. *)
Fixpoint table (m : gmap Z Z) (d : nat) (p : Z) (ps : list Z) : Prop :=
  match d with
  | O => False
  | S d => exists f : Z -> list Z, ps = below f 0 512 ++ [p] /\
      forall k, 0 <= k < 512 ->
        (has PTE_V (load64 m (p + 8 * k)) = false /\ f k = []) \/
        (exists q, load64 m (p + 8 * k) = ptr (Some q) /\ table m d q (f k))
  end.

Lemma table_self m d p ps : table m d p ps -> p ∈ ps.
Proof. destruct d as [|d]; [done|]. intros (f & -> & _). set_solver. Qed.

Lemma table_ext m m' d p ps :
  (forall q x, q ∈ ps -> q <= x < q + PGSIZE -> mget m' x = mget m x) -> table m d p ps -> table m' d p ps.
Proof.
  revert p ps; induction d as [|d IH]; intros p ps Hm; [done|]. intros (f & -> & Hf). exists f. split; [done|].
  intros k Hk. assert (E : load64 m' (p + 8 * k) = load64 m (p + 8 * k)).
  { apply load_ext. intros x Hx. apply (Hm p); [set_solver|lia]. }
  rewrite E. destruct (Hf k Hk) as [?|(q & Hq & Ht)]; [by left|right]. exists q. split; [done|].
  apply IH; [|done]. intros r x Hr. apply Hm, elem_of_app. left. apply elem_of_below. by exists k.
Qed.

(** * freewalk *)

Lemma ptr_no_leaf q : page_ok q -> Z.land (ptr (Some q)) (Z.lor (Z.lor PTE_R PTE_W) PTE_X) =? 0 = true.
Proof.
  intros Hq. assert (H : has (Z.lor (Z.lor PTE_R PTE_W) PTE_X) (ptr (Some q)) = false).
  { cbn [ptr]. rewrite has_pte; [reflexivity|by apply page_ok_pa|lia|by vm_compute]. }
  unfold has in H. by destruct (_ =? 0).
Qed.

(** What [freewalk] does with entry [i] of the table at [p], which is [pte]. *)
Definition walk_entry (d : nat) (p i pte : Z) : K unit :=
  if has PTE_V pte && (Z.land pte (Z.lor (Z.lor PTE_R PTE_W) PTE_X) =? 0)
  then freewalk d (PTE2PA pte) ;; st64 (p + 8 * i) 0
  else if has PTE_V pte then panic "freewalk: leaf" else ret tt.

Lemma freewalk_loop_S d p n i :
  freewalk_loop (freewalk d) p (S n) i =
  (pte <- ld64 (p + 8 * i) ;; walk_entry d p i pte ;; freewalk_loop (freewalk d) p n (i + 1)).
Proof. reflexivity. Qed.

(** The specification of [freewalk] at depth [d]. *)
Definition frees (d : nat) : Prop := forall p ps s l,
  quiet s -> kmem_inv s l -> table (k_mem s) d p ps -> NoDup (ps ++ l) -> Forall page_ok ps ->
  exists s' l', freewalk d p s = Ret tt s' /\ freed s l ps ps s' l'.

Section Entries.
Variables (d : nat) (p : Z) (f : Z -> list Z).
Hypothesis Hd : frees d.
Hypothesis Hp : page_ok p.

(** Entries [i ..] are still to be freed. *)
Record pending (s : kstate) (l : list Z) (i n : Z) : Prop := {
  pd_quiet : quiet s;
  pd_kmem : kmem_inv s l;
  pd_entry : forall k, i <= k < i + n ->
    (has PTE_V (load64 (k_mem s) (p + 8 * k)) = false /\ f k = []) \/
    (exists q, load64 (k_mem s) (p + 8 * k) = ptr (Some q) /\ table (k_mem s) d q (f k));
  pd_nodup : NoDup (below f i n ++ p :: l);
  pd_ok : Forall page_ok (below f i n)
}.

Lemma walk_entry_spec s l i n :
  pending s l i n -> 0 <= i -> 0 < n -> i + n <= 512 ->
  exists s' l', walk_entry d p i (load64 (k_mem s) (p + 8 * i)) s = Ret tt s' /\ freed s l (f i) (p :: f i) s' l' /\ pending s' l' (i + 1) (n - 1).
Proof.
  intros [Hq Hk He Hnd Hok] Hi Hn Hb. rewrite below_cons in Hnd, Hok by done.
  apply Forall_app in Hok as [Hok1 Hok2]. unfold walk_entry.
  destruct (He i ltac:(lia)) as [[Hv Hf]|(q & Hv & Ht)].
  { rewrite Hv. cbn [andb]. rewrite Hf in *. exists s, l. split; [done|]. split; [by apply freed_nil|].
    constructor; [done|done|intros k Hk'; apply He; lia|done|done]. }
  assert (Hqok : page_ok q) by (rewrite Forall_forall in Hok1; by eapply Hok1, table_self).
  rewrite Hv, ptr_Some_valid, ptr_no_leaf, PTE2PA_ptr by done. cbn [andb].
  rewrite <- app_assoc in Hnd. apply NoDup_app in Hnd as (Hn1 & Hn2 & Hn3).
  apply NoDup_app in Hn3 as (Hn4 & Hn5 & Hn6). apply NoDup_cons in Hn6 as [Hn6 Hn7].
  destruct (Hd q (f i) s l Hq Hk Ht) as (s1 & l1 & E1 & F1); [|done|].
  { apply NoDup_app. split_and!; [done|intros r Hr; set_solver|done]. }
  run E1. rewrite st64_eq. eexists _, l1. split; [reflexivity|].
  assert (Hpl : p ∉ l1). { rewrite (fr_perm _ _ _ _ _ _ F1), elem_of_app. set_solver. }
  set (s2 := set_k_mem (store64 (k_mem s1) (p + 8 * i) 0) s1).
  assert (Hsame : same_but_page p (k_mem s1) (k_mem s2)) by (apply same_but_page_store; lia).
  assert (F2 : freed s l (f i) (p :: f i) s2 l1).
  { constructor; [|..|intros x Hx].
    - unfold s2. rewrite (fr_state _ _ _ _ _ _ F1). done.
    - destruct (fr_kmem _ _ _ _ _ _ F1) as [K1 K2 K3 K4]. constructor; cbn; [|done|done|auto with kern].
      by apply (flist_same_but p (k_mem s1)).
    - apply F1.
    - rewrite Hsame by (apply Hx; set_solver). apply F1. intros r Hr. apply Hx. set_solver. }
  split; [done|].
  assert (Hkeep : forall r x, page_ok r -> r <> p -> r ∉ f i -> r <= x < r + PGSIZE -> mget (k_mem s2) x = mget (k_mem s) x).
  { intros r x Hr Hrp Hrf Hx. apply (fr_frame _ _ _ _ _ _ F2). intros y [->|Hy]%elem_of_cons.
    - destruct (page_ok_apart r p Hr Hp Hrp); lia.
    - rewrite Forall_forall in Hok1. destruct (page_ok_apart r y Hr (Hok1 y Hy)); [by intros ->|lia..]. }
  constructor.
  - by eapply freed_quiet.
  - apply F2.
  - intros k Hk'. assert (Ek : load64 (k_mem s2) (p + 8 * k) = load64 (k_mem s) (p + 8 * k)).
    { unfold s2. cbn. rewrite load_store_out by lia. apply load_ext. intros x Hx. apply F1.
      rewrite Forall_forall in Hok1. intros y Hy.
      destruct (page_ok_apart p y Hp (Hok1 y Hy)); [intros <-; set_solver|lia..]. }
    rewrite Ek. destruct (He k ltac:(lia)) as [?|(r & Hr & Ht')]; [by left|right]. exists r. split; [done|].
    apply (table_ext (k_mem s)); [|done]. intros y x Hy Hx.
    assert (Hy' : y ∈ below f (i + 1) (n - 1)) by (apply elem_of_below; exists k; split; [lia|done]).
    apply (Hkeep y); [rewrite Forall_forall in Hok2; by apply Hok2|set_solver..|done].
  - apply NoDup_app. split_and!; [done|intros r Hr; rewrite elem_of_cons, (fr_perm _ _ _ _ _ _ F1); set_solver|].
    apply NoDup_cons. split; [done|]. apply (fr_kmem _ _ _ _ _ _ F2).
  - done.
Qed.

Lemma freewalk_loop_spec n s l i :
  pending s l i (Z.of_nat n) -> 0 <= i -> i + Z.of_nat n <= 512 ->
  exists s' l', freewalk_loop (freewalk d) p n i s = Ret tt s' /\
    freed s l (below f i (Z.of_nat n)) (p :: (below f i (Z.of_nat n))) s' l'.
Proof.
  revert s l i; induction n as [|n IH]; intros s l i Hpd Hi Hn.
  { exists s, l. split; [done|]. apply freed_nil, Hpd. }
  destruct (walk_entry_spec s l i _ Hpd Hi ltac:(lia) Hn) as (s1 & l1 & E1 & F1 & Hpd1).
  replace (Z.of_nat (S n) - 1) with (Z.of_nat n) in Hpd1 by lia.
  destruct (IH s1 l1 (i + 1) Hpd1 ltac:(lia) ltac:(lia)) as (s2 & l2 & E2 & F2).
  exists s2, l2. rewrite freewalk_loop_S.
  run (ld64_eq (p + 8 * i) s). run E1.
  split; [done|]. rewrite below_cons by lia.
  replace (Z.of_nat (S n) - 1) with (Z.of_nat n) by lia.
  eapply freed_trans; eapply freed_weaken; [|exact F1| |exact F2]; set_solver.
Qed.
End Entries.

Lemma freewalk_spec d : frees d.
Proof.
  induction d as [|d IH]; intros p ps s l Hq Hk Ht Hnd Hok; [done|]. destruct Ht as (f & -> & Hf).
  apply Forall_app in Hok as [Hok [Hp _]%Forall_cons]. rewrite <- app_assoc in Hnd. change (freewalk (S d) p) with (freewalk_loop (freewalk d) p 512 0 ;; kfree p).
  destruct (freewalk_loop_spec d p f IH Hp 512 s l 0) as (s1 & l1 & E1 & F1); [by constructor|lia..|].
  change (Z.of_nat 512) with 512 in F1. revert Hnd F1. generalize (below f 0 512). intros ps Hnd F1. run E1. clear E1 Hf Hok. assert (Hpl : p ∉ l1).
  { apply NoDup_app in Hnd as (_ & H1 & [H2 _]%NoDup_cons). rewrite (fr_perm _ _ _ _ _ _ F1), elem_of_app. set_solver. }
  destruct (kfree_freed s1 l1 p) as (s2 & E2 & F2); [by eapply freed_quiet|apply F1|done|done|].
  exists s2, (p :: l1). split; [done|].
  eapply freed_trans; eapply freed_weaken; [|exact F1| |exact F2]; set_solver.
Qed.

(** ** The tables of an address space without mappings *)

Lemma PX_of i j k :
  0 <= i < 256 -> 0 <= j < 512 -> 0 <= k < 512 ->
  exists va, 0 <= va < MAXVA /\ PX 2 va = i /\ PX 1 va = j /\ PX 0 va = k.
Proof.
  intros Hi Hj Hk. set (n := i * 2 ^ 18 + j * 2 ^ 9 + k). exists (n * PGSIZE).
  assert (Hva : 0 <= n * PGSIZE < MAXVA) by (subst n; lia). split; [done|].
  pose proof (PX_page _ Hva) as E. rewrite Z.div_mul in E by lia. subst n.
  pose proof (PX_range 2 ((i * 2 ^ 18 + j * 2 ^ 9 + k) * PGSIZE) ltac:(lia)).
  pose proof (PX_range 1 ((i * 2 ^ 18 + j * 2 ^ 9 + k) * PGSIZE) ltac:(lia)).
  pose proof (PX_range 0 ((i * 2 ^ 18 + j * 2 ^ 9 + k) * PGSIZE) ltac:(lia)). lia.
Qed.

Definition pages0 (t : ptree) (i j : Z) : list Z := match pt_l0 t !! (i, j) with Some q => [q] | None => [] end.
Definition pages1 (t : ptree) (i : Z) : list Z :=
  match pt_l1 t !! i with Some p => below (pages0 t i) 0 512 ++ [p] | None => [] end.
Definition tables (t : ptree) : list Z := below (pages1 t) 0 512 ++ [pt_root t].

Lemma elem_of_pages0 t i j q : q ∈ pages0 t i j <-> tpage t (T0 i j) = Some q.
Proof. unfold pages0. cbn. destruct (_ !! _); set_solver. Qed.

Lemma elem_of_pages1 m t i q :
  pt_wf m t -> q ∈ pages1 t i <-> tpage t (T1 i) = Some q \/ exists j, tpage t (T0 i j) = Some q.
Proof.
  intros Hw. unfold pages1. cbn. destruct (pt_l1 t !! i) as [p|] eqn:E.
  - rewrite elem_of_app, elem_of_below, list_elem_of_singleton. setoid_rewrite elem_of_pages0. cbn. split.
    + intros [(j & _ & Hj)| ->]; [right; by exists j|by left].
    + intros [?|[j Hj]]; [right; congruence|left]. exists j. split; [|done]. apply (wf_dom0 _ _ Hw) in Hj as [_ ?]. lia.
  - split; [by intros ?%elem_of_nil|]. intros [?|[j Hj]]; [done|].
    apply (wf_dom0 _ _ Hw) in Hj as [[? ?] _]. congruence.
Qed.

Lemma elem_of_tables m t q : pt_wf m t -> q ∈ tables t <-> is_table t q.
Proof.
  intros Hw. unfold tables. rewrite elem_of_app, elem_of_below, list_elem_of_singleton.
  setoid_rewrite (elem_of_pages1 m); [|done]. split.
  - intros [(i & _ & [H|[j H]])|Hr]; [by exists (T1 i)|by exists (T0 i j)|exists TRoot; by rewrite Hr].
  - intros [[|i|i j] H]; [right; cbn in H; congruence|left; exists i..].
    + split; [|by left]. apply (wf_dom1 _ _ Hw) in H. lia.
    + split; [|right; by exists j]. apply (wf_dom0 _ _ Hw) in H as [[p H] _]. apply (wf_dom1 _ _ Hw) in H. lia.
Qed.

Lemma NoDup_tables m t : pt_wf m t -> NoDup (tables t).
Proof.
  intros Hw. pose proof (wf_inj _ _ Hw) as Hi. unfold tables. apply NoDup_app. split_and!; [|..|apply NoDup_singleton].
  - apply NoDup_below.
    + intros i i' q. rewrite !(elem_of_pages1 m) by done.
      intros [H|[j H]] [H'|[j' H']]; pose proof (Hi _ _ _ H H'); congruence.
    + intros i. unfold pages1. destruct (pt_l1 t !! i) as [p|] eqn:E; [|by constructor].
      apply NoDup_app. split_and!; [|..|apply NoDup_singleton].
      * apply NoDup_below.
        -- intros j j' q. rewrite !elem_of_pages0. intros H H'. pose proof (Hi _ _ _ H H'). congruence.
        -- intros j. unfold pages0. destruct (pt_l0 t !! (i, j)); [apply NoDup_singleton|constructor].
      * intros q (j & _ & Hj)%elem_of_below ->%list_elem_of_singleton. rewrite elem_of_pages0 in Hj.
        pose proof (Hi (T0 i j) (T1 i) _ Hj E). congruence.
  - intros q (i & _ & Hq)%elem_of_below ->%list_elem_of_singleton. rewrite (elem_of_pages1 m) in Hq by done.
    destruct Hq as [H|[j H]]; by pose proof (Hi _ TRoot _ H eq_refl).
Qed.

Lemma tables_table m t :
  pt_wf m t -> (forall va, 0 <= va < MAXVA -> has PTE_V (pt_leaf m t va) = false) -> table m 3 (pt_root t) (tables t).
Proof.
  intros Hw Hno. exists (pages1 t). split; [done|]. intros i Hi. rewrite (wf_l1 _ _ Hw) by done. unfold pages1.
  destruct (pt_l1 t !! i) as [p|] eqn:Ei; [right|by left]. exists p. split; [done|].
  exists (pages0 t i). split; [done|]. intros j Hj. rewrite (wf_l0 _ _ Hw i j p) by done. unfold pages0.
  destruct (pt_l0 t !! (i, j)) as [q|] eqn:Ej; [right|by left]. exists q. split; [done|].
  exists (fun _ => []). rewrite below_nil. split; [done|]. intros k Hk. left. split; [|done].
  destruct (PX_of i j k) as (va & Hva & E2 & E1 & E0); [by eapply wf_dom1|done|done|].
  rewrite <- (Hno va Hva). unfold pt_leaf, pt_slot. by rewrite E2, E1, E0, Ej.
Qed.

(** * Entries above user memory *)

(** A change of the table that keeps the entries of user memory. *)
Lemma as_chg_high s t l s' t' l' D F :
  as_inv s t l -> chg s t l s' t' l' F ->
  (forall va, 0 <= va < TRAPFRAME -> F va = pt_leaf (k_mem s) t va) ->
  (forall va, 0 <= va < MAXVA -> ~ D va -> F va = pt_leaf (k_mem s) t va) ->
  (forall va, TRAPFRAME <= va < MAXVA -> has PTE_U (F va) = false) -> as_chg s t l s' t' l' D F.
Proof.
  intros Hi C Hlow Hsame Hu. pose proof TRAPFRAME_MAXVA as HT. pose proof (ch_leaf _ _ _ _ _ _ _ C) as HF.
  assert (Hl : forall va, 0 <= va < TRAPFRAME -> pt_leaf (k_mem s') t' va = pt_leaf (k_mem s) t va).
  { intros va Hva. rewrite HF by lia. by apply Hlow. }
  assert (Hv : forall va, uvalid (k_mem s') t' va <-> uvalid (k_mem s) t va).
  { intros va. split; intros [Hva Hv]; (split; [done|]); by rewrite Hl in *. }
  assert (Hup : forall va, uvalid (k_mem s) t va -> upage (k_mem s') t' va = upage (k_mem s) t va).
  { intros va [Hva _]. unfold upage. by rewrite Hl. }
  assert (Hfr : forall x, outside (fun p => is_table t p \/ p ∈ l) x -> mget (k_mem s') x = mget (k_mem s) x).
  { intros x Hx. apply C. intros (p & Hp & Hxp). destruct (Hx p); [|lia..]. apply (chg_pool _ _ _ _ _ _ _ p C). by left. }
  constructor.
  - apply C.
  - constructor.
    + apply C.
    + intros va Hva%Hv. rewrite Hup by done. destruct (as_page _ _ _ Hi va Hva) as (H1 & H2 & H3).
      split; [done|]. by eapply chg_notin.
    + intros va va' Hva%Hv Hva'%Hv. rewrite !Hup by done. by apply (as_inj _ _ _ Hi).
    + intros va Hva. rewrite HF by lia. by apply Hu.
  - apply C.
  - done.
  - intros va Hva Hn. rewrite HF by done. by apply Hsame.
  - intros va x _ Hva Hx. destruct (as_page _ _ _ Hi va Hva) as (H1 & H2 & H3). apply Hfr. intros p Hp.
    destruct (page_ok_apart (upage (k_mem s) t va) p H1); [|intros <-; tauto|lia..].
    eapply owned_page_ok; [done|]. destruct Hp; [by left|right; by left].
  - intros p. pose proof (chg_pool _ _ _ _ _ _ _ p C) as Hpool. unfold owned. split.
    + intros [?|[?|(va & Hva%Hv & E)]]; [tauto..|]. right; right. exists va. by rewrite <- Hup.
    + intros [?|[?|(va & Hva & E)]]; [tauto..|]. right; right. exists va. by rewrite Hv, Hup.
  - intros x Hx. apply Hfr. intros p [Hp|Hp]; apply Hx; [by left|right; by left].
Qed.

(** Unmapping a page above user memory, without freeing it. *)
Lemma uvmunmap_high s t l va :
  as_inv s t l -> va mod PGSIZE = 0 -> TRAPFRAME <= va < MAXVA ->
  exists s', uvmunmap (pt_root t) va 1 false s = Ret tt s' /\
    as_chg s t l s' t l (in_pages (va / PGSIZE) 1) (unmap_range (pt_leaf (k_mem s) t) (va / PGSIZE) 1).
Proof.
  intros Hi Hal Hva. assert (HT0 : 0 < TRAPFRAME) by done. pose proof (pi_wf _ _ _ (as_pt _ _ _ Hi)) as Hw.
  set (F := unmap_range (pt_leaf (k_mem s) t) (va / PGSIZE) 1).
  assert (HT : TRAPFRAME / PGSIZE <= va / PGSIZE) by (apply Z.div_le_mono; lia).
  assert (Hlow : forall x, 0 <= x < TRAPFRAME -> F x = pt_leaf (k_mem s) t x).
  { intros x Hx. pose proof (div_lt_aligned x TRAPFRAME ltac:(done) ltac:(lia)).
    unfold F, unmap_range. by rewrite (proj2 (Z.leb_gt _ _)) by lia. }
  assert (Hsame : forall x, 0 <= x < MAXVA -> ~ in_pages (va / PGSIZE) 1 x -> F x = pt_leaf (k_mem s) t x).
  { intros x Hx Hn. unfold F, unmap_range. unfold in_pages in Hn.
    destruct (Z.leb_spec (va / PGSIZE) (x / PGSIZE)); [|done]. by rewrite (proj2 (Z.ltb_ge _ _)) by lia. }
  assert (Hu : forall x, TRAPFRAME <= x < MAXVA -> has PTE_U (F x) = false).
  { intros x Hx. unfold F, unmap_range. destruct (_ && _); [apply has_0|by apply Hi]. }
  assert (Hdo : exists s', unmap1 (pt_root t) va false s = Ret tt s' /\ chg s t l s' t l F).
  { unfold unmap1. run (walk_read s _ t va Hw eq_refl ltac:(lia)).
    assert (Hnone : has PTE_V (pt_leaf (k_mem s) t va) = false -> chg s t l s t l F).
    { intros Hv. eapply chg_ext; [by apply chg_refl, Hi|]. intros x Hx.
      destruct (in_pages_dec (va / PGSIZE) 1 x) as [Hin|Hin]; [|by rewrite Hsame].
      unfold F, unmap_range. unfold in_pages in Hin. rewrite (pt_leaf_page _ t x va) by lia. by rewrite Hv, andb_false_r. }
    destruct (pt_slot t va) as [e|] eqn:Ee; cbn [default].
    2:{ exists s. split; [done|]. apply Hnone. unfold pt_leaf. rewrite Ee. apply has_0. }
    destruct (pt_slot_in _ _ _ _ Hw Ee) as (q & _ & _ & _ & He0). rewrite (proj2 (Z.eqb_neq _ _)) by done.
    run (ld64_eq e s). rewrite (pt_leaf_slot _ t va) by done.
    destruct (has PTE_V (pt_leaf (k_mem s) t va)) eqn:Hv; cbn [negb]; [|exists s; split; [done|by apply Hnone]].
    cbn [when]. unfold bind at 1. cbn [ret]. rewrite st64_eq. eexists. split; [reflexivity|].
    eapply chg_ext; [apply (chg_store s t l va e 0 (as_pt _ _ _ Hi)); [lia|lia|done]|].
    intros x Hx. cbn. unfold F. symmetry. apply unmap_range_1; [|done]. intros y z. apply pt_leaf_page. }
  destruct Hdo as (s' & E & C). exists s'. split.
  - unfold uvmunmap. rewrite Hal. cbn [negb Z.eqb]. rewrite (wrap_small 64 (1 * PGSIZE)), wrap_small by lia.
    change (S (Z.to_nat 1)) with 2%nat. rewrite uvmunmap_loop_S, (proj2 (Z.ltb_lt _ _)) by lia. cbn [negb]. run E.
    rewrite uvmunmap_loop_S, wrap_small, (proj2 (Z.ltb_ge _ _)) by lia. done.
  - by apply as_chg_high.
Qed.

(** * uvmfree *)

(** The mappings below [sz] are freed, then the tables; nothing else is mapped. *)
Lemma uvmfree_spec s t l sz :
  quiet s -> as_inv s t l -> 0 <= sz <= TRAPFRAME ->
  (forall va, 0 <= va < MAXVA -> npages sz <= va / PGSIZE -> has PTE_V (pt_leaf (k_mem s) t va) = false) ->
  exists s' l', uvmfree (pt_root t) sz s = Ret tt s' /\
    s' = set_k_freelist (k_freelist s') (set_k_mem (k_mem s') s) /\ kmem_inv s' l' /\
    moved (k_mem s) (owned (k_mem s) t l) (k_mem s') (.∈ l').
Proof.
  intros Hq Hi Hsz Hno. pose proof (npages_bounds sz) as Hb. pose proof (npages_limit sz ltac:(lia)) as Hlim.
  pose proof TRAPFRAME_MAXVA as HT.
  assert (Hun : exists s1 l1, when (0 <? sz) (uvmunmap (pt_root t) 0 (PGROUNDUP sz / PGSIZE) true) s = Ret tt s1 /\
    as_chg s t l s1 t l1 (in_pages 0 (npages sz)) (unmap_range (pt_leaf (k_mem s) t) 0 (npages sz))).
  { destruct (Z.ltb_spec 0 sz) as [H0|H0]; cbn [when].
    - rewrite PGROUNDUP_npages, Z.div_mul by lia.
      destruct (uvmunmap_spec s t l 0 (npages sz) Hq Hi) as (s1 & l1 & E & C); [done|lia..|]. by exists s1, l1.
    - replace sz with 0 by lia. change (npages 0) with 0. exists s, l. split; [done|].
      eapply as_chg_ext; [by apply as_chg_refl|]. intros va _. by rewrite unmap_range_0. }
  destruct Hun as (s1 & l1 & E1 & C1). unfold uvmfree. run E1.
  pose proof (as_pt _ _ _ (ac_inv _ _ _ _ _ _ _ _ C1)) as [Hk1 Hw1 Hu1].
  assert (Hno1 : forall va, 0 <= va < MAXVA -> has PTE_V (pt_leaf (k_mem s1) t va) = false).
  { intros va Hva. rewrite (ac_leaf _ _ _ _ _ _ _ _ C1) by done. unfold unmap_range.
    pose proof (Z.div_pos va PGSIZE ltac:(lia) ltac:(lia)). rewrite (proj2 (Z.leb_le _ _)) by lia. cbn [andb].
    destruct (Z.ltb_spec (va / PGSIZE) (0 + npages sz)); cbn [andb]; [|apply Hno; lia].
    destruct (has PTE_V (pt_leaf (k_mem s) t va)) eqn:Ev; [apply has_0|done]. }
  assert (Htab : forall q, q ∈ tables t <-> is_table t q) by (intros q; by eapply elem_of_tables).
  destruct (freewalk_spec 3 (pt_root t) (tables t) s1 l1) as (s2 & l2 & E2 & F2);
    [by eapply as_chg_quiet|done|by apply tables_table| | |].
  { apply NoDup_app. split_and!; [by eapply NoDup_tables|intros q Hq1%Htab; by apply Hu1|apply Hk1]. }
  { apply Forall_forall. intros q [n Hn]%Htab. by eapply wf_page. }
  exists s2, l2. split_and!; [done| |apply F2|].
  - rewrite (fr_state _ _ _ _ _ _ F2). cbn. by rewrite (ac_state _ _ _ _ _ _ _ _ C1).
  - eapply moved_trans; [by eapply as_chg_moved|]. eapply moved_trans; [|by eapply freed_moved].
    apply moved_refl. intros p. rewrite Htab. unfold owned. split; [tauto|].
    intros [?|[?|(va & [Hva Hv] & _)]]; [tauto..|]. rewrite Hno1 in Hv; [done|lia].
Qed.
End UvmFree.

(** * Properties *)

Section Properties.
Context {L : KernelLayout}.

(** C18: uvmfree ends an address space. It returns (its recursion goes no deeper than
    the three levels of a table, and no entry makes it panic); afterwards every page
    the space had, whether mapped or part of the table, is on the free list, which
    has gained nothing else; and it wrote to no other page. *)
Theorem uvmfree_frees s t l sz :
  quiet s -> as_inv s t l -> 0 <= sz <= TRAPFRAME ->
  (forall va, 0 <= va < MAXVA -> npages sz <= va / PGSIZE -> has PTE_V (pt_leaf (k_mem s) t va) = false) ->
  exists s' l', uvmfree (pt_root t) sz s = Ret tt s' /\ kmem_inv s' l' /\
    (forall p, p ∈ l' <-> owned (k_mem s) t l p) /\
    (forall x, outside (owned (k_mem s) t l) x -> mget (k_mem s') x = mget (k_mem s) x) /\
    s' = set_k_freelist (k_freelist s') (set_k_mem (k_mem s') s).
Proof.
  intros Hq Hi Hsz Hno. destruct (uvmfree_spec s t l sz Hq Hi Hsz Hno) as (s' & l' & E & Es & Hk & [Hp Hf]).
  by exists s', l'.
Qed.
End Properties.

Lemma uvmfree_frees_witness :
  exists s' (l' : list Z), @uvmfree sample_layout Sample.R 4096 Sample.st = Ret tt s' /\ (Sample.U ∈ l') /\ (Sample.R ∈ l').
Proof.
  destruct (@uvmfree_frees sample_layout Sample.st Sample.tree Sample.free 4096) as (s' & l' & E & _ & Hl & _).
  - exact Sample.quiet_st.
  - exact Sample.inv.
  - split; [discriminate|discriminate].
  - intros va Hva Hp. change (npages 4096) with 1 in Hp. rewrite Sample.leaf by exact Hva.
    rewrite (proj2 (Z.eqb_neq _ _)) by lia. reflexivity.
  - exists s', l'. split; [exact E|]. split; apply Hl.
    + right; right. exists 0. unfold uvalid, upage. rewrite Sample.leaf by lia.
      change (0 / PGSIZE =? 0) with true. cbv iota.
      rewrite (@PTE2PA_entry sample_layout); [|apply Sample.U_ok|split; [discriminate|reflexivity]].
      split; [split; [lia|reflexivity]|reflexivity].
    + left. exists TRoot. reflexivity.
Defined.
