(* ===== verification/UvmCopy.v ===== *)
(** kernel/vm.c: uvmcopy, which gives a child of fork a copy of its parent's memory.

    Two address spaces are involved: the child's, which with the allocator owns
    the pages that may change ([as_inv], [as_chg] of UserMem.v), and the parent's,
    which owns none of them ([bystander]).  The theorem is in terms of [uread]
    (UserCopy.v), memory as a process sees it. *)

From S2P Require Import Prelude Types Memory Spinlock Kalloc Vm PageTable UserMem UserCopy UvmFree.
Local Open Scope c_scope.

Section UvmCopy.
Context {L : KernelLayout}.
#[local] Opaque walk mappages_loop kalloc kfree.

(** * An address space beside the one that changes *)

(** Its tables and pages are not among the pages [O]. *)
Record bystander (m : gmap Z Z) (t : ptree) (O : Z -> Prop) : Prop := {
  by_wf : pt_wf m t;
  by_table : forall p, is_table t p -> ~ O p;
  by_page : forall va, uvalid m t va -> page_ok (upage m t va) /\ ~ O (upage m t va);
  by_high : forall va, TRAPFRAME <= va < MAXVA -> has PTE_U (pt_leaf m t va) = false
}.

(** What an operation on the other space leaves of it: everything. *)
Record undisturbed (m m' : gmap Z Z) (t : ptree) : Prop := {
  un_leaf : forall va, pt_leaf m' t va = pt_leaf m t va;
  un_bytes : forall va x, uvalid m t va -> upage m t va <= x < upage m t va + PGSIZE -> mget m' x = mget m x
}.

Lemma bystander_moved m m' tp O O' :
  (forall p, O p -> page_ok p) -> moved m O m' O' -> bystander m tp O ->
  bystander m' tp O' /\ undisturbed m m' tp.
Proof.
  intros Hok [Hpages Hframe] [Hw Ht Hp Hh].
  assert (Hfar : forall p x, page_ok p -> ~ O p -> p <= x < p + PGSIZE -> mget m' x = mget m x).
  { intros p x Hpk Hno Hx. apply Hframe. intros q Hq.
    destruct (page_ok_apart p q Hpk (Hok q Hq)); [by intros ->|lia..]. }
  assert (Htab : forall n p x, tpage tp n = Some p -> p <= x < p + PGSIZE -> mget m' x = mget m x).
  { intros n p x Hn Hx. apply (Hfar p); [by eapply wf_page|apply Ht; by exists n|done]. }
  assert (Hleaf : forall va, pt_leaf m' tp va = pt_leaf m tp va).
  { intros va. unfold pt_leaf. destruct (pt_slot tp va) as [a|] eqn:E; [|done].
    destruct (pt_slot_in _ _ _ _ Hw E) as (q & Hq & H1 & H2 & _). apply load_ext. intros x Hx. eapply Htab; [exact Hq|lia]. }
  split.
  - constructor.
    + apply (pt_wf_frame m); [done|]. intros q x [->|[i Hq]] Hx; [by apply (Htab TRoot (pt_root tp))|by apply (Htab (T1 i) q)].
    + intros p Hpt Ho. apply (Ht p Hpt). by apply Hpages.
    + intros va [Hva Hv]. rewrite Hleaf in Hv. destruct (Hp va ltac:(by split)) as [H1 H2]. unfold upage in *. rewrite Hleaf.
      split; [done|]. intros Ho. apply H2. by apply Hpages.
    + intros va Hva. rewrite Hleaf. by apply Hh.
  - constructor; [done|]. intros va x Hva Hx. destruct (Hp va Hva) as [H1 H2]. by apply (Hfar (upage m tp va)).
Qed.

Lemma bystander_chg s t l s' t' l' D F tp :
  as_inv s t l -> as_chg s t l s' t' l' D F -> bystander (k_mem s) tp (owned (k_mem s) t l) ->
  bystander (k_mem s') tp (owned (k_mem s') t' l') /\ undisturbed (k_mem s) (k_mem s') tp.
Proof.
  intros Hi C. apply bystander_moved; [intros p; by apply owned_page_ok|by eapply as_chg_moved].
Qed.

Lemma undisturbed_refl m t : undisturbed m m t.
Proof. by constructor. Qed.

Lemma undisturbed_trans m1 m2 m3 t : undisturbed m1 m2 t -> undisturbed m2 m3 t -> undisturbed m1 m3 t.
Proof.
  intros [L1 B1] [L2 B2]. constructor; [intros va; by rewrite L2, L1|]. intros va x [Hva Hv] Hx.
  rewrite (B2 va), (B1 va); [done|by split|done|split; [done|by rewrite L1]|]. unfold upage in *. by rewrite L1.
Qed.

Lemma undisturbed_uread m m' t O va : bystander m t O -> undisturbed m m' t -> uread m' t va = uread m t va.
Proof.
  intros B [HL HB]. unfold uread, readable. rewrite HL. destruct (_ && _) eqn:E; [|done]. f_equal.
  unfold phys, upage. rewrite HL. b2p. apply (HB va); [|apply phys_in_page]. split; [|done].
  destruct (decide (va < TRAPFRAME)); [lia|]. rewrite (by_high _ _ _ B) in * by lia. done.
Qed.

(** * The loop *)

Lemma uvmcopy_loop_S fuel old new i sz :
  uvmcopy_loop (S fuel) old new i sz =
  if negb (i <? sz) then ret 0 else
  pte <- walk old i false ;;
  if pte =? 0 then uvmcopy_loop fuel old new (u64 (i + PGSIZE)) sz else
  v <- ld64 pte ;;
  if negb (has PTE_V v) then uvmcopy_loop fuel old new (u64 (i + PGSIZE)) sz else
  map_fresh new i (PTE_FLAGS v) (fun p m => memmove m p (PTE2PA v) PGSIZE)
    (uvmunmap new 0 (i / PGSIZE) true ;; ret (-1)) (uvmcopy_loop fuel old new (u64 (i + PGSIZE)) sz).
Proof. reflexivity. Qed.

Lemma fills_copy pa : fills (fun p m => memmove m p pa PGSIZE).
Proof.
  intros p m Hm. split; [by apply memmove_ok|]. intros x Hx. rewrite mget_memmove by (done || lia).
  destruct (Z.leb_spec p x), (Z.ltb_spec x (p + PGSIZE)); try done. lia.
Qed.

Lemma PTE_FLAGS_range v : 0 <= PTE_FLAGS v < 1024.
Proof.
  unfold PTE_FLAGS. change 0x3FF with (Z.ones 10). rewrite Z.land_ones by lia. apply Z.mod_pos_bound. lia.
Qed.

Lemma has_PTE_FLAGS g v : 0 <= g < 1024 -> has g (PTE_FLAGS v) = has g v.
Proof.
  intros Hg. unfold has, PTE_FLAGS. rewrite <- Z.land_assoc. do 3 f_equal. rewrite Z.land_comm.
  change 0x3FF with (Z.ones 10). rewrite Z.land_ones by lia. by apply Z.mod_small.
Qed.

(** [va] is mapped to a copy of the page of an entry [v], with the flags of [v]. *)
Definition copy_of (m : gmap Z Z) (t : ptree) (v va : Z) : Prop :=
  exists p, page_ok p /\ pt_leaf m t va = entry p (PTE_FLAGS v) /\
    forall o, 0 <= o < PGSIZE -> mget m (p + o) = mget m (PTE2PA v + o).

(** The entry of the child for an entry [v] of the parent. *)
Definition cloned (m : gmap Z Z) (t : ptree) (v va : Z) : Prop :=
  if has PTE_V v then copy_of m t v va else has PTE_V (pt_leaf m t va) = false.

(** The state of the loop when pages [0 .. i - 1] have been dealt with. *)
Record cloning (s0 : kstate) (t0 : ptree) (l0 : list Z) (tp : ptree) (s : kstate) (t : ptree) (l : list Z) (i : Z) : Prop := {
  cl_chg : as_chg s0 t0 l0 s t l (in_pages 0 i) (pt_leaf (k_mem s) t);
  cl_by : bystander (k_mem s) tp (owned (k_mem s) t l);
  cl_same : undisturbed (k_mem s0) (k_mem s) tp;
  cl_done : forall va, 0 <= va < TRAPFRAME -> in_pages 0 i va -> cloned (k_mem s) t (pt_leaf (k_mem s0) tp va) va
}.

(** A change of the child's space elsewhere keeps what has been copied. *)
Lemma cloned_keep s t l s' t' l' D F tp va :
  as_inv s t l -> as_chg s t l s' t' l' D F -> bystander (k_mem s) tp (owned (k_mem s) t l) ->
  0 <= va < TRAPFRAME -> ~ D va ->
  cloned (k_mem s) t (pt_leaf (k_mem s) tp va) va -> cloned (k_mem s') t' (pt_leaf (k_mem s) tp va) va.
Proof.
  intros Hi C B Hva Hn. pose proof TRAPFRAME_MAXVA. unfold cloned. rewrite (ac_same _ _ _ _ _ _ _ _ C) by (done || lia).
  destruct (has PTE_V (pt_leaf (k_mem s) tp va)) eqn:E; [|done]. intros (p & Hp & Ep & Hby). exists p.
  rewrite (ac_same _ _ _ _ _ _ _ _ C) by (done || lia). split_and!; [done|done|]. intros o Ho.
  destruct (bystander_chg _ _ _ _ _ _ _ _ _ Hi C B) as [_ [_ HB]].
  assert (Hu : upage (k_mem s) t va = p) by (unfold upage; rewrite Ep; apply PTE2PA_entry; [done|apply PTE_FLAGS_range]).
  rewrite (ac_keep _ _ _ _ _ _ _ _ C va (p + o)); [|done| |rewrite Hu; lia].
  - rewrite (HB va (PTE2PA (pt_leaf (k_mem s) tp va) + o)); [by apply Hby|by split|unfold upage; lia].
  - split; [done|]. rewrite Ep. apply entry_valid; [done|apply PTE_FLAGS_range].
Qed.

Section Loop.
Variables (s0 : kstate) (t0 : ptree) (l0 : list Z) (tp : ptree) (sz : Z).
Hypothesis Hsz : 0 <= sz <= TRAPFRAME.
(** The child has no memory yet. *)
Hypothesis Hempty : forall va, 0 <= va -> va / PGSIZE < npages sz -> has PTE_V (pt_leaf (k_mem s0) t0 va) = false.

Lemma below_npages va : va / PGSIZE < npages sz -> va < TRAPFRAME.
Proof.
  intros H. pose proof (npages_limit sz ltac:(lia)). eapply Z.lt_le_trans; [|eassumption].
  apply div_lt_page. by rewrite Z.div_mul by lia.
Qed.

Section Step.
Variables (s : kstate) (t : ptree) (l : list Z) (i : Z).
Hypothesis Hc : cloning s0 t0 l0 tp s t l i.
Hypothesis Hi : 0 <= i < npages sz.

Lemma page_bound : 0 <= i * PGSIZE < TRAPFRAME.
Proof. pose proof (npages_limit sz ltac:(lia)). lia. Qed.

Lemma inv_now : as_inv s t l.
Proof. apply (cl_chg _ _ _ _ _ _ _ _ Hc). Qed.

Lemma child_empty va : 0 <= va < MAXVA -> va / PGSIZE = i -> has PTE_V (pt_leaf (k_mem s) t va) = false.
Proof.
  intros Hva E. rewrite (ac_same _ _ _ _ _ _ _ _ (cl_chg _ _ _ _ _ _ _ _ Hc)); [apply Hempty; lia|done|].
  unfold in_pages. lia.
Qed.

Lemma parent_leaf va : pt_leaf (k_mem s) tp va = pt_leaf (k_mem s0) tp va.
Proof. apply (cl_same _ _ _ _ _ _ _ _ Hc). Qed.

Lemma cloning_skip :
  has PTE_V (pt_leaf (k_mem s0) tp (i * PGSIZE)) = false -> cloning s0 t0 l0 tp s t l (i + 1).
Proof.
  intros Hv. pose proof TRAPFRAME_MAXVA. constructor; try apply Hc.
  - eapply as_chg_trans; [apply Hc|apply as_chg_refl, inv_now|]. instantiate (1 := in_pages 0 0). unfold in_pages. lia.
  - intros va Hva Hin. destruct (decide (va / PGSIZE = i)) as [E|E].
    + unfold cloned. rewrite (pt_leaf_page _ tp va (i * PGSIZE)) by (rewrite Z.div_mul by lia; done). rewrite Hv.
      apply child_empty; [lia|done].
    + apply Hc; [done|]. unfold in_pages in *. lia.
Qed.

Lemma cloning_keep s' t' l' D F j :
  as_chg s t l s' t' l' D F -> (forall va, D va -> in_pages 0 j va) -> i <= j ->
  (forall va, 0 <= va < TRAPFRAME -> in_pages 0 j va -> ~ in_pages 0 i va -> cloned (k_mem s') t' (pt_leaf (k_mem s0) tp va) va) ->
  (forall va, D va -> ~ in_pages 0 i va) -> cloning s0 t0 l0 tp s' t' l' j.
Proof.
  intros C HD Hij Hnew Hout. destruct (bystander_chg _ _ _ _ _ _ _ _ _ inv_now C (cl_by _ _ _ _ _ _ _ _ Hc)) as [B U].
  constructor.
  - eapply as_chg_self, as_chg_trans; [apply Hc|exact C|]. intros va [Hin|Hin]; [unfold in_pages in *; lia|auto].
  - done.
  - eapply undisturbed_trans; [apply Hc|done].
  - intros va Hva Hin. destruct (in_pages_dec 0 i va) as [Hold|Hold]; [|by apply Hnew].
    rewrite <- parent_leaf. eapply cloned_keep; [apply inv_now|exact C|apply Hc|done|by intros ?%Hout|].
    rewrite parent_leaf. by apply Hc.
Qed.

Lemma cloning_copy s' t' l' p m1 v :
  v = pt_leaf (k_mem s0) tp (i * PGSIZE) -> has PTE_V v = true ->
  as_chg s t l s' t' l' (in_pages i 1) (map_range (pt_leaf (k_mem s) t) (i * PGSIZE) p (PTE_FLAGS v) 1) ->
  page_ok p -> p ∈ l -> same_but_page p (k_mem s) m1 -> mem_ok m1 ->
  (forall x, p <= x < p + PGSIZE -> mget (k_mem s') x = mget (memmove m1 p (PTE2PA v) PGSIZE) x) ->
  cloning s0 t0 l0 tp s' t' l' (i + 1).
Proof.
  intros Ev Hv C Hp Hpl Hs1 Hm1 Hby. pose proof TRAPFRAME_MAXVA. pose proof page_bound.
  eapply cloning_keep; [exact C|unfold in_pages; lia|lia| |unfold in_pages; lia].
  intros va Hva Hin Hout. assert (E : va / PGSIZE = i) by (unfold in_pages in *; lia).
  assert (Hpl' : pt_leaf (k_mem s0) tp va = v) by (rewrite Ev; apply pt_leaf_page; by rewrite Z.div_mul by lia).
  rewrite Hpl'. unfold cloned. rewrite Hv. exists p. split; [done|]. split.
  { rewrite (ac_leaf _ _ _ _ _ _ _ _ C), map_range_1, Z.div_mul by lia. by rewrite E, Z.eqb_refl. }
  intros o Ho. rewrite Hby by lia. rewrite mget_memmove by (done || lia).
  destruct (Z.leb_spec p (p + o)), (Z.ltb_spec (p + o) (p + PGSIZE)); try lia. cbn [andb].
  replace (PTE2PA v + (p + o - p)) with (PTE2PA v + o) by lia.
  assert (Hu : upage (k_mem s) tp va = PTE2PA v) by (unfold upage; by rewrite parent_leaf, Hpl').
  assert (Huv : uvalid (k_mem s) tp va) by (split; [done|by rewrite parent_leaf, Hpl']).
  destruct (by_page _ _ _ (cl_by _ _ _ _ _ _ _ _ Hc) va Huv) as [Hok Hno]. rewrite Hu in Hok, Hno.
  destruct (bystander_chg _ _ _ _ _ _ _ _ _ inv_now C (cl_by _ _ _ _ _ _ _ _ Hc)) as [_ [_ HB]].
  rewrite (HB va (PTE2PA v + o)) by (done || rewrite Hu; lia).
  apply Hs1. destruct (page_ok_apart p (PTE2PA v) Hp Hok); [|lia..]. intros ->. apply Hno. right. by left.
Qed.

(** The error path: what has been copied is unmapped and freed. *)
Lemma cloning_undo :
  quiet s -> exists s' l', (uvmunmap (pt_root t0) 0 i true ;; ret (-1)) s = Ret (-1) s' /\
    as_chg s0 t0 l0 s' t l' (in_pages 0 i) (pt_leaf (k_mem s') t) /\
    bystander (k_mem s') tp (owned (k_mem s') t l') /\ undisturbed (k_mem s0) (k_mem s') tp /\
    forall va, 0 <= va < TRAPFRAME -> in_pages 0 i va -> has PTE_V (pt_leaf (k_mem s') t va) = false.
Proof.
  intros Hq. pose proof TRAPFRAME_MAXVA. pose proof page_bound.
  destruct (uvmunmap_spec s t l 0 i Hq inv_now) as (s' & l' & E & C); [done|lia..|].
  change (0 / PGSIZE) with 0 in C.
  destruct (bystander_chg _ _ _ _ _ _ _ _ _ inv_now C (cl_by _ _ _ _ _ _ _ _ Hc)) as [B U].
  exists s', l'. split_and!; [| |done|eapply undisturbed_trans; [apply Hc|done]|].
  - rewrite <- (ac_root _ _ _ _ _ _ _ _ (cl_chg _ _ _ _ _ _ _ _ Hc)). by run E.
  - eapply as_chg_self, as_chg_trans; [apply Hc|exact C|]. tauto.
  - intros va Hva Hin. rewrite (ac_leaf _ _ _ _ _ _ _ _ C) by lia. unfold unmap_range, in_pages in *.
    destruct (Z.leb_spec 0 (va / PGSIZE)), (Z.ltb_spec (va / PGSIZE) (0 + i)); try lia. cbn [andb].
    destruct (has PTE_V (pt_leaf (k_mem s) t va)) eqn:Ev; [apply has_0|done].
Qed.
End Step.

(** The result of [uvmcopy]: the child has a copy, or nothing at all. *)
Definition forked (r : Z) (s : kstate) (t : ptree) (l : list Z) : Prop :=
  (r = 0 /\ cloning s0 t0 l0 tp s t l (npages sz)) \/
  (r = -1 /\ as_chg s0 t0 l0 s t l (in_pages 0 (npages sz)) (pt_leaf (k_mem s) t) /\
   bystander (k_mem s) tp (owned (k_mem s) t l) /\ undisturbed (k_mem s0) (k_mem s) tp /\
   forall va, 0 <= va -> va / PGSIZE < npages sz -> has PTE_V (pt_leaf (k_mem s) t va) = false).

Lemma forked_undo s t l i :
  quiet s -> cloning s0 t0 l0 tp s t l i -> 0 <= i < npages sz ->
  exists s' l', (uvmunmap (pt_root t0) 0 i true ;; ret (-1)) s = Ret (-1) s' /\ forked (-1) s' t l'.
Proof.
  intros Hq Hc Hi. destruct (cloning_undo s t l i Hc Hi Hq) as (s' & l' & E & C & B & U & H0). pose proof TRAPFRAME_MAXVA.
  exists s', l'. split; [done|]. right. split; [done|]. split.
  { eapply as_chg_trans; [exact C|apply as_chg_refl, C|]. instantiate (1 := in_pages 0 0). unfold in_pages. lia. }
  split_and!; [done|done|]. intros va Hva Hp.
  pose proof (below_npages va Hp).
  destruct (in_pages_dec 0 i va) as [Hin|Hin]; [apply H0; [lia|done]|].
  rewrite (ac_same _ _ _ _ _ _ _ _ C) by (done || lia). by apply Hempty.
Qed.

Lemma uvmcopy_loop_spec n s t l i :
  quiet s -> cloning s0 t0 l0 tp s t l i -> 0 <= i -> i + Z.of_nat n = npages sz ->
  exists r s' t' l', uvmcopy_loop (S n) (pt_root tp) (pt_root t0) (i * PGSIZE) sz s = Ret r s' /\ forked r s' t' l' /\
    (3 * Z.of_nat n <= Z.of_nat (length l) -> r = 0).
Proof.
  pose proof (npages_bounds sz) as Hb. pose proof (npages_limit sz ltac:(lia)) as Hlim. pose proof TRAPFRAME_MAXVA as HT.
  revert s t l i; induction n as [|n IH]; intros s t l i Hq Hc Hi Hn; rewrite uvmcopy_loop_S.
  { rewrite (proj2 (Z.ltb_ge _ _)) by lia. exists 0, s, t, l. split; [done|]. split; [|done]. left. split; [done|].
    by replace (npages sz) with i by lia. }
  rewrite (proj2 (Z.ltb_lt _ _)) by lia. cbn [negb].
  replace (u64 (i * PGSIZE + PGSIZE)) with ((i + 1) * PGSIZE) by (rewrite wrap_small; lia).
  pose proof (parent_leaf s t l i Hc (i * PGSIZE)) as Hpl.
  pose proof (by_wf _ _ _ (cl_by _ _ _ _ _ _ _ _ Hc)) as Hw.
  assert (Hskip : has PTE_V (pt_leaf (k_mem s0) tp (i * PGSIZE)) = false -> exists r s' t' l',
    uvmcopy_loop (S n) (pt_root tp) (pt_root t0) ((i + 1) * PGSIZE) sz s = Ret r s' /\ forked r s' t' l' /\
    (3 * Z.of_nat (S n) <= Z.of_nat (length l) -> r = 0)).
  { intros Hv. destruct (IH s t l (i + 1)) as (r & s' & t' & l' & E & Fk & Hlen);
      [done|apply cloning_skip; [done|lia|done]|lia..|].
    exists r, s', t', l'. split_and!; [done|done|]. intros. apply Hlen. lia. }
  run (walk_read s _ tp (i * PGSIZE) Hw eq_refl ltac:(lia)).
  destruct (pt_slot tp (i * PGSIZE)) as [a|] eqn:Ea; cbn [default].
  2:{ apply Hskip. rewrite <- Hpl. unfold pt_leaf. rewrite Ea. apply has_0. }
  destruct (pt_slot_in _ _ _ _ Hw Ea) as (q & _ & _ & _ & Ha0). rewrite (proj2 (Z.eqb_neq _ _)) by done.
  run (ld64_eq a s). rewrite (pt_leaf_slot _ tp (i * PGSIZE)), Hpl by done.
  set (v := pt_leaf (k_mem s0) tp (i * PGSIZE)) in *. destruct (has PTE_V v) eqn:Ev; cbn [negb]; [|by apply Hskip].
  rewrite Z.div_mul by lia.
  assert (Hroot : pt_root t = pt_root t0) by apply (cl_chg _ _ _ _ _ _ _ _ Hc).
  destruct (map_fresh_spec s t l (i * PGSIZE) (PTE_FLAGS v) (fun p m => memmove m p (PTE2PA v) PGSIZE)
    (uvmunmap (pt_root t0) 0 i true ;; ret (-1)) (uvmcopy_loop (S n) (pt_root tp) (pt_root t0) ((i + 1) * PGSIZE) sz))
    as (s1 & t1 & l1 & [(E & C & Hlen)|(p & m1 & E & C & Hp & Hpl' & Hs1 & Hm1 & Hlen & Hby)]);
    [exact Hq|by eapply inv_now|apply fills_copy|apply Z.mod_mul; lia|lia|apply PTE_FLAGS_range
    |eapply child_empty; [done|lia|lia|by rewrite Z.div_mul by lia]|rewrite Hroot in E..]; rewrite E.
  - assert (Hc1 : cloning s0 t0 l0 tp s1 t1 l1 i).
    { eapply (cloning_keep s t l i Hc); [exact C|unfold in_pages; lia|lia|unfold in_pages; lia|unfold in_pages; lia]. }
    destruct (forked_undo s1 t1 l1 i) as (s2 & l2 & E2 & Fk); [by eapply as_chg_quiet|done|lia|].
    exists (-1), s2, t1, l2. split_and!; [done|done|lia].
  - rewrite Z.div_mul in C by lia.
    destruct (IH s1 t1 l1 (i + 1)) as (r & s' & t' & l' & E' & Fk & Hl'); [by eapply as_chg_quiet| |lia..|].
    { eapply (cloning_copy s t l i Hc ltac:(lia) s1 t1 l1 p m1 v); done. }
    exists r, s', t', l'. split_and!; [done|done|]. intros. apply Hl'. lia.
Qed.
End Loop.

Lemma uvmcopy_spec s t l tp sz :
  quiet s -> as_inv s t l -> bystander (k_mem s) tp (owned (k_mem s) t l) -> 0 <= sz <= TRAPFRAME ->
  (forall va, 0 <= va -> va / PGSIZE < npages sz -> has PTE_V (pt_leaf (k_mem s) t va) = false) ->
  exists r s' t' l', uvmcopy (pt_root tp) (pt_root t) sz s = Ret r s' /\ forked s t l tp sz r s' t' l' /\
    (3 * npages sz <= Z.of_nat (length l) -> r = 0).
Proof.
  intros Hq Hi B Hsz He. unfold uvmcopy. fold (npages sz). pose proof (npages_mono 0 sz ltac:(lia)) as Hp.
  change (npages 0) with 0 in Hp.
  destruct (uvmcopy_loop_spec s t l tp sz Hsz He (Z.to_nat (npages sz)) s t l 0 Hq)
    as (r & s' & t' & l' & E & Fk & Hl); [|lia..|rewrite Z2Nat.id in Hl by lia; by exists r, s', t', l'].
  constructor; [by apply as_chg_refl|done|apply undisturbed_refl|]. intros va _ Hin. unfold in_pages in Hin. lia.
Qed.

(** A copied page is read like the original. *)
Lemma cloned_uread m t tp v va O :
  bystander m tp O -> 0 <= va < TRAPFRAME -> v = pt_leaf m tp va -> cloned m t v va ->
  uread m t va = uread m tp va /\ writable m t va = writable m tp va.
Proof.
  intros B Hva Ev Hc. pose proof TRAPFRAME_MAXVA. pose proof (PTE_FLAGS_range v) as Hfl.
  unfold uread, writable, readable. rewrite <- Ev. unfold cloned in Hc. destruct (has PTE_V v) eqn:Hv.
  - destruct Hc as (p & Hp & Ep & Hby). rewrite Ep, entry_valid, !has_entry by (done || lia).
    assert (Hflag : forall g, 0 <= g < 1024 -> has g PTE_V = false -> has g (Z.lor (PTE_FLAGS v) PTE_V) = has g v).
    { intros g Hg Hgv. rewrite <- (has_PTE_FLAGS g v) by done. unfold has in *. rewrite Z.land_lor_distr_l.
      replace (Z.land PTE_V g) with 0 by (symmetry; by destruct (Z.eqb_spec (Z.land PTE_V g) 0)). by rewrite Z.lor_0_r. }
    rewrite !Hflag by done. split; [|done]. destruct (_ && _) eqn:E; [|done]. f_equal.
    unfold phys, upage. rewrite Ep, PTE2PA_entry, <- Ev by done. apply Hby. apply Z.mod_pos_bound. done.
  - rewrite Hc. by rewrite !andb_false_r.
Qed.

Lemma below_pages va sz : 0 <= va < sz -> in_pages 0 (npages sz) va /\ va / PGSIZE < npages sz.
Proof.
  intros Hva. pose proof (npages_bounds sz) as Hb. pose proof (Z.div_pos va PGSIZE ltac:(lia) ltac:(done)).
  assert (va / PGSIZE < npages sz) by (apply Z.div_lt_upper_bound; lia). unfold in_pages. lia.
Qed.

(** When the loop is through, the child reads and writes like the parent. *)
Lemma cloning_uread s t l tp s' t' l' sz va :
  bystander (k_mem s) tp (owned (k_mem s) t l) -> sz <= TRAPFRAME -> cloning s t l tp s' t' l' (npages sz) -> 0 <= va < sz ->
  uread (k_mem s') t' va = uread (k_mem s) tp va /\ writable (k_mem s') t' va = writable (k_mem s) tp va.
Proof.
  intros B Hsz [C B' U Hd] Hva. rewrite <- (undisturbed_uread _ (k_mem s') tp _ va B U).
  replace (writable (k_mem s) tp va) with (writable (k_mem s') tp va)
    by (unfold writable, readable; by rewrite (un_leaf _ _ _ U)).
  apply (cloned_uread _ _ _ (pt_leaf (k_mem s) tp va) va _ B'); [lia|by rewrite (un_leaf _ _ _ U)|].
  apply Hd; [lia|by apply below_pages].
Qed.

(** C17: uvmcopy gives the child a copy of the parent's memory. If it returns 0, the
    child reads the same bytes and may write the same addresses as the parent, at
    every address below the size; if it returns -1 (memory ran out, which takes fewer
    than three free pages for each page to copy), the child has no memory. In both cases the parent's memory is as it was, no page belongs to
    both, and every page is still free, a table of the child, or mapped once. *)
Theorem uvmcopy_copies s t l tp sz :
  quiet s -> as_inv s t l -> bystander (k_mem s) tp (owned (k_mem s) t l) -> 0 <= sz <= TRAPFRAME ->
  (forall va, 0 <= va -> va / PGSIZE < npages sz -> has PTE_V (pt_leaf (k_mem s) t va) = false) ->
  exists r s' t' l', uvmcopy (pt_root tp) (pt_root t) sz s = Ret r s' /\
    as_inv s' t' l' /\ pt_root t' = pt_root t /\ bystander (k_mem s') tp (owned (k_mem s') t' l') /\
    (forall p, owned (k_mem s') t' l' p <-> owned (k_mem s) t l p) /\
    (forall va, uread (k_mem s') tp va = uread (k_mem s) tp va) /\
    ((r = 0 /\ forall va, 0 <= va < sz ->
        uread (k_mem s') t' va = uread (k_mem s) tp va /\ writable (k_mem s') t' va = writable (k_mem s) tp va) \/
     (r = -1 /\ Z.of_nat (length l) < 3 * npages sz /\ forall va, 0 <= va < sz -> uread (k_mem s') t' va = None)).
Proof.
  intros Hq Hi B Hsz He.
  destruct (uvmcopy_spec s t l tp sz Hq Hi B Hsz He) as (r & s' & t' & l' & E & [[-> Hc]|(-> & C & B' & U & H0)] & Hl);
    [pose proof Hc as [C B' U _]; exists 0|exists (-1)]; exists s', t', l'; split_and!; try (by apply C || done);
    try (intros va; by eapply undisturbed_uread).
  - left. split; [done|]. intros va Hva. apply (cloning_uread s t l tp s' t' l' sz va B ltac:(lia) Hc Hva).
  - right. split; [done|]. split; [lia|]. intros va Hva. unfold uread, readable. rewrite H0 by (lia || by apply (below_pages va sz)).
    by rewrite andb_false_r.
Qed.
End UvmCopy.

(** * A parent and a child *)

Module ForkSample.
#[local] Existing Instance sample_layout.

(** The parent is the sample process of UserMem.v; the child has an empty root
    table. *)
Definition R2 := KERNBASE + 0x54000.
Definition child : ptree := mk_ptree R2 ∅ ∅.

Lemma child_leaf va : pt_leaf (k_mem Sample.st) child va = 0.
Proof. unfold pt_leaf, pt_slot. cbn. by rewrite lookup_empty. Qed.

Lemma child_table p : is_table child p -> p = R2.
Proof. intros [n Hn]. destruct n as [|i|i j]; cbn in Hn; rewrite ?lookup_empty in Hn; by simplify_eq. Qed.

Lemma child_wf : pt_wf (k_mem Sample.st) child.
Proof.
  constructor.
  - intros n1 n2 p H1 H2. destruct n1, n2; cbn in *; rewrite ?lookup_empty in *; done.
  - intros n p H. rewrite (child_table p) by (by exists n). split; [done|]. cbn. unfold R2. lia.
  - intros i Hi. cbn. rewrite lookup_empty. apply Sample.load_st; unfold R2, Sample.R, Sample.A, Sample.B; lia.
  - intros i j p H. cbn in H. by rewrite lookup_empty in H.
  - intros i p H. cbn in H. by rewrite lookup_empty in H.
  - intros i j p H. cbn in H. by rewrite lookup_empty in H.
Qed.

Lemma child_inv : as_inv Sample.st child Sample.free.
Proof.
  constructor.
  - constructor; [apply Sample.kmem|apply child_wf|]. intros p ->%child_table. unfold Sample.free, R2. set_solver by lia.
  - intros va [_ Hv]. by rewrite child_leaf in Hv.
  - intros va va' [_ Hv]. by rewrite child_leaf in Hv.
  - intros va _. by rewrite child_leaf.
Qed.

Lemma parent : bystander (k_mem Sample.st) Sample.tree (owned (k_mem Sample.st) child Sample.free).
Proof.
  assert (Ho : forall p, owned (k_mem Sample.st) child Sample.free p -> p = R2 \/ p ∈ Sample.free).
  { intros p [H|[H|(va & [_ Hv] & _)]]; [left; by apply child_table|by right|by rewrite child_leaf in Hv]. }
  destruct Sample.inv as [[_ Hw Hu] Hp _ Hh]. constructor; [done| | |done].
  - intros p Ht [->|Hf]%Ho; [|by apply (Hu p)]. apply Sample.is_table_st in Ht.
    unfold R2, Sample.R, Sample.A, Sample.B in Ht. lia.
  - intros va Hva. destruct (Hp va Hva) as (H1 & _ & H3). split; [done|]. intros [E|?]%Ho; [|done].
    destruct Hva as [Hva Hv]. unfold upage in E. rewrite Sample.leaf in E, Hv by (pose proof TRAPFRAME_MAXVA; lia).
    destruct (va / PGSIZE =? 0); [|done]. rewrite PTE2PA_entry in E by (apply Sample.U_ok || done). done.
Qed.
End ForkSample.

Lemma uvmcopy_copies_witness :
  exists r s' t' l', @uvmcopy sample_layout (pt_root Sample.tree) (pt_root ForkSample.child) 4096 Sample.st = Ret r s' /\
    @as_inv sample_layout s' t' l' /\ pt_root t' = pt_root ForkSample.child /\
    @bystander sample_layout (k_mem s') Sample.tree (owned (k_mem s') t' l') /\
    (forall p, owned (k_mem s') t' l' p <-> owned (k_mem Sample.st) ForkSample.child Sample.free p) /\
    (forall va, uread (k_mem s') Sample.tree va = uread (k_mem Sample.st) Sample.tree va) /\
    ((r = 0 /\ forall va, 0 <= va < 4096 ->
        uread (k_mem s') t' va = uread (k_mem Sample.st) Sample.tree va /\
        writable (k_mem s') t' va = writable (k_mem Sample.st) Sample.tree va) \/
     (r = -1 /\ Z.of_nat (length Sample.free) < 3 * npages 4096 /\
      forall va, 0 <= va < 4096 -> uread (k_mem s') t' va = None)).
Proof.
  apply (@uvmcopy_copies sample_layout Sample.st ForkSample.child Sample.free Sample.tree 4096).
  - exact Sample.quiet_st.
  - exact ForkSample.child_inv.
  - exact ForkSample.parent.
  - done.
  - intros va _ _. by rewrite ForkSample.child_leaf.
Defined.
