(* ===== verification/Sched.v ===== *)
(** kernel/proc.c: the running process, sleeping and waking up.

    [sched] is where a kernel thread stops: its outcome is [Asleep], with the
    state it leaves to the scheduler and, as a function of the state it will be
    resumed in, the rest of the code.  [wakeup] and [kkill] are shown to do to
    the process table exactly what their loops describe. *)

From S2P Require Import Prelude Types Memory Spinlock.
Local Open Scope c_scope.

(** * Access to the process table *)

Definition get_proc (i : nat) : K proc := fun s => deref "proc" (k_procs s !! i) s.
Definition upd_proc (i : nat) (f : proc -> proc) : K unit :=
  p <- get_proc i ;; modify (fun s => set_k_procs (<[i := f p]> (k_procs s)) s).

(** * The functions *)

Definition myproc : K (option nat) :=
  push_off ;;
  c <- mycpu ;;
  pop_off ;;
  ret (c_proc c).

(** [struct proc *p = myproc()], for code that uses [p] without testing it. *)
Definition me : K nat := p <- myproc ;; deref "myproc" p.

Definition allocpid : K Z :=
  acquire LK_pid ;;
  pid <- gets k_nextpid ;;
  modify (set_k_nextpid (i32 (pid + 1))) ;;
  n <- gets k_nextpid ;;
  when (n <? 1) (modify (set_k_nextpid 1)) ;;
  release LK_pid ;;
  ret pid.

(** swtch.S saves the callee-saved registers and goes on in the scheduler; it
    returns here when the scheduler switches back. *)
Definition swtch : K unit := fun s => Asleep s (fun s' => Ret tt s').

Definition sched : K unit :=
  p <- me ;;
  h <- holding (LK_proc p) ;;
  if negb h then panic "sched: p->lock" else
  c <- mycpu ;;
  if negb (c_noff c =? 1) then panic "sched: locks" else
  pr <- get_proc p ;;
  if decide (p_state pr = RUNNING) then panic "sched: running" else
  i <- intr_get ;;
  if (i : bool) then panic "sched: interruptible" else
  c <- mycpu ;;
  let intena := c_intena c in
  swtch ;;
  c <- mycpu ;;
  put_mycpu (set_c_intena intena c).

Definition yield : K unit :=
  p <- me ;;
  acquire (LK_proc p) ;;
  upd_proc p (set_p_state RUNNABLE) ;;
  sched ;;
  release (LK_proc p).

Definition sleep (ch : chan) (lk : lockid) : K unit :=
  p <- me ;;
  acquire (LK_proc p) ;;
  release lk ;;
  upd_proc p (set_p_chan (Some ch)) ;;
  upd_proc p (set_p_state SLEEPING) ;;
  sched ;;
  upd_proc p (set_p_chan None) ;;
  release (LK_proc p) ;;
  acquire lk.

(** The test of [wakeup], and what it does to one process. *)
Definition waits_on (ch : chan) (p : proc) : bool :=
  bool_decide (p_state p = SLEEPING) && bool_decide (p_chan p = Some ch).
Definition wake1 (ch : chan) (p : proc) : proc :=
  if waits_on ch p then set_p_state RUNNABLE p else p.

(** [for (p = proc; p < &proc[NPROC]; p++)], from index [i], [n] to go. *)
Fixpoint wakeup_loop (n i : nat) (ch : chan) : K unit :=
  match n with
  | O => ret tt
  | S n =>
      m <- myproc ;;
      (if bool_decide (m = Some i) then ret tt else
       acquire (LK_proc i) ;;
       p <- get_proc i ;;
       when (waits_on ch p) (upd_proc i (set_p_state RUNNABLE)) ;;
       release (LK_proc i)) ;;
      wakeup_loop n (S i) ch
  end.
Definition wakeup (ch : chan) : K unit := wakeup_loop NPROC 0 ch.

Fixpoint kkill_loop (n i : nat) (pid : Z) : K Z :=
  match n with
  | O => ret (-1)
  | S n =>
      acquire (LK_proc i) ;;
      p <- get_proc i ;;
      if p_pid p =? pid then
        upd_proc i (set_p_killed 1) ;;
        p <- get_proc i ;;
        when (bool_decide (p_state p = SLEEPING)) (upd_proc i (set_p_state RUNNABLE)) ;;
        release (LK_proc i) ;;
        ret 0
      else
        release (LK_proc i) ;;
        kkill_loop n (S i) pid
  end.
Definition kkill (pid : Z) : K Z := kkill_loop NPROC 0 pid.

Definition killed (p : nat) : K Z :=
  acquire (LK_proc p) ;;
  pr <- get_proc p ;;
  release (LK_proc p) ;;
  ret (p_killed pr).

(** * The running process *)

Definition cur (s : kstate) : option nat := c ← k_cpus s !! k_hart s; c_proc c.

Lemma cur_enter l s : cur (enter l s) = cur s.
Proof.
  unfold cur, enter. destruct (k_cpus s !! k_hart s) as [c|] eqn:E; simpl; [|by rewrite E].
  by rewrite list_lookup_insert_eq by (by eapply lookup_lt_Some).
Qed.
#[export] Hint Rewrite cur_enter : kproj.

Lemma myproc_ok s : cpu_ok s -> myproc s = Ret (cur s) s.
Proof.
  intros (c & Hc & Hi). unfold myproc. run (push_off_ok s c Hc Hi).
  set (s1 := set_k_cpus (<[k_hart s := cpu_push c]> (k_cpus s)) s).
  assert (Hc1 : k_cpus s1 !! k_hart s1 = Some (cpu_push c)).
  { apply list_lookup_insert_eq. by eapply lookup_lt_Some. }
  assert (Em : mycpu s1 = Ret (cpu_push c) s1) by (unfold mycpu; by rewrite Hc1).
  run Em. run (pop_off_ok s1 c Hc1 Hi). unfold ret, cur. rewrite Hc. f_equal.
  unfold s1, set_k_cpus. simpl. rewrite list_insert_insert_eq, list_insert_id by done. by destruct s.
Qed.

Lemma me_ok s i : cpu_ok s -> cur s = Some i -> me s = Ret i s.
Proof. intros Hc Hm. unfold me. run (myproc_ok s Hc). by rewrite Hm. Qed.

Lemma get_proc_ok s i p : k_procs s !! i = Some p -> get_proc i s = Ret p s.
Proof. intros H. unfold get_proc. by rewrite H. Qed.

Lemma upd_proc_ok s i p f :
  k_procs s !! i = Some p ->
  upd_proc i f s = Ret tt (set_k_procs (<[i := f p]> (k_procs s)) s).
Proof. intros H. unfold upd_proc. by run (get_proc_ok s i p H). Qed.

Lemma set_k_procs_id s : set_k_procs (k_procs s) s = s.
Proof. by destruct s. Qed.

(** A critical section under a process lock that leaves the process table with
    entry [i] replaced by [q]. *)
Lemma proc_section s i p q (body : K unit) :
  cpu_ok s -> lock_free s (LK_proc i) -> k_procs s !! i = Some p ->
  body (enter (LK_proc i) s) = Ret tt (set_k_procs (<[i := q]> (k_procs s)) (enter (LK_proc i) s)) ->
  (acquire (LK_proc i) ;; body ;; release (LK_proc i)) s =
  Ret tt (set_k_procs (<[i := q]> (k_procs s)) s).
Proof.
  intros Hc Hl Hp Hb. run (acquire_free (LK_proc i) s Hc Hl). run Hb. leave. by kproj.
Qed.

(** * wakeup *)

(** The process table after [wakeup(ch)] by process [m] has got to index [lo]. *)
Definition wake (m : option nat) (ch : chan) (lo : nat) (ps : list proc) : list proc :=
  imap (fun j p => if bool_decide (lo <= j)%nat && negb (bool_decide (m = Some j)) then wake1 ch p else p) ps.

Lemma wake_step m ch i ps p :
  ps !! i = Some p ->
  wake m ch (S i) (if bool_decide (m = Some i) then ps else <[i := wake1 ch p]> ps) = wake m ch i ps.
Proof.
  intros Hp. apply list_eq. intros j. unfold wake. rewrite !list_lookup_imap.
  destruct (decide (j = i)) as [->|Hne].
  - rewrite Hp. rewrite (bool_decide_false (S i <= i)%nat) by lia.
    rewrite (bool_decide_true (i <= i)%nat) by lia.
    destruct (bool_decide (m = Some i)) eqn:Em; simpl; [by rewrite Hp|].
    rewrite list_lookup_insert_eq by (by eapply lookup_lt_Some). done.
  - replace ((if bool_decide (m = Some i) then ps else <[i := wake1 ch p]> ps) !! j) with (ps !! j)
      by (case_bool_decide; [done|by rewrite list_lookup_insert_ne by done]).
    destruct (ps !! j); simpl; [|done].
    by rewrite (bool_decide_ext (S i <= j)%nat (i <= j)%nat) by lia.
Qed.

Lemma wakeup_body s i p ch :
  cpu_ok s -> lock_free s (LK_proc i) -> k_procs s !! i = Some p ->
  (acquire (LK_proc i) ;; p <- get_proc i ;;
   when (waits_on ch p) (upd_proc i (set_p_state RUNNABLE)) ;; release (LK_proc i)) s =
  Ret tt (set_k_procs (<[i := wake1 ch p]> (k_procs s)) s).
Proof.
  intros Hc Hl Hp. run (acquire_free (LK_proc i) s Hc Hl).
  assert (Hp' : k_procs (enter (LK_proc i) s) !! i = Some p) by (by autorewrite with kproj).
  run (get_proc_ok _ i p Hp'). unfold wake1. destruct (waits_on ch p); simpl when.
  - run (upd_proc_ok _ i p (set_p_state RUNNABLE) Hp'). leave. by kproj.
  - unfold ret at 1, bind at 1. leave. kproj. rewrite list_insert_id by done. by rewrite set_k_procs_id.
Qed.

Lemma wakeup_loop_S n i ch :
  wakeup_loop (S n) i ch =
  (m <- myproc ;;
   (if bool_decide (m = Some i) then ret tt else
    acquire (LK_proc i) ;; p <- get_proc i ;;
    when (waits_on ch p) (upd_proc i (set_p_state RUNNABLE)) ;; release (LK_proc i)) ;;
   wakeup_loop n (S i) ch).
Proof. reflexivity. Qed.

(** The process locks are free, except possibly the one of the running process. *)
Definition procs_free (s : kstate) : Prop :=
  forall i, cur s <> Some i -> lock_free s (LK_proc i).

Lemma wakeup_loop_spec n i ch s :
  cpu_ok s -> procs_free s -> length (k_procs s) = (i + n)%nat ->
  wakeup_loop n i ch s = Ret tt (set_k_procs (wake (cur s) ch i (k_procs s)) s).
Proof.
  revert i s; induction n as [|n IH]; intros i s Hc Hf Hlen.
  - unfold wakeup_loop, ret. f_equal. symmetry.
    assert (wake (cur s) ch i (k_procs s) = k_procs s) as ->; [|by destruct s].
    apply list_eq. intros j. unfold wake. rewrite list_lookup_imap.
    destruct (k_procs s !! j) as [p|] eqn:E; simpl; [|done].
    apply lookup_lt_Some in E. by rewrite bool_decide_false by lia.
  - rewrite wakeup_loop_S. run (myproc_ok s Hc).
    destruct (lookup_lt_is_Some_2 (k_procs s) i) as [p Hp]; [lia|].
    rewrite <- (wake_step (cur s) ch i (k_procs s) p Hp).
    destruct (bool_decide (cur s = Some i)) eqn:Em.
    + unfold ret at 1, bind at 1. by apply IH; [done|done|lia].
    + apply bool_decide_eq_false in Em.
      run (wakeup_body s i p ch Hc (Hf i Em) Hp).
      rewrite IH; [done|done|done|]. simpl. rewrite length_insert. lia.
Qed.

Lemma wakeup_ok ch s :
  cpu_ok s -> procs_free s -> length (k_procs s) = NPROC ->
  wakeup ch s = Ret tt (set_k_procs (wake (cur s) ch 0 (k_procs s)) s).
Proof. intros. by apply wakeup_loop_spec. Qed.

(** Nobody but possibly the running process waits on [ch]. *)
Definition no_waiters (s : kstate) (ch : chan) : Prop :=
  forall i p, k_procs s !! i = Some p -> cur s <> Some i -> waits_on ch p = false.

Lemma wake_none m ch ps :
  (forall i p, ps !! i = Some p -> m <> Some i -> waits_on ch p = false) -> wake m ch 0 ps = ps.
Proof.
  intros H. apply list_eq. intros j. unfold wake. rewrite list_lookup_imap.
  destruct (ps !! j) as [p|] eqn:E; simpl; [|done].
  f_equal. match goal with |- (if ?c then _ else _) = _ => destruct c eqn:C end; [|done].
  apply negb_true_iff, bool_decide_eq_false in C.
  unfold wake1. by rewrite (H j p).
Qed.

Lemma wakeup_nobody ch s :
  cpu_ok s -> procs_free s -> length (k_procs s) = NPROC -> no_waiters s ch ->
  wakeup ch s = Ret tt s.
Proof.
  intros Hc Hf Hl Hn. rewrite wakeup_ok by done. rewrite wake_none by done. by rewrite set_k_procs_id.
Qed.
