(* ===== verification/Sleeplock.v ===== *)
(** kernel/sleeplock.c.

    A sleep lock lives inside a buffer or an in-memory inode; [slid] names it.
    The loop of [acquiresleep] is bounded by the number of times the thread is
    woken up before it gets the lock, [n_wakeups]; the lemmas hold for every
    bound. *)

From S2P Require Import Prelude Types Memory Spinlock Sched.
Local Open Scope c_scope.

Inductive slid := SL_buf (i : nat) | SL_inode (i : nat).

(** The spin lock inside the sleep lock, and its address as a channel. *)
Definition lk_of (x : slid) : lockid :=
  match x with SL_buf i => LK_buf i | SL_inode i => LK_inode i end.
Definition chan_of (x : slid) : chan :=
  match x with SL_buf i => CH_buflock i | SL_inode i => CH_inodelock i end.

Definition sl_of (x : slid) (s : kstate) : option sleeplock :=
  match x with
  | SL_buf i => b_lock <$> bc_buf (k_bcache s) !! i
  | SL_inode i => i_lock <$> k_itable s !! i
  end.
Definition set_sl (x : slid) (v : sleeplock) (s : kstate) : kstate :=
  match x with
  | SL_buf i =>
      set_k_bcache (set_bc_buf (alter (set_b_lock v) i (bc_buf (k_bcache s))) (k_bcache s)) s
  | SL_inode i => set_k_itable (alter (set_i_lock v) i (k_itable s)) s
  end.

Definition get_sl (x : slid) : K sleeplock := fun s => deref "sleeplock" (sl_of x s) s.
Definition put_sl (x : slid) (v : sleeplock) : K unit := _ <- get_sl x ;; modify (set_sl x v).

(** How often a thread may be woken up and find its condition false. *)
Class Wakeups := n_wakeups : nat.

Section Sleeplock.
Context {W : Wakeups}.

Definition initsleeplock (x : slid) : K unit :=
  initlock (lk_of x) ;;
  l <- get_sl x ;; put_sl x (set_sl_locked false l) ;;
  l <- get_sl x ;; put_sl x (set_sl_pid 0 l).

(** [while (lk->locked) sleep(lk, &lk->lk);] *)
Fixpoint acquiresleep_loop (fuel : nat) (x : slid) : K unit :=
  match fuel with
  | O => nofuel
  | S fuel =>
      l <- get_sl x ;;
      if sl_locked l then sleep (chan_of x) (lk_of x) ;; acquiresleep_loop fuel x
      else ret tt
  end.

Definition acquiresleep (x : slid) : K unit :=
  acquire (lk_of x) ;;
  acquiresleep_loop (S n_wakeups) x ;;
  l <- get_sl x ;; put_sl x (set_sl_locked true l) ;;
  p <- me ;; pr <- get_proc p ;;
  l <- get_sl x ;; put_sl x (set_sl_pid (p_pid pr) l) ;;
  release (lk_of x).

Definition releasesleep (x : slid) : K unit :=
  acquire (lk_of x) ;;
  l <- get_sl x ;; put_sl x (set_sl_locked false l) ;;
  l <- get_sl x ;; put_sl x (set_sl_pid 0 l) ;;
  wakeup (chan_of x) ;;
  release (lk_of x).

Definition holdingsleep (x : slid) : K bool :=
  acquire (lk_of x) ;;
  l <- get_sl x ;;
  r <- (if sl_locked l
        then p <- me ;; pr <- get_proc p ;; ret (sl_pid l =? p_pid pr)
        else ret false) ;;
  release (lk_of x) ;;
  ret r.

(** * Uncontended behaviour *)

Lemma sl_of_enter x l s : sl_of x (enter l s) = sl_of x s.
Proof. destruct x; simpl; by autorewrite with kproj. Qed.

Lemma sl_of_set x v s sl : sl_of x s = Some sl -> sl_of x (set_sl x v s) = Some v.
Proof.
  destruct x as [i|i]; simpl; rewrite list_lookup_alter_eq.
  - by destruct (bc_buf (k_bcache s) !! i) as [[]|].
  - by destruct (k_itable s !! i) as [[]|].
Qed.

Lemma set_sl_set x v w s : set_sl x v (set_sl x w s) = set_sl x v s.
Proof.
  destruct x as [i|i]; simpl; unfold set_k_bcache, set_bc_buf, set_k_itable; simpl.
  - by rewrite list_alter_twice.
  - by rewrite list_alter_twice.
Qed.

Lemma set_sl_restore x v s s' : restore s (set_sl x v s') = set_sl x v (restore s s').
Proof. by destruct x. Qed.

Lemma set_sl_enter_hart x v l s : k_hart (set_sl x v (enter l s)) = k_hart s.
Proof. destruct x; simpl; by autorewrite with kproj. Qed.

Lemma get_sl_ok x s sl : sl_of x s = Some sl -> get_sl x s = Ret sl s.
Proof. intros H. unfold get_sl. by rewrite H. Qed.

Lemma put_sl_ok x v s sl : sl_of x s = Some sl -> put_sl x v s = Ret tt (set_sl x v s).
Proof. intros H. unfold put_sl. by run (get_sl_ok x s sl H). Qed.

(** A sleep lock update touches neither CPUs, locks nor processes. *)
Lemma set_sl_frame x v s :
  k_hart (set_sl x v s) = k_hart s /\ k_cpus (set_sl x v s) = k_cpus s /\
  k_locks (set_sl x v s) = k_locks s /\ k_procs (set_sl x v s) = k_procs s.
Proof. by destruct x. Qed.

Lemma cpu_ok_set_sl x v s : cpu_ok s -> cpu_ok (set_sl x v s).
Proof. unfold cpu_ok. by destruct x. Qed.

Lemma cur_set_sl x v s : cur (set_sl x v s) = cur s.
Proof. by destruct x. Qed.

Lemma acquiresleep_ok x s sl i p :
  cpu_ok s -> lock_free s (lk_of x) -> cur s = Some i -> k_procs s !! i = Some p ->
  sl_of x s = Some sl -> sl_locked sl = false ->
  acquiresleep x s = Ret tt (set_sl x (mk_sleeplock true (p_pid p)) s).
Proof.
  intros Hc Hl Hi Hp Hsl Hu. unfold acquiresleep. run (acquire_free _ s Hc Hl).
  set (s1 := enter (lk_of x) s).
  assert (H1 : sl_of x s1 = Some sl) by (by unfold s1; rewrite sl_of_enter).
  assert (El : acquiresleep_loop (S n_wakeups) x s1 = Ret tt s1).
  { cbn [acquiresleep_loop]. run (get_sl_ok x s1 sl H1). by rewrite Hu. }
  run El. run (get_sl_ok x s1 sl H1). run (put_sl_ok x (set_sl_locked true sl) s1 sl H1).
  set (s2 := set_sl x (set_sl_locked true sl) s1).
  assert (H2 : sl_of x s2 = Some (set_sl_locked true sl)) by (by apply (sl_of_set x _ s1 sl)).
  assert (Hc2 : cpu_ok s2) by (by apply cpu_ok_set_sl, enter_cpu_ok).
  assert (Hi2 : cur s2 = Some i) by (unfold s2, s1; by rewrite cur_set_sl, cur_enter).
  run (me_ok s2 i Hc2 Hi2).
  assert (Hp2 : k_procs s2 !! i = Some p).
  { unfold s2. destruct (set_sl_frame x (set_sl_locked true sl) s1) as (_ & _ & _ & ->).
    unfold s1. by autorewrite with kproj. }
  run (get_proc_ok s2 i p Hp2). run (get_sl_ok x s2 _ H2).
  rewrite (bind_Ret _ _ _ _ _ (put_sl_ok x (set_sl_pid (p_pid p) (set_sl_locked true sl)) s2 _ H2)).
  unfold s2. rewrite set_sl_set. unfold set_sl_pid, set_sl_locked. simpl.
  rewrite (release_enter (lk_of x) s _ Hc Hl).
  - unfold s1. by rewrite set_sl_restore, restore_enter.
  - apply set_sl_enter_hart.
  - apply set_sl_frame.
  - apply set_sl_frame.
Qed.

(** What a thread needs to call [releasesleep] without waking anybody. *)
Definition lone (s : kstate) (x : slid) : Prop :=
  procs_free s /\ length (k_procs s) = NPROC /\ no_waiters s (chan_of x).

Lemma procs_free_enter x s : cpu_ok s -> procs_free s -> procs_free (enter (lk_of x) s).
Proof.
  intros Hc Hf i Hi. rewrite cur_enter in Hi. unfold lock_free.
  rewrite enter_lock_ne; [by apply Hf|done|by destruct x].
Qed.

Lemma releasesleep_ok x s sl :
  cpu_ok s -> lock_free s (lk_of x) -> lone s x -> sl_of x s = Some sl ->
  releasesleep x s = Ret tt (set_sl x (mk_sleeplock false 0) s).
Proof.
  intros Hc Hl (Hf & Hn & Hw) Hsl. unfold releasesleep. run (acquire_free _ s Hc Hl).
  set (s1 := enter (lk_of x) s).
  assert (H1 : sl_of x s1 = Some sl) by (by unfold s1; rewrite sl_of_enter).
  run (get_sl_ok x s1 sl H1). run (put_sl_ok x (set_sl_locked false sl) s1 sl H1).
  set (s2 := set_sl x (set_sl_locked false sl) s1).
  assert (H2 : sl_of x s2 = Some (set_sl_locked false sl)) by (by apply (sl_of_set x _ s1 sl)).
  run (get_sl_ok x s2 _ H2).
  rewrite (bind_Ret _ _ _ _ _ (put_sl_ok x (set_sl_pid 0 (set_sl_locked false sl)) s2 _ H2)).
  unfold s2. rewrite set_sl_set. unfold set_sl_pid, set_sl_locked. simpl sl_locked.
  set (s3 := set_sl x (mk_sleeplock false 0) s1).
  assert (Ew : wakeup (chan_of x) s3 = Ret tt s3).
  { destruct (set_sl_frame x (mk_sleeplock false 0) s1) as (Eh & Ec & El & Ep).
    assert (Ek : k_procs s3 = k_procs s) by (unfold s3; rewrite Ep; unfold s1; by autorewrite with kproj).
    assert (Em : cur s3 = cur s) by (unfold s3, s1; by rewrite cur_set_sl, cur_enter).
    apply wakeup_nobody.
    - by apply cpu_ok_set_sl, enter_cpu_ok.
    - intros i Hi. rewrite Em in Hi. unfold lock_free, s3. rewrite El.
      apply (procs_free_enter x s Hc Hf). by rewrite cur_enter.
    - by rewrite Ek.
    - intros i p. rewrite Ek, Em. apply Hw. }
  run Ew. rewrite (release_enter (lk_of x) s _ Hc Hl).
  - unfold s3, s1. by rewrite set_sl_restore, restore_enter.
  - apply set_sl_enter_hart.
  - apply set_sl_frame.
  - apply set_sl_frame.
Qed.

Lemma holdingsleep_ok x s sl i p :
  cpu_ok s -> lock_free s (lk_of x) -> cur s = Some i -> k_procs s !! i = Some p ->
  sl_of x s = Some sl ->
  holdingsleep x s = Ret (sl_locked sl && (sl_pid sl =? p_pid p)) s.
Proof.
  intros Hc Hl Hi Hp Hsl. unfold holdingsleep. run (acquire_free _ s Hc Hl).
  set (s1 := enter (lk_of x) s).
  assert (H1 : sl_of x s1 = Some sl) by (by unfold s1; rewrite sl_of_enter).
  run (get_sl_ok x s1 sl H1).
  assert (Er : (if sl_locked sl then p <- me ;; pr <- get_proc p ;; ret (sl_pid sl =? p_pid pr)
                else ret false) s1 = Ret (sl_locked sl && (sl_pid sl =? p_pid p)) s1).
  { destruct (sl_locked sl); [|done].
    assert (Hi1 : cur s1 = Some i) by (unfold s1; by rewrite cur_enter).
    run (me_ok s1 i (enter_cpu_ok _ _ Hc) Hi1).
    assert (Hp1 : k_procs s1 !! i = Some p) by (unfold s1; by autorewrite with kproj).
    by run (get_proc_ok s1 i p Hp1). }
  run Er. unfold s1. leave. by kproj.
Qed.

End Sleeplock.
