(* ===== verification/Bio.v ===== *)
(** kernel/bio.c: the buffer cache.

    The cache is what the code has: an array of buffers on a doubly linked
    circular list through [prev] and [next], in LRU order, with the list head
    as an extra node ([HEAD]).  The disk driver is an interface, [DiskDriver],
    with the contract bio.c relies on.

    Clients see less: [rep s U] says that the blocks in use are those of the map
    [U], each in one buffer with a reference count and contents, and that every
    other block has the contents the disk has.  Caching and LRU replacement do
    not show. *)

From S2P Require Import Prelude Types Memory Spinlock Sched Sleeplock.
Local Open Scope c_scope.

(** * The disk *)

Definition zero_block : list Z := replicate (Z.to_nat BSIZE) 0.
Definition dk_block (d : disk) (n : Z) : list Z := default zero_block (dk_blocks d !! n).
Definition dk_write (d : disk) (n : Z) (v : list Z) : disk :=
  mk_disk (<[n := v]> (dk_blocks d)) (dk_writes d ++ [(n, v)]).

(** The channels the file system sleeps on. *)
Definition fs_chan (ch : chan) : bool :=
  match ch with
  | CH_log | CH_disk_free | CH_buf _ | CH_buflock _ | CH_inodelock _ => true
  | _ => false
  end.

(** A process runs file-system code, holds no spin lock, and no other process
    is waiting for the file system. *)
Record calm (s : kstate) : Prop := {
  calm_cpu : exists c, k_cpus s !! k_hart s = Some c /\ cpu_inv c /\ c_noff c = 0;
  calm_locks : k_locks s = ∅;
  calm_cur : exists i p, cur s = Some i /\ k_procs s !! i = Some p;
  calm_len : length (k_procs s) = NPROC;
  calm_wait : forall ch, fs_chan ch = true -> no_waiters s ch;
  calm_run : forall i p, cur s = Some i -> k_procs s !! i = Some p -> p_state p = RUNNING /\ p_chan p = None
}.

(** [myproc()->pid] *)
Definition cur_pid (s : kstate) : option Z := i ← cur s; p_pid <$> k_procs s !! i.

Definition get_buf (i : nat) : K buf := fun s => deref "buf" (bc_buf (k_bcache s) !! i) s.
Definition put_buf (i : nat) (b : buf) : K unit :=
  modify (fun s => set_k_bcache (set_bc_buf (<[i := b]> (bc_buf (k_bcache s))) (k_bcache s)) s).
Definition upd_buf (i : nat) (f : buf -> buf) : K unit := b <- get_buf i ;; put_buf i (f b).

(** virtio_disk.c as bio.c sees it. *)
Class DiskDriver := virtio_disk_rw : nat -> bool -> K unit.

Class DiskContract `{D : DiskDriver} : Prop := {
  rw_read s i b :
    calm s -> bc_buf (k_bcache s) !! i = Some b -> b_disk b = false -> 0 <= b_blockno b < 2 ^ 31 ->
    virtio_disk_rw i false s =
      put_buf i (set_b_data (dk_block (k_disk s) (b_blockno b)) b) s;
  rw_write s i b :
    calm s -> bc_buf (k_bcache s) !! i = Some b -> b_disk b = false -> 0 <= b_blockno b < 2 ^ 31 ->
    virtio_disk_rw i true s = Ret tt (set_k_disk (dk_write (k_disk s) (b_blockno b) (b_data b)) s)
}.

(** * The list of buffers *)

Definition HEAD : nat := NBUF.

Definition nxt (bc : bcache) (x : nat) : option nat :=
  if decide (x = HEAD) then Some (bc_head_next bc) else b_next <$> bc_buf bc !! x.
Definition prv (bc : bcache) (x : nat) : option nat :=
  if decide (x = HEAD) then Some (bc_head_prev bc) else b_prev <$> bc_buf bc !! x.
Definition set_nxt (x v : nat) (bc : bcache) : bcache :=
  if decide (x = HEAD) then set_bc_head_next v bc
  else set_bc_buf (alter (set_b_next v) x (bc_buf bc)) bc.
Definition set_prv (x v : nat) (bc : bcache) : bcache :=
  if decide (x = HEAD) then set_bc_head_prev v bc
  else set_bc_buf (alter (set_b_prev v) x (bc_buf bc)) bc.

(** [x->next], [x->prev], [x->next = v], [x->prev = v] *)
Definition get_next (x : nat) : K nat := fun s => deref "next" (nxt (k_bcache s) x) s.
Definition get_prev (x : nat) : K nat := fun s => deref "prev" (prv (k_bcache s) x) s.
Definition put_next (x v : nat) : K unit :=
  _ <- get_next x ;; modify (fun s => set_k_bcache (set_nxt x v (k_bcache s)) s).
Definition put_prev (x v : nat) : K unit :=
  _ <- get_prev x ;; modify (fun s => set_k_bcache (set_prv x v (k_bcache s)) s).

Section Bio.
Context {W : Wakeups} {D : DiskDriver}.

(** * The functions *)

(** [for (b = bcache.buf; b < bcache.buf + NBUF; b++)], [n] to go *)
Fixpoint binit_loop (n b : nat) : K unit :=
  match n with
  | O => ret tt
  | S n =>
      h <- get_next HEAD ;; put_next b h ;;
      put_prev b HEAD ;;
      initsleeplock (SL_buf b) ;;
      h <- get_next HEAD ;; put_prev h b ;;
      put_next HEAD b ;;
      binit_loop n (S b)
  end.

Definition binit : K unit :=
  initlock LK_bcache ;;
  put_prev HEAD HEAD ;;
  put_next HEAD HEAD ;;
  binit_loop NBUF 0.

(** The search loops of [bget], from [b], along [step]; the fuel is the number
    of nodes of the list. *)
Fixpoint scan (fuel : nat) (step : nat -> K nat) (test : buf -> bool) (b : nat) : K (option nat) :=
  match fuel with
  | O => nofuel
  | S fuel =>
      if decide (b = HEAD) then ret None else
      x <- get_buf b ;;
      if test x then ret (Some b) else
      b' <- step b ;; scan fuel step test b'
  end.

Definition bget (dev blockno : Z) : K nat :=
  acquire LK_bcache ;;
  b <- get_next HEAD ;;
  r <- scan (S NBUF) get_next (fun b => (b_dev b =? dev) && (b_blockno b =? blockno)) b ;;
  match r with
  | Some b =>
      upd_buf b (fun x => set_b_refcnt (u32 (b_refcnt x + 1)) x) ;;
      release LK_bcache ;;
      acquiresleep (SL_buf b) ;;
      ret b
  | None =>
      b <- get_prev HEAD ;;
      r <- scan (S NBUF) get_prev (fun b => b_refcnt b =? 0) b ;;
      match r with
      | Some b =>
          upd_buf b (set_b_dev dev) ;;
          upd_buf b (set_b_blockno blockno) ;;
          upd_buf b (set_b_valid false) ;;
          upd_buf b (set_b_refcnt 1) ;;
          release LK_bcache ;;
          acquiresleep (SL_buf b) ;;
          ret b
      | None => panic "bget: no buffers"
      end
  end.

Definition bread (dev blockno : Z) : K nat :=
  b <- bget dev blockno ;;
  x <- get_buf b ;;
  when (negb (b_valid x)) (virtio_disk_rw b false ;; upd_buf b (set_b_valid true)) ;;
  ret b.

Definition bwrite (b : nat) : K unit :=
  h <- holdingsleep (SL_buf b) ;;
  if negb h then panic "bwrite" else virtio_disk_rw b true.

Definition brelse (b : nat) : K unit :=
  h <- holdingsleep (SL_buf b) ;;
  if negb h then panic "brelse" else
  releasesleep (SL_buf b) ;;
  acquire LK_bcache ;;
  upd_buf b (fun x => set_b_refcnt (u32 (b_refcnt x - 1)) x) ;;
  x <- get_buf b ;;
  when (b_refcnt x =? 0)
    (n <- get_next b ;; p <- get_prev b ;; put_prev n p ;;
     p <- get_prev b ;; n <- get_next b ;; put_next p n ;;
     h <- get_next HEAD ;; put_next b h ;;
     put_prev b HEAD ;;
     h <- get_next HEAD ;; put_prev h b ;;
     put_next HEAD b) ;;
  release LK_bcache.

Definition bpin (b : nat) : K unit :=
  acquire LK_bcache ;;
  upd_buf b (fun x => set_b_refcnt (u32 (b_refcnt x + 1)) x) ;;
  release LK_bcache.

Definition bunpin (b : nat) : K unit :=
  acquire LK_bcache ;;
  upd_buf b (fun x => set_b_refcnt (u32 (b_refcnt x - 1)) x) ;;
  release LK_bcache.

End Bio.

(** * The linked list *)

Lemma nxt_set_nxt bc x v y :
  is_Some (nxt bc x) -> nxt (set_nxt x v bc) y = if decide (x = y) then Some v else nxt bc y.
Proof.
  unfold nxt, set_nxt. intros [z Hz]. destruct (decide (x = HEAD)) as [->|Hx]; simpl.
  - repeat case_decide; congruence.
  - case_decide as E; [repeat case_decide; congruence|].
    destruct (decide (x = y)) as [->|Hne].
    + rewrite list_lookup_alter_eq. by destruct (bc_buf bc !! y).
    + by rewrite list_lookup_alter_ne.
Qed.

Lemma prv_set_prv bc x v y :
  is_Some (prv bc x) -> prv (set_prv x v bc) y = if decide (x = y) then Some v else prv bc y.
Proof.
  unfold prv, set_prv. intros [z Hz]. destruct (decide (x = HEAD)) as [->|Hx]; simpl.
  - repeat case_decide; congruence.
  - case_decide as E; [repeat case_decide; congruence|].
    destruct (decide (x = y)) as [->|Hne].
    + rewrite list_lookup_alter_eq. by destruct (bc_buf bc !! y).
    + by rewrite list_lookup_alter_ne.
Qed.

Lemma prv_set_nxt bc x v y : prv (set_nxt x v bc) y = prv bc y.
Proof.
  unfold prv, set_nxt. destruct (decide (x = HEAD)); simpl; [done|]. case_decide; [done|].
  destruct (decide (x = y)) as [->|Hne]; [rewrite list_lookup_alter_eq|by rewrite list_lookup_alter_ne].
  by destruct (bc_buf bc !! y).
Qed.

Lemma nxt_set_prv bc x v y : nxt (set_prv x v bc) y = nxt bc y.
Proof.
  unfold nxt, set_prv. destruct (decide (x = HEAD)); simpl; [done|]. case_decide; [done|].
  destruct (decide (x = y)) as [->|Hne]; [rewrite list_lookup_alter_eq|by rewrite list_lookup_alter_ne].
  by destruct (bc_buf bc !! y).
Qed.

Lemma nxt_prv_valid bc x : is_Some (nxt bc x) <-> is_Some (prv bc x).
Proof. unfold nxt, prv. case_decide; [by split|]. by rewrite !fmap_is_Some. Qed.

(** The nodes from [x] to [z], exclusive, in order. *)
Fixpoint chain (bc : bcache) (x : nat) (l : list nat) (z : nat) : Prop :=
  match l with
  | [] => nxt bc x = Some z /\ prv bc z = Some x
  | y :: l => nxt bc x = Some y /\ prv bc y = Some x /\ chain bc y l z
  end.

Definition last_of (x : nat) (l : list nat) : nat := default x (last l).

Lemma last_of_cons x y l : last_of x (y :: l) = last_of y l.
Proof. unfold last_of. rewrite last_cons. by destruct (last l). Qed.

Lemma chain_app bc x l1 b l2 z :
  chain bc x (l1 ++ b :: l2) z <-> chain bc x l1 b /\ chain bc b l2 z.
Proof. revert x; induction l1 as [|y l1 IH]; intros x; simpl; [tauto|]. rewrite IH. tauto. Qed.

Lemma chain_last bc x l z : chain bc x l z -> prv bc z = Some (last_of x l).
Proof.
  revert x; induction l as [|y l IH]; intros x; simpl; [by intros [_ ?]|].
  intros (_ & _ & H). rewrite last_of_cons. by apply IH.
Qed.

Lemma chain_first bc x l z : chain bc x l z -> nxt bc x = Some (default z (head l)).
Proof. destruct l as [|y l]; simpl; [by intros [? _]|by intros (? & _)]. Qed.

Lemma last_of_elem x l : last_of x l = x \/ last_of x l ∈ l.
Proof.
  unfold last_of. destruct (last l) as [y|] eqn:E; [|by left]. right.
  apply last_Some in E as [l' ->]. apply elem_of_app. right. by apply list_elem_of_singleton.
Qed.

Lemma chain_frame bc bc' x l z :
  (forall u, u ∈ x :: l -> nxt bc' u = nxt bc u) ->
  (forall u, u ∈ l ++ [z] -> prv bc' u = prv bc u) ->
  chain bc x l z -> chain bc' x l z.
Proof.
  revert x; induction l as [|y l IH]; intros x Hn Hp; simpl.
  - intros [H1 H2]. rewrite Hn, Hp by set_solver. done.
  - intros (H1 & H2 & H3). rewrite Hn, Hp by set_solver. split_and!; [done|done|].
    apply IH; [set_solver|set_solver|done].
Qed.

Lemma chain_last_valid bc x l z : chain bc x l z -> is_Some (nxt bc (last_of x l)).
Proof.
  revert x; induction l as [|y l IH]; intros x; simpl;
    [intros [H _]; unfold last_of; simpl; by rewrite H|].
  intros (_ & _ & H). rewrite last_of_cons. by apply IH.
Qed.

(** Making the chain that ended in [b] end in [z]. *)
Lemma chain_retarget bc x l b z p :
  chain bc x l b -> NoDup (x :: l) -> z ∉ l -> is_Some (prv bc z) -> p = last_of x l ->
  chain (set_nxt p z (set_prv z p bc)) x l z.
Proof.
  intros Hc Hnd Hz Hvz Hp.
  assert (Hvp : is_Some (nxt (set_prv z p bc) p))
    by (rewrite nxt_set_prv, Hp; by eapply chain_last_valid).
  revert x Hc Hnd Hp; induction l as [|y l IH]; intros x Hc Hnd Hp; simpl in *.
  - rewrite nxt_set_nxt, prv_set_nxt, prv_set_prv by done. unfold last_of in Hp. simpl in Hp. subst p.
    by rewrite !decide_True by done.
  - destruct Hc as (H1 & H2 & H3). apply NoDup_cons in Hnd as [Hx Hnd].
    rewrite last_of_cons in Hp. assert (Hpx : p <> x).
    { destruct (last_of_elem y l); set_solver. }
    rewrite nxt_set_nxt, prv_set_nxt, prv_set_prv, nxt_set_prv by done.
    rewrite !decide_False by set_solver. split_and!; [done|done|].
    apply IH; [set_solver|done..].
Qed.

Definition unlink (p n : nat) (bc : bcache) : bcache := set_nxt p n (set_prv n p bc).

Lemma chain_unlink bc l1 b l2 p n :
  chain bc HEAD (l1 ++ b :: l2) HEAD -> NoDup (HEAD :: l1 ++ b :: l2) ->
  nxt bc b = Some n -> prv bc b = Some p ->
  chain (unlink p n bc) HEAD (l1 ++ l2) HEAD.
Proof.
  intros Hc Hnd Hn Hp. apply chain_app in Hc as [H1 H2].
  rewrite (chain_last _ _ _ _ H1) in Hp. injection Hp as <-.
  rewrite (chain_first _ _ _ _ H2) in Hn. injection Hn as <-.
  assert (Hnd1 : NoDup (HEAD :: l1)).
  { apply NoDup_cons in Hnd as [Ha Hb]. apply NoDup_app in Hb as (Hb & _ & _).
    apply NoDup_cons. set_solver. }
  destruct l2 as [|y l2]; simpl in *.
  - rewrite app_nil_r. apply (chain_retarget bc HEAD l1 b); [done|done| |by destruct H2 as [_ ->]|done].
    apply NoDup_cons in Hnd1. tauto.
  - destruct H2 as (Hby & Hyb & H2). apply NoDup_cons in Hnd as [Hh Hnd].
    apply NoDup_app in Hnd as (_ & Hd & Hnd). apply NoDup_cons in Hnd as [Hb Hnd].
    apply NoDup_cons in Hnd as [Hy Hnd].
    assert (Hr : chain (unlink (last_of HEAD l1) y bc) HEAD l1 y).
    { apply (chain_retarget bc HEAD l1 b); [done|done|set_solver|by rewrite Hyb|done]. }
    apply chain_app. split; [done|].
    assert (Hpv : is_Some (nxt (set_prv y (last_of HEAD l1) bc) (last_of HEAD l1)))
      by (rewrite nxt_set_prv; by eapply chain_last_valid).
    unfold unlink. revert H2. apply chain_frame.
    + intros u Hu. rewrite nxt_set_nxt, nxt_set_prv by done. rewrite decide_False; [done|].
      intros Eq. rewrite <- Eq in Hu.
      destruct (last_of_elem HEAD l1) as [E|E]; [rewrite E in Hu|]; set_solver.
    + intros u Hu. rewrite prv_set_nxt, prv_set_prv by (by rewrite Hyb). rewrite decide_False; [done|].
      set_solver.
Qed.

(** Inserting [b] right after the head, where [h] was. *)
Definition push (b h : nat) (bc : bcache) : bcache :=
  set_nxt HEAD b (set_prv h b (set_prv b HEAD (set_nxt b h bc))).

Lemma chain_push bc l b h :
  chain bc HEAD l HEAD -> NoDup (HEAD :: l) -> b ∉ HEAD :: l -> is_Some (nxt bc b) ->
  nxt bc HEAD = Some h -> chain (push b h bc) HEAD (b :: l) HEAD.
Proof.
  intros Hc Hnd Hb Hvb Hh. rewrite (chain_first _ _ _ _ Hc) in Hh. injection Hh as Hh.
  assert (Hhb : h <> b) by (destruct l; simpl in Hh; set_solver).
  assert (Hvp : is_Some (prv bc b)) by (by apply nxt_prv_valid).
  assert (Hvh : is_Some (prv bc h)).
  { destruct l as [|y l]; simpl in *; subst h; [by destruct Hc as [_ ->]|by destruct Hc as (_ & -> & _)]. }
  assert (HH : is_Some (nxt bc HEAD)) by (unfold nxt; by rewrite decide_True).
  assert (N : forall u, nxt (push b h bc) u = if decide (HEAD = u) then Some b
                        else if decide (b = u) then Some h else nxt bc u).
  { intros u. unfold push. rewrite nxt_set_nxt, !nxt_set_prv, nxt_set_nxt; [done|done|].
    rewrite !nxt_set_prv, nxt_set_nxt by done. rewrite decide_False by set_solver. done. }
  assert (P : forall u, prv (push b h bc) u = if decide (h = u) then Some b
                        else if decide (b = u) then Some HEAD else prv bc u).
  { intros u. unfold push. rewrite prv_set_nxt, prv_set_prv, prv_set_prv, prv_set_nxt; [done|..].
    - by rewrite prv_set_nxt.
    - rewrite prv_set_prv, prv_set_nxt by (by rewrite prv_set_nxt). by case_decide. }
  apply NoDup_cons in Hnd as [Hnd1 Hnd2].
  split; [by rewrite N, decide_True|]. split; [rewrite P, decide_False, decide_True by done; done|].
  destruct l as [|y l]; simpl in *; subst h.
  - rewrite N, P, decide_False, !decide_True by set_solver. done.
  - rewrite N, P, decide_False, !decide_True by set_solver. split_and!; [done..|].
    destruct Hc as (_ & _ & Hc). apply NoDup_cons in Hnd2 as [Hy Hnd2]. revert Hc. apply chain_frame.
    + intros u Hu. rewrite N, !decide_False by set_solver. done.
    + intros u Hu. rewrite P, !decide_False by set_solver. done.
Qed.

(** * The abstract cache *)

(** A block in use: which buffer, how many references, whether the running
    process has it locked, and its contents. *)
Record uent := mk_uent { u_idx : nat; u_refs : Z; u_locked : bool; u_data : list Z }.

Definition ent_of (i : nat) (b : buf) : uent :=
  mk_uent i (b_refcnt b) (sl_locked (b_lock b)) (b_data b).

(** [b] is an active buffer of block [n]. *)
Record active (pid : option Z) (n : Z) (b : buf) : Prop := {
  ab_dev : b_dev b = ROOTDEV;
  ab_no : b_blockno b = n;
  ab_valid : b_valid b = true;
  ab_refs : 0 < b_refcnt b;
  ab_pid : sl_locked (b_lock b) = true -> Some (sl_pid (b_lock b)) = pid;
  ab_range : 0 <= n < 2 ^ 31
}.

Definition buf_ok (b : buf) : Prop :=
  b_disk b = false /\ 0 <= b_refcnt b < 2 ^ 32 /\ length (b_data b) = Z.to_nat BSIZE.

Record crep (bs : list buf) (d : disk) (pid : option Z) (U : gmap Z uent) : Prop := {
  cr_len : length bs = NBUF;
  cr_use : forall n e, U !! n = Some e ->
             exists b, bs !! u_idx e = Some b /\ active pid n b /\ e = ent_of (u_idx e) b;
  cr_busy : forall i b, bs !! i = Some b -> b_refcnt b <> 0 ->
              U !! b_blockno b = Some (ent_of i b);
  cr_idle : forall i b, bs !! i = Some b -> b_refcnt b = 0 ->
              sl_locked (b_lock b) = false /\
              (b_valid b = true -> b_dev b = ROOTDEV /\ b_data b = dk_block d (b_blockno b));
  cr_uniq : forall i j b c, bs !! i = Some b -> bs !! j = Some c ->
              b_dev b = ROOTDEV -> b_dev c = ROOTDEV -> b_blockno b = b_blockno c -> i = j;
  cr_ok : forall i b, bs !! i = Some b -> buf_ok b;
  cr_disk : forall n, length (dk_block d n) = Z.to_nat BSIZE
}.

Definition on_list (bc : bcache) : Prop :=
  exists ord, chain bc HEAD ord HEAD /\ ord ≡ₚ seq 0 NBUF.

Definition rep (s : kstate) (U : gmap Z uent) : Prop :=
  crep (bc_buf (k_bcache s)) (k_disk s) (cur_pid s) U /\ on_list (k_bcache s).

(** The contents of block [n]. *)
Definition blk (s : kstate) (U : gmap Z uent) (n : Z) : list Z :=
  match U !! n with Some e => u_data e | None => dk_block (k_disk s) n end.

(** Buffer [i] may become the active buffer of block [n]: it already is, or it
    is idle and no other buffer caches [n]. *)
Definition may_take (bs : list buf) (U : gmap Z uent) (i : nat) (b0 : buf) (n : Z) : Prop :=
  (b_refcnt b0 <> 0 /\ b_blockno b0 = n) \/
  (b_refcnt b0 = 0 /\ U !! n = None /\
   forall j c, bs !! j = Some c -> j <> i -> b_dev c = ROOTDEV -> b_blockno c <> n).

Ltac insert_cases H := apply list_lookup_insert_Some in H as [(<- & <- & _)|[? H]].

Section Abstract.
Context (bs : list buf) (d : disk) (pid : option Z) (U : gmap Z uent).
Hypothesis (HR : crep bs d pid U).

Lemma crep_dev i b : bs !! i = Some b -> b_refcnt b <> 0 -> active pid (b_blockno b) b.
Proof.
  intros Hi Hr. pose proof (cr_busy _ _ _ _ HR i b Hi Hr) as Hu.
  destruct (cr_use _ _ _ _ HR _ _ Hu) as (c & Hc & Ha & _). simpl in Hc. congruence.
Qed.

(** No buffer but [i] caches block [n]. *)
Definition others (i : nat) (n : Z) : Prop :=
  forall j c, bs !! j = Some c -> j <> i -> b_dev c = ROOTDEV -> b_blockno c <> n.

Lemma uniq_insert i n b :
  others i n -> b_blockno b = n ->
  forall j1 j2 c1 c2, <[i := b]> bs !! j1 = Some c1 -> <[i := b]> bs !! j2 = Some c2 ->
    b_dev c1 = ROOTDEV -> b_dev c2 = ROOTDEV -> b_blockno c1 = b_blockno c2 -> j1 = j2.
Proof.
  intros Ho Hn j1 j2 c1 c2 H1 H2 D1 D2 E. insert_cases H1; insert_cases H2.
  - done.
  - destruct (Ho j2 c2); congruence.
  - destruct (Ho j1 c1); congruence.
  - by eapply (cr_uniq _ _ _ _ HR).
Qed.

Lemma crep_take i b0 b n :
  bs !! i = Some b0 -> may_take bs U i b0 n -> active pid n b -> buf_ok b ->
  crep (<[i := b]> bs) d pid (<[n := ent_of i b]> U).
Proof.
  intros Hi Hm Ha Hok. pose proof Ha as [Hd Hn Hv Hr Hp].
  assert (Hlt : (i < length bs)%nat) by (by eapply lookup_lt_Some).
  assert (Hother : others i n).
  { intros j c Hj Hne Hdc E. destruct Hm as [[Hr0 Hn0]|(_ & _ & Ho)]; [|by eapply Ho].
    apply Hne. destruct (crep_dev i b0 Hi Hr0) as [Hd0 _ _ _ _].
    symmetry. apply (cr_uniq _ _ _ _ HR i j b0 c); congruence. }
  constructor; [rewrite length_insert; apply HR|..| |apply HR].
  - intros m e Hm'. apply lookup_insert_Some in Hm' as [[<- <-]|[Hne Hm']].
    { exists b. simpl. by rewrite list_lookup_insert_eq. }
    destruct (cr_use _ _ _ _ HR m e Hm') as (c & Hc & Hac & He). exists c.
    rewrite list_lookup_insert_ne; [done|]. intros E. rewrite <- E in Hc.
    assert (c = b0) as -> by congruence. destruct Hac as [_ Hn1 _ Hr1 _].
    destruct Hm as [[_ Hm]|[Hm _]]; [congruence|lia].
  - intros j c Hj Hc. insert_cases Hj; [rewrite Hn; apply lookup_insert_eq|].
    rewrite lookup_insert_ne; [by apply HR|].
    intros E. apply (Hother j c); [done|done| |done]. apply (crep_dev j c Hj Hc).
  - intros j c Hj Hc. insert_cases Hj; [lia|by eapply HR].
  - by apply (uniq_insert i n).
  - intros j c Hj. insert_cases Hj; [done|by eapply HR].
Qed.

(** Giving up the last reference; the contents must be on disk. *)
Lemma crep_drop i b0 b :
  bs !! i = Some b0 -> b_refcnt b0 <> 0 -> buf_ok b -> b_refcnt b = 0 ->
  sl_locked (b_lock b) = false -> b_dev b = ROOTDEV -> b_blockno b = b_blockno b0 ->
  b_data b = dk_block d (b_blockno b) ->
  crep (<[i := b]> bs) d pid (delete (b_blockno b0) U).
Proof.
  intros Hi Hr0 Hok Hr Hl Hd Hn Hdata.
  assert (Hlt : (i < length bs)%nat) by (by eapply lookup_lt_Some).
  pose proof (crep_dev i b0 Hi Hr0) as [Hd0 _ _ _ _].
  assert (Hother : others i (b_blockno b0)).
  { intros j c Hj Hne Hdc E. apply Hne. by apply (cr_uniq _ _ _ _ HR j i c b0). }
  constructor; [rewrite length_insert; apply HR|..| |apply HR].
  - intros m e Hm. apply lookup_delete_Some in Hm as [Hne Hm].
    destruct (cr_use _ _ _ _ HR m e Hm) as (c & Hc & Hac & He). exists c.
    rewrite list_lookup_insert_ne; [done|]. intros E. rewrite <- E in Hc.
    apply Hne. rewrite <- (ab_no _ _ _ Hac). congruence.
  - intros j c Hj Hc. insert_cases Hj; [done|]. rewrite lookup_delete_ne; [by apply HR|].
    intros E. apply (Hother j c); [done|done| |done]. apply (crep_dev j c Hj Hc).
  - intros j c Hj Hc. insert_cases Hj; [done|by eapply HR].
  - by apply (uniq_insert i (b_blockno b0)).
  - intros j c Hj. insert_cases Hj; [done|by eapply HR].
Qed.

End Abstract.

Lemma dk_block_write d n v m : dk_block (dk_write d n v) m = if decide (n = m) then v else dk_block d m.
Proof.
  unfold dk_block, dk_write. simpl. case_decide as E.
  - subst. by rewrite lookup_insert_eq.
  - by rewrite lookup_insert_ne.
Qed.

(** Writing a block that is in use. *)
Lemma crep_write bs d pid U n e v :
  crep bs d pid U -> U !! n = Some e -> length v = Z.to_nat BSIZE -> crep bs (dk_write d n v) pid U.
Proof.
  intros HR Hn Hv. constructor; try apply HR.
  - intros i b Hi Hr. destruct (cr_idle _ _ _ _ HR i b Hi Hr) as [H1 H2]. split; [done|].
    intros Hval. destruct (H2 Hval) as [H3 H4]. split; [done|]. rewrite dk_block_write, decide_False; [done|].
    intros ->. destruct (cr_use _ _ _ _ HR _ _ Hn) as (c & Hc & Ha & _). destruct Ha as [Hd Hno _ Hr' _ _].
    assert (i = u_idx e) as -> by (apply (cr_uniq _ _ _ _ HR i (u_idx e) b c); congruence).
    assert (b = c) as -> by congruence. lia.
  - intros m. rewrite dk_block_write. case_decide; [done|apply HR].
Qed.

(** * The functions, step by step *)

Definition with_buf (i : nat) (b : buf) (s : kstate) : kstate :=
  set_k_bcache (set_bc_buf (<[i := b]> (bc_buf (k_bcache s))) (k_bcache s)) s.

Lemma with_buf_twice i b c s : with_buf i b (with_buf i c s) = with_buf i b s.
Proof. unfold with_buf, set_k_bcache, set_bc_buf. simpl. by rewrite list_insert_insert_eq. Qed.

Lemma with_buf_lookup i b c s :
  bc_buf (k_bcache s) !! i = Some c -> bc_buf (k_bcache (with_buf i b s)) !! i = Some b.
Proof. intros H. simpl. apply list_lookup_insert_eq. by eapply lookup_lt_Some. Qed.

Lemma get_buf_ok s i b : bc_buf (k_bcache s) !! i = Some b -> get_buf i s = Ret b s.
Proof. intros H. unfold get_buf. by rewrite H. Qed.

Lemma put_buf_eq i b s : put_buf i b s = Ret tt (with_buf i b s).
Proof. reflexivity. Qed.

Lemma upd_buf_ok s i b f :
  bc_buf (k_bcache s) !! i = Some b -> upd_buf i f s = Ret tt (with_buf i (f b) s).
Proof. intros H. unfold upd_buf. by run (get_buf_ok s i b H). Qed.

Lemma upd_buf_with i b0 b f s :
  bc_buf (k_bcache s) !! i = Some b0 ->
  upd_buf i f (with_buf i b s) = Ret tt (with_buf i (f b) s).
Proof.
  intros H. rewrite (upd_buf_ok _ i b f (with_buf_lookup i b b0 s H)). by rewrite with_buf_twice.
Qed.

Lemma set_sl_buf i v b s :
  bc_buf (k_bcache s) !! i = Some b -> set_sl (SL_buf i) v s = with_buf i (set_b_lock v b) s.
Proof. intros H. unfold set_sl, with_buf. by rewrite (list_alter_insert _ _ _ b). Qed.

Lemma calm_ext s s' :
  k_hart s' = k_hart s -> k_cpus s' = k_cpus s -> k_locks s' = k_locks s -> k_procs s' = k_procs s ->
  calm s -> calm s'.
Proof.
  intros E1 E2 E3 E4 [C1 C2 C3 C4 C5 C6].
  assert (Ec : cur s' = cur s) by (unfold cur; by rewrite E1, E2).
  constructor.
  - by rewrite E1, E2.
  - by rewrite E3.
  - by rewrite Ec, E4.
  - by rewrite E4.
  - intros ch Hch i p. rewrite Ec, E4. by apply C5.
  - intros i p. rewrite Ec, E4. by apply C6.
Qed.

Lemma calm_with_buf i b s : calm s -> calm (with_buf i b s).
Proof. by apply calm_ext. Qed.

Lemma calm_cpu_ok s : calm s -> cpu_ok s.
Proof. intros [(c & H1 & H2 & _) _ _ _ _ _]. by exists c. Qed.

Lemma calm_lock_free s l : calm s -> lock_free s l.
Proof. intros [_ H _ _ _ _]. unfold lock_free. by rewrite H. Qed.

Lemma calm_procs_free s : calm s -> procs_free s.
Proof. intros H i _. by apply calm_lock_free. Qed.

Lemma calm_lone s x : calm s -> lone s x.
Proof.
  intros H. split_and!; [by apply calm_procs_free|apply H|apply H]. by destruct x.
Qed.

#[export] Hint Resolve calm_with_buf calm_cpu_ok calm_lock_free calm_procs_free calm_lone : kern.

(** ** The searches *)

Fixpoint first_buf (test : buf -> bool) (bs : list buf) (l : list nat) : option nat :=
  match l with
  | [] => None
  | y :: l => match bs !! y with
              | Some b => if test b then Some y else first_buf test bs l
              | None => first_buf test bs l
              end
  end.

Lemma first_buf_Some test bs l i :
  first_buf test bs l = Some i -> (i ∈ l) /\ exists b, bs !! i = Some b /\ test b = true.
Proof.
  induction l as [|y l IH]; simpl; [done|].
  destruct (bs !! y) as [b|] eqn:E; [destruct (test b) eqn:T|].
  - intros [= <-]. split; [by left|]. by exists b.
  - intros [H1 H2]%IH. split; [by right|done].
  - intros [H1 H2]%IH. split; [by right|done].
Qed.

Lemma first_buf_None test bs l i b :
  first_buf test bs l = None -> i ∈ l -> bs !! i = Some b -> test b = false.
Proof.
  induction l as [|y l IH]; simpl; [by intros _ ?%elem_of_nil|].
  intros H [->|Hin]%elem_of_cons Hb.
  - rewrite Hb in H. by destruct (test b).
  - destruct (bs !! y) as [c|]; [destruct (test c); [done|]|]; by apply IH.
Qed.

Definition nodes (bs : list buf) (l : list nat) : Prop :=
  forall y, y ∈ l -> y <> HEAD /\ is_Some (bs !! y).

Lemma scan_next fuel test s x l :
  chain (k_bcache s) x l HEAD -> nodes (bc_buf (k_bcache s)) l -> (length l < fuel)%nat ->
  scan fuel get_next test (default HEAD (head l)) s = Ret (first_buf test (bc_buf (k_bcache s)) l) s.
Proof.
  revert x l; induction fuel as [|fuel IH]; intros x l Hc Hn Hf; [lia|]. cbn [scan].
  destruct l as [|y l]; simpl; [done|].
  destruct (Hn y) as [Hy [b Hb]]; [by left|]. rewrite decide_False by done.
  run (get_buf_ok s y b Hb). rewrite Hb. destruct (test b); [done|].
  destruct Hc as (_ & _ & Hc).
  assert (E : get_next y s = Ret (default HEAD (head l)) s)
    by (unfold get_next; by rewrite (chain_first _ _ _ _ Hc)).
  run E. apply (IH y); [done| |simpl in Hf; lia]. intros z Hz. apply Hn. by right.
Qed.

Lemma scan_prev fuel test s l z :
  chain (k_bcache s) HEAD l z -> nodes (bc_buf (k_bcache s)) l -> (length l < fuel)%nat ->
  scan fuel get_prev test (last_of HEAD l) s = Ret (first_buf test (bc_buf (k_bcache s)) (rev l)) s.
Proof.
  revert l z; induction fuel as [|fuel IH]; intros l z Hc Hn Hf; [lia|]. cbn [scan].
  destruct l as [|y l _] using rev_ind; [done|].
  unfold last_of. rewrite last_snoc, rev_app_distr. simpl.
  destruct (Hn y) as [Hy [b Hb]]; [set_solver|]. rewrite decide_False by done.
  run (get_buf_ok s y b Hb). rewrite Hb. destruct (test b); [done|].
  apply chain_app in Hc as [Hc _].
  assert (E : get_prev y s = Ret (last_of HEAD l) s)
    by (unfold get_prev; by rewrite (chain_last _ _ _ _ Hc)).
  run E. apply (IH l y); [done| |rewrite length_app in Hf; simpl in Hf; lia]. intros u Hu. apply Hn. set_solver.
Qed.

Lemma ord_nodes bs ord : ord ≡ₚ seq 0 NBUF -> length bs = NBUF -> nodes bs ord.
Proof.
  intros Hp Hl y Hy. rewrite Hp in Hy. apply elem_of_seq in Hy. split; [unfold HEAD; lia|].
  apply lookup_lt_is_Some. lia.
Qed.

(** ** A free buffer *)

Lemma idle_exists bs d pid U :
  crep bs d pid U -> (size U < NBUF)%nat -> exists i b, bs !! i = Some b /\ b_refcnt b = 0.
Proof.
  intros HR Hs. destruct (decide (Exists (fun b => b_refcnt b = 0) bs)) as [He|He].
  { apply Exists_exists in He as (b & Hb & Hr). apply list_elem_of_lookup in Hb as [i Hi]. by exists i, b. }
  exfalso. assert (Hall : forall i b, bs !! i = Some b -> b_refcnt b <> 0).
  { intros i b Hi Hr. apply He. apply Exists_exists. exists b. split; [by eapply list_elem_of_lookup_2|done]. }
  assert (Hnd : NoDup (b_blockno <$> bs)).
  { apply NoDup_alt. intros i j n Hi Hj. apply list_lookup_fmap_Some in Hi as (b & E1 & Hi).
    apply list_lookup_fmap_Some in Hj as (c & E2 & Hj).
    apply (cr_uniq _ _ _ _ HR i j b c); [done..| | |congruence].
    - apply (crep_dev _ _ _ _ HR i b Hi). by eapply Hall.
    - apply (crep_dev _ _ _ _ HR j c Hj). by eapply Hall. }
  assert (Hsub : list_to_set (b_blockno <$> bs) ⊆ dom U).
  { intros n Hn. apply elem_of_list_to_set, list_elem_of_fmap in Hn as (b & -> & Hb).
    apply list_elem_of_lookup in Hb as [i Hi]. apply elem_of_dom.
    rewrite (cr_busy _ _ _ _ HR i b Hi (Hall i b Hi)). by eexists. }
  apply subseteq_size in Hsub. rewrite size_list_to_set in Hsub by done.
  rewrite length_fmap, (cr_len _ _ _ _ HR), size_dom in Hsub. lia.
Qed.

(** ** Moving a buffer to the front *)

(** The buffer without its links. *)
Definition core (b : buf) : buf := set_b_prev 0 (set_b_next 0 b).

Lemma core_fields b c :
  core b = core c ->
  b_valid b = b_valid c /\ b_disk b = b_disk c /\ b_dev b = b_dev c /\ b_blockno b = b_blockno c /\
  b_lock b = b_lock c /\ b_refcnt b = b_refcnt c /\ b_data b = b_data c.
Proof. destruct b, c. unfold core. simpl. by intros [= -> -> -> -> -> -> ->]. Qed.

Lemma core_alter f i (bs : list buf) :
  (forall b, core (f b) = core b) -> core <$> alter f i bs = core <$> bs.
Proof.
  intros Hf. apply list_eq. intros j. rewrite !list_lookup_fmap.
  destruct (decide (i = j)) as [->|Hne].
  - rewrite list_lookup_alter_eq. destruct (bs !! j); simpl; [by rewrite Hf|done].
  - by rewrite list_lookup_alter_ne.
Qed.

Lemma core_set_nxt x v bc : core <$> bc_buf (set_nxt x v bc) = core <$> bc_buf bc.
Proof. unfold set_nxt. case_decide; [done|]. simpl. by apply core_alter. Qed.

Lemma core_set_prv x v bc : core <$> bc_buf (set_prv x v bc) = core <$> bc_buf bc.
Proof. unfold set_prv. case_decide; [done|]. simpl. by apply core_alter. Qed.

Lemma core_ent b c i : core b = core c -> ent_of i b = ent_of i c.
Proof. intros (_ & _ & _ & _ & H5 & H6 & H7)%core_fields. unfold ent_of. by rewrite H5, H6, H7. Qed.

Lemma core_active pid n b c : core b = core c -> active pid n b -> active pid n c.
Proof.
  intros (H1 & _ & H3 & H4 & H5 & H6 & _)%core_fields [A1 A2 A3 A4 A5 A6].
  constructor; [congruence..| |exact A6]. rewrite <- H5. exact A5.
Qed.

(** The links do not matter to the abstract cache. *)
Lemma crep_core bs bs' d pid U : core <$> bs' = core <$> bs -> crep bs d pid U -> crep bs' d pid U.
Proof.
  intros HC HR.
  assert (Hb : forall i b', bs' !! i = Some b' -> exists b, bs !! i = Some b /\ core b' = core b).
  { intros i b' Hi. assert (E : (core <$> bs') !! i = (core <$> bs) !! i) by (by rewrite HC).
    rewrite !list_lookup_fmap, Hi in E. simpl in E. destruct (bs !! i) as [b|]; [|done].
    exists b. split; [done|]. simpl in E. congruence. }
  assert (Hf : forall i b, bs !! i = Some b -> exists b', bs' !! i = Some b' /\ core b = core b').
  { intros i b Hi. assert (E : (core <$> bs') !! i = (core <$> bs) !! i) by (by rewrite HC).
    rewrite !list_lookup_fmap, Hi in E. simpl in E. destruct (bs' !! i) as [b'|]; [|done].
    exists b'. split; [done|]. simpl in E. congruence. }
  constructor.
  - rewrite <- (length_fmap core bs'), HC, length_fmap. apply HR.
  - intros n e Hn. destruct (cr_use _ _ _ _ HR n e Hn) as (b & H1 & H2 & H3).
    destruct (Hf _ b H1) as (b' & H1' & Hc). exists b'. split_and!; [done|by eapply core_active|].
    by rewrite <- (core_ent b b').
  - intros i b' Hi Hr. destruct (Hb i b' Hi) as (b & H1 & Hc).
    pose proof (core_fields _ _ Hc) as (_ & _ & _ & E4 & _ & E6 & _).
    rewrite E4, (core_ent b' b) by done. apply HR; [done|congruence].
  - intros i b' Hi Hr. destruct (Hb i b' Hi) as (b & H1 & Hc).
    pose proof (core_fields _ _ Hc) as (E1 & _ & E3 & E4 & E5 & E6 & E7).
    rewrite E1, E3, E4, E5, E7. apply (cr_idle _ _ _ _ HR i b); congruence.
  - intros i j b c Hi Hj D1 D2 E. destruct (Hb i b Hi) as (b1 & H1 & C1), (Hb j c Hj) as (c1 & H2 & C2).
    apply core_fields in C1 as (_ & _ & X1 & X2 & _), C2 as (_ & _ & Y1 & Y2 & _).
    apply (cr_uniq _ _ _ _ HR i j b1 c1); congruence.
  - intros i b' Hi. destruct (Hb i b' Hi) as (b & H1 & Hc).
    destruct (cr_ok _ _ _ _ HR i b H1) as (O1 & O2 & O3).
    apply core_fields in Hc as (_ & E2 & _ & _ & _ & E6 & E7). unfold buf_ok. by rewrite E2, E6, E7.
  - apply HR.
Qed.

(** The body of the [if] in [brelse]. *)
Definition move_front (b : nat) : K unit :=
  n <- get_next b ;; p <- get_prev b ;; put_prev n p ;;
  p <- get_prev b ;; n <- get_next b ;; put_next p n ;;
  h <- get_next HEAD ;; put_next b h ;;
  put_prev b HEAD ;;
  h <- get_next HEAD ;; put_prev h b ;;
  put_next HEAD b.

Lemma get_next_ok s x v : nxt (k_bcache s) x = Some v -> get_next x s = Ret v s.
Proof. intros H. unfold get_next. by rewrite H. Qed.
Lemma get_prev_ok s x v : prv (k_bcache s) x = Some v -> get_prev x s = Ret v s.
Proof. intros H. unfold get_prev. by rewrite H. Qed.
Lemma put_next_ok s x v : is_Some (nxt (k_bcache s) x) ->
  put_next x v s = Ret tt (set_k_bcache (set_nxt x v (k_bcache s)) s).
Proof. intros [w H]. unfold put_next. by run (get_next_ok s x w H). Qed.
Lemma put_prev_ok s x v : is_Some (prv (k_bcache s) x) ->
  put_prev x v s = Ret tt (set_k_bcache (set_prv x v (k_bcache s)) s).
Proof. intros [w H]. unfold put_prev. by run (get_prev_ok s x w H). Qed.

Lemma chain_valid bc x l z u : chain bc x l z -> u ∈ l -> is_Some (nxt bc u) /\ is_Some (prv bc u).
Proof.
  revert x; induction l as [|y l IH]; intros x Hc Hu; [by apply elem_of_nil in Hu|].
  destruct Hc as (H1 & H2 & H3). apply elem_of_cons in Hu as [->|Hu]; [|by eapply IH].
  split; [|by rewrite H2]. rewrite (chain_first _ _ _ _ H3). by eexists.
Qed.

Lemma move_front_ok s l1 b l2 :
  chain (k_bcache s) HEAD (l1 ++ b :: l2) HEAD -> NoDup (HEAD :: l1 ++ b :: l2) ->
  exists bc, move_front b s = Ret tt (set_k_bcache bc s) /\
    chain bc HEAD (b :: l1 ++ l2) HEAD /\ core <$> bc_buf bc = core <$> bc_buf (k_bcache s).
Proof.
  intros Hc Hnd. destruct (chain_valid _ _ _ _ b Hc) as [[n Hn] [p Hp]]; [set_solver|].
  pose proof (chain_unlink _ _ _ _ p n Hc Hnd Hn Hp) as Hu.
  apply chain_app in Hc as Hc'. destruct Hc' as [Hc1 Hc2].
  assert (En : n = default HEAD (head l2)) by (rewrite (chain_first _ _ _ _ Hc2) in Hn; congruence).
  assert (Ep : p = last_of HEAD l1) by (rewrite (chain_last _ _ _ _ Hc1) in Hp; congruence).
  assert (HbH : b <> HEAD) by (apply NoDup_cons in Hnd as [H _]; set_solver).
  assert (Hnb : n <> b).
  { apply NoDup_cons in Hnd as [_ Hnd]. apply NoDup_app in Hnd as (_ & _ & Hnd). apply NoDup_cons in Hnd as [Hnd _].
    subst n. destruct l2; simpl; set_solver. }
  assert (Hvn : is_Some (prv (k_bcache s) n)).
  { subst n. destruct l2 as [|y l2]; simpl; [unfold prv; by rewrite decide_True|].
    destruct (chain_valid _ _ _ _ y Hc2); [set_solver|done]. }
  assert (Hvp : is_Some (nxt (k_bcache s) p)) by (subst p; by eapply chain_last_valid).
  unfold move_front. run (get_next_ok s b n Hn). run (get_prev_ok s b p Hp). run (put_prev_ok s n p Hvn).
  set (s1 := set_k_bcache _ s).
  assert (Hp1 : prv (k_bcache s1) b = Some p) by (simpl; by rewrite prv_set_prv, decide_False).
  assert (Hn1 : nxt (k_bcache s1) b = Some n) by (simpl; by rewrite nxt_set_prv).
  run (get_prev_ok s1 b p Hp1). run (get_next_ok s1 b n Hn1).
  assert (Hvp1 : is_Some (nxt (k_bcache s1) p)) by (simpl; by rewrite nxt_set_prv).
  run (put_next_ok s1 p n Hvp1). simpl. fold (unlink p n (k_bcache s)).
  set (bc2 := unlink p n (k_bcache s)) in *. fold (set_k_bcache bc2 s). set (s2 := set_k_bcache bc2 s).
  pose proof (chain_first _ _ _ _ Hu) as Hh. set (h := default HEAD (head (l1 ++ l2))) in *.
  run (get_next_ok s2 HEAD h Hh).
  assert (Hvb : is_Some (nxt bc2 b)).
  { unfold bc2, unlink. rewrite nxt_set_nxt, nxt_set_prv by (by rewrite nxt_set_prv). case_decide; [by eexists|by eexists]. }
  run (put_next_ok s2 b h Hvb). simpl.
  run (put_prev_ok (set_k_bcache (set_nxt b h bc2) s) b HEAD
    ltac:(simpl; rewrite prv_set_nxt; by apply nxt_prv_valid)). simpl.
  assert (Hh2 : nxt (set_prv b HEAD (set_nxt b h bc2)) HEAD = Some h)
    by (rewrite nxt_set_prv, nxt_set_nxt, decide_False by done; done).
  run (get_next_ok (set_k_bcache (set_prv b HEAD (set_nxt b h bc2)) s) HEAD h Hh2).
  assert (Hvh : is_Some (prv bc2 h)).
  { unfold h. destruct (l1 ++ l2) as [|y l]; simpl; [unfold prv; by rewrite decide_True|].
    by destruct Hu as (_ & -> & _). }
  run (put_prev_ok (set_k_bcache (set_prv b HEAD (set_nxt b h bc2)) s) h b
    ltac:(simpl; rewrite prv_set_prv, prv_set_nxt by (rewrite prv_set_nxt; by apply nxt_prv_valid);
          case_decide; [by eexists|done])). simpl.
  rewrite put_next_ok by (unfold nxt; by rewrite decide_True). simpl. fold (push b h bc2).
  exists (push b h bc2). split; [done|]. split.
  - apply (chain_push bc2 (l1 ++ l2) b h); try done.
    + apply NoDup_cons in Hnd as [H1 H2]. apply NoDup_app in H2 as (H2 & H3 & H4).
      apply NoDup_cons in H4 as [H4 H5]. apply NoDup_cons. split; [set_solver|].
      apply NoDup_app. set_solver.
    + apply NoDup_cons in Hnd as [H1 H2]. apply NoDup_app in H2 as (H2 & H3 & H4).
      apply NoDup_cons in H4 as [H4 H5]. set_solver.
  - unfold push, bc2, unlink. by rewrite core_set_nxt, !core_set_prv, !core_set_nxt, core_set_prv.
Qed.

(** * Specifications *)

Lemma restore_with_buf i b l s : restore s (with_buf i b (enter l s)) = with_buf i b s.
Proof. unfold with_buf. kproj. done. Qed.

Lemma with_buf_hart i b s : k_hart (with_buf i b s) = k_hart s.
Proof. done. Qed.

Lemma chain_ext bc bc' x l z :
  (forall u, nxt bc' u = nxt bc u) -> (forall u, prv bc' u = prv bc u) ->
  chain bc x l z -> chain bc' x l z.
Proof. intros H1 H2. by apply chain_frame. Qed.

Lemma on_list_with_buf s i b b0 :
  bc_buf (k_bcache s) !! i = Some b0 -> b_next b = b_next b0 -> b_prev b = b_prev b0 ->
  on_list (k_bcache s) -> on_list (k_bcache (with_buf i b s)).
Proof.
  intros Hi Hn Hp (ord & Hc & Ho). exists ord. split; [|done]. revert Hc. apply chain_ext.
  - intros u. unfold nxt. case_decide; [done|]. simpl. destruct (decide (u = i)) as [->|Hne].
    + rewrite list_lookup_insert_eq by (by eapply lookup_lt_Some). rewrite Hi. simpl. by rewrite Hn.
    + by rewrite list_lookup_insert_ne.
  - intros u. unfold prv. case_decide; [done|]. simpl. destruct (decide (u = i)) as [->|Hne].
    + rewrite list_lookup_insert_eq by (by eapply lookup_lt_Some). rewrite Hi. simpl. by rewrite Hp.
    + by rewrite list_lookup_insert_ne.
Qed.

Lemma calm_pid s : calm s -> exists i p, cur s = Some i /\ k_procs s !! i = Some p /\ cur_pid s = Some (p_pid p).
Proof.
  intros [_ _ (i & p & H1 & H2) _ _]. exists i, p. split_and!; [done..|].
  unfold cur_pid. by rewrite H1; simpl; rewrite H2.
Qed.

Section Specs.
Context {W : Wakeups} `{DC : DiskContract}.

(** The end of [bget]. *)
Lemma bget_tail s i b0 b1 :
  calm s -> bc_buf (k_bcache s) !! i = Some b0 -> sl_locked (b_lock b1) = false ->
  exists v, (release LK_bcache ;; acquiresleep (SL_buf i) ;; ret i) (with_buf i b1 (enter LK_bcache s)) =
    Ret i (with_buf i (set_b_lock v b1) s) /\
  sl_locked v = true /\ Some (sl_pid v) = cur_pid s.
Proof.
  intros Hc Hi Hl. destruct (calm_pid s Hc) as (k & p & Hk & Hp & Hpid).
  pose proof (calm_cpu_ok s Hc) as Hcpu. pose proof (calm_lock_free s LK_bcache Hc) as Hlk.
  exists (mk_sleeplock true (p_pid p)). split; [|by rewrite Hpid]. leave. rewrite restore_with_buf.
  set (s2 := with_buf i b1 s). pose proof (with_buf_lookup i b1 b0 s Hi) as Hi2.
  assert (Ha : acquiresleep (SL_buf i) s2 = Ret tt (set_sl (SL_buf i) (mk_sleeplock true (p_pid p)) s2)).
  { apply (acquiresleep_ok _ s2 (b_lock b1) k p);
      [by apply calm_cpu_ok, calm_with_buf|by apply calm_lock_free, calm_with_buf|done|done| |done].
    unfold sl_of, s2. by rewrite Hi2. }
  run Ha. rewrite (set_sl_buf i _ b1 s2 Hi2). unfold s2. by rewrite with_buf_twice.
Qed.

(** What [bget] returns: buffer [i], taken for block [n], locked. *)
Record got (s : kstate) (U : gmap Z uent) (n : Z) (i : nat) (b0 b : buf) : Prop := {
  got_old : bc_buf (k_bcache s) !! i = Some b0;
  got_may : may_take (bc_buf (k_bcache s)) U i b0 n;
  got_dev : b_dev b = ROOTDEV;
  got_no : b_blockno b = n;
  got_lock : sl_locked (b_lock b) = true /\ Some (sl_pid (b_lock b)) = cur_pid s;
  got_refs : b_refcnt b = b_refcnt b0 + 1;
  got_links : b_next b = b_next b0 /\ b_prev b = b_prev b0;
  got_disk : b_disk b = false;
  got_data : b_data b = b_data b0;
  got_valid : b_valid b = true -> b_data b = blk s U n;
  got_fresh : b_valid b = false -> U !! n = None
}.

Definition refs (U : gmap Z uent) (n : Z) : Z :=
  match U !! n with Some e => u_refs e | None => 0 end.

(** [bread(n)] is allowed: the driver can address the block, the block is not
    locked already, there is a buffer for it, and the count does not overflow. *)
Definition can_read (U : gmap Z uent) (n : Z) : Prop :=
  0 <= n < 2 ^ 31 /\
  match U !! n with
  | Some e => u_locked e = false /\ u_refs e + 1 < 2 ^ 32
  | None => (size U < NBUF)%nat
  end.

Lemma bget_hit s U n i b0 :
  calm s -> rep s U -> can_read U n -> bc_buf (k_bcache s) !! i = Some b0 ->
  b_dev b0 = ROOTDEV -> b_blockno b0 = n ->
  exists b, (upd_buf i (fun x => set_b_refcnt (u32 (b_refcnt x + 1)) x) ;;
             release LK_bcache ;; acquiresleep (SL_buf i) ;; ret i) (enter LK_bcache s) =
    Ret i (with_buf i b s) /\ got s U n i b0 b.
Proof.
  intros Hc [HR Ho] Hcan Hi Hd Hn.
  assert (Hb : bc_buf (k_bcache (enter LK_bcache s)) !! i = Some b0) by (by autorewrite with kproj).
  run (upd_buf_ok _ i b0 (fun x => set_b_refcnt (u32 (b_refcnt x + 1)) x) Hb).
  destruct (cr_ok _ _ _ _ HR i b0 Hi) as (Hdk & Hrr & Hlen).
  assert (Hcase : may_take (bc_buf (k_bcache s)) U i b0 n /\ sl_locked (b_lock b0) = false /\
                  b_refcnt b0 + 1 < 2 ^ 32 /\ (b_valid b0 = true -> b_data b0 = blk s U n) /\
                  (b_valid b0 = false -> U !! n = None)).
  { unfold can_read in Hcan. destruct (decide (b_refcnt b0 = 0)) as [Hr|Hr].
    - destruct (cr_idle _ _ _ _ HR i b0 Hi Hr) as [Hl Hv].
      assert (Hnone : U !! n = None).
      { destruct (U !! n) as [e|] eqn:E; [|done]. exfalso.
        destruct (cr_use _ _ _ _ HR n e E) as (c & Hc' & Ha & _). destruct Ha as [Hd' Hn' _ Hr' _ _].
        assert (i = u_idx e) as -> by (apply (cr_uniq _ _ _ _ HR i (u_idx e) b0 c); congruence).
        assert (c = b0) by congruence. subst c. lia. }
      split_and!; [|done|lia| |done].
      + right. split_and!; [done|done|]. intros j c Hj Hne Hdc E.
        apply Hne. apply (cr_uniq _ _ _ _ HR j i c b0); congruence.
      + intros Hval. destruct (Hv Hval) as [_ ->]. unfold blk. by rewrite Hnone, Hn.
    - pose proof (cr_busy _ _ _ _ HR i b0 Hi Hr) as Hu. rewrite Hn in Hu. rewrite Hu in Hcan.
      destruct Hcan as (_ & Hl & Hb2). simpl in Hl, Hb2. split_and!; [by left|done|done|..].
      + intros _. unfold blk. by rewrite Hu.
      + intros Hv. by rewrite (ab_valid _ _ _ (crep_dev _ _ _ _ HR i b0 Hi Hr)) in Hv. }
  destruct Hcase as (Hmay & Hl & Hb32 & Hdata & Hfresh).
  set (b1 := set_b_refcnt (u32 (b_refcnt b0 + 1)) b0).
  destruct (bget_tail s i b0 b1 Hc Hi Hl) as (v & E & Hv1 & Hv2). rewrite E.
  exists (set_b_lock v b1). split; [done|].
  constructor; simpl; try done. by apply wrap_small; lia.
Qed.

Lemma bget_recycle s U n i b0 :
  calm s -> rep s U -> bc_buf (k_bcache s) !! i = Some b0 -> b_refcnt b0 = 0 ->
  (forall j c, bc_buf (k_bcache s) !! j = Some c -> b_dev c = ROOTDEV -> b_blockno c <> n) ->
  exists b, (upd_buf i (set_b_dev ROOTDEV) ;; upd_buf i (set_b_blockno n) ;;
             upd_buf i (set_b_valid false) ;; upd_buf i (set_b_refcnt 1) ;;
             release LK_bcache ;; acquiresleep (SL_buf i) ;; ret i) (enter LK_bcache s) =
    Ret i (with_buf i b s) /\ got s U n i b0 b.
Proof.
  intros Hc [HR Ho] Hi Hr Hno.
  assert (Hb : bc_buf (k_bcache (enter LK_bcache s)) !! i = Some b0) by (by autorewrite with kproj).
  assert (Hnone : U !! n = None).
  { destruct (U !! n) as [e|] eqn:E; [|done]. exfalso.
    destruct (cr_use _ _ _ _ HR n e E) as (c & Hc' & [Hd' Hn' _ _ _ _] & _). by apply (Hno _ c Hc'). }
  destruct (cr_idle _ _ _ _ HR i b0 Hi Hr) as [Hl _].
  run (upd_buf_ok _ i b0 (set_b_dev ROOTDEV) Hb).
  do 3 run (upd_buf_with i b0 _ _ _ Hb).
  set (b1 := set_b_refcnt 1 (set_b_valid false (set_b_blockno n (set_b_dev ROOTDEV b0)))).
  destruct (bget_tail s i b0 b1 Hc Hi Hl) as (v & E & Hv1 & Hv2). rewrite E.
  exists (set_b_lock v b1). split; [done|].
  constructor; simpl; try done; [|lia|by apply (cr_ok _ _ _ _ HR i b0)].
  right. split_and!; [done|done|]. intros j c Hj _. by apply (Hno j c).
Qed.

(** Where the two searches of [bget] lead. *)
Lemma bget_search s U n :
  calm s -> rep s U ->
  exists ord, (forall j c, bc_buf (k_bcache s) !! j = Some c -> j ∈ ord /\ j ∈ rev ord) /\
  bget ROOTDEV n s =
    match first_buf (fun b => (b_dev b =? ROOTDEV) && (b_blockno b =? n)) (bc_buf (k_bcache s)) ord with
    | Some b =>
        (upd_buf b (fun x => set_b_refcnt (u32 (b_refcnt x + 1)) x) ;;
         release LK_bcache ;; acquiresleep (SL_buf b) ;; ret b) (enter LK_bcache s)
    | None =>
        match first_buf (fun b => b_refcnt b =? 0) (bc_buf (k_bcache s)) (rev ord) with
        | Some b =>
            (upd_buf b (set_b_dev ROOTDEV) ;; upd_buf b (set_b_blockno n) ;; upd_buf b (set_b_valid false) ;;
             upd_buf b (set_b_refcnt 1) ;; release LK_bcache ;; acquiresleep (SL_buf b) ;; ret b) (enter LK_bcache s)
        | None => Panic "bget: no buffers" (enter LK_bcache s)
        end
    end.
Proof.
  intros Hc [HR (ord & Hch & Hord)]. exists ord.
  pose proof (calm_cpu_ok s Hc) as Hcpu. pose proof (calm_lock_free s LK_bcache Hc) as Hlk.
  split.
  { intros j c Hj. rewrite (list_elem_of_In (rev ord)), <- in_rev, <- list_elem_of_In, Hord, elem_of_seq.
    apply lookup_lt_Some in Hj. rewrite (cr_len _ _ _ _ HR) in Hj. lia. }
  unfold bget. run (acquire_free LK_bcache s Hcpu Hlk). set (s1 := enter LK_bcache s).
  assert (Ebc : k_bcache s1 = k_bcache s) by (unfold s1; by autorewrite with kproj).
  pose proof (ord_nodes _ ord Hord (cr_len _ _ _ _ HR)) as Hnd.
  assert (Hlen : (length ord < S NBUF)%nat) by (rewrite Hord, length_seq; lia).
  assert (En : get_next HEAD s1 = Ret (default HEAD (head ord)) s1).
  { unfold get_next. by rewrite Ebc, (chain_first _ _ _ _ Hch). }
  run En. rewrite <- Ebc in Hch, Hnd. run (scan_next (S NBUF) _ s1 HEAD ord Hch Hnd Hlen).
  rewrite Ebc. destruct (first_buf _ _ ord) as [i|]; [done|].
  assert (Ep : get_prev HEAD s1 = Ret (last_of HEAD ord) s1).
  { unfold get_prev. by rewrite (chain_last _ _ _ _ Hch). }
  run Ep. run (scan_prev (S NBUF) (fun b => b_refcnt b =? 0) s1 ord HEAD Hch Hnd Hlen). rewrite Ebc.
  by destruct (first_buf _ _ (rev ord)).
Qed.

Lemma bget_ok s U n :
  calm s -> rep s U -> can_read U n ->
  exists i b0 b, bget ROOTDEV n s = Ret i (with_buf i b s) /\ got s U n i b0 b.
Proof.
  intros Hc HRO Hcan. destruct (bget_search s U n Hc HRO) as (ord & Hall & Eb). pose proof HRO as [HR _].
  rewrite Eb. destruct (first_buf _ _ ord) as [i|] eqn:Ef.
  - apply first_buf_Some in Ef as (_ & b0 & Hi & Ht). apply andb_true_iff in Ht as [Ht1 Ht2].
    apply Z.eqb_eq in Ht1, Ht2. destruct (bget_hit s U n i b0) as (b & E & G); try done. by exists i, b0, b.
  - assert (Hno : forall j c, bc_buf (k_bcache s) !! j = Some c -> b_dev c = ROOTDEV -> b_blockno c <> n).
    { intros j c Hj Hd Hn. pose proof (first_buf_None _ _ _ j c Ef (proj1 (Hall j c Hj)) Hj) as Ht. simpl in Ht.
      rewrite Hd, Hn, !Z.eqb_refl in Ht. done. }
    destruct (first_buf _ _ (rev ord)) as [i|] eqn:Eg.
    + apply first_buf_Some in Eg as (_ & b0 & Hi & Ht). apply Z.eqb_eq in Ht.
      destruct (bget_recycle s U n i b0) as (b & E & G); try done. by exists i, b0, b.
    + exfalso. unfold can_read in Hcan. destruct (U !! n) as [e|] eqn:E.
      * destruct (cr_use _ _ _ _ HR n e E) as (c & Hc' & [Hd' Hn' _ _ _ _] & _). by apply (Hno _ c Hc').
      * destruct (idle_exists _ _ _ _ HR (proj2 Hcan)) as (i & b & Hi & Hr).
        pose proof (first_buf_None _ _ _ i b Eg (proj2 (Hall i b Hi)) Hi) as Ht. simpl in Ht. by rewrite Hr in Ht.
Qed.

(** With every buffer in use there is none for a block that has none. *)
Lemma all_busy bs d pid U :
  crep bs d pid U -> size U = NBUF -> forall i b, bs !! i = Some b -> b_refcnt b <> 0.
Proof.
  intros HR Hs i b Hi Hr. set (l := (fun p => u_idx p.2) <$> map_to_list U).
  assert (Huse : forall n e, (n, e) ∈ map_to_list U ->
    exists c, bs !! u_idx e = Some c /\ active pid n c /\ e = ent_of (u_idx e) c).
  { intros n e H. apply elem_of_map_to_list in H. by apply (cr_use _ _ _ _ HR). }
  assert (Hnd : NoDup (i :: l)).
  { apply NoDup_cons. split.
    - intros H. apply list_elem_of_fmap in H as ([n e] & -> & H). destruct (Huse n e H) as (c & Hc & Ha & _).
      simpl in Hi. pose proof (ab_refs _ _ _ Ha). assert (c = b) by congruence. subst. lia.
    - apply NoDup_fmap_2_strong; [|apply NoDup_map_to_list]. intros [n e] [n' e'] H H' E. simpl in E.
      destruct (Huse n e H) as (c & Hc & Ha & Ee). destruct (Huse n' e' H') as (c' & Hc' & Ha' & Ee').
      rewrite E in Hc. assert (c' = c) by congruence. subst.
      rewrite <- (ab_no _ _ _ Ha), <- (ab_no _ _ _ Ha'). f_equal. rewrite Ee, Ee'. by rewrite E. }
  assert (Hsub : i :: l ⊆+ seq 0 NBUF).
  { apply NoDup_submseteq; [done|]. intros x [->|H]%elem_of_cons; apply elem_of_seq.
    - apply lookup_lt_Some in Hi. rewrite (cr_len _ _ _ _ HR) in Hi. lia.
    - apply list_elem_of_fmap in H as ([n e] & -> & H). destruct (Huse n e H) as (c & Hc & _).
      apply lookup_lt_Some in Hc. rewrite (cr_len _ _ _ _ HR) in Hc. simpl. lia. }
  apply submseteq_length in Hsub. unfold l in Hsub. cbn [length] in Hsub.
  rewrite length_seq, length_fmap, length_map_to_list in Hsub. lia.
Qed.

Lemma bread_full s U n :
  calm s -> rep s U -> size U = NBUF -> U !! n = None ->
  bread ROOTDEV n s = Panic "bget: no buffers" (enter LK_bcache s).
Proof.
  intros Hc HRO Hs Hn. destruct (bget_search s U n Hc HRO) as (ord & Hall & Eb). pose proof HRO as [HR _].
  pose proof (all_busy _ _ _ _ HR Hs) as Hbusy.
  unfold bread. apply bind_Panic. rewrite Eb. destruct (first_buf _ _ ord) as [i|] eqn:Ef.
  - apply first_buf_Some in Ef as (_ & b0 & Hi & Ht). apply andb_true_iff in Ht as [Ht1 Ht2].
    apply Z.eqb_eq in Ht1, Ht2. pose proof (cr_busy _ _ _ _ HR i b0 Hi (Hbusy i b0 Hi)) as H. congruence.
  - destruct (first_buf _ _ (rev ord)) as [i|] eqn:Eg; [|done].
    apply first_buf_Some in Eg as (_ & b0 & Hi & Ht). apply Z.eqb_eq in Ht. by destruct (Hbusy i b0 Hi).
Qed.

Lemma got_refs_eq s U n i b0 b : rep s U -> got s U n i b0 b -> b_refcnt b0 = refs U n.
Proof.
  intros [HR _] G. unfold refs. destruct (got_may _ _ _ _ _ _ G) as [[Hr Hn]|(Hr & Hn & _)].
  - pose proof (cr_busy _ _ _ _ HR i b0 (got_old _ _ _ _ _ _ G) Hr) as Hu. rewrite Hn in Hu. by rewrite Hu.
  - by rewrite Hn.
Qed.

Lemma blk_length s U n : rep s U -> length (blk s U n) = Z.to_nat BSIZE.
Proof.
  intros [HR _]. unfold blk. destruct (U !! n) as [e|] eqn:E; [|apply HR].
  destruct (cr_use _ _ _ _ HR n e E) as (b & Hb & _ & ->). by apply (cr_ok _ _ _ _ HR _ b Hb).
Qed.

(** [bread] returns the locked buffer of the block, with its contents. *)
Lemma bread_ok s U n :
  calm s -> rep s U -> can_read U n ->
  exists i b, bread ROOTDEV n s = Ret i (with_buf i b s) /\
    rep (with_buf i b s) (<[n := mk_uent i (refs U n + 1) true (blk s U n)]> U).
Proof.
  intros Hc HRO Hcan. pose proof HRO as [HR Ho]. unfold bread.
  destruct (bget_ok s U n Hc HRO Hcan) as (i & b0 & b & E & G). run E.
  pose proof (got_old _ _ _ _ _ _ G) as Hi. pose proof (with_buf_lookup i b b0 s Hi) as Hi1.
  run (get_buf_ok _ i b Hi1).
  assert (Hend : (when (negb (b_valid b)) (virtio_disk_rw i false ;; upd_buf i (set_b_valid true)) ;;
      ret i) (with_buf i b s) = Ret i (with_buf i (set_b_valid true (set_b_data (blk s U n) b)) s)).
  { destruct (b_valid b) eqn:Hv; simpl negb; unfold when.
    - unfold ret, bind. do 2 f_equal. rewrite <- (got_valid _ _ _ _ _ _ G Hv). destruct b; simpl in *; by subst.
    - assert (Erw := rw_read (with_buf i b s) i b (calm_with_buf i b s Hc) Hi1 (got_disk _ _ _ _ _ _ G)
        ltac:(rewrite (got_no _ _ _ _ _ _ G); apply Hcan)).
      rewrite put_buf_eq, with_buf_twice in Erw.
      rewrite (bind_Ret _ _ _ tt (with_buf i (set_b_valid true (set_b_data (blk s U n) b)) s)); [done|].
      run Erw. rewrite (upd_buf_with i b0 _ _ s Hi). do 3 f_equal.
      unfold blk. by rewrite (got_fresh _ _ _ _ _ _ G Hv), (got_no _ _ _ _ _ _ G). }
  exists i, (set_b_valid true (set_b_data (blk s U n) b)). split; [exact Hend|]. split.
  - pose proof (got_refs_eq s U n i b0 b HRO G) as Hrefs.
    assert (Hr0 : 0 <= refs U n < 2 ^ 32 - 1).
    { destruct (cr_ok _ _ _ _ HR i b0 Hi) as (_ & Hr & _). unfold can_read, refs in *.
      destruct (U !! n); [|lia]. lia. }
    set (b2 := set_b_valid true (set_b_data (blk s U n) b)).
    replace (mk_uent i (refs U n + 1) true (blk s U n)) with (ent_of i b2).
    2: { unfold ent_of, b2. simpl. rewrite (got_refs _ _ _ _ _ _ G), (proj1 (got_lock _ _ _ _ _ _ G)), Hrefs. done. }
    apply (crep_take _ _ _ _ HR i b0); [done|apply G|..].
    + constructor; simpl; [apply G|apply G|done| |intros _; apply G|apply Hcan].
      rewrite (got_refs _ _ _ _ _ _ G). lia.
    + split_and!; simpl; [apply G|..]; try (rewrite (got_refs _ _ _ _ _ _ G); lia).
      by apply blk_length.
  - apply (on_list_with_buf s i _ b0); [done|apply G|apply G|done].
Qed.

Lemma rep_buf s U n e :
  rep s U -> U !! n = Some e ->
  exists b, bc_buf (k_bcache s) !! u_idx e = Some b /\ active (cur_pid s) n b /\ buf_ok b /\
    b_refcnt b = u_refs e /\ sl_locked (b_lock b) = u_locked e /\ b_data b = u_data e.
Proof.
  intros [HR _] Hn. destruct (cr_use _ _ _ _ HR n e Hn) as (b & H1 & H2 & H3).
  exists b. split; [done|]. split; [done|]. split; [by apply (cr_ok _ _ _ _ HR _ b H1)|].
  destruct e as [i r l d]. simpl in *. unfold ent_of in H3. by injection H3 as -> -> ->.
Qed.

Lemma holdingsleep_held s U n e :
  calm s -> rep s U -> U !! n = Some e -> u_locked e = true ->
  holdingsleep (SL_buf (u_idx e)) s = Ret true s.
Proof.
  intros Hc HR Hn Hl. destruct (rep_buf s U n e HR Hn) as (b & Hb & Ha & _ & _ & Hlk & _).
  destruct (calm_pid s Hc) as (k & p & Hk & Hp & Hpid). rewrite Hl in Hlk.
  rewrite (holdingsleep_ok _ s (b_lock b) k p); try done.
  - rewrite Hlk. pose proof (ab_pid _ _ _ Ha Hlk) as E. rewrite Hpid in E. injection E as ->.
    by rewrite Z.eqb_refl.
  - by apply calm_cpu_ok.
  - by apply calm_lock_free.
  - unfold sl_of. by rewrite Hb.
Qed.

Lemma calm_set_disk d s : calm s -> calm (set_k_disk d s).
Proof. by apply calm_ext. Qed.

Lemma bwrite_ok s U n e :
  calm s -> rep s U -> U !! n = Some e -> u_locked e = true ->
  let s' := set_k_disk (dk_write (k_disk s) n (u_data e)) s in
  bwrite (u_idx e) s = Ret tt s' /\ rep s' U.
Proof.
  intros Hc HR Hn Hl s'. destruct (rep_buf s U n e HR Hn) as (b & Hb & Ha & Hok & _ & _ & Hd).
  split.
  - unfold bwrite. run (holdingsleep_held s U n e Hc HR Hn Hl). cbn [negb].
    rewrite (rw_write s (u_idx e) b Hc Hb (proj1 Hok)) by (rewrite (ab_no _ _ _ Ha); apply Ha). unfold s'. by rewrite (ab_no _ _ _ Ha), Hd.
  - destruct HR as [HR Ho]. split; [|exact Ho]. apply (crep_write _ _ _ _ n e); [exact HR|done|].
    rewrite <- Hd. apply Hok.
Qed.

(** Replacing fields of an active buffer without changing the links. *)
Lemma rep_update s U n e e' b b' :
  rep s U -> U !! n = Some e -> bc_buf (k_bcache s) !! u_idx e = Some b ->
  active (cur_pid s) n b' -> buf_ok b' -> b_next b' = b_next b -> b_prev b' = b_prev b ->
  e' = ent_of (u_idx e) b' ->
  rep (with_buf (u_idx e) b' s) (<[n := e']> U).
Proof.
  intros HR Hn Hb Ha Hok Hl1 Hl2 ->. destruct (rep_buf s U n e HR Hn) as (b1 & Hb1 & Ha1 & _).
  assert (b1 = b) as -> by congruence. destruct HR as [HR Ho]. split.
  - apply (crep_take _ _ _ _ HR (u_idx e) b); [done| |done|done].
    left. split; [pose proof (ab_refs _ _ _ Ha1); lia|apply Ha1].
  - by apply (on_list_with_buf s _ b' b).
Qed.

(** Changing the contents of a locked buffer. *)
Lemma bdata_ok s U n e d :
  rep s U -> U !! n = Some e -> length d = Z.to_nat BSIZE ->
  exists b', upd_buf (u_idx e) (set_b_data d) s = Ret tt (with_buf (u_idx e) b' s) /\
    rep (with_buf (u_idx e) b' s) (<[n := mk_uent (u_idx e) (u_refs e) (u_locked e) d]> U).
Proof.
  intros HR Hn Hd. destruct (rep_buf s U n e HR Hn) as (b & Hb & Ha & Hok & Er & El & _).
  exists (set_b_data d b). split; [by rewrite (upd_buf_ok s _ b)|].
  apply (rep_update s U n e _ b); try done.
  - destruct Ha. by constructor.
  - destruct Hok as (H1 & H2 & _). split; [done|]. by split.
  - unfold ent_of. simpl. by rewrite Er, El.
Qed.

Lemma pin_section s U n e (r : Z) :
  cpu_ok s -> lock_free s LK_bcache -> rep s U -> U !! n = Some e ->
  0 < u_refs e + r < 2 ^ 32 ->
  exists b', (acquire LK_bcache ;; upd_buf (u_idx e) (fun x => set_b_refcnt (u32 (b_refcnt x + r)) x) ;;
              release LK_bcache) s = Ret tt (with_buf (u_idx e) b' s) /\
    rep (with_buf (u_idx e) b' s) (<[n := mk_uent (u_idx e) (u_refs e + r) (u_locked e) (u_data e)]> U).
Proof.
  intros Hcpu Hlk HR Hn Hr. destruct (rep_buf s U n e HR Hn) as (b & Hb & Ha & Hok & Er & El & Ed).
  run (acquire_free LK_bcache s Hcpu Hlk).
  assert (Hb1 : bc_buf (k_bcache (enter LK_bcache s)) !! u_idx e = Some b) by (by autorewrite with kproj).
  run (upd_buf_ok _ _ b _ Hb1). leave. rewrite restore_with_buf.
  eexists. split; [reflexivity|]. rewrite Er, wrap_small by lia.
  apply (rep_update s U n e _ b); try done.
  - destruct Ha. constructor; simpl; try done. lia.
  - destruct Hok as (H1 & H2 & H3). split_and!; simpl; try done; lia.
  - unfold ent_of. simpl. by rewrite El, Ed.
Qed.

Lemma bpin_ok s U n e :
  cpu_ok s -> lock_free s LK_bcache -> rep s U -> U !! n = Some e -> u_refs e + 1 < 2 ^ 32 -> 0 <= u_refs e ->
  exists b', bpin (u_idx e) s = Ret tt (with_buf (u_idx e) b' s) /\
    rep (with_buf (u_idx e) b' s) (<[n := mk_uent (u_idx e) (u_refs e + 1) (u_locked e) (u_data e)]> U).
Proof. intros. apply (pin_section s U n e 1); try assumption. lia. Qed.

Lemma bunpin_ok s U n e :
  cpu_ok s -> lock_free s LK_bcache -> rep s U -> U !! n = Some e -> 1 < u_refs e -> u_refs e < 2 ^ 32 ->
  exists b', bunpin (u_idx e) s = Ret tt (with_buf (u_idx e) b' s) /\
    rep (with_buf (u_idx e) b' s) (<[n := mk_uent (u_idx e) (u_refs e - 1) (u_locked e) (u_data e)]> U).
Proof. intros. apply (pin_section s U n e (-1)); try assumption. lia. Qed.

Lemma restore_set_bcache s s' bc : restore s (set_k_bcache bc s') = set_k_bcache bc (restore s s').
Proof. reflexivity. Qed.

Lemma on_list_front s i b b0 :
  on_list (k_bcache s) -> bc_buf (k_bcache s) !! i = Some b0 -> length (bc_buf (k_bcache s)) = NBUF ->
  b_next b = b_next b0 -> b_prev b = b_prev b0 ->
  exists bc, move_front i (with_buf i b s) = Ret tt (set_k_bcache bc s) /\ on_list bc /\
    core <$> bc_buf bc = core <$> <[i := b]> (bc_buf (k_bcache s)).
Proof.
  intros Ho Hi Hlen Hn Hp. pose proof (on_list_with_buf s i b b0 Hi Hn Hp Ho) as (ord & Hc & Hord).
  assert (Hin : i ∈ ord).
  { rewrite Hord, elem_of_seq. apply lookup_lt_Some in Hi. lia. }
  apply list_elem_of_split in Hin as (l1 & l2 & ->).
  assert (Hnd : NoDup (HEAD :: l1 ++ i :: l2)).
  { apply NoDup_cons. split; [rewrite Hord, elem_of_seq; unfold HEAD; lia|]. rewrite Hord. apply NoDup_seq. }
  destruct (move_front_ok (with_buf i b s) l1 i l2 Hc Hnd) as (bc & E & Hc' & Hcore).
  exists bc. split; [rewrite E; done|]. split; [|done].
  exists (i :: l1 ++ l2). split; [done|]. rewrite <- Hord. by apply Permutation_middle.
Qed.

Lemma brelse_ok s U n e :
  calm s -> rep s U -> U !! n = Some e -> u_locked e = true ->
  (u_refs e = 1 -> u_data e = dk_block (k_disk s) n) ->
  exists bc, brelse (u_idx e) s = Ret tt (set_k_bcache bc s) /\
    rep (set_k_bcache bc s)
      (if u_refs e =? 1 then delete n U
       else <[n := mk_uent (u_idx e) (u_refs e - 1) false (u_data e)]> U).
Proof.
  intros Hc HR Hn Hl Hclean. destruct (rep_buf s U n e HR Hn) as (b & Hb & Ha & Hok & Er & El & Ed).
  set (i := u_idx e) in *. unfold brelse. run (holdingsleep_held s U n e Hc HR Hn Hl). cbn [negb].
  pose proof (calm_cpu_ok s Hc) as Hcpu.
  assert (Ers : releasesleep (SL_buf i) s = Ret tt (set_sl (SL_buf i) (mk_sleeplock false 0) s)).
  { apply (releasesleep_ok _ s (b_lock b)); auto with kern. unfold sl_of. by rewrite Hb. }
  run Ers. rewrite (set_sl_buf i _ b s Hb). set (b1 := set_b_lock (mk_sleeplock false 0) b).
  set (s1 := with_buf i b1 s). pose proof (with_buf_lookup i b1 b s Hb) as Hb1. fold s1 in Hb1.
  assert (Hc1 : cpu_ok s1) by (by apply calm_cpu_ok, calm_with_buf).
  assert (Hl1 : lock_free s1 LK_bcache) by (by apply calm_lock_free, calm_with_buf).
  run (acquire_free LK_bcache s1 Hc1 Hl1).
  assert (Hb2 : bc_buf (k_bcache (enter LK_bcache s1)) !! i = Some b1) by (by autorewrite with kproj).
  run (upd_buf_ok _ i b1 _ Hb2).
  set (b2 := set_b_refcnt (u32 (b_refcnt b1 - 1)) b1).
  run (get_buf_ok _ i b2 (with_buf_lookup i b2 b1 _ Hb2)).
  pose proof (ab_refs _ _ _ Ha) as Hr0. destruct Hok as (Hdk & Hrr & Hlen).
  assert (Hr2 : b_refcnt b2 = u_refs e - 1) by (unfold b2, b1; simpl; rewrite Er; apply wrap_small; lia).
  destruct HR as [HR Ho]. rewrite Hr2.
  destruct (Z.eqb_spec (u_refs e) 1) as [E1|E1].
  - rewrite (proj2 (Z.eqb_eq _ _)) by lia. fold (move_front i). unfold when.
    assert (Ho1 : on_list (k_bcache (enter LK_bcache s1))).
    { autorewrite with kproj. by apply (on_list_with_buf s i b1 b). }
    destruct (on_list_front (enter LK_bcache s1) i b2 b1 Ho1 Hb2) as (bc & Em & Hol & Hcore); try done.
    { autorewrite with kproj. simpl. rewrite length_insert. apply HR. }
    run Em. leave. rewrite restore_set_bcache, restore_enter. exists bc. split; [done|].
    split; [|exact Hol]. simpl. apply (crep_core (<[i := b2]> (bc_buf (k_bcache s)))).
    { rewrite Hcore. autorewrite with kproj. simpl. by rewrite list_insert_insert_eq. }
    rewrite <- (ab_no _ _ _ Ha). apply (crep_drop _ _ _ _ HR i b b2);
      [exact Hb|lia| |lia|done|apply Ha|done|].
    + split; [done|]. split; [rewrite Hr2; lia|done].
    + simpl. rewrite (ab_no _ _ _ Ha), Ed. by apply Hclean.
  - rewrite (proj2 (Z.eqb_neq _ _)) by lia. unfold when, ret at 1, bind at 1. leave.
    rewrite restore_with_buf. unfold s1. rewrite with_buf_twice. eexists. split; [reflexivity|].
    apply (rep_update s U n e _ b); try done.
    + destruct Ha as [A1 A2 A3 A4 A5 A6]. constructor; [done..|rewrite Hr2; lia|done|done].
    + split; [done|]. split; [rewrite Hr2; lia|done].
    + unfold ent_of. rewrite Hr2. simpl. by rewrite Ed.
Qed.

End Specs.

(** * Initialisation *)

(** A buffer as zeroed memory is. *)
Definition fresh (b : buf) : Prop :=
  b_refcnt b = 0 /\ b_valid b = false /\ b_dev b <> ROOTDEV /\ sl_locked (b_lock b) = false /\ buf_ok b.

Lemma fresh_crep bs d pid :
  length bs = NBUF -> Forall fresh bs -> (forall n, length (dk_block d n) = Z.to_nat BSIZE) ->
  crep bs d pid ∅.
Proof.
  intros Hl Hf Hd.
  assert (H : forall i b, bs !! i = Some b -> fresh b) by (intros i b; by apply Forall_lookup_1).
  constructor; try done.
  - intros i b Hi Hr. by destruct (H i b Hi) as (? & _).
  - intros i b Hi _. destruct (H i b Hi) as (_ & Hv & _ & Hlk & _). split; [done|congruence].
  - intros i j b c Hi _ Hdev. by destruct (H i b Hi) as (_ & _ & ? & _).
  - intros i b Hi. by destruct (H i b Hi) as (_ & _ & _ & _ & ?).
Qed.

Lemma core_length (bs bs' : list buf) : core <$> bs' = core <$> bs -> length bs' = length bs.
Proof. intros H. by rewrite <- (length_fmap core bs'), H, length_fmap. Qed.

Lemma rev_seq_elem b x : x ∈ rev (seq 0 b) <-> (x < b)%nat.
Proof. rewrite list_elem_of_In, <- in_rev, <- list_elem_of_In, elem_of_seq. lia. Qed.

Lemma fresh_core b c : core b = core c -> fresh b -> fresh c.
Proof.
  intros (E1 & E2 & E3 & E4 & E5 & E6 & E7)%core_fields. unfold fresh, buf_ok.
  by rewrite E1, E2, E3, E5, E6, E7.
Qed.

Lemma fresh_cores bs bs' : core <$> bs' = core <$> bs -> Forall fresh bs -> Forall fresh bs'.
Proof.
  intros HC H. apply Forall_lookup. intros i b' Hi.
  assert (E : (core <$> bs') !! i = (core <$> bs) !! i) by (by rewrite HC).
  rewrite !list_lookup_fmap, Hi in E. simpl in E. destruct (bs !! i) as [b|] eqn:Hb; [|done].
  simpl in E. apply (fresh_core b); [congruence|]. by apply (Forall_lookup_1 _ _ i b H).
Qed.

Lemma initlock_ok l s : k_locks s = ∅ -> initlock l s = Ret tt s.
Proof.
  intros H. unfold initlock, modify, lock_put. rewrite decide_True, H, delete_empty by done.
  rewrite <- H. by destruct s.
Qed.

Lemma initsleeplock_ok x s sl :
  k_locks s = ∅ -> sl_of x s = Some sl -> initsleeplock x s = Ret tt (set_sl x (mk_sleeplock false 0) s).
Proof.
  intros Hl Hsl. unfold initsleeplock. run (initlock_ok (lk_of x) s Hl).
  run (get_sl_ok x s sl Hsl). run (put_sl_ok x _ s sl Hsl).
  run (get_sl_ok x _ _ (sl_of_set x _ s sl Hsl)).
  rewrite (put_sl_ok x _ _ _ (sl_of_set x _ s sl Hsl)). by rewrite set_sl_set.
Qed.

Lemma set_sl_links i v s :
  (forall u, nxt (k_bcache (set_sl (SL_buf i) v s)) u = nxt (k_bcache s) u) /\
  (forall u, prv (k_bcache (set_sl (SL_buf i) v s)) u = prv (k_bcache s) u).
Proof.
  split; intros u; unfold nxt, prv; (case_decide; [done|]); simpl;
    (destruct (decide (i = u)) as [->|Hne];
     [rewrite list_lookup_alter_eq; by destruct (bc_buf (k_bcache s) !! u)
     |by rewrite list_lookup_alter_ne]).
Qed.

Lemma binit_loop_ok n b s :
  k_locks s = ∅ -> (b + n = NBUF)%nat -> length (bc_buf (k_bcache s)) = NBUF ->
  Forall fresh (bc_buf (k_bcache s)) -> chain (k_bcache s) HEAD (rev (seq 0 b)) HEAD ->
  exists bc, binit_loop n b s = Ret tt (set_k_bcache bc s) /\
    length (bc_buf bc) = NBUF /\ Forall fresh (bc_buf bc) /\ chain bc HEAD (rev (seq 0 NBUF)) HEAD.
Proof.
  revert b s; induction n as [|n IH]; intros b s Hk Hb Hlen Hf Hc.
  { exists (k_bcache s). replace NBUF with b by lia. split_and!; try done; [by destruct s|lia]. }
  cbn [binit_loop]. pose proof (chain_first _ _ _ _ Hc) as Hh.
  set (h := default HEAD (head (rev (seq 0 b)))) in *.
  destruct (lookup_lt_is_Some_2 (bc_buf (k_bcache s)) b) as [x Hx]; [lia|].
  assert (HbH : b <> HEAD) by (unfold HEAD; lia).
  assert (Hvb : is_Some (nxt (k_bcache s) b)) by (unfold nxt; rewrite decide_False, Hx by done; by eexists).
  run (get_next_ok s HEAD h Hh). run (put_next_ok s b h Hvb).
  run (put_prev_ok (set_k_bcache (set_nxt b h (k_bcache s)) s) b HEAD
    ltac:(simpl; rewrite prv_set_nxt; by apply nxt_prv_valid)). simpl.
  set (bc1 := set_prv b HEAD (set_nxt b h (k_bcache s))). fold (set_k_bcache bc1 s).
  set (s1 := set_k_bcache bc1 s).
  assert (Hcore1 : core <$> bc_buf bc1 = core <$> bc_buf (k_bcache s))
    by (unfold bc1; by rewrite core_set_prv, core_set_nxt).
  assert (Hsl : is_Some (sl_of (SL_buf b) s1)).
  { simpl. apply fmap_is_Some, lookup_lt_is_Some. rewrite <- (length_fmap core), Hcore1, length_fmap. lia. }
  destruct Hsl as [sl Hsl]. run (initsleeplock_ok (SL_buf b) s1 sl Hk Hsl).
  set (s2 := set_sl (SL_buf b) (mk_sleeplock false 0) s1).
  destruct (set_sl_links b (mk_sleeplock false 0) s1) as [Ln Lp]. fold s2 in Ln, Lp.
  assert (Hh2 : nxt (k_bcache s2) HEAD = Some h).
  { rewrite Ln. simpl. unfold bc1. by rewrite nxt_set_prv, nxt_set_nxt, decide_False. }
  run (get_next_ok s2 HEAD h Hh2).
  assert (Hvh : is_Some (prv (k_bcache s) h)).
  { unfold h. destruct (rev (seq 0 b)) as [|y l]; simpl; [unfold prv; by rewrite decide_True|].
    by destruct Hc as (_ & -> & _). }
  run (put_prev_ok s2 h b ltac:(rewrite Lp; simpl; unfold bc1;
    rewrite prv_set_prv, prv_set_nxt by (rewrite prv_set_nxt; by apply nxt_prv_valid);
    case_decide; [by eexists|done])).
  run (put_next_ok _ HEAD b ltac:(unfold nxt; by rewrite decide_True)). simpl.
  set (bc3 := set_nxt HEAD b (set_prv h b (k_bcache s2))).
  assert (Hcore3 : core <$> bc_buf bc3 = core <$> bc_buf (k_bcache s2))
    by (unfold bc3; by rewrite core_set_nxt, core_set_prv).
  assert (Hvh2 : is_Some (prv bc1 h)).
  { unfold bc1. rewrite prv_set_prv, prv_set_nxt by (rewrite prv_set_nxt; by apply nxt_prv_valid).
    case_decide; [by eexists|done]. }
  assert (HH : forall bc, is_Some (nxt bc HEAD)) by (intros bc; unfold nxt; rewrite decide_True by done; by eexists).
  destruct (IH (S b) (set_k_bcache bc3 s)) as (bc & E & H1 & H2 & H3).
  - done.
  - lia.
  - change (length (bc_buf bc3) = NBUF). rewrite (core_length _ _ Hcore3). simpl.
    by rewrite length_alter, (core_length _ _ Hcore1).
  - change (Forall fresh (bc_buf bc3)). apply (fresh_cores _ _ Hcore3). simpl.
    apply Forall_alter; [by apply (fresh_cores _ _ Hcore1)|].
    intros y Hy (F1 & F2 & F3 & F4 & F5). by repeat split; try apply F5.
  - change (chain bc3 HEAD (rev (seq 0 (S b))) HEAD). rewrite seq_S, rev_app_distr.
    change (chain bc3 HEAD (b :: rev (seq 0 b)) HEAD). apply (chain_ext (push b h (k_bcache s))).
    + intros u. unfold bc3, push. rewrite !nxt_set_nxt by done.
      case_decide; [done|]. rewrite nxt_set_prv, Ln, nxt_set_prv. done.
    + intros u. unfold bc3, push. fold bc1. rewrite !prv_set_nxt, !prv_set_prv by (rewrite ?Lp; done).
      by rewrite Lp.
    + apply chain_push; try done.
      * apply NoDup_cons. rewrite rev_seq_elem. split; [unfold HEAD; lia|].
        rewrite <- Permutation_rev. apply NoDup_seq.
      * rewrite not_elem_of_cons, rev_seq_elem. lia.
  - exists bc. split; [exact E|done].
Qed.

Lemma binit_ok s :
  k_locks s = ∅ -> bc_buf (k_bcache s) = replicate NBUF zero_buf ->
  (forall n, length (dk_block (k_disk s) n) = Z.to_nat BSIZE) ->
  exists bc, binit s = Ret tt (set_k_bcache bc s) /\ rep (set_k_bcache bc s) ∅.
Proof.
  intros Hk Hb Hd. unfold binit. run (initlock_ok LK_bcache s Hk).
  run (put_prev_ok s HEAD HEAD ltac:(unfold prv; by rewrite decide_True)).
  run (put_next_ok _ HEAD HEAD ltac:(unfold nxt; by rewrite decide_True)). simpl.
  set (bc0 := set_nxt HEAD HEAD (set_prv HEAD HEAD (k_bcache s))). fold (set_k_bcache bc0 s).
  assert (Ebuf : bc_buf bc0 = replicate NBUF zero_buf) by (unfold bc0, set_nxt, set_prv; by rewrite !decide_True).
  assert (Hf : Forall fresh (bc_buf bc0)).
  { rewrite Ebuf. apply Forall_replicate. repeat split; try done. }
  destruct (binit_loop_ok NBUF 0 (set_k_bcache bc0 s)) as (bc & E & H1 & H2 & H3); try done.
  - change (length (bc_buf bc0) = NBUF). by rewrite Ebuf.
  - exists bc. split; [exact E|]. split; [by apply fresh_crep|].
    exists (rev (seq 0 NBUF)). split; [done|]. symmetry. apply Permutation_rev.
Qed.

(** [binit] builds the LRU list: all NBUF buffers on it, none in use, so the
    cache shows every block as it is on disk. *)
Theorem binit_ready s :
  k_locks s = ∅ -> bc_buf (k_bcache s) = replicate NBUF zero_buf ->
  (forall n, length (dk_block (k_disk s) n) = Z.to_nat BSIZE) ->
  exists bc, binit s = Ret tt (set_k_bcache bc s) /\ rep (set_k_bcache bc s) ∅.
Proof. apply binit_ok. Qed.

Lemma binit_ready_witness :
  exists bc, binit boot = Ret tt (set_k_bcache bc boot) /\ rep (set_k_bcache bc boot) ∅.
Proof.
  apply (binit_ready boot); [reflexivity|reflexivity|].
  intros n. unfold dk_block, boot. simpl. by rewrite lookup_empty.
Defined.
