(* ===== verification/Uart.v ===== *)
(** kernel/uart.c and [consputc] of console.c.

    The device is what the driver sees of it: reads of the line status register
    answer, one after the other, what [u_busy] says ("not idle" while the list
    says so, idle for ever after); bytes written to the transmit register are
    appended to [u_out]; bytes that arrived and were not read yet are in [u_rx].
    The theorem is about the transmit ring: bytes go out in the order they were
    written, none is lost or repeated. *)

From S2P Require Import Prelude Types Memory Spinlock Sched Sleeplock.
Local Open Scope c_scope.

Definition upd_uart (f : uart -> uart) : K unit := modify (fun s => set_k_uart (f (k_uart s)) s).

(** [ReadReg(LSR) & LSR_TX_IDLE] *)
Definition lsr_tx_idle : K bool :=
  b <- gets (fun s => u_busy (k_uart s)) ;;
  match b with
  | [] => ret true
  | x :: l => upd_uart (set_u_busy l) ;; ret (negb x)
  end.

(** [WriteReg(THR, c)] *)
Definition write_thr (c : Z) : K unit := upd_uart (fun u => set_u_out (u_out u ++ [u8 c]) u).

(** [while (tx_w != tx_r && (ReadReg(LSR) & LSR_TX_IDLE)) { ... }] *)
Fixpoint uartstart_loop (fuel : nat) : K unit :=
  match fuel with
  | O => nofuel
  | S fuel =>
      u <- gets k_uart ;;
      if tx_w u =? tx_r u then ret tt else
      idle <- lsr_tx_idle ;;
      if negb idle then ret tt else
      c <- deref "tx_buf" (tx_buf u !! Z.to_nat (tx_r u mod UART_TX_BUF_SIZE)) ;;
      write_thr c ;;
      upd_uart (fun u => set_tx_r (u32 (tx_r u + 1)) u) ;;
      uartstart_loop fuel
  end.
Definition uartstart : K unit :=
  n <- gets (fun s => u32 (tx_w (k_uart s) - tx_r (k_uart s))) ;;
  uartstart_loop (S (Z.to_nat n)).

(** The register writes of [uartinit] configure the device; what they leave is
    the initialised lock. *)
Definition uartinit : K unit := initlock LK_tx.

Section Uart.
Context {W : Wakeups}.

(** [while (tx_w == tx_r + UART_TX_BUF_SIZE) sleep(&tx_r, &tx_lock);] *)
Fixpoint uart_room (fuel : nat) : K unit :=
  match fuel with
  | O => nofuel
  | S fuel =>
      u <- gets k_uart ;;
      if tx_w u =? u32 (tx_r u + UART_TX_BUF_SIZE)
      then sleep CH_tx_r LK_tx ;; uart_room fuel
      else ret tt
  end.

(** [tx_buf[tx_w % UART_TX_BUF_SIZE] = c; tx_w++;] *)
Definition uart_queue (c : Z) : K unit :=
  u <- gets k_uart ;;
  let i := Z.to_nat (tx_w u mod UART_TX_BUF_SIZE) in
  _ <- deref "tx_buf" (tx_buf u !! i) ;;
  upd_uart (fun u => set_tx_buf (<[i := u8 c]> (tx_buf u)) u) ;;
  upd_uart (fun u => set_tx_w (u32 (tx_w u + 1)) u).

Fixpoint uartwrite (buf : list Z) : K unit :=
  match buf with
  | [] => ret tt
  | c :: buf =>
      acquire LK_tx ;;
      uart_room (S n_wakeups) ;;
      uart_queue c ;;
      uartstart ;;
      release LK_tx ;;
      uartwrite buf
  end.

(** [while ((ReadReg(LSR) & LSR_TX_IDLE) == 0);] *)
Fixpoint tx_wait (fuel : nat) : K unit :=
  match fuel with
  | O => nofuel
  | S fuel => idle <- lsr_tx_idle ;; if (idle : bool) then ret tt else tx_wait fuel
  end.

Definition uartputc_sync (c : Z) : K unit :=
  acquire LK_tx ;;
  n <- gets (fun s => length (u_busy (k_uart s))) ;;
  tx_wait (S n) ;;
  write_thr c ;;
  release LK_tx.

Definition uartgetc : K Z :=
  r <- gets (fun s => u_rx (k_uart s)) ;;
  match r with
  | c :: l => upd_uart (set_u_rx l) ;; ret c
  | [] => ret (-1)
  end.

(** console.c *)
Definition BACKSPACE : Z := 0x100.
Definition consputc (c : Z) : K unit :=
  if c =? BACKSPACE
  then uartputc_sync 8 ;; uartputc_sync 32 ;; uartputc_sync 8
  else uartputc_sync c.

(** * Synchronous output *)

Fixpoint skip_busy (l : list bool) : list bool :=
  match l with [] => [] | true :: l => skip_busy l | false :: l => l end.

(** The UART after [c] has been sent synchronously. *)
Definition uart_put (c : Z) (u : uart) : uart :=
  set_u_out (u_out u ++ [u8 c]) (set_u_busy (skip_busy (u_busy u)) u).

Lemma tx_wait_ok n s :
  length (u_busy (k_uart s)) = n ->
  tx_wait (S n) s = Ret tt (set_k_uart (set_u_busy (skip_busy (u_busy (k_uart s))) (k_uart s)) s).
Proof.
  revert s; induction n as [|n IH]; intros s Hn.
  - apply nil_length_inv in Hn. cbn [tx_wait]. unfold lsr_tx_idle, gets, bind. rewrite Hn. simpl.
    unfold ret. f_equal. rewrite <- Hn. by destruct s as [? ? ? ? ? ? ? ? ? ? ? ? ? ? ? ? []].
  - destruct (u_busy (k_uart s)) as [|b l] eqn:E; simplify_eq/=.
    unfold lsr_tx_idle, gets, bind at 1 2. rewrite E. unfold upd_uart, modify, bind at 1. unfold ret at 1.
    destruct b; simpl; [|done]. etransitivity; [by apply IH|done].
Qed.

Lemma uartputc_sync_ok c s :
  cpu_ok s -> lock_free s LK_tx ->
  uartputc_sync c s = Ret tt (set_k_uart (uart_put c (k_uart s)) s).
Proof.
  intros Hc Hl. unfold uartputc_sync. run (acquire_free LK_tx s Hc Hl).
  unfold gets, bind at 1. run (tx_wait_ok _ _ eq_refl). unfold write_thr, upd_uart, modify, bind at 1.
  kproj. leave. by kproj.
Qed.

(** What [consputc] sends. *)
Definition cons_bytes (c : Z) : list Z := if c =? BACKSPACE then [8; 32; 8] else [c].
Definition uart_puts (l : list Z) (u : uart) : uart := fold_left (fun u c => uart_put c u) l u.

Lemma consputc_ok c s :
  cpu_ok s -> lock_free s LK_tx ->
  consputc c s = Ret tt (set_k_uart (uart_puts (cons_bytes c) (k_uart s)) s).
Proof.
  intros Hc Hl. unfold consputc, cons_bytes. destruct (c =? BACKSPACE).
  - run (uartputc_sync_ok 8 s Hc Hl).
    set (s1 := set_k_uart _ s). assert (Hc1 : cpu_ok s1) by done. assert (Hl1 : lock_free s1 LK_tx) by done.
    run (uartputc_sync_ok 32 s1 Hc1 Hl1).
    set (s2 := set_k_uart _ s1). assert (Hc2 : cpu_ok s2) by done. assert (Hl2 : lock_free s2 LK_tx) by done.
    by rewrite (uartputc_sync_ok 8 s2 Hc2 Hl2).
  - by rewrite uartputc_sync_ok.
Qed.

Lemma uart_puts_out l u : u_out (uart_puts l u) = u_out u ++ (wrap 8 <$> l).
Proof.
  revert u; induction l as [|c l IH]; intros u; simpl; [by rewrite app_nil_r|].
  unfold uart_puts in IH. rewrite IH. simpl. by rewrite <- app_assoc.
Qed.

(** * The transmit ring *)

(** The bytes [q] wait in the ring, oldest first. *)
Record ring (u : uart) (q : list Z) : Prop := {
  r_size : length (tx_buf u) = Z.to_nat UART_TX_BUF_SIZE;
  r_room : (length q <= Z.to_nat UART_TX_BUF_SIZE)%nat;
  r_read : 0 <= tx_r u < 2 ^ 32;
  r_write : tx_w u = u32 (tx_r u + Z.of_nat (length q));
  r_chars : Forall (fun b => u8 b = b) q;
  r_bytes k b : q !! k = Some b ->
    tx_buf u !! Z.to_nat ((tx_r u + Z.of_nat k) mod UART_TX_BUF_SIZE) = Some b }.

Lemma u32_slot a : u32 a mod UART_TX_BUF_SIZE = a mod UART_TX_BUF_SIZE.
Proof.
  unfold wrap, UART_TX_BUF_SIZE. symmetry. rewrite (Z.div_mod a (2 ^ 32)) at 1 by lia.
  replace (2 ^ 32 * (a / 2 ^ 32)) with ((2 ^ 27 * (a / 2 ^ 32)) * 32) by lia.
  by rewrite Z.add_comm, Z_mod_plus_full.
Qed.

Lemma u32_diff a n : 0 <= a < 2 ^ 32 -> 0 <= n < 2 ^ 32 -> u32 (u32 (a + n) - a) = n.
Proof. intros. rewrite wrap_sub_l. replace (a + n - a) with n by lia. by apply wrap_small. Qed.

(** Two cursors less than [2^32] apart are equal only when they are 0 apart. *)
Lemma u32_same a n : 0 <= a < 2 ^ 32 -> 0 <= n < 2 ^ 32 -> (u32 (a + n) =? a) = (n =? 0).
Proof.
  intros Ha Hn. destruct (Z.eqb_spec n 0) as [->|].
  - rewrite Z.add_0_r, wrap_small by done. apply Z.eqb_refl.
  - apply Z.eqb_neq. intros E. pose proof (u32_diff a n Ha Hn) as H. rewrite E, Z.sub_diag in H.
    rewrite wrap_small in H; lia.
Qed.

Lemma ring_length u q : ring u q -> 0 <= Z.of_nat (length q) < 2 ^ 32.
Proof. intros []. unfold UART_TX_BUF_SIZE in *. lia. Qed.

Lemma ring_pending u q : ring u q -> u32 (tx_w u - tx_r u) = Z.of_nat (length q).
Proof. intros R. rewrite (r_write _ _ R). apply u32_diff; [apply R|by eapply ring_length]. Qed.

Lemma ring_empty u q : ring u q -> (tx_w u =? tx_r u) = (Z.of_nat (length q) =? 0).
Proof. intros R. rewrite (r_write _ _ R). apply u32_same; [apply R|by eapply ring_length]. Qed.

Lemma ring_full u q :
  ring u q -> (tx_w u =? u32 (tx_r u + UART_TX_BUF_SIZE)) = (length q =? 32)%nat.
Proof.
  intros R. rewrite (r_write _ _ R). pose proof (r_read _ _ R). pose proof (r_room _ _ R).
  unfold UART_TX_BUF_SIZE in *. destruct (Nat.eqb_spec (length q) 32) as [->|N].
  - by apply Z.eqb_eq.
  - apply Z.eqb_neq. intros E.
    assert (D : u32 (u32 (tx_r u + Z.of_nat (length q)) - tx_r u) = u32 (u32 (tx_r u + 32) - tx_r u)) by by rewrite E.
    rewrite !u32_diff in D; lia.
Qed.

(** Sending the oldest byte. *)
Lemma ring_pop u b q l o :
  ring u (b :: q) -> ring (set_tx_r (u32 (tx_r u + 1)) (set_u_out o (set_u_busy l u))) q.
Proof.
  intros R. pose proof (r_room _ _ R) as Hq. simpl in Hq. constructor; simpl.
  - apply R.
  - lia.
  - by apply wrap_range.
  - rewrite wrap_add_l, (r_write _ _ R). simpl. f_equal. lia.
  - apply (Forall_inv_tail (r_chars _ _ R)).
  - intros k c Hk. rewrite <- Zplus_mod_idemp_l, u32_slot, Zplus_mod_idemp_l.
    rewrite <- (r_bytes _ _ R (S k) c Hk). do 3 f_equal. lia.
Qed.

Lemma ring_busy u q l : ring u q -> ring (set_u_busy l u) q.
Proof. by intros []. Qed.

(** Queueing a byte. *)
Lemma ring_push u q c :
  ring u q -> (length q < 32)%nat ->
  ring (set_tx_w (u32 (tx_w u + 1))
         (set_tx_buf (<[Z.to_nat (tx_w u mod UART_TX_BUF_SIZE) := u8 c]> (tx_buf u)) u)) (q ++ [u8 c]).
Proof.
  intros R Hq. pose proof (r_read _ _ R) as Hr. pose proof (r_size _ _ R) as Hs.
  unfold UART_TX_BUF_SIZE in *. constructor; simpl.
  - by rewrite length_insert.
  - rewrite length_app. simpl length. change (Z.to_nat UART_TX_BUF_SIZE) with 32%nat. lia.
  - done.
  - rewrite (r_write _ _ R), wrap_add_l, length_app. cbn [length]. f_equal. lia.
  - apply Forall_app; split; [apply R|]. constructor; [by apply wrap_wrap|constructor].
  - intros k b Hk. rewrite (r_write _ _ R), u32_slot. unfold UART_TX_BUF_SIZE.
    apply lookup_app_Some in Hk as [Hk|[Hk Hb]].
    + pose proof (lookup_lt_Some _ _ _ Hk). rewrite list_lookup_insert_ne; [by apply (r_bytes _ _ R)|].
      intros E. apply Z2Nat.inj in E; [|apply Z.mod_pos_bound; lia..].
      assert (E' : (tx_r u + Z.of_nat (length q) - (tx_r u + Z.of_nat k)) mod 32 = 0).
      { rewrite Zminus_mod, E, Z.sub_diag. done. }
      rewrite Z.mod_small in E'; lia.
    + apply list_lookup_singleton_Some in Hb as [Hb <-]. replace k with (length q) by lia.
      rewrite list_lookup_insert_eq; [done|]. rewrite Hs.
      pose proof (Z.mod_pos_bound (tx_r u + Z.of_nat (length q)) 32). lia.
Qed.

(** The answer of the next read of the status register, and the UART once the
    byte [b] at the head of the ring has been sent. *)
Definition idle_next (u : uart) : bool := match u_busy u with x :: _ => negb x | [] => true end.
Definition sent (b : Z) (u : uart) : uart :=
  set_tx_r (u32 (tx_r u + 1)) (set_u_out (u_out u ++ [b]) (set_u_busy (tail (u_busy u)) u)).

Lemma lsr_ok s :
  lsr_tx_idle s = Ret (idle_next (k_uart s)) (set_k_uart (set_u_busy (tail (u_busy (k_uart s))) (k_uart s)) s).
Proof.
  unfold lsr_tx_idle, gets, bind, idle_next. destruct (u_busy (k_uart s)) eqn:E; [|done].
  unfold ret. f_equal. simpl. rewrite <- E. by destruct s as [? ? ? ? ? ? ? ? ? ? ? ? ? ? ? ? []].
Qed.

Lemma uartstart_step f b q s :
  ring (k_uart s) (b :: q) ->
  uartstart_loop (S f) s =
    if idle_next (k_uart s) then uartstart_loop f (set_k_uart (sent b (k_uart s)) s)
    else Ret tt (set_k_uart (set_u_busy (tail (u_busy (k_uart s))) (k_uart s)) s).
Proof.
  intros R. cbn [uartstart_loop]. unfold gets, bind at 1. rewrite (ring_empty _ _ R). cbn [length]. zsimp.
  pose proof (r_bytes _ _ R O b eq_refl) as Hb. simpl in Hb. rewrite Z.add_0_r in Hb.
  run (lsr_ok s). destruct (idle_next (k_uart s)); [|done]. cbn [negb]. rewrite Hb.
  unfold deref, write_thr, upd_uart, modify, bind, ret; simpl.
  by rewrite (Forall_inv (r_chars _ _ R)).
Qed.

(** [uartstart] moves a prefix of the queue to the device. *)
Lemma uartstart_loop_ok q s :
  ring (k_uart s) q ->
  exists u' q', uartstart_loop (S (length q)) s = Ret tt (set_k_uart u' s) /\ ring u' q' /\
    u_out u' ++ q' = u_out (k_uart s) ++ q /\ u_rx u' = u_rx (k_uart s) /\ (length q' <= length q)%nat.
Proof.
  revert s; induction q as [|b q IH]; intros s R.
  - exists (k_uart s), []. cbn [uartstart_loop length]. unfold gets, bind at 1.
    rewrite (ring_empty _ _ R). split_and!; auto. simpl. unfold ret. f_equal. by destruct s.
  - cbn [length]. rewrite (uartstart_step _ b q) by done. destruct (idle_next (k_uart s)).
    + destruct (IH (set_k_uart (sent b (k_uart s)) s)) as (u' & q' & E & R' & Ho & Hx & Hl).
      { by apply (ring_pop _ b). }
      exists u', q'. rewrite E. split_and!; auto. rewrite Ho. simpl. by rewrite <- app_assoc.
    + eexists _, (b :: q). split_and!; [reflexivity|by apply ring_busy|done..].
Qed.

Lemma uartstart_ok q s :
  ring (k_uart s) q ->
  exists u' q', uartstart s = Ret tt (set_k_uart u' s) /\ ring u' q' /\
    u_out u' ++ q' = u_out (k_uart s) ++ q /\ u_rx u' = u_rx (k_uart s) /\ (length q' <= length q)%nat.
Proof.
  intros R. unfold uartstart, gets, bind at 1. rewrite (ring_pending _ _ R), Nat2Z.id.
  by apply uartstart_loop_ok.
Qed.

Lemma uart_room_ok q s n :
  ring (k_uart s) q -> (length q < 32)%nat -> uart_room (S n) s = Ret tt s.
Proof.
  intros R Hq. cbn [uart_room]. unfold gets, bind. rewrite (ring_full _ _ R).
  by destruct (Nat.eqb_spec (length q) 32); [lia|].
Qed.

Lemma uart_queue_ok q s c :
  ring (k_uart s) q -> (length q < 32)%nat ->
  exists u', uart_queue c s = Ret tt (set_k_uart u' s) /\ ring u' (q ++ [u8 c]) /\
    u_out u' = u_out (k_uart s) /\ u_rx u' = u_rx (k_uart s).
Proof.
  intros R Hq. unfold uart_queue, gets, bind at 1. 
  destruct (lookup_lt_is_Some_2 (tx_buf (k_uart s))
    (Z.to_nat (tx_w (k_uart s) mod UART_TX_BUF_SIZE))) as [x Hx].
  { rewrite (r_size _ _ R). unfold UART_TX_BUF_SIZE. pose proof (Z.mod_pos_bound (tx_w (k_uart s)) 32). lia. }
  rewrite Hx. unfold deref, upd_uart, modify, ret, bind. eexists. split_and!; [reflexivity|..]; try done.
  exact (ring_push _ _ _ R Hq).
Qed.

End Uart.

(** [uartwrite] never loses, repeats or reorders bytes: whatever the device
    answers when asked whether it is idle, after a write of [buf] that fits in
    the ring the bytes given to the device followed by those still queued are
    the ones before the call followed by [buf], and the ring is consistent.  The
    32-bit cursors may wrap around. *)
Theorem uartwrite_fifo {W : Wakeups} buf q s :
  cpu_ok s -> lock_free s LK_tx -> ring (k_uart s) q ->
  (length q + length buf <= Z.to_nat UART_TX_BUF_SIZE)%nat -> Forall byte_ok buf ->
  exists u' q', uartwrite buf s = Ret tt (set_k_uart u' s) /\ ring u' q' /\
    u_out u' ++ q' = u_out (k_uart s) ++ q ++ buf.
Proof.
  revert q s; induction buf as [|c buf IH]; intros q s Hc Hl R Hn Hb; simpl in Hn.
  - exists (k_uart s), q. rewrite app_nil_r. split_and!; auto. simpl. unfold ret. f_equal. by destruct s.
  - cbn [uartwrite]. run (acquire_free LK_tx s Hc Hl). apply Forall_cons in Hb as [Hc1 Hb].
    change (Z.to_nat UART_TX_BUF_SIZE) with 32%nat in Hn.
    assert (R1 : ring (k_uart (enter LK_tx s)) q) by (by rewrite k_uart_enter).
    set (s1 := enter LK_tx s) in *.
    run (uart_room_ok q s1 n_wakeups R1 ltac:(lia)).
    destruct (uart_queue_ok q s1 c R1 ltac:(lia)) as (u2 & E2 & R2 & O2 & _). run E2.
    destruct (uartstart_ok (q ++ [u8 c]) (set_k_uart u2 s1) R2) as (u3 & q3 & E3 & R3 & O3 & _ & L3). run E3.
    subst s1. kproj. leave. kproj.
    change (set_k_uart u3 (set_k_uart u2 s)) with (set_k_uart u3 s).
    destruct (IH q3 (set_k_uart u3 s)) as (u' & q' & E & R' & O); auto.
    { rewrite length_app in L3. simpl in L3. change (Z.to_nat UART_TX_BUF_SIZE) with 32%nat. lia. }
    exists u', q'. rewrite E. split_and!; auto. rewrite O. simpl in *.
    rewrite app_assoc, O3, O2. rewrite wrap_small by done. kproj. by rewrite <- !app_assoc.
Qed.

(** Three bytes for a device that is busy at first, with both cursors about to
    wrap around. *)
#[local] Instance uart_wakeups : Wakeups := 0%nat.
Definition uart_sample : kstate :=
  set_k_uart (mk_uart (replicate 32 0) (2 ^ 32 - 1) (2 ^ 32 - 1) [] [] [true; false]) boot.

Lemma uartwrite_fifo_witness :
  exists u' q', uartwrite [104; 105; 10] uart_sample = Ret tt (set_k_uart u' uart_sample) /\
    ring u' q' /\ u_out u' ++ q' = [104; 105; 10].
Proof.
  apply (uartwrite_fifo [104; 105; 10] [] uart_sample).
  - exact (boot_cpu_ok).
  - reflexivity.
  - constructor; try done. unfold UART_TX_BUF_SIZE; simpl; lia.
  - simpl. unfold UART_TX_BUF_SIZE. lia.
  - repeat constructor; unfold byte_ok; lia.
Defined.
