(* ===== verification/Printf.v ===== *)
(** kernel/printf.c: formatted console output.

    [printf] takes the format as the bytes of the C string without its NUL and
    the variadic arguments as a list.  [panic] is the [Panic] outcome, after
    which nothing runs, so the flag [panicking] is 0 whenever [printf] starts.
    The theorems: the decimal number [printint] sends reads back as the argument
    and always fits in [buf]; conversions of a format are sent in order. *)

From S2P Require Import Prelude Types Memory Spinlock Sched Sleeplock Uart.
Local Open Scope c_scope.

Definition pf_digits : list Z := [48; 49; 50; 51; 52; 53; 54; 55; 56; 57; 97; 98; 99; 100; 101; 102].

Definition putc (c : Z) : K unit := consputc c.

(** [do { buf[i++] = digits[x % base]; } while ((x /= base) != 0);]; a 64-bit
    number has at most 64 digits. *)
Fixpoint digits_loop (fuel : nat) (x base : Z) : list Z :=
  match fuel with
  | O => []
  | S fuel =>
      nth (Z.to_nat (x mod base)) pf_digits 0 ::
      (if x / base =? 0 then [] else digits_loop fuel (x / base) base)
  end.

(** [while (--i >= 0) putc(buf[i]);] *)
Fixpoint putcs (l : list Z) : K unit :=
  match l with [] => ret tt | c :: l => putc c ;; putcs l end.

Definition printint (xx base : Z) (sign : bool) : K unit :=
  let neg := sign && (xx <? 0) in
  let x := u64 (if neg then - xx else xx) in
  let buf := digits_loop 64 x base in
  let buf := if neg then buf ++ [45] else buf in
  if (20 <? length buf)%nat then fault "printint: buf" else
  putcs (rev buf).

Fixpoint printptr_loop (n : nat) (x : Z) : K unit :=
  match n with
  | O => ret tt
  | S n =>
      putc (nth (Z.to_nat (Z.shiftr x 60)) pf_digits 0) ;;
      printptr_loop n (u64 (Z.shiftl x 4))
  end.
Definition printptr (x : Z) : K unit := putc 48 ;; putc 120 ;; printptr_loop 16 x.

(** A variadic argument: an integer, or a [char *] (its bytes, or null). *)
Inductive vararg : Type := VInt (z : Z) | VStr (s : option (list Z)).

Definition va_int (conv : Z -> Z) (ap : list vararg) (k : Z -> list vararg -> K unit) : K unit :=
  match ap with VInt z :: ap => k (conv z) ap | _ => fault "va_arg" end.

(** The bytes of a C string, up to its NUL. *)
Fixpoint cstr (l : list Z) : list Z :=
  match l with [] => [] | c :: l => if c =? 0 then [] else c :: cstr l end.

(** "(null)" *)
Definition null_str : list Z := [40; 110; 117; 108; 108; 41].

(** The loop of [printf]; [fmt] is what is left of the format.  After a ['%'],
    [rest] is the text at [fmt[i]], [c0], [c1] and [c2] its first bytes. *)
Fixpoint printf_loop (fuel : nat) (fmt : list Z) (ap : list vararg) : K unit :=
  match fuel with
  | O => nofuel
  | S fuel =>
      match fmt with
      | [] => ret tt
      | cx :: rest =>
          if cx =? 0 then ret tt else
          if negb (cx =? 37) then putc cx ;; printf_loop fuel rest ap else
          let c0 := nth 0 rest 0 in
          let c1 := if c0 =? 0 then 0 else nth 1 rest 0 in
          let c2 := if c1 =? 0 then 0 else nth 2 rest 0 in
          let int conv base sign skip :=
            va_int conv ap (fun x ap => printint x base sign ;; printf_loop fuel (drop skip rest) ap) in
          if c0 =? 100 then int i32 10 true 1%nat
          else if (c0 =? 108) && (c1 =? 100) then int i64 10 true 2%nat
          else if (c0 =? 108) && (c1 =? 108) && (c2 =? 100) then int i64 10 true 3%nat
          else if c0 =? 117 then int u32 10 false 1%nat
          else if (c0 =? 108) && (c1 =? 117) then int i64 10 false 2%nat
          else if (c0 =? 108) && (c1 =? 108) && (c2 =? 117) then int i64 10 false 3%nat
          else if c0 =? 120 then int u32 16 false 1%nat
          else if (c0 =? 108) && (c1 =? 120) then int i64 16 false 2%nat
          else if (c0 =? 108) && (c1 =? 108) && (c2 =? 120) then int i64 16 false 3%nat
          else if c0 =? 112 then
            va_int u64 ap (fun x ap => printptr x ;; printf_loop fuel (drop 1 rest) ap)
          else if c0 =? 99 then
            va_int u32 ap (fun x ap => putc (i32 x) ;; printf_loop fuel (drop 1 rest) ap)
          else if c0 =? 115 then
            match ap with
            | VStr s :: ap =>
                putcs (match s with Some l => cstr l | None => null_str end) ;;
                printf_loop fuel (drop 1 rest) ap
            | _ => fault "va_arg"
            end
          else if c0 =? 37 then putc 37 ;; printf_loop fuel (drop 1 rest) ap
          else if c0 =? 0 then ret tt
          else putc 37 ;; putc c0 ;; printf_loop fuel (drop 1 rest) ap
      end
  end.

Definition printf (fmt : list Z) (ap : list vararg) : K Z :=
  acquire LK_pr ;;
  printf_loop (S (length fmt)) fmt ap ;;
  release LK_pr ;;
  ret 0.

Definition printfinit : K unit := initlock LK_pr.

(** * What is sent *)

(** [m] sends the bytes [l] and does nothing else. *)
Definition emits (m : K unit) (l : list Z) : Prop :=
  forall s, cpu_ok s -> lock_free s LK_tx -> m s = Ret tt (set_k_uart (uart_puts l (k_uart s)) s).

Lemma emits_ret : emits (ret tt) [].
Proof. intros s _ _. unfold ret. f_equal. by destruct s. Qed.

Lemma emits_bind (m m' : K unit) l l' : emits m l -> emits m' l' -> emits (m ;; m') (l ++ l').
Proof.
  intros H H' s Hc Hl. run (H s Hc Hl). rewrite H' by done. unfold uart_puts. by rewrite fold_left_app.
Qed.

Lemma emits_putc c : emits (putc c) (cons_bytes c).
Proof. intros s Hc Hl. by apply consputc_ok. Qed.

Lemma cons_bytes_char c : 0 <= c < 256 -> cons_bytes c = [c].
Proof. intros Hc. unfold cons_bytes, BACKSPACE. by rewrite (proj2 (Z.eqb_neq c 0x100)) by lia. Qed.

Lemma emits_putcs l : Forall byte_ok l -> emits (putcs l) l.
Proof.
  induction 1 as [|c l Hc Hl IH]; [apply emits_ret|].
  change (c :: l) with ([c] ++ l). apply emits_bind; [|done].
  rewrite <- (cons_bytes_char c) by done. apply emits_putc.
Qed.

Lemma u8_bytes l : Forall byte_ok l -> wrap 8 <$> l = l.
Proof. induction 1 as [|c l Hc _ IH]; [done|]. rewrite fmap_cons, IH. by rewrite wrap_small. Qed.

(** The digits are digits, and fewer than the powers of the base allow. *)
Lemma pf_digits_byte k : byte_ok (nth k pf_digits 0).
Proof.
  destruct (nth_in_or_default k pf_digits 0) as [H| ->]; [|unfold byte_ok; lia].
  revert H. generalize (nth k pf_digits 0). intros c H. simpl in H. unfold byte_ok. intuition lia.
Qed.

Lemma digits_loop_byte f x base : Forall byte_ok (digits_loop f x base).
Proof.
  revert x; induction f as [|f IH]; intros x; cbn [digits_loop]; constructor.
  - apply pf_digits_byte.
  - case_match; [constructor|apply IH].
Qed.

Lemma digits_loop_length f x base n :
  2 <= base -> 0 <= x < base ^ Z.of_nat n -> (0 < n)%nat -> (length (digits_loop f x base) <= n)%nat.
Proof.
  intros Hb. revert x n; induction f as [|f IH]; intros x n Hx Hn; cbn [digits_loop length]; [lia|].
  destruct (Z.eqb_spec (x / base) 0) as [|Hd]; [simpl; lia|].
  destruct n as [|[|n]]; [lia| |].
  - destruct Hd. apply Z.div_small. change (Z.of_nat 1) with 1 in Hx. lia.
  - apply le_n_S. apply IH; [|lia]. split; [apply Z.div_pos; lia|].
    apply Z.div_lt_upper_bound; [lia|]. rewrite <- Z.pow_succ_r by lia.
    rewrite <- Nat2Z.inj_succ. apply Hx.
Qed.

(** What [printint] sends. *)
Definition int_bytes (xx base : Z) (sign : bool) : list Z :=
  let neg := sign && (xx <? 0) in
  let x := u64 (if neg then - xx else xx) in
  (if neg then [45] else []) ++ rev (digits_loop 64 x base).

Lemma emits_printint xx base sign :
  - 2 ^ 63 <= xx < 2 ^ 64 -> (base = 10 \/ base = 16) ->
  emits (printint xx base sign) (int_bytes xx base sign).
Proof.
  intros Hx Hb. unfold printint, int_bytes.
  set (neg := sign && (xx <? 0)). set (x := u64 (if neg then - xx else xx)).
  assert (Hr : 0 <= x < 2 ^ 64) by by apply wrap_range.
  assert (Hn : neg = true -> x <= 2 ^ 63).
  { unfold x, neg. intros E. rewrite E. apply andb_prop in E as [_ E]. apply Z.ltb_lt in E.
    rewrite wrap_small; lia. }
  assert (H20 : (length (digits_loop 64 x base) <= 20)%nat).
  { apply digits_loop_length; [destruct Hb; lia| |lia]. destruct Hb as [-> | ->]; simpl; lia. }
  destruct neg.
  - assert (H19 : (length (digits_loop 64 x base) <= 19)%nat).
    { specialize (Hn eq_refl).
      apply digits_loop_length; [destruct Hb; lia| |lia]. destruct Hb as [-> | ->]; simpl; lia. }
    rewrite length_app. cbn [length]. rewrite (proj2 (Nat.ltb_ge _ _)) by lia.
    rewrite rev_app_distr. apply emits_putcs. apply Forall_app. split; [|apply Forall_rev, digits_loop_byte].
    repeat constructor; unfold byte_ok; lia.
  - rewrite (proj2 (Nat.ltb_ge _ _)) by lia. apply emits_putcs, Forall_rev, digits_loop_byte.
Qed.

(** ** Reading numbers back *)

Definition read_digits (l : list Z) : Z := fold_left (fun a c => a * 10 + (c - 48)) l 0.
Definition read_int (l : list Z) : Z :=
  match l with
  | c :: r => if c =? 45 then - read_digits r else read_digits l
  | [] => 0
  end.

Lemma read_digits_snoc l c : read_digits (l ++ [c]) = read_digits l * 10 + (c - 48).
Proof. unfold read_digits. by rewrite fold_left_app. Qed.

Lemma digit_10 d : 0 <= d < 10 -> nth (Z.to_nat d) pf_digits 0 = 48 + d.
Proof.
  intros Hd. assert (H : d = 0 \/ d = 1 \/ d = 2 \/ d = 3 \/ d = 4 \/ d = 5 \/ d = 6 \/ d = 7 \/ d = 8 \/ d = 9) by lia.
  by repeat destruct H as [-> | H]; [..|rewrite H].
Qed.

Lemma read_digits_loop f x :
  0 <= x < 2 ^ Z.of_nat f -> (0 < f)%nat -> read_digits (rev (digits_loop f x 10)) = x.
Proof.
  revert x; induction f as [|f IH]; intros x Hx Hf; [lia|]. cbn [digits_loop rev].
  pose proof (Z.mod_pos_bound x 10 ltac:(lia)) as Hm. pose proof (Z.div_mod x 10 ltac:(lia)) as Hd.
  rewrite read_digits_snoc, (digit_10 (x mod 10)) by done.
  destruct (Z.eqb_spec (x / 10) 0) as [E|E]; [simpl; unfold read_digits; simpl; lia|].
  assert (Hq : 0 <= x / 10 < 2 ^ Z.of_nat f).
  { split; [apply Z.div_pos; lia|]. apply Z.div_lt_upper_bound; [lia|].
    rewrite Nat2Z.inj_succ, Z.pow_succ_r in Hx; lia. }
  destruct f as [|f]; [simpl in Hq; lia|]. rewrite (IH (x / 10)); lia.
Qed.

Lemma digits_loop_digit f x : 0 <= x -> Forall (fun c => 48 <= c <= 57) (digits_loop f x 10).
Proof.
  revert x; induction f as [|f IH]; intros x Hx; cbn [digits_loop]; constructor.
  - pose proof (Z.mod_pos_bound x 10 ltac:(lia)). rewrite digit_10; lia.
  - case_match; [constructor|]. apply IH, Z.div_pos; lia.
Qed.

Lemma digits_loop_head f x :
  (0 < f)%nat -> 0 <= x -> exists c r, rev (digits_loop f x 10) = c :: r /\ 48 <= c < 58.
Proof.
  intros Hf Hx. pose proof (digits_loop_digit f x Hx) as H.
  destruct (rev (digits_loop f x 10)) as [|c r] eqn:E.
  - destruct f; [lia|]. cbn [digits_loop rev] in E. by destruct (rev _) in E.
  - exists c, r. split; [done|]. apply Forall_rev in H. rewrite E in H. inversion H. lia.
Qed.

Lemma read_int_bytes x : - 2 ^ 63 <= x < 2 ^ 64 -> read_int (int_bytes x 10 true) = x.
Proof.
  intros Hx. unfold int_bytes. cbn [andb]. destruct (Z.ltb_spec x 0) as [Hn|Hn].
  - cbn [app read_int]. rewrite Z.eqb_refl. rewrite wrap_small by lia. rewrite read_digits_loop by (simpl; lia). lia.
  - cbn [app]. rewrite wrap_small by lia. destruct (digits_loop_head 64 x) as (c & r & E & Hc); [lia..|].
    unfold read_int. rewrite E. rewrite (proj2 (Z.eqb_neq c 45)) by lia. rewrite <- E.
    apply read_digits_loop; simpl; lia.
Qed.

(** ** Conversions, one at a time *)

Lemma emits_lit f c rest ap l :
  byte_ok c -> c <> 0 -> c <> 37 -> emits (printf_loop f rest ap) l ->
  emits (printf_loop (S f) (c :: rest) ap) (c :: l).
Proof.
  intros Hb H0 H37 H. cbn [printf_loop]. rewrite (proj2 (Z.eqb_neq c 0)), (proj2 (Z.eqb_neq c 37)) by done.
  change (c :: l) with ([c] ++ l). apply emits_bind; [|done].
  rewrite <- (cons_bytes_char c) by done. apply emits_putc.
Qed.

Lemma emits_d f rest z ap l :
  emits (printf_loop f rest ap) l ->
  emits (printf_loop (S f) (37 :: 100 :: rest) (VInt z :: ap)) (int_bytes (i32 z) 10 true ++ l).
Proof.
  intros H. cbn -[printint int_bytes]. rewrite drop_0. apply emits_bind; [|done].
  pose proof (swrap_range 32 z ltac:(lia)). apply emits_printint; [lia|auto].
Qed.

Lemma emits_s f rest str ap l :
  Forall byte_ok str -> emits (printf_loop f rest ap) l ->
  emits (printf_loop (S f) (37 :: 115 :: rest) (VStr (Some str) :: ap)) (cstr str ++ l).
Proof.
  intros Hs H. cbn -[printint int_bytes cstr]. rewrite drop_0. apply emits_bind; [|done].
  apply emits_putcs. clear -Hs. induction Hs as [|c str Hc Hs IH]; simpl; [constructor|].
  case_match; [constructor|by constructor].
Qed.

Lemma printf_ok fmt ap l s :
  emits (printf_loop (S (length fmt)) fmt ap) l ->
  cpu_ok s -> lock_free s LK_pr -> lock_free s LK_tx ->
  printf fmt ap s = Ret 0 (set_k_uart (uart_puts l (k_uart s)) s).
Proof.
  intros He Hc Hl Ht. unfold printf. run (acquire_free LK_pr s Hc Hl).
  assert (Ht' : lock_free (enter LK_pr s) LK_tx).
  { unfold lock_free, lock_get in *. by rewrite enter_lock_ne. }
  run (He (enter LK_pr s) (enter_cpu_ok _ _ Hc) Ht').
  kproj. leave. by kproj.
Qed.

(** [printint] in base 10 always returns, fits in its 20-byte buffer for
    every [long long], the most negative one included, and what it adds to the
    console output is a decimal numeral that reads back as its argument. *)
Theorem printint_decimal xx s :
  - 2 ^ 63 <= xx < 2 ^ 63 -> cpu_ok s -> lock_free s LK_tx ->
  exists l u', printint xx 10 true s = Ret tt (set_k_uart u' s) /\
    u_out u' = u_out (k_uart s) ++ l /\ (length l <= 20)%nat /\ read_int l = xx.
Proof.
  intros Hx Hc Hl. exists (int_bytes xx 10 true), (uart_puts (int_bytes xx 10 true) (k_uart s)).
  split_and!.
  - apply emits_printint; auto; lia.
  - rewrite uart_puts_out. f_equal.
    assert (Hb : Forall byte_ok (int_bytes xx 10 true)).
    { apply Forall_app; split; [|apply Forall_rev, digits_loop_byte].
      case_match; repeat constructor; unfold byte_ok; lia. }
    by rewrite u8_bytes.
  - unfold int_bytes. cbn [andb]. rewrite length_app, length_rev.
    destruct (Z.ltb_spec xx 0) as [Hn|Hn]; cbn [length]; rewrite wrap_small by lia.
    + assert (length (digits_loop 64 (- xx) 10) <= 19)%nat by (apply digits_loop_length; simpl; lia). lia.
    + assert (length (digits_loop 64 xx 10) <= 20)%nat by (apply digits_loop_length; simpl; lia). lia.
  - apply read_int_bytes. lia.
Qed.

Lemma printint_decimal_witness :
  exists l u', printint (- 2 ^ 63) 10 true boot = Ret tt (set_k_uart u' boot) /\
    u_out u' = u_out (k_uart boot) ++ l /\ (length l <= 20)%nat /\ read_int l = - 2 ^ 63.
Proof.
  apply (printint_decimal (- 2 ^ 63) boot); [lia|exact boot_cpu_ok|reflexivity].
Defined.
