(* ===== verification/Ulib.v ===== *)
(** user/ulib.c: the string and memory functions of the user library, over byte
    memory.

    The loops that look for a NUL take fuel and answer [None] when it is not
    enough; the theorems show that the length of the string is enough.  [char] is
    unsigned on RISC-V. *)

From S2P Require Import Prelude Types Memory Spinlock Sched Sleeplock Uart Printf.
Local Open Scope Z_scope.

(** [while (( *s++ = *t++ ) != 0);] *)
Fixpoint strcpy_loop (fuel : nat) (m : gmap Z Z) (s t : Z) : option (gmap Z Z) :=
  match fuel with
  | O => None
  | S fuel =>
      let c := mget m t in
      let m := mset m s c in
      if c =? 0 then Some m else strcpy_loop fuel m (s + 1) (t + 1)
  end.
Definition strcpy (fuel : nat) (m : gmap Z Z) (s t : Z) : option (gmap Z Z) := strcpy_loop fuel m s t.

(** [while ( *p && *p == *q ) p++, q++;] *)
Fixpoint strcmp_loop (fuel : nat) (m : gmap Z Z) (p q : Z) : option Z :=
  match fuel with
  | O => None
  | S fuel =>
      if negb (mget m p =? 0) && (mget m p =? mget m q) then strcmp_loop fuel m (p + 1) (q + 1)
      else Some (mget m p - mget m q)
  end.
Definition strcmp (fuel : nat) (m : gmap Z Z) (p q : Z) : option Z := strcmp_loop fuel m p q.

(** [for (n = 0; s[n]; n++);] *)
Fixpoint strlen_loop (fuel : nat) (m : gmap Z Z) (s n : Z) : option Z :=
  match fuel with
  | O => None
  | S fuel => if mget m (s + n) =? 0 then Some n else strlen_loop fuel m s (n + 1)
  end.
Definition strlen (fuel : nat) (m : gmap Z Z) (s : Z) : option Z := strlen_loop fuel m s 0.

(** [for (i = 0; i < n; i++) cdst[i] = c;], [k] to go *)
Fixpoint memset_loop (k : nat) (m : gmap Z Z) (cdst i c : Z) : gmap Z Z :=
  match k with
  | O => m
  | S k => memset_loop k (mset m (cdst + i) c) cdst (i + 1) c
  end.
Definition memset (m : gmap Z Z) (dst c n : Z) : gmap Z Z := memset_loop (Z.to_nat n) m dst 0 c.

(** [for (; *s; s++) if ( *s == c ) return s; return 0;]: the outer option is
    the fuel, the inner one the null pointer. *)
Fixpoint strchr (fuel : nat) (m : gmap Z Z) (s c : Z) : option (option Z) :=
  match fuel with
  | O => None
  | S fuel =>
      if mget m s =? 0 then Some None
      else if mget m s =? c then Some (Some s)
      else strchr fuel m (s + 1) c
  end.

(** [while ('0' <= *s && *s <= '9') n = n * 10 + *s++ - '0';]: the outer option is
    the fuel, the inner one an overflow, which is undefined. *)
Fixpoint atoi_loop (fuel : nat) (m : gmap Z Z) (s n : Z) : option (option Z) :=
  match fuel with
  | O => None
  | S fuel =>
      let c := mget m s in
      if (48 <=? c) && (c <=? 57) then
        if n * 10 + c <? 2 ^ 31 then atoi_loop fuel m (s + 1) (n * 10 + c - 48) else Some None
      else Some (Some n)
  end.
Definition atoi (fuel : nat) (m : gmap Z Z) (s : Z) : option (option Z) := atoi_loop fuel m s 0.

(** [while (n-- > 0) *dst++ = *src++;] and [while (n-- > 0) *--dst = *--src;] *)
Definition memmove (m : gmap Z Z) (dst src n : Z) : gmap Z Z :=
  if dst <? src then copy_up (Z.to_nat n) m dst src
  else copy_down (Z.to_nat n) m (dst + n) (src + n).

Fixpoint memcmp_loop (k : nat) (m : gmap Z Z) (p1 p2 : Z) : Z :=
  match k with
  | O => 0
  | S k => if mget m p1 =? mget m p2 then memcmp_loop k m (p1 + 1) (p2 + 1) else mget m p1 - mget m p2
  end.
Definition memcmp (m : gmap Z Z) (s1 s2 n : Z) : Z := memcmp_loop (Z.to_nat n) m s1 s2.

Definition memcpy (m : gmap Z Z) (dst src n : Z) : gmap Z Z := memmove m dst src (i32 n).

(** * Strings *)

(** The C string [l] at [a]. *)
Definition str_at (m : gmap Z Z) (a : Z) (l : list Z) : Prop :=
  bytes_at m a (length l) = l /\ mget m (a + Z.of_nat (length l)) = 0 /\ 0 ∉ l.

Lemma str_at_nil m a : str_at m a [] <-> mget m a = 0.
Proof. unfold str_at. cbn. rewrite Z.add_0_r. by split; [intros (_ & H & _)|intros H; split_and!; [..|apply not_elem_of_nil]]. Qed.

Lemma str_at_cons m a c l :
  str_at m a (c :: l) <-> mget m a = c /\ c <> 0 /\ str_at m (a + 1) l.
Proof.
  unfold str_at. cbn [length bytes_at]. replace (a + Z.of_nat (S (length l))) with (a + 1 + Z.of_nat (length l)) by lia.
  split.
  - intros ([= E1 E2] & H2 & H3). apply not_elem_of_cons in H3 as [H3 H4]. rewrite E1. done.
  - intros (-> & H0 & E & H2 & H3). rewrite E. split_and!; [done..|]. apply not_elem_of_cons. done.
Qed.

Lemma str_at_ext m m' a l :
  (forall x, a <= x <= a + Z.of_nat (length l) -> mget m' x = mget m x) -> str_at m a l -> str_at m' a l.
Proof.
  intros Hx (H1 & H2 & H3). split_and!; [|rewrite Hx by lia; done|done].
  rewrite <- H1 at 2. apply bytes_at_ext. intros x Hx'. apply Hx. lia.
Qed.

Lemma strlen_str m a l f :
  str_at m a l -> (length l < f)%nat -> strlen f m a = Some (Z.of_nat (length l)).
Proof.
  intros H Hf. unfold strlen. assert (G : forall k, str_at m (a + k) l ->
    strlen_loop f m a k = Some (k + Z.of_nat (length l))).
  { clear H. revert f Hf; induction l as [|c l IH]; intros [|f] Hf k H; cbn [strlen_loop length] in *; try lia.
    - apply str_at_nil in H. rewrite H, Z.eqb_refl. f_equal. lia.
    - apply str_at_cons in H as (-> & H0 & H). rewrite (proj2 (Z.eqb_neq _ _)) by done.
      replace (a + k + 1) with (a + (k + 1)) in H by lia. rewrite (IH f ltac:(lia) _ H). f_equal. lia. }
  rewrite (G 0); [done|]. by rewrite Z.add_0_r.
Qed.

(** Copying to a place that does not overlap the string. *)
Lemma strcpy_str m s t l f :
  mem_ok m -> str_at m t l -> s + Z.of_nat (length l) < t \/ t + Z.of_nat (length l) < s -> (length l < f)%nat ->
  exists m', strcpy f m s t = Some m' /\ str_at m' s l /\
    forall x, x < s \/ s + Z.of_nat (length l) < x -> mget m' x = mget m x.
Proof.
  unfold strcpy. revert m s t f; induction l as [|c l IH]; intros m s t [|f] Hm H Hd Hf; cbn [strcpy_loop length] in *; try lia.
  - apply str_at_nil in H. rewrite H, Z.eqb_refl. eexists. split; [done|]. split.
    + apply str_at_nil. by rewrite mget_mset, Z.eqb_refl.
    + intros x Hx. rewrite mget_mset, (proj2 (Z.eqb_neq _ _)); [done|lia].
  - apply str_at_cons in H as (E & H0 & H). rewrite E, (proj2 (Z.eqb_neq _ _)) by done.
    destruct (IH (mset m s c) (s + 1) (t + 1) f) as (m' & Em & Hs & Hx).
    + by apply mset_ok.
    + apply (str_at_ext m); [|done]. intros x Hx. rewrite mget_mset, (proj2 (Z.eqb_neq _ _)); [done|lia].
    + lia.
    + lia.
    + exists m'. split; [done|]. split.
      * apply str_at_cons. split_and!; [|done|done]. rewrite Hx by lia. rewrite mget_mset, Z.eqb_refl.
        apply wrap_small. rewrite <- E. apply Hm.
      * intros x Hx'. rewrite Hx by lia. rewrite mget_mset, (proj2 (Z.eqb_neq _ _)); [done|lia].
Qed.

(** 0 exactly for equal strings. *)
Lemma strcmp_str m p q l l' f :
  str_at m p l -> str_at m q l' -> (length l < f)%nat ->
  exists r, strcmp f m p q = Some r /\ (r = 0 <-> l = l').
Proof.
  unfold strcmp. revert p q l' f; induction l as [|c l IH]; intros p q l' [|f] H H' Hf; cbn [strcmp_loop length] in *; try lia.
  - apply str_at_nil in H. rewrite H. cbn. eexists. split; [done|]. destruct l' as [|c' l'].
    + apply str_at_nil in H'. rewrite H'. done.
    + apply str_at_cons in H' as (-> & H0 & _). split; [lia|done].
  - apply str_at_cons in H as (-> & H0 & H). rewrite (proj2 (Z.eqb_neq _ _)) by done. cbn [negb andb].
    destruct l' as [|c' l'].
    + apply str_at_nil in H'. rewrite H', (proj2 (Z.eqb_neq _ _)) by done. eexists. split; [done|]. split; [lia|done].
    + apply str_at_cons in H' as (-> & H0' & H'). destruct (Z.eqb_spec c c') as [->|Hc].
      * destruct (IH (p + 1) (q + 1) l' f H H') as (r & E & Hr); [lia|]. exists r. split; [done|]. rewrite Hr. naive_solver.
      * eexists. split; [done|]. split; [lia|naive_solver].
Qed.

(** The first occurrence, or null. *)
Lemma strchr_str m s l c f :
  str_at m s l -> (length l < f)%nat ->
  strchr f m s c =
    Some (match list_find (fun x => x = c) l with Some (i, _) => Some (s + Z.of_nat i) | None => None end).
Proof.
  revert s f; induction l as [|x l IH]; intros s [|f] H Hf; cbn [strchr length list_find] in *; try lia.
  - apply str_at_nil in H. by rewrite H.
  - apply str_at_cons in H as (-> & H0 & H). rewrite (proj2 (Z.eqb_neq _ _)) by done.
    destruct (Z.eqb_spec x c) as [->|Hc].
    + rewrite decide_True by done. by rewrite Z.add_0_r.
    + rewrite decide_False by done. rewrite (IH _ f H) by lia. destruct (list_find _ l) as [[i y]|]; [|done].
      cbn. do 2 f_equal. lia.
Qed.

(** Both directions of [memmove] are right whatever the overlap. *)
Lemma mget_umemmove m d s n x :
  mem_ok m -> 0 <= n ->
  mget (memmove m d s n) x = if (d <=? x) && (x <? d + n) then mget m (s + (x - d)) else mget m x.
Proof.
  intros Hm Hn. unfold memmove. destruct (Z.ltb_spec d s).
  - rewrite mget_copy_up by (done || lia). by rewrite Z2Nat.id.
  - rewrite mget_copy_down by (done || lia). rewrite Z2Nat.id by done.
    replace (d + n - n) with d by lia. by replace (s + n + (x - (d + n))) with (s + (x - d)) by lia.
Qed.

(** * Numbers *)

Definition digit (c : Z) : Prop := 48 <= c <= 57.

Lemma read_digits_mono l n : Forall digit l -> 0 <= n -> n <= fold_left (fun a c => a * 10 + (c - 48)) l n.
Proof.
  revert n; induction l as [|c l IH]; intros n H Hn; cbn; [lia|]. inversion H as [|? ? Hc Hl]; subst. unfold digit in Hc.
  etransitivity; [|apply IH; [done|lia]]. lia.
Qed.

Lemma atoi_loop_digits m s l n f :
  bytes_at m s (length l) = l -> ~ digit (mget m (s + Z.of_nat (length l))) -> Forall digit l -> 0 <= n ->
  fold_left (fun a c => a * 10 + (c - 48)) l n + 48 < 2 ^ 31 -> (length l < f)%nat ->
  atoi_loop f m s n = Some (Some (fold_left (fun a c => a * 10 + (c - 48)) l n)).
Proof.
  revert s n f; induction l as [|c l IH]; intros s n [|f] Hb Hd Hl Hn Hr Hf; cbn [atoi_loop length] in *; try lia.
  - cbn in Hd. rewrite Z.add_0_r in Hd. unfold digit in Hd.
    destruct (Z.leb_spec 48 (mget m s)), (Z.leb_spec (mget m s) 57); cbn; done || lia.
  - inversion Hl as [|? ? Hc Hl' Heq]; clear Heq. cbn [bytes_at] in Hb. injection Hb as E Hb. cbn [fold_left] in *.
    unfold digit in Hc. rewrite E. pose proof (read_digits_mono l (n * 10 + (c - 48)) Hl' ltac:(lia)).
    rewrite (proj2 (Z.leb_le _ _)), (proj2 (Z.leb_le _ _)), (proj2 (Z.ltb_lt _ _)) by lia. cbn [andb].
    replace (n * 10 + c - 48) with (n * 10 + (c - 48)) by lia. apply IH; try done; try lia.
    by replace (s + 1 + Z.of_nat (length l)) with (s + Z.of_nat (S (length l))) by lia.
Qed.

(** The decimal digits of a number followed by any other byte read back as the
    number; the sum with the byte of the last digit must fit in an [int]. *)
Lemma atoi_decimal m s x f :
  0 <= x < 2 ^ 31 - 48 -> let l := rev (digits_loop 64 x 10) in
  bytes_at m s (length l) = l -> ~ digit (mget m (s + Z.of_nat (length l))) -> (length l < f)%nat ->
  atoi f m s = Some (Some x).
Proof.
  intros Hx l Hb Hd Hf. assert (E : read_digits l = x) by (apply read_digits_loop; simpl; lia).
  rewrite <- E. apply atoi_loop_digits; [done..| |done|unfold read_digits in E; lia|done].
  apply Forall_rev, digits_loop_digit. lia.
Qed.
