(* ===== verification/User.v ===== *)
(** User processes: the system calls a program makes, the runs of a program, and
    user/ulib.c's and user/printf.c's functions that call the kernel.

    A program is an interaction tree over the system calls of user/usys.pl;
    loops are [ITree.iter], so that a program may run forever, as init does.  A
    tree ends in a value (a function returned), or in an [End] event: exit, an
    exec that replaced the image, or undefined behaviour of C.  The bytes a system
    call stores in the caller's buffer are part of its answer; the bytes it reads
    from a buffer are part of the event.  C strings are lists of bytes without the
    NUL.

    [World] is what answers the calls: any function of a state of the rest of the
    system.  [Io] is the contract of the calls on descriptors a program may rely
    on, over an abstract view: a read gives at least one and at most [n] bytes of
    what the descriptor still holds, and nothing at the end.  The theorems about programs are
    proved against it, for every way the reads are cut up. *)

From S2P Require Import Prelude Types Memory Spinlock Sched Sleeplock Uart Printf Ulib.
From ITree Require Import ITree ITreeFacts Events.State Events.StateFacts.
Local Open Scope Z_scope.

(** Calls and accesses with addresses that are not those of an object of the program:
    a path or an argument is a string of the program or an address.  A load or a
    store at an address without memory gives [None].  [sbrklazy] is called by
    usertests.c though user.h does not declare it. *)
Variant rawE : Type -> Type :=
| WriteFrom (fd addr n : Z) : rawE Z
| ReadTo (fd addr n : Z) : rawE Z
| OpenAt (addr omode : Z) : rawE Z
| UnlinkAt (addr : Z) : rawE Z
| LinkAt (old new : list Z + Z) : rawE Z
| ExecAt (path : list Z + Z) (argv : list (list Z + Z)) : rawE (option Z)
| PipeAt (addr : Z) : rawE Z
| Load (n : nat) (addr : Z) : rawE (option Z)
| Store (n : nat) (addr v : Z) : rawE (option unit)
| StackPointer : rawE Z
| Sbrklazy (n : Z) : rawE Z.

(** The system calls of user/user.h that return, with the type of the answer; and
    [pause], which some programs call though user.h does not declare it. *)
Variant sysE : Type -> Type :=
| Fork : sysE Z
| Wait : sysE (Z * Z)
| Pipe : sysE (Z * (Z * Z))
| Write (fd : Z) (l : list Z) : sysE Z
| Read (fd n : Z) : sysE (Z * list Z)
| Close (fd : Z) : sysE Z
| Kill (pid : Z) : sysE Z
| Exec (path : list Z) (argv : list (list Z)) : sysE (option Z)
| Open (path : list Z) (omode : Z) : sysE Z
| Mknod (path : list Z) (major minor : Z) : sysE Z
| Unlink (path : list Z) : sysE Z
| Fstat (fd : Z) : sysE (Z * stat)
| Link (old new : list Z) : sysE Z
| Mkdir (path : list Z) : sysE Z
| Chdir (path : list Z) : sysE Z
| Dup (fd : Z) : sysE Z
| Getpid : sysE Z
| Sbrk (n : Z) : sysE Z
| Sleep (n : Z) : sysE Z
| Pause (n : Z) : sysE Z
| Uptime : sysE Z
| Sync : sysE Z
| Raw {A} (c : rawE A) : sysE A.

(** How a process leaves its image. *)
Variant ending : Type :=
| Exited (status : Z)
| Execed (path : list Z) (argv : list (list Z))
| Undefined (what : string).

Variant userE : Type -> Type :=
| Sys {A} (c : sysE A) : userE A
| End (how : ending) : userE Empty_set.

Abbreviation prog := (itree userE).

Declare Scope u_scope.
Delimit Scope u_scope with U.
Notation "x <- m ;; k" := (ITree.bind m (fun x => k))
  (at level 100, m at next level, k at level 200, right associativity) : u_scope.
Notation "' p <- m ;; k" := (ITree.bind m (fun x => match x with p => k end))
  (at level 20, p pattern, m at level 99, k at level 200, only parsing) : u_scope.
Notation "m ;; k" := (ITree.bind m (fun _ => k))
  (at level 100, k at level 200, right associativity) : u_scope.
Local Open Scope u_scope.

Definition sys {A} (c : sysE A) : prog A := ITree.trigger (Sys c).
Definition halt {A} (how : ending) : prog A := Vis (End how) (fun x : Empty_set => match x with end).

(** A function that is left early returns [inr]; the loops of the programs. *)
Definition while {I A} (body : I -> prog (I + A)) (i : I) : prog A := ITree.iter body i.
Definition continue {I A} (i : I) : prog (I + A) := Ret (inl i).
Definition break {I A} (a : A) : prog (I + A) := Ret (inr a).

(** * user/usys.pl, user/ulib.c *)

Definition write (fd : Z) (l : list Z) : prog Z := sys (Write fd l).
Definition close (fd : Z) : prog Z := sys (Close fd).
Definition kill (pid : Z) : prog Z := sys (Kill pid).
Definition fork : prog Z := sys Fork.
Definition wait : prog (Z * Z) := sys Wait.
Definition exit {A} (status : Z) : prog A := halt (Exited status).
Definition exec (path : list Z) (argv : list (list Z)) : prog Z :=
  r <- sys (Exec path argv) ;;
  match r with Some r => Ret r | None => halt (Execed path argv) end.
Definition open (path : list Z) (omode : Z) : prog Z := sys (Open path omode).

(** [read(fd, buf, n)], into an array the caller owns: the answer and the array
    after the call. *)
Definition put_buf (buf : list Z) (off : Z) (l : list Z) : list Z :=
  take (Z.to_nat off) buf ++ l ++ drop (Z.to_nat off + length l) buf.
Definition read (fd : Z) (buf : list Z) (off n : Z) : prog (Z * list Z) :=
  ' (r, l) <- sys (Read fd n) ;; Ret (r, put_buf buf off l).

(** The wrapper [start] of [main]. *)
Definition start (main : prog Z) : prog unit := r <- main ;; exit r.

(** The loop of [gets]; [buf] is what is stored so far. *)
Fixpoint gets_loop (k : nat) (buf : list Z) : prog (list Z) :=
  match k with
  | O => Ret buf
  | S k =>
      ' (cc, c) <- sys (Read 0 1) ;;
      if cc <? 1 then Ret buf else
      match c with
      | c :: _ =>
          let buf := buf ++ [c] in
          if (c =? 10) || (c =? 13) then Ret buf else gets_loop k buf
      | [] => halt (Undefined "gets: c")
      end
  end.
Definition gets (max : Z) : prog (list Z) := gets_loop (Z.to_nat (max - 1)) [].

Definition stat_ (n : list Z) : prog (Z * option stat) :=
  fd <- open n O_RDONLY ;;
  if fd <? 0 then Ret (-1, None) else
  ' (r, st) <- sys (Fstat fd) ;;
  close fd ;;
  Ret (r, Some st).

Definition sbrk (n : Z) : prog Z := sys (Sbrk n).

(** * user/printf.c *)

(** The bytes of a literal of the source, without escapes. *)
Definition lit (s : string) : list Z := (fun a => Z.of_N (Ascii.N_of_ascii a)) <$> String.list_ascii_of_string s.
Definition nl : list Z := [10].

(** [putc] passes a [char]. *)
Definition uputc (fd c : Z) : prog unit := write fd [u8 c] ;; Ret tt.

Definition udigits : list Z := lit "0123456789ABCDEF".

Fixpoint udigits_loop (fuel : nat) (x base : Z) : list Z :=
  match fuel with
  | O => []
  | S fuel =>
      nth (Z.to_nat (x mod base)) udigits 0 ::
      (if x / base =? 0 then [] else udigits_loop fuel (x / base) base)
  end.

Fixpoint uputcs (fd : Z) (l : list Z) : prog unit :=
  match l with [] => Ret tt | c :: l => uputc fd c ;; uputcs fd l end.

(** [xx] is an [int]: [- xx] overflows for the smallest. *)
Definition uprintint (fd xx base : Z) (sgn : bool) : prog unit :=
  let neg := sgn && (xx <? 0) in
  if neg && (xx =? - 2 ^ 31) then halt (Undefined "printint: -xx") else
  let x := u32 (if neg then - xx else xx) in
  let buf := udigits_loop 32 x base in
  let buf := if neg then buf ++ [45] else buf in
  if (16 <? length buf)%nat then halt (Undefined "printint: buf") else
  uputcs fd (rev buf).

Fixpoint uprintptr_loop (k : nat) (fd x : Z) : prog unit :=
  match k with
  | O => Ret tt
  | S k =>
      uputc fd (nth (Z.to_nat (Z.shiftr x 60)) udigits 0) ;;
      uprintptr_loop k fd (u64 (Z.shiftl x 4))
  end.
Definition uprintptr (fd x : Z) : prog unit := uputc fd 48 ;; uputc fd 120 ;; uprintptr_loop 16 fd x.

Definition uva_int (conv : Z -> Z) (ap : list vararg) (k : Z -> list vararg -> prog unit) : prog unit :=
  match ap with VInt z :: ap => k (conv z) ap | _ => halt (Undefined "va_arg") end.

(** The loop over the format; [state] is whether the last byte was a ['%'].  The
    argument of [%l] is a [uint64] passed to a parameter of type [int]. *)
Fixpoint vprintf_loop (fd : Z) (fmt : list Z) (state : bool) (ap : list vararg) : prog unit :=
  match fmt with
  | [] => Ret tt
  | c :: fmt =>
      if negb state then
        if c =? 37 then vprintf_loop fd fmt true ap
        else uputc fd c ;; vprintf_loop fd fmt false ap
      else if c =? 100 then
        uva_int i32 ap (fun z ap => uprintint fd z 10 true ;; vprintf_loop fd fmt false ap)
      else if c =? 108 then
        uva_int i32 ap (fun z ap => uprintint fd z 10 false ;; vprintf_loop fd fmt false ap)
      else if c =? 120 then
        uva_int i32 ap (fun z ap => uprintint fd z 16 false ;; vprintf_loop fd fmt false ap)
      else if c =? 112 then
        uva_int u64 ap (fun z ap => uprintptr fd z ;; vprintf_loop fd fmt false ap)
      else if c =? 115 then
        match ap with
        | VStr s :: ap => uputcs fd (default null_str s) ;; vprintf_loop fd fmt false ap
        | _ => halt (Undefined "va_arg")
        end
      else if c =? 99 then
        uva_int u32 ap (fun z ap => uputc fd z ;; vprintf_loop fd fmt false ap)
      else if c =? 37 then uputc fd c ;; vprintf_loop fd fmt false ap
      else uputc fd 37 ;; uputc fd c ;; vprintf_loop fd fmt false ap
  end.
Definition vprintf (fd : Z) (fmt : list Z) (ap : list vararg) : prog unit := vprintf_loop fd fmt false ap.
Definition printf (fmt : list Z) (ap : list vararg) : prog unit := vprintf 1 fmt ap.
Definition fprintf (fd : Z) (fmt : list Z) (ap : list vararg) : prog unit := vprintf fd fmt ap.

(** * Runs *)

(** What answers the system calls. *)
Class World (W : Type) : Type := answer : forall A, sysE A -> W -> W * A.
Arguments answer {W _ A}.

Variant endE (W : Type) : Type -> Type := Ended (w : W) (how : ending) : endE W Empty_set.
Arguments Ended {W}.

Definition ended {W A} (w : W) (how : ending) : itree (endE W) A :=
  Vis (Ended w how) (fun x : Empty_set => match x with end).

(** A program came back with a value, or the process left its image. *)
Variant uout (W A : Type) : Type := Val (w : W) (a : A) | Stop (w : W) (how : ending).
Arguments Val {W A}.
Arguments Stop {W A}.

Section Runs.
Context {W : Type} `{!World W}.

Definition handle {A} (e : userE A) : Monads.stateT W (itree (endE W)) A :=
  match e in userE A return Monads.stateT W (itree (endE W)) A with
  | Sys c => fun w => Ret (answer c w)
  | End how => fun w => ended w how
  end.

(** [goes p w o]: from [w], the program [p] comes to [o]. *)
Definition goes {A} (p : prog A) (w : W) (o : uout W A) : Prop :=
  eutt eq (interp_state (@handle) p w)
    match o with Val w a => Ret (w, a) | Stop w how => ended w how end.

Lemma ended_bind {A B} (w : W) how (k : A -> itree (endE W) B) : eutt eq (ITree.bind (ended w how) k) (ended w how).
Proof. unfold ended. rewrite bind_vis. apply eqit_Vis. intros []. Qed.

Lemma goes_ret {A} (a : A) w : goes (Ret a) w (Val w a).
Proof. unfold goes. by rewrite interp_state_ret. Qed.

Lemma goes_sys {A} (c : sysE A) w w' a : answer c w = (w', a) -> goes (sys c) w (Val w' a).
Proof. intros E. unfold goes, sys. rewrite interp_state_trigger. cbn. by rewrite E. Qed.

Lemma goes_halt {A} how w : goes (halt (A:=A) how) w (Stop w how).
Proof. unfold goes, halt. rewrite interp_state_vis. cbn. rewrite ended_bind. reflexivity. Qed.

Lemma goes_bind {A B} (p : prog A) (k : A -> prog B) w w1 a o :
  goes p w (Val w1 a) -> goes (k a) w1 o -> goes (ITree.bind p k) w o.
Proof. unfold goes. intros H1 H2. rewrite interp_state_bind, H1, bind_ret_l. exact H2. Qed.

Lemma goes_bind_stop {A B} (p : prog A) (k : A -> prog B) w w1 how :
  goes p w (Stop w1 how) -> goes (ITree.bind p k) w (Stop w1 how).
Proof. unfold goes. intros H1. rewrite interp_state_bind, H1, ended_bind. reflexivity. Qed.

Lemma goes_while {I A} (body : I -> prog (I + A)) i w w1 x o :
  goes (body i) w (Val w1 x) ->
  match x with inl j => goes (while body j) w1 o | inr a => o = Val w1 a end ->
  goes (while body i) w o.
Proof.
  unfold while, goes. intros H1 H2. rewrite unfold_iter, interp_state_bind, H1, bind_ret_l. cbn.
  destruct x as [j|a].
  - rewrite interp_state_tau, tau_eutt. exact H2.
  - subst o. by rewrite interp_state_ret.
Qed.

Lemma goes_while_more {I A} (body : I -> prog (I + A)) i j w w1 o :
  goes (body i) w (Val w1 (inl j)) -> goes (while body j) w1 o -> goes (while body i) w o.
Proof. intros H1 H2. by eapply goes_while. Qed.

Lemma goes_while_done {I A} (body : I -> prog (I + A)) i w w1 a :
  goes (body i) w (Val w1 (inr a)) -> goes (while body i) w (Val w1 a).
Proof. intros H1. by eapply goes_while. Qed.

Lemma goes_while_stop {I A} (body : I -> prog (I + A)) i w w1 how :
  goes (body i) w (Stop w1 how) -> goes (while body i) w (Stop w1 how).
Proof. unfold while, goes. intros H1. rewrite unfold_iter, interp_state_bind, H1, ended_bind. reflexivity. Qed.

(** [p] runs for ever without another end. *)
Definition diverges {A} (p : prog A) (w : W) : Prop := eutt eq (interp_state (@handle) p w) ITree.spin.

Lemma spin_unfold {E A} : eq_itree eq (ITree.spin : itree E A) (Tau ITree.spin).
Proof. rewrite itree_eta at 1. reflexivity. Qed.

Lemma while_diverges {I A} (body : I -> prog (I + A)) (R : I -> W -> Prop) :
  (forall i w, R i w -> exists j w', goes (body i) w (Val w' (inl j)) /\ R j w') ->
  forall i w, R i w -> diverges (while body i) w.
Proof.
  intros Hb. unfold diverges, while. einit. ecofix CIH. intros i w HR.
  destruct (Hb i w HR) as (j & w' & G & HR'). apply eutt_inv_Ret_r in G.
  rewrite unfold_iter, interp_state_bind, G, bind_ret_l. cbn. rewrite interp_state_tau, spin_unfold.
  etau.
Qed.

(** Turns of a loop. *)
Definition turn {I A} (body : I -> prog (I + A)) (x y : I * W) : Prop :=
  goes (body x.1) x.2 (Val y.2 (inl y.1)).

Lemma goes_while_turns {I A} (body : I -> prog (I + A)) x y o :
  rtc (turn body) x y -> goes (while body y.1) y.2 o -> goes (while body x.1) x.2 o.
Proof. induction 1 as [x|x y z H1 _ IH]; [done|]. intros Ho. eapply goes_while_more; [exact H1|by apply IH]. Qed.

(** A loop that comes again and again to states of [R] never ends. *)
Lemma while_diverges_turns {I A} (body : I -> prog (I + A)) (R : I * W -> Prop) :
  (forall x, R x -> exists y, tc (turn body) x y /\ R y) -> forall i w, R (i, w) -> diverges (while body i) w.
Proof.
  intros HR i w Hi. apply (while_diverges body (fun i w => exists y, rtc (turn body) (i, w) y /\ R y)).
  2:{ exists (i, w). split; [apply rtc_refl|done]. }
  clear i w Hi. intros i w (y & Hy & Ry).
  assert (Ht : exists z, tc (turn body) (i, w) z /\ R z).
  { destruct (HR y Ry) as (z & Hz & Rz). exists z. split; [|done]. by eapply tc_rtc_l. }
  destruct Ht as (z & Hz & Rz). apply tc_rtc in Hz as Hz'. inversion Hz as [? ? H1|? [j w'] ? H1 H2]; subst.
  - destruct z as [j w']. exists j, w'. split; [exact H1|]. exists (j, w'). split; [apply rtc_refl|done].
  - exists j, w'. split; [exact H1|]. exists z. split; [by apply tc_rtc|done].
Qed.

Lemma diverges_bind_l {A B} (p : prog A) (k : A -> prog B) w : diverges p w -> diverges (ITree.bind p k) w.
Proof.
  unfold diverges. intros H1. rewrite interp_state_bind, H1. clear H1.
  generalize (fun st : W * A => interp_state (@handle) (k (snd st)) (fst st)). intros f.
  einit. ecofix CIH. rewrite spin_unfold, bind_tau, (spin_unfold (A := W * B)). etau.
Qed.

Lemma diverges_bind_r {A B} (p : prog A) (k : A -> prog B) w w1 a :
  goes p w (Val w1 a) -> diverges (k a) w1 -> diverges (ITree.bind p k) w.
Proof. unfold goes, diverges. intros H1 H2. rewrite interp_state_bind, H1, bind_ret_l. exact H2. Qed.

Lemma diverges_no_end {A} (p : prog A) w o : diverges p w -> ~ goes p w o.
Proof.
  unfold diverges, goes. intros H1 H2. rewrite H1 in H2. destruct o.
  - by apply eutt_spin_Ret_abs in H2.
  - by apply eutt_spin_Vis_abs in H2.
Qed.

Definition endE_data {A} (e : endE W A) : W * ending := match e with Ended w how => (w, how) end.

Lemma eqeq_endE {A B} (e : endE W A) (e' : endE W B) (p : A = B) :
  eqeq (endE W) p e e' -> endE_data e = endE_data e'.
Proof. destruct p. cbn. by intros ->. Qed.

(** A run has one outcome. *)
Lemma goes_det {A} (p : prog A) w o o' : goes p w o -> goes p w o' -> o = o'.
Proof.
  unfold goes. intros H1 H2. rewrite H1 in H2. destruct o as [w1 a1|w1 h1], o' as [w2 a2|w2 h2].
  - apply eutt_inv_Ret in H2. congruence.
  - apply eqit_inv in H2. destruct H2.
  - apply eqit_inv in H2. destruct H2.
  - apply eqit_inv_Vis_weak in H2 as (q & H2 & _). apply eqeq_endE in H2. cbn in H2. congruence.
Qed.

End Runs.

(** * The contract of the calls on descriptors *)

(** What each open descriptor still gives, what was written to each, and what the
    files hold. *)
Record io_view : Type := mk_io_view {
  v_in : gmap Z (list Z);
  v_out : gmap Z (list Z);
  v_files : gmap (list Z) (list Z);
}.
Definition set_v_in (f : gmap Z (list Z) -> gmap Z (list Z)) (v : io_view) : io_view :=
  mk_io_view (f (v_in v)) (v_out v) (v_files v).
Definition set_v_out (f : gmap Z (list Z) -> gmap Z (list Z)) (v : io_view) : io_view :=
  mk_io_view (v_in v) (f (v_out v)) (v_files v).

Class Io (W : Type) `{!World W} : Type := {
  view : W -> io_view;
  io_read : forall w fd s n,
    v_in (view w) !! fd = Some s -> 0 < n ->
    exists (k : nat) w', answer (Read fd n) w = (w', (Z.of_nat k, take k s)) /\
      Z.of_nat k <= n /\ (k <= length s)%nat /\ (s <> [] -> (0 < k)%nat) /\
      view w' = set_v_in <[fd := drop k s]> (view w);
  io_write : forall w fd s l,
    v_out (view w) !! fd = Some s ->
    exists w', answer (Write fd l) w = (w', Z.of_nat (length l)) /\
      view w' = set_v_out <[fd := s ++ l]> (view w);
  io_open : forall w path s,
    v_files (view w) !! path = Some s ->
    exists fd w', answer (Open path O_RDONLY) w = (w', fd) /\ 0 <= fd /\
      v_in (view w) !! fd = None /\ view w' = set_v_in <[fd := s]> (view w);
  io_open_none : forall w path,
    v_files (view w) !! path = None ->
    exists r w', answer (Open path O_RDONLY) w = (w', r) /\ r < 0 /\ view w' = view w;
  io_close : forall w fd s,
    v_in (view w) !! fd = Some s ->
    exists w', answer (Close fd) w = (w', 0) /\ view w' = set_v_in (delete fd) (view w);
}.

(** * Output *)

Section Output.
Context {W : Type} `{Io W}.

(** What a write to [fd] does not change. *)
Definition stable_write (fd : Z) (P : W -> Prop) : Prop := forall w l, P w -> P (answer (Write fd l) w).1.

(** [p] returns, having sent [l] to [fd] and made no other call. *)
Definition says (p : prog unit) (fd : Z) (l : list Z) : Prop :=
  forall w s, v_out (view w) !! fd = Some s ->
    exists w', goes p w (Val w' tt) /\ view w' = set_v_out <[fd := s ++ l]> (view w) /\
      forall P, stable_write fd P -> P w -> P w'.

Lemma says_ret fd : says (Ret tt) fd [].
Proof.
  intros w s Hs. exists w. split_and!; [apply goes_ret| |done]. rewrite app_nil_r. unfold set_v_out.
  rewrite insert_id by done. by destruct (view w).
Qed.

Lemma says_bind p q fd l l' : says p fd l -> says q fd l' -> says (p ;; q) fd (l ++ l').
Proof.
  intros Hp Hq w s Hs. destruct (Hp w s Hs) as (w1 & G1 & V1 & K1).
  destruct (Hq w1 (s ++ l)) as (w2 & G2 & V2 & K2); [rewrite V1; apply lookup_insert_eq|].
  exists w2. split_and!; [by eapply goes_bind| |intros P HP Pw; by apply K2, K1]. rewrite V2, V1. unfold set_v_out. cbn.
  by rewrite insert_insert_eq, app_assoc.
Qed.

Lemma says_write fd l : says (write fd l ;; Ret tt) fd l.
Proof.
  intros w s Hs. destruct (io_write w fd s l Hs) as (w' & E & V). exists w'. split_and!; [|done|].
  - eapply goes_bind; [by apply goes_sys|apply goes_ret].
  - intros P HP Pw. specialize (HP w l Pw). by rewrite E in HP.
Qed.

Lemma says_putc fd c : says (uputc fd c) fd [u8 c].
Proof. apply says_write. Qed.

Lemma says_putcs fd l : Forall byte_ok l -> says (uputcs fd l) fd l.
Proof.
  induction 1 as [|c l Hc _ IH]; cbn [uputcs]; [apply says_ret|]. apply (says_bind _ _ fd [c] l); [|done].
  replace [c] with [u8 c]; [apply says_putc|]. f_equal. by apply wrap_small.
Qed.

(** The text of an [int]. *)
Definition dec_text (z : Z) : list Z :=
  (if z <? 0 then [45] else []) ++ rev (digits_loop 32 (Z.abs z) 10).

Lemma udigits_loop_dec f x : 0 <= x -> udigits_loop f x 10 = digits_loop f x 10.
Proof.
  revert x; induction f as [|f IH]; intros x Hx; cbn [udigits_loop digits_loop]; [done|].
  rewrite IH by (apply Z.div_pos; lia). f_equal. pose proof (Z.mod_pos_bound x 10 ltac:(lia)).
  assert (E : x mod 10 = 0 \/ x mod 10 = 1 \/ x mod 10 = 2 \/ x mod 10 = 3 \/ x mod 10 = 4 \/
    x mod 10 = 5 \/ x mod 10 = 6 \/ x mod 10 = 7 \/ x mod 10 = 8 \/ x mod 10 = 9) by lia.
  by repeat destruct E as [->|E]; [..|rewrite E].
Qed.

Lemma dec_text_read z : - 2 ^ 31 < z < 2 ^ 31 -> read_int (dec_text z) = z.
Proof.
  intros Hz. unfold dec_text. destruct (Z.ltb_spec z 0).
  - cbn [app read_int]. rewrite Z.eqb_refl, read_digits_loop; simpl; lia.
  - destruct (digits_loop_head 32 (Z.abs z)) as (c & r & E & Hc); [lia..|]. cbn [app]. rewrite E.
    cbn [read_int]. rewrite (proj2 (Z.eqb_neq _ _)) by lia. rewrite <- E, read_digits_loop; simpl; lia.
Qed.

Lemma dec_text_ok z : - 2 ^ 31 < z < 2 ^ 31 -> Forall byte_ok (dec_text z).
Proof.
  intros Hz. unfold dec_text. apply Forall_app. split.
  - case_match; repeat constructor; lia.
  - apply Forall_rev. eapply Forall_impl; [apply digits_loop_digit; lia|]. intros c Hc. unfold byte_ok. cbn in Hc. lia.
Qed.

Lemma says_printint fd z : - 2 ^ 31 < z < 2 ^ 31 -> says (uprintint fd z 10 true) fd (dec_text z).
Proof.
  intros Hz. unfold uprintint. cbn [andb]. rewrite (proj2 (Z.eqb_neq z (- 2 ^ 31))) by lia. rewrite andb_false_r.
  replace (u32 (if z <? 0 then - z else z)) with (Z.abs z) by (destruct (Z.ltb_spec z 0); rewrite wrap_small; lia).
  rewrite udigits_loop_dec by lia. pose proof (dec_text_ok z Hz) as Hok.
  assert (Hl : (length (digits_loop 32 (Z.abs z) 10) <= 15)%nat) by (apply digits_loop_length; simpl; lia).
  unfold dec_text in *. destruct (z <? 0).
  - rewrite length_app. cbn [length]. rewrite (proj2 (Nat.ltb_ge _ _)) by lia. rewrite rev_app_distr. by apply says_putcs.
  - rewrite (proj2 (Nat.ltb_ge _ _)) by lia. by apply says_putcs.
Qed.

(** A format as its parts: text without a ['%'], [%d], [%s] and [%%]. *)
Inductive piece : Type := PLit (l : list Z) | PDec (z : Z) | PStr (s : list Z) | PPercent.
Definition piece_ok (p : piece) : Prop :=
  match p with
  | PLit l => Forall byte_ok l /\ 37 ∉ l
  | PDec z => - 2 ^ 31 < z < 2 ^ 31
  | PStr s => Forall byte_ok s
  | PPercent => True
  end.
Definition piece_fmt (p : piece) : list Z :=
  match p with PLit l => l | PDec _ => [37; 100] | PStr _ => [37; 115] | PPercent => [37; 37] end.
Definition piece_args (p : piece) : list vararg :=
  match p with PDec z => [VInt z] | PStr s => [VStr (Some s)] | _ => [] end.
Definition piece_text (p : piece) : list Z :=
  match p with PLit l => l | PDec z => dec_text z | PStr s => s | PPercent => [37] end.

Lemma says_lit fd l fmt ap t :
  Forall byte_ok l -> 37 ∉ l -> says (vprintf_loop fd fmt false ap) fd t ->
  says (vprintf_loop fd (l ++ fmt) false ap) fd (l ++ t).
Proof.
  intros Hl Hp Ht. induction Hl as [|c l Hc _ IH]; [done|]. apply not_elem_of_cons in Hp as [Hc' Hp].
  cbn [app vprintf_loop negb]. rewrite (proj2 (Z.eqb_neq _ _)) by done.
  apply (says_bind _ _ fd [c] (l ++ t)); [|by apply IH]. replace [c] with [u8 c]; [apply says_putc|].
  f_equal. by apply wrap_small.
Qed.

(** Every conversion of a format is sent in its place. *)
Lemma says_vprintf fd ps :
  Forall piece_ok ps ->
  says (vprintf fd (ps ≫= piece_fmt) (ps ≫= piece_args)) fd (ps ≫= piece_text).
Proof.
  unfold vprintf. induction 1 as [|p ps Hp _ IH]; cbn; [apply says_ret|].
  destruct p as [l|z|s|]; cbn [piece_ok piece_fmt piece_args piece_text] in *.
  - destruct Hp. by apply says_lit.
  - cbn. rewrite swrap_small by lia. apply says_bind; [by apply says_printint|done].
  - cbn. apply says_bind; [by apply says_putcs|done].
  - cbn. apply (says_bind _ _ fd [37]); [apply says_putc|done].
Qed.

End Output.

(** * A world that keeps the contract *)

(** Files and pending input are bytes; a read gives [pw_step] + 1 bytes at most.
    Calls that are not about descriptors fail. *)
Record plain : Type := mk_plain { pw_view : io_view; pw_step : nat }.

Definition plain_fd (v : io_view) : Z := Z.of_nat (fresh (set_map Z.to_nat (dom (v_in v)) : gset nat)).

Definition raw_fails {A} (c : rawE A) : A :=
  match c in rawE A return A with
  | ExecAt _ _ => Some (-1) | Load _ _ => None | Store _ _ _ => None | Sbrklazy _ => 2 ^ 64 - 1 | StackPointer => 0
  | _ => -1
  end.

Definition plain_answer {A} (c : sysE A) (w : plain) : plain * A :=
  let v := pw_view w in
  let with_view v' := mk_plain v' (pw_step w) in
  match c in sysE A return plain * A with
  | Read fd n =>
      match v_in v !! fd with
      | Some s =>
          let k := Nat.min (length s) (Nat.min (Z.to_nat n) (S (pw_step w))) in
          (with_view (set_v_in <[fd := drop k s]> v), (Z.of_nat k, take k s))
      | None => (w, (-1, []))
      end
  | Write fd l =>
      match v_out v !! fd with
      | Some s => (with_view (set_v_out <[fd := s ++ l]> v), Z.of_nat (length l))
      | None => (w, -1)
      end
  | Open path omode =>
      match v_files v !! path with
      | Some s => (with_view (set_v_in <[plain_fd v := s]> v), plain_fd v)
      | None => (w, -1)
      end
  | Close fd =>
      match v_in v !! fd with
      | Some _ => (with_view (set_v_in (delete fd) v), 0)
      | None => (w, -1)
      end
  | Fork => (w, -1) | Wait => (w, (-1, 0)) | Pipe => (w, (-1, (0, 0)))
  | Kill _ => (w, -1) | Exec _ _ => (w, Some (-1)) | Mknod _ _ _ => (w, -1)
  | Unlink _ => (w, -1) | Fstat _ => (w, (-1, mk_stat 0 0 0 0 0)) | Link _ _ => (w, -1)
  | Mkdir _ => (w, -1) | Chdir _ => (w, -1) | Dup _ => (w, -1) | Getpid => (w, 1)
  | Sbrk _ => (w, -1) | Sleep _ => (w, 0) | Pause _ => (w, -1) | Uptime => (w, 0) | Sync => (w, -1)
  | Raw c => (w, raw_fails c)
  end.

#[export] Instance plain_world : World plain := @plain_answer.

#[export] Program Instance plain_io : Io plain := {| view := pw_view |}.
Next Obligation.
  intros w fd s n Hs Hn. unfold answer, plain_world, plain_answer. rewrite Hs.
  eexists _, _. split; [done|]. split_and!; [lia|lia| |done].
  intros Hne. destruct s; [done|]. cbn [length]. lia.
Qed.
Next Obligation.
  intros w fd s l Hs. unfold answer, plain_world, plain_answer. rewrite Hs. eauto.
Qed.
Next Obligation.
  intros w path s Hs. unfold answer, plain_world, plain_answer. rewrite Hs.
  eexists _, _. split; [done|]. split_and!; [unfold plain_fd; lia| |done].
  apply not_elem_of_dom. intros Hin. apply (is_fresh (set_map Z.to_nat (dom (v_in (pw_view w))) : gset nat)).
  apply elem_of_map. exists (plain_fd (pw_view w)). split; [|done]. unfold plain_fd. by rewrite Nat2Z.id.
Qed.
Next Obligation.
  intros w path Hs. unfold answer, plain_world, plain_answer. rewrite Hs. eexists _, _. done.
Qed.
Next Obligation.
  intros w fd s Hs. unfold answer, plain_world, plain_answer. rewrite Hs. eauto.
Qed.

(** The same with more state beside it, which the calls on descriptors do not use. *)
Definition lifted {B} `{!World (plain * B)} {A} (c : sysE A) : Prop :=
  forall p b, answer c (p, b) = let '(p', r) := plain_answer c p in ((p', b), r).

Program Definition plain_lift_io {B} `{!World (plain * B)} (HR : forall fd n, lifted (Read fd n))
    (HW : forall fd l, lifted (Write fd l)) (HO : forall path m, lifted (Open path m))
    (HC : forall fd, lifted (Close fd)) : Io (plain * B) := {| view w := pw_view w.1 |}.
Next Obligation.
  intros B W0 HR HW HO HC [p b] fd s n Hs Hn. destruct (@io_read plain _ plain_io p fd s n Hs Hn) as (k & p' & E & Hr).
  exists k, (p', b). rewrite HR. unfold answer, plain_world in E. by rewrite E.
Qed.
Next Obligation.
  intros B W0 HR HW HO HC [p b] fd s l Hs. destruct (@io_write plain _ plain_io p fd s l Hs) as (p' & E & Hr).
  exists (p', b). rewrite HW. unfold answer, plain_world in E. by rewrite E.
Qed.
Next Obligation.
  intros B W0 HR HW HO HC [p b] path s Hs. destruct (@io_open plain _ plain_io p path s Hs) as (fd & p' & E & Hr).
  exists fd, (p', b). rewrite HO. unfold answer, plain_world in E. by rewrite E.
Qed.
Next Obligation.
  intros B W0 HR HW HO HC [p b] path Hs. destruct (@io_open_none plain _ plain_io p path Hs) as (r & p' & E & Hr).
  exists r, (p', b). rewrite HO. unfold answer, plain_world in E. by rewrite E.
Qed.
Next Obligation.
  intros B W0 HR HW HO HC [p b] fd s Hs. destruct (@io_close plain _ plain_io p fd s Hs) as (p' & E & Hr).
  exists (p', b). rewrite HC. unfold answer, plain_world in E. by rewrite E.
Qed.
