(* ===== verification/Programs.v ===== *)
(** The user programs cat.c, echo.c, wc.c, kill.c, ln.c, mkdir.c, rm.c, init.c,
    zombie.c, sync.c, test.c, execchild1.c, initcode.c, forktest.c, forphan.c,
    dorphan.c, logstress.c, stressfs.c and ls.c, as trees of system calls (User.v).

    A global array is a value threaded through the calls; what C leaves undefined
    (an access past the end of an array, a variable without a value) ends the
    program in [Undefined].  What the programs do is proved in ProgSpec.v. *)

From S2P Require Import Prelude Types Memory Spinlock Sched Sleeplock Uart Printf Ulib User.
From ITree Require Import ITree ITreeFacts Events.State Events.StateFacts.
Local Open Scope Z_scope.
Local Open Scope u_scope.

(** * cat.c *)

Definition cat_BUF : Z := 512.

Definition cat_body (fd : Z) (buf : list Z) : prog (list Z + list Z) :=
  ' (n, buf) <- read fd buf 0 cat_BUF ;;
  if 0 <? n then
    r <- write 1 (take (Z.to_nat n) buf) ;;
    if negb (r =? n) then fprintf 2 (lit "cat: write error" ++ nl) [] ;; exit 1
    else continue buf
  else if n <? 0 then fprintf 2 (lit "cat: read error" ++ nl) [] ;; exit 1
  else break buf.
Definition cat (fd : Z) (buf : list Z) : prog (list Z) := while (cat_body fd) buf.

Fixpoint cat_main_loop (argv : list (list Z)) (buf : list Z) : prog Z :=
  match argv with
  | [] => exit 0
  | arg :: argv =>
      fd <- open arg O_RDONLY ;;
      if fd <? 0 then
        fprintf 2 (lit "cat: cannot open %s" ++ nl) [VStr (Some arg)] ;; exit 1
      else
      buf <- cat fd buf ;;
      close fd ;;
      cat_main_loop argv buf
  end.
Definition cat_main (argv : list (list Z)) : prog Z :=
  let buf := replicate (Z.to_nat cat_BUF) 0 in
  if (length argv <=? 1)%nat then cat 0 buf ;; exit 0
  else cat_main_loop (drop 1 argv) buf.

(** * echo.c *)

(** From [argv[i]] on. *)
Fixpoint echo_main_loop (argv : list (list Z)) : prog Z :=
  match argv with
  | [] => exit 0
  | arg :: argv =>
      write 1 arg ;;
      (match argv with [] => write 1 nl | _ => write 1 (lit " ") end) ;;
      echo_main_loop argv
  end.
Definition echo_main (argv : list (list Z)) : prog Z := echo_main_loop (drop 1 argv).

(** * wc.c *)

Definition wc_BUF : Z := 512.

(** [strchr(" \r\t\n\v", c)] of ulib.c on the bytes of the literal *)
Definition blanks : list Z := [32; 13; 9; 10; 11].
Definition blank (c : Z) : bool :=
  match Ulib.strchr 6 (put_bytes ∅ 0 (blanks ++ [0])) 0 c with Some (Some _) => true | _ => false end.

(** [l], [w], [c], [inword] *)
Record counts := mk_counts { n_l : Z; n_w : Z; n_c : Z; inword : bool }.

Definition count1 (s : counts) (b : Z) : counts :=
  let c := i32 (n_c s + 1) in
  let l := if b =? 10 then i32 (n_l s + 1) else n_l s in
  if blank b then mk_counts l (n_w s) c false
  else if negb (inword s) then mk_counts l (i32 (n_w s + 1)) c true
  else mk_counts l (n_w s) c (inword s).

Definition wc_body (fd : Z) (st : list Z * counts) : prog ((list Z * counts) + (Z * list Z * counts)) :=
  let '(buf, s) := st in
  ' (n, buf) <- read fd buf 0 wc_BUF ;;
  if 0 <? n then continue (buf, fold_left count1 (take (Z.to_nat n) buf) s)
  else break (n, buf, s).
Definition wc (fd : Z) (name : list Z) (buf : list Z) : prog (list Z) :=
  r <- while (wc_body fd) (buf, mk_counts 0 0 0 false) ;;
  let '(n, buf, s) := r in
  if n <? 0 then printf (lit "wc: read error" ++ nl) [] ;; exit 1 else
  printf (lit "%d %d %d %s" ++ nl) [VInt (n_l s); VInt (n_w s); VInt (n_c s); VStr (Some name)] ;;
  Ret buf.

Fixpoint wc_main_loop (argv : list (list Z)) (buf : list Z) : prog Z :=
  match argv with
  | [] => exit 0
  | arg :: argv =>
      fd <- open arg O_RDONLY ;;
      if fd <? 0 then
        printf (lit "wc: cannot open %s" ++ nl) [VStr (Some arg)] ;; exit 1
      else
      buf <- wc fd arg buf ;;
      close fd ;;
      wc_main_loop argv buf
  end.
Definition wc_main (argv : list (list Z)) : prog Z :=
  let buf := replicate (Z.to_nat wc_BUF) 0 in
  if (length argv <=? 1)%nat then wc 0 [] buf ;; exit 0
  else wc_main_loop (drop 1 argv) buf.

(** * kill.c *)

Fixpoint kill_main_loop (argv : list (list Z)) : prog Z :=
  match argv with
  | [] => exit 0
  | arg :: argv =>
      match Ulib.atoi (S (length arg)) (put_bytes ∅ 0 (arg ++ [0])) 0 with
      | Some (Some pid) => kill pid ;; kill_main_loop argv
      | _ => halt (Undefined "atoi")
      end
  end.
Definition kill_main (argv : list (list Z)) : prog Z :=
  if (length argv <? 2)%nat then fprintf 2 (lit "usage: kill pid..." ++ nl) [] ;; exit 1
  else kill_main_loop (drop 1 argv).

(** * ln.c *)

Definition ln_main (argv : list (list Z)) : prog Z :=
  match argv with
  | [_; old; new] =>
      r <- sys (Link old new) ;;
      (if r <? 0 then fprintf 2 (lit "link %s %s: failed" ++ nl) [VStr (Some old); VStr (Some new)] else Ret tt) ;;
      exit 0
  | _ => fprintf 2 (lit "Usage: ln old new" ++ nl) [] ;; exit 1
  end.

(** * mkdir.c *)

Fixpoint mkdir_main_loop (argv : list (list Z)) : prog unit :=
  match argv with
  | [] => Ret tt
  | arg :: argv =>
      r <- sys (Mkdir arg) ;;
      if r <? 0 then fprintf 2 (lit "mkdir: %s failed to create" ++ nl) [VStr (Some arg)]
      else mkdir_main_loop argv
  end.
Definition mkdir_main (argv : list (list Z)) : prog Z :=
  if (length argv <? 2)%nat then fprintf 2 (lit "Usage: mkdir files..." ++ nl) [] ;; exit 1
  else mkdir_main_loop (drop 1 argv) ;; exit 0.

(** * rm.c *)

Fixpoint rm_main_loop (argv : list (list Z)) : prog unit :=
  match argv with
  | [] => Ret tt
  | arg :: argv =>
      r <- sys (Unlink arg) ;;
      if r <? 0 then fprintf 2 (lit "rm: %s failed to delete" ++ nl) [VStr (Some arg)]
      else rm_main_loop argv
  end.
Definition rm_main (argv : list (list Z)) : prog Z :=
  if (length argv <? 2)%nat then fprintf 2 (lit "Usage: rm files..." ++ nl) [] ;; exit 1
  else rm_main_loop (drop 1 argv) ;; exit 0.

(** * init.c *)

(** [for (;;) { wpid = wait(0); ... }] *)
Definition init_wait_body (pid : Z) (_ : unit) : prog (unit + unit) :=
  ' (wpid, _) <- wait ;;
  if wpid =? pid then break tt
  else if wpid <? 0 then printf (lit "init: wait returned an error" ++ nl) [] ;; exit 1
  else continue tt.

Definition init_main_body (_ : unit) : prog (unit + Z) :=
  printf (lit "init: starting sh" ++ nl) [] ;;
  pid <- fork ;;
  if pid <? 0 then printf (lit "init: fork failed" ++ nl) [] ;; exit 1 else
  if pid =? 0 then
    exec (lit "sh") [lit "sh"] ;;
    printf (lit "init: exec sh failed" ++ nl) [] ;;
    exit 1
  else
  while (init_wait_body pid) tt ;;
  continue tt.

Definition init_setup : prog unit :=
  r <- open (lit "console") O_RDWR ;;
  (if r <? 0 then
     sys (Mknod (lit "console") CONSOLE 0) ;;
     open (lit "console") O_RDWR ;; Ret tt
   else Ret tt) ;;
  sys (Dup 0) ;;
  sys (Dup 0) ;; Ret tt.

Definition init_main : prog Z := init_setup ;; while init_main_body tt.

(** * zombie.c *)

Definition zombie_main : prog Z :=
  pid <- fork ;;
  (if 0 <? pid then sys (Pause 5) ;; Ret tt else Ret tt) ;;
  exit 0.

(** * sync.c *)

Definition sync_main : prog Z := sys Sync ;; exit 0.

(** * test.c *)

Definition test_main : prog Z := printf (lit "test: user program is running" ++ nl) [] ;; exit 0.

(** * execchild1.c *)

(** [while (1);] makes no call. *)
Definition execchild1_main : prog Z := write 3 [] ;; while (fun _ : unit => continue tt) tt.

(** * initcode.c *)

(** [printf(msg, getpid(), uptime())]: the calls are made before [printf], in an
    order C leaves open; each only reads. *)
Definition initcode_uptime (msg : list Z) : prog unit :=
  p <- sys Getpid ;;
  t <- sys Uptime ;;
  printf msg [VInt p; VInt t].

Definition initcode_fork_failed (msg : list Z) : prog Z :=
  p <- sys Getpid ;;
  printf msg [VInt p] ;;
  Ret 0.

(** child 3: sleep test *)
Definition initcode_child3 (to_be_killed : Z) : prog Z :=
  sys (Sleep 10) ;;
  initcode_uptime (lit "[pid: %d] sleep test - 1s. uptime: %d" ++ nl) ;;
  sys (Sleep 20) ;;
  initcode_uptime (lit "[pid: %d] sleep test - 2s. uptime: %d" ++ nl) ;;
  sys (Sleep 30) ;;
  initcode_uptime (lit "[pid: %d] sleep test - 3s. uptime: %d" ++ nl) ;;
  kill to_be_killed ;;
  exit 0.

(** The first [while (1)]: init waits for its children. *)
Definition initcode_wait_body (_ : unit) : prog (unit + unit) :=
  ' (pid, xstate) <- wait ;;
  if pid <? 0 then break tt else
  p <- sys Getpid ;;
  printf (lit "[pid: %d] wait - pid: %d - exit code: %d" ++ nl) [VInt p; VInt pid; VInt xstate] ;;
  continue tt.

Definition initcode_init : prog Z :=
  while initcode_wait_body tt ;;
  initcode_uptime (lit "[pid: %d] uptime: %d, init process has no child now, over!" ++ nl) ;;
  while (fun _ : unit => continue tt) tt.

Definition initcode_main : prog Z :=
  pid <- fork ;;
  if pid <? 0 then initcode_fork_failed (lit "[pid: %d] 1st fork() failed") else
  if pid =? 0 then exec (lit "execchild1") [lit "execchild1"] ;; exit 0 else
  let to_be_killed := pid in
  pid <- fork ;;
  if pid <? 0 then initcode_fork_failed (lit "[pid: %d] 2nd fork() failed") else
  if pid =? 0 then exec (lit "execchild2") [lit "execchild2"] ;; exit 0 else
  pid <- fork ;;
  if pid <? 0 then initcode_fork_failed (lit "[pid: %d] 2nd fork() failed") else
  if pid =? 0 then initcode_child3 to_be_killed else
  initcode_init.

(** * forktest.c *)

Definition forktest_N : nat := 1000.

Definition forktest_print (s : list Z) : prog unit := write 1 s ;; Ret tt.

(** [for (n = 0; n < N; n++)], [k] turns to go *)
Fixpoint forktest_fork_loop (k : nat) (n : Z) : prog Z :=
  match k with
  | O => Ret n
  | S k =>
      pid <- fork ;;
      if pid <? 0 then Ret n else
      if pid =? 0 then exit 0 else
      forktest_fork_loop k (n + 1)
  end.

(** [for (; n > 0; n--)] *)
Fixpoint forktest_wait_loop (n : nat) : prog unit :=
  match n with
  | O => Ret tt
  | S n =>
      ' (pid, _) <- wait ;;
      if pid <? 0 then forktest_print (lit "wait stopped early" ++ nl) ;; exit 1 else
      forktest_wait_loop n
  end.

Definition forktest : prog unit :=
  forktest_print (lit "fork test" ++ nl) ;;
  n <- forktest_fork_loop forktest_N 0 ;;
  if n =? Z.of_nat forktest_N then forktest_print (lit "fork claimed to work N times!" ++ nl) ;; exit 1 else
  forktest_wait_loop (Z.to_nat n) ;;
  ' (pid, _) <- wait ;;
  if negb (pid =? -1) then forktest_print (lit "wait got too many" ++ nl) ;; exit 1 else
  forktest_print (lit "fork test OK" ++ nl).

Definition forktest_main : prog Z := forktest ;; exit 0.

(** [for (;;) pause(1000);] *)
Definition pause_forever {A} : prog A := while (fun _ : unit => sys (Pause 1000) ;; continue tt) tt.

(** * forphan.c *)

Definition forphan_main (argv : list (list Z)) : prog Z :=
  let s := argv !! 0%nat in
  let ff := lit "file0" in
  fd <- open ff (Z.lor O_CREATE O_WRONLY) ;;
  if fd <? 0 then printf (lit "%s: open failed" ++ nl) [VStr s] ;; exit 1 else
  ' (r, st) <- sys (Fstat fd) ;;
  if r <? 0 then
    fprintf 2 (lit "%s: cannot stat %s" ++ nl) [VStr s; VStr (Some (lit "ff"))] ;; exit 1
  else
  r <- sys (Unlink ff) ;;
  if r <? 0 then printf (lit "%s: unlink failed" ++ nl) [VStr s] ;; exit 1 else
  r <- open ff O_RDONLY ;;
  if negb (r =? -1) then printf (lit "%s: open successed" ++ nl) [VStr s] ;; exit 1 else
  printf (lit "wait for kill and reclaim %d" ++ nl) [VInt (st_ino st)] ;;
  pause_forever.

(** * dorphan.c *)

Definition dorphan_main (argv : list (list Z)) : prog Z :=
  let s := argv !! 0%nat in
  r <- sys (Mkdir (lit "dd")) ;;
  if negb (r =? 0) then printf (lit "%s: mkdir dd failed" ++ nl) [VStr s] ;; exit 1 else
  r <- sys (Chdir (lit "dd")) ;;
  if negb (r =? 0) then printf (lit "%s: chdir dd failed" ++ nl) [VStr s] ;; exit 1 else
  r <- sys (Unlink (lit "../dd")) ;;
  if r <? 0 then printf (lit "%s: unlink failed" ++ nl) [VStr s] ;; exit 1 else
  printf (lit "wait for kill and reclaim" ++ nl) [] ;;
  pause_forever.

(** [memset] and the bytes given to [write], on an array of the program: undefined
    past its end. *)
Definition memset_buf (buf : list Z) (c n : Z) : prog (list Z) :=
  if n <=? Z.of_nat (length buf) then Ret (put_buf buf 0 (replicate (Z.to_nat n) (u8 c)))
  else halt (Undefined "memset: buf").
Definition write_buf (fd : Z) (buf : list Z) (n : Z) : prog Z :=
  if n <=? Z.of_nat (length buf) then write fd (take (Z.to_nat n) buf) else halt (Undefined "write: buf").

(** * logstress.c *)

Definition BUFSZ : Z := 500.
Definition logstress_N : nat := 250.
Definition logstress_SZ : Z := 2000.

Fixpoint logstress_write_loop (k : nat) (fd : Z) (buf : list Z) : prog Z :=
  match k with
  | O => exit 0
  | S k =>
      n <- write_buf fd buf logstress_SZ ;;
      if negb (n =? logstress_SZ) then printf (lit "write failed %d" ++ nl) [VInt n] ;; exit 1 else
      logstress_write_loop k fd buf
  end.

Definition logstress_child (name : option (list Z)) (arg : list Z) (i : Z) (buf : list Z) : prog Z :=
  fd <- open arg (Z.lor O_CREATE O_RDWR) ;;
  if fd <? 0 then
    printf (lit "%s: create %s failed" ++ nl) [VStr name; VStr (Some arg)] ;; exit 1
  else
  buf <- memset_buf buf (48 + i) logstress_SZ ;;
  logstress_write_loop logstress_N fd buf.

Fixpoint logstress_fork_loop (name : option (list Z)) (argv : list (list Z)) (i : Z) (buf : list Z) : prog unit :=
  match argv with
  | [] => Ret tt
  | arg :: argv =>
      pid1 <- fork ;;
      if pid1 <? 0 then printf (lit "%s: fork failed" ++ nl) [VStr name] ;; exit 1 else
      if pid1 =? 0 then logstress_child name arg i buf ;; Ret tt else
      logstress_fork_loop name argv (i + 1) buf
  end.

(** A failed [wait] leaves [xstatus] as it is; the variable has no value at first. *)
Fixpoint logstress_wait_loop (k : nat) (xstatus : option Z) : prog Z :=
  match k with
  | O => Ret 0
  | S k =>
      ' (r, st) <- wait ;;
      let xstatus := if r <? 0 then xstatus else Some st in
      match xstatus with
      | None => halt (Undefined "xstatus")
      | Some x => if negb (x =? 0) then exit x else logstress_wait_loop k xstatus
      end
  end.

Definition logstress_main (argv : list (list Z)) : prog Z :=
  logstress_fork_loop (argv !! 0%nat) (drop 1 argv) 1 (replicate (Z.to_nat BUFSZ) 0) ;;
  logstress_wait_loop (length argv - 1) None.

(** * stressfs.c *)

Fixpoint stressfs_fork_loop (k : nat) (i : Z) : prog Z :=
  match k with
  | O => Ret i
  | S k => pid <- fork ;; if 0 <? pid then Ret i else stressfs_fork_loop k (i + 1)
  end.

Fixpoint stressfs_write_loop (k : nat) (fd : Z) (data : list Z) : prog unit :=
  match k with O => Ret tt | S k => write_buf fd data 512 ;; stressfs_write_loop k fd data end.
Fixpoint stressfs_read_loop (k : nat) (fd : Z) (data : list Z) : prog unit :=
  match k with O => Ret tt | S k => ' (_, data) <- read fd data 0 512 ;; stressfs_read_loop k fd data end.

Definition stressfs_main : prog Z :=
  printf (lit "stressfs starting" ++ nl) [] ;;
  data <- memset_buf (replicate 512 0) 97 512 ;;
  i <- stressfs_fork_loop 4 0 ;;
  printf (lit "write %d" ++ nl) [VInt i] ;;
  let path := lit "stressfs" ++ [48 + i] in
  fd <- open path (Z.lor O_CREATE O_RDWR) ;;
  stressfs_write_loop 20 fd data ;;
  close fd ;;
  printf (lit "read" ++ nl) [] ;;
  fd <- open path O_RDONLY ;;
  stressfs_read_loop 20 fd data ;;
  close fd ;;
  wait ;;
  exit 0.


(** * ls.c *)

(** [for (p = path + strlen(path); p >= path && *p != '/'; p--);], the bytes before
    [p] in reverse *)
Fixpoint last_name (r acc : list Z) : list Z :=
  match r with
  | [] => acc
  | c :: r => if c =? 47 then acc else last_name r (c :: acc)
  end.
Definition fmtname (path : list Z) : list Z :=
  let p := last_name (rev path) [] in
  if (Z.to_nat DIRSIZ <=? length p)%nat then p
  else p ++ replicate (Z.to_nat DIRSIZ - length p) 32.

Definition ls_line (name : list Z) (st : stat) : prog unit :=
  printf (lit "%s %d %d %d" ++ nl) [VStr (Some (fmtname name)); VInt (st_type st); VInt (st_ino st); VInt (st_size st)].

(** One [struct dirent] of the directory [path]; [read] stores into [de]. *)
Definition ls_entry (path : list Z) (fd : Z) (de : list Z) : prog (list Z + unit) :=
  ' (r, de) <- read fd de 0 16 ;;
  if negb (r =? 16) then break tt else
  if nth 0 de 0 + 256 * nth 1 de 0 =? 0 then continue de else
  let buf := path ++ [47] ++ cstr (take (Z.to_nat DIRSIZ) (drop 2 de)) in
  ' (r, st) <- stat_ buf ;;
  match st with
  | Some st =>
      if r <? 0 then printf (lit "ls: cannot stat %s" ++ nl) [VStr (Some buf)] ;; continue de
      else ls_line buf st ;; continue de
  | None => printf (lit "ls: cannot stat %s" ++ nl) [VStr (Some buf)] ;; continue de
  end.

Definition ls (path : list Z) : prog unit :=
  fd <- open path O_RDONLY ;;
  if fd <? 0 then fprintf 2 (lit "ls: cannot open %s" ++ nl) [VStr (Some path)] else
  ' (r, st) <- sys (Fstat fd) ;;
  if r <? 0 then
    fprintf 2 (lit "ls: cannot stat %s" ++ nl) [VStr (Some path)] ;;
    close fd ;; Ret tt
  else
  (if (st_type st =? T_DEVICE) || (st_type st =? T_FILE) then ls_line path st
   else if st_type st =? T_DIR then
     if (512 <? length path + 1 + Z.to_nat DIRSIZ + 1)%nat then printf (lit "ls: path too long" ++ nl) []
     else while (ls_entry path fd) (replicate 16 0)
   else Ret tt) ;;
  close fd ;; Ret tt.

Fixpoint ls_main_loop (argv : list (list Z)) : prog Z :=
  match argv with
  | [] => exit 0
  | arg :: argv => ls arg ;; ls_main_loop argv
  end.
Definition ls_main (argv : list (list Z)) : prog Z :=
  if (length argv <? 2)%nat then ls (lit ".") ;; exit 0 else ls_main_loop (drop 1 argv).
