(* ===== verification/ProgSpec.v ===== *)
(** What the programs of Programs.v do, in every world that keeps the contract of
    the calls on descriptors. *)

From ITree Require Import ITree.
From S2P Require Import Prelude Types Memory Spinlock Sched Sleeplock Uart Printf Ulib User Programs.
Local Open Scope Z_scope.
Local Open Scope u_scope.

(** * Views *)

(** From [v], whose outputs 1 and 2 hold [o] and [e], to [v'] with [l] and [m]
    more bytes on them, and nothing else changed. *)
Record wrote (v : io_view) (o e : list Z) (v' : io_view) (l m : list Z) : Prop := {
  wr_in : v_in v' = v_in v;
  wr_files : v_files v' = v_files v;
  wr_out : v_out v' = <[1 := o ++ l]> (<[2 := e ++ m]> (v_out v));
}.

Definition outputs (v : io_view) (o e : list Z) : Prop := v_out v !! 1 = Some o /\ v_out v !! 2 = Some e.

(** The string before a NUL. *)
Lemma cstr_nul t junk : 0 ∉ t -> cstr (t ++ 0 :: junk) = t.
Proof.
  induction t as [|c t IH]; cbn; [done|]. intros [Hc Ht]%not_elem_of_cons.
  rewrite (proj2 (Z.eqb_neq _ _)) by done. by rewrite IH.
Qed.

Section Spec.
Context {W : Type} `{Io W}.

Lemma take_put_buf buf l n :
  n = Z.of_nat (length l) -> take (Z.to_nat n) (put_buf buf 0 l) = l.
Proof. intros ->. unfold put_buf. change (Z.to_nat 0) with 0%nat. rewrite Nat2Z.id, take_0. exact (take_app_length l _). Qed.

(** A [read] into an array, and the end of the input. *)
Lemma read_some fd buf off n w s :
  v_in (view w) !! fd = Some s -> 0 < n -> s <> [] ->
  exists l r w', s = l ++ r /\ l <> [] /\ Z.of_nat (length l) <= n /\
    goes (read fd buf off n) w (Val w' (Z.of_nat (length l), put_buf buf off l)) /\
    view w' = set_v_in <[fd := r]> (view w).
Proof.
  intros Hs Hn Hne. destruct (io_read w fd s n Hs Hn) as (k & w' & E & Hk & Hl & Hp & V).
  exists (take k s), (drop k s), w'. split; [by rewrite take_drop|]. specialize (Hp Hne).
  split; [destruct s, k; [done..|lia|done]|]. rewrite length_take_le by done. split; [done|]. split; [|done].
  eapply goes_bind; [by apply goes_sys|]. apply goes_ret.
Qed.

Lemma read_end fd buf off n w :
  v_in (view w) !! fd = Some [] -> 0 < n ->
  exists w', goes (read fd buf off n) w (Val w' (0, put_buf buf off [])) /\ view w' = view w.
Proof.
  intros Hs Hn. destruct (io_read w fd [] n Hs Hn) as (k & w' & E & Hk & Hl & _ & V).
  cbn in Hl. assert (k = 0%nat) as -> by lia. exists w'. split.
  - eapply goes_bind; [by apply goes_sys|apply goes_ret].
  - rewrite V. cbn. unfold set_v_in. rewrite insert_id by done. by destruct (view w).
Qed.

(** What the programs do with each file they are given: open it, go through it, add
    [out] to the output, close it; or print [msg] and exit. *)
Lemma each_file_ret {A} (p : Z -> prog A) (P : A -> Prop) path s o out w :
  v_files (view w) !! path = Some s -> v_out (view w) !! 1 = Some o ->
  (forall fd w1, v_in (view w1) !! fd = Some s -> v_out (view w1) !! 1 = Some o ->
     exists w2 a, goes (p fd) w1 (Val w2 a) /\ P a /\
       view w2 = set_v_in <[fd := []]> (set_v_out <[1 := o ++ out]> (view w1))) ->
  exists w3 a, P a /\ view w3 = set_v_out <[1 := o ++ out]> (view w) /\
    forall B (err : prog B) (k : A -> prog B) r, goes (k a) w3 r ->
      goes (fd <- open path O_RDONLY ;; if fd <? 0 then err else a <- p fd ;; close fd ;; k a) w r.
Proof.
  intros Ef Ho Hp. destruct (io_open w path s Ef) as (fd & w1 & E1 & Hfd & Hin & V1).
  destruct (Hp fd w1) as (w2 & a & G2 & Pa & V2). { rewrite V1. apply lookup_insert_eq. } { by rewrite V1. }
  destruct (io_close w2 fd []) as (w3 & E3 & V3). { rewrite V2. apply lookup_insert_eq. }
  exists w3, a. split; [done|]. split.
  - rewrite V3, V2, V1. unfold set_v_in, set_v_out. cbn [v_in v_out v_files].
    rewrite insert_insert_eq, delete_insert_id by done. done.
  - intros B err k r Hk. eapply goes_bind; [by apply goes_sys|]. rewrite (proj2 (Z.ltb_ge _ _)) by done.
    eapply goes_bind; [exact G2|]. eapply goes_bind; [by apply goes_sys|]. exact Hk.
Qed.

Lemma each_file {A} (p : Z -> prog A) path s o out w :
  v_files (view w) !! path = Some s -> v_out (view w) !! 1 = Some o ->
  (forall fd w1, v_in (view w1) !! fd = Some s -> v_out (view w1) !! 1 = Some o ->
     exists w2 a, goes (p fd) w1 (Val w2 a) /\
       view w2 = set_v_in <[fd := []]> (set_v_out <[1 := o ++ out]> (view w1))) ->
  exists w3 a, view w3 = set_v_out <[1 := o ++ out]> (view w) /\
    forall B (err : prog B) (k : A -> prog B) r, goes (k a) w3 r ->
      goes (fd <- open path O_RDONLY ;; if fd <? 0 then err else a <- p fd ;; close fd ;; k a) w r.
Proof.
  intros Ef Ho Hp. destruct (each_file_ret p (fun _ => True) path s o out w Ef Ho) as (w3 & a & _ & V & Hk); [|eauto].
  intros fd w1 H1 H2. destruct (Hp fd w1 H1 H2) as (w2 & a & G & V). eauto.
Qed.

Lemma no_file {B} (q : Z -> prog B) path fd l msg w m :
  v_files (view w) !! path = None -> v_out (view w) !! fd = Some l -> says msg fd m ->
  exists w', goes (r <- open path O_RDONLY ;; if r <? 0 then msg ;; exit 1 else q r) w (Stop w' (Exited 1)) /\
    view w' = set_v_out <[fd := l ++ m]> (view w).
Proof.
  intros Ef Hl Hm. destruct (io_open_none w path Ef) as (r & w1 & E1 & Hr & V1).
  destruct (Hm w1 l) as (w2 & G2 & V2 & _); [by rewrite V1|]. exists w2. split; [|by rewrite V2, V1].
  eapply goes_bind; [by apply goes_sys|]. rewrite (proj2 (Z.ltb_lt _ _)) by done.
  eapply goes_bind; [exact G2|]. apply goes_halt.
Qed.

(** * cat *)

(** One call copies what the descriptor holds to the output. *)
Lemma cat_copies fd buf w s o :
  v_in (view w) !! fd = Some s -> v_out (view w) !! 1 = Some o ->
  exists w' buf', goes (cat fd buf) w (Val w' buf') /\
    view w' = set_v_in <[fd := []]> (set_v_out <[1 := o ++ s]> (view w)).
Proof.
  remember (length s) as n eqn:En. revert s buf w o En.
  induction n as [n IH] using lt_wf_ind. intros s buf w o -> Hs Ho.
  destruct (decide (s = [])) as [->|Hne].
  - destruct (read_end fd buf 0 cat_BUF w Hs ltac:(done)) as (w' & G & V). exists w', (put_buf buf 0 []). split.
    + apply goes_while_done. unfold cat_body. eapply goes_bind; [exact G|apply goes_ret].
    + rewrite app_nil_r, V. unfold set_v_in, set_v_out. cbn. rewrite !insert_id by done. by destruct (view w).
  - destruct (read_some fd buf 0 cat_BUF w s Hs ltac:(done) Hne) as (l & r & w1 & -> & Hl & _ & G1 & V1).
    destruct (io_write w1 1 o l) as (w2 & E2 & V2); [by rewrite V1|].
    destruct (IH (length r)) with (s := r) (buf := put_buf buf 0 l) (w := w2) (o := o ++ l) as (w' & buf' & G & V).
    + rewrite length_app. destruct l; [done|]. cbn. lia.
    + done.
    + rewrite V2, V1. cbn. apply lookup_insert_eq.
    + rewrite V2. apply lookup_insert_eq.
    + exists w', buf'. split.
      * eapply goes_while_more; [|exact G]. unfold cat_body. eapply goes_bind; [exact G1|]. cbv beta iota.
        rewrite (proj2 (Z.ltb_lt _ _)) by (destruct l; [done|]; cbn; lia). rewrite take_put_buf by done.
        eapply goes_bind; [by apply goes_sys|]. rewrite Z.eqb_refl. apply goes_ret.
      * rewrite V, V2, V1. unfold set_v_in, set_v_out. cbn. by rewrite !insert_insert_eq, app_assoc.
Qed.

Lemma says_fmt fd ps fmt ap t :
  fmt = ps ≫= piece_fmt -> ap = ps ≫= piece_args -> t = ps ≫= piece_text -> Forall piece_ok ps ->
  says (vprintf fd fmt ap) fd t.
Proof. intros -> -> ->. apply says_vprintf. Qed.

(** The output, the messages and the status of [cat] on its arguments: it stops at
    the first file that cannot be opened. *)
Fixpoint cat_result (files : gmap (list Z) (list Z)) (args : list (list Z)) : list Z * list Z * Z :=
  match args with
  | [] => ([], [], 0)
  | a :: args =>
      match files !! a with
      | None => ([], lit "cat: cannot open " ++ a ++ nl, 1)
      | Some s => let '(o, e, st) := cat_result files args in (s ++ o, e, st)
      end
  end.

Lemma says_cat_open a : Forall byte_ok a ->
  says (vprintf 2 (lit "cat: cannot open %s" ++ nl) [VStr (Some a)]) 2 (lit "cat: cannot open " ++ a ++ nl).
Proof.
  intros Ha. apply (says_fmt _ [PLit (lit "cat: cannot open "); PStr a; PLit nl]); [done|done|done|].
  repeat constructor; try done; vm_compute; set_solver.
Qed.

Lemma cat_main_loop_ok args : Forall (Forall byte_ok) args -> forall buf w o e,
  outputs (view w) o e ->
  let '(l, m, st) := cat_result (v_files (view w)) args in
  exists w', goes (cat_main_loop args buf) w (Stop w' (Exited st)) /\ wrote (view w) o e (view w') l m.
Proof.
  induction 1 as [|a args Ha _ IH]; intros buf w o e [Ho He]; cbn [cat_result cat_main_loop].
  { exists w. split; [apply goes_halt|]. split; [done|done|]. by rewrite !app_nil_r, !insert_id by (by rewrite ?lookup_insert_ne). }
  destruct (v_files (view w) !! a) as [s|] eqn:Ef.
  - edestruct (each_file (fun fd => cat fd buf)) as (w3 & buf2 & V & Hk); [exact Ef|exact Ho|intros; by eapply cat_copies|].
    specialize (IH buf2 w3 (o ++ s) e). rewrite V in IH at 2. cbn [set_v_out v_files] in IH.
    destruct (cat_result (v_files (view w)) args) as [[l m] st].
    destruct IH as (w' & G & [H1 H2 H3]).
    { rewrite V. split; cbn; [apply lookup_insert_eq|by rewrite lookup_insert_ne]. }
    exists w'. split; [eapply Hk; exact G|]. rewrite V in *. split; [done|done|]. rewrite H3. cbn [set_v_out v_out].
    by rewrite (insert_insert_ne _ 2 1), insert_insert_eq, app_assoc.
  - edestruct @no_file as (w' & G & V); [exact Ef|exact He|by apply (says_cat_open a)|]. exists w'. split; [exact G|].
    rewrite V. split; [done|done|]. cbn [set_v_out v_out]. by rewrite app_nil_r, (insert_insert_ne _ 1 2), (insert_id _ 1).
Qed.

(** * echo *)

Fixpoint echo_text (args : list (list Z)) : list Z :=
  match args with
  | [] => []
  | [a] => a ++ nl
  | a :: args => a ++ lit " " ++ echo_text args
  end.

Lemma echo_main_loop_ok args : forall w o, v_out (view w) !! 1 = Some o ->
  exists w', goes (echo_main_loop args) w (Stop w' (Exited 0)) /\
    view w' = set_v_out <[1 := o ++ echo_text args]> (view w).
Proof.
  induction args as [|a args IH]; intros w o Ho.
  { exists w. split; [apply goes_halt|]. cbn [echo_text]. rewrite app_nil_r. unfold set_v_out.
    rewrite insert_id by done. by destruct (view w). }
  set (sep := match args with [] => nl | _ => lit " " end).
  destruct (io_write w 1 o a Ho) as (w1 & E1 & V1).
  destruct (io_write w1 1 (o ++ a) sep) as (w2 & E2 & V2); [rewrite V1; apply lookup_insert_eq|].
  destruct (IH w2 ((o ++ a) ++ sep)) as (w' & G & V'); [rewrite V2; apply lookup_insert_eq|].
  exists w'. split.
  - cbn [echo_main_loop]. eapply goes_bind; [by apply goes_sys|]. eapply goes_bind; [|exact G].
    unfold sep in E2. destruct args; apply goes_sys; exact E2.
  - rewrite V', V2, V1. unfold set_v_out. cbn [v_out v_in v_files]. rewrite !insert_insert_eq, <- !app_assoc.
    unfold sep. destruct args; cbn [echo_text]; [by rewrite app_nil_r|done].
Qed.

(** * wc *)

(** The fields of a text: the parts between blanks. *)
Definition is_blank (c : Z) : Prop := c ∈ blanks.
Fixpoint fields (cur s : list Z) : list (list Z) :=
  match s with
  | [] => [cur]
  | c :: s => if decide (is_blank c) then cur :: fields [] s else fields (cur ++ [c]) s
  end.
Definition wc_lines (s : list Z) : Z := Z.of_nat (length (filter (fun c => c = 10) s)).
Definition wc_words (s : list Z) : Z := Z.of_nat (length (filter (fun f => f <> []) (fields [] s))).

Lemma blank_spec c : blank c = bool_decide (is_blank c).
Proof.
  unfold blank. change (put_bytes ∅ 0 (blanks ++ [0])) with (put_bytes ∅ 0 [32; 13; 9; 10; 11; 0]).
  rewrite (strchr_str _ _ blanks); [|split_and!; [vm_compute; done..|unfold blanks; set_solver]|cbn; lia].
  destruct (list_find (fun x => x = c) blanks) as [[i x]|] eqn:E; symmetry.
  - apply list_find_Some in E as (E & -> & _). apply bool_decide_eq_true. by eapply list_elem_of_lookup_2.
  - apply list_find_None in E. apply bool_decide_eq_false. intros Hc. rewrite Forall_forall in E. by apply (E c).
Qed.

(** The words begun in [s], inside a word or not at first. *)
Fixpoint starts (inw : bool) (s : list Z) : Z :=
  match s with
  | [] => 0
  | c :: s => if decide (is_blank c) then starts false s else (if inw then 0 else 1) + starts true s
  end.

Lemma fields_starts s cur :
  Z.of_nat (length (filter (fun f => f <> []) (fields cur s))) =
  starts (negb (bool_decide (cur = []))) s + (if decide (cur = []) then 0 else 1).
Proof.
  revert cur; induction s as [|c s IH]; intros cur; cbn [fields starts].
  - rewrite filter_cons, filter_nil. repeat case_decide; done || lia.
  - destruct (decide (is_blank c)).
    + rewrite filter_cons. case_decide; cbn [length]; rewrite ?Nat2Z.inj_succ, IH; cbn; repeat case_decide; done || lia.
    + rewrite IH. rewrite (bool_decide_eq_false_2 (cur ++ [c] = [])) by (by destruct cur). cbn [negb].
      rewrite decide_False by (by destruct cur). case_bool_decide; repeat case_decide; cbn; done || lia.
Qed.

Lemma starts_bound inw s : 0 <= starts inw s <= Z.of_nat (length s).
Proof.
  revert inw; induction s as [|c s IH]; intros inw; cbn [starts length]; [lia|].
  specialize (IH false) as H1. specialize (IH true) as H2. case_decide; [lia|]. destruct inw; lia.
Qed.

(** The loop over the bytes counts as the definitions do. *)
Lemma count1_fold s l w c inw :
  0 <= l <= c -> 0 <= w <= c -> c + Z.of_nat (length s) < 2 ^ 31 ->
  fold_left count1 s (mk_counts l w c inw) =
    mk_counts (l + wc_lines s) (w + starts inw s) (c + Z.of_nat (length s))
      (inword (fold_left count1 s (mk_counts l w c inw))).
Proof.
  revert l w c inw; induction s as [|b s IH]; intros l w c inw Hl Hw Hc; cbn [fold_left].
  { unfold wc_lines. cbn. f_equal; lia. }
  cbn [length starts] in *. set (l' := if b =? 10 then l + 1 else l).
  assert (El : l' + wc_lines s = l + wc_lines (b :: s)).
  { unfold l', wc_lines. rewrite filter_cons. destruct (Z.eqb_spec b 10); case_decide; try done; cbn [length]; lia. }
  set (w' := w + (if decide (is_blank b) then 0 else if inw then 0 else 1)).
  assert (E : count1 (mk_counts l w c inw) b = mk_counts l' w' (c + 1) (negb (bool_decide (is_blank b)))).
  { unfold count1. cbn [n_c n_l n_w inword]. rewrite blank_spec, !(swrap_small 32) by lia. fold l'. unfold w'.
    case_bool_decide; case_decide; try done; [by rewrite Z.add_0_r|]. destruct inw; cbn; f_equal; lia. }
  rewrite E, IH by (subst l' w'; repeat case_match; lia). f_equal; [done| |lia].
  unfold w'. case_bool_decide; case_decide; try done; cbn [negb]; destruct inw; lia.
Qed.

Lemma wc_loop_ok fd s : forall buf st w,
  v_in (view w) !! fd = Some s ->
  exists w' buf', goes (while (wc_body fd) (buf, st)) w (Val w' (0, buf', fold_left count1 s st)) /\
    view w' = set_v_in <[fd := []]> (view w).
Proof.
  remember (length s) as n eqn:En. revert s En.
  induction n as [n IH] using lt_wf_ind. intros s -> buf st w Hs.
  destruct (decide (s = [])) as [->|Hne].
  - destruct (read_end fd buf 0 wc_BUF w Hs ltac:(done)) as (w' & G & V). exists w', (put_buf buf 0 []). split.
    + apply goes_while_done. unfold wc_body. eapply goes_bind; [exact G|apply goes_ret].
    + rewrite V. unfold set_v_in. rewrite insert_id by done. by destruct (view w).
  - destruct (read_some fd buf 0 wc_BUF w s Hs ltac:(done) Hne) as (l & r & w1 & -> & Hl & _ & G1 & V1).
    destruct (IH (length r)) with (s := r) (buf := put_buf buf 0 l) (w := w1) (st := fold_left count1 l st)
      as (w' & buf' & G & V).
    + rewrite length_app. destruct l; [done|]. cbn. lia.
    + done.
    + rewrite V1. apply lookup_insert_eq.
    + exists w', buf'. split.
      * rewrite fold_left_app. eapply goes_while_more; [|exact G]. unfold wc_body. eapply goes_bind; [exact G1|].
        cbv beta iota. rewrite (proj2 (Z.ltb_lt _ _)) by (destruct l; [done|]; cbn; lia).
        rewrite take_put_buf by done. apply goes_ret.
      * rewrite V, V1. unfold set_v_in. cbn. by rewrite insert_insert_eq.
Qed.

(** What is printed for the text [s] of the file [name]. *)
Definition wc_line (s name : list Z) : list Z :=
  dec_text (wc_lines s) ++ lit " " ++ dec_text (wc_words s) ++ lit " " ++
  dec_text (Z.of_nat (length s)) ++ lit " " ++ name ++ nl.

Lemma says_wc_line l w c name :
  0 <= l < 2 ^ 31 -> 0 <= w < 2 ^ 31 -> 0 <= c < 2 ^ 31 -> Forall byte_ok name ->
  says (vprintf 1 (lit "%d %d %d %s" ++ nl) [VInt l; VInt w; VInt c; VStr (Some name)]) 1
    (dec_text l ++ lit " " ++ dec_text w ++ lit " " ++ dec_text c ++ lit " " ++ name ++ nl).
Proof.
  intros Hl Hw Hc Hn.
  apply (says_fmt _ [PDec l; PLit (lit " "); PDec w; PLit (lit " "); PDec c; PLit (lit " "); PStr name; PLit nl]);
    [done|done|done|].
  repeat constructor; try done; try lia; vm_compute; set_solver.
Qed.

Lemma wc_lines_bound s : 0 <= wc_lines s <= Z.of_nat (length s).
Proof. unfold wc_lines. pose proof (length_filter (fun c => c = 10) s). lia. Qed.

Lemma wc_counts_file fd name buf w s o :
  v_in (view w) !! fd = Some s -> v_out (view w) !! 1 = Some o ->
  Z.of_nat (length s) < 2 ^ 31 -> Forall byte_ok name ->
  exists w' buf', goes (wc fd name buf) w (Val w' buf') /\
    view w' = set_v_in <[fd := []]> (set_v_out <[1 := o ++ wc_line s name]> (view w)).
Proof.
  intros Hs Ho Hlen Hname.
  destruct (wc_loop_ok fd s buf (mk_counts 0 0 0 false) w Hs) as (w1 & buf1 & G1 & V1).
  pose proof (wc_lines_bound s). pose proof (starts_bound false s).
  assert (Ew : starts false s = wc_words s).
  { unfold wc_words. rewrite fields_starts, bool_decide_eq_true_2, decide_True by done. cbn [negb]. lia. }
  destruct (says_wc_line (wc_lines s) (wc_words s) (Z.of_nat (length s)) name ltac:(lia) ltac:(lia) ltac:(lia) Hname w1 o)
    as (w2 & G2 & V2 & _); [by rewrite V1|].
  exists w2, buf1. split.
  - unfold wc. eapply goes_bind; [exact G1|]. cbv beta iota zeta. rewrite (proj2 (Z.ltb_ge 0 0)) by lia.
    rewrite count1_fold by lia. cbn [n_l n_w n_c]. rewrite !Z.add_0_l, Ew.
    eapply goes_bind; [exact G2|apply goes_ret].
  - rewrite V2, V1. done.
Qed.

Fixpoint wc_result (files : gmap (list Z) (list Z)) (args : list (list Z)) : list Z * Z :=
  match args with
  | [] => ([], 0)
  | a :: args =>
      match files !! a with
      | None => (lit "wc: cannot open " ++ a ++ nl, 1)
      | Some s => let '(o, st) := wc_result files args in (wc_line s a ++ o, st)
      end
  end.

Lemma says_wc_open a : Forall byte_ok a ->
  says (vprintf 1 (lit "wc: cannot open %s" ++ nl) [VStr (Some a)]) 1 (lit "wc: cannot open " ++ a ++ nl).
Proof.
  intros Ha. apply (says_fmt _ [PLit (lit "wc: cannot open "); PStr a; PLit nl]); [done|done|done|].
  repeat constructor; try done; vm_compute; set_solver.
Qed.

Lemma wc_main_loop_ok args : Forall (Forall byte_ok) args -> forall buf w o,
  v_out (view w) !! 1 = Some o ->
  (forall a s, v_files (view w) !! a = Some s -> Z.of_nat (length s) < 2 ^ 31) ->
  exists w', goes (wc_main_loop args buf) w (Stop w' (Exited (wc_result (v_files (view w)) args).2)) /\
    view w' = set_v_out <[1 := o ++ (wc_result (v_files (view w)) args).1]> (view w).
Proof.
  induction 1 as [|a args Ha _ IH]; intros buf w o Ho Hsz; cbn [wc_result wc_main_loop].
  { exists w. split; [apply goes_halt|]. cbn [fst]. rewrite app_nil_r. unfold set_v_out. rewrite insert_id by done. by destruct (view w). }
  destruct (v_files (view w) !! a) as [s|] eqn:Ef.
  - edestruct (each_file (fun fd => wc fd a buf)) as (w3 & buf2 & V & Hk); [exact Ef|exact Ho| |].
    { intros. eapply wc_counts_file; [done..|by eapply Hsz|done]. }
    destruct (IH buf2 w3 (o ++ wc_line s a)) as (w' & G & V').
    { rewrite V. apply lookup_insert_eq. } { rewrite V. exact Hsz. }
    rewrite V in G, V'. cbn [set_v_out v_files v_in v_out] in G, V'.
    destruct (wc_result (v_files (view w)) args) as [l st]. cbn [fst snd] in *.
    exists w'. split; [eapply Hk; exact G|].
    rewrite V'. unfold set_v_out. cbn [v_in v_out v_files]. by rewrite insert_insert_eq, app_assoc.
  - edestruct @no_file as (w' & G & V); [exact Ef|exact Ho|by apply (says_wc_open a)|]. exists w'. split; [exact G|exact V].
Qed.

Lemma goes_start p w w' st : goes p w (Stop w' (Exited st)) -> goes (start p) w (Stop w' (Exited st)).
Proof. intros G. unfold start. by apply goes_bind_stop. Qed.

(** C31: in every world that keeps the contract of the calls, [cat f1 f2 ...] writes
    the contents of its files in their order to the output, however the reads are
    cut up, and exits with 0; at a file that cannot be opened it stops, with a message
    on descriptor 2 and status 1, and no other output or descriptor changes. *)
Theorem cat_concatenates w name args o e :
  outputs (view w) o e -> Forall (Forall byte_ok) args -> args <> [] ->
  exists w', goes (start (cat_main (name :: args))) w (Stop w' (Exited (cat_result (v_files (view w)) args).2)) /\
    wrote (view w) o e (view w') (cat_result (v_files (view w)) args).1.1 (cat_result (v_files (view w)) args).1.2.
Proof.
  intros Ho Ha Hne. pose proof (cat_main_loop_ok args Ha (replicate (Z.to_nat cat_BUF) 0) w o e Ho) as Hc.
  destruct (cat_result _ args) as [[l m] st]. destruct Hc as (w' & G & Hw). exists w'. split; [|exact Hw].
  apply goes_start. unfold cat_main. destruct args; [done|]. exact G.
Qed.

(** In every world that keeps the contract of the calls, [wc f1 f2 ...] prints
    for each file the number of newlines, of maximal runs of bytes that are not
    blank, and of bytes, in decimal, and the name; and it stops with status 1 at a
    file that cannot be opened. *)
Theorem wc_counts_files w name args o :
  v_out (view w) !! 1 = Some o -> Forall (Forall byte_ok) args -> args <> [] ->
  (forall a s, v_files (view w) !! a = Some s -> Z.of_nat (length s) < 2 ^ 31) ->
  exists w', goes (start (wc_main (name :: args))) w (Stop w' (Exited (wc_result (v_files (view w)) args).2)) /\
    view w' = set_v_out <[1 := o ++ (wc_result (v_files (view w)) args).1]> (view w).
Proof.
  intros Ho Ha Hne Hsz. destruct (wc_main_loop_ok args Ha (replicate (Z.to_nat wc_BUF) 0) w o Ho Hsz) as (w' & G & V).
  exists w'. split; [|exact V]. apply goes_start. unfold wc_main. destruct args; [done|]. exact G.
Qed.

Lemma echo_prints w name args o :
  v_out (view w) !! 1 = Some o ->
  exists w', goes (start (echo_main (name :: args))) w (Stop w' (Exited 0)) /\
    view w' = set_v_out <[1 := o ++ echo_text args]> (view w).
Proof.
  intros Ho. destruct (echo_main_loop_ok args w o Ho) as (w' & G & V). exists w'. split; [|exact V].
  by apply goes_start.
Qed.

End Spec.

(** * init *)

(** The calls init makes succeed: [child w pid n] says that [pid] is a child, and that
    [wait] reports [n] other children at most before it. *)
Class Procs (W : Type) `{!World W, !Io W} : Type := {
  good : W -> Prop;
  child : W -> Z -> nat -> Prop;
  good_out : forall w, good w -> exists s, v_out (view w) !! 1 = Some s;
  good_write : forall w l, good w -> good (answer (Write 1 l) w).1;
  good_open : forall w path m, good w -> good (answer (Open path m) w).1;
  good_mknod : forall w path a b, good w -> good (answer (Mknod path a b) w).1;
  good_dup : forall w fd, good w -> good (answer (Dup fd) w).1;
  good_fork : forall w, good w -> exists pid n, (answer Fork w).2 = pid /\ 0 < pid /\
    good (answer Fork w).1 /\ child (answer Fork w).1 pid n;
  good_wait : forall w pid n, good w -> child w pid n -> good (answer Wait w).1 /\
    ((answer Wait w).2.1 = pid \/ 0 < (answer Wait w).2.1 /\ exists m, (m < n)%nat /\ child (answer Wait w).1 pid m);
}.

Section Init.
Context {W : Type} `{Procs W}.

Lemma says_init : says (printf (lit "init: starting sh" ++ nl) []) 1 (lit "init: starting sh" ++ nl).
Proof.
  apply (says_fmt _ [PLit (lit "init: starting sh"); PLit nl]); [done|done|done|].
  repeat constructor; try done; vm_compute; set_solver.
Qed.

(** The inner loop comes back when the shell has exited. *)
Lemma init_waits pid n : 0 < pid -> forall w, good w -> child w pid n ->
  exists w', goes (while (init_wait_body pid) tt) w (Val w' tt) /\ good w'.
Proof.
  intros Hp. induction n as [n IH] using lt_wf_ind. intros w Hg Hc.
  destruct (good_wait w pid n Hg Hc) as [Hg' Hw]. destruct (answer Wait w) as [w1 [wpid st]] eqn:E. cbn [fst snd] in *.
  assert (Hb : forall o, goes (if wpid =? pid then break tt else if wpid <? 0 then
      printf (lit "init: wait returned an error" ++ nl) [] ;; exit 1 else continue tt) w1 o ->
    goes (init_wait_body pid tt) w o).
  { intros o Ho. unfold init_wait_body. eapply goes_bind; [apply goes_sys; exact E|]. exact Ho. }
  destruct (Z.eqb_spec wpid pid) as [->|Hne].
  - exists w1. split; [|done]. apply goes_while_done, Hb, goes_ret.
  - destruct Hw as [->|(Hpos & m & Hm & Hc')]; [done|]. destruct (IH m Hm w1 Hg' Hc') as (w' & G & Hg2).
    exists w'. split; [|done]. eapply goes_while_more; [|exact G]. apply Hb.
    rewrite (proj2 (Z.ltb_ge _ _)) by lia. apply goes_ret.
Qed.

Lemma init_turn w : good w -> exists w', goes (init_main_body tt) w (Val w' (inl tt)) /\ good w'.
Proof.
  intros Hg. destruct (good_out w Hg) as (s & Hs). destruct (says_init w s Hs) as (w1 & G1 & _ & K1).
  assert (Hg1 : good w1) by (apply K1; [intros x l; apply good_write|done]).
  destruct (good_fork w1 Hg1) as (pid & n & Ep & Hp & Hg2 & Hc). destruct (answer Fork w1) as [w2 p] eqn:E. cbn [fst snd] in *. subst p.
  destruct (init_waits pid n Hp w2 Hg2 Hc) as (w3 & G3 & Hg3). exists w3. split; [|done].
  unfold init_main_body. eapply goes_bind; [exact G1|]. eapply goes_bind; [apply goes_sys; exact E|].
  rewrite (proj2 (Z.ltb_ge _ _)), (proj2 (Z.eqb_neq _ _)) by lia. eapply goes_bind; [exact G3|apply goes_ret].
Qed.

Lemma goes_good {A} (c : sysE A) w : good (answer c w).1 -> exists w' a, goes (sys c) w (Val w' a) /\ good w'.
Proof. intros Hg. destruct (answer c w) as [w' a] eqn:E. exists w', a. split; [by apply goes_sys|done]. Qed.

Lemma init_setup_ok w : good w -> exists w', goes init_setup w (Val w' tt) /\ good w'.
Proof.
  intros Hg. unfold init_setup.
  destruct (goes_good _ w (good_open w (lit "console") O_RDWR Hg)) as (w1 & r & G1 & Hg1).
  assert (Hdup : forall w2, good w2 -> exists w', good w' /\
    forall k, goes k w1 (Val w2 tt) -> goes (k ;; sys (Dup 0) ;; sys (Dup 0) ;; go (RetF tt)) w1 (Val w' tt)).
  { intros w2 Hg2. destruct (goes_good _ w2 (good_dup w2 0 Hg2)) as (w3 & a & G3 & Hg3).
    destruct (goes_good _ w3 (good_dup w3 0 Hg3)) as (w4 & b & G4 & Hg4). exists w4. split; [done|]. intros k Hk.
    eapply goes_bind; [exact Hk|]. eapply goes_bind; [exact G3|]. eapply goes_bind; [exact G4|apply goes_ret]. }
  destruct (r <? 0) eqn:Er.
  - destruct (goes_good _ w1 (good_mknod w1 (lit "console") CONSOLE 0 Hg1)) as (w2 & a & G2 & Hg2).
    destruct (goes_good _ w2 (good_open w2 (lit "console") O_RDWR Hg2)) as (w3 & b & G3 & Hg3).
    destruct (Hdup w3 Hg3) as (w' & Hg' & Hk). exists w'. split; [|done]. eapply goes_bind; [exact G1|]. rewrite Er.
    apply Hk. eapply goes_bind; [exact G2|]. eapply goes_bind; [exact G3|apply goes_ret].
  - destruct (Hdup w1 Hg1) as (w' & Hg' & Hk). exists w'. split; [|done]. eapply goes_bind; [exact G1|]. rewrite Er.
    apply Hk, goes_ret.
Qed.


End Init.

(** * A sample world *)

Definition two_files : plain :=
  mk_plain (mk_io_view ∅ {[1 := []; 2 := []]}
    {[lit "a" := lit "one two" ++ nl ++ lit "three" ++ nl; lit "b" := lit "four"]}) 2.

Lemma cat_concatenates_witness :
  cat_result (v_files (view two_files)) [lit "a"; lit "b"; lit "c"] =
    (lit "one two" ++ nl ++ lit "three" ++ nl ++ lit "four", lit "cat: cannot open c" ++ nl, 1) /\
  exists w', goes (start (cat_main (lit "cat" :: [lit "a"; lit "b"; lit "c"]))) two_files
      (Stop w' (Exited (cat_result (v_files (view two_files)) [lit "a"; lit "b"; lit "c"]).2)) /\
    wrote (view two_files) [] [] (view w') (cat_result (v_files (view two_files)) [lit "a"; lit "b"; lit "c"]).1.1
      (cat_result (v_files (view two_files)) [lit "a"; lit "b"; lit "c"]).1.2.
Proof.
  split; [vm_compute; reflexivity|].
  apply (cat_concatenates two_files (lit "cat") [lit "a"; lit "b"; lit "c"] [] []).
  - split; reflexivity.
  - repeat constructor; done.
  - discriminate.
Defined.

Lemma two_files_small a s : v_files (view two_files) !! a = Some s -> Z.of_nat (length s) < 2 ^ 31.
Proof.
  change (v_files (view two_files)) with
    ({[lit "a" := lit "one two" ++ nl ++ lit "three" ++ nl; lit "b" := lit "four"]} : gmap (list Z) (list Z)).
  intros Hs. apply lookup_insert_Some in Hs as [[_ <-]|[_ Hs]]; [done|].
  by apply lookup_singleton_Some in Hs as [_ <-].
Qed.

Lemma wc_counts_files_witness :
  wc_result (v_files (view two_files)) [lit "a"; lit "b"] = (lit "2 3 14 a" ++ nl ++ lit "0 1 4 b" ++ nl, 0) /\
  exists w', goes (start (wc_main (lit "wc" :: [lit "a"; lit "b"]))) two_files
      (Stop w' (Exited (wc_result (v_files (view two_files)) [lit "a"; lit "b"]).2)) /\
    view w' = set_v_out <[1 := [] ++ (wc_result (v_files (view two_files)) [lit "a"; lit "b"]).1]> (view two_files).
Proof.
  split; [vm_compute; reflexivity|].
  apply (wc_counts_files two_files (lit "wc") [lit "a"; lit "b"] []).
  - reflexivity.
  - repeat constructor; done.
  - discriminate.
  - exact two_files_small.
Defined.

(** A world for init: each child is 7, and [wait] reports one orphan before it. *)
Module InitWorld.

Definition initw : Type := plain * nat.

Definition initw_answer {A} (c : sysE A) (w : initw) : initw * A :=
  match c in sysE A return initw * A with
  | Fork => ((w.1, 1%nat), 7)
  | Wait => match w.2 with O => (w, (7, 0)) | S n => ((w.1, n), (9, 0)) end
  | c => let '(p, r) := plain_answer c w.1 in ((p, w.2), r)
  end.

#[export] Instance initw_world : World initw := @initw_answer.

#[export] Instance initw_io : Io initw.
Proof. apply plain_lift_io; done. Defined.

#[export] Program Instance initw_procs : Procs initw :=
  {| good w := is_Some (v_out (pw_view w.1) !! 1); child w pid n := pid = 7 /\ n = w.2 |}.
Next Obligation. by intros w [s Hs]; exists s. Qed.
Next Obligation.
  intros [p b] l Hg. unfold answer, initw_world, initw_answer, plain_answer. cbn [fst] in *. destruct Hg as [s Hs].
  rewrite Hs. cbn. rewrite lookup_insert_eq. eauto.
Qed.
Next Obligation.
  intros [p b] path m Hg. unfold answer, initw_world, initw_answer, plain_answer. cbn [fst] in *. destruct (v_files (pw_view p) !! path); exact Hg.
Qed.
Next Obligation. done. Qed.
Next Obligation. done. Qed.
Next Obligation. intros [p b] Hg. exists 7, 1%nat. done. Qed.
Next Obligation.
  intros [p b] pid n Hg [-> ->]. unfold answer, initw_world, initw_answer. cbn [snd fst]. destruct b as [|b]; cbn.
  - split; [done|]. by left.
  - split; [done|]. right. split; [lia|]. exists b. split; [lia|done].
Qed.

End InitWorld.
Import (hints) InitWorld.

