(* ===== verification/Grep.v ===== *)
(** grep.c: the pattern matcher and the program.

    [matchhere] recurses on the pattern and [matchstar] on the text, so neither
    needs fuel.  The theorems: [match] finds a pattern in a text exactly when a
    part of the text is in the language of the pattern, and grep prints exactly the
    lines that match, however the reads cut up the text, if the lines fit in the
    buffer. *)

From S2P Require Import Prelude Types Memory Spinlock Sched Sleeplock Uart Printf Ulib User Programs ProgSpec.
From ITree Require Import ITree.
Local Open Scope Z_scope.
Local Open Scope u_scope.

Definition is_nil {A} (l : list A) : bool := match l with [] => true | _ => false end.

(** [matchstar(c, re, text)], given [matchhere(re, .)] *)
Fixpoint matchstar (here : list Z -> bool) (c : Z) (text : list Z) : bool :=
  if here text then true else
  match text with
  | [] => false
  | t :: text => if (t =? c) || (c =? 46) then matchstar here c text else false
  end.

Fixpoint matchhere (re text : list Z) : bool :=
  match re with
  | [] => true
  | c :: re1 =>
      let rest :=
        if (c =? 36) && is_nil re1 then is_nil text else
        match text with
        | t :: text => if (c =? 46) || (c =? t) then matchhere re1 text else false
        | [] => false
        end in
      match re1 with
      | d :: re2 => if d =? 42 then matchstar (matchhere re2) c text else rest
      | [] => rest
      end
  end.

(** [do { ... } while ( *text++ != 0 );] *)
Fixpoint match_loop (re text : list Z) : bool :=
  if matchhere re text then true else
  match text with [] => false | _ :: text => match_loop re text end.
Definition match_ (re text : list Z) : bool :=
  match re with
  | c :: re1 => if c =? 94 then matchhere re1 text else match_loop re text
  | [] => match_loop re text
  end.

(** * The program *)

Definition grep_BUF : Z := 1024.

(** [strchr(p, c)] on a C string: the index. *)
Fixpoint strchr_list (s : list Z) (c : Z) : option nat :=
  match s with
  | [] => None
  | x :: s => if x =? c then Some 0%nat else S <$> strchr_list s c
  end.

(** [while ((q = strchr(p, '\n')) != 0)]; [p] is an index in [buf]. *)
Definition grep_line_body (pattern : list Z) (st : list Z * nat) : prog (list Z * nat + list Z * nat) :=
  let '(buf, p) := st in
  match strchr_list (cstr (drop p buf)) 10 with
  | None => break (buf, p)
  | Some i =>
      let q := (p + i)%nat in
      let buf := <[q := 0]> buf in
      if match_ pattern (cstr (drop p buf)) then
        let buf := <[q := 10]> buf in
        write 1 (take (q + 1 - p) (drop p buf)) ;;
        continue (buf, q + 1)%nat
      else continue (buf, q + 1)%nat
  end.

Definition grep_body (pattern : list Z) (fd : Z) (st : list Z * Z) : prog (list Z * Z + list Z) :=
  let '(buf, m) := st in
  ' (n, buf) <- read fd buf m (grep_BUF - m - 1) ;;
  if 0 <? n then
    let m := m + n in
    let buf := <[Z.to_nat m := 0]> buf in
    ' (buf, p) <- while (grep_line_body pattern) (buf, 0%nat) ;;
    if 0 <? m then
      let m := m - Z.of_nat p in
      continue (put_buf buf 0 (take (Z.to_nat m) (drop p buf)), m)
    else continue (buf, m)
  else break buf.
Definition grep (pattern : list Z) (fd : Z) (buf : list Z) : prog (list Z) :=
  while (grep_body pattern fd) (buf, 0).

Fixpoint grep_main_loop (pattern : list Z) (argv : list (list Z)) (buf : list Z) : prog Z :=
  match argv with
  | [] => exit 0
  | arg :: argv =>
      fd <- open arg O_RDONLY ;;
      if fd <? 0 then
        printf (lit "grep: cannot open %s" ++ nl) [VStr (Some arg)] ;; exit 1
      else
      buf <- grep pattern fd buf ;;
      close fd ;;
      grep_main_loop pattern argv buf
  end.
Definition grep_main (argv : list (list Z)) : prog Z :=
  let buf := replicate (Z.to_nat grep_BUF) 0 in
  match argv with
  | _ :: pattern :: args =>
      match args with
      | [] => grep pattern 0 buf ;; exit 0
      | _ => grep_main_loop pattern args buf
      end
  | _ => fprintf 2 (lit "usage: grep pattern [file ...]" ++ nl) [] ;; exit 1
  end.

(** * The language of a pattern *)

Inductive atom : Type := Any | Chr (c : Z).
Inductive item : Type := One (a : atom) | Star (a : atom).
Definition atom_of (c : Z) : atom := if c =? 46 then Any else Chr c.
Definition atom_ok (a : atom) (c : Z) : Prop := match a with Any => True | Chr d => c = d end.

(** The items of a pattern, and whether it ends in ['$']. *)
Fixpoint parse_items (re : list Z) : list item * bool :=
  match re with
  | [] => ([], false)
  | c :: re1 =>
      match re1 with
      | [] => if c =? 36 then ([], true) else ([One (atom_of c)], false)
      | d :: re2 =>
          if d =? 42 then let '(l, e) := parse_items re2 in (Star (atom_of c) :: l, e)
          else let '(l, e) := parse_items re1 in (One (atom_of c) :: l, e)
      end
  end.

Inductive in_items : list item -> list Z -> Prop :=
| in_items_nil : in_items [] []
| in_items_one a l c s : atom_ok a c -> in_items l s -> in_items (One a :: l) (c :: s)
| in_items_star a l s1 s2 : Forall (atom_ok a) s1 -> in_items l s2 -> in_items (Star a :: l) (s1 ++ s2).

(** [text] starts with a part in the language; the part is all of it for ['$']. *)
Definition begins (le : list item * bool) (text : list Z) : Prop :=
  exists mid post, text = mid ++ post /\ in_items le.1 mid /\ (le.2 = true -> post = []).

(** Some part of [text] is in the language, the first for ['^']. *)
Definition contains (re text : list Z) : Prop :=
  if decide (head re = Some 94) then begins (parse_items (tail re)) text
  else exists pre rest, text = pre ++ rest /\ begins (parse_items re) rest.

Lemma begins_nil text : begins ([], false) text.
Proof. exists [], text. split_and!; [done|constructor|done]. Qed.

Lemma begins_end text : begins ([], true) text <-> text = [].
Proof.
  split; [intros (mid & post & -> & Hm & Hp)|intros ->; exists [], []; split_and!; done || constructor].
  cbn in *. inversion Hm. by rewrite Hp.
Qed.

Lemma begins_one a l e text :
  begins (One a :: l, e) text <-> exists c t, text = c :: t /\ atom_ok a c /\ begins (l, e) t.
Proof.
  split.
  - intros (mid & post & -> & Hm & Hp). inversion Hm as [|? ? c s Hc Hs|]; subst. exists c, (s ++ post).
    split_and!; [done..|]. by exists s, post.
  - intros (c & t & -> & Hc & mid & post & -> & Hm & Hp). exists (c :: mid), post. split_and!; [done| |done].
    by constructor.
Qed.

Lemma begins_star a l e text :
  begins (Star a :: l, e) text <->
  begins (l, e) text \/ exists c t, text = c :: t /\ atom_ok a c /\ begins (Star a :: l, e) t.
Proof.
  split.
  - intros (mid & post & -> & Hm & Hp). inversion Hm as [| |? ? s1 s2 H1 H2]; subst. destruct H1 as [|c s1 Hc H1].
    + left. by exists s2, post.
    + right. exists c, ((s1 ++ s2) ++ post). split_and!; [done..|]. exists (s1 ++ s2), post. split_and!; [done| |done].
      by constructor.
  - intros [(mid & post & -> & Hm & Hp)|(c & t & -> & Hc & mid & post & -> & Hm & Hp)].
    + exists mid, post. split_and!; [done| |done]. change mid with ([] ++ mid). by constructor.
    + cbn [fst snd] in *. inversion Hm as [| |? ? s1 s2 H1 H2]; subst. exists ((c :: s1) ++ s2), post.
      split_and!; [done| |done]. constructor; [by constructor|done].
Qed.

Lemma atom_of_ok c t : atom_ok (atom_of c) t <-> t = c \/ c = 46.
Proof. unfold atom_of. destruct (Z.eqb_spec c 46); cbn; naive_solver. Qed.

Lemma matchstar_begins here c l e text :
  (forall t, here t = true <-> begins (l, e) t) ->
  matchstar here c text = true <-> begins (Star (atom_of c) :: l, e) text.
Proof.
  intros Hh. induction text as [|t text IH]; cbn [matchstar]; rewrite begins_star, <- Hh.
  - destruct (here []); [tauto|]. split; [done|]. by intros [?|(? & ? & ? & _)].
  - destruct (here (t :: text)); [tauto|].
    assert (Ht : (t =? c) || (c =? 46) = true <-> atom_ok (atom_of c) t).
    { rewrite atom_of_ok, orb_true_iff, !Z.eqb_eq. done. }
    destruct ((t =? c) || (c =? 46)).
    + rewrite IH. split; [intros Hb; right; exists t, text; tauto|]. by intros [?|(? & ? & [= <- <-] & _ & ?)].
    + split; [done|]. intros [?|(? & ? & [= <- <-] & Hc & _)]; [done|]. by apply Ht in Hc.
Qed.

Lemma matchhere_begins re text : matchhere re text = true <-> begins (parse_items re) text.
Proof.
  remember (length re) as n eqn:En. revert re text En.
  induction n as [n IH] using lt_wf_ind. intros [|c re1] text ->; cbn [matchhere parse_items].
  { split; [intros _; apply begins_nil|done]. }
  assert (Hone : forall le, (forall t, matchhere re1 t = true <-> begins le t) ->
    match text with t :: text => if (c =? 46) || (c =? t) then matchhere re1 text else false | [] => false end = true
      <-> begins (One (atom_of c) :: le.1, le.2) text).
  { intros [l e] Hle. rewrite begins_one. destruct text as [|t text]; [split; [done|]; by intros (? & ? & ? & _)|].
    assert (Ht : (c =? 46) || (c =? t) = true <-> atom_ok (atom_of c) t).
    { rewrite atom_of_ok, orb_true_iff, !Z.eqb_eq. naive_solver. }
    destruct ((c =? 46) || (c =? t)).
    - rewrite Hle. split; [intros Hb; exists t, text; tauto|]. by intros (? & ? & [= <- <-] & _ & ?).
    - split; [done|]. intros (? & ? & [= <- <-] & Hc & _). by apply Ht in Hc. }
  destruct re1 as [|d re2]; cbn [is_nil].
  - rewrite andb_true_r. destruct (Z.eqb_spec c 36) as [Ec|Ec].
    + rewrite begins_end. by destruct text.
    + apply (Hone ([], false)). intros t. split; [intros _; apply begins_nil|done].
  - destruct (Z.eqb_spec d 42) as [Ed|Ed].
    + destruct (parse_items re2) as [l e] eqn:E. apply matchstar_begins. intros t. rewrite <- E.
      eapply IH; [|done]. cbn. lia.
    + rewrite andb_false_r. destruct (parse_items (d :: re2)) as [l e] eqn:E.
      apply (Hone (l, e)). intros t. rewrite <- E. eapply IH; [|done]. cbn. lia.
Qed.

Lemma match_loop_contains re text :
  match_loop re text = true <-> exists pre rest, text = pre ++ rest /\ begins (parse_items re) rest.
Proof.
  induction text as [|t text IH]; cbn [match_loop].
  - destruct (matchhere re []) eqn:E; [apply matchhere_begins in E; split; [|done]; intros _; by exists [], []|].
    split; [done|]. intros (pre & rest & Ht & Hb). symmetry in Ht. apply app_eq_nil in Ht as [-> ->].
    apply matchhere_begins in Hb. congruence.
  - destruct (matchhere re (t :: text)) eqn:E.
    { apply matchhere_begins in E. split; [|done]. intros _. by exists [], (t :: text). }
    rewrite IH. split.
    + intros (pre & rest & -> & Hb). by exists (t :: pre), rest.
    + intros (pre & rest & Ht & Hb). destruct pre as [|p pre]; cbn in Ht.
      * subst rest. apply matchhere_begins in Hb. congruence.
      * injection Ht as -> ->. by exists pre, rest.
Qed.

(** C30: [match(re, text)] of grep.c returns 1 exactly when a part of the text is in
    the language of the pattern, where ['.'] stands for any byte, [c*] for any number
    of the byte before it, a leading ['^'] for the start and a final ['$'] for the end
    of the text. *)
Theorem match_language re text : match_ re text = true <-> contains re text.
Proof.
  unfold match_, contains. destruct re as [|c re]; [apply match_loop_contains|]. cbn [head tail].
  destruct (Z.eqb_spec c 94) as [->|Hc].
  - rewrite decide_True by done. apply matchhere_begins.
  - rewrite decide_False by congruence. apply match_loop_contains.
Qed.

(** * The lines grep prints *)

(** The lines that end in a newline, [cur] read before; and what follows the last. *)
Fixpoint glines (cur s : list Z) : list (list Z) :=
  match s with
  | [] => []
  | c :: s => if c =? 10 then cur :: glines [] s else glines (cur ++ [c]) s
  end.
Fixpoint gtail (cur s : list Z) : list Z :=
  match s with
  | [] => cur
  | c :: s => if c =? 10 then gtail [] s else gtail (cur ++ [c]) s
  end.

Definition grep_text (pattern : list Z) (lines : list (list Z)) : list Z :=
  filter (fun l => match_ pattern l = true) lines ≫= (fun l => l ++ nl).

Lemma glines_app cur a b : glines cur (a ++ b) = glines cur a ++ glines (gtail cur a) b.
Proof. revert cur; induction a as [|c a IH]; intros cur; cbn; [done|]. case_match; cbn; by rewrite IH. Qed.
Lemma gtail_app cur a b : gtail cur (a ++ b) = gtail (gtail cur a) b.
Proof. revert cur; induction a as [|c a IH]; intros cur; cbn; [done|]. case_match; by rewrite IH. Qed.
Lemma glines_none cur a : 10 ∉ a -> glines cur a = [] /\ gtail cur a = cur ++ a.
Proof.
  revert cur; induction a as [|c a IH]; intros cur Ha; cbn; [by rewrite app_nil_r|].
  apply not_elem_of_cons in Ha as [Hc Ha]. rewrite (proj2 (Z.eqb_neq _ _)) by done.
  destruct (IH (cur ++ [c]) Ha) as [-> ->]. by rewrite <- app_assoc.
Qed.
Lemma gtail_no cur s : 10 ∉ cur -> 10 ∉ gtail cur s.
Proof.
  revert cur; induction s as [|c s IH]; intros cur Hc; cbn; [done|]. destruct (Z.eqb_spec c 10); apply IH; set_solver.
Qed.
Lemma gtail_nul cur s : 0 ∉ cur -> 0 ∉ s -> 0 ∉ gtail cur s.
Proof.
  revert cur; induction s as [|c s IH]; intros cur Hc Hs; cbn; [done|]. destruct (Z.eqb_spec c 10); apply IH; set_solver.
Qed.
Lemma grep_text_app pattern a b : grep_text pattern (a ++ b) = grep_text pattern a ++ grep_text pattern b.
Proof. unfold grep_text. by rewrite filter_app, bind_app. Qed.

(** No line, nor the last part, is longer than the buffer holds. *)
Definition short (cur s : list Z) : Prop :=
  Forall (fun l => (length l <= 1022)%nat) (glines cur s) /\ (length (gtail cur s) <= 1022)%nat.

Lemma short_cur cur s : short cur s -> (length cur <= 1022)%nat.
Proof.
  unfold short. revert cur; induction s as [|c s IH]; intros cur [H1 H2]; cbn in *; [done|].
  destruct (c =? 10); [by inversion H1|]. specialize (IH _ (conj H1 H2)). rewrite length_app in IH. lia.
Qed.
Lemma short_app cur a b : short cur (a ++ b) -> short (gtail cur a) b.
Proof. unfold short. rewrite glines_app, gtail_app, Forall_app. tauto. Qed.

Lemma strchr_list_first a b c : c ∉ a -> strchr_list (a ++ c :: b) c = Some (length a).
Proof.
  induction a as [|x a IH]; cbn; [by rewrite Z.eqb_refl|]. intros [Hc Ha]%not_elem_of_cons.
  rewrite (proj2 (Z.eqb_neq _ _)) by done. by rewrite IH.
Qed.
Lemma strchr_list_none a c : c ∉ a -> strchr_list a c = None.
Proof.
  induction a as [|x a IH]; cbn; [done|]. intros [Hc Ha]%not_elem_of_cons.
  rewrite (proj2 (Z.eqb_neq _ _)) by done. by rewrite IH.
Qed.

Section Spec.
Context {W : Type} `{Io W}.

(** One turn of the inner loop, on a buffer with a line [a] at the index. *)
Lemma grep_line_step pattern pre a b junk w o :
  10 ∉ a -> 0 ∉ a ++ b -> v_out (view w) !! 1 = Some o ->
  exists w' pre', goes (grep_line_body pattern (pre ++ a ++ 10 :: b ++ 0 :: junk, length pre)) w
      (Val w' (inl (pre' ++ b ++ 0 :: junk, length pre'))) /\
    length pre' = (length pre + length a + 1)%nat /\
    view w' = set_v_out <[1 := o ++ grep_text pattern [a]]> (view w).
Proof.
  intros Ha Hn Ho. unfold grep_line_body. rewrite drop_app_length.
  assert (H10 : 0 ∉ a ++ 10 :: b) by set_solver.
  assert (Ec : cstr (a ++ 10 :: b ++ 0 :: junk) = a ++ 10 :: b).
  { rewrite <- (cstr_nul _ junk H10). by rewrite <- app_assoc. }
  rewrite Ec, strchr_list_first by done. cbv zeta.
  assert (Hins : forall x y, <[(length pre + length a)%nat := y]> (pre ++ a ++ x :: b ++ 0 :: junk) =
    pre ++ a ++ y :: b ++ 0 :: junk).
  { intros x y. rewrite insert_app_r, <- (Nat.add_0_r (length a)), insert_app_r. done. }
  rewrite !Hins, drop_app_length, cstr_nul by set_solver.
  assert (Hpre : forall y, pre ++ a ++ y :: b ++ 0 :: junk = (pre ++ a ++ [y]) ++ b ++ 0 :: junk).
  { intros y. by rewrite <- !app_assoc. }
  assert (Hlen : forall y, (length pre + length a + 1)%nat = length (pre ++ a ++ [y])).
  { intros y. rewrite !length_app. cbn. lia. }
  destruct (match_ pattern a) eqn:E.
  - destruct (io_write w 1 o (a ++ nl) Ho) as (w1 & E1 & V1). exists w1, (pre ++ a ++ [10]). split_and!.
    + eapply goes_bind; [apply goes_sys|]; [|rewrite <- Hlen, <- Hpre; apply goes_ret].
      rewrite drop_app_length. replace (length pre + length a + 1 - length pre)%nat with (length (a ++ [10]))
        by (rewrite length_app; cbn; lia).
      replace (a ++ 10 :: b ++ 0 :: junk) with ((a ++ [10]) ++ b ++ 0 :: junk) by (by rewrite <- app_assoc).
      rewrite take_app_length. exact E1.
    + by rewrite <- Hlen.
    + rewrite V1. unfold grep_text. rewrite filter_cons_True by done. cbn. by rewrite app_nil_r.
  - exists w, (pre ++ a ++ [0]). split_and!.
    + rewrite <- Hlen, <- Hpre. apply goes_ret.
    + by rewrite <- Hlen.
    + unfold grep_text. rewrite filter_cons_False by congruence. cbn. rewrite app_nil_r. unfold set_v_out.
      rewrite insert_id by done. by destruct (view w).
Qed.

(** The first line of a text, if it has one. *)
Lemma first_line t : 10 ∉ t \/ exists a b, t = a ++ 10 :: b /\ 10 ∉ a.
Proof.
  induction t as [|c t IH]; [left; apply not_elem_of_nil|]. destruct (Z.eq_dec c 10) as [->|Hc].
  - right. exists [], t. split; [done|apply not_elem_of_nil].
  - destruct IH as [IH|(a & b & -> & Ha)]; [left; set_solver|]. right. exists (c :: a), b. split; [done|set_solver].
Qed.

Lemma grep_lines_ok pattern t junk : forall pre w o,
  0 ∉ t -> v_out (view w) !! 1 = Some o ->
  exists w' pre', goes (while (grep_line_body pattern) (pre ++ t ++ 0 :: junk, length pre)) w
      (Val w' (pre' ++ gtail [] t ++ 0 :: junk, length pre')) /\
    (length pre' + length (gtail [] t) = length pre + length t)%nat /\
    view w' = set_v_out <[1 := o ++ grep_text pattern (glines [] t)]> (view w).
Proof.
  remember (length t) as n eqn:En. revert t En.
  induction n as [n IH] using lt_wf_ind. intros t -> pre w o H0 Ho.
  destruct (first_line t) as [Ht|(a & b & -> & Ha)].
  - destruct (glines_none [] t Ht) as [-> ->]. exists w, pre. split_and!; [|done|].
    + apply goes_while_done. unfold grep_line_body. rewrite drop_app_length, cstr_nul, strchr_list_none by done. apply goes_ret.
    + cbn. rewrite app_nil_r. unfold set_v_out. rewrite insert_id by done. by destruct (view w).
  - destruct (grep_line_step pattern pre a b junk w o) as (w1 & pre1 & G1 & L1 & V1); [done|set_solver|done|].
    destruct (IH (length b)) with (t := b) (pre := pre1) (w := w1) (o := o ++ grep_text pattern [a])
      as (w' & pre' & G & L & V).
    + rewrite length_app. cbn. lia.
    + done.
    + set_solver.
    + rewrite V1. apply lookup_insert_eq.
    + rewrite glines_app, gtail_app. destruct (glines_none [] a Ha) as [-> ->]. cbn [glines gtail app].
      rewrite Z.eqb_refl. exists w', pre'. split_and!.
      * eapply goes_while_more; [|exact G]. rewrite <- app_assoc. exact G1.
      * rewrite L, L1, length_app. cbn. lia.
      * rewrite V, V1. unfold set_v_out. cbn [v_in v_out v_files]. rewrite insert_insert_eq.
        rewrite <- app_assoc, <- grep_text_app. done.
Qed.

(** The buffer after a read at [cur]'s end and the NUL. *)
Lemma put_buf_nul cur l rest :
  (length l < length rest)%nat ->
  exists junk, <[(length cur + length l)%nat := 0]> (put_buf (cur ++ rest) (Z.of_nat (length cur)) l) =
    (cur ++ l) ++ 0 :: junk /\ (length junk + 1 + length l = length rest)%nat.
Proof.
  intros Hl. unfold put_buf. rewrite Nat2Z.id, take_app_length, drop_app_add.
  destruct (drop (length l) rest) as [|x junk] eqn:E.
  { apply (f_equal length) in E. rewrite length_drop in E. cbn in E. lia. }
  exists junk. split.
  - rewrite insert_app_r, <- (Nat.add_0_r (length l)), insert_app_r. cbn. by rewrite <- app_assoc.
  - apply (f_equal length) in E. rewrite length_drop in E. cbn in E. lia.
Qed.

(** [grep] on a descriptor prints the lines that match. *)
Lemma grep_loop_ok pattern fd s : forall cur rest w o,
  v_in (view w) !! fd = Some s -> v_out (view w) !! 1 = Some o ->
  0 ∉ cur -> 0 ∉ s -> 10 ∉ cur -> short cur s -> (length cur + length rest = 1024)%nat ->
  exists w' buf', goes (while (grep_body pattern fd) (cur ++ rest, Z.of_nat (length cur))) w (Val w' buf') /\
    length buf' = 1024%nat /\
    view w' = set_v_in <[fd := []]> (set_v_out <[1 := o ++ grep_text pattern (glines cur s)]> (view w)).
Proof.
  remember (length s) as n eqn:En. revert s En.
  induction n as [n IH] using lt_wf_ind. intros s -> cur rest w o Hs Ho Hc0 Hs0 Hc10 Hsh Hlen.
  pose proof (short_cur _ _ Hsh) as Hcur. set (k := grep_BUF - Z.of_nat (length cur) - 1).
  assert (Hk : 0 < k) by (unfold k, grep_BUF; lia).
  destruct (decide (s = [])) as [->|Hne].
  - destruct (read_end fd (cur ++ rest) (Z.of_nat (length cur)) k w Hs Hk) as (w' & G & V).
    exists w', (put_buf (cur ++ rest) (Z.of_nat (length cur)) []). split_and!.
    + apply goes_while_done. unfold grep_body. eapply goes_bind; [exact G|apply goes_ret].
    + unfold put_buf. rewrite Nat2Z.id, take_app_length, drop_app_add, !length_app, length_drop. cbn. lia.
    + cbn. rewrite app_nil_r, V. unfold set_v_in, set_v_out. cbn. rewrite !insert_id by done. by destruct (view w).
  - destruct (read_some fd (cur ++ rest) (Z.of_nat (length cur)) k w s Hs Hk Hne) as (l & r & w1 & -> & Hl & Hlk & G1 & V1).
    destruct (put_buf_nul cur l rest) as (junk & Eb & Lj); [unfold k, grep_BUF in Hlk; lia|].
    assert (H0l : 0 ∉ cur ++ l) by set_solver.
    destruct (grep_lines_ok pattern (cur ++ l) junk [] w1 o H0l) as (w2 & pre & G2 & L2 & V2); [by rewrite V1|].
    rewrite gtail_app, glines_app in *. destruct (glines_none [] cur Hc10) as [Ec1 Ec2]. rewrite Ec1, Ec2 in *.
    cbn [app length] in *. set (t := gtail cur l) in *.
    set (buf2 := pre ++ t ++ 0 :: junk) in *.
    destruct (IH (length r)) with (s := r) (cur := t) (rest := drop (length t) buf2) (w := w2)
      (o := o ++ grep_text pattern (glines cur l)) as (w' & buf' & G & L & V).
    + rewrite length_app. destruct l; [done|]. cbn. lia.
    + done.
    + rewrite V2, V1. apply lookup_insert_eq.
    + rewrite V2. apply lookup_insert_eq.
    + apply gtail_nul; set_solver.
    + set_solver.
    + by apply gtail_no.
    + by apply short_app.
    + rewrite length_drop. unfold buf2. rewrite !length_app in *. cbn. lia.
    + exists w', buf'. split_and!; [|done|].
      * eapply goes_while_more; [|exact G]. unfold grep_body. eapply goes_bind; [exact G1|]. cbv beta iota zeta.
        rewrite (proj2 (Z.ltb_lt 0 (Z.of_nat (length l)))) by (destruct l; [done|]; cbn; lia).
        rewrite <- Nat2Z.inj_add, Nat2Z.id, Eb. eapply goes_bind; [exact G2|]. cbv beta iota zeta.
        rewrite (proj2 (Z.ltb_lt 0 _)) by (destruct l; [done|]; cbn; lia).
        rewrite length_app in L2. replace (Z.of_nat (length cur + length l) - Z.of_nat (length pre)) with (Z.of_nat (length t)) by lia.
        rewrite Nat2Z.id. unfold buf2 at 2. rewrite drop_app_length, take_app_length.
        unfold put_buf. cbn [Z.to_nat Nat.add]. rewrite take_0. apply goes_ret.
      * rewrite V, V2, V1. unfold set_v_in, set_v_out. cbn [v_in v_out v_files].
        rewrite !insert_insert_eq, <- app_assoc, <- grep_text_app. done.
Qed.

Lemma grep_file pattern fd buf w s o :
  v_in (view w) !! fd = Some s -> v_out (view w) !! 1 = Some o ->
  0 ∉ s -> short [] s -> length buf = 1024%nat ->
  exists w' buf', goes (grep pattern fd buf) w (Val w' buf') /\ length buf' = 1024%nat /\
    view w' = set_v_in <[fd := []]> (set_v_out <[1 := o ++ grep_text pattern (glines [] s)]> (view w)).
Proof.
  intros Hs Ho Hs0 Hsh Hb. apply (grep_loop_ok pattern fd s [] buf); try done; set_solver.
Qed.

(** The output and the status. *)
Fixpoint grep_result (pattern : list Z) (files : gmap (list Z) (list Z)) (args : list (list Z)) : list Z * Z :=
  match args with
  | [] => ([], 0)
  | a :: args =>
      match files !! a with
      | None => (lit "grep: cannot open " ++ a ++ nl, 1)
      | Some s => let '(o, st) := grep_result pattern files args in (grep_text pattern (glines [] s) ++ o, st)
      end
  end.

Lemma says_grep_open a : Forall byte_ok a ->
  says (vprintf 1 (lit "grep: cannot open %s" ++ nl) [VStr (Some a)]) 1 (lit "grep: cannot open " ++ a ++ nl).
Proof.
  intros Ha. apply (says_fmt _ [PLit (lit "grep: cannot open "); PStr a; PLit nl]); [done|done|done|].
  repeat constructor; try done; vm_compute; set_solver.
Qed.

Lemma grep_main_loop_ok pattern args : Forall (Forall byte_ok) args -> forall buf w o,
  v_out (view w) !! 1 = Some o -> length buf = 1024%nat ->
  (forall a s, v_files (view w) !! a = Some s -> 0 ∉ s /\ short [] s) ->
  exists w', goes (grep_main_loop pattern args buf) w (Stop w' (Exited (grep_result pattern (v_files (view w)) args).2)) /\
    view w' = set_v_out <[1 := o ++ (grep_result pattern (v_files (view w)) args).1]> (view w).
Proof.
  induction 1 as [|a args Ha _ IH]; intros buf w o Ho Hb Hok; cbn [grep_result grep_main_loop].
  { exists w. split; [apply goes_halt|]. cbn [fst]. rewrite app_nil_r. unfold set_v_out. rewrite insert_id by done. by destruct (view w). }
  destruct (v_files (view w) !! a) as [s|] eqn:Ef.
  - destruct (Hok a s Ef) as [H0 Hs].
    edestruct (each_file_ret (fun fd => grep pattern fd buf) (fun b => length b = 1024%nat)) as (w3 & buf2 & Hb2 & V & Hk);
      [exact Ef|exact Ho| |].
    { intros fd w1 Hi Ho1. destruct (grep_file pattern fd buf w1 s o) as (w2 & b & G & Hl & V); eauto. }
    destruct (IH buf2 w3 (o ++ grep_text pattern (glines [] s))) as (w' & G & V').
    { rewrite V. apply lookup_insert_eq. } { done. } { rewrite V. exact Hok. }
    rewrite V in G, V'. cbn [set_v_out v_files v_in v_out] in G, V'.
    destruct (grep_result pattern (v_files (view w)) args) as [l st]. cbn [fst snd] in *.
    exists w'. split; [eapply Hk; exact G|].
    rewrite V'. unfold set_v_out. cbn [v_in v_out v_files]. by rewrite insert_insert_eq, app_assoc.
  - edestruct @no_file as (w' & G & V); [exact Ef|exact Ho|by apply (says_grep_open a)|]. exists w'. split; [exact G|exact V].
Qed.

(** C29: in every world that keeps the contract of the calls, [grep pattern f1 f2 ...]
    prints exactly the lines of its files, in order, in which [match] finds the
    pattern, however the reads cut up the text, if no line is longer than the buffer
    holds; the text after the last newline of a file is not a line. *)
Theorem grep_prints_matches w name pattern args o :
  v_out (view w) !! 1 = Some o -> Forall (Forall byte_ok) args -> args <> [] ->
  (forall a s, v_files (view w) !! a = Some s -> 0 ∉ s /\ short [] s) ->
  exists w', goes (start (grep_main (name :: pattern :: args))) w
      (Stop w' (Exited (grep_result pattern (v_files (view w)) args).2)) /\
    view w' = set_v_out <[1 := o ++ (grep_result pattern (v_files (view w)) args).1]> (view w).
Proof.
  intros Ho Ha Hne Hok.
  destruct (grep_main_loop_ok pattern args Ha (replicate (Z.to_nat grep_BUF) 0) w o Ho ltac:(done) Hok) as (w' & G & V).
  exists w'. split; [|exact V]. apply goes_start. unfold grep_main. destruct args; [done|]. exact G.
Qed.

End Spec.

Lemma two_files_short a s : v_files (view two_files) !! a = Some s -> 0 ∉ s /\ short [] s.
Proof.
  change (v_files (view two_files)) with
    ({[lit "a" := lit "one two" ++ nl ++ lit "three" ++ nl; lit "b" := lit "four"]} : gmap (list Z) (list Z)).
  assert (Hd : forall l, bool_decide (0 ∉ l) && forallb (fun x => length x <=? 1022)%nat (glines [] l) &&
    (length (gtail [] l) <=? 1022)%nat = true -> 0 ∉ l /\ short [] l).
  { intros l [[H1 H2]%andb_true_iff H3]%andb_true_iff. apply bool_decide_eq_true in H1. split; [done|]. split.
    - apply Forall_forall. intros x Hx. rewrite forallb_forall in H2. apply Nat.leb_le, H2, list_elem_of_In, Hx.
    - by apply Nat.leb_le. }
  intros Hs. apply Hd. apply lookup_insert_Some in Hs as [[_ <-]|[_ Hs]]; [vm_compute; reflexivity|].
  apply lookup_singleton_Some in Hs as [_ <-]. vm_compute. reflexivity.
Qed.

Lemma grep_prints_matches_witness :
  grep_result (lit "^t.*e$") (v_files (view two_files)) [lit "a"; lit "b"] = (lit "three" ++ nl, 0) /\
  exists w', goes (start (grep_main (lit "grep" :: lit "^t.*e$" :: [lit "a"; lit "b"]))) two_files
      (Stop w' (Exited (grep_result (lit "^t.*e$") (v_files (view two_files)) [lit "a"; lit "b"]).2)) /\
    view w' = set_v_out <[1 := [] ++ (grep_result (lit "^t.*e$") (v_files (view two_files)) [lit "a"; lit "b"]).1]>
      (view two_files).
Proof.
  split; [vm_compute; reflexivity|].
  apply (grep_prints_matches two_files (lit "grep") (lit "^t.*e$") [lit "a"; lit "b"] []).
  - reflexivity.
  - repeat constructor; done.
  - discriminate.
  - exact two_files_short.
Defined.
