(* ===== verification/Umalloc.v ===== *)
(** user/umalloc.c: the allocator of user programs.

    The headers are a map from addresses: the allocator touches no other byte of
    the heap, and reads no header it has not written.  [freep], [heaptop] and the
    headers are the state, threaded through the calls.  [&base] is an argument,
    chosen by the linker; null is 0.

    The theorems: on a well-formed heap [malloc] returns a block that is large
    enough and apart from every block in use, and [free] gives the block back, both
    keeping the heap well formed; but [malloc] never returns for a request of 16 KB
    or more, because the block it gets from the kernel is given back at once by the
    shrinking in [free]. *)

From S2P Require Import Prelude Types Memory Spinlock Sched Sleeplock Uart Printf Ulib User.
From ITree Require Import ITree.
Local Open Scope Z_scope.
Local Open Scope u_scope.

(** [union header]: 16 bytes *)
Record header := mk_header { s_ptr : Z; s_size : Z }.
Definition HEADER : Z := 16.

Record heap := mk_heap { h_hdr : gmap Z header; h_freep : Z; h_heaptop : Z }.
Definition heap0 : heap := mk_heap ∅ 0 0.

Definition hdr (h : heap) (p : Z) : header := default (mk_header 0 0) (h_hdr h !! p).
Definition ptr (h : heap) (p : Z) : Z := s_ptr (hdr h p).
Definition size (h : heap) (p : Z) : Z := s_size (hdr h p).
Definition set_hdr (h : heap) (p : Z) (x : header) : heap := mk_heap (<[p := x]> (h_hdr h)) (h_freep h) (h_heaptop h).
Definition set_ptr (h : heap) (p v : Z) : heap := set_hdr h p (mk_header v (size h p)).
Definition set_size (h : heap) (p v : Z) : heap := set_hdr h p (mk_header (ptr h p) (u32 v)).
Definition set_freep (h : heap) (p : Z) : heap := mk_heap (h_hdr h) p (h_heaptop h).
Definition set_heaptop (h : heap) (p : Z) : heap := mk_heap (h_hdr h) (h_freep h) (u64 p).

(** [p + n] on a [Header *] *)
Definition units (p n : Z) : Z := u64 (p + HEADER * n).

Definition SBRK_ERROR : Z := 2 ^ 64 - 1.

(** [for (p = freep; !(bp > p && bp < p->s.ptr); p = p->s.ptr)] *)
Definition free_body (h : heap) (bp p : Z) : prog (Z + Z) :=
  if (p <? bp) && (bp <? ptr h p) then break p
  else if (ptr h p <=? p) && ((p <? bp) || (bp <? ptr h p)) then break p
  else continue (ptr h p).

(** [if (bp + bp->s.size == p->s.ptr) ... else ...] *)
Definition join_next (h : heap) (bp p : Z) : heap :=
  if units bp (size h bp) =? ptr h p then
    let h := set_size h bp (size h bp + size h (ptr h p)) in
    set_ptr h bp (ptr h (ptr h p))
  else set_ptr h bp (ptr h p).

(** [if (p + p->s.size == bp) ... else ...] *)
Definition join_prev (h : heap) (bp p : Z) : heap * Z :=
  if units p (size h p) =? bp then
    let h := set_size h p (size h p + size h bp) in
    (set_ptr h p (ptr h bp), p)
  else (set_ptr h p bp, bp).

(** [free], given [add_heaptop] *)
Definition free_with (add : Z -> heap -> prog (heap * Z)) (ap : Z) (h : heap) : prog heap :=
  let bp := units ap (-1) in
  p <- while (free_body h bp) (h_freep h) ;;
  let h := join_next h bp p in
  let '(h, bp) := join_prev h bp p in
  let h := set_freep h p in
  if (h_heaptop h <=? units bp (size h bp)) && (1024 <=? size h bp) then
    ' (h, _) <- add (i32 (256 - size h bp)) h ;;
    Ret (set_size h bp 256)
  else Ret h.

(** [free] calls [add_heaptop] with a number that is negative unless the block has
    2^31 units: [depth] bounds the recursion. *)
Fixpoint add_heaptop (depth : nat) (nu : Z) (h : heap) : prog (heap * Z) :=
  match depth with
  | O => halt (Undefined "add_heaptop: recursion")
  | S depth =>
      if 0 <? nu then
        p <- sbrk (i32 (nu * HEADER)) ;;
        if p =? SBRK_ERROR then Ret (h, 0) else
        let hp := p in
        let h := set_size h hp nu in
        let h := set_heaptop h (hp + nu * HEADER) in
        h <- free_with (add_heaptop depth) (units hp 1) h ;;
        Ret (h, h_freep h)
      else
        p <- sbrk (i32 (nu * HEADER)) ;;
        if p =? SBRK_ERROR then Ret (h, 0) else
        Ret (set_heaptop h (h_heaptop h + nu * HEADER), 0)
  end.
Definition DEPTH : nat := 4.
Definition free (ap : Z) (h : heap) : prog heap := free_with (add_heaptop DEPTH) ap h.

Definition nunits_of (nbytes : Z) : Z := u32 ((nbytes + HEADER - 1) / HEADER + 1).

(** [for (p = prevp->s.ptr;; prevp = p, p = p->s.ptr)] *)
Definition malloc_body (nunits : Z) (st : heap * Z * Z) : prog (heap * Z * Z + heap * Z) :=
  let '(h, prevp, p) := st in
  if nunits <=? size h p then
    let '(h, p) :=
      if size h p =? nunits then (set_ptr h prevp (ptr h p), p)
      else
        let h := set_size h p (size h p - nunits) in
        let p := units p (size h p) in
        (set_size h p nunits, p) in
    break (set_freep h prevp, units p 1)
  else if p =? h_freep h then
    ' (h, p) <- add_heaptop DEPTH (i32 (if nunits <? 256 then 256 else nunits)) h ;;
    if p =? 0 then break (h, 0)
    else continue (h, p, ptr h p)
  else continue (h, p, ptr h p).

Definition malloc (base nbytes : Z) (h : heap) : prog (heap * Z) :=
  let nunits := nunits_of nbytes in
  let h :=
    if h_freep h =? 0 then
      let h := set_freep h base in
      let h := set_ptr h base base in
      set_size h base 0
    else h in
  let prevp := h_freep h in
  while (malloc_body nunits) (h, prevp, ptr h prevp).

(** * Headers *)

Lemma ptr_set_ptr h p v q : ptr (set_ptr h p v) q = if q =? p then v else ptr h q.
Proof.
  unfold ptr, hdr, set_ptr, set_hdr. cbn. destruct (Z.eqb_spec q p) as [->|Hq].
  - by rewrite lookup_insert_eq.
  - by rewrite lookup_insert_ne.
Qed.
Lemma size_set_ptr h p v q : size (set_ptr h p v) q = size h q.
Proof.
  unfold size at 1, hdr, set_ptr, set_hdr. cbn. destruct (Z.eqb_spec q p) as [->|Hq].
  - by rewrite lookup_insert_eq.
  - by rewrite lookup_insert_ne.
Qed.
Lemma ptr_set_size h p v q : ptr (set_size h p v) q = ptr h q.
Proof.
  unfold ptr at 1, hdr, set_size, set_hdr. cbn. destruct (Z.eqb_spec q p) as [->|Hq].
  - by rewrite lookup_insert_eq.
  - by rewrite lookup_insert_ne.
Qed.
Lemma size_set_size h p v q : size (set_size h p v) q = if q =? p then u32 v else size h q.
Proof.
  unfold size, hdr, set_size, set_hdr. cbn. destruct (Z.eqb_spec q p) as [->|Hq].
  - by rewrite lookup_insert_eq.
  - by rewrite lookup_insert_ne.
Qed.
Lemma ptr_set_freep h x q : ptr (set_freep h x) q = ptr h q. Proof. done. Qed.
Lemma size_set_freep h x q : size (set_freep h x) q = size h q. Proof. done. Qed.
Lemma ptr_set_heaptop h x q : ptr (set_heaptop h x) q = ptr h q. Proof. done. Qed.
Lemma size_set_heaptop h x q : size (set_heaptop h x) q = size h q. Proof. done. Qed.
Create Rewrite HintDb heap.
#[export] Hint Rewrite ptr_set_ptr size_set_ptr ptr_set_size size_set_size ptr_set_freep size_set_freep
  ptr_set_heaptop size_set_heaptop : heap.
Ltac hsimp := autorewrite with heap.

(** Decide the address tests of the goal. *)
Ltac zcase :=
  repeat match goal with
  | |- context [?a =? ?b] => destruct (Z.eqb_spec a b); try lia
  end.

(** * The free list *)

(** A block is its address and its units. *)
Definition block : Type := Z * Z.

(** The blocks of a list are in order, between two addresses. *)
Fixpoint sorted (lo : Z) (l : list block) (hi : Z) : Prop :=
  match l with
  | [] => lo <= hi
  | (a, s) :: l => lo <= a /\ 0 < s /\ sorted (a + 16 * s) l hi
  end.

(** From the header [p] the pointers lead through the blocks of [l]. *)
Fixpoint links (h : heap) (p : Z) (l : list block) : Prop :=
  match l with
  | [] => True
  | (a, s) :: l => ptr h p = a /\ size h a = s /\ links h a l
  end.
Fixpoint lastaddr (p : Z) (l : list block) : Z :=
  match l with [] => p | (a, _) :: l => lastaddr a l end.
Definition addrs (l : list block) : list Z := fst <$> l.
Definition total (l : list block) : Z := foldr (fun b t => b.2 + t) 0 l.
Definition next (l : list block) (q : Z) : Z := match l with [] => q | (a, _) :: _ => a end.

Lemma total_cons a s l : total ((a, s) :: l) = s + total l.
Proof. done. Qed.

Lemma sorted_app lo l1 l2 hi : sorted lo (l1 ++ l2) hi <-> exists m, sorted lo l1 m /\ sorted m l2 hi.
Proof.
  revert lo; induction l1 as [|[a s] l1 IH]; intros lo; cbn.
  - split; [intros Hs; exists lo; split; [lia|done]|]. intros (m & Hm & Hs).
    destruct l2 as [|[a s] l2]; cbn in *; [lia|]. split_and!; try tauto; lia.
  - rewrite IH. split; [intros (? & ? & m & ? & ?); by exists m|]. intros (m & (? & ? & ?) & ?). eauto.
Qed.
Lemma sorted_le lo l hi : sorted lo l hi -> lo <= hi.
Proof. revert lo; induction l as [|[a s] l IH]; intros lo; cbn; [done|]. intros (? & ? & Hs%IH). lia. Qed.
Lemma sorted_weaken lo lo' l hi hi' : sorted lo l hi -> lo' <= lo -> hi <= hi' -> sorted lo' l hi'.
Proof.
  revert lo lo'; induction l as [|[a s] l IH]; intros lo lo'; cbn; [lia|].
  intros (? & ? & Hs) ? ?. split_and!; [lia|done|]. eapply IH; [done|lia|done].
Qed.
Lemma sorted_in lo l hi a s : sorted lo l hi -> (a, s) ∈ l -> lo <= a /\ 0 < s /\ a + 16 * s <= hi.
Proof.
  revert lo; induction l as [|[b t] l IH]; intros lo; cbn; [set_solver|]. intros (? & ? & Hs) [[= -> ->]|Hin]%elem_of_cons.
  - apply sorted_le in Hs. lia.
  - destruct (IH _ Hs Hin). lia.
Qed.
Lemma sorted_addr lo l hi a : sorted lo l hi -> a ∈ addrs l -> lo <= a < hi.
Proof.
  intros Hs Ha. apply list_elem_of_fmap in Ha as ([b s] & -> & Hb). destruct (sorted_in _ _ _ _ _ Hs Hb). cbn. lia.
Qed.

Lemma sorted_end_inj lo l hi a s b t :
  sorted lo l hi -> (a, s) ∈ l -> (b, t) ∈ l -> a + 16 * s = b + 16 * t -> a = b.
Proof.
  revert lo; induction l as [|[c u] l IH]; intros lo; cbn; [set_solver|]. intros (? & ? & Hs) Ha Hb E.
  apply elem_of_cons in Ha as [[= -> ->]|Ha], Hb as [[= -> ->]|Hb]; [done|..|by eapply IH];
    destruct (sorted_in _ _ _ _ _ Hs ltac:(eassumption)) as (? & ? & ?); lia.
Qed.

Lemma links_app h p l1 l2 : links h p (l1 ++ l2) <-> links h p l1 /\ links h (lastaddr p l1) l2.
Proof. revert p; induction l1 as [|[a s] l1 IH]; intros p; cbn; [tauto|]. rewrite IH. tauto. Qed.
Lemma lastaddr_app p l1 l2 : lastaddr p (l1 ++ l2) = lastaddr (lastaddr p l1) l2.
Proof. revert p; induction l1 as [|[a s] l1 IH]; intros p; cbn; [done|]. apply IH. Qed.
Lemma lastaddr_in p l : lastaddr p l = p \/ lastaddr p l ∈ addrs l.
Proof.
  revert p; induction l as [|[a s] l IH]; intros p; [by left|]. cbn. right. destruct (IH a) as [->|Hin]; set_solver.
Qed.
Lemma lastaddr_range lo p l hi : p < lo -> sorted lo l hi -> p <= lastaddr p l < hi \/ lastaddr p l = p.
Proof. intros Hp Hs. destruct (lastaddr_in p l) as [->|Hin]; [by right|]. left. pose proof (sorted_addr _ _ _ _ Hs Hin). lia. Qed.
Lemma links_frame h h' p l :
  (forall x, x = p \/ x ∈ addrs l -> x <> lastaddr p l -> ptr h' x = ptr h x) ->
  (forall x, x ∈ addrs l -> size h' x = size h x) ->
  (forall lo hi, sorted lo l hi -> p < lo -> links h p l -> links h' p l).
Proof.
  revert p; induction l as [|[a s] l IH]; intros p Hp Hs lo hi Hl Hlo Hk; [done|]. cbn in *.
  destruct Hl as (? & ? & Hl). destruct Hk as (E1 & E2 & Hk). split_and!.
  - rewrite Hp; [done|by left|]. destruct (lastaddr_in a l) as [->|Hin]; [lia|].
    pose proof (sorted_addr _ _ _ _ Hl Hin). lia.
  - rewrite Hs; [done|set_solver].
  - eapply IH; [..|exact Hl|lia|done].
    + intros x Hx Hne. apply Hp; [set_solver|done].
    + intros x Hx. apply Hs. set_solver.
Qed.

(** Two blocks do not overlap. *)
Definition apart (b c : block) : Prop := b.1 + 16 * b.2 <= c.1 \/ c.1 + 16 * c.2 <= b.1.

(** The heap below [top]: [F] is the free list from [base] on, [L] the blocks in
    use.  [heaptop] is 0 until the heap first grows. *)
Record heap_ok (base : Z) (h : heap) (F : list block) (L : gmap Z Z) (top : Z) : Prop := {
  ok_base : 0 < base;
  ok_size0 : size h base = 0;
  ok_sorted : sorted (base + 16) F top;
  ok_links : links h base F;
  ok_ring : ptr h (lastaddr base F) = base;
  ok_freep : h_freep h = base \/ h_freep h ∈ addrs F;
  ok_live : forall a s, L !! a = Some s -> size h a = s /\ 0 < s /\ base + 16 <= a /\ a + 16 * s <= top;
  ok_live_apart : forall a s a' s', L !! a = Some s -> L !! a' = Some s' -> a <> a' -> apart (a, s) (a', s');
  ok_free_apart : forall a s b, L !! a = Some s -> b ∈ F -> apart (a, s) b;
  ok_heaptop : h_heaptop h = top \/ h_heaptop h = 0 /\ F = [] /\ L = ∅;
  ok_top : top < 2 ^ 31;
}.

Lemma units_small p n : 0 <= p + 16 * n < 2 ^ 64 -> units p n = p + 16 * n.
Proof. intros Hp. unfold units, HEADER. by apply wrap_small. Qed.

(** A block apart from the blocks of a sorted list falls between two of them. *)
Lemma sorted_split lo l hi a s :
  sorted lo l hi -> 0 < s -> lo <= a -> a + 16 * s <= hi -> (forall b, b ∈ l -> apart (a, s) b) ->
  exists l1 l2, l = l1 ++ l2 /\ sorted lo l1 a /\ sorted (a + 16 * s) l2 hi.
Proof.
  revert lo; induction l as [|[b t] l IH]; intros lo Hs Hp Hlo Hhi Ha; cbn in Hs.
  - by exists [], [].
  - destruct Hs as (H1 & H2 & Hs). destruct (Ha (b, t)) as [Hb|Hb]; [set_solver|..]; cbn in Hb.
    + exists [], ((b, t) :: l). split_and!; [done|done|]. cbn. done.
    + destruct (IH _ Hs Hp Hb Hhi) as (l1 & l2 & -> & Hl1 & Hl2); [set_solver|].
      exists ((b, t) :: l1), l2. by cbn.
Qed.

Section Walk.
Context {W : Type} `{!World W}.
Context (base : Z) (h : heap) (F1 F2 : list block) (bp hi : Z).
Hypothesis Hbase : sorted (base + 16) F1 bp.
Hypothesis Hafter : sorted (bp + 1) F2 hi.
Hypothesis Hlinks : links h base (F1 ++ F2).
Hypothesis Hring : ptr h (lastaddr base (F1 ++ F2)) = base.

(** The header before [bp]. *)
Let pred : Z := lastaddr base F1.

Lemma pred_range : base <= pred < bp.
Proof.
  pose proof (sorted_le _ _ _ Hbase). destruct (lastaddr_range (base + 16) base F1 bp) as [Hr|Hr]; [lia|done|..]; unfold pred; lia.
Qed.

Lemma pred_next : ptr h pred = next F2 base.
Proof.
  unfold pred. destruct F2 as [|[a s] F2']; cbn.
  - by rewrite app_nil_r in Hring.
  - apply links_app in Hlinks as [_ H2]. cbn in H2. tauto.
Qed.

Lemma free_body_pred w : goes (free_body h bp pred) w (Val w (inr pred)).
Proof.
  unfold free_body. rewrite pred_next. pose proof pred_range as Hp.
  destruct F2 as [|[a s] F2']; cbn [next].
  - rewrite (proj2 (Z.ltb_ge bp base)) by lia. rewrite andb_false_r.
    rewrite (proj2 (Z.leb_le base pred)), (proj2 (Z.ltb_lt pred bp)) by lia. apply goes_ret.
  - cbn in Hafter. rewrite (proj2 (Z.ltb_lt pred bp)), (proj2 (Z.ltb_lt bp a)) by lia. apply goes_ret.
Qed.

(** From a header of the list before [bp]. *)
Lemma free_walk_before A B w : F1 = A ++ B -> goes (while (free_body h bp) (lastaddr base A)) w (Val w pred).
Proof.
  revert A; induction B as [|[a s] B IH]; intros A E.
  - rewrite app_nil_r in E. subst A. apply goes_while_done, free_body_pred.
  - eapply goes_while_more; [|rewrite cons_middle, app_assoc in E; exact (IH _ E)].
    rewrite lastaddr_app. cbn. rewrite E in Hlinks. rewrite <- app_assoc in Hlinks. apply links_app in Hlinks as [_ [E1 _]].
    rewrite E in Hbase. apply sorted_app in Hbase as (m & Hm & (Ha & Hs & Hrest)). apply sorted_le in Hrest.
    assert (lastaddr base A < a).
    { pose proof (sorted_le _ _ _ Hm). destruct (lastaddr_range (base + 16) base A m) as [?|?]; [lia|done|lia..]. }
    unfold free_body. rewrite E1. rewrite (proj2 (Z.ltb_ge bp a)) by lia. rewrite andb_false_r.
    rewrite (proj2 (Z.leb_gt a _)) by lia. apply goes_ret.
Qed.

(** From a header after [bp]: round the ring. *)
Lemma free_walk_after A x s B w : F2 = A ++ (x, s) :: B -> goes (while (free_body h bp) x) w (Val w pred).
Proof.
  revert A x s; induction B as [|[a t] B IH]; intros A x s E.
  - assert (Hx : ptr h x = base). { rewrite <- Hring, E, !lastaddr_app. done. }
    pose proof Hafter as Ha. rewrite E in Ha. apply sorted_app in Ha as (m & Hm & (Hb & _)). apply sorted_le in Hm. pose proof pred_range.
    eapply goes_while_more; [|apply (free_walk_before [] F1); done].
    unfold free_body. rewrite Hx. rewrite (proj2 (Z.ltb_ge x bp)), (proj2 (Z.ltb_ge bp base)) by lia.
    cbn [andb orb]. rewrite andb_false_r. apply goes_ret.
  - assert (Hx : ptr h x = a).
    { rewrite E, app_assoc in Hlinks. apply links_app in Hlinks as [_ (_ & _ & Hl & _)]. done. }
    assert (bp < x < a).
    { pose proof Hafter as Ha. rewrite E in Ha. apply sorted_app in Ha as (m & Hm & (Hb & ? & ? & _)). apply sorted_le in Hm. lia. }
    eapply goes_while_more; [|apply (IH (A ++ [(x, s)]) a t); rewrite <- app_assoc; exact E].
    unfold free_body. rewrite Hx. rewrite (proj2 (Z.ltb_ge x bp)) by lia. cbn [andb].
    rewrite (proj2 (Z.leb_gt a x)) by lia. apply goes_ret.
Qed.

Lemma free_walk p w : p = base \/ p ∈ addrs (F1 ++ F2) -> goes (while (free_body h bp) p) w (Val w pred).
Proof.
  intros [->|Hp]; [by apply (free_walk_before [] F1)|].
  apply list_elem_of_fmap in Hp as ([x s] & -> & Hx). cbn. apply elem_of_app in Hx as [Hx|Hx];
    apply list_elem_of_split in Hx as (A & B & E).
  - replace x with (lastaddr base (A ++ [(x, s)])) by (by rewrite lastaddr_app).
    apply (free_walk_before _ B). by rewrite E, <- app_assoc.
  - by eapply free_walk_after.
Qed.

End Walk.

(** * Joining *)

Section Join.
Context (base : Z) (h : heap) (F1 F2 : list block) (bp s top : Z).
Hypothesis Hb : 0 < base.
Hypothesis H0 : size h base = 0.
Hypothesis H1 : sorted (base + 16) F1 bp.
Hypothesis H2 : sorted (bp + 16 * s) F2 top.
Hypothesis Hs : 0 < s.
Hypothesis Htop : top < 2 ^ 31.
Hypothesis Hsize : size h bp = s.
Hypothesis Hlinks : links h base (F1 ++ F2).
Hypothesis Hring : ptr h (lastaddr base (F1 ++ F2)) = base.

Let pred : Z := lastaddr base F1.

(** The block after the joining with the next one, and the blocks after it. *)
Definition next_join : Z * list block :=
  match F2 with
  | (a, t) :: F => if bp + 16 * s =? a then (s + t, F) else (s, F2)
  | [] => (s, [])
  end.

Lemma join_range : base + 16 <= bp /\ bp + 16 * s <= top /\ base <= pred < bp.
Proof.
  pose proof (sorted_le _ _ _ H1). pose proof (sorted_le _ _ _ H2). split_and!; try lia;
    destruct (lastaddr_range (base + 16) base F1 bp) as [Hr|Hr]; try done; unfold pred; lia.
Qed.

Lemma addr_before x : x = base \/ x ∈ addrs F1 -> x < bp.
Proof. intros [->|Hx]; [destruct join_range; lia|]. pose proof (sorted_addr _ _ _ _ H1 Hx). lia. Qed.

(** Writing the header [bp] leaves the blocks before it alone. *)
Lemma links_before h' :
  (forall x, x <> bp -> ptr h' x = ptr h x) -> (forall x, x <> bp -> size h' x = size h x) -> links h' base F1.
Proof.
  intros Hp Hz. apply links_app in Hlinks as [Hl _]. eapply links_frame; [..|exact H1|lia|exact Hl].
  - intros x Hx _. apply Hp. pose proof (addr_before x Hx). lia.
  - intros x Hx. apply Hz. pose proof (addr_before x (or_intror Hx)). lia.
Qed.

(** And the blocks after it. *)
Lemma links_after h' a G lo :
  (forall x, x <> bp -> ptr h' x = ptr h x) -> (forall x, x <> bp -> size h' x = size h x) ->
  bp < a -> a < lo -> sorted lo G top -> links h a G -> links h' a G.
Proof.
  intros Hp Hz Ha Hlo HG Hl. eapply links_frame; [..|exact HG|lia|exact Hl].
  - intros x [->|Hx] _; apply Hp; [lia|]. pose proof (sorted_addr _ _ _ _ HG Hx). lia.
  - intros x Hx. apply Hz. pose proof (sorted_addr _ _ _ _ HG Hx). lia.
Qed.

Lemma ptr_last_after h' a G lo :
  (forall x, x <> bp -> ptr h' x = ptr h x) -> bp < a -> a < lo -> sorted lo G top ->
  ptr h (lastaddr a G) = base -> ptr h' (lastaddr a G) = base.
Proof.
  intros Hp Ha Hlo HG E. rewrite Hp; [done|]. destruct (lastaddr_range lo a G top) as [?|?]; [lia|done|lia..].
Qed.

Lemma join_next_ok :
  let h1 := join_next h bp pred in
  let '(s', G) := next_join in
  size h1 bp = s' /\ 0 < s' /\ sorted (bp + 16 * s') G top /\
  links h1 bp G /\ ptr h1 (lastaddr bp G) = base /\ links h1 base F1 /\
  s' + total G = s + total F2 /\
  (forall x, x <> bp -> size h1 x = size h x) /\ h_heaptop h1 = h_heaptop h /\
  (forall c, 0 < c.2 -> apart c (bp, s) -> (forall b, b ∈ F2 -> apart c b) ->
     apart c (bp, s') /\ forall b, b ∈ G -> apart c b).
Proof.
  destruct join_range as (R1 & R2 & R3). unfold join_next, next_join. cbv zeta.
  assert (En : ptr h pred = next F2 base) by (eapply (pred_next base h F1 F2 bp top); try done; eapply sorted_weaken; [exact H2|lia|lia]).
  rewrite !ptr_set_size, En, Hsize, units_small by lia. pose proof links_before as Hbefore.
  pose proof Hlinks as Hl. apply links_app in Hl as [_ Hl]. fold pred in Hl. pose proof Hring as Hr.
  rewrite lastaddr_app in Hr. fold pred in Hr.
  destruct F2 as [|[a t] G]; cbn [next lastaddr sorted links] in *.
  - rewrite (proj2 (Z.eqb_neq _ base)) by lia.
    split_and!; try done; try lia; try (by hsimp); try (by hsimp; rewrite Z.eqb_refl).
    + apply Hbefore; intros x Hx; hsimp; zcase; done.
    + intros x Hx. by hsimp.
  - destruct Hl as (_ & Et & Hl). destruct H2 as (Ha & Ht & HG). pose proof (sorted_le _ _ _ HG).
    destruct (Z.eqb_spec (bp + 16 * s) a) as [Ea|Ea].
    + rewrite Et. split_and!; try lia.
      * hsimp. rewrite Z.eqb_refl. apply wrap_small. lia.
      * eapply sorted_weaken; [exact HG|lia|lia].
      * destruct G as [|[b u] G]; [done|]. cbn [links] in *. destruct Hl as (E1 & E2 & Hl).
        cbn [sorted] in HG. destruct HG as (? & ? & HG). split_and!.
        -- hsimp. by rewrite Z.eqb_refl.
        -- hsimp; zcase; done.
        -- eapply (links_after _ _ _ (b + 16 * u)); try done; try lia; intros x Hx; hsimp; zcase; done.
      * destruct G as [|[b u] G]; cbn [lastaddr] in *; [hsimp; by rewrite Z.eqb_refl|].
        cbn [sorted] in HG. destruct HG as (? & ? & HG).
        eapply (ptr_last_after _ _ _ (b + 16 * u)); try done; try lia. intros x Hx; hsimp; zcase; done.
      * apply Hbefore; intros x Hx; hsimp; zcase; done.
      * rewrite total_cons. lia.
      * intros x Hx. hsimp; zcase; done.
      * done.
      * intros [c u] Hc Hcb HcF. pose proof (HcF (a, t) ltac:(set_solver)). unfold apart in *. cbn in *. split; [lia|set_solver].
    + split_and!; try done; try lia; try (by hsimp); try (by hsimp; rewrite Z.eqb_refl).
      * cbn [links]. split_and!; [hsimp; by rewrite Z.eqb_refl|by hsimp|].
        eapply (links_after _ _ _ (a + 16 * t)); try done; try lia; intros x Hx; hsimp; zcase; done.
      * cbn [lastaddr]. eapply (ptr_last_after _ _ _ (a + 16 * t)); try done; try lia. intros x Hx; hsimp; zcase; done.
      * apply Hbefore; intros x Hx; hsimp; zcase; done.
      * intros x Hx. by hsimp.
Qed.

End Join.

Lemma links_ext h h' p l :
  (forall x, ptr h' x = ptr h x) -> (forall x, size h' x = size h x) -> links h p l -> links h' p l.
Proof.
  intros Hp Hs. revert p; induction l as [|[a s] l IH]; intros p; [done|]. cbn. intros (E1 & E2 & Hl).
  rewrite Hp, Hs. split_and!; [done|done|by apply IH].
Qed.

(** A list whose headers are all other than [y] does not see a write to it. *)
Lemma links_other h h' y p lo l hi :
  (forall x, x <> y -> ptr h' x = ptr h x) -> (forall x, x <> y -> size h' x = size h x) ->
  p < lo -> sorted lo l hi -> y <> p \/ l = [] -> y < lo \/ hi <= y -> links h p l -> links h' p l.
Proof.
  intros Hp Hz Hlo Hs Hy Hr Hl. destruct Hy as [Hy| ->]; [|done].
  eapply links_frame; [..|exact Hs|exact Hlo|exact Hl].
  - intros x [->|Hx] _; apply Hp; [done|]. pose proof (sorted_addr _ _ _ _ Hs Hx). lia.
  - intros x Hx. apply Hz. pose proof (sorted_addr _ _ _ _ Hs Hx). lia.
Qed.

(** The last header of a nonempty list that starts at [p]. *)
Lemma ptr_last_other h h' y p q lo l hi :
  (forall x, x <> y -> ptr h' x = ptr h x) -> p < lo -> sorted lo l hi -> y <= p -> p <> y \/ l <> [] ->
  ptr h (lastaddr p l) = q -> ptr h' (lastaddr p l) = q.
Proof.
  intros Hp Hlo Hs Hy Hne E. rewrite Hp; [done|]. destruct l as [|[a s] l]; cbn in *; [naive_solver lia|].
  destruct Hs as (? & ? & Hs). destruct (lastaddr_range (a + 16 * s) a l hi) as [?|?]; [lia|done|lia..].
Qed.

Lemma total_app l1 l2 : total (l1 ++ l2) = total l1 + total l2.
Proof. induction l1 as [|[a s] l1 IH]; [done|]. cbn [app]. rewrite !total_cons, IH. lia. Qed.
Lemma addrs_app l1 l2 : addrs (l1 ++ l2) = addrs l1 ++ addrs l2.
Proof. unfold addrs. apply fmap_app. Qed.

Section JoinPrev.
Context (base : Z) (h : heap) (F1 G : list block) (bp s top : Z).
Hypothesis Hb : 0 < base.
Hypothesis H0 : size h base = 0.
Hypothesis H1 : sorted (base + 16) F1 bp.
Hypothesis HG : sorted (bp + 16 * s) G top.
Hypothesis Hs : 0 < s.
Hypothesis Htop : top < 2 ^ 31.
Hypothesis Hsize : size h bp = s.
Hypothesis Hl1 : links h base F1.
Hypothesis HlG : links h bp G.
Hypothesis Hring : ptr h (lastaddr bp G) = base.

Let pred : Z := lastaddr base F1.

(** The list after the second joining, and the block that [bp] is part of. *)
Record joined (h2 : heap) (F0 : list block) (b u : Z) : Prop := {
  jn_size0 : size h2 base = 0;
  jn_links : links h2 base (F0 ++ (b, u) :: G);
  jn_ring : ptr h2 (lastaddr base (F0 ++ (b, u) :: G)) = base;
  jn_sorted : sorted (base + 16) (F0 ++ (b, u) :: G) top;
  jn_total : total (F0 ++ (b, u) :: G) = total F1 + s + total G;
  jn_units : u = s /\ b = bp /\ (forall c t, (c, t) ∈ F1 -> c + 16 * t <> bp) \/
    exists t, (b, t) ∈ F1 /\ b + 16 * t = bp /\ u = t + s;
  jn_sub : forall d, d ∈ F0 -> d ∈ F1;
  jn_pred : pred = base \/ pred ∈ addrs (F0 ++ (b, u) :: G);
  jn_size : forall x, x <> pred -> size h2 x = size h x;
  jn_heaptop : h_heaptop h2 = h_heaptop h;
  jn_apart : forall c, 0 < c.2 -> apart c (bp, s) -> (forall d, d ∈ F1 ++ G -> apart c d) ->
     forall d, d ∈ F0 ++ (b, u) :: G -> apart c d;
}.

Lemma join_prev_apart : units pred (size h pred) <> bp -> joined (set_ptr h pred bp) F1 bp s.
Proof.
  intros Hne. pose proof (sorted_le _ _ _ H1). pose proof (sorted_le _ _ _ HG).
  assert (Hp : base <= pred < bp).
  { destruct (lastaddr_range (base + 16) base F1 bp) as [Hr|Hr]; try done; unfold pred; lia. }
  assert (Hw : forall x, x <> pred -> ptr (set_ptr h pred bp) x = ptr h x) by (intros x Hx; hsimp; zcase; done).
  assert (Hz : forall x, size (set_ptr h pred bp) x = size h x) by (intros x; by hsimp).
  split.
  - by hsimp.
  - apply links_app. split.
    + eapply links_frame; [..|exact H1|lia|exact Hl1]; [|done]. intros x _ Hx. by apply Hw.
    + fold pred. cbn [links]. split_and!; [hsimp; by rewrite Z.eqb_refl|by hsimp|].
      eapply (links_other h _ pred); try done; try lia.
  - rewrite lastaddr_app. cbn [lastaddr]. eapply (ptr_last_other h _ pred); try done; try lia.
  - apply sorted_app. exists bp. split; [done|]. cbn. split_and!; [lia|done|done].
  - rewrite total_app, total_cons. lia.
  - left. split_and!; [done|done|]. intros c t Hc E. apply Hne. clear Hw Hz.
    apply list_elem_of_split in Hc as (A & B & EF). pose proof H1 as Hs1. pose proof Hl1 as Hl. unfold pred in *.
    rewrite EF in Hs1, Hl |- *. apply sorted_app in Hs1 as (m & Hm & (Hc & Ht & HB)). apply links_app in Hl as [_ (_ & Et & _)].
    destruct B as [|[d v] B]; cbn in HB; [|destruct HB as (? & ? & HB%sorted_le); lia].
    rewrite lastaddr_app. cbn. rewrite Et, units_small; [done|]. pose proof (sorted_le _ _ _ Hm). lia.
  - done.
  - destruct (lastaddr_in base F1) as [E|E]; [by left|]. right. rewrite addrs_app. set_solver.
  - intros x _. apply Hz.
  - done.
  - intros c Hc Hcb HcF d Hd. apply elem_of_app in Hd as [Hd|[->|Hd]%elem_of_cons]; [..|done|];
      apply HcF; set_solver.
Qed.

Lemma join_prev_ok : exists h2 F0 b u, join_prev h bp pred = (h2, b) /\ size h2 b = u /\ joined h2 F0 b u.
Proof.
  pose proof (sorted_le _ _ _ H1). pose proof (sorted_le _ _ _ HG).
  assert (Hp : base <= pred < bp).
  { destruct (lastaddr_range (base + 16) base F1 bp) as [Hr|Hr]; try done; unfold pred; lia. }
  destruct (Z.eqb_spec (units pred (size h pred)) bp) as [E|E].
  2:{ exists (set_ptr h pred bp), F1, bp, s.
      assert (Ej : join_prev h bp pred = (set_ptr h pred bp, bp)).
      { unfold join_prev. by rewrite (proj2 (Z.eqb_neq _ _)). }
      split_and!; [done|by hsimp|]. by apply join_prev_apart. }
  assert (HF : F1 = [] \/ exists F0 a t, F1 = F0 ++ [(a, t)]).
  { clear. destruct F1 as [|[a t] F0 _] using rev_ind; [by left|]. right. by exists F0, a, t. }
  destruct HF as [EF|(F0 & a & t & EF)].
  { exfalso. unfold pred in E. rewrite EF in E. cbn [lastaddr] in E. rewrite H0, units_small in E by lia. lia. }
  assert (Ep : pred = a) by (unfold pred; rewrite EF; by rewrite lastaddr_app).
  pose proof Hl1 as Hl. rewrite EF in Hl. apply links_app in Hl as [Hl0 (Ea & Et & _)].
  pose proof H1 as Hs1. rewrite EF in Hs1. apply sorted_app in Hs1 as (m & Hm & (Ha & Ht & He)). cbn in He.
  pose proof (sorted_le _ _ _ Hm). rewrite Ep, Et, units_small in E by lia.
  set (h2 := set_ptr (set_size h a (t + s)) a (ptr h bp)).
  assert (Hw : forall x, x <> a -> ptr h2 x = ptr h x) by (intros x Hx; unfold h2; hsimp; zcase; done).
  assert (Hz : forall x, x <> a -> size h2 x = size h x) by (intros x Hx; unfold h2; hsimp; zcase; done).
  assert (Hza : size h2 a = t + s) by (unfold h2; hsimp; rewrite Z.eqb_refl; apply wrap_small; lia).
  assert (Hwa : ptr h2 a = ptr h bp) by (unfold h2; hsimp; by rewrite Z.eqb_refl).
  assert (HGs : sorted (a + 16 * (t + s)) G top) by (eapply sorted_weaken; [exact HG|lia|lia]).
  exists h2, F0, a, (t + s). split_and!; [|done|].
  { unfold join_prev. rewrite Ep, Et, units_small by lia. rewrite (proj2 (Z.eqb_eq _ _)) by lia.
    cbv zeta. by rewrite Hsize, ptr_set_size. }
  split.
  - rewrite Hz; [done|lia].
  - apply links_app. split.
    + eapply (links_other h h2 a); try done; try lia.
    + cbn [links]. split_and!; [|done|].
      * rewrite Hw; [done|]. destruct (lastaddr_range (base + 16) base F0 m) as [?|?]; [lia|done|lia..].
      * destruct G as [|[c v] G']; [done|]. cbn [links sorted] in *. destruct HlG as (E1 & E2 & E3), HG as (? & ? & HG').
        split_and!; [congruence|rewrite Hz; [done|lia]|]. eapply (links_other h h2 a); try done; try lia.
  - rewrite lastaddr_app. cbn [lastaddr]. destruct G as [|[c v] G']; cbn [lastaddr] in *; [congruence|].
    cbn [sorted] in HG. destruct HG as (? & ? & HG').
    eapply (ptr_last_other h h2 a); try done; try lia.
  - apply sorted_app. exists m. split; [done|]. cbn. split_and!; [lia|lia|done].
  - rewrite EF, !total_app, !total_cons. change (total []) with 0. lia.
  - right. exists t. split_and!; [rewrite EF; set_solver|done|done].
  - intros d Hd. rewrite EF. set_solver.
  - right. rewrite Ep, addrs_app. set_solver.
  - rewrite Ep. done.
  - done.
  - intros [c v] Hc Hcb HcF d Hd. apply elem_of_app in Hd as [Hd|[->|Hd]%elem_of_cons].
    + apply HcF. rewrite EF. set_solver.
    + pose proof (HcF (a, t) ltac:(rewrite EF; set_solver)). unfold apart in *. cbn in *. lia.
    + apply HcF. set_solver.
Qed.

End JoinPrev.

(** The contract of [sbrk]: it moves the end of the program's memory, up to a limit,
    and returns the old end. *)
Class Brk (W : Type) `{!World W} : Type := {
  brk : W -> Z;
  brk_limit : Z;
  brk_limit_ok : brk_limit < 2 ^ 31;
  sbrk_grow : forall w n, 0 < n -> brk w + n <= brk_limit ->
    exists w', answer (Sbrk n) w = (w', brk w) /\ brk w' = brk w + n;
  sbrk_full : forall w n, 0 < n -> brk_limit < brk w + n ->
    exists w', answer (Sbrk n) w = (w', SBRK_ERROR) /\ brk w' = brk w;
  sbrk_shrink : forall w n, n <= 0 -> 0 <= brk w + n ->
    exists w', answer (Sbrk n) w = (w', brk w) /\ brk w' = brk w + n;
}.

Section Free.
Context {W : Type} `{Brk W}.
Context (base : Z) (h : heap) (F : list block) (L : gmap Z Z) (top bp s : Z).
Hypothesis Hok : heap_ok base h F L top.
Hypothesis Htop : h_heaptop h = top.
Hypothesis Hsize : size h bp = s.
Hypothesis Hs : 0 < s.
Hypothesis Hlo : base + 16 <= bp.
Hypothesis Hhi : bp + 16 * s <= top.
Hypothesis HF : forall b, b ∈ F -> apart (bp, s) b.
Hypothesis HL : forall a t, L !! a = Some t -> apart (a, t) (bp, s).

(** [free] before the test for shrinking: the block [b] of [u] units has [bp] in it. *)
Lemma free_joins add w :
  exists h3 F0 G b u, heap_ok base h3 (F0 ++ (b, u) :: G) L top /\ h_heaptop h3 = top /\
    total (F0 ++ (b, u) :: G) = total F + s /\ s <= u /\ (forall d, d ∈ F0 ++ G -> d ∈ F) /\
    (bp + 16 * s = top -> G = [] /\
      (u = s /\ b = bp /\ (forall c t, (c, t) ∈ F -> c + 16 * t <> bp) \/
       exists t, (b, t) ∈ F /\ b + 16 * t = bp /\ u = t + s)) /\
    forall r, goes (if (h_heaptop h3 <=? units b (size h3 b)) && (1024 <=? size h3 b) then
        ' (h, _) <- add (i32 (256 - size h3 b)) h3 ;; Ret (set_size h b 256) else Ret h3) w r ->
      goes (free_with add (bp + 16) h) w r.
Proof.
  destruct Hok as [B1 B2 B3 B4 B5 B6 B7 B8 B9 B10 B11].
  destruct (sorted_split _ _ _ _ _ B3 Hs Hlo Hhi HF) as (F1 & F2 & EF & S1 & S2).
  rewrite EF in B4, B5.
  assert (Hwalk : goes (while (free_body h bp) (h_freep h)) w (Val w (lastaddr base F1))).
  { apply (free_walk base h F1 F2 bp top); try done; [|by rewrite EF in B6]. eapply sorted_weaken; [exact S2|lia|lia]. }
  pose proof (join_next_ok base h F1 F2 bp s top B1 B2 S1 S2 Hs B11 Hsize B4 B5) as Hn. cbv zeta in Hn.
  destruct (next_join F2 bp s) as [s' G] eqn:En. set (h1 := join_next h bp (lastaddr base F1)) in *.
  destruct Hn as (N1 & N2 & N3 & N4 & N5 & N6 & N7 & N8 & N9 & N10).
  destruct (join_prev_ok base h1 F1 G bp s' top B1) as (h2 & F0 & b & u & Ej & Eu & [J1 J2 J3 J4 J5 J6 Jsub J7 J8 J9 J10]); try done.
  { rewrite N8; [done|lia]. }
  assert (Hap : forall a t, L !! a = Some t -> 0 < t /\ forall d, d ∈ F0 ++ (b, u) :: G -> apart (a, t) d).
  { intros a t Ha. destruct (B7 a t Ha) as (_ & Ht & _). split; [done|].
    destruct (N10 (a, t)) as [A1 A2]; [done|by apply HL|intros d Hd; apply (B9 a t d Ha); rewrite EF; apply elem_of_app; by right|].
    apply (J10 (a, t)); [done|done|]. intros d [Hd|Hd]%elem_of_app; [|by apply A2].
    apply (B9 a t d Ha). rewrite EF. apply elem_of_app. by left. }
  assert (Hsz : forall a t, L !! a = Some t -> size h2 a = size h a).
  { intros a t Ha. destruct (B7 a t Ha) as (_ & Ht & Hab & _). rewrite J8, N8; [done|..].
    - intros ->. destruct (HL bp t Ha) as [Hx|Hx]; cbn in Hx; lia.
    - intros Ep. destruct (lastaddr_in base F1) as [E|E]; [lia|].
      apply list_elem_of_fmap in E as ([c v] & Ec & Hc). cbn in Ec.
      assert (Hcv : (c, v) ∈ F) by (rewrite EF; apply elem_of_app; by left).
      pose proof (sorted_in _ _ _ _ _ S1 Hc). destruct (B9 a t _ Ha Hcv) as [Hx|Hx]; cbn in Hx; lia. }
  exists (set_freep h2 (lastaddr base F1)), F0, G, b, u. split_and!.
  - split; [exact B1|exact J1|exact J4|by apply (links_ext h2)|exact J3|exact J7| |exact B8| |left; cbn; congruence|exact B11].
    + intros a t Ha. rewrite size_set_freep, (Hsz a t Ha). by apply B7.
    + intros a t d Ha Hd. by apply (Hap a t Ha).
  - cbn. congruence.
  - etrans; [exact J5|]. rewrite EF, total_app. lia.
  - assert (s <= s').
    { unfold next_join in En. destruct F2 as [|[c v] F2']; [by injection En as <- <-|].
      cbn in S2. destruct (_ =? c); injection En as <- <-; lia. }
    destruct J6 as [(-> & _)|(t & Ht & _ & ->)]; [done|]. pose proof (sorted_in _ _ _ _ _ S1 Ht). lia.
  - intros d Hd. rewrite EF. apply elem_of_app. apply elem_of_app in Hd as [Hd|Hd]; [left; by apply Jsub|right].
    unfold next_join in En. destruct F2 as [|[c v] F2']; [injection En as <- <-; set_solver|].
    destruct (_ =? c); injection En as <- <-; [by right|done].
  - intros Et. assert (F2 = []) as ->.
    { destruct F2 as [|[c v] F2']; [done|]. cbn in S2. destruct S2 as (? & ? & S2%sorted_le). lia. }
    cbn in En. injection En as <- <-. split; [done|]. rewrite app_nil_r in EF. rewrite EF. done.
  - intros r Hr. unfold free_with. replace (units (bp + 16) (-1)) with bp by (rewrite units_small; lia).
    eapply goes_bind; [exact Hwalk|]. cbv zeta. fold h1. rewrite Ej. exact Hr.
Qed.

(** [free] keeps the heap well formed: the units of the block are on the free list,
    but for those of a large last block that go back to the kernel. *)
Lemma free_with_ok d w :
  brk w = top ->
  exists w' h' F' top', goes (free_with (add_heaptop (S d)) (bp + 16) h) w (Val w' h') /\
    heap_ok base h' F' L top' /\ h_heaptop h' = top' /\ brk w' = top' /\ top' <= top /\
    16 * total F' + (top - top') = 16 * (total F + s) /\
    ((top' = top /\ exists b u, (b, u) ∈ F' /\ s <= u /\ (bp + 16 * s = top -> u < 1024)) \/
     (exists b, (b, 256) ∈ F' /\ b + 16 * 256 = top' /\ (forall c t, (c, t) ∈ F' -> (c, t) ∈ F \/ t = 256) /\
        (bp + 16 * s = top -> (b = bp /\ 1024 <= s /\ (forall c t, (c, t) ∈ F -> c + 16 * t <> bp)) \/
           exists t, (b, t) ∈ F /\ b + 16 * t = bp /\ 1024 <= t + s))).
Proof.
  intros Hbrk. destruct (free_joins (add_heaptop (S d)) w) as (h3 & F0 & G & b & u & Hok3 & Ht3 & Htot & Hu & Hsub & Hlast & Hg).
  destruct Hok3 as [B1 B2 B3 B4 B5 B6 B7 B8 B9 B10 B11] eqn:Hok3'. clear Hok3'.
  pose proof B3 as B3'. apply sorted_app in B3' as (m & Hm & (Hmb & Hu0 & HG)). pose proof (sorted_le _ _ _ HG).
  pose proof (sorted_le _ _ _ Hm).
  assert (Eu : size h3 b = u) by (apply links_app in B4 as [_ (_ & E & _)]; done).
  rewrite Eu, Ht3, units_small in Hg by lia.
  destruct ((top <=? b + 16 * u) && (1024 <=? u)) eqn:Etest.
  2:{ exists w, h3, (F0 ++ (b, u) :: G), top. split_and!; [apply Hg, goes_ret|done..|lia|lia|left].
      split; [done|]. exists b, u. split_and!; [set_solver|done|]. intros Et. destruct (Hlast Et) as [_ Hl].
      apply andb_false_iff in Etest as [E|E]; b2p; [|done]. destruct Hl as [(? & ? & _)|(t & _ & ? & ?)]; lia. }
  b2p. assert (G = []) as ->.
  { destruct G as [|[c v] G']; [done|]. cbn in HG. destruct HG as (? & ? & HG%sorted_le). lia. }
  assert (Eb : b + 16 * u = top) by lia.
  assert (Hlive : forall a t, L !! a = Some t -> a + 16 * t <= b).
  { intros a t Ha. destruct (B7 a t Ha) as (_ & ? & _ & ?). destruct (B9 a t (b, u) Ha) as [E|E]; [set_solver|done|]. cbn in E. lia. }
  destruct (sbrk_shrink w ((256 - u) * 16)) as (w' & Ea & Ebrk); [lia|rewrite Hbrk; lia|].
  set (h4 := set_heaptop h3 (top + (256 - u) * HEADER)).
  assert (Et4 : h_heaptop h4 = b + 16 * 256) by (unfold h4, HEADER; cbn; rewrite wrap_small; lia).
  exists w', (set_size h4 b 256), (F0 ++ [(b, 256)]), (b + 16 * 256).
  assert (Hz : forall x, x <> b -> size (set_size h4 b 256) x = size h3 x).
  { intros x Hx. hsimp. zcase. done. }
  split_and!.
  - apply Hg. rewrite (swrap_small 32) by lia. eapply (goes_bind _ _ _ w' (h4, 0)); [|apply goes_ret]. cbn [add_heaptop].
    rewrite (proj2 (Z.ltb_ge 0 (256 - u))) by lia. unfold HEADER at 1. rewrite (swrap_small 32) by lia.
    eapply goes_bind; [apply goes_sys; exact Ea|]. rewrite (proj2 (Z.eqb_neq _ _)) by (unfold SBRK_ERROR; lia).
    rewrite Ht3. apply goes_ret.
  - split.
    + done.
    + rewrite Hz; [done|lia].
    + apply sorted_app. exists m. split; [done|]. cbn. lia.
    + apply links_app in B4 as [Hl1 (Hl2 & _ & _)]. apply links_app. split.
      * apply (links_other h3 _ b base (base + 16) F0 m); try done; [intros; by hsimp|lia|left; lia|lia].
      * cbn [links]. split_and!; [by hsimp|hsimp; by rewrite Z.eqb_refl|done].
    + rewrite lastaddr_app in *. cbn [lastaddr] in *. by hsimp.
    + rewrite addrs_app in *. exact B6.
    + intros a t Ha. destruct (B7 a t Ha) as (? & ? & ? & ?). pose proof (Hlive a t Ha).
      split_and!; [rewrite Hz; [done|lia]|done..|lia].
    + done.
    + intros a t c Ha [Hc|[-> |Hc]%elem_of_cons]%elem_of_app; [|left; by apply Hlive|set_solver].
      apply (B9 a t c Ha). apply elem_of_app. by left.
    + by left.
    + lia.
  - exact Et4.
  - lia.
  - lia.
  - rewrite total_app, total_cons in *. change (total []) with 0 in *. lia.
  - right. exists b. split_and!; [apply elem_of_app; right; by left|done|..].
    + intros c t [Hc|[[= <- <-]|Hc]%elem_of_cons]%elem_of_app; [left|by right|set_solver].
      apply Hsub. apply elem_of_app. by left.
    + intros Et. destruct (Hlast Et) as [_ [(? & ? & ?)|(t & ? & ? & ?)]]; [left|right; exists t]; split_and!; done || lia.
Qed.

End Free.

(** * Growing *)

Lemma heap_ok_fresh base h F L top : heap_ok base h F L top -> base + 16 <= top.
Proof. intros Hok. exact (sorted_le _ _ _ (ok_sorted _ _ _ _ _ Hok)). Qed.

Section Grow.
Context {W : Type} `{Brk W}.
Context (base : Z) (h : heap) (F : list block) (L : gmap Z Z) (top nu : Z).
Hypothesis Hok : heap_ok base h F L top.
Hypothesis Hnu : 0 < nu.

(** The heap with the new memory as a block that is neither free nor in use. *)
Lemma grown_ok :
  top + 16 * nu < 2 ^ 31 ->
  let h1 := set_heaptop (set_size h top nu) (top + nu * HEADER) in
  heap_ok base h1 F L (top + 16 * nu) /\ h_heaptop h1 = top + 16 * nu /\ size h1 top = nu.
Proof.
  intros Hmax h1. pose proof (heap_ok_fresh _ _ _ _ _ Hok) as Hlow. destruct Hok as [B1 B2 B3 B4 B5 B6 B7 B8 B9 B10 B11].
  assert (Hp : forall x, ptr h1 x = ptr h x) by (intros x; unfold h1; by hsimp).
  assert (Hz : forall x, x <> top -> size h1 x = size h x) by (intros x Hx; unfold h1; hsimp; zcase; done).
  assert (Et : h_heaptop h1 = top + 16 * nu) by (unfold h1, HEADER; cbn; rewrite wrap_small; lia).
  split_and!; [|done|unfold h1; hsimp; rewrite Z.eqb_refl; apply wrap_small; lia].
  split; try done.
  - rewrite Hz; [done|lia].
  - eapply sorted_weaken; [exact B3|lia|lia].
  - apply (links_other h h1 top base (base + 16) F top); try done; [lia|left; lia|lia].
  - by rewrite Hp.
  - intros a t Ha. destruct (B7 a t Ha) as (? & ? & ? & ?). rewrite Hz by lia. split_and!; [done..|lia].
  - by left.
Qed.

Lemma add_heaptop_ok d w :
  brk w = top -> top + 16 * nu <= brk_limit ->
  exists w' h' F' top', goes (add_heaptop (S (S d)) nu h) w (Val w' (h', h_freep h')) /\
    heap_ok base h' F' L top' /\ brk w' = top' /\
    ((top' = top + 16 * nu /\ nu < 1024 /\ exists b u, (b, u) ∈ F' /\ nu <= u) \/
     (exists b, (b, 256) ∈ F' /\ b + 16 * 256 = top' /\ (forall c t, (c, t) ∈ F' -> (c, t) ∈ F \/ t = 256) /\
        ((b = top /\ 1024 <= nu /\ (forall c t, (c, t) ∈ F -> c + 16 * t <> top)) \/
         exists t, (b, t) ∈ F /\ b + 16 * t = top /\ 1024 <= t + nu))).
Proof.
  intros Hbrk Hlim. pose proof brk_limit_ok. pose proof (heap_ok_fresh _ _ _ _ _ Hok) as Hlow. pose proof (ok_base _ _ _ _ _ Hok).
  destruct (sbrk_grow w (nu * 16)) as (w1 & E1 & Eb1); [lia|lia|].
  destruct grown_ok as (Hok1 & Ht1 & Hs1); [lia|]. set (h1 := set_heaptop _ _) in *.
  destruct (free_with_ok base h1 F L (top + 16 * nu) top nu Hok1 Ht1 Hs1 Hnu Hlow ltac:(lia)) with (d := d) (w := w1)
    as (w2 & h2 & F2 & top2 & G2 & Hok2 & Ht2 & Hb2 & Hle & Htot & Hcase).
  { intros [b t] Hb. right. destruct Hok as [_ _ B3 _ _ _ _ _ _ _ _]. destruct (sorted_in _ _ _ _ _ B3 Hb). cbn. lia. }
  { intros a t Ha. left. destruct Hok as [_ _ _ _ _ _ B7 _ _ _ _]. destruct (B7 a t Ha) as (_ & _ & _ & ?). done. }
  { lia. }
  exists w2, h2, F2, top2. split_and!; [|done|done|].
  - cbn [add_heaptop]. rewrite (proj2 (Z.ltb_lt 0 nu)) by done. unfold HEADER at 1. rewrite (swrap_small 32) by lia.
    eapply goes_bind; [apply goes_sys; exact E1|]. rewrite Hbrk, (proj2 (Z.eqb_neq _ _)) by (unfold SBRK_ERROR; lia).
    cbv zeta. fold h1. rewrite units_small by lia. replace (top + 16 * 1) with (top + 16) by lia.
    eapply goes_bind; [exact G2|apply goes_ret].
  - destruct Hcase as [(-> & b & u & Hb & Hu & Hmax)|(b & Hb & Ht & Hsub & Hl)].
    + left. split_and!; [done|specialize (Hmax eq_refl); lia|by exists b, u].
    + right. exists b. split_and!; [done..|by apply Hl].
Qed.

Lemma add_heaptop_full d w :
  brk w = top -> brk_limit < top + 16 * nu -> nu < 2 ^ 27 ->
  exists w', goes (add_heaptop (S d) nu h) w (Val w' (h, 0)) /\ brk w' = top.
Proof.
  intros Hbrk Hlim Hn. destruct (sbrk_full w (nu * 16)) as (w1 & E1 & Eb1); [lia|lia|]. exists w1. split; [|lia].
  cbn [add_heaptop]. rewrite (proj2 (Z.ltb_lt 0 nu)) by done. unfold HEADER at 1. rewrite (swrap_small 32) by lia.
  eapply goes_bind; [apply goes_sys; exact E1|]. rewrite Z.eqb_refl. apply goes_ret.
Qed.

End Grow.

(** * Searching *)

Section Search.
Context {W : Type} `{!World W}.
Context (base : Z) (h : heap) (F : list block) (L : gmap Z Z) (top n : Z).
Hypothesis Hok : heap_ok base h F L top.
Hypothesis Hn : 0 < n.

(** The search comes from one state to another. *)
Definition leads (w : W) (st st' : heap * Z * Z) : Prop := rtc (turn (malloc_body n)) (st, w) (st', w).

Lemma leads_refl w st : leads w st st.
Proof. apply rtc_refl. Qed.
Lemma leads_trans w a b c : leads w a b -> leads w b c -> leads w a c.
Proof. intros H1 H2. unfold leads in *. by etrans. Qed.

Lemma leads_step w pr a : size h a < n -> a <> h_freep h -> leads w (h, pr, a) (h, a, ptr h a).
Proof.
  intros Hs Ha. apply rtc_once. unfold turn. cbn [fst snd]. unfold malloc_body.
  rewrite (proj2 (Z.leb_gt _ _)), (proj2 (Z.eqb_neq _ _)) by done. apply goes_ret.
Qed.

(** Through a part of the list: up to the first block that is large enough. *)
Lemma leads_list w l : forall pr, links h pr l -> h_freep h ∉ addrs l ->
  (exists l1 a t l2, l = l1 ++ (a, t) :: l2 /\ n <= t /\ leads w (h, pr, ptr h pr) (h, lastaddr pr l1, a)) \/
  (forall a t, (a, t) ∈ l -> t < n) /\
    leads w (h, pr, ptr h pr) (h, lastaddr pr l, ptr h (lastaddr pr l)).
Proof.
  induction l as [|[a t] l IH]; intros pr Hl Hf.
  { right. split; [set_solver|]. apply leads_refl. }
  cbn in Hl. destruct Hl as (E1 & E2 & Hl). apply not_elem_of_cons in Hf as [Hfa Hf].
  destruct (decide (n <= t)) as [Ht|Ht].
  { left. exists [], a, t, l. split_and!; [done|done|]. cbn. rewrite E1. apply leads_refl. }
  assert (Hstep : leads w (h, pr, ptr h pr) (h, a, ptr h a)).
  { rewrite E1. apply leads_step; [lia|]. cbn in Hfa. congruence. }
  destruct (IH a Hl Hf) as [(l1 & b & u & l2 & -> & Hu & Hlead)|[Hall Hlead]].
  - left. exists ((a, t) :: l1), b, u, l2. split_and!; [done..|]. cbn. by eapply leads_trans.
  - right. split; [|cbn; by eapply leads_trans]. intros c v [[= -> ->]|Hc]%elem_of_cons; [lia|by apply (Hall c)].
Qed.

(** From [freep] round the ring: a block that is large enough, or [freep] again. *)
Lemma leads_ring w :
  let start := (h, h_freep h, ptr h (h_freep h)) in
  (exists F1 a t F2, F = F1 ++ (a, t) :: F2 /\ n <= t /\ leads w start (h, lastaddr base F1, a)) \/
  (forall a t, (a, t) ∈ F -> t < n) /\ exists pr, leads w start (h, pr, h_freep h).
Proof.
  intros start. destruct Hok as [B1 B2 B3 B4 B5 B6 _ _ _ _ _].
  assert (Hsplit : exists A B, F = A ++ B /\ h_freep h = lastaddr base A).
  { destruct B6 as [E|E]; [by exists [], F|]. apply list_elem_of_fmap in E as ([x s] & Ex & Hx).
    apply list_elem_of_split in Hx as (A & B & EF). exists (A ++ [(x, s)]), B.
    rewrite lastaddr_app, EF, <- app_assoc. done. }
  destruct Hsplit as (A & B & EF & Ef).
  pose proof B4 as Hl. rewrite EF in Hl. apply links_app in Hl as [HlA HlB]. rewrite <- Ef in HlB.
  pose proof B3 as Hs. rewrite EF in Hs. apply sorted_app in Hs as (m & HsA & HsB). pose proof (sorted_le _ _ _ HsA) as Hm.
  assert (Hfr : h_freep h < m).
  { rewrite Ef. destruct (lastaddr_range (base + 16) base A m) as [?|?]; [lia|done|lia..]. }
  assert (HfB : h_freep h ∉ addrs B). { intros Hin. pose proof (sorted_addr _ _ _ _ HsB Hin). lia. }
  destruct (leads_list w B (h_freep h) HlB HfB) as [(l1 & a & t & l2 & EB & Ht & Hlead)|[HallB HleadB]].
  { left. exists (A ++ l1), a, t, l2. split_and!; [by rewrite EF, EB, app_assoc|done|]. by rewrite lastaddr_app, <- Ef. }
  assert (Ebase : ptr h (lastaddr (h_freep h) B) = base). { rewrite <- B5, EF, lastaddr_app, <- Ef. done. }
  rewrite Ebase in HleadB.
  destruct A as [|[x s] A' _] using rev_ind.
  { right. cbn in Ef, EF. subst B. split; [done|]. exists (lastaddr (h_freep h) F). unfold leads, start in *. rewrite Ef in *. exact HleadB. }
  rewrite lastaddr_app in Ef. cbn in Ef. apply links_app in HlA as [HlA (Ex & Es & _)].
  apply sorted_app in HsA as (m' & HsA & (Hmx & Hs0 & Hxm)). cbn in Hxm. pose proof (sorted_le _ _ _ HsA).
  assert (Hbase : leads w start (h, base, ptr h base)).
  { eapply leads_trans; [exact HleadB|]. apply leads_step; [lia|lia]. }
  assert (HfA : h_freep h ∉ addrs A'). { intros Hin. pose proof (sorted_addr _ _ _ _ HsA Hin). lia. }
  destruct (leads_list w A' base HlA HfA) as [(l1 & a & t & l2 & EA & Ht & Hlead)|[HallA HleadA]].
  { left. exists l1, a, t, (l2 ++ (x, s) :: B). split_and!; [by rewrite EF, EA, <- !app_assoc|done|by eapply leads_trans]. }
  rewrite Ex, <- Ef in HleadA. destruct (decide (n <= s)) as [Hns|Hns].
  { left. exists A', x, s, B. split_and!; [by rewrite EF, <- app_assoc|done|]. rewrite <- Ef. by eapply leads_trans. }
  right. split.
  - intros a t. rewrite EF. intros [[Ha|[[= -> ->]|Ha]%elem_of_cons]%elem_of_app|Ha]%elem_of_app;
      [by eapply HallA|lia|set_solver|by eapply HallB].
  - exists (lastaddr base A'). by eapply leads_trans.
Qed.

(** The heap after a part [ap] of the free block [a] went out of the free list. *)
Lemma heap_ok_take h' F' a t ap :
  (a, t) ∈ F -> a <= ap -> ap + 16 * n <= a + 16 * t ->
  size h' base = 0 -> sorted (base + 16) F' top -> links h' base F' -> ptr h' (lastaddr base F') = base ->
  (h_freep h' = base \/ h_freep h' ∈ addrs F') -> size h' ap = n -> h_heaptop h' = h_heaptop h ->
  (forall x s, L !! x = Some s -> size h' x = size h x) ->
  (forall d, d ∈ F' -> apart (ap, n) d) ->
  (forall c, (forall d, d ∈ F -> apart c d) -> forall d, d ∈ F' -> apart c d) ->
  L !! ap = None /\ heap_ok base h' F' (<[ap := n]> L) top.
Proof.
  intros Hin Hlo Hhi P1 P2 P3 P4 P5 P6 P7 P8 P9 P10. destruct Hok as [B1 B2 B3 B4 B5 B6 B7 B8 B9 B10 B11].
  assert (Hap : forall x s, L !! x = Some s -> apart (x, s) (ap, n)).
  { intros x s Hx. destruct (B7 x s Hx) as (_ & ? & _). destruct (B9 x s _ Hx Hin) as [E|E]; cbn in E; [left|right]; cbn; lia. }
  split.
  { destruct (L !! ap) as [s|] eqn:E; [|done]. destruct (B7 _ _ E) as (_ & ? & _). destruct (Hap _ _ E) as [Ha|Ha]; cbn in Ha; lia. }
  destruct (sorted_in _ _ _ _ _ B3 Hin) as (? & ? & ?).
  split; try done.
  - intros x s [[<- <-]|[Hne Hx]]%lookup_insert_Some; [split_and!; [done|done|lia|lia]|].
    rewrite (P8 x s Hx). by apply B7.
  - intros x s x' s' [[<- <-]|[_ Hx]]%lookup_insert_Some [[<- <-]|[_ Hx']]%lookup_insert_Some Hne; [done|..].
    + destruct (Hap _ _ Hx') as [E|E]; [by right|by left].
    + by apply Hap.
    + by eapply B8.
  - intros x s d [[<- <-]|[_ Hx]]%lookup_insert_Some Hd; [by apply P9|]. apply P10; [|done]. intros e He. by eapply B9.
  - left. destruct B10 as [E|(_ & E & _)]; [congruence|]. rewrite E in Hin. set_solver.
Qed.

Lemma sorted_apart lo l1 a t l2 hi : sorted lo (l1 ++ (a, t) :: l2) hi -> forall d, d ∈ l1 ++ l2 -> apart (a, t) d.
Proof.
  intros (m & H1 & (H2 & H3 & H4))%sorted_app [b v] [Hd|Hd]%elem_of_app.
  - pose proof (sorted_in _ _ _ _ _ H1 Hd). right. cbn. lia.
  - pose proof (sorted_in _ _ _ _ _ H4 Hd). left. cbn. lia.
Qed.

Lemma malloc_take_all w F1 a F2 :
  F = F1 ++ (a, n) :: F2 ->
  exists h', goes (while (malloc_body n) (h, lastaddr base F1, a)) w (Val w (h', a + 16)) /\
    L !! a = None /\ heap_ok base h' (F1 ++ F2) (<[a := n]> L) top.
Proof.
  intros EF. pose proof Hok as [B1 B2 B3 B4 B5 B6 B7 B8 B9 B10 B11]. rewrite EF in B3, B4, B5.
  pose proof (sorted_apart _ _ _ _ _ _ B3) as Hap.
  apply sorted_app in B3 as (m & S1 & (Ha & _ & S2)). pose proof (sorted_le _ _ _ S1). pose proof (sorted_le _ _ _ S2).
  apply links_app in B4 as [L1 (Epr & Ea & L2)]. rewrite lastaddr_app in B5. cbn [lastaddr] in B5.
  set (pr := lastaddr base F1) in *.
  assert (Hpr : base <= pr < a).
  { unfold pr. destruct (lastaddr_range (base + 16) base F1 m) as [?|?]; [lia|done|lia..]. }
  set (h' := set_freep (set_ptr h pr (ptr h a)) pr).
  assert (Hw : forall x, x <> pr -> ptr h' x = ptr h x) by (intros x Hx; unfold h'; hsimp; zcase; done).
  assert (Hz : forall x, size h' x = size h x) by (intros x; unfold h'; by hsimp).
  assert (Hwp : ptr h' pr = ptr h a) by (unfold h'; hsimp; by rewrite Z.eqb_refl).
  exists h'. split.
  { apply goes_while_done. unfold malloc_body. rewrite Ea, Z.leb_refl, Z.eqb_refl.
    replace (a + 16) with (units a 1) by (rewrite units_small; lia). apply goes_ret. }
  apply (heap_ok_take h' (F1 ++ F2) a n a); try done; try lia.
  - rewrite EF. set_solver.
  - rewrite Hz. done.
  - apply sorted_app. exists m. split; [done|]. eapply sorted_weaken; [exact S2|lia|lia].
  - apply links_app. split.
    + eapply links_frame; [..|exact S1|lia|exact L1]; [|done]. intros x _ Hx. by apply Hw.
    + fold pr. destruct F2 as [|[c v] F2']; [done|]. cbn [links sorted] in *. destruct L2 as (E1 & E2 & L2), S2 as (? & ? & S2).
      split_and!; [congruence|by rewrite Hz|]. eapply (links_other h h' pr); try done; try lia.
  - rewrite lastaddr_app. fold pr. destruct F2 as [|[c v] F2']; cbn [lastaddr sorted] in *; [congruence|].
    destruct S2 as (? & ? & S2). eapply (ptr_last_other h h' pr); try done; try lia.
  - cbn. destruct (lastaddr_in base F1) as [E|E]; [by left|]. right. rewrite addrs_app. apply elem_of_app. by left.
  - by rewrite Hz.
  - intros c Hc d Hd. apply Hc. rewrite EF. apply elem_of_app. apply elem_of_app in Hd as [Hd|Hd]; [by left|by right; right].
Qed.

Lemma malloc_take_end w F1 a t F2 :
  F = F1 ++ (a, t) :: F2 -> n < t ->
  let ap := a + 16 * (t - n) in
  exists h', goes (while (malloc_body n) (h, lastaddr base F1, a)) w (Val w (h', ap + 16)) /\
    L !! ap = None /\ heap_ok base h' (F1 ++ (a, t - n) :: F2) (<[ap := n]> L) top.
Proof.
  intros EF Hnt ap. pose proof Hok as [B1 B2 B3 B4 B5 B6 B7 B8 B9 B10 B11].
  assert (Hin : (a, t) ∈ F) by (rewrite EF; apply elem_of_app; right; by left).
  pose proof B3 as Hs. rewrite EF in Hs. pose proof (sorted_apart _ _ _ _ _ _ Hs) as Hap.
  apply sorted_app in Hs as (m & S1 & (Ha & Ht & S2)). pose proof (sorted_le _ _ _ S1). pose proof (sorted_le _ _ _ S2).
  pose proof B4 as Hl. rewrite EF in Hl. apply links_app in Hl as [L1 (Epr & Ea & L2)].
  set (pr := lastaddr base F1) in *.
  set (h' := set_freep (set_size (set_size h a (t - n)) ap n) pr).
  assert (Hw : forall x, ptr h' x = ptr h x) by (intros x; unfold h'; by hsimp).
  assert (Hz : forall x, x <> a -> x <> ap -> size h' x = size h x) by (intros x Hx Hy; unfold h'; hsimp; zcase; done).
  assert (Hza : size h' a = t - n).
  { unfold h', ap. hsimp. zcase. rewrite wrap_small; lia. }
  assert (Hzp : size h' ap = n) by (unfold h'; hsimp; rewrite Z.eqb_refl; apply wrap_small; lia).
  exists h'. split.
  { apply goes_while_done. unfold malloc_body. rewrite Ea, (proj2 (Z.leb_le _ _)), (proj2 (Z.eqb_neq _ _)) by lia.
    cbv zeta. rewrite size_set_size, Z.eqb_refl, (wrap_small 32), units_small by lia. fold ap.
    replace (ap + 16) with (units ap 1) by (rewrite units_small; unfold ap; lia). apply goes_ret. }
  apply (heap_ok_take h' _ a t ap); try done; try (unfold ap; lia).
  - rewrite Hz by (unfold ap; lia). done.
  - apply sorted_app. exists m. split; [done|]. cbn. split_and!; [lia|lia|]. eapply sorted_weaken; [exact S2|lia|lia].
  - apply links_app. split; [|cbn [links]; split_and!; [by rewrite Hw|done|]].
    + eapply links_frame; [..|exact S1|lia|exact L1]; [by intros; apply Hw|].
      intros x Hx. pose proof (sorted_addr _ _ _ _ S1 Hx). apply Hz; unfold ap; lia.
    + eapply links_frame; [..|exact S2|lia|exact L2]; [by intros; apply Hw|].
      intros x Hx. pose proof (sorted_addr _ _ _ _ S2 Hx). apply Hz; unfold ap; lia.
  - rewrite Hw. rewrite EF in B5. rewrite lastaddr_app in *. exact B5.
  - cbn. destruct (lastaddr_in base F1) as [E|E]; [by left|]. right. rewrite addrs_app. apply elem_of_app. by left.
  - intros x s Hx. destruct (B7 x s Hx) as (_ & ? & _). apply Hz; intros ->;
      destruct (B9 _ s _ Hx Hin) as [E|E]; cbn in E; unfold ap in *; lia.
  - intros [c v] [Hd|[[= -> ->]|Hd]%elem_of_cons]%elem_of_app; [..|right; unfold ap; cbn; lia|].
    + pose proof (sorted_in _ _ _ _ _ S1 Hd). right. unfold ap. cbn. lia.
    + pose proof (sorted_in _ _ _ _ _ S2 Hd). left. unfold ap. cbn. lia.
  - intros c Hc d [Hd|[->|Hd]%elem_of_cons]%elem_of_app; [apply Hc; rewrite EF; apply elem_of_app; by left| |
      apply Hc; rewrite EF; apply elem_of_app; right; by right].
    destruct (Hc _ Hin) as [E|E]; cbn in E; [left|right]; cbn; lia.
Qed.

(** Taking a block, or the end of it. *)
Lemma malloc_take w F1 a t F2 :
  F = F1 ++ (a, t) :: F2 -> n <= t ->
  exists h' F' ap, goes (while (malloc_body n) (h, lastaddr base F1, a)) w (Val w (h', ap + 16)) /\
    L !! ap = None /\ heap_ok base h' F' (<[ap := n]> L) top /\ total F' + n = total F.
Proof.
  intros EF Ht. destruct (decide (t = n)) as [->|Hne].
  - destruct (malloc_take_all w F1 a F2 EF) as (h' & G & HL & Hh). exists h', (F1 ++ F2), a. split_and!; [done..|].
    rewrite EF, !total_app, total_cons. lia.
  - destruct (malloc_take_end w F1 a t F2 EF ltac:(lia)) as (h' & G & HL & Hh).
    exists h', (F1 ++ (a, t - n) :: F2), (a + 16 * (t - n)). split_and!; [done..|].
    rewrite EF, !total_app, !total_cons. lia.
Qed.

End Search.

(** * malloc *)

Lemma freep_pos base h F L top : heap_ok base h F L top -> 0 < h_freep h.
Proof.
  intros [B1 _ B3 _ _ [->|Hin] _ _ _ _ _]; [done|]. pose proof (sorted_addr _ _ _ _ B3 Hin). lia.
Qed.

Section Malloc.
Context {W : Type} `{Brk W}.
Context (base : Z) (n : Z).
Hypothesis Hn : 0 < n.

Definition search_from (h : heap) : heap * Z * Z := (h, h_freep h, ptr h (h_freep h)).

(** A block that is large enough is found. *)
Lemma malloc_found h F L w :
  heap_ok base h F L (brk w) -> (exists b u, (b, u) ∈ F /\ n <= u) ->
  exists h' F' ap, goes (while (malloc_body n) (search_from h)) w (Val w (h', ap + 16)) /\
    L !! ap = None /\ heap_ok base h' F' (<[ap := n]> L) (brk w) /\ total F' + n = total F.
Proof.
  intros Hok (b & u & Hb & Hu).
  destruct (leads_ring base h F L (brk w) n Hok Hn w) as [(F1 & a & t & F2 & EF & Ht & Hl)|[Hall _]].
  - destruct (malloc_take base h F L (brk w) n Hok Hn w F1 a t F2 EF Ht) as (h' & F' & ap & G & Hr).
    exists h', F', ap. split; [|exact Hr]. exact (goes_while_turns (malloc_body n) (search_from h, w) _ _ Hl G).
  - specialize (Hall b u Hb). lia.
Qed.

Lemma freep_small h F L top :
  heap_ok base h F L top -> (forall a t, (a, t) ∈ F -> t < n) -> size h (h_freep h) < n.
Proof.
  intros [_ B2 _ B4 _ [->|Hin] _ _ _ _ _] Hall; [lia|]. apply list_elem_of_fmap in Hin as ([a t] & -> & Hin).
  apply list_elem_of_split in Hin as (A & B & EF). rewrite EF in B4. apply links_app in B4 as [_ (_ & E & _)].
  cbn [fst]. rewrite E. apply (Hall a t). rewrite EF. apply elem_of_app. right. by left.
Qed.

(** The turn that asks for memory. *)
Lemma malloc_grow_turn h F L w pr w' h' :
  heap_ok base h F L (brk w) -> (forall a t, (a, t) ∈ F -> t < n) -> n < 2 ^ 31 ->
  goes (add_heaptop DEPTH (if n <? 256 then 256 else n) h) w (Val w' (h', h_freep h')) -> 0 < h_freep h' ->
  turn (malloc_body n) ((h, pr, h_freep h), w) (search_from h', w').
Proof.
  intros Hok Hall Hmax G Hf. unfold turn, malloc_body, search_from. cbn [fst snd].
  rewrite (proj2 (Z.leb_gt _ _)), Z.eqb_refl by (by eapply freep_small). rewrite (swrap_small 32) by (case_match; lia).
  eapply goes_bind; [exact G|]. cbv beta iota. rewrite (proj2 (Z.eqb_neq _ _)) by lia. apply goes_ret.
Qed.

(** Where the search ends: a new block, or null when the limit is reached. *)
Definition malloc_result (L : gmap Z Z) (w w' : W) (r : heap * Z) : Prop :=
  (exists F', heap_ok base r.1 F' (<[r.2 - 16 := n]> L) (brk w') /\ L !! (r.2 - 16) = None) \/
  r.2 = 0 /\ brk w' = brk w /\ brk_limit < brk w + 16 * Z.max 256 n /\ exists F', heap_ok base r.1 F' L (brk w).

Lemma malloc_loop_ok h F L w :
  heap_ok base h F L (brk w) -> n <= 512 ->
  exists w' r, goes (while (malloc_body n) (search_from h)) w (Val w' r) /\ malloc_result L w w' r.
Proof.
  intros Hok Hmax. pose proof (ok_base _ _ _ _ _ Hok) as Hb. pose proof (heap_ok_fresh _ _ _ _ _ Hok) as Hlow.
  assert (Hfound : forall h F w1, heap_ok base h F L (brk w1) -> (exists b u, (b, u) ∈ F /\ n <= u) ->
    exists w' r, goes (while (malloc_body n) (search_from h)) w1 (Val w' r) /\ malloc_result L w w' r).
  { intros h0 F0 w0 Hok0 Hin. destruct (malloc_found h0 F0 L w0 Hok0 Hin) as (h' & F' & ap & G & HL & Hok' & _).
    exists w0, (h', ap + 16). split; [done|]. left. exists F'. cbn [fst snd]. replace (ap + 16 - 16) with ap by lia. done. }
  destruct (leads_ring base h F L (brk w) n Hok Hn w) as [(F1 & a & t & F2 & EF & Ht & _)|[Hall (pr & Hl)]].
  { apply (Hfound h F w Hok). exists a, t. split; [rewrite EF; apply elem_of_app; right; by left|done]. }
  set (g := if n <? 256 then 256 else n).
  assert (Hg : 0 < g <= 512 /\ n <= g /\ g = Z.max 256 n) by (unfold g; destruct (Z.ltb_spec n 256); lia).
  destruct (decide (brk w + 16 * g <= brk_limit)) as [Hroom|Hroom].
  - destruct (add_heaptop_ok base h F L (brk w) g Hok ltac:(lia) 2 w eq_refl Hroom) as (w1 & h1 & F1 & top1 & G1 & Hok1 & E1 & Hc).
    subst top1. destruct Hc as [(_ & _ & b & u & Hb1 & Hu)|(b & _ & _ & _ & [(_ & ? & _)|(t & Ht & _ & ?)])]; [|lia|pose proof (Hall b t Ht); lia].
    destruct (Hfound h1 F1 w1 Hok1) as (w' & r & G & Hr); [exists b, u; split; [done|lia]|]. exists w', r. split; [|done].
    apply (goes_while_turns (malloc_body n) (search_from h, w) (search_from h1, w1)); [|exact G].
    eapply rtc_r; [exact Hl|]. apply (malloc_grow_turn h F L w pr w1 h1 Hok Hall); [lia|exact G1|by eapply freep_pos].
  - destruct (add_heaptop_full h (brk w) g ltac:(lia) 3 w eq_refl) as (w1 & G1 & E1); [lia|lia|].
    exists w1, (h, 0). split.
    + apply (goes_while_turns (malloc_body n) (search_from h, w) ((h, pr, h_freep h), w) _ Hl). cbn [fst snd].
      apply goes_while_done. unfold malloc_body.
      rewrite (proj2 (Z.leb_gt _ _)) by (by eapply freep_small). rewrite Z.eqb_refl.
      rewrite (swrap_small 32) by (fold g; lia). eapply goes_bind; [exact G1|]. apply goes_ret.
    + right. cbn [fst snd]. split_and!; [done|done|lia|]. by exists F.
Qed.

End Malloc.

(** The heap as a program has it: not used yet, or well formed. *)
Definition heap_ready (base : Z) (h : heap) (F : list block) (L : gmap Z Z) (top : Z) : Prop :=
  heap_ok base h F L top \/
  h = heap0 /\ F = [] /\ L = ∅ /\ 0 < base /\ base + 16 <= top < 2 ^ 31.

Definition heap_init (base : Z) (h : heap) : heap :=
  if h_freep h =? 0 then set_size (set_ptr (set_freep h base) base base) base 0 else h.

Lemma heap_init_ok base h F L top : heap_ready base h F L top -> heap_ok base (heap_init base h) F L top.
Proof.
  unfold heap_init. intros [Hok|(-> & -> & -> & Hb & Ht)].
  - rewrite (proj2 (Z.eqb_neq _ _)); [done|]. pose proof (freep_pos _ _ _ _ _ Hok). lia.
  - rewrite Z.eqb_refl. split; try done; try (cbn; lia).
    + hsimp. by rewrite Z.eqb_refl.
    + cbn [lastaddr]. hsimp. by rewrite Z.eqb_refl.
    + by right.
Qed.

Lemma malloc_unfold base nbytes h :
  malloc base nbytes h = while (malloc_body (nunits_of nbytes)) (search_from (heap_init base h)).
Proof. done. Qed.

Lemma nunits_of_ok nbytes : 0 <= nbytes < 2 ^ 32 - 32 -> 0 < nunits_of nbytes /\ nbytes <= 16 * (nunits_of nbytes - 1) < nbytes + 16.
Proof.
  intros Hn. unfold nunits_of, HEADER. pose proof (Z.div_mod (nbytes + 16 - 1) 16 ltac:(lia)).
  pose proof (Z.mod_pos_bound (nbytes + 16 - 1) 16 ltac:(lia)). rewrite wrap_small by lia. lia.
Qed.

(** execchild2.c: [p[i] = malloc((i + 1) * 1000)], and the blocks freed in the given
    order *)
Fixpoint execchild2_mallocs (base : Z) (k : nat) (i : Z) (h : heap) (p : list Z) : prog (heap * list Z) :=
  match k with
  | O => Ret (h, p)
  | S k => ' (h, x) <- malloc base ((i + 1) * 1000) h ;; execchild2_mallocs base k (i + 1) h (p ++ [x])
  end.
Fixpoint execchild2_frees (l : list nat) (p : list Z) (h : heap) : prog heap :=
  match l with
  | [] => Ret h
  | i :: l => h <- free (nth i p 0) h ;; execchild2_frees l p h
  end.
Definition execchild2_main (base : Z) : prog Z :=
  ' (h, p) <- execchild2_mallocs base 10 0 heap0 [] ;;
  execchild2_frees [0; 2; 4; 6; 8; 9; 7; 5; 3; 1]%nat p h ;;
  pid <- sys Getpid ;;
  t <- sys Uptime ;;
  printf (lit "[pid: %d] sbrk test over! uptime: %d" ++ nl) [VInt pid; VInt t] ;;
  exit 0.

Section Theorems.
Context {W : Type} `{Brk W}.

(** On a heap not used yet. *)
Lemma malloc_first base nbytes w :
  0 < base -> base + 16 <= brk w < 2 ^ 31 -> 0 <= nbytes <= 4080 -> brk w + 4096 <= brk_limit ->
  exists w' h' p, goes (malloc base nbytes heap0) w (Val w' (h', p)) /\ 0 < p.
Proof.
  intros Hb Hw Hn Hl. destruct (nunits_of_ok nbytes) as (Hp & Hle); [lia|].
  destruct (malloc_loop_ok base (nunits_of nbytes) Hp (heap_init base heap0) [] ∅ w) as (w' & [h' p] & G & Hres);
    [apply heap_init_ok; right; split_and!; done || lia|lia|].
  exists w', h', p. split; [exact G|]. destruct Hres as [(F' & Hok & _)|(_ & _ & Hlim & _)]; [|lia].
  destruct (ok_live _ _ _ _ _ Hok (p - 16) (nunits_of nbytes)) as (_ & _ & ? & _); [apply lookup_insert_eq|]. lia.
Qed.

(** C14: on a well-formed heap, or one not used yet, [malloc] of at most 8 KB returns,
    whatever the free list: either a block of enough bytes that overlaps no block in
    use and no free block, with the heap well formed and the other blocks in use as
    they were, or null when the kernel has no more memory. *)
Theorem malloc_fresh base h F L w nbytes :
  heap_ready base h F L (brk w) -> 0 <= nbytes <= 8176 ->
  let n := nunits_of nbytes in
  nbytes <= 16 * (n - 1) /\
  exists w' h' p, goes (malloc base nbytes h) w (Val w' (h', p)) /\
    ((exists F', heap_ok base h' F' (<[p - 16 := n]> L) (brk w') /\ L !! (p - 16) = None) \/
     p = 0 /\ brk w' = brk w /\ brk_limit < brk w + 16 * Z.max 256 n /\ exists F', heap_ok base h' F' L (brk w)).
Proof.
  intros Hr Hn n. destruct (nunits_of_ok nbytes) as (Hp & Hle); [lia|]. fold n in Hp, Hle. split; [lia|].
  destruct (malloc_loop_ok base n Hp (heap_init base h) F L w) as (w' & [h' p] & G & Hres); [by apply heap_init_ok|lia|].
  exists w', h', p. split; [rewrite malloc_unfold; exact G|exact Hres].
Qed.


(** C34: [malloc] of 16 KB or more never returns, unless a free block is already
    large enough or the kernel refuses the memory: [add_heaptop] passes the new
    memory to [free], which gives all but 4 KB of it back to the kernel, and the
    search starts again. *)
Theorem malloc_large_hangs base h F L w nbytes :
  heap_ready base h F L (brk w) -> 16353 <= nbytes < 2 ^ 30 -> (forall a t, (a, t) ∈ F -> t < nunits_of nbytes) ->
  brk w + 4096 + 16 * nunits_of nbytes <= brk_limit ->
  diverges (malloc base nbytes h) w.
Proof.
  intros Hr Hn Hall Hroom. destruct (nunits_of_ok nbytes) as (Hp & Hle); [lia|]. set (n := nunits_of nbytes) in *.
  pose proof brk_limit_ok as Hlim. set (K := brk w + 4096) in *.
  rewrite malloc_unfold. fold n.
  apply (while_diverges_turns _ (fun x => exists h F, x.1 = search_from h /\ heap_ok base h F L (brk x.2) /\
    (forall a t, (a, t) ∈ F -> t < n) /\
    (brk x.2 + 4096 <= K \/ brk x.2 <= K /\ exists c, (c, 256) ∈ F /\ c + 4096 = brk x.2))).
  2:{ exists (heap_init base h), F. split_and!; [done|by apply heap_init_ok|done|left; cbn; lia]. }
  clear h F Hr Hall. intros [st w0] (h & F & E & Hok & Hall & HK). cbn [fst snd] in *. subst st.
  destruct (leads_ring base h F L (brk w0) n Hok Hp w0) as [(F1 & a & t & F2 & EF & Ht & _)|[_ (pr & Hl)]].
  { exfalso. specialize (Hall a t). rewrite EF in Hall. pose proof (Hall ltac:(apply elem_of_app; right; by left)). lia. }
  assert (Hg : (if n <? 256 then 256 else n) = n) by (destruct (Z.ltb_spec n 256); lia).
  destruct (add_heaptop_ok base h F L (brk w0) n Hok Hp 2 w0 eq_refl) as (w1 & h1 & F1 & top1 & G1 & Hok1 & E1 & Hc); [lia|].
  subst top1. exists (search_from h1, w1). split.
  - eapply tc_rtc_l; [exact Hl|]. apply tc_once.
    apply (malloc_grow_turn base n Hp h F L w0 pr w1 h1 Hok Hall); [lia|rewrite Hg; exact G1|by eapply freep_pos].
  - destruct Hc as [(_ & ? & _)|(b & Hb & Eb & Hsub & Hcase)]; [lia|].
    exists h1, F1. split_and!; [done|done|..].
    + intros a t Ha. destruct (Hsub a t Ha) as [Ha'| ->]; [by apply (Hall a)|lia].
    + right. assert (Hb' : b <= brk w0) by (destruct Hcase as [(? & _)|(t & Ht & ? & _)];
        [lia|destruct Hok as [_ _ B3 _ _ _ _ _ _ _ _]; pose proof (sorted_in _ _ _ _ _ B3 Ht); lia]).
      split; [|by exists b]. cbn [snd]. destruct HK as [HK|(HK & c & Hc & Ec)]; [lia|].
      destruct Hcase as [(-> & _ & Hno)|(t & Ht & Et & _)]; [by destruct (Hno c 256 Hc)|].
      enough (b = c) by lia. destruct Hok as [_ _ B3 _ _ _ _ _ _ _ _]. eapply (sorted_end_inj _ _ _ b t c 256 B3 Ht Hc). lia.
Qed.

End Theorems.

(** * A world with a break *)

(** The state is the break; the other calls fail. *)
Definition brk_answer {A} (c : sysE A) (w : Z) : Z * A :=
  match c in sysE A return Z * A with
  | Sbrk n => if (if 0 <? n then w + n <=? 2 ^ 27 else 0 <=? w + n) then (w + n, w) else (w, SBRK_ERROR)
  | Fork => (w, -1) | Wait => (w, (-1, 0)) | Pipe => (w, (-1, (0, 0)))
  | Write _ _ => (w, -1) | Read _ _ => (w, (-1, [])) | Close _ => (w, -1)
  | Kill _ => (w, -1) | Exec _ _ => (w, Some (-1)) | Open _ _ => (w, -1) | Mknod _ _ _ => (w, -1)
  | Unlink _ => (w, -1) | Fstat _ => (w, (-1, mk_stat 0 0 0 0 0)) | Link _ _ => (w, -1)
  | Mkdir _ => (w, -1) | Chdir _ => (w, -1) | Dup _ => (w, -1) | Getpid => (w, 1)
  | Sleep _ => (w, 0) | Pause _ => (w, -1) | Uptime => (w, 0) | Sync => (w, -1)
  | Raw c => (w, raw_fails c)
  end.

Module BrkWorld.

#[export] Instance brk_world : World Z := @brk_answer.

#[export] Program Instance brk_brk : Brk Z := {| brk := fun w => w; brk_limit := 2 ^ 27 |}.
Next Obligation. done. Qed.
Next Obligation.
  intros w n Hn Hl. unfold answer, brk_world, brk_answer.
  rewrite (proj2 (Z.ltb_lt _ _)), (proj2 (Z.leb_le _ _)) by done. eauto.
Qed.
Next Obligation.
  intros w n Hn Hl. unfold answer, brk_world, brk_answer.
  rewrite (proj2 (Z.ltb_lt _ _)), (proj2 (Z.leb_gt _ _)) by done. eauto.
Qed.
Next Obligation.
  intros w n Hn Hl. unfold answer, brk_world, brk_answer.
  rewrite (proj2 (Z.ltb_ge _ _)), (proj2 (Z.leb_le _ _)) by done. eauto.
Qed.

End BrkWorld.
Import (hints) BrkWorld.

Lemma heap0_ready : heap_ready 4096 heap0 [] ∅ (brk 8192).
Proof. right. cbn. split_and!; done || lia. Qed.

Lemma malloc_fresh_witness :
  nunits_of 1000 = 64 /\
  exists w' h' p, goes (malloc 4096 1000 heap0) 8192 (Val w' (h', p)) /\
    ((exists F', heap_ok 4096 h' F' (<[p - 16 := nunits_of 1000]> ∅) (brk w') /\ (∅ : gmap Z Z) !! (p - 16) = None) \/
     p = 0 /\ brk w' = brk 8192 /\ brk_limit < brk 8192 + 16 * Z.max 256 (nunits_of 1000) /\
       exists F', heap_ok 4096 h' F' ∅ (brk 8192)).
Proof.
  split; [reflexivity|].
  exact (proj2 (malloc_fresh 4096 heap0 [] ∅ 8192 1000 heap0_ready ltac:(lia))).
Defined.

Lemma malloc_large_hangs_witness : nunits_of 16353 = 1024 /\ diverges (malloc 4096 16353 heap0) 8192.
Proof.
  split; [reflexivity|]. apply (malloc_large_hangs 4096 heap0 [] ∅ 8192 16353).
  - exact heap0_ready.
  - lia.
  - intros a t Ha. inversion Ha.
  - vm_compute. discriminate.
Defined.

(** One block in use at the start of the heap and one free after it. *)
Definition heap_sample : heap :=
  mk_heap {[4096 := mk_header 9216 0; 9216 := mk_header 4096 192; 8192 := mk_header 0 64]} 4096 12288.

Lemma heap_sample_ok : heap_ok 4096 heap_sample [(9216, 192)] {[8192 := 64]} (brk 12288).
Proof.
  split.
  - done.
  - vm_compute. done.
  - cbn. lia.
  - vm_compute. done.
  - vm_compute. done.
  - by left.
  - intros a s [<- <-]%lookup_singleton_Some. split_and!; [vm_compute; done|lia|lia|cbn; lia].
  - intros a s a' s' [<- <-]%lookup_singleton_Some [<- <-]%lookup_singleton_Some. done.
  - intros a s b [<- <-]%lookup_singleton_Some ->%list_elem_of_singleton. left. cbn. lia.
  - by left.
  - cbn. lia.
Qed.

