(* ===== verification/Sh.v ===== *)
(** sh.c: the shell.

    The line is an array of bytes; pointers into it are indices, and the end [es] of
    the string is an index.  Only simple commands are built: the other forms stop
    with a message.  A command is the indices of its words and of their ends.  The
    shell allocates in the child only, from a heap not used yet.

    The theorems: on a line of one to nine words the child executes the first word
    with exactly the words of the line as its arguments, whatever the blanks between
    them; a line of ten words or more is refused; and the shell goes through the
    lines of its input one by one. *)

From S2P Require Import Prelude Types Memory Spinlock Sched Sleeplock Uart Printf Ulib User Programs ProgSpec Umalloc.
From ITree Require Import ITree.
Local Open Scope Z_scope.
Local Open Scope u_scope.

Definition MAXARGS : nat := 10.
Definition EXECCMD_SIZE : Z := 168.

Definition at_ (buf : list Z) (s : nat) : Z := nth s buf 0.

(** [strchr(l, c)] as a truth value: 0 is in no list. *)
Definition strchr_in (l : list Z) (c : Z) : bool := existsb (fun x => x =? c) l.

Definition whitespace : list Z := [32; 9; 13; 10; 11].
Definition symbols : list Z := lit "<|>&;()".

Definition panic {A} (s : list Z) : prog A := fprintf 2 (lit "%s" ++ nl) [VStr (Some s)] ;; exit 1.

Definition fork1 : prog Z :=
  pid <- fork ;;
  if pid =? -1 then panic (lit "fork") else Ret pid.

(** [while (s < es && f( *s )) s++;], [k] bytes before [es] *)
Fixpoint skip (k : nat) (f : Z -> bool) (buf : list Z) (s : nat) : nat :=
  match k with
  | O => s
  | S k => if f (at_ buf s) then skip k f buf (S s) else s
  end.
Definition skip_blanks (buf : list Z) (es s : nat) : nat := skip (es - s) (strchr_in whitespace) buf s.

(** The token, its start and its end, and where the next one starts. *)
Definition gettoken (buf : list Z) (es s : nat) : Z * nat * nat * nat :=
  let s := skip_blanks buf es s in
  let q := s in
  let c := at_ buf s in
  let '(ret, s) :=
    if c =? 0 then (0, s)
    else if strchr_in (lit "|();&<") c then (c, S s)
    else if c =? 62 then
      if at_ buf (S s) =? 62 then (43, S (S s)) else (c, S s)
    else (97, skip (es - s) (fun c => negb (strchr_in whitespace c) && negb (strchr_in symbols c)) buf s) in
  (ret, q, s, skip_blanks buf es s).

Definition peek (buf : list Z) (es s : nat) (toks : list Z) : nat * bool :=
  let s := skip_blanks buf es s in
  (s, negb (at_ buf s =? 0) && strchr_in toks (at_ buf s)).

(** [struct execcmd]: the arrays up to their null *)
Record execcmd := mk_execcmd { c_argv : list nat; c_eargv : list nat }.

(** [malloc] and [memset] of the child, whose heap is not used yet. *)
Definition execcmd_new (base : Z) : prog execcmd :=
  ' (_, p) <- malloc base EXECCMD_SIZE heap0 ;;
  if p =? 0 then halt (Undefined "execcmd: null") else Ret (mk_execcmd [] []).

Definition parseredirs {A} (cmd : A) (buf : list Z) (es s : nat) : prog (A * nat) :=
  let '(s, b) := peek buf es s (lit "<>") in
  if b then panic (lit "redirect command not supported!") else Ret (cmd, s).

(** [while (!peek(ps, es, "|)&;"))] *)
Definition parseexec_body (buf : list Z) (es : nat) (st : execcmd * nat) : prog (execcmd * nat + execcmd * nat) :=
  let '(cmd, s) := st in
  let '(s, b) := peek buf es s (lit "|)&;") in
  if b then break (cmd, s) else
  let '(tok, q, eq, s) := gettoken buf es s in
  if tok =? 0 then break (cmd, s) else
  if negb (tok =? 97) then panic (lit "syntax") else
  let cmd := mk_execcmd (c_argv cmd ++ [q]) (c_eargv cmd ++ [eq]) in
  if (MAXARGS <=? length (c_argv cmd))%nat then panic (lit "too many args") else
  ' (cmd, s) <- parseredirs cmd buf es s ;;
  continue (cmd, s).

Definition parseexec (base : Z) (buf : list Z) (es s : nat) : prog (execcmd * nat) :=
  let '(s, b) := peek buf es s (lit "(") in
  if b then panic (lit "brackets not supported!") else
  cmd <- execcmd_new base ;;
  ' (cmd, s) <- parseredirs cmd buf es s ;;
  while (parseexec_body buf es) (cmd, s).

Definition parsepipe (base : Z) (buf : list Z) (es s : nat) : prog (execcmd * nat) :=
  ' (cmd, s) <- parseexec base buf es s ;;
  let '(s, b) := peek buf es s (lit "|") in
  if b then panic (lit "pipe command not supported!") else Ret (cmd, s).

Definition parseline (base : Z) (buf : list Z) (es s : nat) : prog (execcmd * nat) :=
  ' (cmd, s) <- parsepipe base buf es s ;;
  let '(s, b) := peek buf es s (lit "&") in
  if b then panic (lit "backend command not supported!") else
  let '(s, b) := peek buf es s (lit ";") in
  if b then panic (lit "list command not supported!") else Ret (cmd, s).

(** [for (i = 0; ecmd->argv[i]; i++) *ecmd->eargv[i] = 0;] *)
Definition nulterminate (buf : list Z) (cmd : execcmd) : list Z :=
  foldl (fun buf e => <[e := 0]> buf) buf (c_eargv cmd).

(** The command and the line with the words cut off. *)
Definition parsecmd (base : Z) (buf : list Z) : prog (execcmd * list Z) :=
  let es := length (cstr buf) in
  ' (cmd, s) <- parseline base buf es 0 ;;
  let '(s, _) := peek buf es s [] in
  if negb (s =? es)%nat then
    fprintf 2 (lit "leftovers: %s" ++ nl) [VStr (Some (cstr (drop s buf)))] ;; panic (lit "syntax")
  else Ret (cmd, nulterminate buf cmd).

(** The [char *] at an index of the line. *)
Definition str (buf : list Z) (i : nat) : list Z := cstr (drop i buf).

Definition runcmd {A} (cmd : execcmd) (buf : list Z) : prog A :=
  match c_argv cmd with
  | [] => exit 1
  | a :: _ =>
      exec (str buf a) (str buf <$> c_argv cmd) ;;
      fprintf 2 (lit "exec %s failed" ++ nl) [VStr (Some (str buf a))] ;;
      exit 0
  end.

Definition NBUF : Z := 100.

(** [getcmd]: the line in the array of 100 bytes, or [None] for -1. *)
Definition getcmd : prog (option (list Z)) :=
  write 2 (lit "$ ") ;;
  l <- gets NBUF ;;
  let buf := l ++ replicate (Z.to_nat NBUF - length l) 0 in
  if at_ buf 0 =? 0 then Ret None else Ret (Some buf).

(** [runcmd(parsecmd(buf))] *)
Definition sh_child {A} (base : Z) (buf : list Z) : prog A :=
  ' (cmd, buf) <- parsecmd base buf ;;
  runcmd cmd buf.

Definition sh_body (base : Z) (_ : unit) : prog (unit + Z) :=
  r <- getcmd ;;
  match r with
  | None => exit 0
  | Some buf =>
      if (at_ buf 0 =? 99) && (at_ buf 1 =? 100) && (at_ buf 2 =? 32) then
        let buf := <[(length (cstr buf) - 1)%nat := 0]> buf in
        r <- sys (Chdir (str buf 3)) ;;
        (if r <? 0 then fprintf 2 (lit "cannot cd %s" ++ nl) [VStr (Some (str buf 3))] else Ret tt) ;;
        continue tt
      else
      pid <- fork1 ;;
      if pid =? 0 then sh_child base buf else
      wait ;;
      continue tt
  end.
Definition sh_main (base : Z) : prog Z := while (sh_body base) tt.

(** * Tokens *)

Definition words (r : list Z) : list (list Z) := filter (fun f => f <> []) (fields [] r).

(** A text that starts at [off], and the places of its words. *)
Inductive toks : nat -> list Z -> list (nat * nat) -> Prop :=
| toks_nil off b : Forall is_blank b -> toks off b []
| toks_cons off b u r l :
    Forall is_blank b -> u <> [] -> Forall (fun c => ~ is_blank c) u ->
    (forall c r', r = c :: r' -> is_blank c) -> toks (off + length b + length u) r l ->
    toks off (b ++ u ++ r) ((off + length b, off + length b + length u)%nat :: l).

(** A text begins with bytes of one kind. *)
Lemma span (P : Z -> Prop) `{!forall c, Decision (P c)} r :
  exists b x, r = b ++ x /\ Forall P b /\ forall c x', x = c :: x' -> ~ P c.
Proof.
  induction r as [|c r IH]; [by exists [], []|]. destruct (decide (P c)) as [Hc|Hc].
  - destruct IH as (b & x & -> & Hb & Hx). exists (c :: b), x. split_and!; [done|by constructor|done].
  - exists [], (c :: r). split_and!; [done|constructor|]. by intros ? ? [= <- <-].
Qed.

Lemma toks_exist r off : exists l, toks off r l.
Proof.
  remember (length r) as n eqn:En. revert r off En. induction n as [n IH] using lt_wf_ind. intros r off ->.
  destruct (span is_blank r) as (b & x & -> & Hb & Hx). destruct x as [|c x].
  { exists []. rewrite app_nil_r. by constructor. }
  destruct (span (fun c => ~ is_blank c) (c :: x)) as (u & r' & E & Hu & Hr).
  assert (Hne : u <> []). { intros ->. cbn in E. subst r'. specialize (Hr c x eq_refl). by apply Hr, (Hx c x). }
  destruct (IH (length r')) with (r := r') (off := (off + length b + length u)%nat) as (l & Hl); [|done|].
  { rewrite E, !length_app. destruct u; [done|]. cbn. lia. }
  exists ((off + length b, off + length b + length u)%nat :: l). rewrite E. constructor; try done.
  intros d r'' ->. specialize (Hr d r'' eq_refl). destruct (decide (is_blank d)); [done|]. by destruct Hr.
Qed.

Lemma fields_blanks b r : Forall is_blank b -> words (b ++ r) = words r.
Proof.
  unfold words. induction 1 as [|c b Hc _ IH]; [done|]. cbn [app fields]. rewrite decide_True by done.
  rewrite filter_cons_False by auto. exact IH.
Qed.
Lemma fields_word cur u r :
  Forall (fun c => ~ is_blank c) u -> (forall c r', r = c :: r' -> is_blank c) -> cur ++ u <> [] ->
  filter (fun f => f <> []) (fields cur (u ++ r)) = (cur ++ u) :: words r.
Proof.
  intros Hu Hr. revert cur. induction Hu as [|c u Hc _ IH]; intros cur Hne; cbn [app fields].
  - rewrite app_nil_r in *. destruct r as [|c r]; cbn [fields].
    + unfold words. cbn [fields]. rewrite filter_cons_True, filter_cons_False by auto. done.
    + rewrite decide_True by (by eapply Hr). unfold words. cbn [fields]. rewrite decide_True by (by eapply Hr).
      rewrite filter_cons_True, filter_cons_False by auto. done.
  - rewrite decide_False by done. rewrite IH; [by rewrite <- app_assoc|]. by destruct cur.
Qed.

(** The words are those of the fields. *)
Lemma toks_words off r l : toks off r l ->
  words r = (fun p : nat * nat => take (p.2 - p.1) (drop (p.1 - off) r)) <$> l.
Proof.
  induction 1 as [off b Hb|off b u r l Hb Hu Hub Hr Hl IH].
  - rewrite <- (app_nil_r b), fields_blanks by done. done.
  - rewrite fields_blanks by done. unfold words at 1. rewrite fields_word by (done || by destruct u).
    cbn [fmap list_fmap fst snd]. f_equal.
    + replace (off + length b - off)%nat with (length b) by lia. rewrite drop_app_length.
      replace (off + length b + length u - (off + length b))%nat with (length u) by lia. by rewrite take_app_length.
    + rewrite IH. apply list_fmap_ext. intros i [q e] Hi. cbn [fst snd].
      assert (Hq : (off + length b + length u <= q)%nat).
      { clear -Hl Hi. apply list_elem_of_lookup_2 in Hi. revert Hi. induction Hl; [set_solver|].
        intros [[= -> ->]|Hi]%elem_of_cons; [lia|]. specialize (IHHl Hi). lia. }
      replace (q - off)%nat with (length (b ++ u) + (q - (off + length b + length u)))%nat by (rewrite length_app; lia).
      by rewrite app_assoc, drop_app_add.
Qed.

Section Line.
Context {W : Type} `{!World W}.
Context (buf : list Z) (es : nat).

(** The text from the index [off] to the end of the line. *)
Definition rest_is (off : nat) (r : list Z) : Prop :=
  exists pre z, buf = pre ++ r ++ 0 :: z /\ length pre = off /\ (off + length r = es)%nat.

Lemma holds_nil off : rest_is off [] -> off = es /\ at_ buf off = 0.
Proof.
  intros (pre & z & E & El & Ee). cbn in Ee. split; [lia|]. unfold at_. rewrite E, app_nth2 by lia.
  by replace (off - length pre)%nat with 0%nat by lia.
Qed.
Lemma holds_cons off c r : rest_is off (c :: r) -> at_ buf off = c /\ rest_is (S off) r.
Proof.
  intros (pre & z & E & El & Ee). split.
  - unfold at_. rewrite E, app_nth2 by lia. by replace (off - length pre)%nat with 0%nat by lia.
  - exists (pre ++ [c]), z. rewrite length_app, <- app_assoc. cbn in *. split_and!; [done|lia|lia].
Qed.
Lemma holds_app off b x : rest_is off (b ++ x) -> rest_is (off + length b) x.
Proof.
  intros (pre & z & E & El & Ee). exists (pre ++ b), z. rewrite length_app in *. split_and!; [|lia|lia].
  by rewrite E, <- !app_assoc.
Qed.

Lemma skip_holds f b x off :
  rest_is off (b ++ x) -> Forall (fun c => f c = true) b -> (forall c x', x = c :: x' -> f c = false) ->
  skip (es - off) f buf off = (off + length b)%nat.
Proof.
  intros Hh Hb Hx. revert off Hh. induction Hb as [|c b Hc _ IH]; intros off Hh; cbn [app length] in *.
  - destruct x as [|c x].
    + apply holds_nil in Hh as [-> _]. rewrite Nat.sub_diag. cbn. lia.
    + pose proof Hh as (_ & _ & _ & _ & Ee). cbn in Ee. apply holds_cons in Hh as [Ea _].
      replace (es - off)%nat with (S (es - off - 1)) by lia. cbn. rewrite Ea, (Hx c x eq_refl). lia.
  - pose proof Hh as (_ & _ & _ & _ & Ee). cbn in Ee. apply holds_cons in Hh as [Ea Hh].
    replace (es - off)%nat with (S (es - S off)) by lia. cbn [skip]. rewrite Ea, Hc, (IH (S off) Hh). lia.
Qed.

Lemma has_spec l c : strchr_in l c = true <-> c ∈ l.
Proof.
  unfold strchr_in. rewrite existsb_exists. setoid_rewrite Z.eqb_eq. split.
  - intros (x & Hx & ->). by apply list_elem_of_In.
  - intros Hc. exists c. split; [by apply list_elem_of_In|done].
Qed.
Lemma has_false l c : strchr_in l c = false <-> c ∉ l.
Proof. rewrite <- has_spec. by destruct (strchr_in l c). Qed.
Lemma whitespace_blank c : c ∈ whitespace <-> is_blank c.
Proof. unfold whitespace, is_blank, blanks. set_solver. Qed.

(** The line strchr_in no symbol. *)
Definition plain_text (r : list Z) : Prop := Forall (fun c => c <> 0 /\ c ∉ symbols) r.

Lemma skip_blanks_holds b x off :
  rest_is off (b ++ x) -> Forall is_blank b -> (forall c x', x = c :: x' -> ~ is_blank c) ->
  skip_blanks buf es off = (off + length b)%nat.
Proof.
  intros Hh Hb Hx. apply (skip_holds _ b x off Hh).
  - eapply Forall_impl; [exact Hb|]. intros c Hc. by apply has_spec, whitespace_blank.
  - intros c x' E. apply has_false. rewrite whitespace_blank. by eapply Hx.
Qed.

Lemma skip_blanks_idem off r : rest_is off r -> skip_blanks buf es (skip_blanks buf es off) = skip_blanks buf es off.
Proof.
  intros Hh. destruct (span is_blank r) as (b & x & -> & Hb & Hx). rewrite (skip_blanks_holds b x off Hh Hb Hx).
  rewrite (skip_blanks_holds [] x _ (holds_app _ _ _ Hh)); [cbn; lia|constructor|done].
Qed.

(** No symbol is found in such a line. *)
Lemma peek_plain off r s tk :
  rest_is off r -> plain_text r -> skip_blanks buf es s = skip_blanks buf es off -> (forall c, c ∈ tk -> c ∈ symbols) ->
  peek buf es s tk = (skip_blanks buf es off, false).
Proof.
  intros Hh Hp Hs Htk. unfold peek. rewrite Hs. f_equal.
  destruct (span is_blank r) as (b & x & -> & Hb & Hx). rewrite (skip_blanks_holds b x off Hh Hb Hx).
  apply holds_app in Hh. apply Forall_app in Hp as [_ Hp]. destruct x as [|c x].
  - apply holds_nil in Hh as [_ ->]. done.
  - apply holds_cons in Hh as [-> _]. inversion Hp as [|? ? [_ Hc] _]; subst.
    rewrite (proj2 (has_false tk c)) by auto. apply andb_false_r.
Qed.

(** The next token: the end of the line, or a word. *)
Lemma gettoken_end off b s :
  rest_is off b -> Forall is_blank b -> skip_blanks buf es s = skip_blanks buf es off ->
  exists q e, gettoken buf es s = (0, q, e, es).
Proof.
  intros Hh Hb Hs. rewrite <- (app_nil_r b) in Hh. pose proof (holds_app _ _ _ Hh) as He. apply holds_nil in He as [Ee Ea].
  unfold gettoken. rewrite Hs, (skip_blanks_holds b [] off Hh Hb) by done. rewrite Ea, Ee. cbn.
  unfold skip_blanks. rewrite Nat.sub_diag. cbn. by eexists _, _.
Qed.

Lemma gettoken_word off b u r s :
  rest_is off (b ++ u ++ r) -> Forall is_blank b -> u <> [] -> Forall (fun c => ~ is_blank c) u -> plain_text u ->
  (forall c r', r = c :: r' -> is_blank c) -> skip_blanks buf es s = skip_blanks buf es off ->
  gettoken buf es s = (97%Z, off + length b, off + length b + length u,
    skip_blanks buf es (off + length b + length u))%nat.
Proof.
  intros Hh Hb Hu Hub Hup Hr Hs. destruct u as [|c u]; [done|].
  pose proof (Forall_inv Hub) as Hcb. pose proof (Forall_inv Hup) as [Hc0 Hcs]. cbn beta in *.
  unfold gettoken. rewrite Hs, (skip_blanks_holds b ((c :: u) ++ r) off Hh Hb) by (by intros ? ? [= <- <-]).
  pose proof (holds_app _ _ _ Hh) as Hh'. pose proof Hh' as [Ea _]%holds_cons. rewrite Ea.
  rewrite (proj2 (Z.eqb_neq c 0)) by done.
  rewrite (proj2 (has_false (lit "|();&<") c)) by (intros Hc; apply Hcs; revert Hc; vm_compute; set_solver).
  rewrite (proj2 (Z.eqb_neq c 62)) by (intros ->; apply Hcs; vm_compute; set_solver).
  rewrite (skip_holds _ (c :: u) r _ Hh').
  - done.
  - unfold plain_text in Hup. rewrite Forall_forall in *. intros d Hd. specialize (Hub d Hd). destruct (Hup d Hd) as [_ Hds].
    rewrite (proj2 (has_false whitespace d)), (proj2 (has_false symbols d)); [done|done|]. by rewrite whitespace_blank.
  - intros d r' E. rewrite (proj2 (has_spec whitespace d)); [done|]. apply whitespace_blank. by eapply Hr.
Qed.

Lemma symbols_sub tk : forallb (strchr_in symbols) tk = true -> forall c, c ∈ tk -> c ∈ symbols.
Proof. intros Hf c Hc. rewrite forallb_forall in Hf. by apply has_spec, Hf, list_elem_of_In. Qed.

(** One turn at a word. *)
Lemma parseexec_word off b u r s cmd w :
  rest_is off (b ++ u ++ r) -> Forall is_blank b -> u <> [] -> Forall (fun c => ~ is_blank c) u ->
  plain_text (b ++ u ++ r) -> (forall c r', r = c :: r' -> is_blank c) -> skip_blanks buf es s = skip_blanks buf es off ->
  let cmd' := mk_execcmd (c_argv cmd ++ [(off + length b)%nat]) (c_eargv cmd ++ [(off + length b + length u)%nat]) in
  (length (c_argv cmd) < 9 -> goes (parseexec_body buf es (cmd, s)) w
     (Val w (inl (cmd', skip_blanks buf es (off + length b + length u)))))%nat /\
  (length (c_argv cmd) = 9%nat -> forall o,
     goes (panic (lit "too many args")) w o -> goes (parseexec_body buf es (cmd, s)) w o).
Proof.
  intros Hh Hb Hu Hub Hp Hr Hs cmd'. unfold parseexec_body.
  rewrite (peek_plain off (b ++ u ++ r) s (lit "|)&;") Hh Hp Hs (symbols_sub (lit "|)&;") eq_refl)).
  pose proof Hp as Hp'. apply Forall_app in Hp' as [_ [Hup Hrp]%Forall_app].
  rewrite (gettoken_word off b u r _ Hh Hb Hu Hub Hup Hr (skip_blanks_idem off _ Hh)).
  cbn [Z.eqb negb Pos.eqb]. cbv zeta. fold cmd'.
  assert (Hh' : rest_is (off + length b + length u) r).
  { rewrite <- Nat.add_assoc, <- length_app. apply holds_app. by rewrite <- app_assoc. }
  split; intros Hl.
  - rewrite (proj2 (Nat.leb_gt _ _)) by (unfold cmd', MAXARGS; cbn [c_argv]; rewrite length_app; cbn; lia).
    unfold parseredirs.
    rewrite (peek_plain _ r _ (lit "<>") Hh' Hrp (skip_blanks_idem _ _ Hh') (symbols_sub (lit "<>") eq_refl)).
    eapply goes_bind; [apply goes_ret|apply goes_ret].
  - intros o Ho. rewrite (proj2 (Nat.leb_le _ _)) by (unfold cmd', MAXARGS; cbn [c_argv]; rewrite length_app; cbn; lia).
    exact Ho.
Qed.
(** The loop collects the words. *)
Lemma parseexec_words off r l : toks off r l -> forall s cmd w,
  rest_is off r -> plain_text r -> skip_blanks buf es s = skip_blanks buf es off ->
  (length (c_argv cmd) + length l <= 9)%nat ->
  goes (while (parseexec_body buf es) (cmd, s)) w
    (Val w (mk_execcmd (c_argv cmd ++ l.*1) (c_eargv cmd ++ l.*2), es)).
Proof.
  induction 1 as [off b Hb|off b u r l Hb Hu Hub Hr Hl IH]; intros s cmd w Hh Hp Hs Hlen.
  - apply goes_while_done. unfold parseexec_body.
    rewrite (peek_plain off b s (lit "|)&;") Hh Hp Hs (symbols_sub (lit "|)&;") eq_refl)).
    destruct (gettoken_end off b _ Hh Hb (skip_blanks_idem off b Hh)) as (q & e & ->).
    cbn [fmap list_fmap]. rewrite !app_nil_r. destruct cmd. apply goes_ret.
  - destruct (parseexec_word off b u r s cmd w Hh Hb Hu Hub Hp Hr Hs) as [Hw _]. cbn [length] in Hlen.
    eapply goes_while_more; [apply Hw; lia|].
    assert (Hh' : rest_is (off + length b + length u) r).
    { rewrite <- Nat.add_assoc, <- length_app. apply holds_app. by rewrite <- app_assoc. }
    apply Forall_app in Hp as [_ [_ Hrp]%Forall_app].
    specialize (IH (skip_blanks buf es (off + length b + length u))
      (mk_execcmd (c_argv cmd ++ [(off + length b)%nat]) (c_eargv cmd ++ [(off + length b + length u)%nat])) w
      Hh' Hrp (skip_blanks_idem _ _ Hh')).
    cbn [c_argv c_eargv] in IH. rewrite length_app in IH. cbn [length fmap list_fmap fst snd] in *.
    rewrite <- !app_assoc in IH. apply IH. lia.
Qed.

(** More than nine words: the loop stops with a message. *)
Lemma parseexec_many off r l : toks off r l -> forall s cmd w o,
  rest_is off r -> plain_text r -> skip_blanks buf es s = skip_blanks buf es off ->
  (length (c_argv cmd) <= 9)%nat -> (9 < length (c_argv cmd) + length l)%nat ->
  goes (panic (A := execcmd * nat + execcmd * nat) (lit "too many args")) w (Stop o (Exited 1)) ->
  goes (while (parseexec_body buf es) (cmd, s)) w (Stop o (Exited 1)).
Proof.
  induction 1 as [off b Hb|off b u r l Hb Hu Hub Hr Hl IH]; intros s cmd w o Hh Hp Hs Hc Hlen Ho; [cbn in Hlen; lia|].
  destruct (parseexec_word off b u r s cmd w Hh Hb Hu Hub Hp Hr Hs) as [Hw Hm]. cbn [length] in Hlen.
  destruct (decide (length (c_argv cmd) = 9%nat)) as [E|E].
  { apply goes_while_stop. by apply Hm. }
  eapply goes_while_more; [apply Hw; lia|].
  assert (Hh' : rest_is (off + length b + length u) r).
  { rewrite <- Nat.add_assoc, <- length_app. apply holds_app. by rewrite <- app_assoc. }
  apply Forall_app in Hp as [_ [_ Hrp]%Forall_app].
  apply IH; try done; [by eapply skip_blanks_idem|..]; cbn [c_argv]; rewrite length_app; cbn; lia.
Qed.

End Line.

(** * The words after the ends are cut off *)

Lemma lookup_cut (ends : list nat) : forall (buf : list Z) i,
  foldl (fun buf e => <[e := 0]> buf) buf ends !! i =
    if decide (i ∈ ends /\ i < length buf)%nat then Some 0 else buf !! i.
Proof.
  induction ends as [|e ends IH]; intros buf i; cbn [foldl].
  { rewrite decide_False; [done|]. set_solver. }
  rewrite IH, length_insert. destruct (decide (i ∈ ends /\ i < length buf)%nat) as [[H1 H2]|Hn].
  - rewrite decide_True; [done|]. split; [by right|done].
  - destruct (decide (i = e)) as [->|Hne].
    + destruct (decide (e < length buf)%nat) as [Hl|Hl].
      * rewrite decide_True by (split; [by left|done]). by apply list_lookup_insert_eq.
      * rewrite decide_False by (by intros [_ ?]). rewrite list_insert_ge by lia. done.
    + rewrite list_lookup_insert_ne by done. rewrite decide_False; [done|]. intros [[?|?]%elem_of_cons ?]; [done|by apply Hn].
Qed.

Lemma cstr_at (w : list Z) : forall (l : list Z) q,
  (forall i, (i < length w)%nat -> l !! (q + i)%nat = w !! i) -> l !! (q + length w)%nat = Some 0 -> 0 ∉ w ->
  cstr (drop q l) = w.
Proof.
  induction w as [|c w IH]; intros l q Hi He H0.
  - cbn in He. rewrite Nat.add_0_r in He. rewrite (drop_S _ _ _ He). done.
  - pose proof (Hi 0%nat ltac:(cbn; lia)) as Hc. rewrite Nat.add_0_r in Hc. cbn in Hc. apply not_elem_of_cons in H0 as [Hc0 H0].
    rewrite (drop_S _ _ _ Hc). cbn [cstr]. rewrite (proj2 (Z.eqb_neq _ _)) by done. f_equal. apply IH; [|..|done].
    + intros i Hl. replace (S q + i)%nat with (q + S i)%nat by lia. apply (Hi (S i)). cbn. lia.
    + replace (S q + length w)%nat with (q + length (c :: w))%nat by (cbn; lia). done.
Qed.

(** The words are in order, with a blank or the end between them. *)
Lemma toks_range off r l q e : toks off r l -> (q, e) ∈ l -> (off <= q < e /\ e <= off + length r)%nat.
Proof.
  induction 1 as [|off b u r l Hb Hu _ Hr Hl IH]; [set_solver|]. rewrite !length_app.
  intros [[= -> ->]|Hin]%elem_of_cons; [destruct u; [done|]; cbn; lia|]. specialize (IH Hin). lia.
Qed.

(** A text that starts with a blank strchr_in its first word later. *)
Lemma toks_after off c r l q e : toks off (c :: r) l -> is_blank c -> (q, e) ∈ l -> (off < q)%nat.
Proof.
  remember (c :: r) as cr eqn:E. intros Ht Hc Hin. destruct Ht as [|off b u r' l Hb Hu Hub Hr Hl]; [set_solver|].
  assert (Hb' : (0 < length b)%nat).
  { destruct b; [|cbn; lia]. destruct u as [|d u]; [done|]. cbn in E. injection E as Ed _. subst d. inversion Hub. done. }
  apply elem_of_cons in Hin as [[= -> ->]|Hin]; [lia|]. pose proof (toks_range _ _ _ _ _ Hl Hin). lia.
Qed.

Lemma toks_apart off r l : toks off r l -> forall q e q' e', (q, e) ∈ l -> (q', e') ∈ l -> ~ (q <= e' < e)%nat.
Proof.
  induction 1 as [|off b u r l Hb Hu Hub Hr Hl IH]; [set_solver|]. intros q e q' e'.
  intros [[= -> ->]|H1]%elem_of_cons [[= -> ->]|H2]%elem_of_cons; [lia|..|by eapply IH].
  - pose proof (toks_range _ _ _ _ _ Hl H2). lia.
  - destruct r as [|c r]; [exfalso; pose proof (toks_range _ _ _ _ _ Hl H1) as Hx; cbn in Hx; lia|].
    pose proof (toks_after _ _ _ _ _ _ Hl (Hr c r eq_refl) H1). lia.
Qed.

Lemma cut_words t z l :
  toks 0 t l -> 0 ∉ t ->
  str (nulterminate (t ++ 0 :: z) (mk_execcmd l.*1 l.*2)) <$> l.*1 = words t.
Proof.
  intros Ht H0. rewrite (toks_words _ _ _ Ht), <- list_fmap_compose. apply list_fmap_ext.
  intros i [q e] Hi. apply list_elem_of_lookup_2 in Hi. cbn [compose fst snd]. rewrite Nat.sub_0_r.
  destruct (toks_range _ _ _ _ _ Ht Hi) as [Hqe He]. cbn in He. unfold str, nulterminate. cbn [c_eargv].
  assert (Hlen : length (take (e - q) (drop q t)) = (e - q)%nat) by (rewrite length_take, length_drop; lia).
  apply cstr_at; rewrite ?Hlen.
  - intros j Hj. rewrite lookup_cut, decide_False.
    + rewrite lookup_take_lt, lookup_drop by lia. apply lookup_app_l. lia.
    + intros [Hin _]. apply list_elem_of_fmap in Hin as ([q' e'] & Ee & Hin). cbn in Ee.
      apply (toks_apart _ _ _ Ht q e q' e' Hi Hin). lia.
  - rewrite lookup_cut, decide_True; [done|]. split; [|rewrite length_app; cbn; lia].
    replace (q + (e - q))%nat with e by lia. apply list_elem_of_fmap. by exists (q, e).
  - intros Hin. apply H0. rewrite <- (take_drop q t). apply elem_of_app. right.
    rewrite <- (take_drop (e - q) (drop q t)). apply elem_of_app. by left.
Qed.

(** * The child *)

Definition line (t : list Z) : list Z := t ++ replicate (Z.to_nat NBUF - length t) 0.

Section Child.
Context {W : Type} `{Brk W}.
Context (base : Z) (t : list Z) (w : W).
Hypothesis Hbase : 0 < base.
Hypothesis Hbrk : base + 16 <= brk w < 2 ^ 31.
Hypothesis Hroom : brk w + 4096 <= brk_limit.
Hypothesis Ht : plain_text t.
Hypothesis Hlen : (length t <= 99)%nat.

Lemma line_nul : exists z, line t = t ++ 0 :: z.
Proof.
  unfold line, NBUF. replace (Z.to_nat 100 - length t)%nat with (S (99 - length t)) by lia. cbn. eauto.
Qed.

Lemma plain_nonul : 0 ∉ t.
Proof. intros Hin. unfold plain_text in Ht. rewrite Forall_forall in Ht. by destruct (Ht 0 Hin). Qed.

Lemma line_end : length (cstr (line t)) = length t.
Proof. destruct line_nul as (z & ->). rewrite cstr_nul; [done|apply plain_nonul]. Qed.

Lemma line_holds : rest_is (line t) (length t) 0 t.
Proof. destruct line_nul as (z & ->). exists [], z. split_and!; [done|done|lia]. Qed.

Lemma line_holds_end : rest_is (line t) (length t) (length t) [].
Proof. destruct line_nul as (z & ->). exists t, z. split_and!; [done|done|cbn; lia]. Qed.

Let es : nat := length t.

(** Up to the loop over the words. *)
Lemma parseexec_start : exists w1, forall o,
  goes (while (parseexec_body (line t) es) (mk_execcmd [] [], skip_blanks (line t) es 0)) w1 o ->
  goes (parseexec base (line t) es 0) w o.
Proof.
  destruct (malloc_first base EXECCMD_SIZE w Hbase Hbrk ltac:(unfold EXECCMD_SIZE; lia) Hroom) as (w1 & h' & p & G & Hp).
  exists w1. intros o Ho. unfold parseexec, parseredirs.
  rewrite (peek_plain _ es 0 t 0 (lit "(") line_holds Ht eq_refl (symbols_sub (lit "(") eq_refl)).
  eapply goes_bind.
  { eapply goes_bind; [exact G|]. cbv beta iota. rewrite (proj2 (Z.eqb_neq _ _)) by lia. apply goes_ret. }
  rewrite (peek_plain _ es 0 t _ (lit "<>") line_holds Ht (skip_blanks_idem _ es 0 t line_holds) (symbols_sub (lit "<>") eq_refl)).
  eapply goes_bind; [apply goes_ret|]. exact Ho.
Qed.

(** Nothing is left after the words. *)
Lemma peek_end tk : (forall c, c ∈ tk -> c ∈ symbols) -> peek (line t) es es tk = (es, false).
Proof.
  intros Htk. rewrite (peek_plain _ es es [] es tk line_holds_end (Forall_nil_2 _) eq_refl Htk).
  unfold skip_blanks. by rewrite Nat.sub_diag.
Qed.

Lemma parsecmd_words l :
  toks 0 t l -> (length l <= 9)%nat ->
  exists w1, goes (parsecmd base (line t)) w
    (Val w1 (mk_execcmd l.*1 l.*2, nulterminate (line t) (mk_execcmd l.*1 l.*2))).
Proof.
  intros Hl Hn. destruct parseexec_start as (w1 & Hstart). exists w1. unfold parsecmd. rewrite line_end. fold es.
  eapply goes_bind.
  { eapply goes_bind.
    { eapply goes_bind.
      { apply Hstart. apply (parseexec_words (line t) es 0 t l Hl); [exact line_holds|exact Ht| |cbn; lia].
        apply (skip_blanks_idem _ es 0 t line_holds). }
      cbv beta iota. rewrite (peek_end (lit "|") (symbols_sub (lit "|") eq_refl)). apply goes_ret. }
    cbv beta iota. rewrite (peek_end (lit "&") (symbols_sub (lit "&") eq_refl)).
    rewrite (peek_end (lit ";") (symbols_sub (lit ";") eq_refl)). apply goes_ret. }
  cbv beta iota. rewrite (peek_end [] (symbols_sub [] eq_refl)). rewrite Nat.eqb_refl. apply goes_ret.
Qed.

Lemma parsecmd_many l :
  toks 0 t l -> (9 < length l)%nat ->
  exists w1, forall w2, goes (panic (A := execcmd * nat + execcmd * nat) (lit "too many args")) w1 (Stop w2 (Exited 1)) ->
    goes (parsecmd base (line t)) w (Stop w2 (Exited 1)).
Proof.
  intros Hl Hn. destruct parseexec_start as (w1 & Hstart). exists w1. intros w2 Hp. unfold parsecmd. rewrite line_end. fold es.
  apply goes_bind_stop, goes_bind_stop, goes_bind_stop, Hstart.
  apply (parseexec_many (line t) es 0 t l Hl); [exact line_holds|exact Ht| |cbn; lia|cbn; lia|exact Hp].
  apply (skip_blanks_idem _ es 0 t line_holds).
Qed.

(** The child executes the words. *)
Lemma sh_child_execs {A} a args :
  words t = a :: args -> (length args <= 8)%nat ->
  exists w1, forall w2, answer (Exec a (a :: args)) w1 = (w2, None) ->
    goes (sh_child (A := A) base (line t)) w (Stop w2 (Execed a (a :: args))).
Proof.
  intros Hw Hn. destruct (toks_exist t 0) as (l & Hl). destruct line_nul as (z & Hz).
  pose proof (cut_words t z l Hl plain_nonul) as Hc. rewrite <- Hz, Hw in Hc.
  assert (Hll : length l = S (length args)).
  { apply (f_equal length) in Hc. rewrite !length_fmap in Hc. exact Hc. }
  destruct (parsecmd_words l Hl ltac:(lia)) as (w1 & G). exists w1. intros w2 Ha.
  eapply goes_bind; [exact G|]. cbv beta iota. unfold runcmd. cbn [c_argv] in *.
  destruct (l.*1) as [|q qs] eqn:El; [done|]. rewrite Hc. cbn [fmap list_fmap] in Hc. injection Hc as -> _.
  apply goes_bind_stop. eapply goes_bind; [apply goes_sys; exact Ha|]. apply goes_halt.
Qed.

End Child.

(** * From the line typed to the command *)

(** Reading, writing and forking leave the break alone. *)
Class BrkStable (W : Type) `{!World W, !Brk W} : Prop := {
  brk_read : forall w fd n, brk (answer (Read fd n) w).1 = brk w;
  brk_write : forall w fd l, brk (answer (Write fd l) w).1 = brk w;
  brk_fork : forall w, brk (answer Fork w).1 = brk w;
}.

Section Shell.
Context {W : Type} `{!World W, !Io W, !Brk W, !BrkStable W}.

Lemma gets_loop_line l rest : forall k buf w,
  v_in (view w) !! 0 = Some (l ++ 10 :: rest) -> 10 ∉ l -> 13 ∉ l -> (length l < k)%nat ->
  exists w', goes (gets_loop k buf) w (Val w' (buf ++ l ++ [10])) /\
    view w' = set_v_in <[0 := rest]> (view w) /\ brk w' = brk w.
Proof.
  assert (Hread : forall w c s, v_in (view w) !! 0 = Some (c :: s) ->
    exists w', answer (Read 0 1) w = (w', (1, [c])) /\ view w' = set_v_in <[0 := s]> (view w) /\ brk w' = brk w).
  { intros w c s Hs. destruct (io_read w 0 (c :: s) 1 Hs ltac:(lia)) as (k & w' & E & Hk & _ & Hp & V).
    specialize (Hp ltac:(done)). assert (k = 1%nat) as -> by lia. exists w'. split_and!; [exact E|exact V|].
    pose proof (brk_read w 0 1) as Hb. by rewrite E in Hb. }
  induction l as [|c l IH]; intros [|k] buf w Hs H10 H13 Hk; cbn [length] in Hk; try lia; cbn [gets_loop].
  - destruct (Hread w 10 rest Hs) as (w' & E & V & B). exists w'. split_and!; [|done|done].
    eapply goes_bind; [apply goes_sys; exact E|]. apply goes_ret.
  - apply not_elem_of_cons in H10 as [Hc10 H10], H13 as [Hc13 H13].
    destruct (Hread w c (l ++ 10 :: rest) Hs) as (w1 & E & V & B).
    destruct (IH k (buf ++ [c]) w1) as (w' & G & V' & B'); [rewrite V; apply lookup_insert_eq|done|done|lia|].
    exists w'. split_and!.
    + eapply goes_bind; [apply goes_sys; exact E|]. cbn [Z.ltb Z.compare Pos.compare Pos.compare_cont].
      rewrite (proj2 (Z.eqb_neq c 10)), (proj2 (Z.eqb_neq c 13)) by done. cbn [orb].
      rewrite <- app_assoc in G. exact G.
    + rewrite V', V. unfold set_v_in. cbn [v_in v_out v_files]. by rewrite insert_insert_eq.
    + congruence.
Qed.

(** [getcmd] prints the prompt and gives the next line. *)
Lemma getcmd_line t rest e w :
  v_in (view w) !! 0 = Some (t ++ 10 :: rest) -> v_out (view w) !! 2 = Some e ->
  10 ∉ t -> 13 ∉ t -> 0 ∉ t -> (length t <= 98)%nat ->
  exists w', goes getcmd w (Val w' (Some (line (t ++ [10])))) /\
    view w' = set_v_in <[0 := rest]> (set_v_out <[2 := e ++ lit "$ "]> (view w)) /\ brk w' = brk w.
Proof.
  intros Hs He H10 H13 H0 Hl. destruct (io_write w 2 e (lit "$ ") He) as (w1 & E1 & V1).
  pose proof (brk_write w 2 (lit "$ ")) as B1. rewrite E1 in B1. cbn [fst] in B1.
  destruct (gets_loop_line t rest (Z.to_nat (NBUF - 1)) [] w1) as (w2 & G2 & V2 & B2);
    [by rewrite V1|done|done|unfold NBUF; lia|].
  exists w2. split_and!; [|by rewrite V2, V1|congruence].
  eapply goes_bind; [apply goes_sys; exact E1|]. eapply goes_bind; [exact G2|]. cbn [app]. fold (line (t ++ [10])).
  assert (Hne : at_ (line (t ++ [10])) 0 <> 0).
  { unfold at_, line. destruct t as [|c t']; cbn; [done|]. set_solver. }
  rewrite (proj2 (Z.eqb_neq _ _)) by done. apply goes_ret.
Qed.

Lemma words_snoc t c : is_blank c -> words (t ++ [c]) = words t.
Proof.
  intros Hc. enough (Hg : forall cur, filter (fun f => f <> []) (fields cur (t ++ [c])) = filter (fun f => f <> []) (fields cur t))
    by apply Hg.
  induction t as [|x t IH]; intros cur; cbn [app fields].
  - rewrite decide_True by done. rewrite !filter_cons, filter_nil. case_decide as Hd; [|done]. by rewrite decide_False by auto.
  - case_decide; [|apply IH]. rewrite !filter_cons. case_decide; [f_equal|]; apply IH.
Qed.

Lemma not_cd t :
  take 3 t <> lit "cd " ->
  (at_ (line (t ++ [10])) 0 =? 99) && (at_ (line (t ++ [10])) 1 =? 100) && (at_ (line (t ++ [10])) 2 =? 32) = false.
Proof.
  intros Ht. apply not_true_is_false. intros E. b2p. apply Ht. unfold at_, line in *.
  destruct t as [|x [|y [|z t]]]; cbn in *; try done. by subst.
Qed.

(** C15: a line typed at the shell reaches [exec]: if the input continues with a line
    of one to nine words without symbols, other than a [cd], the child that the shell
    forks executes the first word with exactly the words of the line, whatever blanks
    are around them, and the rest of the input is left to the next line. *)
Theorem sh_runs_line base w t rest e a args :
  0 < base -> base + 16 <= brk w < 2 ^ 31 -> brk w + 4096 <= brk_limit ->
  v_in (view w) !! 0 = Some (t ++ 10 :: rest) -> v_out (view w) !! 2 = Some e ->
  plain_text t -> 10 ∉ t -> 13 ∉ t -> (length t <= 98)%nat ->
  words t = a :: args -> (length args <= 8)%nat -> take 3 t <> lit "cd " ->
  (forall w, (answer Fork w).2 = 0) -> (forall w, (answer (Exec a (a :: args)) w).2 = None) ->
  exists w', goes (sh_main base) w (Stop w' (Execed a (a :: args))).
Proof.
  intros Hb Hw Hroom Hs He Ht H10 H13 Hl Ews Hn Hcd Hfork Hexec.
  assert (Ht' : plain_text (t ++ [10])).
  { apply Forall_app. split; [done|]. repeat constructor; [done|]. vm_compute. set_solver. }
  destruct (getcmd_line t rest e w Hs He H10 H13 (plain_nonul t Ht) Hl) as (w1 & G1 & _ & B1).
  destruct (answer Fork w1) as [w2 pid] eqn:Ef. pose proof (Hfork w1) as Hp. rewrite Ef in Hp. cbn in Hp. subst pid.
  pose proof (brk_fork w1) as B2. rewrite Ef in B2. cbn in B2.
  assert (Hw2 : base + 16 <= brk w2 < 2 ^ 31) by lia. assert (Hroom2 : brk w2 + 4096 <= brk_limit) by lia.
  assert (Hl2 : (length (t ++ [10%Z]) <= 99)%nat) by (rewrite length_app; cbn; lia).
  assert (Ews2 : words (t ++ [10]) = a :: args) by (rewrite words_snoc; [done|unfold is_blank, blanks; set_solver]).
  destruct (sh_child_execs (A := unit + Z) base (t ++ [10]) w2 Hb Hw2 Hroom2 Ht' Hl2 a args Ews2 Hn) as (w3 & G3).
  destruct (answer (Exec a (a :: args)) w3) as [w4 r] eqn:Ex. pose proof (Hexec w3) as Hr. rewrite Ex in Hr. cbn in Hr. subst r.
  exists w4. apply goes_while_stop. unfold sh_body. eapply goes_bind; [exact G1|]. cbv beta iota.
  rewrite (not_cd t Hcd). eapply goes_bind.
  { eapply goes_bind; [apply goes_sys; exact Ef|]. cbn [Z.eqb]. apply goes_ret. }
  cbn [Z.eqb]. exact (G3 w4 eq_refl).
Qed.

End Shell.

(** * A sample world *)

(** Descriptors and a break; [fork] goes on in the child, and [exec] works. *)
Module ShellWorld.

Definition shell : Type := plain * Z.

Definition shell_answer {A} (c : sysE A) (w : shell) : shell * A :=
  match c in sysE A return shell * A with
  | Fork => (w, 0)
  | Exec _ _ => (w, None)
  | Sbrk n => let '(b, r) := brk_answer (Sbrk n) w.2 in ((w.1, b), r)
  | c => let '(p, r) := plain_answer c w.1 in ((p, w.2), r)
  end.

#[export] Instance shell_world : World shell := @shell_answer.

#[export] Instance shell_io : Io shell.
Proof. apply plain_lift_io; done. Defined.

#[export] Program Instance shell_brk : Brk shell := {| brk w := w.2; brk_limit := 2 ^ 27 |}.
Next Obligation. done. Qed.
Next Obligation.
  intros [p b] n Hn Hl. destruct (@sbrk_grow Z _ BrkWorld.brk_brk b n Hn Hl) as (b' & E & Hb). exists (p, b').
  unfold answer, BrkWorld.brk_world in E. unfold answer, shell_world, shell_answer. cbn [snd]. rewrite E. done.
Qed.
Next Obligation.
  intros [p b] n Hn Hl. destruct (@sbrk_full Z _ BrkWorld.brk_brk b n Hn Hl) as (b' & E & Hb). exists (p, b').
  unfold answer, BrkWorld.brk_world in E. unfold answer, shell_world, shell_answer. cbn [snd]. rewrite E. done.
Qed.
Next Obligation.
  intros [p b] n Hn Hl. destruct (@sbrk_shrink Z _ BrkWorld.brk_brk b n Hn Hl) as (b' & E & Hb). exists (p, b').
  unfold answer, BrkWorld.brk_world in E. unfold answer, shell_world, shell_answer. cbn [snd]. rewrite E. done.
Qed.

#[export] Instance shell_stable : BrkStable shell.
Proof.
  split.
  - intros [p b] fd n. unfold answer, shell_world, shell_answer. by destruct (plain_answer _ _).
  - intros [p b] fd l. unfold answer, shell_world, shell_answer. by destruct (plain_answer _ _).
  - done.
Qed.

End ShellWorld.
Import (hints) ShellWorld.

Definition typed_in : ShellWorld.shell :=
  (mk_plain (mk_io_view {[0 := lit " echo  a b" ++ 10 :: lit "ls" ++ nl]} {[1 := []; 2 := []]} ∅) 0, 8192).

Lemma typed_plain : plain_text (lit " echo  a b").
Proof. repeat constructor; try done; vm_compute; set_solver. Qed.

Lemma sh_runs_line_witness :
  exists w', goes (sh_main 4096) typed_in (Stop w' (Execed (lit "echo") [lit "echo"; lit "a"; lit "b"])).
Proof.
  apply (sh_runs_line 4096 typed_in (lit " echo  a b") (lit "ls" ++ nl) [] (lit "echo") [lit "a"; lit "b"]).
  - lia.
  - cbn. lia.
  - cbn. lia.
  - reflexivity.
  - reflexivity.
  - exact typed_plain.
  - vm_compute. set_solver.
  - vm_compute. set_solver.
  - cbn. lia.
  - vm_compute. reflexivity.
  - cbn. lia.
  - discriminate.
  - reflexivity.
  - reflexivity.
Defined.
