(* ===== verification/Grind.v ===== *)
(** user/grind.c: random system calls for ever.

    The static variables of the program ([rand_next], the buffer of [go]) and the
    variables of the loop of [go] are the state the loop carries.  The theorem is
    about the random number generator: the computation that stays within 31 bits
    is multiplication by 7^5 modulo 2^31 - 1, and permutes its range. *)

From S2P Require Import Prelude Types Memory Spinlock Sched Sleeplock Uart Printf Ulib User.
From ITree Require Import ITree.
From Stdlib Require Import Znumtheory.
Local Open Scope Z_scope.
Local Open Scope u_scope.

(** * The random number generator *)

(** The new [*ctx] and the result.  [/] and [%] of [long]s round toward zero. *)
Definition do_rand (ctx : Z) : Z * Z :=
  let x := i64 (u64 (ctx mod 0x7ffffffe + 1)) in
  let hi := Z.quot x 127773 in
  let lo := Z.rem x 127773 in
  let x := 16807 * lo - 2836 * hi in
  let x := if x <? 0 then x + 0x7fffffff else x in
  let x := x - 1 in
  (u64 x, i32 x).

Definition rand (rand_next : Z) : Z * Z := do_rand rand_next.

(** * The random system calls *)

Definition RDWR_CREATE : Z := Z.lor O_CREATE O_RDWR.

(** [fd], [buf], [iters] and [rand_next] *)
Record grind := mk_grind { g_fd : Z; g_buf : list Z; g_iters : Z; g_next : Z }.
Definition set_g_fd (x : Z) (s : grind) : grind := mk_grind x (g_buf s) (g_iters s) (g_next s).
Definition set_g_buf (x : list Z) (s : grind) : grind := mk_grind (g_fd s) x (g_iters s) (g_next s).

(** [close(open(path, O_CREATE | O_RDWR))] *)
Definition grind_touch (path : list Z) : prog unit :=
  fd <- open path RDWR_CREATE ;; close fd ;; Ret tt.
Definition grind_unlink (path : list Z) : prog unit := sys (Unlink path) ;; Ret tt.
Definition grind_mkdir (path : list Z) : prog unit := sys (Mkdir path) ;; Ret tt.
Definition grind_die {A} (msg : list Z) : prog A := printf (msg ++ nl) [] ;; exit 1.

(** [int pid = fork(); if (pid == 0) { child } else if (pid < 0) { ... }]; the
    child exits. *)
Definition grind_fork (child : prog Z) : prog Z :=
  pid <- fork ;;
  if pid =? 0 then child else
  if pid <? 0 then grind_die (lit "grind: fork failed") else Ret pid.

(** what == 16 *)
Definition grind_shrink (break0 : Z) : prog unit :=
  b <- sbrk 0 ;;
  if break0 <? b then b <- sbrk 0 ;; sbrk (i32 (- (b - break0))) ;; Ret tt else Ret tt.

(** what == 17 *)
Definition grind_kill : prog unit :=
  pid <- grind_fork (grind_touch (lit "a") ;; exit 0) ;;
  r <- sys (Chdir (lit "../grindir/..")) ;;
  if negb (r =? 0) then grind_die (lit "grind: chdir failed") else
  kill pid ;;
  wait ;; Ret tt.

(** what == 19 *)
Definition grind_pipe : prog unit :=
  ' (r, fds) <- sys Pipe ;;
  if r <? 0 then grind_die (lit "grind: pipe failed") else
  grind_fork
    (fork ;; fork ;;
     n <- write (snd fds) (lit "x") ;;
     (if negb (n =? 1) then printf (lit "grind: pipe write failed" ++ nl) [] else Ret tt) ;;
     ' (n, _) <- read (fst fds) [0] 0 1 ;;
     (if negb (n =? 1) then printf (lit "grind: pipe read failed" ++ nl) [] else Ret tt) ;;
     exit 0) ;;
  close (fst fds) ;;
  close (snd fds) ;;
  wait ;; Ret tt.

(** what == 20 *)
Definition grind_orphan : prog unit :=
  grind_fork
    (grind_unlink (lit "a") ;;
     grind_mkdir (lit "a") ;;
     sys (Chdir (lit "a")) ;;
     grind_unlink (lit "../a") ;;
     open (lit "x") RDWR_CREATE ;;
     grind_unlink (lit "x") ;;
     exit 0) ;;
  wait ;; Ret tt.

(** what == 21 *)
Definition grind_create : prog unit :=
  grind_unlink (lit "c") ;;
  fd1 <- open (lit "c") RDWR_CREATE ;;
  if fd1 <? 0 then grind_die (lit "grind: create c failed") else
  n <- write fd1 (lit "x") ;;
  if negb (n =? 1) then grind_die (lit "grind: write c failed") else
  ' (r, st) <- sys (Fstat fd1) ;;
  if negb (r =? 0) then grind_die (lit "grind: fstat failed") else
  if negb (st_size st =? 1) then
    printf (lit "grind: fstat reports wrong size %d" ++ nl) [VInt (i32 (st_size st))] ;; exit 1
  else
  if 200 <? st_ino st then
    printf (lit "grind: fstat reports crazy i-number %d" ++ nl) [VInt (st_ino st)] ;; exit 1
  else
  close fd1 ;;
  grind_unlink (lit "c").

(** what == 22: echo hi | cat *)
Definition grind_echo (aa bb : Z * Z) : prog Z :=
  close (fst bb) ;;
  close (snd bb) ;;
  close (fst aa) ;;
  close 1 ;;
  r <- sys (Dup (snd aa)) ;;
  if negb (r =? 1) then fprintf 2 (lit "grind: dup failed" ++ nl) [] ;; exit 1 else
  close (snd aa) ;;
  exec (lit "grindir/../echo") [lit "echo"; lit "hi"] ;;
  fprintf 2 (lit "grind: echo: not found" ++ nl) [] ;;
  exit 2.

Definition grind_cat (aa bb : Z * Z) : prog Z :=
  close (snd aa) ;;
  close (fst bb) ;;
  close 0 ;;
  r <- sys (Dup (fst aa)) ;;
  if negb (r =? 0) then fprintf 2 (lit "grind: dup failed" ++ nl) [] ;; exit 4 else
  close (fst aa) ;;
  close 1 ;;
  r <- sys (Dup (snd bb)) ;;
  if negb (r =? 1) then fprintf 2 (lit "grind: dup failed" ++ nl) [] ;; exit 5 else
  close (snd bb) ;;
  exec (lit "/cat") [lit "cat"] ;;
  fprintf 2 (lit "grind: cat: not found" ++ nl) [] ;;
  exit 6.

(** [wait(&st)] where [st] has no value before *)
Definition wait_status : prog Z :=
  ' (r, st) <- wait ;;
  if r <? 0 then halt (Undefined "wait: status") else Ret st.

Definition grind_pipeline : prog unit :=
  ' (r, aa) <- sys Pipe ;;
  if r <? 0 then fprintf 2 (lit "grind: pipe failed" ++ nl) [] ;; exit 1 else
  ' (r, bb) <- sys Pipe ;;
  if r <? 0 then fprintf 2 (lit "grind: pipe failed" ++ nl) [] ;; exit 1 else
  pid1 <- fork ;;
  if pid1 =? 0 then grind_echo aa bb ;; Ret tt else
  if pid1 <? 0 then fprintf 2 (lit "grind: fork failed" ++ nl) [] ;; exit 3 else
  pid2 <- fork ;;
  if pid2 =? 0 then grind_cat aa bb ;; Ret tt else
  if pid2 <? 0 then fprintf 2 (lit "grind: fork failed" ++ nl) [] ;; exit 7 else
  close (fst aa) ;;
  close (snd aa) ;;
  close (snd bb) ;;
  ' (_, buf) <- read (fst bb) [0; 0; 0; 0] 0 1 ;;
  ' (_, buf) <- read (fst bb) buf 1 1 ;;
  ' (_, buf) <- read (fst bb) buf 2 1 ;;
  close (fst bb) ;;
  st1 <- wait_status ;;
  st2 <- wait_status ;;
  if negb (st1 =? 0) || negb (st2 =? 0) || negb (bool_decide (cstr buf = lit "hi" ++ nl)) then
    printf (lit "grind: exec pipeline failed %d %d " ++ [34] ++ lit "%s" ++ [34] ++ nl) [VInt st1; VInt st2; VStr (Some (cstr buf))] ;;
    exit 1
  else Ret tt.

(** The system calls of one round, for the value of [what]. *)
Definition grind_calls (what break0 : Z) (s : grind) : prog grind :=
  let then_ (m : prog unit) := m ;; Ret s in
  if what =? 1 then then_ (grind_touch (lit "grindir/../a"))
  else if what =? 2 then then_ (grind_touch (lit "grindir/../grindir/../b"))
  else if what =? 3 then then_ (grind_unlink (lit "grindir/../a"))
  else if what =? 4 then then_ (
    r <- sys (Chdir (lit "grindir")) ;;
    if negb (r =? 0) then grind_die (lit "grind: chdir grindir failed") else
    grind_unlink (lit "../b") ;;
    sys (Chdir (lit "/")) ;; Ret tt)
  else if what =? 5 then
    close (g_fd s) ;; fd <- open (lit "/grindir/../a") RDWR_CREATE ;; Ret (set_g_fd fd s)
  else if what =? 6 then
    close (g_fd s) ;; fd <- open (lit "/./grindir/./../b") RDWR_CREATE ;; Ret (set_g_fd fd s)
  else if what =? 7 then then_ (write (g_fd s) (g_buf s) ;; Ret tt)
  else if what =? 8 then
    ' (_, buf) <- read (g_fd s) (g_buf s) 0 999 ;; Ret (set_g_buf buf s)
  else if what =? 9 then then_ (
    grind_mkdir (lit "grindir/../a") ;; grind_touch (lit "a/../a/./a") ;; grind_unlink (lit "a/a"))
  else if what =? 10 then then_ (
    grind_mkdir (lit "/../b") ;; grind_touch (lit "grindir/../b/b") ;; grind_unlink (lit "b/b"))
  else if what =? 11 then then_ (
    grind_unlink (lit "b") ;; sys (Link (lit "../grindir/./../a") (lit "../b")) ;; Ret tt)
  else if what =? 12 then then_ (
    grind_unlink (lit "../grindir/../a") ;; sys (Link (lit ".././b") (lit "/grindir/../a")) ;; Ret tt)
  else if what =? 13 then then_ (grind_fork (exit 0) ;; wait ;; Ret tt)
  else if what =? 14 then then_ (grind_fork (fork ;; fork ;; exit 0) ;; wait ;; Ret tt)
  else if what =? 15 then then_ (sbrk 6011 ;; Ret tt)
  else if what =? 16 then then_ (grind_shrink break0)
  else if what =? 17 then then_ grind_kill
  else if what =? 18 then then_ (grind_fork (p <- sys Getpid ;; kill p ;; exit 0) ;; wait ;; Ret tt)
  else if what =? 19 then then_ grind_pipe
  else if what =? 20 then then_ grind_orphan
  else if what =? 21 then then_ grind_create
  else if what =? 22 then then_ grind_pipeline
  else Ret s.

(** A round of [while (1)] *)
Definition go_body (which_child break0 : Z) (s : grind) : prog (grind + Z) :=
  let iters := u64 (g_iters s + 1) in
  (if iters mod 500 =? 0 then write 1 (if negb (which_child =? 0) then lit "B" else lit "A") ;; Ret tt else Ret tt) ;;
  let '(next, r) := rand (g_next s) in
  let what := Z.rem r 23 in
  s <- grind_calls what break0 (mk_grind (g_fd s) (g_buf s) iters next) ;;
  continue s.

(** [buf] is static and [rand_next] global: the process has them as fork left
    them. *)
Definition go (which_child rand_next : Z) : prog Z :=
  break0 <- sbrk 0 ;;
  grind_mkdir (lit "grindir") ;;
  r <- sys (Chdir (lit "grindir")) ;;
  if negb (r =? 0) then grind_die (lit "grind: chdir grindir failed") else
  sys (Chdir (lit "/")) ;;
  while (go_body which_child break0) (mk_grind (-1) (replicate 999 0) 0 rand_next).

(** [int st = -1; wait(&st);] *)
Definition wait_or : prog Z := ' (r, st) <- wait ;; Ret (if r <? 0 then -1 else st).

Definition iter (rand_next : Z) : prog Z :=
  grind_unlink (lit "a") ;;
  grind_unlink (lit "b") ;;
  pid1 <- fork ;;
  if pid1 <? 0 then grind_die (lit "grind: fork failed") else
  if pid1 =? 0 then go 0 (Z.lxor rand_next 31) ;; exit 0 else
  pid2 <- fork ;;
  if pid2 <? 0 then grind_die (lit "grind: fork failed") else
  if pid2 =? 0 then go 1 (Z.lxor rand_next 7177) ;; exit 0 else
  st1 <- wait_or ;;
  (if negb (st1 =? 0) then kill pid1 ;; kill pid2 ;; Ret tt else Ret tt) ;;
  wait_or ;;
  exit 0.

Definition grind_main_body (rand_next : Z) : prog (Z + Z) :=
  pid <- fork ;;
  if pid =? 0 then iter rand_next ;; exit 0 else
  (if 0 <? pid then wait ;; Ret tt else Ret tt) ;;
  sys (Pause 20) ;;
  continue (u64 (rand_next + 1)).

Definition grind_main : prog Z := while grind_main_body 1.

(** * The generator is the minimal standard generator *)

Definition PM : Z := 2 ^ 31 - 1.

(** The inverse of 7^5 modulo 2^31 - 1. *)
Definition PM_inv : Z := 1407677000.

Lemma PM_inverse x : (PM_inv * (7 ^ 5 * x)) mod PM = x mod PM.
Proof.
  replace (PM_inv * (7 ^ 5 * x)) with (x + (11017 * x) * PM) by (unfold PM_inv, PM; lia).
  apply Z_mod_plus_full.
Qed.

(** The two products stay within 31 bits and their difference is the product
    modulo 2^31 - 1. *)
Lemma schrage x :
  1 <= x < PM ->
  0 <= 16807 * (x mod 127773) < 2 ^ 31 /\ 0 <= 2836 * (x / 127773) < 2 ^ 31 /\
  (let v := 16807 * (x mod 127773) - 2836 * (x / 127773) in if v <? 0 then v + PM else v) = (7 ^ 5 * x) mod PM.
Proof.
  intros Hx. unfold PM in *. pose proof (Z.div_mod x 127773 ltac:(lia)) as E. pose proof (Z.mod_pos_bound x 127773 ltac:(lia)).
  assert (0 <= x / 127773 < 16808) by (split; [apply Z.div_pos; lia|apply Z.div_lt_upper_bound; lia]).
  set (hi := x / 127773) in *. set (lo := x mod 127773) in *. split; [lia|]. split; [lia|]. cbv zeta.
  destruct (Z.ltb_spec (16807 * lo - 2836 * hi) 0).
  - apply (Z.mod_unique _ _ (hi - 1)); lia.
  - apply (Z.mod_unique _ _ hi); lia.
Qed.

Lemma PM_nonzero x : 1 <= x < PM -> 0 < (7 ^ 5 * x) mod PM < PM.
Proof.
  intros Hx. pose proof (Z.mod_pos_bound (7 ^ 5 * x) PM ltac:(done)).
  assert ((7 ^ 5 * x) mod PM <> 0); [|lia]. intros E. pose proof (PM_inverse x) as I.
  rewrite <- Zmult_mod_idemp_r, E, Z.mul_0_r, Zmod_0_l in I. rewrite Z.mod_small in I; lia.
Qed.

Lemma do_rand_eq ctx :
  0 <= ctx < 2 ^ 64 ->
  let x := ctx mod (PM - 1) + 1 in
  do_rand ctx = ((7 ^ 5 * x) mod PM - 1, (7 ^ 5 * x) mod PM - 1) /\ 1 <= x < PM.
Proof.
  intros Hc x. assert (Hx : 1 <= x < PM) by (unfold x, PM; pose proof (Z.mod_pos_bound ctx (2 ^ 31 - 1 - 1) ltac:(lia)); lia).
  split; [|done]. destruct (schrage x Hx) as (_ & _ & E). pose proof (PM_nonzero x Hx) as Hp. unfold do_rand.
  change (ctx mod 0x7ffffffe + 1) with x. unfold PM in Hx.
  replace (i64 (u64 x)) with x by (rewrite wrap_small by lia; unfold swrap; rewrite Z.mod_small; lia).
  rewrite Z.quot_div_nonneg, Z.rem_mod_nonneg by lia. cbv zeta in E |- *. change 0x7fffffff with PM. rewrite E.
  unfold PM in *. rewrite wrap_small by lia. f_equal. unfold swrap. rewrite Z.mod_small; lia.
Qed.

(** C37: whatever the seed, [do_rand] computes the minimal standard generator of Park
    and Miller, shifted to start at 0: with x the seed brought into [1, 2^31 - 2]
    the result is 7^5 x mod (2^31 - 1) - 1, and the two products it subtracts stay
    within 31 bits. On its range [0, 2^31 - 3] it is a permutation: every value has
    exactly one predecessor, so the sequence of [rand] never falls into a loop it
    did not start in. *)
Theorem do_rand_minstd ctx :
  0 <= ctx < 2 ^ 64 ->
  let x := ctx mod (2 ^ 31 - 2) + 1 in
  let r := (7 ^ 5 * x) mod (2 ^ 31 - 1) - 1 in
  do_rand ctx = (r, r) /\ 0 <= r <= 2 ^ 31 - 3 /\
  0 <= 16807 * (x mod 127773) < 2 ^ 31 /\ 0 <= 2836 * (x / 127773) < 2 ^ 31 /\
  exists! c, 0 <= c <= 2 ^ 31 - 3 /\ do_rand c = (r, r).
Proof.
  intros Hc x r. destruct (do_rand_eq ctx Hc) as [E Hx]. change (ctx mod (PM - 1) + 1) with x in E, Hx.
  change (7 ^ 5 * x mod PM - 1) with r in E. pose proof (PM_nonzero x Hx) as Hp. destruct (schrage x Hx) as (B1 & B2 & _).
  change (7 ^ 5 * x mod PM) with (7 ^ 5 * x mod (2 ^ 31 - 1)) in Hp.
  split; [done|]. split; [unfold r, PM in *; lia|]. split; [done|]. split; [done|].
  assert (Hin : forall c, 0 <= c <= 2 ^ 31 - 3 -> do_rand c = ((7 ^ 5 * (c + 1)) mod PM - 1, (7 ^ 5 * (c + 1)) mod PM - 1)).
  { intros c Hcc. destruct (do_rand_eq c ltac:(lia)) as [Ec _]. rewrite (Z.mod_small c) in Ec by (unfold PM; lia). done. }
  exists (x - 1). unfold PM in Hx. split.
  - split; [lia|]. rewrite Hin by lia. by replace (x - 1 + 1) with x by lia.
  - intros c [Hcc Ec]. rewrite Hin in Ec by done. injection Ec as Ec.
    assert (Em : (7 ^ 5 * (c + 1)) mod PM = (7 ^ 5 * x) mod PM) by (change (7 ^ 5 * x mod PM) with (7 ^ 5 * x mod (2 ^ 31 - 1)); unfold r in Ec; lia).
    pose proof (PM_inverse (c + 1)) as I1. pose proof (PM_inverse x) as I2.
    rewrite <- Zmult_mod_idemp_r, Em, Zmult_mod_idemp_r, I2 in I1.
    rewrite (Z.mod_small x), (Z.mod_small (c + 1)) in I1 by (unfold PM; clearbody x; lia). clearbody x. lia.
Qed.

Lemma do_rand_minstd_witness :
  0 <= 1 < 2 ^ 64 /\
  let x := 1 mod (2 ^ 31 - 2) + 1 in
  let r := (7 ^ 5 * x) mod (2 ^ 31 - 1) - 1 in
  do_rand 1 = (r, r) /\ 0 <= r <= 2 ^ 31 - 3 /\
  0 <= 16807 * (x mod 127773) < 2 ^ 31 /\ 0 <= 2836 * (x / 127773) < 2 ^ 31 /\
  exists! c, 0 <= c <= 2 ^ 31 - 3 /\ do_rand c = (r, r).
Proof. split; [lia|]. apply (do_rand_minstd 1). lia. Defined.
