(* ===== verification/UserTests.v ===== *)
(** user/usertests.c: the tests of the system calls and the program that runs them.

    Every test is run in a process of its own, a child of a process that has not
    written to [buf]; so each begins with a [buf] of zeros.  A variable that may be
    without a value when it is read is an [option], and reading it then is
    [Undefined].  A test that passes an address to the kernel that is not that of one
    of its objects, or reads or writes at such an address, does so with the events
    [Raw] of User.v.  The tests copyin and copyout are [ut_copyin] and [ut_copyout].

    What the runner reports is proved in TestRun.v. *)

From S2P Require Import Prelude Types Memory Spinlock Sched Sleeplock Uart Printf Ulib User Programs Umalloc.
From ITree Require Import ITree ITreeFacts Events.State Events.StateFacts.
Local Open Scope Z_scope.
Local Open Scope u_scope.

(** * Common parts *)

Definition ut_BUFSZ : Z := (MAXOPBLOCKS + 2) * BSIZE.
Definition ut_buf : list Z := replicate (Z.to_nat ut_BUFSZ) 0.

Definition str (s : list Z) : vararg := VStr (Some s).
Definition unlink (path : list Z) : prog Z := sys (Unlink path).
Definition mkdir (path : list Z) : prog Z := sys (Mkdir path).
Definition chdir (path : list Z) : prog Z := sys (Chdir path).
Definition link (old new : list Z) : prog Z := sys (Link old new).
Definition pause (n : Z) : prog Z := sys (Pause n).

(** [printf(fmt, ...); exit(1);], with and without a newline at the end of [fmt] *)
Definition die {A} (fmt : list Z) (ap : list vararg) : prog A := printf fmt ap ;; exit 1.
Definition fail {A} (fmt : string) (ap : list vararg) : prog A := die (lit fmt ++ nl) ap.

(** [close(open(path, omode));] *)
Definition close_open (path : list Z) (omode : Z) : prog unit := fd <- open path omode ;; close fd ;; Ret tt.

(** The answer of [read] into an array nobody looks at *)
Definition read_n (fd n : Z) : prog Z := ' (r, _) <- sys (Read fd n) ;; Ret r.

(** [wait(&xstatus)]: a failed [wait] leaves the variable as it is. *)
Definition wait_into (xstatus : option Z) : prog (Z * option Z) :=
  ' (r, st) <- wait ;; Ret (r, if r <? 0 then xstatus else Some st).
Definition value (x : option Z) : prog Z := match x with Some x => Ret x | None => halt (Undefined "xstatus") end.
(** [wait(&xstatus); exit(xstatus);] *)
Definition wait_exit {A} : prog A := ' (_, x) <- wait_into None ;; x <- value x ;; exit x.

(** [for (i = i0; ...; i++)], [n] turns *)
Fixpoint upto (n : nat) (i : Z) (body : Z -> prog unit) : prog unit :=
  match n with O => Ret tt | S n => body i ;; upto n (i + 1) body end.
(** [for (;;);] *)
Definition forever {A} : prog A := while (fun _ : unit => continue tt) tt.
(** [wait(0)] *)
Definition wait0 : prog Z := ' (r, _) <- wait ;; Ret r.

(** * Strings that fill the kernel's buffer *)

Definition copyinstr2_child (fd : Z) : prog unit :=
  let big := replicate (Z.to_nat PGSIZE) 120 in
  ret <- exec (lit "echo") [big; big; big] ;;
  if negb (ret =? -1) then fail "exec(echo, BIG) returned %d, not -1" [VInt fd] else
  exit 747.

Definition copyinstr2 (s : list Z) : prog unit :=
  let b := replicate (Z.to_nat MAXPATH) 120 in
  ret <- unlink b ;;
  if negb (ret =? -1) then fail "unlink(%s) returned %d, not -1" [str b; VInt ret] else
  fd <- open b (Z.lor O_CREATE O_WRONLY) ;;
  if negb (fd =? -1) then fail "open(%s) returned %d, not -1" [str b; VInt fd] else
  ret <- link b b ;;
  if negb (ret =? -1) then fail "link(%s, %s) returned %d, not -1" [str b; str b; VInt ret] else
  ret <- exec b [lit "xx"] ;;
  if negb (ret =? -1) then fail "exec(%s) returned %d, not -1" [str b; VInt fd] else
  pid <- fork ;;
  if pid <? 0 then fail "fork failed" [] else
  if pid =? 0 then copyinstr2_child fd else
  ' (_, st) <- wait_into (Some 0) ;;
  st <- value st ;;
  if negb (st =? 747) then fail "exec(echo, BIG) succeeded, should have failed" [] else
  Ret tt.

(** * O_TRUNC *)

Definition truncfile : list Z := lit "truncfile".

Definition truncate1 (s : list Z) : prog unit :=
  unlink truncfile ;;
  fd1 <- open truncfile (Z.lor (Z.lor O_CREATE O_WRONLY) O_TRUNC) ;;
  write fd1 (lit "abcd") ;;
  close fd1 ;;
  fd2 <- open truncfile O_RDONLY ;;
  n <- read_n fd2 32 ;;
  if negb (n =? 4) then fail "%s: read %d bytes, wanted 4" [str s; VInt n] else
  fd1 <- open truncfile (Z.lor O_WRONLY O_TRUNC) ;;
  fd3 <- open truncfile O_RDONLY ;;
  n <- read_n fd3 32 ;;
  if negb (n =? 0) then
    printf (lit "aaa fd3=%d" ++ nl) [VInt fd3] ;;
    fail "%s: read %d bytes, wanted 0" [str s; VInt n]
  else
  n <- read_n fd2 32 ;;
  if negb (n =? 0) then
    printf (lit "bbb fd2=%d" ++ nl) [VInt fd2] ;;
    fail "%s: read %d bytes, wanted 0" [str s; VInt n]
  else
  write fd1 (lit "abcdef") ;;
  n <- read_n fd3 32 ;;
  if negb (n =? 6) then fail "%s: read %d bytes, wanted 6" [str s; VInt n] else
  n <- read_n fd2 32 ;;
  if negb (n =? 2) then fail "%s: read %d bytes, wanted 2" [str s; VInt n] else
  unlink truncfile ;;
  close fd1 ;;
  close fd2 ;;
  close fd3 ;;
  Ret tt.

Definition truncate2 (s : list Z) : prog unit :=
  unlink truncfile ;;
  fd1 <- open truncfile (Z.lor (Z.lor O_CREATE O_TRUNC) O_WRONLY) ;;
  write fd1 (lit "abcd") ;;
  fd2 <- open truncfile (Z.lor O_TRUNC O_WRONLY) ;;
  n <- write fd1 (lit "x") ;;
  if negb (n =? -1) then fail "%s: write returned %d, expected -1" [str s; VInt n] else
  unlink truncfile ;;
  close fd1 ;;
  close fd2 ;;
  Ret tt.

Definition truncate3_child (s : list Z) : prog unit :=
  upto 100 0 (fun _ =>
    fd <- open truncfile O_WRONLY ;;
    if fd <? 0 then fail "%s: open failed" [str s] else
    n <- write fd (lit "1234567890") ;;
    if negb (n =? 10) then fail "%s: write got %d, expected 10" [str s; VInt n] else
    close fd ;;
    fd <- open truncfile O_RDONLY ;;
    read_n fd 32 ;;
    close fd ;;
    Ret tt) ;;
  exit 0.

Definition truncate3 (s : list Z) : prog unit :=
  close_open truncfile (Z.lor (Z.lor O_CREATE O_TRUNC) O_WRONLY) ;;
  pid <- fork ;;
  if pid <? 0 then fail "%s: fork failed" [str s] else
  if pid =? 0 then truncate3_child s else
  upto 150 0 (fun _ =>
    fd <- open truncfile (Z.lor (Z.lor O_CREATE O_WRONLY) O_TRUNC) ;;
    if fd <? 0 then fail "%s: open failed" [str s] else
    n <- write fd (lit "xxx") ;;
    if negb (n =? 3) then fail "%s: write got %d, expected 3" [str s; VInt n] else
    close fd ;;
    Ret tt) ;;
  ' (_, xstatus) <- wait_into None ;;
  unlink truncfile ;;
  x <- value xstatus ;;
  exit x.

(** * Directories and simple files *)

Definition iputtest (s : list Z) : prog unit :=
  r <- mkdir (lit "iputdir") ;;
  if r <? 0 then fail "%s: mkdir failed" [str s] else
  r <- chdir (lit "iputdir") ;;
  if r <? 0 then fail "%s: chdir iputdir failed" [str s] else
  r <- unlink (lit "../iputdir") ;;
  if r <? 0 then fail "%s: unlink ../iputdir failed" [str s] else
  r <- chdir (lit "/") ;;
  if r <? 0 then fail "%s: chdir / failed" [str s] else
  Ret tt.

Definition exitiputtest (s : list Z) : prog unit :=
  pid <- fork ;;
  if pid <? 0 then fail "%s: fork failed" [str s] else
  if pid =? 0 then
    r <- mkdir (lit "iputdir") ;;
    if r <? 0 then fail "%s: mkdir failed" [str s] else
    r <- chdir (lit "iputdir") ;;
    if r <? 0 then fail "%s: child chdir failed" [str s] else
    r <- unlink (lit "../iputdir") ;;
    if r <? 0 then fail "%s: unlink ../iputdir failed" [str s] else
    exit 0
  else wait_exit.

Definition openiputtest (s : list Z) : prog unit :=
  r <- mkdir (lit "oidir") ;;
  if r <? 0 then fail "%s: mkdir oidir failed" [str s] else
  pid <- fork ;;
  if pid <? 0 then fail "%s: fork failed" [str s] else
  if pid =? 0 then
    fd <- open (lit "oidir") O_RDWR ;;
    if 0 <=? fd then fail "%s: open directory for write succeeded" [str s] else
    exit 0
  else
  pause 1 ;;
  r <- unlink (lit "oidir") ;;
  if negb (r =? 0) then fail "%s: unlink failed" [str s] else
  wait_exit.

Definition opentest (s : list Z) : prog unit :=
  fd <- open (lit "echo") 0 ;;
  if fd <? 0 then fail "%s: open echo failed!" [str s] else
  close fd ;;
  fd <- open (lit "doesnotexist") 0 ;;
  if 0 <=? fd then fail "%s: open doesnotexist succeeded!" [str s] else
  Ret tt.

Definition writetest (s : list Z) : prog unit :=
  fd <- open (lit "small") (Z.lor O_CREATE O_RDWR) ;;
  if fd <? 0 then fail "%s: error: creat small failed!" [str s] else
  upto 100 0 (fun i =>
    r <- write fd (lit "aaaaaaaaaa") ;;
    if negb (r =? 10) then fail "%s: error: write aa %d new file failed" [str s; VInt i] else
    r <- write fd (lit "bbbbbbbbbb") ;;
    if negb (r =? 10) then fail "%s: error: write bb %d new file failed" [str s; VInt i] else
    Ret tt) ;;
  close fd ;;
  fd <- open (lit "small") O_RDONLY ;;
  if fd <? 0 then fail "%s: error: open small failed!" [str s] else
  i <- read_n fd (100 * 10 * 2) ;;
  if negb (i =? 100 * 10 * 2) then fail "%s: read failed" [str s] else
  close fd ;;
  r <- unlink (lit "small") ;;
  if r <? 0 then fail "%s: unlink small failed" [str s] else
  Ret tt.

(** [for (i = 0; i < MAXFILE; i++)], [k] turns to go *)
Fixpoint writebig_write (k : nat) (i : Z) (s : list Z) (fd : Z) (buf : list Z) : prog (list Z) :=
  match k with
  | O => Ret buf
  | S k =>
      let buf := put_buf buf 0 (le_enc 4 i) in
      r <- write_buf fd buf BSIZE ;;
      if negb (r =? BSIZE) then fail "%s: error: write big file failed i=%d" [str s; VInt i] else
      writebig_write k (i + 1) s fd buf
  end.

Definition writebig_read (s : list Z) (fd : Z) (st : list Z * Z) : prog ((list Z * Z) + unit) :=
  let '(buf, n) := st in
  ' (i, buf) <- read fd buf 0 BSIZE ;;
  if i =? 0 then
    if negb (n =? MAXFILE) then die (lit "%s: read only %d blocks from big") [str s; VInt n] else
    break tt
  else if negb (i =? BSIZE) then fail "%s: read failed %d" [str s; VInt i]
  else
  let v := i32 (le_dec (take 4 buf)) in
  if negb (v =? n) then fail "%s: read content of block %d is %d" [str s; VInt n; VInt v] else
  continue (buf, n + 1).

Definition writebig (s : list Z) : prog unit :=
  fd <- open (lit "big") (Z.lor O_CREATE O_RDWR) ;;
  if fd <? 0 then fail "%s: error: creat big failed!" [str s] else
  buf <- writebig_write (Z.to_nat MAXFILE) 0 s fd ut_buf ;;
  close fd ;;
  fd <- open (lit "big") O_RDONLY ;;
  if fd <? 0 then fail "%s: error: open big failed!" [str s] else
  while (writebig_read s fd) (buf, 0) ;;
  close fd ;;
  r <- unlink (lit "big") ;;
  if r <? 0 then fail "%s: unlink big failed" [str s] else
  Ret tt.

Definition createtest (s : list Z) : prog unit :=
  upto 52 0 (fun i =>
    fd <- open [97; 48 + i] (Z.lor O_CREATE O_RDWR) ;;
    close fd ;;
    Ret tt) ;;
  upto 52 0 (fun i => unlink [97; 48 + i] ;; Ret tt).

Definition dirtest (s : list Z) : prog unit :=
  r <- mkdir (lit "dir0") ;;
  if r <? 0 then fail "%s: mkdir failed" [str s] else
  r <- chdir (lit "dir0") ;;
  if r <? 0 then fail "%s: chdir dir0 failed" [str s] else
  r <- chdir (lit "..") ;;
  if r <? 0 then fail "%s: chdir .. failed" [str s] else
  r <- unlink (lit "dir0") ;;
  if r <? 0 then fail "%s: unlink dir0 failed" [str s] else
  Ret tt.

(** * Processes and pipes *)

(** The child; [exec] comes back only with a negative number, else it goes on like
    the parent. *)
Definition exectest_child (s : list Z) : prog unit :=
  errfd <- sys (Dup 1) ;;
  if errfd <? 0 then fail "%s: dup failed" [str s] else
  close 1 ;;
  fd <- open (lit "echo-ok") (Z.lor O_CREATE O_WRONLY) ;;
  if fd <? 0 then fprintf errfd (lit "%s: create failed" ++ nl) [str s] ;; exit 1 else
  if negb (fd =? 1) then fprintf errfd (lit "%s: wrong fd" ++ nl) [str s] ;; exit 1 else
  r <- exec (lit "echo") [lit "echo"; lit "OK"] ;;
  if r <? 0 then fprintf errfd (lit "%s: exec echo failed" ++ nl) [str s] ;; exit 1 else
  Ret tt.

Definition exectest (s : list Z) : prog unit :=
  unlink (lit "echo-ok") ;;
  pid <- fork ;;
  if pid <? 0 then fail "%s: fork failed" [str s] else
  (if pid =? 0 then exectest_child s else Ret tt) ;;
  ' (r, xstatus) <- wait_into None ;;
  (if negb (r =? pid) then printf (lit "%s: wait failed!" ++ nl) [str s] else Ret tt) ;;
  x <- value xstatus ;;
  if negb (x =? 0) then fail "%s: nonzero wait status %d" [str s; VInt x] else
  fd <- open (lit "echo-ok") O_RDONLY ;;
  if fd <? 0 then fail "%s: open failed" [str s] else
  ' (r, buf) <- read fd (replicate 3 0) 0 2 ;;
  if negb (r =? 2) then fail "%s: read failed" [str s] else
  unlink (lit "echo-ok") ;;
  if (nth 0 buf 0 =? 79) && (nth 1 buf 0 =? 75) then exit 0
  else fail "%s: wrong output" [str s].

(** [for (i = 0; i < SZ; i++) buf[i] = seq++;] *)
Fixpoint pipe1_bytes (k : nat) (seq : Z) : list Z :=
  match k with O => [] | S k => u8 seq :: pipe1_bytes k (seq + 1) end.
Definition pipe1_SZ : nat := 1033.

(** [for (n = 0; n < N; n++)], [k] turns to go *)
Fixpoint pipe1_write (k : nat) (s : list Z) (fd : Z) (seq : Z) (buf : list Z) : prog unit :=
  match k with
  | O => exit 0
  | S k =>
      let buf := put_buf buf 0 (pipe1_bytes pipe1_SZ seq) in
      r <- write_buf fd buf (Z.of_nat pipe1_SZ) ;;
      if negb (r =? Z.of_nat pipe1_SZ) then fail "%s: pipe1 oops 1" [str s] else
      pipe1_write k s fd (seq + Z.of_nat pipe1_SZ) buf
  end.

Record pipe1_state := mk_pipe1 { p1_buf : list Z; p1_cc : Z; p1_seq : Z; p1_total : Z }.

(** [while ((n = read(fds[0], buf, cc)) > 0)]; [None] when the function returns early *)
Definition pipe1_read (s : list Z) (fd : Z) (st : pipe1_state) : prog (pipe1_state + option Z) :=
  ' (n, buf) <- read fd (p1_buf st) 0 (p1_cc st) ;;
  if 0 <? n then
    let got := take (Z.to_nat n) buf in
    if bool_decide (got = pipe1_bytes (length got) (p1_seq st)) then
      let cc := p1_cc st * 2 in
      continue (mk_pipe1 buf (if ut_BUFSZ <? cc then ut_BUFSZ else cc) (p1_seq st + n) (p1_total st + n))
    else printf (lit "%s: pipe1 oops 2" ++ nl) [str s] ;; break None
  else break (Some (p1_total st)).

Definition pipe1 (s : list Z) : prog unit :=
  ' (r, (fd0, fd1)) <- sys Pipe ;;
  if negb (r =? 0) then fail "%s: pipe() failed" [str s] else
  pid <- fork ;;
  if pid =? 0 then
    close fd0 ;;
    pipe1_write 5 s fd1 0 ut_buf
  else if 0 <? pid then
    close fd1 ;;
    total <- while (pipe1_read s fd0) (mk_pipe1 ut_buf 1 0 0) ;;
    match total with
    | None => Ret tt
    | Some total =>
        if negb (total =? 5 * Z.of_nat pipe1_SZ) then fail "%s: pipe1 oops 3 total %d" [str s; VInt total] else
        close fd0 ;;
        wait_exit
    end
  else fail "%s: fork() failed" [str s].

(** [for (int i = 0; i < 100; i++)], [k] turns to go; [xst] keeps its value from turn
    to turn. *)
Fixpoint killstatus_loop (k : nat) (s : list Z) (xst : option Z) : prog unit :=
  match k with
  | O => exit 0
  | S k =>
      pid1 <- fork ;;
      if pid1 <? 0 then fail "%s: fork failed" [str s] else
      if pid1 =? 0 then while (fun _ : unit => sys Getpid ;; continue tt) tt else
      pause 1 ;;
      kill pid1 ;;
      ' (_, xst) <- wait_into xst ;;
      x <- value xst ;;
      if negb (x =? -1) then fail "%s: status should be -1" [str s] else
      killstatus_loop k s xst
  end.
Definition killstatus (s : list Z) : prog unit := killstatus_loop 100 s None.

(** From [pipe(pfds)] on; a failed [pipe] leaves [pfds] without a value. *)
Definition preempt_pipe (s : list Z) (pid1 pid2 : Z) : prog unit :=
  ' (r, pfds) <- sys Pipe ;;
  pid3 <- fork ;;
  if pid3 <? 0 then fail "%s: fork failed" [str s] else
  if r <? 0 then halt (Undefined "pfds") else
  let '(fd0, fd1) := pfds in
  if pid3 =? 0 then
    close fd0 ;;
    r <- write fd1 (lit "x") ;;
    (if negb (r =? 1) then printf (lit "%s: preempt write error") [str s] else Ret tt) ;;
    close fd1 ;;
    forever
  else
  close fd1 ;;
  n <- read_n fd0 ut_BUFSZ ;;
  if negb (n =? 1) then printf (lit "%s: preempt read error") [str s] else
  close fd0 ;;
  printf (lit "kill... ") [] ;;
  kill pid1 ;;
  kill pid2 ;;
  kill pid3 ;;
  printf (lit "wait... ") [] ;;
  wait0 ;;
  wait0 ;;
  wait0 ;;
  Ret tt.

Definition preempt (s : list Z) : prog unit :=
  pid1 <- fork ;;
  if pid1 <? 0 then die (lit "%s: fork failed") [str s] else
  if pid1 =? 0 then forever else
  pid2 <- fork ;;
  if pid2 <? 0 then fail "%s: fork failed" [str s] else
  if pid2 =? 0 then forever else
  preempt_pipe s pid1 pid2.

Definition exitwait (s : list Z) : prog unit :=
  upto 100 0 (fun i =>
    pid <- fork ;;
    if pid <? 0 then fail "%s: fork failed" [str s] else
    if negb (pid =? 0) then
      ' (r, xstate) <- wait_into None ;;
      if negb (r =? pid) then fail "%s: wait wrong pid" [str s] else
      x <- value xstate ;;
      if negb (i =? x) then fail "%s: wait wrong exit status" [str s] else
      Ret tt
    else exit i).

Definition reparent (s : list Z) : prog unit :=
  master_pid <- sys Getpid ;;
  upto 200 0 (fun _ =>
    pid <- fork ;;
    if pid <? 0 then fail "%s: fork failed" [str s] else
    if negb (pid =? 0) then
      r <- wait0 ;;
      if negb (r =? pid) then fail "%s: wait wrong pid" [str s] else Ret tt
    else
      pid2 <- fork ;;
      if pid2 <? 0 then kill master_pid ;; exit 1 else
      exit 0) ;;
  exit 0.

Definition twochildren (s : list Z) : prog unit :=
  upto 1000 0 (fun _ =>
    pid1 <- fork ;;
    if pid1 <? 0 then fail "%s: fork failed" [str s] else
    if pid1 =? 0 then exit 0 else
    pid2 <- fork ;;
    if pid2 <? 0 then fail "%s: fork failed" [str s] else
    if pid2 =? 0 then exit 0 else
    wait0 ;;
    wait0 ;;
    Ret tt).

(** [for (...; i++) { wait(&xstatus); if (xstatus != 0) ... }], [k] turns to go *)
Fixpoint wait_all (k : nat) (xstatus : option Z) (bad : Z -> prog unit) : prog unit :=
  match k with
  | O => Ret tt
  | S k =>
      ' (_, xstatus) <- wait_into xstatus ;;
      x <- value xstatus ;;
      if negb (x =? 0) then bad x else wait_all k xstatus bad
  end.

Definition forkfork (s : list Z) : prog unit :=
  upto 2 0 (fun _ =>
    pid <- fork ;;
    if pid <? 0 then die (lit "%s: fork failed") [str s] else
    if pid =? 0 then
      upto 200 0 (fun _ =>
        pid1 <- fork ;;
        if pid1 <? 0 then exit 1 else
        if pid1 =? 0 then exit 0 else
        wait0 ;;
        Ret tt) ;;
      exit 0
    else Ret tt) ;;
  wait_all 2 None (fun _ => die (lit "%s: fork in child failed") [str s]).

Definition stopforking : list Z := lit "stopforking".

Definition forkforkfork (s : list Z) : prog unit :=
  unlink stopforking ;;
  pid <- fork ;;
  if pid <? 0 then die (lit "%s: fork failed") [str s] else
  if pid =? 0 then
    while (fun _ : unit =>
      fd <- open stopforking 0 ;;
      if 0 <=? fd then exit 0 else
      r <- fork ;;
      (if r <? 0 then close_open stopforking (Z.lor O_CREATE O_RDWR) else Ret tt) ;;
      continue tt) tt
  else
  pause 20 ;;
  close_open stopforking (Z.lor O_CREATE O_RDWR) ;;
  wait0 ;;
  pause 10 ;;
  Ret tt.

Definition reparent2 (s : list Z) : prog unit :=
  upto 800 0 (fun _ =>
    pid1 <- fork ;;
    if pid1 <? 0 then fail "fork failed" [] else
    if pid1 =? 0 then fork ;; fork ;; exit 0 else
    wait0 ;;
    Ret tt) ;;
  exit 0.

(** [mem]: the blocks are a list linked through their first word, [links].  The heap
    is as it was when the program was loaded, [&base] an address of its data. *)
Definition mem_alloc (base : Z) (st : heap * gmap Z Z * Z) : prog (heap * gmap Z Z * Z + heap * gmap Z Z * Z) :=
  let '(h, links, m1) := st in
  ' (h, m2) <- malloc base 10001 h ;;
  if negb (m2 =? 0) then continue (h, <[m2 := m1]> links, m2) else break (h, links, m1).
Definition mem_free (links : gmap Z Z) (st : heap * Z) : prog (heap * Z + heap) :=
  let '(h, m1) := st in
  if m1 =? 0 then break h else
  match links !! m1 with
  | Some m2 => h <- free m1 h ;; continue (h, m2)
  | None => halt (Undefined "mem: m1")
  end.

Definition mem (base : Z) (s : list Z) : prog unit :=
  pid <- fork ;;
  if pid =? 0 then
    r <- while (mem_alloc base) (heap0, ∅, 0) ;;
    let '(h, links, m1) := r in
    h <- while (mem_free links) (h, m1) ;;
    ' (h, m1) <- malloc base (1024 * 20) h ;;
    if m1 =? 0 then fail "%s: couldn't allocate mem?!!" [str s] else
    free m1 h ;;
    exit 0
  else
  ' (_, xstatus) <- wait_into None ;;
  x <- value xstatus ;;
  if x =? -1 then exit 0 else exit x.

(** * More file system tests *)

Definition sharedfd_name : list Z := lit "sharedfd".
Definition sharedfd_N : nat := 1000.

(** [while ((n = read(fd, buf, sizeof(buf))) > 0)]; [nc] and [np] count the bytes of
    the whole array. *)
Definition sharedfd_read (fd : Z) (st : list Z * Z * Z) : prog (list Z * Z * Z + Z * Z) :=
  let '(buf, nc, np) := st in
  ' (n, buf) <- read fd buf 0 10 ;;
  if 0 <? n then
    continue (buf, nc + Z.of_nat (count_occ Z.eq_dec buf 99), np + Z.of_nat (count_occ Z.eq_dec buf 112))
  else break (nc, np).

Definition sharedfd (s : list Z) : prog unit :=
  unlink sharedfd_name ;;
  fd <- open sharedfd_name (Z.lor O_CREATE O_RDWR) ;;
  if fd <? 0 then die (lit "%s: cannot open sharedfd for writing") [str s] else
  pid <- fork ;;
  let buf := replicate 10 (if pid =? 0 then 99 else 112) in
  upto sharedfd_N 0 (fun _ =>
    r <- write fd buf ;;
    if negb (r =? 10) then fail "%s: write sharedfd failed" [str s] else Ret tt) ;;
  if pid =? 0 then exit 0 else
  wait_all 1 None (fun x => exit x) ;;
  close fd ;;
  fd <- open sharedfd_name 0 ;;
  if fd <? 0 then fail "%s: cannot open sharedfd for reading" [str s] else
  ' (nc, np) <- while (sharedfd_read fd) (buf, 0, 0) ;;
  close fd ;;
  unlink sharedfd_name ;;
  if (nc =? Z.of_nat sharedfd_N * 10) && (np =? Z.of_nat sharedfd_N * 10) then exit 0
  else fail "%s: nc/np test fails" [str s].

Definition fourfiles_child (pi : Z) (fname s : list Z) : prog unit :=
  fd <- open fname (Z.lor O_CREATE O_RDWR) ;;
  if fd <? 0 then fail "%s: create failed" [str s] else
  buf <- memset_buf ut_buf (48 + pi) 500 ;;
  upto 12 0 (fun _ =>
    n <- write_buf fd buf 500 ;;
    if negb (n =? 500) then fail "write failed %d" [VInt n] else Ret tt) ;;
  exit 0.

Definition fourfiles_read (i : Z) (s : list Z) (fd : Z) (st : list Z * Z) : prog (list Z * Z + list Z * Z) :=
  let '(buf, total) := st in
  ' (n, buf) <- read fd buf 0 ut_BUFSZ ;;
  if 0 <? n then
    if forallb (fun b => b =? 48 + i) (take (Z.to_nat n) buf) then continue (buf, total + n)
    else fail "%s: wrong char" [str s]
  else break (buf, total).

(** [for (i = 0; i < NCHILD; i++)], from the name of the [i]th file on *)
Fixpoint fourfiles_check (names : list (list Z)) (i : Z) (s buf : list Z) : prog unit :=
  match names with
  | [] => Ret tt
  | fname :: names =>
      fd <- open fname 0 ;;
      ' (buf, total) <- while (fourfiles_read i s fd) (buf, 0) ;;
      close fd ;;
      if negb (total =? 12 * 500) then fail "wrong length %d" [VInt total] else
      unlink fname ;;
      fourfiles_check names (i + 1) s buf
  end.

Definition fourfiles (s : list Z) : prog unit :=
  let names := [lit "f0"; lit "f1"; lit "f2"; lit "f3"] in
  upto 4 0 (fun pi =>
    let fname := nth (Z.to_nat pi) names [] in
    unlink fname ;;
    pid <- fork ;;
    if pid <? 0 then fail "%s: fork failed" [str s] else
    if pid =? 0 then fourfiles_child pi fname s else Ret tt) ;;
  wait_all 4 None (fun x => exit x) ;;
  fourfiles_check names 0 s ut_buf.

(** [name] *)
Definition cd_name (pi i : Z) : list Z := [112 + pi; 48 + i].

Definition createdelete_child (pi : Z) (s : list Z) : prog unit :=
  upto 20 0 (fun i =>
    fd <- open (cd_name pi i) (Z.lor O_CREATE O_RDWR) ;;
    if fd <? 0 then fail "%s: create failed" [str s] else
    close fd ;;
    if (0 <? i) && (i mod 2 =? 0) then
      r <- unlink (cd_name pi (i / 2)) ;;
      if r <? 0 then fail "%s: unlink failed" [str s] else Ret tt
    else Ret tt) ;;
  exit 0.

Definition createdelete_check (s : list Z) (i pi : Z) : prog unit :=
  let name := cd_name pi i in
  fd <- open name 0 ;;
  if ((i =? 0) || (20 / 2 <=? i)) && (fd <? 0) then
    fail "%s: oops createdelete %s didn't exist" [str s; str name]
  else if ((1 <=? i) && (i <? 20 / 2)) && (0 <=? fd) then
    fail "%s: oops createdelete %s did exist" [str s; str name]
  else if 0 <=? fd then close fd ;; Ret tt else Ret tt.

Definition createdelete (s : list Z) : prog unit :=
  upto 4 0 (fun pi =>
    pid <- fork ;;
    if pid <? 0 then fail "%s: fork failed" [str s] else
    if pid =? 0 then createdelete_child pi s else Ret tt) ;;
  wait_all 4 None (fun _ => exit 1) ;;
  upto 20 0 (fun i => upto 4 0 (createdelete_check s i)) ;;
  upto 20 0 (fun i => upto 4 0 (fun pi => unlink (cd_name pi i) ;; Ret tt)).

Definition unlinkread_name : list Z := lit "unlinkread".

Definition unlinkread (s : list Z) : prog unit :=
  fd <- open unlinkread_name (Z.lor O_CREATE O_RDWR) ;;
  if fd <? 0 then fail "%s: create unlinkread failed" [str s] else
  write fd (lit "hello") ;;
  close fd ;;
  fd <- open unlinkread_name O_RDWR ;;
  if fd <? 0 then fail "%s: open unlinkread failed" [str s] else
  r <- unlink unlinkread_name ;;
  if negb (r =? 0) then fail "%s: unlink unlinkread failed" [str s] else
  fd1 <- open unlinkread_name (Z.lor O_CREATE O_RDWR) ;;
  write fd1 (lit "yyy") ;;
  close fd1 ;;
  ' (n, buf) <- read fd ut_buf 0 ut_BUFSZ ;;
  if negb (n =? 5) then die (lit "%s: unlinkread read failed") [str s] else
  if negb (nth 0 buf 0 =? 104) then fail "%s: unlinkread wrong data" [str s] else
  r <- write_buf fd buf 10 ;;
  if negb (r =? 10) then fail "%s: unlinkread write failed" [str s] else
  close fd ;;
  unlink unlinkread_name ;;
  Ret tt.

Definition linktest (s : list Z) : prog unit :=
  unlink (lit "lf1") ;;
  unlink (lit "lf2") ;;
  fd <- open (lit "lf1") (Z.lor O_CREATE O_RDWR) ;;
  if fd <? 0 then fail "%s: create lf1 failed" [str s] else
  r <- write fd (lit "hello") ;;
  if negb (r =? 5) then fail "%s: write lf1 failed" [str s] else
  close fd ;;
  r <- link (lit "lf1") (lit "lf2") ;;
  if r <? 0 then fail "%s: link lf1 lf2 failed" [str s] else
  unlink (lit "lf1") ;;
  r <- open (lit "lf1") 0 ;;
  if 0 <=? r then fail "%s: unlinked lf1 but it is still there!" [str s] else
  fd <- open (lit "lf2") 0 ;;
  if fd <? 0 then fail "%s: open lf2 failed" [str s] else
  n <- read_n fd ut_BUFSZ ;;
  if negb (n =? 5) then fail "%s: read lf2 failed" [str s] else
  close fd ;;
  r <- link (lit "lf2") (lit "lf2") ;;
  if 0 <=? r then fail "%s: link lf2 lf2 succeeded! oops" [str s] else
  unlink (lit "lf2") ;;
  r <- link (lit "lf2") (lit "lf1") ;;
  if 0 <=? r then fail "%s: link non-existent succeeded! oops" [str s] else
  r <- link (lit ".") (lit "lf1") ;;
  if 0 <=? r then fail "%s: link . lf1 succeeded! oops" [str s] else
  Ret tt.

(** [file] *)
Definition C_name (i : Z) : list Z := [67; 48 + i].

Definition concreate_create (s : list Z) (i : Z) : prog unit :=
  let file := C_name i in
  unlink file ;;
  pid <- fork ;;
  (if negb (pid =? 0) && (i mod 3 =? 1) then link (lit "C0") file ;; Ret tt
   else if (pid =? 0) && (i mod 5 =? 1) then link (lit "C0") file ;; Ret tt
   else
     fd <- open file (Z.lor O_CREATE O_RDWR) ;;
     if fd <? 0 then fail "concreate create %s failed" [str file] else
     close fd ;;
     Ret tt) ;;
  if pid =? 0 then exit 0 else
  wait_all 1 None (fun _ => exit 1).

(** [while (read(fd, &de, sizeof(de)) > 0)]; [de] is 2 bytes of [inum] and [name]. *)
Definition concreate_entry (s : list Z) (fd : Z) (st : list Z * list Z * Z) : prog (list Z * list Z * Z + Z) :=
  let '(de, fa, n) := st in
  ' (r, de) <- read fd de 0 16 ;;
  if negb (0 <? r) then break n else
  let name := drop 2 de in
  if le_dec (take 2 de) =? 0 then continue (de, fa, n)
  else if (nth 0 name 0 =? 67) && (nth 2 name 0 =? 0) then
    let i := nth 1 name 0 - 48 in
    if (i <? 0) || (40 <=? i) then fail "%s: concreate weird file %s" [str s; str (cstr name)] else
    if negb (nth (Z.to_nat i) fa 0 =? 0) then fail "%s: concreate duplicate file %s" [str s; str (cstr name)] else
    continue (de, <[Z.to_nat i := 1]> fa, n + 1)
  else continue (de, fa, n).

Definition concreate_churn (s : list Z) (i : Z) : prog unit :=
  let file := C_name i in
  pid <- fork ;;
  if pid <? 0 then fail "%s: fork failed" [str s] else
  (if ((i mod 3 =? 0) && (pid =? 0)) || ((i mod 3 =? 1) && negb (pid =? 0)) then
     upto 6 0 (fun _ => close_open file 0)
   else upto 6 0 (fun _ => unlink file ;; Ret tt)) ;;
  if pid =? 0 then exit 0 else wait0 ;; Ret tt.

Definition concreate (s : list Z) : prog unit :=
  upto 40 0 (concreate_create s) ;;
  fd <- open (lit ".") 0 ;;
  n <- while (concreate_entry s fd) (replicate 16 0, replicate 40 0, 0) ;;
  close fd ;;
  if negb (n =? 40) then fail "%s: concreate not enough files in directory listing" [str s] else
  upto 40 0 (concreate_churn s).

Fixpoint linkunlink_loop (k : nat) (x : Z) : prog unit :=
  match k with
  | O => Ret tt
  | S k =>
      let x := u32 (x * 1103515245 + 12345) in
      (if x mod 3 =? 0 then close_open (lit "x") (Z.lor O_RDWR O_CREATE)
       else if x mod 3 =? 1 then link (lit "cat") (lit "x") ;; Ret tt
       else unlink (lit "x") ;; Ret tt) ;;
      linkunlink_loop k x
  end.

Definition linkunlink (s : list Z) : prog unit :=
  unlink (lit "x") ;;
  pid <- fork ;;
  if pid <? 0 then fail "%s: fork failed" [str s] else
  linkunlink_loop 100 (if negb (pid =? 0) then 1 else 97) ;;
  if negb (pid =? 0) then wait0 ;; Ret tt else exit 0.

(** The checks of [subdir]: a call that must return 0, a call that must not, and an
    [open] that must fail. *)
Definition must (c : prog Z) (fmt : string) (s : list Z) : prog unit :=
  r <- c ;; if negb (r =? 0) then fail fmt [str s] else Ret tt.
Definition must_not (c : prog Z) (fmt : string) (s : list Z) : prog unit :=
  r <- c ;; if r =? 0 then fail fmt [str s] else Ret tt.
Definition must_not_open (path : list Z) (omode : Z) (fmt : string) (s : list Z) : prog unit :=
  r <- open path omode ;; if 0 <=? r then fail fmt [str s] else Ret tt.
Definition at_least_0 (c : prog Z) (fmt : string) (s : list Z) : prog unit :=
  r <- c ;; if r <? 0 then fail fmt [str s] else Ret tt.

Definition subdir_setup (s : list Z) : prog unit :=
  unlink (lit "ff") ;;
  must (mkdir (lit "dd")) "%s: mkdir dd failed" s ;;
  fd <- open (lit "dd/ff") (Z.lor O_CREATE O_RDWR) ;;
  if fd <? 0 then fail "%s: create dd/ff failed" [str s] else
  write fd (lit "ff") ;;
  close fd ;;
  r <- unlink (lit "dd") ;;
  if 0 <=? r then fail "%s: unlink dd (non-empty dir) succeeded!" [str s] else
  must (mkdir (lit "/dd/dd")) "%s: subdir mkdir dd/dd failed" s ;;
  fd <- open (lit "dd/dd/ff") (Z.lor O_CREATE O_RDWR) ;;
  if fd <? 0 then fail "%s: create dd/dd/ff failed" [str s] else
  write fd (lit "FF") ;;
  close fd ;;
  fd <- open (lit "dd/dd/../ff") 0 ;;
  if fd <? 0 then fail "%s: open dd/dd/../ff failed" [str s] else
  ' (cc, buf) <- read fd ut_buf 0 ut_BUFSZ ;;
  if negb (cc =? 2) || negb (nth 0 buf 0 =? 102) then fail "%s: dd/dd/../ff wrong content" [str s] else
  close fd ;;
  must (link (lit "dd/dd/ff") (lit "dd/dd/ffff")) "%s: link dd/dd/ff dd/dd/ffff failed" s ;;
  must (unlink (lit "dd/dd/ff")) "%s: unlink dd/dd/ff failed" s ;;
  must_not_open (lit "dd/dd/ff") O_RDONLY "%s: open (unlinked) dd/dd/ff succeeded" s.

Definition subdir_chdir (s : list Z) : prog unit :=
  must (chdir (lit "dd")) "%s: chdir dd failed" s ;;
  must (chdir (lit "dd/../../dd")) "%s: chdir dd/../../dd failed" s ;;
  must (chdir (lit "dd/../../../dd")) "%s: chdir dd/../../../dd failed" s ;;
  must (chdir (lit "./..")) "%s: chdir ./.. failed" s ;;
  fd <- open (lit "dd/dd/ffff") 0 ;;
  if fd <? 0 then fail "%s: open dd/dd/ffff failed" [str s] else
  n <- read_n fd ut_BUFSZ ;;
  if negb (n =? 2) then fail "%s: read dd/dd/ffff wrong len" [str s] else
  close fd ;;
  must_not_open (lit "dd/dd/ff") O_RDONLY "%s: open (unlinked) dd/dd/ff succeeded!" s.

Definition subdir_refused (s : list Z) : prog unit :=
  must_not_open (lit "dd/ff/ff") (Z.lor O_CREATE O_RDWR) "%s: create dd/ff/ff succeeded!" s ;;
  must_not_open (lit "dd/xx/ff") (Z.lor O_CREATE O_RDWR) "%s: create dd/xx/ff succeeded!" s ;;
  must_not_open (lit "dd") O_CREATE "%s: create dd succeeded!" s ;;
  must_not_open (lit "dd") O_RDWR "%s: open dd rdwr succeeded!" s ;;
  must_not_open (lit "dd") O_WRONLY "%s: open dd wronly succeeded!" s ;;
  must_not (link (lit "dd/ff/ff") (lit "dd/dd/xx")) "%s: link dd/ff/ff dd/dd/xx succeeded!" s ;;
  must_not (link (lit "dd/xx/ff") (lit "dd/dd/xx")) "%s: link dd/xx/ff dd/dd/xx succeeded!" s ;;
  must_not (link (lit "dd/ff") (lit "dd/dd/ffff")) "%s: link dd/ff dd/dd/ffff succeeded!" s ;;
  must_not (mkdir (lit "dd/ff/ff")) "%s: mkdir dd/ff/ff succeeded!" s ;;
  must_not (mkdir (lit "dd/xx/ff")) "%s: mkdir dd/xx/ff succeeded!" s ;;
  must_not (mkdir (lit "dd/dd/ffff")) "%s: mkdir dd/dd/ffff succeeded!" s ;;
  must_not (unlink (lit "dd/xx/ff")) "%s: unlink dd/xx/ff succeeded!" s ;;
  must_not (unlink (lit "dd/ff/ff")) "%s: unlink dd/ff/ff succeeded!" s ;;
  must_not (chdir (lit "dd/ff")) "%s: chdir dd/ff succeeded!" s ;;
  must_not (chdir (lit "dd/xx")) "%s: chdir dd/xx succeeded!" s.

Definition subdir (s : list Z) : prog unit :=
  subdir_setup s ;;
  subdir_chdir s ;;
  subdir_refused s ;;
  must (unlink (lit "dd/dd/ffff")) "%s: unlink dd/dd/ff failed" s ;;
  must (unlink (lit "dd/ff")) "%s: unlink dd/ff failed" s ;;
  must_not (unlink (lit "dd")) "%s: unlink non-empty dd succeeded!" s ;;
  at_least_0 (unlink (lit "dd/dd")) "%s: unlink dd/dd failed" s ;;
  at_least_0 (unlink (lit "dd")) "%s: unlink dd failed" s.

Definition bigwrite_body (s : list Z) (sz : Z) : prog (Z + unit) :=
  if negb (sz <? ut_BUFSZ) then break tt else
  fd <- open (lit "bigwrite") (Z.lor O_CREATE O_RDWR) ;;
  if fd <? 0 then fail "%s: cannot create bigwrite" [str s] else
  upto 2 0 (fun _ =>
    cc <- write_buf fd ut_buf sz ;;
    if negb (cc =? sz) then fail "%s: write(%d) ret %d" [str s; VInt sz; VInt cc] else Ret tt) ;;
  close fd ;;
  unlink (lit "bigwrite") ;;
  continue (sz + 471).
Definition bigwrite (s : list Z) : prog unit :=
  unlink (lit "bigwrite") ;;
  while (bigwrite_body s) 499.

(** [for (i = 0; i < N; i++)], [k] turns to go *)
Fixpoint bigfile_write (k : nat) (i : Z) (s : list Z) (fd : Z) (buf : list Z) : prog (list Z) :=
  match k with
  | O => Ret buf
  | S k =>
      buf <- memset_buf buf i 600 ;;
      r <- write_buf fd buf 600 ;;
      if negb (r =? 600) then fail "%s: write bigfile failed" [str s] else
      bigfile_write k (i + 1) s fd buf
  end.

(** [for (i = 0;; i++)] *)
Definition bigfile_read (s : list Z) (fd : Z) (st : list Z * Z * Z) : prog (list Z * Z * Z + Z) :=
  let '(buf, i, total) := st in
  ' (cc, buf) <- read fd buf 0 (600 / 2) ;;
  if cc <? 0 then fail "%s: read bigfile failed" [str s] else
  if cc =? 0 then break total else
  if negb (cc =? 600 / 2) then fail "%s: short read bigfile" [str s] else
  if negb (nth 0 buf 0 =? i / 2) || negb (nth (600 / 2 - 1) buf 0 =? i / 2) then
    fail "%s: read bigfile wrong data" [str s]
  else continue (buf, i + 1, total + cc).

Definition bigfile (s : list Z) : prog unit :=
  unlink (lit "bigfile.dat") ;;
  fd <- open (lit "bigfile.dat") (Z.lor O_CREATE O_RDWR) ;;
  if fd <? 0 then die (lit "%s: cannot create bigfile") [str s] else
  buf <- bigfile_write 20 0 s fd ut_buf ;;
  close fd ;;
  fd <- open (lit "bigfile.dat") 0 ;;
  if fd <? 0 then fail "%s: cannot open bigfile" [str s] else
  total <- while (bigfile_read s fd) (buf, 0, 0) ;;
  close fd ;;
  if negb (total =? 20 * 600) then fail "%s: read bigfile wrong total" [str s] else
  unlink (lit "bigfile.dat") ;;
  Ret tt.

Definition fourteen (s : list Z) : prog unit :=
  must (mkdir (lit "12345678901234")) "%s: mkdir 12345678901234 failed" s ;;
  must (mkdir (lit "12345678901234/123456789012345")) "%s: mkdir 12345678901234/123456789012345 failed" s ;;
  fd <- open (lit "123456789012345/123456789012345/123456789012345") O_CREATE ;;
  if fd <? 0 then fail "%s: create 123456789012345/123456789012345/123456789012345 failed" [str s] else
  close fd ;;
  fd <- open (lit "12345678901234/12345678901234/12345678901234") 0 ;;
  if fd <? 0 then fail "%s: open 12345678901234/12345678901234/12345678901234 failed" [str s] else
  close fd ;;
  must_not (mkdir (lit "12345678901234/12345678901234")) "%s: mkdir 12345678901234/12345678901234 succeeded!" s ;;
  must_not (mkdir (lit "123456789012345/12345678901234")) "%s: mkdir 12345678901234/123456789012345 succeeded!" s ;;
  unlink (lit "123456789012345/12345678901234") ;;
  unlink (lit "12345678901234/12345678901234") ;;
  unlink (lit "12345678901234/12345678901234/12345678901234") ;;
  unlink (lit "123456789012345/123456789012345/123456789012345") ;;
  unlink (lit "12345678901234/123456789012345") ;;
  unlink (lit "12345678901234") ;;
  Ret tt.

Definition rmdot (s : list Z) : prog unit :=
  must (mkdir (lit "dots")) "%s: mkdir dots failed" s ;;
  must (chdir (lit "dots")) "%s: chdir dots failed" s ;;
  must_not (unlink (lit ".")) "%s: rm . worked!" s ;;
  must_not (unlink (lit "..")) "%s: rm .. worked!" s ;;
  must (chdir (lit "/")) "%s: chdir / failed" s ;;
  must_not (unlink (lit "dots/.")) "%s: unlink dots/. worked!" s ;;
  must_not (unlink (lit "dots/..")) "%s: unlink dots/.. worked!" s ;;
  must (unlink (lit "dots")) "%s: unlink dots failed!" s.

Definition dirfile (s : list Z) : prog unit :=
  fd <- open (lit "dirfile") O_CREATE ;;
  if fd <? 0 then fail "%s: create dirfile failed" [str s] else
  close fd ;;
  must_not (chdir (lit "dirfile")) "%s: chdir dirfile succeeded!" s ;;
  must_not_open (lit "dirfile/xx") 0 "%s: create dirfile/xx succeeded!" s ;;
  must_not_open (lit "dirfile/xx") O_CREATE "%s: create dirfile/xx succeeded!" s ;;
  must_not (mkdir (lit "dirfile/xx")) "%s: mkdir dirfile/xx succeeded!" s ;;
  must_not (unlink (lit "dirfile/xx")) "%s: unlink dirfile/xx succeeded!" s ;;
  must_not (link (lit "README") (lit "dirfile/xx")) "%s: link to dirfile/xx succeeded!" s ;;
  must (unlink (lit "dirfile")) "%s: unlink dirfile failed!" s ;;
  must_not_open (lit ".") O_RDWR "%s: open . for writing succeeded!" s ;;
  fd <- open (lit ".") 0 ;;
  r <- write fd (lit "x") ;;
  if 0 <? r then fail "%s: write . succeeded!" [str s] else
  close fd ;;
  Ret tt.

Definition iref (s : list Z) : prog unit :=
  upto (NINODE + 1) 0 (fun _ =>
    must (mkdir (lit "irefd")) "%s: mkdir irefd failed" s ;;
    must (chdir (lit "irefd")) "%s: chdir irefd failed" s ;;
    mkdir [] ;;
    link (lit "README") [] ;;
    fd <- open [] O_CREATE ;;
    (if 0 <=? fd then close fd ;; Ret tt else Ret tt) ;;
    fd <- open (lit "xx") O_CREATE ;;
    (if 0 <=? fd then close fd ;; Ret tt else Ret tt) ;;
    unlink (lit "xx") ;;
    Ret tt) ;;
  upto (NINODE + 1) 0 (fun _ =>
    chdir (lit "..") ;;
    unlink (lit "irefd") ;;
    Ret tt) ;;
  chdir (lit "/") ;;
  Ret tt.

(** [for (n = 0; n < N; n++)], [k] turns to go *)
Fixpoint forktest_forks (k : nat) (n : Z) : prog Z :=
  match k with
  | O => Ret n
  | S k =>
      pid <- fork ;;
      if pid <? 0 then Ret n else
      if pid =? 0 then exit 0 else
      forktest_forks k (n + 1)
  end.

Definition forktest (s : list Z) : prog unit :=
  n <- forktest_forks 1000 0 ;;
  if n =? 0 then fail "%s: no fork at all!" [str s] else
  if n =? 1000 then fail "%s: fork claimed to work 1000 times!" [str s] else
  upto (Z.to_nat n) 0 (fun _ =>
    r <- wait0 ;;
    if r <? 0 then fail "%s: wait stopped early" [str s] else Ret tt) ;;
  r <- wait0 ;;
  if negb (r =? -1) then fail "%s: wait got too many" [str s] else
  Ret tt.

(** * Memory *)

Definition BIG : Z := 100 * 1024 * 1024.

(** [for (i = 0; i < 10; i++)], [k] turns to go; [scratch] has no value at first. *)
Fixpoint sbrkfail_forks (k : nat) (fd0 fd1 : Z) (pids : list Z) (scratch : option Z) (failed : bool) :
    prog (list Z * bool) :=
  match k with
  | O => Ret (pids, failed)
  | S k =>
      pid <- fork ;;
      if pid =? 0 then
        a <- sbrk 0 ;;
        r <- sbrk (i32 (BIG - a)) ;;
        (if r =? SBRK_ERROR then write fd1 (lit "0") else write fd1 (lit "1")) ;;
        pause_forever
      else if negb (pid =? -1) then
        ' (r, b) <- sys (Read fd0 1) ;;
        let scratch := match b with b :: _ => Some b | [] => scratch end in
        c <- value scratch ;;
        sbrkfail_forks k fd0 fd1 (pids ++ [pid]) scratch (failed || (c =? 48))
      else sbrkfail_forks k fd0 fd1 (pids ++ [pid]) scratch failed
  end.

Fixpoint sbrkfail_kill (pids : list Z) : prog unit :=
  match pids with
  | [] => Ret tt
  | pid :: pids => (if pid =? -1 then Ret tt else kill pid ;; wait0 ;; Ret tt) ;; sbrkfail_kill pids
  end.

Definition sbrkfail (s : list Z) : prog unit :=
  ' (r, (fd0, fd1)) <- sys Pipe ;;
  if negb (r =? 0) then fail "%s: pipe() failed" [str s] else
  ' (pids, failed) <- sbrkfail_forks 10 fd0 fd1 [] None false ;;
  (if negb failed then printf (lit "%s: no allocation failed; allocate more?" ++ nl) [str s] else Ret tt) ;;
  c <- sbrk PGSIZE ;;
  sbrkfail_kill pids ;;
  if c =? SBRK_ERROR then fail "%s: failed sbrk leaked memory" [str s] else
  pid <- fork ;;
  if pid <? 0 then fail "%s: fork failed" [str s] else
  if pid =? 0 then
    a <- sbrk (10 * BIG) ;;
    if a =? SBRK_ERROR then exit 0 else
    fail "%s: allocate a lot of memory succeeded %d" [str s; VInt (10 * BIG)]
  else
  wait_all 1 None (fun _ => exit 1).

(** [uninit], as the program was loaded *)
Definition bsstest (uninit : list Z) (s : list Z) : prog unit :=
  if forallb (fun b => b =? 0) uninit then Ret tt else fail "%s: bss test failed" [str s].

Definition bigargtest (s : list Z) : prog unit :=
  unlink (lit "bigarg-ok") ;;
  pid <- fork ;;
  if pid =? 0 then
    exec (lit "echo") (replicate (MAXARG - 1) (replicate 399 32)) ;;
    fd <- open (lit "bigarg-ok") O_CREATE ;;
    close fd ;;
    exit 0
  else if pid <? 0 then fail "%s: bigargtest: fork failed" [str s] else
  wait_all 1 None (fun x => exit x) ;;
  fd <- open (lit "bigarg-ok") 0 ;;
  if fd <? 0 then fail "%s: bigarg test failed!" [str s] else
  close fd ;;
  Ret tt.

(** A child that does [c], and the parent that waits for it *)
Definition sbrkbugs_child (c : prog unit) : prog unit :=
  pid <- fork ;;
  if pid <? 0 then fail "fork failed" [] else
  if pid =? 0 then c ;; exit 0 else
  wait0 ;;
  Ret tt.

(** [int sz = (uint64)sbrk(0); sbrk(-sz);]: [-sz] overflows for the least [int]. *)
Definition sbrkbugs (s : list Z) : prog unit :=
  sbrkbugs_child
    (a <- sbrk 0 ;;
     let sz := i32 a in
     if sz =? - 2 ^ 31 then halt (Undefined "-sz") else
     sbrk (- sz) ;; Ret tt) ;;
  sbrkbugs_child
    (a <- sbrk 0 ;;
     let sz := i32 a in
     if sz - 3500 <=? - 2 ^ 31 then halt (Undefined "-(sz - 3500)") else
     sbrk (- (sz - 3500)) ;; Ret tt) ;;
  sbrkbugs_child
    (a <- sbrk 0 ;;
     sbrk (i32 (10 * PGSIZE + 2048 - a)) ;;
     sbrk (-10) ;; Ret tt) ;;
  exit 0.

(** * The file system when it is full *)

(** [name] *)
Definition full_name (n : Z) : list Z :=
  cstr [102; u8 (48 + n / 1000); u8 (48 + n mod 1000 / 100); u8 (48 + n mod 100 / 10); u8 (48 + n mod 10)].

(** [while (1)]: [total] and [fsblocks] *)
Definition fsfull_write (fd : Z) (st : Z * Z) : prog (Z * Z + Z * Z) :=
  let '(total, fsblocks) := st in
  cc <- write_buf fd ut_buf BSIZE ;;
  if cc <? BSIZE then break (total, fsblocks) else continue (total + cc, fsblocks + 1).

(** [for (nfiles = 0;; nfiles++)]: [nfiles] and [fsblocks] *)
Definition fsfull_create (st : Z * Z) : prog (Z * Z + Z * Z) :=
  let '(nfiles, fsblocks) := st in
  let name := full_name nfiles in
  printf (lit "writing %s" ++ nl) [str name] ;;
  fd <- open name (Z.lor O_CREATE O_RDWR) ;;
  if fd <? 0 then printf (lit "open %s failed" ++ nl) [str name] ;; break (nfiles, fsblocks) else
  ' (total, fsblocks) <- while (fsfull_write fd) (0, fsblocks) ;;
  printf (lit "wrote %d bytes" ++ nl) [VInt total] ;;
  close fd ;;
  if total =? 0 then break (nfiles, fsblocks) else continue (nfiles + 1, fsblocks).

Definition fsfull : prog unit :=
  printf (lit "fsfull test" ++ nl) [] ;;
  ' (nfiles, fsblocks) <- while fsfull_create (0, 0) ;;
  while (fun n => if 0 <=? n then unlink (full_name n) ;; continue (n - 1) else break tt) nfiles ;;
  printf (lit "fsfull test finished, %d blocks" ++ nl) [VInt fsblocks].

Definition unlinkcwd (s : list Z) : prog unit :=
  at_least_0 (mkdir (lit "/a")) "%s: mkdir /a failed" s ;;
  at_least_0 (mkdir (lit "/a/b")) "%s: mkdir /a/b failed" s ;;
  at_least_0 (chdir (lit "/a/b")) "%s: chdir failed" s ;;
  at_least_0 (unlink (lit "/a/b")) "%s: unlink /a/b failed" s ;;
  at_least_0 (unlink (lit "/a")) "%s: unlink /a failed" s ;;
  r <- open (lit "../") O_RDONLY ;;
  (if 0 <? r then printf (lit "%s: open ../ non-existing directory" ++ nl) [str s] else Ret tt) ;;
  r <- open (lit "../c") O_CREATE ;;
  if 0 <? r then printf (lit "%s: create ../c non-existing file" ++ nl) [str s] else Ret tt.

(** * Slow tests *)

(** [name] *)
Definition bd_name (i : Z) : list Z := [120; 48 + i / 64; 48 + i mod 64].

Definition bigdir (s : list Z) : prog unit :=
  unlink (lit "bd") ;;
  fd <- open (lit "bd") O_CREATE ;;
  if fd <? 0 then fail "%s: bigdir create failed" [str s] else
  close fd ;;
  upto 500 0 (fun i =>
    r <- link (lit "bd") (bd_name i) ;;
    if negb (r =? 0) then fail "%s: bigdir i=%d link(bd, %s) failed" [str s; VInt i; str (bd_name i)] else
    Ret tt) ;;
  unlink (lit "bd") ;;
  upto 500 0 (fun i =>
    r <- unlink (bd_name i) ;;
    if negb (r =? 0) then die (lit "%s: bigdir unlink failed") [str s] else Ret tt).

Definition manywrites_child (s : list Z) (ci : Z) : prog unit :=
  let name := [98; 97 + ci] in
  unlink name ;;
  upto 30 0 (fun _ =>
    upto (Z.to_nat (ci + 1)) 0 (fun _ =>
      fd <- open name (Z.lor O_CREATE O_RDWR) ;;
      if fd <? 0 then fail "%s: cannot create %s" [str s; str name] else
      let sz := ut_BUFSZ in
      cc <- write_buf fd ut_buf sz ;;
      if negb (cc =? sz) then fail "%s: write(%d) ret %d" [str s; VInt sz; VInt cc] else
      close fd ;;
      Ret tt) ;;
    unlink name ;;
    Ret tt) ;;
  unlink name ;;
  exit 0.

Definition manywrites (s : list Z) : prog unit :=
  upto 4 0 (fun ci =>
    pid <- fork ;;
    if pid <? 0 then fail "fork failed" [] else
    if pid =? 0 then manywrites_child s ci else Ret tt) ;;
  upto 4 0 (fun _ => wait_all 1 (Some 0) (fun x => exit x)) ;;
  exit 0.

(** [name] *)
Definition big_name (i : Z) : list Z := lit "big" ++ [48 + i].
Definition zz_name (i : Z) : list Z := [122; 122; 48 + i / 32; 48 + i mod 32].

(** [for (int i = 0; i < MAXFILE; i++)], [k] turns to go: [done].  [junk] are the
    bytes of an array without a value. *)
Fixpoint diskfull_write (k : nat) (fd : Z) (junk : list Z) : prog bool :=
  match k with
  | O => Ret false
  | S k =>
      r <- write_buf fd junk BSIZE ;;
      if negb (r =? BSIZE) then close fd ;; Ret true else diskfull_write k fd junk
  end.

(** [for (fi = 0; done == 0 && '0' + fi < 0177; fi++)], [k] turns to go at most *)
Fixpoint diskfull_fill (k : nat) (fi : Z) (s junk : list Z) : prog unit :=
  match k with
  | O => Ret tt
  | S k =>
      let name := big_name fi in
      unlink name ;;
      fd <- open name (Z.lor (Z.lor O_CREATE O_RDWR) O_TRUNC) ;;
      if fd <? 0 then printf (lit "%s: could not create file %s" ++ nl) [str s; str name] else
      done <- diskfull_write (Z.to_nat MAXFILE) fd junk ;;
      close fd ;;
      if (done : bool) then Ret tt else diskfull_fill k (fi + 1) s junk
  end.

(** Creates the files [zz] until one fails, [k] turns to go at most. *)
Fixpoint zz_create (k : nat) (i : Z) : prog unit :=
  match k with
  | O => Ret tt
  | S k =>
      unlink (zz_name i) ;;
      fd <- open (zz_name i) (Z.lor (Z.lor O_CREATE O_RDWR) O_TRUNC) ;;
      if fd <? 0 then Ret tt else
      close fd ;;
      zz_create k (i + 1)
  end.
Definition zz_unlink (n : nat) : prog unit := upto n 0 (fun i => unlink (zz_name i) ;; Ret tt).

(** [0177 - '0'] *)
Definition BIGS : nat := 79.

Definition diskfull (junk : list Z) (s : list Z) : prog unit :=
  unlink (lit "diskfulldir") ;;
  diskfull_fill BIGS 0 s junk ;;
  zz_create 128 0 ;;
  r <- mkdir (lit "diskfulldir") ;;
  (if r =? 0 then printf (lit "%s: mkdir(diskfulldir) unexpectedly succeeded!" ++ nl) [str s] else Ret tt) ;;
  unlink (lit "diskfulldir") ;;
  zz_unlink 128 ;;
  upto BIGS 0 (fun i => unlink (big_name i) ;; Ret tt).

Definition outofinodes (s : list Z) : prog unit :=
  zz_create (32 * 32) 0 ;;
  zz_unlink (32 * 32).

Definition lof : list Z := lit "/lof".
Definition lof_stat (s : list Z) : prog stat :=
  ' (r, st) <- stat_ lof ;;
  match st with
  | Some st => if r <? 0 then fail "%s: stat(/lof) failed" [str s] else Ret st
  | None => fail "%s: stat(/lof) failed" [str s]
  end.

(** [for (i = 0; i < TARGET; i++)], [k] turns to go *)
Fixpoint linkoverflow_loop (k : nat) (i : Z) (s : list Z) : prog unit :=
  match k with
  | O => Ret tt
  | S k =>
      let d := i mod 64 in
      let f := i / 64 in
      let pn := lit "/d_" ++ [97 + d / 16; 97 + d mod 16] in
      r <- (if f =? 0 then mkdir pn else Ret 0) ;;
      if r <? 0 then fail "%s: mkdir(%s) failed" [str s; str pn] else
      let pn := pn ++ lit "/l" ++ [97 + f / 256; 97 + (f / 16) mod 16; 97 + f mod 16] in
      r <- link lof pn ;;
      if r <? 0 then
        st <- lof_stat s ;;
        if 32767 <=? st_nlink st then Ret tt else
        fail "%s: link failed after %d links (nlink=%d)" [str s; VInt i; VInt (st_nlink st)]
      else
      (if i mod 100 =? 0 then printf (lit "%s: i=%d, pn=%s" ++ nl) [str s; VInt i; str pn] else Ret tt) ;;
      linkoverflow_loop k (i + 1) s
  end.

Definition linkoverflow (s : list Z) : prog unit :=
  unlink lof ;;
  fd <- open lof (Z.lor O_CREATE O_RDWR) ;;
  if fd <? 0 then fail "%s: cannot create /lof" [str s] else
  close fd ;;
  linkoverflow_loop (Z.to_nat 32768) 0 s ;;
  st <- lof_stat s ;;
  unlink lof ;;
  if st_nlink st <? 0 then fail "%s: negative link count: %d" [str s; VInt (st_nlink st)] else
  Ret tt.

(** * Addresses the process does not own *)

Definition raw {A} (c : rawE A) : prog A := sys (Raw c).
Definition write_from (fd addr n : Z) : prog Z := raw (WriteFrom fd addr n).
Definition read_to (fd addr n : Z) : prog Z := raw (ReadTo fd addr n).
Definition open_at (addr omode : Z) : prog Z := raw (OpenAt addr omode).
Definition sbrklazy (n : Z) : prog Z := raw (Sbrklazy n).
Definition exec_at (path : list Z + Z) (argv : list (list Z + Z)) : prog Z :=
  r <- raw (ExecAt path argv) ;;
  match r with Some r => Ret r | None => halt (Execed (match path with inl p => p | inr _ => [] end) []) end.

(** A load or a store that faults: the kernel kills the process, which exits with -1. *)
Definition load_at (n : nat) (a : Z) : prog Z :=
  r <- raw (Load n a) ;; match r with Some v => Ret v | None => exit (-1) end.
Definition store_at (n : nat) (a v : Z) : prog unit :=
  r <- raw (Store n a v) ;; match r with Some _ => Ret tt | None => exit (-1) end.

(** [printf]'s [%s] for a string at an address *)
Definition puts_at (a : Z) : prog unit :=
  while (fun a => c <- load_at 1 a ;; if c =? 0 then break tt else uputc 1 c ;; continue (u64 (a + 1))) a.

Fixpoint each {A} (l : list A) (body : A -> prog unit) : prog unit :=
  match l with [] => Ret tt | x :: l => body x ;; each l body end.

(** The addresses of [copyin], [copyinstr1] and, with 0, of [copyout] and [nowrite] *)
Definition bad_addrs : list Z := [0x80000000; 0x3fffffe000; 0x3ffffff000; 0x4000000000; 0xffffffffffffffff].

Definition ut_copyin (s : list Z) : prog unit :=
  each bad_addrs (fun addr =>
    fd <- open (lit "copyin1") (Z.lor O_CREATE O_WRONLY) ;;
    if fd <? 0 then fail "open(copyin1) failed" [] else
    n <- write_from fd addr 8192 ;;
    if 0 <=? n then fail "write(fd, %p, 8192) returned %d, not -1" [VInt addr; VInt n] else
    close fd ;;
    unlink (lit "copyin1") ;;
    n <- write_from 1 addr 8192 ;;
    if 0 <? n then fail "write(1, %p, 8192) returned %d, not -1 or 0" [VInt addr; VInt n] else
    ' (r, (fd0, fd1)) <- sys Pipe ;;
    if r <? 0 then fail "pipe() failed" [] else
    n <- write_from fd1 addr 8192 ;;
    if 0 <? n then fail "write(pipe, %p, 8192) returned %d, not -1 or 0" [VInt addr; VInt n] else
    close fd0 ;;
    close fd1 ;;
    Ret tt).

Definition ut_copyout (s : list Z) : prog unit :=
  each (0 :: bad_addrs) (fun addr =>
    fd <- open (lit "README") 0 ;;
    if fd <? 0 then fail "open(README) failed" [] else
    n <- read_to fd addr 8192 ;;
    if 0 <? n then fail "read(fd, %p, 8192) returned %d, not -1 or 0" [VInt addr; VInt n] else
    close fd ;;
    ' (r, (fd0, fd1)) <- sys Pipe ;;
    if r <? 0 then fail "pipe() failed" [] else
    n <- write fd1 (lit "x") ;;
    if negb (n =? 1) then fail "pipe write failed" [] else
    n <- read_to fd0 addr 8192 ;;
    if 0 <? n then fail "read(pipe, %p, 8192) returned %d, not -1 or 0" [VInt addr; VInt n] else
    close fd0 ;;
    close fd1 ;;
    Ret tt).

Definition copyinstr1 (s : list Z) : prog unit :=
  each bad_addrs (fun addr =>
    fd <- open_at addr (Z.lor O_CREATE O_WRONLY) ;;
    if 0 <=? fd then fail "open(%p) returned %d, not -1" [VInt addr; VInt fd] else Ret tt).

(** The failure messages print the string at [b]. *)
Definition copyinstr3_fail (call : string) (b ret : Z) : prog unit :=
  printf (lit call ++ lit "(") [] ;; puts_at b ;; fail ") returned %d, not -1" [VInt ret].

Definition copyinstr3 (s : list Z) : prog unit :=
  sbrk 8192 ;;
  top <- sbrk 0 ;;
  (if negb (top mod PGSIZE =? 0) then sbrk (PGSIZE - top mod PGSIZE) ;; Ret tt else Ret tt) ;;
  top <- sbrk 0 ;;
  if negb (top mod PGSIZE =? 0) then fail "oops" [] else
  let b := u64 (top - 1) in
  store_at 1 b 120 ;;
  ret <- raw (UnlinkAt b) ;;
  if negb (ret =? -1) then copyinstr3_fail "unlink" b ret else
  fd <- open_at b (Z.lor O_CREATE O_WRONLY) ;;
  if negb (fd =? -1) then copyinstr3_fail "open" b fd else
  ret <- raw (LinkAt (inr b) (inr b)) ;;
  if negb (ret =? -1) then
    printf (lit "link(") [] ;; puts_at b ;; printf (lit ", ") [] ;; puts_at b ;;
    fail ") returned %d, not -1" [VInt ret]
  else
  ret <- exec_at (inr b) [inl (lit "xx")] ;;
  if negb (ret =? -1) then copyinstr3_fail "exec" b fd else
  Ret tt.

Definition rwsbrk (s : list Z) : prog unit :=
  a <- sbrk 8192 ;;
  if a =? SBRK_ERROR then fail "sbrk(rwsbrk) failed" [] else
  r <- sbrk (-8192) ;;
  if r =? SBRK_ERROR then fail "sbrk(rwsbrk) shrink failed" [] else
  fd <- open (lit "rwsbrk") (Z.lor O_CREATE O_WRONLY) ;;
  if fd <? 0 then fail "open(rwsbrk) failed" [] else
  n <- write_from fd (u64 (a + PGSIZE)) 1024 ;;
  if 0 <=? n then fail "write(fd, %p, 1024) returned %d, not -1" [VInt (a + PGSIZE); VInt n] else
  close fd ;;
  unlink (lit "rwsbrk") ;;
  fd <- open (lit "README") O_RDONLY ;;
  if fd <? 0 then fail "open(README) failed" [] else
  n <- read_to fd (u64 (a + PGSIZE)) 10 ;;
  if 0 <=? n then fail "read(fd, %p, 10) returned %d, not -1" [VInt (a + PGSIZE); VInt n] else
  close fd ;;
  exit 0.

Definition TOOMUCH : Z := 1024 * 1024 * 1024.

(** [for (i = 0; i < 5000; i++)], [k] turns to go *)
Fixpoint sbrkbasic_loop (k : nat) (i : Z) (s : list Z) (a : Z) : prog Z :=
  match k with
  | O => Ret a
  | S k =>
      b <- sbrk 1 ;;
      if negb (b =? a) then fail "%s: sbrk test failed %d %p %p" [str s; VInt i; VInt a; VInt b] else
      store_at 1 b 1 ;;
      sbrkbasic_loop k (i + 1) s (u64 (b + 1))
  end.

Definition sbrkbasic (s : list Z) : prog unit :=
  pid <- fork ;;
  if pid <? 0 then fail "fork failed in sbrkbasic" [] else
  if pid =? 0 then
    a <- sbrk TOOMUCH ;;
    if a =? SBRK_ERROR then exit 0 else
    upto (Z.to_nat (TOOMUCH / PGSIZE)) 0 (fun k => store_at 1 (u64 (a + k * PGSIZE)) 99) ;;
    exit 1
  else
  ' (_, xstatus) <- wait_into None ;;
  x <- value xstatus ;;
  if x =? 1 then fail "%s: too much memory allocated!" [str s] else
  a <- sbrk 0 ;;
  a <- sbrkbasic_loop (Z.to_nat 5000) 0 s a ;;
  pid <- fork ;;
  if pid <? 0 then fail "%s: sbrk test fork failed" [str s] else
  sbrk 1 ;;
  c <- sbrk 1 ;;
  if negb (c =? u64 (a + 1)) then fail "%s: sbrk test failed post-fork" [str s] else
  if pid =? 0 then exit 0 else
  ' (_, xstatus) <- wait_into xstatus ;;
  x <- value xstatus ;;
  exit x.

Definition sbrkmuch (s : list Z) : prog unit :=
  oldbrk <- sbrk 0 ;;
  a <- sbrk 0 ;;
  p <- sbrk (i32 (BIG - a)) ;;
  if negb (p =? a) then fail "%s: sbrk test failed to grow big address space; enough phys mem?" [str s] else
  let lastaddr := BIG - 1 in
  store_at 1 lastaddr 99 ;;
  a <- sbrk 0 ;;
  c <- sbrk (- PGSIZE) ;;
  if c =? SBRK_ERROR then fail "%s: sbrk could not deallocate" [str s] else
  c <- sbrk 0 ;;
  if negb (c =? u64 (a - PGSIZE)) then
    fail "%s: sbrk deallocation produced wrong address, a %p c %p" [str s; VInt a; VInt c]
  else
  a <- sbrk 0 ;;
  c <- sbrk PGSIZE ;;
  top <- (if negb (c =? a) then Ret c else sbrk 0) ;;
  if negb (c =? a) || negb (top =? u64 (a + PGSIZE)) then
    fail "%s: sbrk re-allocation failed, a %p c %p" [str s; VInt a; VInt c]
  else
  v <- load_at 1 lastaddr ;;
  if v =? 99 then fail "%s: sbrk de-allocation didn't really deallocate" [str s] else
  a <- sbrk 0 ;;
  top <- sbrk 0 ;;
  c <- sbrk (i32 (- (top - oldbrk))) ;;
  if negb (c =? a) then fail "%s: sbrk downsize failed, a %p c %p" [str s; VInt a; VInt c] else
  Ret tt.

(** [wait(&xstatus); if (xstatus != -1) exit(1);]: did the kernel kill the child? *)
Definition wait_killed : prog unit :=
  ' (_, xstatus) <- wait_into None ;;
  x <- value xstatus ;;
  if negb (x =? -1) then exit 1 else Ret tt.

Definition kernmem (s : list Z) : prog unit :=
  upto 40 0 (fun k =>
    let a := KERNBASE + k * 50000 in
    pid <- fork ;;
    if pid <? 0 then fail "%s: fork failed" [str s] else
    if pid =? 0 then
      v <- load_at 1 a ;;
      fail "%s: oops could read %p = %x" [str s; VInt a; VInt v]
    else wait_killed).

(** [for (; a != 0; a <<= 1)] *)
Definition MAXVAplus_body (s : list Z) (a : Z) : prog (Z + unit) :=
  if a =? 0 then break tt else
  pid <- fork ;;
  if pid <? 0 then fail "%s: fork failed" [str s] else
  (if pid =? 0 then
     store_at 1 a 99 ;;
     fail "%s: oops wrote %p" [str s; VInt a]
   else wait_killed) ;;
  continue (u64 (Z.shiftl a 1)).
Definition MAXVAplus (s : list Z) : prog unit := while (MAXVAplus_body s) MAXVA.

Definition sbrkarg (s : list Z) : prog unit :=
  a <- sbrk PGSIZE ;;
  fd <- open (lit "sbrk") (Z.lor O_CREATE O_WRONLY) ;;
  unlink (lit "sbrk") ;;
  if fd <? 0 then fail "%s: open sbrk failed" [str s] else
  n <- write_from fd a PGSIZE ;;
  if n <? 0 then fail "%s: write sbrk failed" [str s] else
  close fd ;;
  a <- sbrk PGSIZE ;;
  r <- raw (PipeAt a) ;;
  if negb (r =? 0) then fail "%s: pipe() failed" [str s] else
  Ret tt.

(** [for (p = 0; p <= (uint)hi; p += PGSIZE)], [hi] = 1100 * 1024 *)
Definition validatetest (s : list Z) : prog unit :=
  upto (Z.to_nat (1100 * 1024 / PGSIZE + 1)) 0 (fun k =>
    r <- raw (LinkAt (inl (lit "nosuchfile")) (inr (k * PGSIZE))) ;;
    if negb (r =? -1) then fail "%s: link should not succeed" [str s] else Ret tt).

Definition argptest (s : list Z) : prog unit :=
  fd <- open (lit "init") O_RDONLY ;;
  if fd <? 0 then fail "%s: open failed" [str s] else
  top <- sbrk 0 ;;
  read_to fd (u64 (top - 1)) (-1) ;;
  close fd ;;
  Ret tt.

Definition stacktest (s : list Z) : prog unit :=
  pid <- fork ;;
  if pid =? 0 then
    sp <- raw StackPointer ;;
    v <- load_at 1 (u64 (sp - USERSTACK * PGSIZE)) ;;
    fail "%s: stacktest: read below stack %d" [str s; VInt v]
  else if pid <? 0 then fail "%s: fork failed" [str s] else
  ' (_, xstatus) <- wait_into None ;;
  x <- value xstatus ;;
  if x =? -1 then exit 0 else exit x.

(** [for (int ai = 0; ...)], from [addrs[ai]] on; [xstatus] keeps its value. *)
Fixpoint nowrite_loop (addrs : list Z) (s : list Z) (xstatus : option Z) : prog unit :=
  match addrs with
  | [] => exit 0
  | addr :: addrs =>
      pid <- fork ;;
      if pid =? 0 then
        store_at 4 addr 10 ;;
        printf (lit "%s: write to %p did not fail!" ++ nl) [str s; VInt addr] ;;
        exit 0
      else if pid <? 0 then fail "%s: fork failed" [str s] else
      ' (_, xstatus) <- wait_into xstatus ;;
      x <- value xstatus ;;
      if x =? 0 then exit 1 else nowrite_loop addrs s xstatus
  end.
Definition nowrite (s : list Z) : prog unit := nowrite_loop (0 :: bad_addrs) s None.

Definition pgbug_big : Z := 0xeaeb0b5b00002f5e.
Definition pgbug (s : list Z) : prog unit :=
  exec_at (inr pgbug_big) [] ;;
  raw (PipeAt pgbug_big) ;;
  exit 0.

Definition sbrklast (s : list Z) : prog unit :=
  top <- sbrk 0 ;;
  (if negb (top mod PGSIZE =? 0) then sbrk (PGSIZE - top mod PGSIZE) ;; Ret tt else Ret tt) ;;
  sbrk PGSIZE ;;
  sbrk 10 ;;
  sbrk (-20) ;;
  top <- sbrk 0 ;;
  let p := u64 (top - 64) in
  store_at 1 p 120 ;;
  store_at 1 (u64 (p + 1)) 0 ;;
  fd <- open_at p (Z.lor O_RDWR O_CREATE) ;;
  write_from fd p 1 ;;
  close fd ;;
  fd <- open_at p O_RDWR ;;
  store_at 1 p 0 ;;
  read_to fd p 1 ;;
  v <- load_at 1 p ;;
  if negb (v =? 120) then exit 1 else Ret tt.

Definition sbrk8000 (s : list Z) : prog unit :=
  sbrk (i32 0x80000004) ;;
  top <- sbrk 0 ;;
  v <- load_at 1 (u64 (top - 1)) ;;
  store_at 1 (u64 (top - 1)) (u8 (v + 1)).

Definition badarg (s : list Z) : prog unit :=
  upto (Z.to_nat 50000) 0 (fun _ => exec_at (inl (lit "echo")) [inr 0xffffffff] ;; Ret tt) ;;
  exit 0.

(** ** Lazy allocation *)

Definition REGION_SZ : Z := 1024 * 1024 * 1024.

(** [for (i = prev_end + PGSIZE; i < prev_end + REGION_SZ; i += step)] *)
Definition region (prev_end step : Z) (body : Z -> prog unit) : prog unit :=
  upto (Z.to_nat ((REGION_SZ - PGSIZE + step - 1) / step)) 0 (fun k => body (u64 (prev_end + PGSIZE + k * step))).

Definition lazy_alloc (s : list Z) : prog unit :=
  prev_end <- sbrklazy REGION_SZ ;;
  if prev_end =? SBRK_ERROR then fail "sbrklazy() failed" [] else
  region prev_end (64 * PGSIZE) (fun i => store_at 8 i i) ;;
  region prev_end (64 * PGSIZE) (fun i =>
    v <- load_at 8 i ;;
    if negb (v =? i) then fail "failed to read value from memory" [] else Ret tt) ;;
  exit 0.

Definition lazy_unmap (s : list Z) : prog unit :=
  prev_end <- sbrklazy REGION_SZ ;;
  if prev_end =? SBRK_ERROR then fail "sbrklazy() failed" [] else
  region prev_end (PGSIZE * PGSIZE) (fun i => store_at 8 i i) ;;
  region prev_end (PGSIZE * PGSIZE) (fun i =>
    pid <- fork ;;
    if pid <? 0 then fail "error forking" [] else
    if pid =? 0 then
      sbrklazy (i32 (-1 * REGION_SZ)) ;;
      store_at 8 i i ;;
      exit 0
    else
    ' (_, status) <- wait_into None ;;
    x <- value status ;;
    if x =? 0 then fail "memory not unmapped" [] else Ret tt) ;;
  exit 0.

Definition lazy_bad : list Z := [0x3fffffc000; 0x3fffffd000; 0x3fffffe000; 0x3ffffff000; 0x4000000000; 0x8000000000].

Definition lazy_copy (s : list Z) : prog unit :=
  p <- sbrk 0 ;;
  sbrklazy (4 * PGSIZE) ;;
  open_at (u64 (p + 8192)) 0 ;;
  xx <- sbrk 0 ;;
  ret <- sbrk (i32 (- (xx + 1))) ;;
  if negb (ret =? xx) then fail "sbrk(sbrk(0)+1) returned %p, not old sz" [VInt ret] else
  each lazy_bad (fun bad =>
    fd <- open (lit "README") 0 ;;
    if fd <? 0 then fail "cannot open README" [] else
    r <- read_to fd bad 512 ;;
    if 0 <=? r then fail "read succeeded" [] else
    close fd ;;
    fd <- open (lit "junk") (Z.lor (Z.lor O_CREATE O_RDWR) O_TRUNC) ;;
    if fd <? 0 then fail "cannot open junk" [] else
    r <- write_from fd bad 512 ;;
    if 0 <=? r then fail "write succeeded" [] else
    close fd ;;
    Ret tt) ;;
  exit 0.

(** [p = sbrk(0); sbrk(PGSIZE - p % PGSIZE); p = sbrk(0);] and the check *)
Definition align_brk (s : list Z) : prog Z :=
  p <- sbrk 0 ;;
  sbrk (PGSIZE - p mod PGSIZE) ;;
  p <- sbrk 0 ;;
  if negb (p mod PGSIZE =? 0) then fail "%s: sbrk did not align" [str s] else Ret p.

Definition lazy_copyinstr (s : list Z) : prog unit :=
  p <- align_brk s ;;
  sbrklazy (2 * PGSIZE) ;;
  store_at 1 (u64 (p + 4095)) 47 ;;
  fd <- open_at (u64 (p + 4095)) O_RDONLY ;;
  if fd <? 0 then die (lit "could not open /") [] else
  ' (r, st) <- sys (Fstat fd) ;;
  if r <? 0 then die (lit "could not stat /") [] else
  if negb (st_type st =? T_DIR) then die (lit "/ is not T_DIR") [] else
  close fd ;;
  Ret tt.

(** A pointer is never less than 0, so the first test of the loop and those of [p1]
    and [p] below are about the rest only. *)
Definition lazy_sbrk_body (p : Z) : prog (Z + Z) :=
  if p <? MAXVA - 2 ^ 30 then
    sbrklazy (2 ^ 30) ;;
    p <- sbrklazy 0 ;;
    continue p
  else break p.

Definition lazy_sbrk (s : list Z) : prog unit :=
  p <- sbrk 0 ;;
  p <- while lazy_sbrk_body p ;;
  let n := i32 (TRAPFRAME - PGSIZE - p) in
  p1 <- sbrklazy n ;;
  if negb (p1 =? p) then fail "sbrklazy(%d) returned %p, not expected %p" [VInt n; VInt p1; VInt p] else
  p <- sbrk PGSIZE ;;
  if negb (p =? TRAPFRAME - PGSIZE) then
    fail "sbrk(%d) returned %p, not expected TRAPFRAME-PGSIZE" [VInt PGSIZE; VInt p]
  else
  store_at 1 p 1 ;;
  v <- load_at 1 (u64 (p + 1)) ;;
  if negb (v =? 0) then fail "sbrk() returned non-zero-filled memory" [] else
  p <- sbrk 1 ;;
  if negb (p =? 2 ^ 64 - 1) then fail "sbrk(1) returned %p, expected error" [VInt p] else
  p <- sbrklazy 1 ;;
  if negb (p =? 2 ^ 64 - 1) then fail "sbrklazy(1) returned %p, expected error" [VInt p] else
  exit 0.

(** [fd = open("testfile", O_RDONLY); ... read(fd, &b, 1) ...]: the file must hold an X. *)
Definition partial_check (s : list Z) : prog unit :=
  fd <- open (lit "testfile") O_RDONLY ;;
  if fd <? 0 then fail "%s: cannot re-open testfile" [str s] else
  ' (cc, b) <- read fd [0] 0 1 ;;
  if negb (cc =? 1) then fail "%s: cannot read testfile" [str s] else
  close fd ;;
  let b := nth 0 b 0 in
  if negb (b =? 88) then fail "%s: read returned %c, expected X" [str s; VInt b] else
  Ret tt.

Definition partial_write (s : list Z) : prog unit :=
  unlink (lit "testfile") ;;
  fd <- open (lit "testfile") (Z.lor O_CREATE O_RDWR) ;;
  if fd <? 0 then fail "%s: cannot create testfile" [str s] else
  cc <- write fd (lit "A") ;;
  if negb (cc =? 1) then fail "%s: could not write A" [str s] else
  close fd ;;
  fd <- open (lit "testfile") O_RDWR ;;
  if fd <? 0 then fail "%s: cannot re-open testfile" [str s] else
  p <- align_brk s ;;
  store_at 1 (u64 (p - 1)) 88 ;;
  cc <- write_from fd (u64 (p - 1)) 2 ;;
  if negb (cc =? -1) then fail "%s: write succeeded, should have failed" [str s] else
  close fd ;;
  partial_check s ;;
  fd <- open (lit "bigfile") (Z.lor O_CREATE O_RDWR) ;;
  upto 64 0 (fun _ =>
    cc <- write fd (replicate (Z.to_nat 1024) 0) ;;
    if negb (cc =? 1024) then printf (lit "%s: could not write to bigfile" ++ nl) [str s] ;; exit (-1) else
    Ret tt) ;;
  close fd ;;
  unlink (lit "bigfile") ;;
  partial_check s ;;
  unlink (lit "testfile") ;;
  Ret tt.

Definition badwrite (s : list Z) : prog unit :=
  unlink (lit "junk") ;;
  upto 600 0 (fun _ =>
    fd <- open (lit "junk") (Z.lor O_CREATE O_WRONLY) ;;
    if fd <? 0 then fail "open junk failed" [] else
    write_from fd 0xffffffffff 1 ;;
    close fd ;;
    unlink (lit "junk") ;;
    Ret tt) ;;
  fd <- open (lit "junk") (Z.lor O_CREATE O_WRONLY) ;;
  if fd <? 0 then fail "open junk failed" [] else
  r <- write fd (lit "x") ;;
  if negb (r =? 1) then fail "write failed" [] else
  close fd ;;
  unlink (lit "junk") ;;
  exit 0.

(** [while (1)]: all of memory *)
Definition execout_fill (_ : unit) : prog (unit + unit) :=
  a <- sbrk PGSIZE ;;
  if a =? SBRK_ERROR then break tt else
  store_at 1 (u64 (a + PGSIZE - 1)) 1 ;;
  continue tt.

Definition execout (s : list Z) : prog unit :=
  upto 15 0 (fun avail =>
    pid <- fork ;;
    if pid <? 0 then fail "fork failed" [] else
    if pid =? 0 then
      while execout_fill tt ;;
      upto (Z.to_nat avail) 0 (fun _ => sbrk (- PGSIZE) ;; Ret tt) ;;
      close 1 ;;
      exec (lit "echo") [lit "echo"; lit "x"] ;;
      exit 0
    else wait0 ;; Ret tt) ;;
  exit 0.

(** * The tables *)

Definition test : Type := (list Z -> prog unit) * list Z.

(** [&base] of umalloc.c and the array [uninit], as the program was loaded, are what
    two of the tests depend on. *)
Definition quicktests (base : Z) (uninit : list Z) : list test :=
  [(ut_copyin, lit "copyin"); (ut_copyout, lit "copyout"); (copyinstr1, lit "copyinstr1"); (copyinstr2, lit "copyinstr2");
   (copyinstr3, lit "copyinstr3"); (rwsbrk, lit "rwsbrk"); (truncate1, lit "truncate1"); (truncate2, lit "truncate2");
   (truncate3, lit "truncate3"); (openiputtest, lit "openiput"); (exitiputtest, lit "exitiput"); (iputtest, lit "iput");
   (opentest, lit "opentest"); (writetest, lit "writetest"); (writebig, lit "writebig"); (createtest, lit "createtest");
   (dirtest, lit "dirtest"); (exectest, lit "exectest"); (pipe1, lit "pipe1"); (killstatus, lit "killstatus");
   (preempt, lit "preempt"); (exitwait, lit "exitwait"); (reparent, lit "reparent"); (twochildren, lit "twochildren");
   (forkfork, lit "forkfork"); (forkforkfork, lit "forkforkfork"); (reparent2, lit "reparent2"); (mem base, lit "mem");
   (sharedfd, lit "sharedfd"); (fourfiles, lit "fourfiles"); (createdelete, lit "createdelete"); (unlinkread, lit "unlinkread");
   (linktest, lit "linktest"); (concreate, lit "concreate"); (linkunlink, lit "linkunlink"); (subdir, lit "subdir");
   (bigwrite, lit "bigwrite"); (bigfile, lit "bigfile"); (fourteen, lit "fourteen"); (rmdot, lit "rmdot");
   (dirfile, lit "dirfile"); (iref, lit "iref"); (forktest, lit "forktest"); (sbrkbasic, lit "sbrkbasic");
   (sbrkmuch, lit "sbrkmuch"); (kernmem, lit "kernmem"); (MAXVAplus, lit "MAXVAplus"); (sbrkfail, lit "sbrkfail");
   (sbrkarg, lit "sbrkarg"); (validatetest, lit "validatetest"); (bsstest uninit, lit "bsstest"); (bigargtest, lit "bigargtest");
   (argptest, lit "argptest"); (stacktest, lit "stacktest"); (nowrite, lit "nowrite"); (pgbug, lit "pgbug");
   (sbrkbugs, lit "sbrkbugs"); (sbrklast, lit "sbrklast"); (sbrk8000, lit "sbrk8000"); (badarg, lit "badarg");
   (lazy_alloc, lit "lazy_alloc"); (lazy_unmap, lit "lazy_unmap"); (lazy_copy, lit "lazy_copy");
   (lazy_copyinstr, lit "lazy_copyinstr"); (lazy_sbrk, lit "lazy_sbrk"); (partial_write, lit "partial_write");
   (unlinkcwd, lit "unlinkcwd")].

(** [junk] is what an array without a value holds. *)
Definition slowtests (junk : list Z) : list test :=
  [(bigdir, lit "bigdir"); (manywrites, lit "manywrites"); (badwrite, lit "badwrite"); (execout, lit "execout");
   (diskfull junk, lit "diskfull"); (outofinodes, lit "outofinodes")].

(** * Running the tests *)

Definition run (f : list Z -> prog unit) (s : list Z) : prog bool :=
  printf (lit "test %s: ") [str s] ;;
  pid <- fork ;;
  if pid <? 0 then fail "runtest: fork error" [] else
  if pid =? 0 then f s ;; exit 0 else
  ' (_, xstatus) <- wait_into None ;;
  x <- value xstatus ;;
  (if negb (x =? 0) then printf (lit "FAILED" ++ nl) [] else printf (lit "OK" ++ nl) []) ;;
  Ret (x =? 0).

(** [(justone == 0) || strcmp(t->s, justone) == 0] *)
Definition chosen (justone : option (list Z)) (name : list Z) : bool :=
  match justone with None => true | Some j => bool_decide (name = j) end.

(** From the test [t] on; [ntests] were run. *)
Fixpoint runtests (tests : list test) (justone : option (list Z)) (continuous ntests : Z) : prog Z :=
  match tests with
  | [] => Ret ntests
  | (f, name) :: tests =>
      if chosen justone name then
        let ntests := ntests + 1 in
        ok <- run f name ;;
        if negb ok && negb (continuous =? 2) then printf (lit "SOME TESTS FAILED" ++ nl) [] ;; Ret (-1)
        else runtests tests justone continuous ntests
      else runtests tests justone continuous ntests
  end.

Definition countfree_body (n : Z) : prog (Z + Z) :=
  a <- sbrk PGSIZE ;;
  if a =? SBRK_ERROR then break n else continue (n + 1).
Definition countfree : prog Z :=
  sz0 <- sbrk 0 ;;
  n <- while countfree_body 0 ;;
  top <- sbrk 0 ;;
  sbrk (i32 (- (top - sz0))) ;;
  Ret n.

(** [runtests], and what its answer is used for: the number of tests so far, or
    [None] for [return 1]. *)
Definition drive_table (tests : list test) (justone : option (list Z)) (continuous ntests : Z) : prog (option Z) :=
  n <- runtests tests justone continuous 0 ;;
  if n <? 0 then if negb (continuous =? 2) then Ret None else Ret (Some ntests)
  else Ret (Some (ntests + n)).

(** The end of a round, after the tables. *)
Definition drive_end (continuous : Z) (justone : option (list Z)) (free0 ntests : Z) : prog (unit + Z) :=
  free1 <- countfree ;;
  lost <- (if free1 <? free0 then
             printf (lit "FAILED -- lost some free pages %d (out of %d)" ++ nl) [VInt free1; VInt free0] ;;
             Ret (negb (continuous =? 2))
           else Ret false) ;;
  if (lost : bool) then break 1 else
  if bool_decide (justone <> None) && (ntests =? 0) then printf (lit "NO TESTS EXECUTED" ++ nl) [] ;; break 1 else
  if negb (continuous =? 0) then continue tt else break 0.

(** [do { ... } while (continuous);] *)
Definition drive_round (quicktests slowtests : list test) (quick continuous : Z) (justone : option (list Z))
    (_ : unit) : prog (unit + Z) :=
  printf (lit "usertests starting" ++ nl) [] ;;
  free0 <- countfree ;;
  n <- drive_table quicktests justone continuous 0 ;;
  match n with
  | None => break 1
  | Some ntests =>
      n <- (if quick =? 0 then
              (if bool_decide (justone = None) then printf (lit "usertests slow tests starting" ++ nl) [] else Ret tt) ;;
              drive_table slowtests justone continuous ntests
            else Ret (Some ntests)) ;;
      match n with
      | None => break 1
      | Some ntests => drive_end continuous justone free0 ntests
      end
  end.
Definition drivetests (quicktests slowtests : list test) (quick continuous : Z) (justone : option (list Z)) : prog Z :=
  while (drive_round quicktests slowtests quick continuous justone) tt.

Definition usertests_main (quicktests slowtests : list test) (argv : list (list Z)) : prog Z :=
  let go quick continuous justone :=
    r <- drivetests quicktests slowtests quick continuous justone ;;
    if negb (r =? 0) then exit 1 else
    printf (lit "ALL TESTS PASSED" ++ nl) [] ;;
    exit 0 in
  match argv with
  | [_; arg] =>
      if bool_decide (arg = lit "-q") then go 1 0 None
      else if bool_decide (arg = lit "-c") then go 0 1 None
      else if bool_decide (arg = lit "-C") then go 0 2 None
      else if negb (nth 0 arg 0 =? 45) then go 0 0 (Some arg)
      else fail "Usage: usertests [-c] [-C] [-q] [testname]" []
  | _ =>
      if (1 <? length argv)%nat then fail "Usage: usertests [-c] [-C] [-q] [testname]" []
      else go 0 0 None
  end.
