(* ===== verification/TestRun.v ===== *)
(** What the runner of usertests.c reports.

    The runner runs the tests of its tables in order until the first that fails,
    tells which succeeded by the exit status of the child, checks that the tests
    gave their memory back, and exits with 0 only if nothing failed.  The theorem is
    for all tables of tests; it does not speak of what a test does, only of how its
    process ends. *)

From S2P Require Import Prelude Types Memory Spinlock Sched Sleeplock Uart Printf Ulib User Programs ProgSpec Umalloc UserTests.
From ITree Require Import ITree ITreeFacts Events.State Events.StateFacts.
Local Open Scope Z_scope.
Local Open Scope u_scope.

(** * What the runner may expect of the system *)

(** The break, the pages that can still be had, and how the next children will end:
    the exit status and the pages that can be had afterwards. *)
Record bed_view := mk_bed { bd_brk : Z; bd_pages : nat; bd_due : list (Z * nat) }.

Class Bed (W : Type) `{!World W, !Io W} : Type := {
  bed : W -> bed_view;
  bed_write : forall w l, bed (answer (Write 1 l) w).1 = bed w;
  bed_top : forall w, exists w', answer (Sbrk 0) w = (w', bd_brk (bed w)) /\ bed w' = bed w /\ view w' = view w;
  bed_grow : forall w b p d, bed w = mk_bed b (S p) d ->
    exists w', answer (Sbrk PGSIZE) w = (w', b) /\ bed w' = mk_bed (b + PGSIZE) p d /\ view w' = view w;
  bed_full : forall w b d, bed w = mk_bed b 0 d ->
    exists w', answer (Sbrk PGSIZE) w = (w', SBRK_ERROR) /\ bed w' = bed w /\ view w' = view w;
  bed_shrink : forall w b p d (k : nat), bed w = mk_bed b p d -> Z.of_nat k * PGSIZE <= b ->
    exists w', answer (Sbrk (- (Z.of_nat k * PGSIZE))) w = (w', b) /\
      bed w' = mk_bed (b - Z.of_nat k * PGSIZE) (p + k) d /\ view w' = view w;
  bed_child : forall w b p d x p', bed w = mk_bed b p ((x, p') :: d) ->
    exists pid w1 w2, answer Fork w = (w1, pid) /\ 0 < pid /\ answer Wait w1 = (w2, (pid, x)) /\
      bed w2 = mk_bed b p' d /\ view w2 = view w;
}.

(** All the memory there is can be had with an [int] for an argument. *)
Definition fits (b : bed_view) : Prop :=
  0 <= bd_brk b /\ Forall (fun p => bd_brk b + Z.of_nat p * PGSIZE < 2 ^ 31) (bd_pages b :: (bd_due b).*2).

(** ** The report *)

Definition line (name : list Z) (x : Z) : list Z :=
  lit "test " ++ name ++ lit ": " ++ (if x =? 0 then lit "OK" ++ nl else lit "FAILED" ++ nl).

(** The tests [names], from [p] free pages on: the text, and the pages and children
    left unless a test fails, which ends it. *)
Fixpoint table (names : list (list Z)) (p : nat) (due : list (Z * nat)) : list Z * option (nat * list (Z * nat)) :=
  match names, due with
  | name :: names, (x, p') :: due =>
      if x =? 0 then let '(t, r) := table names p' due in (line name x ++ t, r)
      else (line name x ++ lit "SOME TESTS FAILED" ++ nl, None)
  | _, _ => ([], Some (p, due))
  end.

Definition names_of (tests : list test) (justone : option (list Z)) : list (list Z) :=
  filter (fun name => chosen justone name = true) (tests.*2).

Section Runner.
Context {W : Type} `{Bed W}.

(** The world [v] with [o] sent to the console, and [b]. *)
Definition sits (v : io_view) (o : list Z) (b : bed_view) (w : W) : Prop :=
  view w = set_v_out <[1 := o]> v /\ bed w = b /\ fits b.

Lemma sits_says p l v o b w :
  says p 1 l -> sits v o b w -> exists w', goes p w (Val w' tt) /\ sits v (o ++ l) b w'.
Proof.
  intros Hp (V & B & F). destruct (Hp w o) as (w' & G & V' & K); [rewrite V; apply lookup_insert_eq|].
  exists w'. split; [exact G|]. split_and!; [| |exact F].
  - rewrite V', V. unfold set_v_out. cbn. by rewrite insert_insert_eq.
  - apply (K (fun x => bed x = b)); [|done]. intros x k Hx. by rewrite bed_write.
Qed.

(** Text that [printf] sends as it is. *)
Definition verbatim (t : list Z) : bool := forallb (fun c => (0 <=? c) && (c <? 256) && negb (c =? 37)) t.

Lemma verbatim_ok t : verbatim t = true -> piece_ok (PLit t).
Proof.
  unfold verbatim. rewrite forallb_forall. intros Ht. split.
  - apply Forall_forall. intros c Hc%list_elem_of_In%Ht. unfold byte_ok. b2p. lia.
  - intros Hc%list_elem_of_In%Ht. done.
Qed.

Lemma says_text t : verbatim t = true -> says (printf t []) 1 t.
Proof.
  intros Ht. apply (says_fmt 1 [PLit t]); [by cbn; rewrite app_nil_r|done|by cbn; rewrite app_nil_r|].
  constructor; [by apply verbatim_ok|constructor].
Qed.

Lemma countfree_loop b p d w n :
  bed w = mk_bed b p d -> 0 <= b -> b + Z.of_nat p * PGSIZE < 2 ^ 31 ->
  exists w', goes (while countfree_body n) w (Val w' (n + Z.of_nat p)) /\
    view w' = view w /\ bed w' = mk_bed (b + Z.of_nat p * PGSIZE) 0 d.
Proof.
  revert b w n; induction p as [|p IH]; intros b w n B Hb Hs.
  - destruct (bed_full w b d B) as (w' & E & B' & V'). exists w'. split; [|split; [done|]].
    + rewrite Z.add_0_r. apply goes_while_done. eapply goes_bind; [by apply goes_sys|]. apply goes_ret.
    + rewrite B', B. f_equal. lia.
  - destruct (bed_grow w b p d B) as (w1 & E & B1 & V1).
    destruct (IH (b + PGSIZE) w1 (n + 1) B1) as (w' & G & V' & B'); [unfold PGSIZE; lia|unfold PGSIZE in *; lia|].
    exists w'. split; [|split; [by rewrite V'|rewrite B'; f_equal; lia]].
    replace (n + Z.of_nat (S p)) with (n + 1 + Z.of_nat p) by lia. eapply goes_while_more; [|exact G].
    eapply goes_bind; [by apply goes_sys|].
    rewrite (proj2 (Z.eqb_neq _ _)) by (unfold SBRK_ERROR, PGSIZE in *; lia). apply goes_ret.
Qed.

(** [countfree] tells the pages and gives them back. *)
Lemma countfree_ok v o b p d w :
  sits v o (mk_bed b p d) w -> exists w', goes countfree w (Val w' (Z.of_nat p)) /\ sits v o (mk_bed b p d) w'.
Proof.
  intros (V & B & F). pose proof F as [Hb Hs]. apply Forall_cons_1 in Hs as [Hs _]. cbn [bd_brk bd_pages] in *.
  destruct (bed_top w) as (w1 & E1 & B1 & V1). rewrite B in E1, B1. cbn [bd_brk] in E1.
  destruct (countfree_loop b p d w1 0 B1 Hb Hs) as (w2 & G2 & V2 & B2).
  destruct (bed_top w2) as (w3 & E3 & B3 & V3). rewrite B2 in E3, B3. cbn [bd_brk] in E3.
  destruct (bed_shrink w3 _ _ _ p B3 ltac:(lia)) as (w4 & E4 & B4 & V4).
  exists w4. split.
  - unfold countfree. eapply goes_bind; [by apply goes_sys|]. eapply goes_bind; [exact G2|]. eapply goes_bind; [by apply goes_sys|].
    eapply goes_bind; [|apply goes_ret]. apply goes_sys. rewrite swrap_small by (unfold PGSIZE in *; lia).
    replace (- (b + Z.of_nat p * PGSIZE - b)) with (- (Z.of_nat p * PGSIZE)) by lia. exact E4.
  - split_and!; [by rewrite V4, V3, V2, V1| |exact F]. rewrite B4. f_equal. lia.
Qed.

(** The other side: the process of the test ends as the test does, or with 0 when the
    test returns. *)
Lemma run_child f s w w1 w2 w3 :
  goes (printf (lit "test %s: ") [str s]) w (Val w1 tt) -> answer Fork w1 = (w2, 0) ->
  (goes (f s) w2 (Val w3 tt) -> goes (run f s) w (Stop w3 (Exited 0))) /\
  (forall how, goes (f s) w2 (Stop w3 how) -> goes (run f s) w (Stop w3 how)).
Proof.
  intros G1 E. split; [intros G|intros how G]; unfold run; (eapply goes_bind; [exact G1|]); (eapply goes_bind; [by apply goes_sys|]);
    cbn [Z.ltb Z.eqb Z.compare].
  - eapply goes_bind; [exact G|apply goes_halt].
  - by apply goes_bind_stop.
Qed.

Lemma run_ok f s v o b p d x p' w :
  Forall byte_ok s -> sits v o (mk_bed b p ((x, p') :: d)) w ->
  exists w', goes (run f s) w (Val w' (x =? 0)) /\ sits v (o ++ line s x) (mk_bed b p' d) w'.
Proof.
  intros Hs S0. assert (H1 : says (printf (lit "test %s: ") [str s]) 1 (lit "test " ++ s ++ lit ": ")).
  { apply (says_fmt 1 [PLit (lit "test "); PStr s; PLit (lit ": ")]); [done|done|reflexivity|].
    constructor; [by apply verbatim_ok|]. constructor; [exact Hs|]. constructor; [by apply verbatim_ok|constructor]. }
  destruct (sits_says _ _ _ _ _ _ H1 S0) as (w1 & G1 & V1 & B1 & F).
  destruct (bed_child w1 b p d x p' B1) as (pid & w2 & w3 & E2 & Hpid & E3 & B3 & V3).
  assert (H4 : says (if negb (x =? 0) then printf (lit "FAILED" ++ nl) [] else printf (lit "OK" ++ nl) []) 1
            (if x =? 0 then lit "OK" ++ nl else lit "FAILED" ++ nl)).
  { by destruct (x =? 0); apply says_text. }
  assert (F' : fits (mk_bed b p' d)) by (destruct F as [F1 [_ F2]%Forall_cons_1]; by split).
  destruct (sits_says _ _ v (o ++ lit "test " ++ s ++ lit ": ") (mk_bed b p' d) w3 H4) as (w4 & G4 & S4); [split_and!; [by rewrite V3|done|done]|].
  exists w4. split.
  - unfold run. eapply goes_bind; [exact G1|]. eapply goes_bind; [by apply goes_sys|].
    rewrite (proj2 (Z.ltb_ge _ _)), (proj2 (Z.eqb_neq _ _)) by lia.
    eapply goes_bind; [eapply goes_bind; [by apply goes_sys|]; cbv beta iota; apply goes_ret|].
    rewrite (proj2 (Z.ltb_ge _ _)) by lia. cbv beta iota. eapply goes_bind; [apply goes_ret|].
    eapply goes_bind; [exact G4|apply goes_ret].
  - unfold line. by rewrite <- !app_assoc in S4.
Qed.

Definition passed (n : nat) (due : list (Z * nat)) : Prop := Forall (fun r => r.1 = 0) (take n due).

Lemma runtests_ok tests justone v o b p d w n :
  0 <= n -> Forall (Forall byte_ok) (names_of tests justone) -> (length (names_of tests justone) <= length d)%nat ->
  sits v o (mk_bed b p d) w ->
  exists w', match table (names_of tests justone) p d with
    | (t, Some (p', d')) => goes (runtests tests justone 0 n) w (Val w' (n + Z.of_nat (length (names_of tests justone)))) /\
        sits v (o ++ t) (mk_bed b p' d') w'
    | (t, None) => goes (runtests tests justone 0 n) w (Val w' (-1)) /\ view w' = set_v_out <[1 := o ++ t]> v
    end.
Proof.
  revert o p d w n; induction tests as [|[f name] tests IH]; intros o p d w n Hn Hok Hlen S0.
  { exists w. cbn. rewrite app_nil_r, Z.add_0_r. split; [apply goes_ret|done]. }
  unfold names_of in *. rewrite fmap_cons, filter_cons in *. cbn [runtests snd] in *.
  destruct (chosen justone name) eqn:Ec; [rewrite decide_True in * by done|rewrite decide_False in * by done; by apply IH].
  set (names := filter _ (tests.*2)) in *. destruct d as [|[x p'] d]; [cbn in Hlen; lia|].
  apply Forall_cons_1 in Hok as [Hname Hok]. cbn [length] in Hlen. cbn [table].
  destruct (run_ok f name v o b p d x p' w Hname S0) as (w1 & G1 & S1).
  destruct (x =? 0) eqn:Ex.
  - destruct (IH (o ++ line name x) p' d w1 (n + 1)) as (w2 & H2); [lia|done|lia|done|]. exists w2.
    destruct (table names p' d) as [t [[p2 d2]|]]; destruct H2 as [G2 S2]; rewrite app_assoc; (split; [|exact S2]);
      (eapply goes_bind; [exact G1|]); cbn [negb andb]; [|exact G2].
    replace (n + Z.of_nat (length (name :: names))) with (n + 1 + Z.of_nat (length names)) by (cbn [length]; lia). exact G2.
  - assert (H2 : says (printf (lit "SOME TESTS FAILED" ++ nl) []) 1 (lit "SOME TESTS FAILED" ++ nl)) by (by apply says_text).
    destruct (sits_says _ _ _ _ _ _ H2 S1) as (w2 & G2 & V2 & _). exists w2. rewrite app_assoc. split; [|exact V2].
    eapply goes_bind; [exact G1|]. cbn [negb andb Z.eqb]. eapply goes_bind; [exact G2|apply goes_ret].
Qed.

Lemma drive_table_ok tests justone v o b p d w n :
  0 <= n -> Forall (Forall byte_ok) (names_of tests justone) -> (length (names_of tests justone) <= length d)%nat ->
  sits v o (mk_bed b p d) w ->
  exists w', match table (names_of tests justone) p d with
    | (t, Some (p', d')) =>
        goes (drive_table tests justone 0 n) w (Val w' (Some (n + Z.of_nat (length (names_of tests justone))))) /\
        sits v (o ++ t) (mk_bed b p' d') w'
    | (t, None) => goes (drive_table tests justone 0 n) w (Val w' None) /\ view w' = set_v_out <[1 := o ++ t]> v
    end.
Proof.
  intros Hn Hok Hlen S0. destruct (runtests_ok tests justone v o b p d w 0 ltac:(lia) Hok Hlen S0) as (w' & Hr). exists w'.
  destruct (table _ p d) as [t [[p' d']|]]; destruct Hr as [G S1]; (split; [|exact S1]); (eapply goes_bind; [exact G|]).
  - rewrite (proj2 (Z.ltb_ge _ _)) by lia. apply goes_ret.
  - apply goes_ret.
Qed.

(** A table comes to its end when its tests pass; what is left then. *)
Lemma table_passed names p d :
  (length names <= length d)%nat ->
  match (table names p d).2 with
  | Some (p', d') => passed (length names) d /\ d' = drop (length names) d /\ p' = default p (snd <$> last (take (length names) d))
  | None => ~ passed (length names) d
  end.
Proof.
  unfold passed. revert p d; induction names as [|name names IH]; intros p d Hlen; [by destruct d|].
  destruct d as [|[x p'] d]; [cbn in Hlen; lia|]. cbn [table length take drop]. destruct (Z.eqb_spec x 0) as [->|Hx].
  - specialize (IH p' d ltac:(cbn in Hlen; lia)). destruct (table names p' d) as [t [[p2 d2]|]]; cbn [snd] in *.
    + destruct IH as (H1 & -> & ->). split; [by constructor|]. split; [done|].
      rewrite last_cons. by destruct (last (take (length names) d)).
    + intros [_ Hp]%Forall_cons_1. done.
  - intros [Hx' _]%Forall_cons_1. done.
Qed.

(** ** The whole program *)

(** The end of a report: the pages at the start and at the end, the tests run. *)
Definition ending_text (p p' : nat) (justone : option (list Z)) (ntests : nat) : list Z * Z :=
  if (p' <? p)%nat then
    (lit "FAILED -- lost some free pages " ++ dec_text (Z.of_nat p') ++ lit " (out of " ++ dec_text (Z.of_nat p) ++ lit ")" ++ nl, 1)
  else if bool_decide (justone <> None) && (ntests =? 0)%nat then (lit "NO TESTS EXECUTED" ++ nl, 1)
  else (lit "ALL TESTS PASSED" ++ nl, 0).

(** What the program prints and exits with, for the tests [qn] and [sn] of the two
    tables. *)
Definition slow_banner (justone : option (list Z)) : list Z :=
  if bool_decide (justone = None) then lit "usertests slow tests starting" ++ nl else [].
Definition report (quick : bool) (justone : option (list Z)) (qn sn : list (list Z)) (p : nat) (due : list (Z * nat)) : list Z * Z :=
  let '(t1, r1) := table qn p due in
  let t1 := lit "usertests starting" ++ nl ++ t1 in
  match r1 with
  | None => (t1, 1)
  | Some (p1, due1) =>
      if quick then let '(t, code) := ending_text p p1 justone (length qn) in (t1 ++ t, code) else
      let '(t2, r2) := table sn p1 due1 in
      let t2 := t1 ++ slow_banner justone ++ t2 in
      match r2 with
      | None => (t2, 1)
      | Some (p2, _) => let '(t, code) := ending_text p p2 justone (length qn + length sn) in (t2 ++ t, code)
      end
  end.

(** The arguments, when they do not ask for rounds without end. *)
Definition options (argv : list (list Z)) : option (bool * option (list Z)) :=
  match argv with
  | [] | [_] => Some (false, None)
  | [_; arg] =>
      if bool_decide (arg = lit "-q") then Some (true, None)
      else if nth 0 arg 0 =? 45 then None else Some (false, Some arg)
  | _ => None
  end.

Definition finish (r : Z) : prog Z :=
  if negb (r =? 0) then exit 1 else printf (lit "ALL TESTS PASSED" ++ nl) [] ;; exit 0.

Lemma main_options quicktests slowtests argv quick justone w o :
  options argv = Some (quick, justone) ->
  goes (r <- drivetests quicktests slowtests (if quick then 1 else 0) 0 justone ;; finish r) w o ->
  goes (usertests_main quicktests slowtests argv) w o.
Proof.
  unfold options, usertests_main. intros Ho G.
  destruct argv as [|a0 [|arg [|? ?]]]; simplify_eq; [exact G|exact G|]. cbn [length].
  destruct (bool_decide_reflect (arg = lit "-q")) as [->|Hq]; simplify_eq; [exact G|].
  destruct (nth 0 arg 0 =? 45) eqn:E0; simplify_eq.
  rewrite !bool_decide_false; [exact G|..]; intros ->; done.
Qed.

(** [p] ends the round with an answer for which [finish] prints the rest of [t] and
    exits with [code]. *)
Definition ends (q : prog (unit + Z)) (w : W) (v : io_view) (o t : list Z) (code : Z) : Prop :=
  exists w1 w2 r, goes q w (Val w1 (inr r)) /\ goes (finish r) w1 (Stop w2 (Exited code)) /\
    view w2 = set_v_out <[1 := o ++ t]> v.

Lemma ends_fail q w w1 v o t : goes q w (Val w1 (inr 1)) -> view w1 = set_v_out <[1 := o ++ t]> v -> ends q w v o t 1.
Proof. intros G V. exists w1, w1, 1. split; [exact G|]. split; [apply goes_halt|exact V]. Qed.

Lemma ends_bind {A} (q : prog A) k w w1 a v o t code :
  goes q w (Val w1 a) -> ends (k a) w1 v o t code -> ends (ITree.bind q k) w v o t code.
Proof. intros G (w2 & w3 & r & G2 & Hf). exists w2, w3, r. split; [by eapply goes_bind|exact Hf]. Qed.

Lemma drive_end_ok v o b p p' d w justone n :
  sits v o (mk_bed b p' d) w -> Z.of_nat p < 2 ^ 31 ->
  ends (drive_end 0 justone (Z.of_nat p) (Z.of_nat n)) w v o (ending_text p p' justone n).1 (ending_text p p' justone n).2.
Proof.
  intros S0 Hp. destruct (proj2 (proj2 S0)) as [Hb [Hs _]%Forall_cons_1]. cbn [bd_brk bd_pages] in *.
  destruct (countfree_ok v o b p' d w S0) as (w1 & G1 & S1). unfold drive_end, ending_text.
  eapply ends_bind; [exact G1|]. destruct (Nat.ltb_spec p' p) as [Hlt|Hge].
  - rewrite (proj2 (Z.ltb_lt _ _)) by lia. cbn [fst snd].
    assert (H2 : says (printf (lit "FAILED -- lost some free pages %d (out of %d)" ++ nl) [VInt (Z.of_nat p'); VInt (Z.of_nat p)]) 1
      (lit "FAILED -- lost some free pages " ++ dec_text (Z.of_nat p') ++ lit " (out of " ++ dec_text (Z.of_nat p) ++ lit ")" ++ nl)).
    { apply (says_fmt 1 [PLit (lit "FAILED -- lost some free pages "); PDec (Z.of_nat p'); PLit (lit " (out of ");
        PDec (Z.of_nat p); PLit (lit ")" ++ nl)]); [reflexivity..|].
      repeat (constructor; [first [by apply verbatim_ok|unfold PGSIZE in Hs; cbn; lia]|]). constructor. }
    destruct (sits_says _ _ _ _ _ _ H2 S1) as (w2 & G2 & V2 & _). apply (ends_fail _ _ w2); [|exact V2].
    eapply goes_bind; [eapply goes_bind; [exact G2|apply goes_ret]|]. apply goes_ret.
  - rewrite (proj2 (Z.ltb_ge _ _)) by lia. eapply ends_bind; [apply goes_ret|]. cbv beta iota.
    replace (Z.of_nat n =? 0) with (n =? 0)%nat by (destruct (Nat.eqb_spec n 0), (Z.eqb_spec (Z.of_nat n) 0); done || lia).
    destruct (bool_decide (justone <> None) && (n =? 0)%nat).
    + assert (H2 : says (printf (lit "NO TESTS EXECUTED" ++ nl) []) 1 (lit "NO TESTS EXECUTED" ++ nl)) by (by apply says_text).
      destruct (sits_says _ _ _ _ _ _ H2 S1) as (w2 & G2 & V2 & _). apply (ends_fail _ _ w2); [|exact V2].
      eapply goes_bind; [exact G2|apply goes_ret].
    + assert (H2 : says (printf (lit "ALL TESTS PASSED" ++ nl) []) 1 (lit "ALL TESTS PASSED" ++ nl)) by (by apply says_text).
      destruct (sits_says _ _ _ _ _ _ H2 S1) as (w2 & G2 & V2 & _). exists w1, w2, 0. split; [apply goes_ret|].
      split; [eapply goes_bind; [exact G2|apply goes_halt]|exact V2].
Qed.

(** Enough children for the tests of the tables *)
Definition enough (quick : bool) (justone : option (list Z)) (qt st : list test) (due : list (Z * nat)) : Prop :=
  (length (names_of qt justone) + (if quick then 0 else length (names_of st justone)) <= length due)%nat.

Lemma ends_text q w v o t t' code : ends q w v (o ++ t) t' code -> ends q w v o (t ++ t') code.
Proof. unfold ends. by rewrite app_assoc. Qed.

Lemma drive_round_ok quick justone qt st v o b p d w :
  Forall (Forall byte_ok) (names_of qt justone) -> Forall (Forall byte_ok) (names_of st justone) ->
  enough quick justone qt st d -> sits v o (mk_bed b p d) w ->
  ends (drive_round qt st (if quick then 1 else 0) 0 justone tt) w v o
    (report quick justone (names_of qt justone) (names_of st justone) p d).1
    (report quick justone (names_of qt justone) (names_of st justone) p d).2.
Proof.
  intros Hq Hs Hen S0. unfold enough in Hen. destruct (proj2 (proj2 S0)) as [Hb [Hsm _]%Forall_cons_1]. cbn [bd_brk bd_pages] in *.
  assert (Hp : Z.of_nat p < 2 ^ 31) by (unfold PGSIZE in Hsm; lia).
  assert (H1 : says (printf (lit "usertests starting" ++ nl) []) 1 (lit "usertests starting" ++ nl)) by (by apply says_text).
  destruct (sits_says _ _ _ _ _ _ H1 S0) as (w1 & G1 & S1). destruct (countfree_ok v _ b p d w1 S1) as (w2 & G2 & S2).
  unfold drive_round. eapply ends_bind; [exact G1|]. eapply ends_bind; [exact G2|]. clear G1 G2 S0 S1. unfold report.
  pose proof (table_passed (names_of qt justone) p d ltac:(lia)) as Ht.
  destruct (drive_table_ok qt justone v _ b p d w2 0 ltac:(lia) Hq ltac:(lia) S2) as (w3 & H3).
  destruct (table (names_of qt justone) p d) as [t1 [[p1 d1]|]]; destruct H3 as [G3 S3]; (eapply ends_bind; [exact G3|]); cbv beta iota.
  2:{ rewrite <- !app_assoc in S3. apply (ends_fail _ _ w3); [apply goes_ret|exact S3]. }
  cbn [snd] in Ht. destruct Ht as (_ & -> & _). rewrite <- !app_assoc in S3. destruct quick; cbv iota in Hen.
  { eapply ends_bind; [apply goes_ret|]. cbv beta iota. pose proof (drive_end_ok v _ b p p1 _ w3 justone (length (names_of qt justone)) S3 Hp) as He.
    destruct (ending_text p p1 justone (length (names_of qt justone))) as [t code]. by apply ends_text. }
  assert (H4 : says (if bool_decide (justone = None) then printf (lit "usertests slow tests starting" ++ nl) [] else Ret tt) 1 (slow_banner justone)).
  { unfold slow_banner. case_bool_decide; [by apply says_text|apply says_ret]. }
  destruct (sits_says _ _ _ _ _ _ H4 S3) as (w4 & G4 & S4).
  destruct (drive_table_ok st justone v _ b p1 (drop (length (names_of qt justone)) d) w4 (0 + Z.of_nat (length (names_of qt justone))) ltac:(lia) Hs ltac:(rewrite length_drop; lia) S4) as (w5 & H5).
  destruct (table (names_of st justone) p1 (drop (length (names_of qt justone)) d)) as [t2 [[p2 d2]|]]; destruct H5 as [G5 S5];
    (eapply ends_bind; [eapply goes_bind; [exact G4|exact G5]|]); cbv beta iota; rewrite <- !app_assoc in S5.
  2:{ apply (ends_fail _ _ w5); [apply goes_ret|]. rewrite <- !app_assoc. exact S5. }
  replace (0 + Z.of_nat (length (names_of qt justone)) + Z.of_nat (length (names_of st justone)))
    with (Z.of_nat (length (names_of qt justone) + length (names_of st justone))) by lia.
  pose proof (drive_end_ok v _ b p p2 _ w5 justone (length (names_of qt justone) + length (names_of st justone)) S5 Hp) as He.
  destruct (ending_text p p2 justone _) as [t code]. apply ends_text. rewrite <- !app_assoc. exact He.
Qed.

(** The number of tests to run, and the free pages after [n] children *)
Definition ntests (quick : bool) (justone : option (list Z)) (qt st : list test) : nat :=
  (length (names_of qt justone) + (if quick then 0 else length (names_of st justone)))%nat.
Definition pages_after (n p : nat) (due : list (Z * nat)) : nat := default p (snd <$> last (take n due)).

Lemma pages_after_app n m p d : pages_after (n + m) p d = pages_after m (pages_after n p d) (drop n d).
Proof.
  unfold pages_after. rewrite <- take_take_drop, last_app. by destruct (last (take m (drop n d))).
Qed.

Lemma passed_app n m d : passed (n + m) d <-> passed n d /\ passed m (drop n d).
Proof. unfold passed. by rewrite <- take_take_drop, Forall_app. Qed.

Lemma ending_verdict p p' justone n :
  (ending_text p p' justone n).2 = 0 <-> (p <= p')%nat /\ (justone = None \/ n <> 0%nat).
Proof.
  unfold ending_text. destruct (Nat.ltb_spec p' p); cbn; [split; [done|lia]|].
  case_bool_decide as Hj; cbn; [|split; [|done]; intros _; split; [done|left]; by destruct (decide (justone = None))].
  destruct (Nat.eqb_spec n 0); cbn; split; try done; intros; [naive_solver|split; [done|by right]].
Qed.

Lemma report_verdict quick justone qt st p d :
  enough quick justone qt st d ->
  (report quick justone (names_of qt justone) (names_of st justone) p d).2 = 0 <->
  passed (ntests quick justone qt st) d /\ (p <= pages_after (ntests quick justone qt st) p d)%nat /\
  (justone = None \/ ntests quick justone qt st <> 0%nat).
Proof.
  unfold enough, report, ntests. intros Hen. set (qn := names_of qt justone) in *. set (sn := names_of st justone) in *.
  pose proof (table_passed qn p d ltac:(lia)) as H1. destruct (table qn p d) as [t1 [[p1 d1]|]]; cbn [snd] in H1.
  2:{ split; [done|]. rewrite passed_app. tauto. }
  destruct H1 as (H1 & -> & Hp1). fold (pages_after (length qn) p d) in Hp1. destruct quick; cbv iota in *.
  { pose proof (ending_verdict p p1 justone (length qn)) as Hv. destruct (ending_text p p1 justone (length qn)) as [t code].
    cbn [snd] in *. rewrite Hv, Nat.add_0_r, <- Hp1. tauto. }
  pose proof (table_passed sn p1 (drop (length qn) d) ltac:(rewrite length_drop; lia)) as H2.
  rewrite passed_app, pages_after_app, <- Hp1.
  destruct (table sn p1 (drop (length qn) d)) as [t2 [[p2 d2]|]]; cbn [snd] in *.
  2:{ split; [done|]. tauto. }
  destruct H2 as (H2 & _ & Hp2). fold (pages_after (length sn) p1 (drop (length qn) d)) in Hp2.
  pose proof (ending_verdict p p2 justone (length qn + length sn)) as Hv.
  destruct (ending_text p p2 justone (length qn + length sn)) as [t code]. cbn [snd] in *. rewrite Hv, <- Hp2. tauto.
Qed.

(** C36: what the runner of the tests reports. Called without options, with [-q] or with
    the name of a test, it prints the report of the tests it is to run: one line for
    each, OK if its process exits with 0, up to the first that fails. It exits with 0
    just when every test passed, no page was lost, and the test asked for exists. *)
Theorem usertests_reports w argv quick justone qt st o b p d :
  options argv = Some (quick, justone) ->
  Forall (Forall byte_ok) (names_of qt justone) -> Forall (Forall byte_ok) (names_of st justone) ->
  v_out (view w) !! 1 = Some o -> bed w = mk_bed b p d -> fits (mk_bed b p d) -> enough quick justone qt st d ->
  exists w' code, goes (start (usertests_main qt st argv)) w (Stop w' (Exited code)) /\
    view w' = set_v_out <[1 := o ++ (report quick justone (names_of qt justone) (names_of st justone) p d).1]> (view w) /\
    (code = 0 <-> passed (ntests quick justone qt st) d /\ (p <= pages_after (ntests quick justone qt st) p d)%nat /\
       (justone = None \/ ntests quick justone qt st <> 0%nat)).
Proof.
  intros Ho Hq Hs Hout Hb Hf Hen.
  destruct (drive_round_ok quick justone qt st (view w) o b p d w Hq Hs Hen) as (w1 & w2 & r & G1 & G2 & V2).
  { split_and!; [|done|done]. unfold set_v_out. rewrite insert_id by done. by destruct (view w). }
  exists w2. eexists. split; [|split; [exact V2|by apply report_verdict]].
  unfold start. apply goes_bind_stop. apply (main_options _ _ _ _ _ _ _ Ho). eapply goes_bind; [|exact G2].
  apply goes_while_done. exact G1.
Qed.
End Runner.

(** * A sample: three tests, the last of which fails *)

Module Sample3.
Definition bedw : Type := plain * bed_view.

(** Children have pid 7; [fork] takes no memory. *)
Definition bedw_answer {A} (c : sysE A) (w : bedw) : bedw * A :=
  let '(p, b) := w in
  match c in sysE A return bedw * A with
  | Fork => (w, 7)
  | Wait =>
      match bd_due b with
      | (x, n) :: d => ((p, mk_bed (bd_brk b) n d), (7, x))
      | [] => (w, (-1, 0))
      end
  | Sbrk n =>
      if n =? 0 then (w, bd_brk b)
      else if 0 <? n then
        match bd_pages b with
        | S k => ((p, mk_bed (bd_brk b + PGSIZE) k (bd_due b)), bd_brk b)
        | O => (w, SBRK_ERROR)
        end
      else ((p, mk_bed (bd_brk b + n) (bd_pages b + Z.to_nat (- n / PGSIZE)) (bd_due b)), bd_brk b)
  | c => let '(p', r) := plain_answer c p in ((p', b), r)
  end.

#[export] Instance bedw_world : World bedw := @bedw_answer.
#[export] Instance bedw_io : Io bedw.
Proof. apply plain_lift_io; done. Defined.

#[export] Program Instance bedw_bed : Bed bedw := {| bed := snd |}.
Next Obligation.
  intros [p b] l. unfold answer, bedw_world, bedw_answer. by destruct (plain_answer _ p).
Qed.
Next Obligation. intros [p b]. by eexists. Qed.
Next Obligation. intros [p b] x n d E. cbn in E. subst b. by eexists. Qed.
Next Obligation. intros [p b] x d E. cbn in E. subst b. by eexists. Qed.
Next Obligation.
  intros [p b] x n d k E Hk. cbn in E. subst b. unfold answer, bedw_world, bedw_answer. cbn [bd_brk bd_pages bd_due].
  destruct (Z.eqb_spec (- (Z.of_nat k * PGSIZE)) 0) as [E0|E0].
  - eexists. split; [reflexivity|]. split; [|done]. cbn. f_equal; unfold PGSIZE in E0; lia.
  - rewrite (proj2 (Z.ltb_ge _ _)) by (unfold PGSIZE in *; lia). eexists. split; [reflexivity|]. split; [|done]. cbn [snd].
    rewrite Z.opp_involutive, Z.div_mul, Nat2Z.id by done. f_equal.
Qed.
Next Obligation. intros [p b] x n d y n' E. cbn in E. subst b. by exists 7, (p, mk_bed x n ((y, n') :: d)), (p, mk_bed x n' d). Qed.

Definition two_quick : list test := [(opentest, lit "opentest"); (dirtest, lit "dirtest")].
Definition one_slow : list test := [(bigdir, lit "bigdir")].
(** [bigdir] exits with 1. *)
Definition w0 : bedw := (two_files, mk_bed 0x4000 5 [(0, 5%nat); (0, 5%nat); (1, 5%nat)]).
End Sample3.
Import (hints) Sample3.

Lemma usertests_reports_witness :
  exists w' code, goes (start (usertests_main Sample3.two_quick Sample3.one_slow [lit "usertests"])) Sample3.w0 (Stop w' (Exited code)) /\
    v_out (view w') !! 1 = Some (lit "usertests starting" ++ nl ++ lit "test opentest: OK" ++ nl ++ lit "test dirtest: OK" ++ nl ++
      lit "usertests slow tests starting" ++ nl ++ lit "test bigdir: FAILED" ++ nl ++ lit "SOME TESTS FAILED" ++ nl) /\ code <> 0.
Proof.
  destruct (usertests_reports Sample3.w0 [lit "usertests"] false None Sample3.two_quick Sample3.one_slow [] 0x4000 5
    [(0, 5%nat); (0, 5%nat); (1, 5%nat)]) as (w' & code & G & V & Hc).
  - reflexivity.
  - vm_compute. repeat constructor; discriminate.
  - vm_compute. repeat constructor; discriminate.
  - reflexivity.
  - reflexivity.
  - split; [discriminate|]. repeat (apply Forall_cons_2; [reflexivity|]). constructor.
  - change (3 <= 3)%nat. lia.
  - exists w', code. split; [exact G|]. split; [rewrite V; reflexivity|]. intros ->. destruct Hc as [Hc _].
    destruct (Hc eq_refl) as [H _]. apply Forall_lookup_1 with (i := 2%nat) (x := (1, 5%nat)) in H; [discriminate H|reflexivity].
Defined.
