(* ===== verification/Block.v ===== *)
(** What the code above the buffer cache shares: little-endian fields inside the
    data of a block, and a form of the specifications of bio.c that composes.

    [io s m r d U] says that [m], started in [s], returns [r], changing nothing
    but the cache and the disk, which becomes [d], and leaves the blocks [U] in
    use. *)

From S2P Require Import Prelude Types Memory Spinlock Sched Sleeplock Bio.
Local Open Scope c_scope.

(** * Fields *)

(** [x] written over [l] at offset [off]. *)
Definition splice (off : nat) (x l : list Z) : list Z := take off l ++ x ++ drop (off + length x) l.

(** The [k]-byte unsigned integer at offset [off], and its assignment. *)
Definition getle (k off : nat) (l : list Z) : Z := le_dec (take k (drop off l)).
Definition putle (k off : nat) (v : Z) (l : list Z) : list Z := splice off (le_enc k v) l.

Lemma splice_length off x l : (off + length x <= length l)%nat -> length (splice off x l) = length l.
Proof. intros H. unfold splice. rewrite !length_app, length_take, length_drop. lia. Qed.

Lemma splice_same off x l :
  (off + length x <= length l)%nat -> take (length x) (drop off (splice off x l)) = x.
Proof.
  intros H. unfold splice. rewrite drop_app_length' by (rewrite length_take; lia). by rewrite take_app_length.
Qed.

Lemma splice_lookup off x l i :
  (off + length x <= length l)%nat -> (i < off \/ off + length x <= i)%nat -> splice off x l !! i = l !! i.
Proof.
  intros H [Hi|Hi]; unfold splice.
  - rewrite lookup_app_l by (rewrite length_take; lia). by apply lookup_take_lt.
  - rewrite lookup_app_r by (rewrite length_take; lia). rewrite length_take.
    rewrite lookup_app_r by lia. rewrite lookup_drop. f_equal. lia.
Qed.

Lemma slice_ext {A} (l l' : list A) a k :
  (forall i, (a <= i < a + k)%nat -> l !! i = l' !! i) -> take k (drop a l) = take k (drop a l').
Proof.
  intros H. apply list_eq. intros i. destruct (decide (i < k)%nat).
  - rewrite !lookup_take_lt, !lookup_drop by lia. apply H. lia.
  - by rewrite !lookup_take_ge by lia.
Qed.

Lemma splice_other off x l a k :
  (off + length x <= length l)%nat -> (a + k <= off \/ off + length x <= a)%nat ->
  take k (drop a (splice off x l)) = take k (drop a l).
Proof. intros H Ha. apply slice_ext. intros i Hi. apply splice_lookup; lia. Qed.

Lemma putle_length k off v l : (off + k <= length l)%nat -> length (putle k off v l) = length l.
Proof. intros. unfold putle. apply splice_length. by rewrite length_le_enc. Qed.

Lemma getle_putle k off v l :
  (off + k <= length l)%nat -> getle k off (putle k off v l) = v mod 256 ^ Z.of_nat k.
Proof.
  intros H. unfold getle, putle. pose proof (splice_same off (le_enc k v) l) as E.
  rewrite length_le_enc in E. rewrite E by done. apply le_dec_enc.
Qed.

Lemma getle_putle_ne k off v l k' off' :
  (off + k <= length l)%nat -> (off' + k' <= off \/ off + k <= off')%nat ->
  getle k' off' (putle k off v l) = getle k' off' l.
Proof.
  intros H H'. unfold getle, putle. rewrite splice_other; [done|..]; by rewrite length_le_enc.
Qed.

(** * Composing block operations *)

Definition upd_io (s : kstate) (bc : bcache) (d : disk) : kstate := set_k_disk d (set_k_bcache bc s).

Definition io {A} (s : kstate) (m : K A) (r : A) (d : disk) (U : gmap Z uent) : Prop :=
  exists bc, m s = Ret r (upd_io s bc d) /\ rep (upd_io s bc d) U.

Lemma upd_io_id s : upd_io s (k_bcache s) (k_disk s) = s.
Proof. by destruct s. Qed.

Lemma calm_upd_io s bc d : calm s -> calm (upd_io s bc d).
Proof. by apply calm_ext. Qed.
#[export] Hint Resolve calm_upd_io : kern.

Lemma io_ret {A} s U (r : A) : rep s U -> io s (ret r) r (k_disk s) U.
Proof. intros H. exists (k_bcache s). rewrite upd_io_id. by split. Qed.

(** [m] returns from [s], with a result and a state that satisfy [Q]. *)
Definition wp {A} (m : K A) (s : kstate) (Q : A -> kstate -> Prop) : Prop :=
  exists r s', m s = Ret r s' /\ Q r s'.

Lemma wp_run {A B} (m : K A) (k : A -> K B) s r s' Q : m s = Ret r s' -> wp (k r) s' Q -> wp (bind m k) s Q.
Proof. intros E (r' & s2 & E2 & HQ). exists r', s2. split; [by run E|done]. Qed.

Lemma wp_ret {A} (r : A) s (Q : A -> kstate -> Prop) : Q r s -> wp (ret r) s Q.
Proof. intros H. by exists r, s. Qed.

Lemma wp_bind {A B} (m : K A) (k : A -> K B) s Q :
  wp m s (fun r s' => wp (k r) s' Q) -> wp (bind m k) s Q.
Proof. intros (r & s' & E & H). by eapply wp_run. Qed.

Lemma wp_mono {A} (m : K A) s (Q Q' : A -> kstate -> Prop) :
  wp m s Q -> (forall r s', Q r s' -> Q' r s') -> wp m s Q'.
Proof. intros (r & s' & E & H) HQ. exists r, s'. auto. Qed.

Lemma io_bind {A B} s (m : K A) (k : A -> K B) r d U Q :
  io s m r d U ->
  (forall bc, rep (upd_io s bc d) U -> wp (k r) (upd_io s bc d) Q) ->
  wp (bind m k) s Q.
Proof. intros (bc & E & HR) Hk. by eapply wp_run; [|apply Hk]. Qed.

Lemma io_last {A} s (m : K A) r d U Q :
  io s m r d U -> (forall bc, rep (upd_io s bc d) U -> Q r (upd_io s bc d)) -> wp m s Q.
Proof. intros (bc & E & HR) HQ. exists r, (upd_io s bc d). auto. Qed.

Lemma io_wp {A} s (m : K A) r d U :
  wp m s (fun r' s' => r' = r /\ exists bc, s' = upd_io s bc d /\ rep s' U) -> io s m r d U.
Proof. intros (? & ? & E & -> & bc & -> & HR). by exists bc. Qed.

Section Io.
Context {W : Wakeups} {D : DiskDriver} {DC : DiskContract}.

Lemma with_buf_upd_io i b s : with_buf i b s = upd_io s (k_bcache (with_buf i b s)) (k_disk s).
Proof. by destruct s. Qed.

Lemma io_with_buf {A} s (m : K A) r i b U :
  m s = Ret r (with_buf i b s) -> rep (with_buf i b s) U -> io s m r (k_disk s) U.
Proof. intros E H. rewrite with_buf_upd_io in E, H. eexists. by split. Qed.

(** The buffer of a block in use stays the same. *)
Lemma take_same_buf s U n e i b r v :
  rep s U -> U !! n = Some e -> rep (with_buf i b s) (<[n := mk_uent i r true v]> U) -> i = u_idx e.
Proof.
  intros HR Hn HR'. destruct (decide (i = u_idx e)) as [|Hne]; [done|].
  destruct (rep_buf s U n e HR Hn) as (b0 & Hb0 & Ha & _).
  destruct (rep_buf _ _ n (mk_uent i r true v) HR') as (b1 & Hb1 & Ha1 & _); [by simplify_map_eq|]. simpl in Hb1.
  destruct HR' as [HR' _]. apply (cr_uniq _ _ _ _ HR' i (u_idx e) b1 b0 Hb1).
  - simpl. by rewrite list_lookup_insert_ne.
  - apply Ha1.
  - apply Ha.
  - by rewrite (ab_no _ _ _ Ha1), (ab_no _ _ _ Ha).
Qed.

(** [bread] of a block that is not in use, and of one that is. *)
Lemma io_bread s U n :
  calm s -> rep s U -> U !! n = None -> (size U < NBUF)%nat -> 0 <= n < 2 ^ 31 ->
  exists i, io s (bread ROOTDEV n) i (k_disk s) (<[n := mk_uent i 1 true (dk_block (k_disk s) n)]> U).
Proof.
  intros Hc HR Hn Hsz Hrange. destruct (bread_ok s U n Hc HR) as (i & b & E & HR').
  { unfold can_read. by rewrite Hn. }
  unfold refs, blk in HR'. rewrite Hn in HR'. exists i. by apply (io_with_buf s _ i i b).
Qed.

Lemma io_bread_used s U n e :
  calm s -> rep s U -> U !! n = Some e -> u_locked e = false -> u_refs e + 1 < 2 ^ 32 ->
  io s (bread ROOTDEV n) (u_idx e) (k_disk s) (<[n := mk_uent (u_idx e) (u_refs e + 1) true (u_data e)]> U).
Proof.
  intros Hc HR Hn Hl Hr. destruct (bread_ok s U n Hc HR) as (i & b & E & HR').
  { destruct (rep_buf s U n e HR Hn) as (b & _ & Ha & _). pose proof (ab_range _ _ _ Ha). unfold can_read. by rewrite Hn. }
  unfold refs, blk in HR'. rewrite Hn in HR'. pose proof (take_same_buf s U n e i b _ _ HR Hn HR') as ->.
  by apply (io_with_buf s _ _ (u_idx e) b).
Qed.

Lemma io_data s U n e i (f : buf -> buf) d :
  rep s U -> U !! n = Some e -> u_idx e = i -> length d = Z.to_nat BSIZE ->
  (forall b, b_data b = u_data e -> f b = set_b_data d b) ->
  io s (upd_buf i f) tt (k_disk s) (<[n := mk_uent i (u_refs e) (u_locked e) d]> U).
Proof.
  intros HR Hn <- Hd Hf. destruct (rep_buf s U n e HR Hn) as (b & Hb & _ & _ & _ & _ & Ed).
  destruct (bdata_ok s U n e d HR Hn Hd) as (b' & E & HR'). apply (io_with_buf s _ tt (u_idx e) b'); [|done].
  rewrite <- E. rewrite !(upd_buf_ok s _ b) by done. by rewrite Hf.
Qed.

Lemma get_data s U n e i :
  rep s U -> U !! n = Some e -> u_idx e = i -> exists b, get_buf i s = Ret b s /\ b_data b = u_data e /\ b_blockno b = n.
Proof.
  intros HR Hn <-. destruct (rep_buf s U n e HR Hn) as (b & Hb & Ha & _ & _ & _ & Ed).
  exists b. split; [by apply get_buf_ok|]. split; [done|apply Ha].
Qed.

Lemma io_bwrite s U n e i :
  calm s -> rep s U -> U !! n = Some e -> u_idx e = i -> u_locked e = true ->
  io s (bwrite i) tt (dk_write (k_disk s) n (u_data e)) U.
Proof.
  intros Hc HR Hn <- Hl. destruct (bwrite_ok s U n e Hc HR Hn Hl) as [E HR'].
  exists (k_bcache s). by destruct s.
Qed.

Lemma io_bunpin s U n e i :
  calm s -> rep s U -> U !! n = Some e -> u_idx e = i -> 1 < u_refs e < 2 ^ 32 ->
  io s (bunpin i) tt (k_disk s) (<[n := mk_uent i (u_refs e - 1) (u_locked e) (u_data e)]> U).
Proof.
  intros Hc HR Hn <- Hr.
  destruct (bunpin_ok s U n e) as (b' & E & HR'); auto with kern; [lia..|].
  by apply (io_with_buf s _ tt (u_idx e) b').
Qed.

Lemma io_brelse s U n e i :
  calm s -> rep s U -> U !! n = Some e -> u_idx e = i -> u_locked e = true ->
  (u_refs e = 1 -> u_data e = dk_block (k_disk s) n) ->
  io s (brelse i) tt (k_disk s)
    (if u_refs e =? 1 then delete n U
     else <[n := mk_uent i (u_refs e - 1) false (u_data e)]> U).
Proof.
  intros Hc HR Hn <- Hl Hd. destruct (brelse_ok s U n e Hc HR Hn Hl Hd) as (bc & E & HR').
  exists bc. by destruct s.
Qed.

End Io.

Lemma upd_io_twice s bc d bc' d' : upd_io (upd_io s bc d) bc' d' = upd_io s bc' d'.
Proof. done. Qed.
Lemma k_disk_upd_io s bc d : k_disk (upd_io s bc d) = d.
Proof. done. Qed.

(** Normal form of the states, disks and entries met on the way. *)
Ltac io_norm :=
  repeat rewrite ?upd_io_twice, ?k_disk_upd_io in *; cbn [u_idx u_refs u_locked u_data Z.eqb Pos.eqb] in *.

(** [io L as bc HR]: the next statement of a [wp] goal, by the specification
    [L]; the side conditions that are at hand are discharged. *)
Tactic Notation "io" uconstr(L) "as" ident(bc) ident(HR) :=
  eapply io_bind; [eapply L; try eassumption; auto with kern; try fast_done; try discriminate|intros bc HR; io_norm].
Tactic Notation "io_end" uconstr(L) "as" ident(bc) ident(HR) :=
  eapply io_last; [eapply L; try eassumption; auto with kern; try fast_done; try discriminate|intros bc HR; io_norm].
