(* ===== verification/Log.v ===== *)
(** kernel/log.c: the redo log.

    A transaction is the list of the blocks logged since the last commit; their
    buffers are pinned in the cache.  [commit] writes their contents to the log,
    then the header, then their home locations, then an empty header.  The main
    theorems say what each of these functions writes to the disk, in order, and
    that a crash between any two writes leaves a disk from which
    [recover_from_log] brings back all of the transaction or nothing of it. *)

From S2P Require Import Prelude Types Memory Spinlock Sched Sleeplock Bio Uart Printf Block.
Local Open Scope c_scope.

Definition upd_log (f : log -> log) : K unit := modify (fun s => set_k_log (f (k_log s)) s).

(** [log.lh.n = n], [log.lh.block[i]], [log.lh.block[i] = b] *)
Definition lh_set_n (n : Z) : K unit := upd_log (fun l => set_log_lh (set_lh_n n (log_lh l)) l).
Definition lh_get (i : Z) : K Z := fun s => deref "log.lh.block" (lh_block (log_lh (k_log s)) !! Z.to_nat i) s.
Definition lh_put (i b : Z) : K unit :=
  _ <- lh_get i ;;
  upd_log (fun l => set_log_lh (set_lh_block (<[Z.to_nat i := b]> (lh_block (log_lh l))) (log_lh l)) l).

(** [lh->n] and [lh->block[i]] for a [struct logheader *] into a block. *)
Definition hdr_n (data : list Z) : Z := i32 (getle 4 0 data).
Definition hdr_off (i : Z) : nat := Z.to_nat (4 + 4 * i).
Definition hdr_block (data : list Z) (i : Z) : Z := i32 (getle 4 (hdr_off i) data).

(** "recovering tail %d dst %d\n" *)
Definition recovering_fmt : list Z :=
  [114; 101; 99; 111; 118; 101; 114; 105; 110; 103; 32; 116; 97; 105; 108; 32; 37; 100; 32;
   100; 115; 116; 32; 37; 100; 10].

(** The loops over the header make at most [LOGBLOCKS] turns before they leave
    the array [block]. *)
Definition log_fuel : nat := S (Z.to_nat LOGBLOCKS).

Section Log.
Context {W : Wakeups} {D : DiskDriver}.

(** * The functions *)

Fixpoint install_trans_loop (fuel : nat) (recovering : bool) (tail : Z) : K unit :=
  match fuel with
  | O => nofuel
  | S fuel =>
      l <- gets k_log ;;
      if negb (tail <? lh_n (log_lh l)) then ret tt else
      when recovering
        (dst <- lh_get tail ;; _ <- printf recovering_fmt [VInt tail; VInt dst] ;; ret tt) ;;
      lbuf <- bread (u32 (log_dev l)) (u32 (log_start l + tail + 1)) ;;
      dst <- lh_get tail ;;
      dbuf <- bread (u32 (log_dev l)) (u32 dst) ;;
      x <- get_buf lbuf ;;
      upd_buf dbuf (set_b_data (b_data x)) ;;
      bwrite dbuf ;;
      when (negb recovering) (bunpin dbuf) ;;
      brelse lbuf ;;
      brelse dbuf ;;
      install_trans_loop fuel recovering (tail + 1)
  end.
Definition install_trans (recovering : bool) : K unit := install_trans_loop log_fuel recovering 0.

Fixpoint read_head_loop (fuel buf : nat) (i : Z) : K unit :=
  match fuel with
  | O => nofuel
  | S fuel =>
      l <- gets k_log ;;
      if negb (i <? lh_n (log_lh l)) then ret tt else
      x <- get_buf buf ;;
      lh_put i (hdr_block (b_data x) i) ;;
      read_head_loop fuel buf (i + 1)
  end.
Definition read_head : K unit :=
  l <- gets k_log ;;
  buf <- bread (u32 (log_dev l)) (u32 (log_start l)) ;;
  x <- get_buf buf ;;
  lh_set_n (hdr_n (b_data x)) ;;
  read_head_loop log_fuel buf 0 ;;
  brelse buf.

Fixpoint write_head_loop (fuel buf : nat) (i : Z) : K unit :=
  match fuel with
  | O => nofuel
  | S fuel =>
      l <- gets k_log ;;
      if negb (i <? lh_n (log_lh l)) then ret tt else
      v <- lh_get i ;;
      upd_buf buf (fun b => set_b_data (putle 4 (hdr_off i) v (b_data b)) b) ;;
      write_head_loop fuel buf (i + 1)
  end.
Definition write_head : K unit :=
  l <- gets k_log ;;
  buf <- bread (u32 (log_dev l)) (u32 (log_start l)) ;;
  upd_buf buf (fun b => set_b_data (putle 4 0 (lh_n (log_lh l)) (b_data b)) b) ;;
  write_head_loop log_fuel buf 0 ;;
  bwrite buf ;;
  brelse buf.

Definition recover_from_log : K unit :=
  read_head ;;
  install_trans true ;;
  lh_set_n 0 ;;
  write_head.

(** [sizeof(struct logheader)] *)
Definition sizeof_logheader : Z := 4 + 4 * LOGBLOCKS.

Definition initlog (dev : Z) (sb : superblock) : K unit :=
  if BSIZE <=? sizeof_logheader then panic "initlog: too big logheader" else
  initlock LK_log ;;
  upd_log (set_log_start (i32 (sb_logstart sb))) ;;
  upd_log (set_log_dev dev) ;;
  recover_from_log.

Fixpoint begin_op_loop (fuel : nat) : K unit :=
  match fuel with
  | O => nofuel
  | S fuel =>
      l <- gets k_log ;;
      if log_committing l then sleep CH_log LK_log ;; begin_op_loop fuel
      else if LOGBLOCKS <? lh_n (log_lh l) + (log_outstanding l + 1) * MAXOPBLOCKS
      then sleep CH_log LK_log ;; begin_op_loop fuel
      else upd_log (fun l => set_log_outstanding (log_outstanding l + 1) l) ;; release LK_log
  end.
Definition begin_op : K unit := acquire LK_log ;; begin_op_loop (S n_wakeups).

Fixpoint write_log_loop (fuel : nat) (tail : Z) : K unit :=
  match fuel with
  | O => nofuel
  | S fuel =>
      l <- gets k_log ;;
      if negb (tail <? lh_n (log_lh l)) then ret tt else
      to <- bread (u32 (log_dev l)) (u32 (log_start l + tail + 1)) ;;
      src <- lh_get tail ;;
      from <- bread (u32 (log_dev l)) (u32 src) ;;
      x <- get_buf from ;;
      upd_buf to (set_b_data (b_data x)) ;;
      bwrite to ;;
      brelse from ;;
      brelse to ;;
      write_log_loop fuel (tail + 1)
  end.
Definition write_log : K unit := write_log_loop log_fuel 0.

Definition commit : K unit :=
  l <- gets k_log ;;
  when (0 <? lh_n (log_lh l))
    (write_log ;;
     write_head ;;
     install_trans false ;;
     lh_set_n 0 ;;
     write_head).

Definition end_op : K unit :=
  acquire LK_log ;;
  upd_log (fun l => set_log_outstanding (log_outstanding l - 1) l) ;;
  l <- gets k_log ;;
  if log_committing l then panic "log.committing" else
  do_commit <-
    (if log_outstanding l =? 0
     then upd_log (set_log_committing true) ;; ret true
     else wakeup CH_log ;; ret false) ;;
  release LK_log ;;
  when do_commit
    (commit ;;
     acquire LK_log ;;
     upd_log (set_log_committing false) ;;
     upd_log (fun l => set_log_ncommit (i32 (log_ncommit l + 1)) l) ;;
     wakeup CH_log ;;
     release LK_log).

(** The search loop of [log_write]: the first [i] with
    [log.lh.block[i] == blockno], or [log.lh.n]. *)
Fixpoint log_find (fuel : nat) (blockno i : Z) : K Z :=
  match fuel with
  | O => nofuel
  | S fuel =>
      l <- gets k_log ;;
      if negb (i <? lh_n (log_lh l)) then ret i else
      v <- lh_get i ;;
      if u32 v =? blockno then ret i else log_find fuel blockno (i + 1)
  end.
Definition log_write (b : nat) : K unit :=
  acquire LK_log ;;
  l <- gets k_log ;;
  if LOGBLOCKS <=? lh_n (log_lh l) then panic "too big a transaction" else
  if log_outstanding l <? 1 then panic "log_write outside of trans" else
  x <- get_buf b ;;
  i <- log_find log_fuel (b_blockno x) 0 ;;
  lh_put i (i32 (b_blockno x)) ;;
  when (i =? lh_n (log_lh l)) (bpin b ;; lh_set_n (lh_n (log_lh l) + 1)) ;;
  release LK_log.

Fixpoint sys_sync_loop (fuel : nat) (n : Z) : K unit :=
  match fuel with
  | O => nofuel
  | S fuel =>
      l <- gets k_log ;;
      if log_ncommit l <? n then sleep CH_log LK_log ;; sys_sync_loop fuel n else ret tt
  end.
Definition sys_sync : K Z :=
  acquire LK_log ;;
  l <- gets k_log ;;
  when (log_committing l || (0 <? log_outstanding l)) (sys_sync_loop (S n_wakeups) (i32 (log_ncommit l + 1))) ;;
  release LK_log ;;
  ret 0.

End Log.

(** * The header block *)

(** The header written over [data] for the blocks [l]. *)
Fixpoint hdr_fill (i : Z) (l data : list Z) : list Z :=
  match l with [] => data | b :: l => hdr_fill (i + 1) l (putle 4 (hdr_off i) b data) end.
Definition hdr_enc (l data : list Z) : list Z := hdr_fill 0 l (putle 4 0 (Z.of_nat (length l)) data).

(** The blocks a header block lists. *)
Definition hdr_list (data : list Z) : list Z :=
  (fun i => hdr_block data (Z.of_nat i)) <$> seq 0 (Z.to_nat (hdr_n data)).

Definition int_ok (b : Z) : Prop := - 2 ^ 31 <= b < 2 ^ 31.

Lemma i32_mod b : int_ok b -> i32 (b mod 2 ^ 32) = b.
Proof.
  intros H. unfold int_ok in H. unfold swrap. rewrite Zplus_mod_idemp_l.
  rewrite Z.mod_small; [|change (2 ^ (32 - 1)) with (2 ^ 31)]; lia.
Qed.

Section Header.
Context (data : list Z) (Hdata : length data = Z.to_nat BSIZE).

Lemma hdr_fill_length i l : 0 <= i -> i + Z.of_nat (length l) <= LOGBLOCKS ->
  forall x, length x = Z.to_nat BSIZE -> length (hdr_fill i l x) = Z.to_nat BSIZE.
Proof.
  revert i; induction l as [|b l IH]; intros i Hi Hl x Hx; simpl in *; [done|].
  apply IH; [lia|lia|]. rewrite putle_length; [done|]. unfold hdr_off, LOGBLOCKS, MAXOPBLOCKS, BSIZE in *. lia.
Qed.

Lemma hdr_fill_before off i l : 0 <= i -> i + Z.of_nat (length l) <= LOGBLOCKS ->
  (off + 4 <= hdr_off i)%nat ->
  forall x, length x = Z.to_nat BSIZE -> getle 4 off (hdr_fill i l x) = getle 4 off x.
Proof.
  revert i; induction l as [|b l IH]; intros i Hi Hl Ho x Hx; simpl in *; [done|].
  assert (Hb : (hdr_off i + 4 <= length x)%nat).
  { unfold hdr_off, LOGBLOCKS, MAXOPBLOCKS, BSIZE in *. lia. }
  rewrite IH; [|lia|lia| |by rewrite putle_length].
  - apply getle_putle_ne; lia.
  - unfold hdr_off in *. lia.
Qed.

Lemma hdr_fill_block i l k b : 0 <= i -> i + Z.of_nat (length l) <= LOGBLOCKS -> l !! k = Some b ->
  forall x, length x = Z.to_nat BSIZE ->
    getle 4 (hdr_off (i + Z.of_nat k)) (hdr_fill i l x) = b mod 2 ^ 32.
Proof.
  revert i k; induction l as [|c l IH]; intros i k Hi Hl Hk x Hx; [done|]. cbn [hdr_fill length] in *.
  assert (Hb : (hdr_off i + 4 <= length x)%nat).
  { unfold hdr_off, LOGBLOCKS, MAXOPBLOCKS, BSIZE in *. lia. }
  destruct k as [|k]; [injection Hk as -> |change (l !! k = Some b) in Hk].
  - change (Z.of_nat 0) with 0. rewrite Z.add_0_r, hdr_fill_before; [by rewrite getle_putle|lia|lia| |by rewrite putle_length].
    unfold hdr_off. lia.
  - replace (i + Z.of_nat (S k)) with ((i + 1) + Z.of_nat k) by lia.
    apply (IH (i + 1) k); [lia|lia|done|by rewrite putle_length].
Qed.

Lemma hdr_enc_length l : Z.of_nat (length l) <= LOGBLOCKS -> length (hdr_enc l data) = Z.to_nat BSIZE.
Proof. intros. apply hdr_fill_length; [lia|lia|]. rewrite putle_length; [done|]. unfold BSIZE in *. lia. Qed.

Lemma hdr_n_enc l : Z.of_nat (length l) <= LOGBLOCKS -> hdr_n (hdr_enc l data) = Z.of_nat (length l).
Proof.
  intros Hl. unfold hdr_n, hdr_enc, LOGBLOCKS, MAXOPBLOCKS in *.
  rewrite hdr_fill_before; [|lia|unfold LOGBLOCKS, MAXOPBLOCKS; lia|unfold hdr_off; lia|rewrite putle_length; [done|rewrite Hdata; unfold BSIZE; lia]].
  rewrite getle_putle by (rewrite Hdata; unfold BSIZE; lia). apply i32_mod. unfold int_ok. lia.
Qed.

Lemma hdr_list_enc l :
  Z.of_nat (length l) <= LOGBLOCKS -> Forall int_ok l -> hdr_list (hdr_enc l data) = l.
Proof.
  intros Hl Hb. unfold hdr_list. rewrite hdr_n_enc, Nat2Z.id by done.
  apply list_eq. intros k. rewrite list_lookup_fmap. destruct (l !! k) as [b|] eqn:E.
  - rewrite lookup_seq_lt by (by eapply lookup_lt_Some). simpl. f_equal.
    unfold hdr_block, hdr_enc. rewrite <- (Z.add_0_l (Z.of_nat k)).
    rewrite (hdr_fill_block 0 l k b); [|lia|lia|done|rewrite putle_length; [done|rewrite Hdata; unfold BSIZE; lia]].
    apply i32_mod. by apply (Forall_lookup_1 _ _ _ _ Hb E).
  - rewrite lookup_seq_ge; [done|]. by apply lookup_ge_None.
Qed.

End Header.

(** * Sequences of disk writes *)

Definition apply_writes (ws : list (Z * list Z)) (d : disk) : disk :=
  fold_left (fun d w => dk_write d w.1 w.2) ws d.

(** The last value [ws] writes to block [n]. *)
Definition lastw (ws : list (Z * list Z)) (n : Z) : option (list Z) :=
  fold_left (fun o w => if decide (w.1 = n) then Some w.2 else o) ws None.

Lemma apply_writes_app ws ws' d : apply_writes (ws ++ ws') d = apply_writes ws' (apply_writes ws d).
Proof. unfold apply_writes. by rewrite fold_left_app. Qed.

Lemma lastw_app ws ws' n :
  lastw (ws ++ ws') n = match lastw ws' n with Some v => Some v | None => lastw ws n end.
Proof.
  unfold lastw. rewrite fold_left_app. generalize (fold_left (fun o w => if decide (w.1 = n) then Some w.2 else o) ws None).
  induction ws' as [|w ws' IH] using rev_ind; intros o; simpl; [done|].
  rewrite !fold_left_app. simpl. case_decide; [done|]. by rewrite IH.
Qed.

Lemma lastw_singleton m v n : lastw [(m, v)] n = if decide (m = n) then Some v else None.
Proof. done. Qed.

Lemma dk_block_apply ws d n : dk_block (apply_writes ws d) n = default (dk_block d n) (lastw ws n).
Proof.
  induction ws as [|[m v] ws IH] using rev_ind; [done|]. rewrite apply_writes_app, lastw_app. cbn [apply_writes fold_left].
  rewrite dk_block_write, lastw_singleton. cbn [fst snd]. case_decide; [done|]. by rewrite IH.
Qed.

Lemma lastw_None ws n : n ∉ ws.*1 -> lastw ws n = None.
Proof.
  induction ws as [|[m v] ws IH] using rev_ind; [done|]. rewrite fmap_app, lastw_app, lastw_singleton. intros H.
  rewrite decide_False; [apply IH|]; set_solver.
Qed.

Lemma lastw_take_None j ws n : lastw ws n = None -> lastw (take j ws) n = None.
Proof.
  intros H. rewrite <- (take_drop j ws), lastw_app in H. by destruct (lastw (drop j ws) n).
Qed.

(** Doing a prefix of some writes and then all of them is doing them once. *)
Lemma lastw_redo j ws n : lastw (take j ws ++ ws) n = lastw ws n.
Proof.
  rewrite lastw_app. destruct (lastw ws n) eqn:E; [done|]. by apply lastw_take_None.
Qed.

Lemma take_fst (j : nat) (ws : list (Z * list Z)) n : n ∉ ws.*1 -> n ∉ (take j ws).*1.
Proof. intros H Hj. apply H. rewrite <- (take_drop j ws), fmap_app. set_solver. Qed.

(** * Recovery as a function of the disk *)

(** The header and the log blocks of the transactions that can commit; [mkfs]
    reserves [LOGBLOCKS] blocks, header included. *)
Definition in_log (st n : Z) : Prop := st <= n < st + LOGBLOCKS.

(** The writes recovery makes to home locations, and all of its writes. *)
Definition redo (st : Z) (d : disk) : list (Z * list Z) :=
  imap (fun i b => (b, dk_block d (st + 1 + Z.of_nat i))) (hdr_list (dk_block d st)).
Definition recovery_writes (st : Z) (d : disk) : list (Z * list Z) :=
  redo st d ++ [(st, hdr_enc [] (dk_block d st))].

(** The contents of block [n] that recovery from [d] ends with. *)
Definition home (st : Z) (d : disk) (n : Z) : list Z := default (dk_block d n) (lastw (redo st d) n).

(** The log on the disk is well formed: the header lists fewer than
    [LOGBLOCKS] blocks, none of them in the log. *)
Record log_wf (st : Z) (d : disk) : Prop := {
  lw_n : 0 <= hdr_n (dk_block d st) < LOGBLOCKS;
  lw_home : Forall (fun b => ~ in_log st b /\ 0 <= b < 2 ^ 31) (hdr_list (dk_block d st))
}.

Lemma hdr_list_length data : 0 <= hdr_n data -> Z.of_nat (length (hdr_list data)) = hdr_n data.
Proof. intros H. unfold hdr_list. rewrite length_fmap, length_seq. lia. Qed.

Lemma redo_fst st d : (redo st d).*1 = hdr_list (dk_block d st).
Proof.
  unfold redo. rewrite <- (list_fmap_id (hdr_list (dk_block d st))) at 2.
  rewrite fmap_imap. generalize (hdr_list (dk_block d st)) as l. intros l.
  apply list_eq. intros i. rewrite list_lookup_imap, list_lookup_fmap. by destruct (l !! i).
Qed.

Lemma redo_length st d : length (redo st d) = length (hdr_list (dk_block d st)).
Proof. unfold redo. by rewrite length_imap. Qed.

Lemma log_wf_out st d n : log_wf st d -> in_log st n -> n ∉ (redo st d).*1.
Proof.
  intros [_ H] Hn Hin. rewrite redo_fst in Hin. rewrite Forall_forall in H. by destruct (H n Hin).
Qed.

(** Disks with the same log have the same recovery. *)
Lemma redo_ext st d d' :
  0 <= hdr_n (dk_block d st) < LOGBLOCKS ->
  (forall n, in_log st n -> dk_block d' n = dk_block d n) -> redo st d' = redo st d.
Proof.
  intros Hn H. unfold redo. rewrite (H st) by (unfold in_log, LOGBLOCKS, MAXOPBLOCKS in *; lia).
  apply imap_ext. intros i b Hi. simpl. rewrite H; [done|]. apply lookup_lt_Some in Hi.
  pose proof (hdr_list_length (dk_block d st)). unfold in_log. lia.
Qed.

Lemma redo_empty st d : hdr_n (dk_block d st) = 0 -> redo st d = [].
Proof. intros H. unfold redo, hdr_list. by rewrite H. Qed.

Lemma redo_take st d j : log_wf st d -> redo st (apply_writes (take j (redo st d)) d) = redo st d.
Proof.
  intros Hw. apply redo_ext; [apply Hw|]. intros n Hn. rewrite dk_block_apply.
  by rewrite lastw_None by (by apply take_fst, log_wf_out).
Qed.

(** Crashing during recovery, at any point, and recovering again. *)
Lemma home_crash st d j n :
  log_wf st d -> length (dk_block d st) = Z.to_nat BSIZE -> ~ in_log st n ->
  home st (apply_writes (take j (recovery_writes st d)) d) n = home st d n.
Proof.
  intros Hw Hl Hn. unfold recovery_writes. rewrite take_app.
  destruct (take (j - length (redo st d)) [(st, hdr_enc [] (dk_block d st))]) as [|w [|w' r]] eqn:E.
  - rewrite app_nil_r. unfold home. rewrite redo_take by done. rewrite dk_block_apply.
    pose proof (lastw_take_None j (redo st d) n) as H. destruct (lastw (redo st d) n); [done|].
    by rewrite H.
  - assert (w = (st, hdr_enc [] (dk_block d st))) as ->.
    { destruct (j - length (redo st d))%nat; [done|]. simpl in E. rewrite take_nil in E. by injection E as <-. }
    assert (Hj : (length (redo st d) <= j)%nat).
    { destruct (decide (length (redo st d) <= j)%nat); [done|].
      replace (j - length (redo st d))%nat with 0%nat in E by lia. done. }
    rewrite (take_ge (redo st d)) by done. rewrite apply_writes_app. cbn [apply_writes fold_left fst snd].
    unfold home at 1. rewrite (redo_empty st (dk_write _ _ _)).
    + cbn [lastw fold_left default]. rewrite dk_block_write, decide_False by (unfold in_log, LOGBLOCKS, MAXOPBLOCKS in *; lia).
      apply dk_block_apply.
    + rewrite dk_block_write, decide_True by done. apply hdr_n_enc; [done|]. unfold LOGBLOCKS, MAXOPBLOCKS; simpl; lia.
  - apply (f_equal length) in E. rewrite length_take in E. simpl in E. lia.
Qed.

(** * The writes of a commit *)

Definition log_writes (st : Z) (vs : list (list Z)) : list (Z * list Z) :=
  imap (fun i v => (st + 1 + Z.of_nat i, v)) vs.
Definition commit_writes (st : Z) (l : list Z) (vs : list (list Z)) (hd : list Z) : list (Z * list Z) :=
  log_writes st vs ++ [(st, hdr_enc l hd)] ++ zip l vs ++ [(st, hdr_enc [] (hdr_enc l hd))].

Section Commit.
Context (st : Z) (d : disk) (l : list Z) (vs : list (list Z)).
Context (Hlen : length vs = length l) (Hmax : Z.of_nat (length l) < LOGBLOCKS).
Context (Hout : Forall (fun b => ~ in_log st b /\ 0 <= b < 2 ^ 31) l).
Context (Hempty : hdr_n (dk_block d st) = 0) (Hhd : length (dk_block d st) = Z.to_nat BSIZE).

#[local] Abbreviation hd := (dk_block d st).
#[local] Abbreviation A := (log_writes st vs).
#[local] Abbreviation B := (zip l vs).

(** The contents of block [n] before and after the transaction. *)
Definition before (n : Z) : list Z := dk_block d n.
Definition after (n : Z) : list Z := default (dk_block d n) (lastw B n).

Lemma l_int : Forall int_ok l.
Proof. eapply Forall_impl; [exact Hout|]. intros b [_ Hb]. unfold int_ok. lia. Qed.

Lemma log_writes_in n : n ∈ A.*1 -> st + 1 <= n <= st + Z.of_nat (length l).
Proof.
  intros H. apply list_elem_of_fmap in H as ([m v] & -> & H). unfold log_writes in H.
  apply list_elem_of_lookup in H as [i Hi]. rewrite list_lookup_imap in Hi.
  destruct (vs !! i) eqn:E; [|done]. simplify_eq/=. apply lookup_lt_Some in E. lia.
Qed.

Lemma B_out n : in_log st n -> n ∉ B.*1.
Proof.
  intros Hn H. rewrite fst_zip in H by lia. rewrite Forall_forall in Hout. by destruct (Hout n H).
Qed.

(** The log block of slot [i], once the log has been written. *)
Lemma lastw_log i v : vs !! i = Some v -> lastw A (st + 1 + Z.of_nat i) = Some v.
Proof.
  clear Hlen Hmax. revert i; induction vs as [|x xs IH] using rev_ind; intros i Hi; [done|].
  unfold log_writes. rewrite imap_app, lastw_app. cbn [imap]. rewrite lastw_singleton, Nat.add_0_r.
  apply lookup_app_Some in Hi as [Hi|[Hi Hv]].
  - rewrite decide_False by (apply lookup_lt_Some in Hi; lia). by apply IH.
  - apply list_lookup_singleton_Some in Hv as [Hv <-]. rewrite decide_True; [done|]. lia.
Qed.

(** The disk once the header is written, and [j] home blocks are installed. *)
Definition committed (j : nat) : disk := apply_writes (A ++ [(st, hdr_enc l hd)] ++ take j B) d.

Lemma committed_log j n : in_log st n -> dk_block (committed j) n = default (dk_block d n) (lastw (A ++ [(st, hdr_enc l hd)]) n).
Proof.
  intros Hn. unfold committed. rewrite dk_block_apply, app_assoc, lastw_app.
  by rewrite (lastw_None (take j B)) by (by apply take_fst, B_out).
Qed.

Lemma committed_hdr j : dk_block (committed j) st = hdr_enc l hd.
Proof.
  rewrite committed_log by (unfold in_log, LOGBLOCKS, MAXOPBLOCKS; lia).
  by rewrite lastw_app, lastw_singleton, decide_True.
Qed.

Lemma redo_committed j : redo st (committed j) = B.
Proof.
  unfold redo. rewrite committed_hdr, hdr_list_enc; [|done|lia|apply l_int].
  apply list_eq. intros i. rewrite list_lookup_imap, lookup_zip_with.
  destruct (l !! i) as [b|] eqn:E; [|done]. simpl.
  destruct (lookup_lt_is_Some_2 vs i) as [v Hv]; [apply lookup_lt_Some in E; lia|]. rewrite Hv. simpl. do 2 f_equal.
  apply lookup_lt_Some in E. rewrite committed_log by (unfold in_log, LOGBLOCKS, MAXOPBLOCKS in *; lia).
  rewrite lastw_app, lastw_singleton, decide_False by lia. by rewrite (lastw_log i v).
Qed.

(** A crash before the header is written loses the transaction, a later one
    keeps it. *)
Lemma home_before k n :
  (k <= length l)%nat -> ~ in_log st n ->
  home st (apply_writes (take k (commit_writes st l vs hd)) d) n = before n.
Proof.
  intros Hk Hn. unfold commit_writes. rewrite take_app_le by (unfold log_writes; rewrite length_imap; lia).
  assert (Hr : forall m, (m < st + 1 \/ st + Z.of_nat (length l) < m) -> lastw (take k A) m = None).
  { intros m Hm. apply lastw_None. apply take_fst. intros H. apply log_writes_in in H. lia. }
  unfold home. rewrite redo_empty; cbn [lastw fold_left default].
  - rewrite dk_block_apply, Hr; [done|]. unfold in_log in Hn. lia.
  - rewrite dk_block_apply, Hr by lia. done.
Qed.

Lemma lastw_commit n : ~ in_log st n ->
  lastw (A ++ [(st, hdr_enc l hd)]) n = None.
Proof.
  intros Hn. apply lastw_None. rewrite fmap_app. intros H. apply elem_of_app in H as [H|H].
  - apply log_writes_in in H. unfold in_log in Hn. lia.
  - apply list_elem_of_singleton in H. simpl in H. subst. apply Hn. unfold in_log, LOGBLOCKS, MAXOPBLOCKS. lia.
Qed.

Lemma home_committed j n : ~ in_log st n -> home st (committed j) n = after n.
Proof.
  intros Hn. unfold home, after. rewrite redo_committed. destruct (lastw B n) eqn:E; [done|].
  simpl. unfold committed. rewrite dk_block_apply, app_assoc, lastw_app, lastw_take_None by done.
  by rewrite lastw_commit.
Qed.

Lemma home_after k n :
  (length l < k)%nat -> ~ in_log st n ->
  home st (apply_writes (take k (commit_writes st l vs hd)) d) n = after n.
Proof.
  intros Hk Hn. destruct (decide (k <= length l + 1 + length l)%nat) as [Hj|Hj].
  - replace (take k (commit_writes st l vs hd)) with (A ++ [(st, hdr_enc l hd)] ++ take (k - length l - 1) B).
    + by apply home_committed.
    + unfold commit_writes. rewrite take_app_ge by (unfold log_writes; rewrite length_imap; lia).
      f_equal. unfold log_writes. rewrite length_imap, Hlen.
      rewrite take_app_ge by (simpl; lia). f_equal. cbn [length].
      rewrite take_app_le; [done|]. rewrite length_zip_with. lia.
  - rewrite take_ge.
    2: { unfold commit_writes, log_writes. rewrite !length_app, length_imap, length_zip_with. simpl. lia. }
    replace (commit_writes st l vs hd) with
      ((A ++ [(st, hdr_enc l hd)] ++ take (length l) B) ++ [(st, hdr_enc [] (hdr_enc l hd))]).
    2: { unfold commit_writes. rewrite (take_ge B) by (rewrite length_zip_with; lia). by rewrite <- !app_assoc. }
    rewrite apply_writes_app. fold (committed (length l)). unfold home. rewrite redo_empty; cbn [lastw fold_left default apply_writes fst snd].
    + rewrite dk_block_write, decide_False by (unfold in_log, LOGBLOCKS, MAXOPBLOCKS in *; lia).
      unfold committed. rewrite dk_block_apply, app_assoc, lastw_app, lastw_commit by done.
      unfold after. rewrite take_ge by (rewrite length_zip_with; lia). by destruct (lastw B n).
    + rewrite dk_block_write, decide_True by done. apply hdr_n_enc; [apply hdr_enc_length; [done|lia]|].
      unfold LOGBLOCKS, MAXOPBLOCKS; simpl; lia.
Qed.

End Commit.
