(* ===== verification/LogSpec.v ===== *)
(** What the functions of log.c do to the disk and to the cache, and what a crash
    leaves: the proofs about [Log]. *)

From S2P Require Import Prelude Types Memory Spinlock Sched Sleeplock Bio Uart Printf Block Log.
Local Open Scope c_scope.

(** The blocks of the current transaction. *)
Definition logged (l : log) : list Z := take (Z.to_nat (lh_n (log_lh l))) (lh_block (log_lh l)).

Record log_ok (l : log) : Prop := {
  lo_dev : log_dev l = ROOTDEV;
  lo_start : 0 <= log_start l < 2 ^ 31 - LOGBLOCKS;
  lo_len : length (lh_block (log_lh l)) = Z.to_nat LOGBLOCKS;
  lo_n : 0 <= lh_n (log_lh l) <= LOGBLOCKS;
  lo_out : Forall (fun b => ~ in_log (log_start l) b /\ 0 <= b < 2 ^ 31) (logged l)
}.

Lemma logged_length l : log_ok l -> Z.of_nat (length (logged l)) = lh_n (log_lh l).
Proof. intros [_ _ H1 H2 _]. unfold logged. rewrite length_take, H1. lia. Qed.

Lemma lh_get_ok s i b : logged (k_log s) !! i = Some b -> lh_get (Z.of_nat i) s = Ret b s.
Proof.
  intros H. unfold lh_get. rewrite Nat2Z.id. unfold logged in H.
  apply lookup_take_Some in H as [H _]. by rewrite H.
Qed.

(** [map_solve n b]: equality of maps built by updates at [n] and [b]. *)
Ltac map_solve n b :=
  apply map_eq; let k := fresh "k" in intros k;
  destruct (decide (k = n)); [subst k|]; [|destruct (decide (k = b)); [subst k|]]; simplify_map_eq; try done.

Section LogSpec.
Context {W : Wakeups} {D : DiskDriver} {DC : DiskContract}.

Lemma start_u32 l t :
  log_ok l -> 0 <= t < LOGBLOCKS -> u32 (log_start l + t + 1) = log_start l + 1 + t.
Proof. intros [_ H _ _ _] Ht. rewrite wrap_small; unfold LOGBLOCKS, MAXOPBLOCKS in *; lia. Qed.

Lemma dev_u32 l : log_ok l -> u32 (log_dev l) = ROOTDEV.
Proof. intros [-> _ _ _ _]. reflexivity. Qed.

(** Block [b] is cached, pinned and unlocked, with contents [v]. *)
Definition pinned (U : gmap Z uent) (b : Z) (v : list Z) : Prop :=
  exists i, U !! b = Some (mk_uent i 1 false v).

(** One turn of [write_log]: the contents of block [b] go to log block [n]. *)
Lemma write_log_turn s U n b v (k : K unit) Q :
  calm s -> rep s U -> (size U < NBUF)%nat -> U !! n = None -> pinned U b v ->
  (forall bc, rep (upd_io s bc (dk_write (k_disk s) n v)) U ->
     wp k (upd_io s bc (dk_write (k_disk s) n v)) Q) ->
  forall g : K Z, (forall bc d, g (upd_io s bc d) = Ret b (upd_io s bc d)) -> 0 <= b < 2 ^ 31 -> 0 <= n < 2 ^ 31 ->
  wp (to <- bread ROOTDEV n ;; src <- g ;; from <- bread ROOTDEV (u32 src) ;;
        x <- get_buf from ;; upd_buf to (set_b_data (b_data x)) ;; bwrite to ;;
        brelse from ;; brelse to ;; k) s Q.
Proof.
  intros Hc HR Hsz Hn [i Hb] Hk g Hg Hbr Hnr. assert (Hne : b <> n) by congruence.
  destruct (io_bread s U n Hc HR Hn Hsz Hnr) as [to H1].
  eapply io_bind; [exact H1|]. intros bc1 HR1. eapply wp_run; [apply Hg|]. rewrite (wrap_small 32) by lia.
  set (U1 := <[n := _]> U) in *.
  assert (Hb1 : U1 !! b = Some (mk_uent i 1 false v)) by (unfold U1; by simplify_map_eq).
  io (io_bread_used _ U1 b) as bc2 HR2.
  set (U2 := <[b := _]> U1) in *.
  assert (Hb2 : U2 !! b = Some (mk_uent i 2 true v)) by (unfold U2; by simplify_map_eq).
  destruct (get_data _ U2 b _ i HR2 Hb2 eq_refl) as (x & Ex & Edx & _). eapply wp_run; [exact Ex|]. rewrite Edx.
  pose proof (blk_length _ U2 b HR2) as Hlv. unfold blk in Hlv. rewrite Hb2 in Hlv. io_norm.
  assert (Hn2 : U2 !! n = Some (mk_uent to 1 true (dk_block (k_disk s) n))) by (unfold U2, U1; by simplify_map_eq).
  io (io_data _ U2 n _ to _ v HR2 Hn2) as bc3 HR3. set (U3 := <[n := _]> U2) in *.
  assert (Hn3 : U3 !! n = Some (mk_uent to 1 true v)) by (unfold U3; by simplify_map_eq).
  assert (Hb3 : U3 !! b = Some (mk_uent i 2 true v)) by (unfold U3; by simplify_map_eq).
  io (io_bwrite _ U3 n _ to) as bc4 HR4.
  io (io_brelse _ U3 b _ i) as bc5 HR5. set (U4 := <[b := _]> U3) in *.
  assert (Hn4 : U4 !! n = Some (mk_uent to 1 true v)) by (unfold U4; by simplify_map_eq).
  io (io_brelse _ U4 n _ to) as bc6 HR6.
  { intros _. io_norm. by rewrite dk_block_write, decide_True. }
  replace (delete n U4) with U in HR6; [by apply Hk|].
  unfold U4, U3, U2, U1. map_solve n b.
Qed.

(** One turn of [install_trans(0)]: log block [n] goes home to the pinned block
    [b], which is unpinned. *)
Lemma install_turn s U n b v w (k : K unit) Q :
  calm s -> rep s U -> (size U < NBUF)%nat -> U !! n = None -> pinned U b w ->
  dk_block (k_disk s) n = v ->
  (forall bc, rep (upd_io s bc (dk_write (k_disk s) b v)) (delete b U) ->
     wp k (upd_io s bc (dk_write (k_disk s) b v)) Q) ->
  forall g : K Z, (forall bc d, g (upd_io s bc d) = Ret b (upd_io s bc d)) -> 0 <= b < 2 ^ 31 -> 0 <= n < 2 ^ 31 ->
  wp (lbuf <- bread ROOTDEV n ;; dst <- g ;; dbuf <- bread ROOTDEV (u32 dst) ;;
        x <- get_buf lbuf ;; upd_buf dbuf (set_b_data (b_data x)) ;; bwrite dbuf ;;
        bunpin dbuf ;; brelse lbuf ;; brelse dbuf ;; k) s Q.
Proof.
  intros Hc HR Hsz Hn [i Hb] Hv Hk g Hg Hbr Hnr. assert (Hne : b <> n) by congruence.
  destruct (io_bread s U n Hc HR Hn Hsz Hnr) as [lb H1]. rewrite Hv in H1.
  eapply io_bind; [exact H1|]. intros bc1 HR1. eapply wp_run; [apply Hg|]. rewrite (wrap_small 32) by lia.
  set (U1 := <[n := _]> U) in *.
  assert (Hb1 : U1 !! b = Some (mk_uent i 1 false w)) by (unfold U1; by simplify_map_eq).
  io (io_bread_used _ U1 b) as bc2 HR2.
  set (U2 := <[b := _]> U1) in *.
  assert (Hb2 : U2 !! b = Some (mk_uent i 2 true w)) by (unfold U2; by simplify_map_eq).
  assert (Hn2 : U2 !! n = Some (mk_uent lb 1 true v)) by (unfold U2, U1; by simplify_map_eq).
  destruct (get_data _ U2 n _ lb HR2 Hn2 eq_refl) as (x & Ex & Edx & _). eapply wp_run; [exact Ex|]. rewrite Edx.
  pose proof (blk_length _ U2 n HR2) as Hlv. unfold blk in Hlv. rewrite Hn2 in Hlv. io_norm.
  io (io_data _ U2 b _ i _ v HR2 Hb2) as bc3 HR3. set (U3 := <[b := _]> U2) in *.
  assert (Hb3 : U3 !! b = Some (mk_uent i 2 true v)) by (unfold U3; by simplify_map_eq).
  io (io_bwrite _ U3 b _ i) as bc4 HR4.
  io (io_bunpin _ U3 b _ i) as bc5 HR5; [simpl; lia|]. set (U4 := <[b := _]> U3) in *.
  assert (Hb4 : U4 !! b = Some (mk_uent i 1 true v)) by (unfold U4; by simplify_map_eq).
  assert (Hn4 : U4 !! n = Some (mk_uent lb 1 true v)) by (unfold U4, U3; by simplify_map_eq).
  io (io_brelse _ U4 n _ lb) as bc6 HR6.
  { intros _. io_norm. by rewrite dk_block_write, decide_False. }
  assert (Hb5 : delete n U4 !! b = Some (mk_uent i 1 true v)) by by simplify_map_eq.
  io (io_brelse _ (delete n U4) b _ i) as bc7 HR7.
  { intros _. io_norm. by rewrite dk_block_write, decide_True. }
  replace (delete b (delete n U4)) with (delete b U) in HR7; [by apply Hk|].
  unfold U4, U3, U2, U1. map_solve n b.
Qed.

(** One turn of [install_trans(1)], with no buffer in use. *)
Lemma recover_turn s n b v (k : K unit) Q :
  calm s -> rep s ∅ -> b <> n -> dk_block (k_disk s) n = v ->
  (forall bc, rep (upd_io s bc (dk_write (k_disk s) b v)) ∅ ->
     wp k (upd_io s bc (dk_write (k_disk s) b v)) Q) ->
  forall g : K Z, (forall bc d, g (upd_io s bc d) = Ret b (upd_io s bc d)) -> 0 <= b < 2 ^ 31 -> 0 <= n < 2 ^ 31 ->
  wp (lbuf <- bread ROOTDEV n ;; dst <- g ;; dbuf <- bread ROOTDEV (u32 dst) ;;
        x <- get_buf lbuf ;; upd_buf dbuf (set_b_data (b_data x)) ;; bwrite dbuf ;;
        ret tt ;; brelse lbuf ;; brelse dbuf ;; k) s Q.
Proof.
  intros Hc HR Hne Hv Hk g Hg Hbr Hnr.
  destruct (io_bread s ∅ n Hc HR) as [lb H1]; [done|rewrite map_size_empty; unfold NBUF; lia|done|]. rewrite Hv in H1.
  eapply io_bind; [exact H1|]. intros bc1 HR1. eapply wp_run; [apply Hg|]. rewrite (wrap_small 32) by lia.
  set (U1 := <[n := _]> ∅) in *.
  destruct (io_bread (upd_io s bc1 (k_disk s)) U1 b) as [i H2]; auto with kern.
  { unfold U1; by simplify_map_eq. }
  { unfold U1. rewrite map_size_insert_None, map_size_empty by done. unfold NBUF. lia. }
  eapply io_bind; [exact H2|]. intros bc2 HR2. set (U2 := <[b := _]> U1) in *. io_norm.
  assert (Hb2 : U2 !! b = Some (mk_uent i 1 true (dk_block (k_disk s) b))) by (unfold U2; by simplify_map_eq).
  assert (Hn2 : U2 !! n = Some (mk_uent lb 1 true v)) by (unfold U2, U1; by simplify_map_eq).
  destruct (get_data _ U2 n _ lb HR2 Hn2 eq_refl) as (x & Ex & Edx & _). eapply wp_run; [exact Ex|]. rewrite Edx.
  pose proof (blk_length _ U2 n HR2) as Hlv. unfold blk in Hlv. rewrite Hn2 in Hlv. io_norm.
  io (io_data _ U2 b _ i _ v HR2 Hb2) as bc3 HR3. set (U3 := <[b := _]> U2) in *.
  assert (Hb3 : U3 !! b = Some (mk_uent i 1 true v)) by (unfold U3; by simplify_map_eq).
  assert (Hn3 : U3 !! n = Some (mk_uent lb 1 true v)) by (unfold U3; by simplify_map_eq).
  io (io_bwrite _ U3 b _ i) as bc4 HR4. eapply wp_run; [reflexivity|].
  io (io_brelse _ U3 n _ lb) as bc6 HR6.
  { intros _. io_norm. by rewrite dk_block_write, decide_False. }
  assert (Hb5 : delete n U3 !! b = Some (mk_uent i 1 true v)) by by simplify_map_eq.
  io (io_brelse _ (delete n U3) b _ i) as bc7 HR7.
  { intros _. io_norm. by rewrite dk_block_write, decide_True. }
  replace (delete b (delete n U3)) with (∅ : gmap Z uent) in HR7; [by apply Hk|].
  unfold U3, U2, U1. map_solve n b.
Qed.

(** ** The loops *)

Lemma turn_test l t : log_ok l -> (t < length (logged l))%nat -> (Z.of_nat t <? lh_n (log_lh l)) = true.
Proof. intros Hl Ht. apply Z.ltb_lt. rewrite <- logged_length by done. lia. Qed.

Lemma end_test l t : log_ok l -> (length (logged l) <= t)%nat -> (Z.of_nat t <? lh_n (log_lh l)) = false.
Proof. intros Hl Ht. apply Z.ltb_ge. rewrite <- logged_length by done. lia. Qed.

Lemma logged_slot l t b :
  log_ok l -> logged l !! t = Some b ->
  ~ in_log (log_start l) b /\ 0 <= b < 2 ^ 31 /\ 0 <= Z.of_nat t < LOGBLOCKS.
Proof.
  intros Hl Hb. pose proof (logged_length l Hl). pose proof (lo_n _ Hl).
  destruct (Forall_lookup_1 _ _ _ _ (lo_out _ Hl) Hb). apply lookup_lt_Some in Hb.
  split_and!; try done; lia.
Qed.

Lemma slot_range l t b :
  log_ok l -> logged l !! t = Some b -> 0 <= log_start l + 1 + Z.of_nat t < 2 ^ 31.
Proof. intros Hl Hb. destruct (logged_slot l t b Hl Hb) as (_ & _ & Ht). pose proof (lo_start _ Hl). lia. Qed.

Lemma slot_in_log l t :
  log_ok l -> (t < length (logged l))%nat -> Z.of_nat (length (logged l)) < LOGBLOCKS ->
  in_log (log_start l) (log_start l + 1 + Z.of_nat t).
Proof. intros Hl Ht Hm. unfold in_log. lia. Qed.

Lemma write_log_loop_ok f t s U vs :
  calm s -> rep s U -> log_ok (k_log s) -> Z.of_nat (length (logged (k_log s))) < LOGBLOCKS -> (size U < NBUF)%nat ->
  (forall n, in_log (log_start (k_log s)) n -> U !! n = None) ->
  Forall2 (pinned U) (logged (k_log s)) vs ->
  (length (logged (k_log s)) - t < f)%nat ->
  io s (write_log_loop f (Z.of_nat t)) tt
    (apply_writes (drop t (log_writes (log_start (k_log s)) vs)) (k_disk s)) U.
Proof.
  revert t s; induction f as [|f IH]; intros t s Hc HR Hl Hm Hsz Hlog Hp Hf; [lia|].
  apply io_wp. cbn [write_log_loop]. eapply wp_run; [reflexivity|].
  pose proof (Forall2_length _ _ _ Hp) as Hvs.
  destruct (decide (t < length (logged (k_log s)))%nat) as [Ht|Ht].
  - rewrite (turn_test _ t) by done. cbn [negb].
    destruct (lookup_lt_is_Some_2 _ _ Ht) as [b Hb].
    destruct (Forall2_lookup_l _ _ _ _ _ Hp Hb) as (v & Hv & Hpb).
    destruct (logged_slot _ t b Hl Hb) as (Ho & Hbr & Htr).
    rewrite dev_u32, start_u32 by done.
    eapply (write_log_turn s U _ b v); try eassumption; [by apply Hlog, slot_in_log| | |by eapply slot_range].
    2: { intros bc d. by apply lh_get_ok. }
    intros bc HR'. replace (Z.of_nat t + 1) with (Z.of_nat (S t)) by lia.
    destruct (IH (S t) (upd_io s bc (dk_write (k_disk s) (log_start (k_log s) + 1 + Z.of_nat t) v)))
      as (bc' & E & HR''); auto with kern; [simpl; lia|].
    eexists _, _. split; [exact E|]. split; [done|].
    exists bc'. rewrite (drop_S _ (log_start (k_log s) + 1 + Z.of_nat t, v) t).
    + by split.
    + unfold log_writes. rewrite list_lookup_imap, Hv. done.
  - rewrite end_test by (done || lia). apply wp_ret. split; [done|]. exists (k_bcache s).
    rewrite drop_ge by (unfold log_writes; rewrite length_imap; lia). cbn [apply_writes fold_left].
    rewrite upd_io_id. by split.
Qed.

Lemma pinned_delete U b l vs :
  Forall2 (pinned U) l vs -> b ∉ l -> Forall2 (pinned (delete b U)) l vs.
Proof.
  induction 1 as [|x v l vs [i Hx] _ IH]; intros Hb; [constructor|]. apply not_elem_of_cons in Hb as [Hbx Hb].
  constructor; [|by apply IH]. exists i. by rewrite lookup_delete_ne.
Qed.

Lemma NoDup_at (l : list Z) t b : NoDup l -> l !! t = Some b -> b ∉ drop (S t) l.
Proof.
  intros Hnd Hb. rewrite <- (take_drop t l), (drop_S l b t Hb) in Hnd.
  apply NoDup_app in Hnd as (_ & _ & Hnd). by apply NoDup_cons in Hnd as [? _].
Qed.

(** [install_trans(0)] unpins the blocks it installs. *)
Lemma install_loop_ok f t s U vs :
  let l := k_log s in let st := log_start l in
  calm s -> rep s U -> log_ok l -> Z.of_nat (length (logged l)) < LOGBLOCKS -> (size U < NBUF)%nat ->
  (forall n, in_log st n -> U !! n = None) -> NoDup (logged l) ->
  Forall2 (pinned U) (drop t (logged l)) (drop t vs) ->
  (forall i v, vs !! i = Some v -> dk_block (k_disk s) (st + 1 + Z.of_nat i) = v) ->
  length vs = length (logged l) ->
  (length (logged l) - t < f)%nat ->
  io s (install_trans_loop f false (Z.of_nat t)) tt
    (apply_writes (drop t (zip (logged l) vs)) (k_disk s)) (foldl (fun U b => delete b U) U (drop t (logged l))).
Proof.
  intros l st. subst l st.
  revert t s U; induction f as [|f IH]; intros t s U Hc HR Hl Hm Hsz Hlog Hnd Hp Hd Hvs Hf; [lia|].
  apply io_wp. cbn [install_trans_loop]. eapply wp_run; [reflexivity|].
  destruct (decide (t < length (logged (k_log s)))%nat) as [Ht|Ht].
  - rewrite (turn_test _ t) by done. cbn [negb].
    destruct (lookup_lt_is_Some_2 _ _ Ht) as [b Hb].
    destruct (lookup_lt_is_Some_2 vs t) as [v Hv]; [lia|].
    rewrite (drop_S _ b t Hb), (drop_S _ v t Hv) in Hp. apply Forall2_cons in Hp as [Hpb Hp].
    destruct (logged_slot _ t b Hl Hb) as (Ho & Hbr & Htr).
    eapply wp_run; [reflexivity|]. rewrite dev_u32, start_u32 by done. cbn [when].
    eapply (install_turn s U _ b v v); try eassumption; [by apply Hlog, slot_in_log|by apply Hd| | |by eapply slot_range].
    2: { intros bc d. by apply lh_get_ok. }
    intros bc HR'. replace (Z.of_nat t + 1) with (Z.of_nat (S t)) by lia.
    destruct (IH (S t) (upd_io s bc (dk_write (k_disk s) b v)) (delete b U))
      as (bc' & E & HR''); auto with kern.
    + destruct Hpb as [i Hpb]. rewrite map_size_delete_Some by by eexists. lia.
    + intros n Hn. rewrite lookup_delete_ne; [by apply Hlog|]. intros ->. done.
    + apply pinned_delete; [done|]. by apply NoDup_at.
    + intros i w Hw. simpl. rewrite dk_block_write, decide_False; [by apply Hd|].
      intros ->. apply Ho. apply lookup_lt_Some in Hw. pose proof (logged_length _ Hl). pose proof (lo_n _ Hl).
      unfold in_log. lia.
    + simpl. lia.
    + eexists _, _. split; [exact E|]. split; [done|].
      exists bc'. rewrite (drop_S _ (b, v) t), (drop_S _ b t Hb); [by split|].
      rewrite lookup_zip_with, Hb. simpl. by rewrite Hv.
  - rewrite end_test by (done || lia). apply wp_ret. split; [done|]. exists (k_bcache s).
    rewrite !drop_ge by (rewrite ?length_zip_with; lia). cbn [apply_writes fold_left].
    rewrite upd_io_id. by split.
Qed.

(** ** The header *)

Lemma putle_hdr_length t v x :
  0 <= Z.of_nat t < LOGBLOCKS -> length x = Z.to_nat BSIZE -> length (putle 4 (hdr_off (Z.of_nat t)) v x) = Z.to_nat BSIZE.
Proof. intros Ht Hx. rewrite putle_length; [done|]. unfold hdr_off, LOGBLOCKS, MAXOPBLOCKS, BSIZE in *. lia. Qed.

Lemma write_head_loop_ok f t s U n buf r data :
  calm s -> rep s U -> log_ok (k_log s) -> U !! n = Some (mk_uent buf r true data) ->
  (length (logged (k_log s)) - t < f)%nat ->
  io s (write_head_loop f buf (Z.of_nat t)) tt (k_disk s)
    (<[n := mk_uent buf r true (hdr_fill (Z.of_nat t) (drop t (logged (k_log s))) data)]> U).
Proof.
  revert t s U data; induction f as [|f IH]; intros t s U data Hc HR Hl Hn Hf; [lia|].
  apply io_wp. cbn [write_head_loop]. eapply wp_run; [reflexivity|].
  destruct (decide (t < length (logged (k_log s)))%nat) as [Ht|Ht].
  - rewrite (turn_test _ t) by done. cbn [negb].
    destruct (lookup_lt_is_Some_2 _ _ Ht) as [b Hb]. destruct (logged_slot _ t b Hl Hb) as (_ & _ & Htr).
    eapply wp_run; [by apply lh_get_ok|].
    pose proof (blk_length _ U n HR) as Hdl. unfold blk in Hdl. rewrite Hn in Hdl. simpl in Hdl.
    io (io_data s U n _ buf _ (putle 4 (hdr_off (Z.of_nat t)) b data) HR Hn) as bc1 HR1.
    { by apply putle_hdr_length. }
    { intros x Hx. simpl in Hx. by rewrite Hx. }
    replace (Z.of_nat t + 1) with (Z.of_nat (S t)) by lia.
    set (U1 := <[n := _]> U) in *.
    assert (H1 : U1 !! n = Some (mk_uent buf r true (putle 4 (hdr_off (Z.of_nat t)) b data)))
      by (unfold U1; by simplify_map_eq).
    destruct (IH (S t) (upd_io s bc1 (k_disk s)) U1 (putle 4 (hdr_off (Z.of_nat t)) b data))
      as (bc' & E & HR'); [auto with kern|exact HR1|done|exact H1|simpl; lia|].
    eexists _, _. split; [exact E|]. split; [done|]. exists bc'. split; [done|].
    rewrite (drop_S _ b t Hb). cbn [hdr_fill]. unfold U1 in HR'. rewrite insert_insert_eq in HR'.
    by replace (Z.of_nat (S t)) with (Z.of_nat t + 1) in HR' by lia.
  - rewrite end_test by (done || lia). apply wp_ret. split; [done|]. exists (k_bcache s).
    rewrite drop_ge by lia. cbn [hdr_fill]. rewrite upd_io_id. by rewrite insert_id.
Qed.

Lemma log_fuel_enough l : log_ok l -> (length (logged l) - 0 < log_fuel)%nat.
Proof. intros Hl. pose proof (logged_length l Hl). pose proof (lo_n _ Hl). unfold log_fuel. lia. Qed.

Lemma write_head_ok s U :
  let st := log_start (k_log s) in
  calm s -> rep s U -> log_ok (k_log s) -> U !! st = None -> (size U < NBUF)%nat ->
  io s write_head tt (dk_write (k_disk s) st (hdr_enc (logged (k_log s)) (dk_block (k_disk s) st))) U.
Proof.
  intros st Hc HR Hl Hn Hsz. apply io_wp. unfold write_head. eapply wp_run; [reflexivity|].
  rewrite dev_u32 by done. pose proof (lo_start _ Hl) as Hs.
  rewrite (wrap_small 32 (log_start (k_log s))) by (unfold LOGBLOCKS, MAXOPBLOCKS in Hs; lia). fold st.
  destruct (io_bread s U st Hc HR Hn Hsz ltac:(unfold LOGBLOCKS, MAXOPBLOCKS in Hs; lia)) as [buf H1]. eapply io_bind; [exact H1|]. intros bc1 HR1.
  set (U1 := <[st := _]> U) in *.
  assert (H1n : U1 !! st = Some (mk_uent buf 1 true (dk_block (k_disk s) st))) by (unfold U1; by simplify_map_eq).
  pose proof (blk_length _ U1 st HR1) as Hdl. unfold blk in Hdl. rewrite H1n in Hdl. simpl in Hdl.
  set (h0 := putle 4 0 (lh_n (log_lh (k_log s))) (dk_block (k_disk s) st)).
  io (io_data _ U1 st _ buf _ h0 HR1 H1n) as bc2 HR2.
  { unfold h0. rewrite putle_length; [done|]. rewrite Hdl. unfold BSIZE. lia. }
  { intros x Hx. simpl in Hx. by rewrite Hx. }
  set (U2 := <[st := _]> U1) in *.
  assert (H2n : U2 !! st = Some (mk_uent buf 1 true h0)) by (unfold U2; by simplify_map_eq).
  assert (Eh : hdr_fill 0 (logged (k_log s)) h0 = hdr_enc (logged (k_log s)) (dk_block (k_disk s) st)).
  { unfold hdr_enc, h0. by rewrite logged_length. }
  io (write_head_loop_ok log_fuel 0 _ U2 st buf 1 h0) as bc3 HR3; [apply (log_fuel_enough (k_log s) Hl)|].
  rewrite drop_0 in HR3. change (k_log (upd_io s bc2 (k_disk s))) with (k_log s) in HR3.
  change (Z.of_nat 0) with 0 in HR3. rewrite Eh in HR3.
  set (U3 := <[st := _]> U2) in *. set (h := hdr_enc _ _) in *.
  assert (H3n : U3 !! st = Some (mk_uent buf 1 true h)) by (unfold U3; by simplify_map_eq).
  io (io_bwrite _ U3 st _ buf) as bc4 HR4.
  io_end (io_brelse _ U3 st _ buf) as bc5 HR5; [intros _; io_norm; by rewrite dk_block_write, decide_True|].
  split; [done|]. exists bc5. split; [done|].
  replace U with (delete st U3); [exact HR5|]. unfold U3, U2, U1. map_solve st st.
Qed.

(** ** Committing *)

Definition no_log (l : log) : log := set_log_lh (set_lh_n 0 (log_lh l)) l.

Lemma no_log_ok l : log_ok l -> log_ok (no_log l).
Proof. intros [H1 H2 H3 H4 H5]. by constructor. Qed.

(** The state in which [end_op] calls [commit]: the buffers in use are those of
    the logged blocks, each pinned, with contents [vs]; the log on the disk is
    empty; a buffer is left for [commit] to work with. *)
Record at_commit (s : kstate) (U : gmap Z uent) (vs : list (list Z)) : Prop := {
  ac_calm : calm s;
  ac_rep : rep s U;
  ac_log : log_ok (k_log s);
  ac_nodup : NoDup (logged (k_log s));
  ac_pinned : Forall2 (pinned U) (logged (k_log s)) vs;
  ac_only : forall n, is_Some (U !! n) -> n ∈ logged (k_log s);
  ac_room : (size U < NBUF)%nat;
  ac_empty : hdr_n (dk_block (k_disk s) (log_start (k_log s))) = 0
}.

Lemma foldl_delete_lookup (l : list Z) (U : gmap Z uent) n :
  foldl (fun U b => delete b U) U l !! n = if decide (n ∈ l) then None else U !! n.
Proof.
  revert U; induction l as [|b l IH]; intros U; simpl; [done|]. rewrite IH.
  destruct (decide (n = b)) as [->|]; repeat case_decide; simplify_map_eq; set_solver.
Qed.

Lemma pinned_size U L : NoDup L -> (forall n, n ∈ L -> is_Some (U !! n)) -> (length L <= size (U : gmap Z uent))%nat.
Proof.
  intros Hnd HU. rewrite <- (size_dom U), <- (size_list_to_set (C := gset Z) L Hnd). apply subseteq_size.
  intros n Hn. apply elem_of_dom, HU. by apply elem_of_list_to_set in Hn.
Qed.

Section At.
Context (s : kstate) (U : gmap Z uent) (vs : list (list Z)) (HA : at_commit s U vs).
#[local] Abbreviation l := (k_log s).
#[local] Abbreviation st := (log_start l).
#[local] Abbreviation L := (logged l).
#[local] Abbreviation d := (k_disk s).
#[local] Abbreviation hd := (dk_block d st).

Lemma at_len : length vs = length L.
Proof. symmetry. apply (Forall2_length _ _ _ (ac_pinned _ _ _ HA)). Qed.

Lemma at_max : Z.of_nat (length L) < LOGBLOCKS.
Proof.
  assert (H : (length L <= size U)%nat).
  { apply pinned_size; [apply HA|]. intros n Hn. apply list_elem_of_lookup in Hn as [i Hi].
    destruct (Forall2_lookup_l _ _ _ _ _ (ac_pinned _ _ _ HA) Hi) as (v & _ & j & ->). by eexists. }
  pose proof (ac_room _ _ _ HA). unfold NBUF, LOGBLOCKS, MAXOPBLOCKS in *. lia.
Qed.

Lemma at_hd : length hd = Z.to_nat BSIZE.
Proof. apply (ac_rep _ _ _ HA). Qed.

Lemma at_nolog n : in_log st n -> U !! n = None.
Proof.
  intros Hn. destruct (U !! n) eqn:E; [|done].
  assert (Hin : n ∈ L) by (apply (ac_only _ _ _ HA); by eexists).
  pose proof (lo_out _ (ac_log _ _ _ HA)) as H. rewrite Forall_forall in H. by destruct (H n Hin).
Qed.

Lemma at_unpinned : foldl (fun U b => delete b U) U (drop 0 L) = ∅.
Proof.
  apply map_eq. intros n. rewrite drop_0, foldl_delete_lookup, lookup_empty. case_decide as H; [done|].
  destruct (U !! n) eqn:E; [|done]. destruct H. apply (ac_only _ _ _ HA). by eexists.
Qed.

Lemma log_writes_st : dk_block (apply_writes (log_writes st vs) d) st = hd.
Proof.
  rewrite dk_block_apply, lastw_None; [done|]. intros H.
  apply (log_writes_in st d L vs at_len at_max at_hd) in H. lia.
Qed.

Lemma write_log_slot i v :
  vs !! i = Some v ->
  dk_block (dk_write (apply_writes (log_writes st vs) d) st (hdr_enc L hd)) (st + 1 + Z.of_nat i) = v.
Proof.
  intros Hv. rewrite dk_block_write, decide_False by lia. rewrite dk_block_apply.
  by rewrite (lastw_log st d vs at_hd i v).
Qed.

(** [commit] makes exactly the writes of [commit_writes], in this order, and
    leaves no block in use and no block logged. *)
Lemma commit_ok :
  exists bc ws, commit s = Ret tt (set_k_log (no_log l) (upd_io s bc (apply_writes ws d))) /\
    rep (set_k_log (no_log l) (upd_io s bc (apply_writes ws d))) ∅ /\
    (ws = [] /\ L = [] \/ ws = commit_writes st L vs hd).
Proof.
  pose proof (ac_log _ _ _ HA) as Hl. pose proof (ac_calm _ _ _ HA) as Hc. pose proof at_max as Hm.
  unfold commit, gets, bind at 1. destruct (Z.ltb_spec 0 (lh_n (log_lh l))) as [Hn|Hn].
  2: { pose proof (lo_n _ Hl) as H0.
       assert (HL : L = []) by (unfold logged; by replace (lh_n (log_lh l)) with 0 by lia).
       assert (HU : U = ∅).
       { apply map_eq. intros n. rewrite lookup_empty. destruct (U !! n) eqn:E; [|done].
         assert (Hin : n ∈ L) by (apply (ac_only _ _ _ HA); by eexists). rewrite HL in Hin. by apply not_elem_of_nil in Hin. }
       exists (k_bcache s), []. cbn [when apply_writes fold_left]. rewrite upd_io_id.
       assert (El : set_k_log (no_log l) s = s).
       { unfold no_log. replace 0 with (lh_n (log_lh l)) by lia. by destruct s as [? ? ? ? ? ? ? ? ? ? ? ? [? ? ? ? ? []]]. }
       rewrite El. split; [done|]. rewrite <- HU. split; [apply HA|]. by left. }
  cbn [when].
  destruct (write_log_loop_ok log_fuel 0 s U vs) as (bc1 & E1 & HR1); try apply HA; try done.
  { apply at_nolog. }
  { by apply log_fuel_enough. }
  rewrite drop_0 in E1, HR1. set (d1 := apply_writes _ d) in *.
  rewrite (bind_Ret _ _ _ _ _ E1).
  destruct (write_head_ok (upd_io s bc1 d1) U) as (bc2 & E2 & HR2); try apply HA; auto with kern.
  { apply at_nolog. simpl. unfold in_log, LOGBLOCKS, MAXOPBLOCKS. lia. }
  io_norm. change (k_log (upd_io s bc1 d1)) with l in *.
  unfold d1 in E2, HR2. rewrite log_writes_st in E2, HR2. fold d1 in E2, HR2.
  rewrite (bind_Ret _ _ _ _ _ E2). set (d2 := dk_write d1 _ _) in *.
  destruct (install_loop_ok log_fuel 0 (upd_io s bc2 d2) U vs) as (bc3 & E3 & HR3); try apply HA; auto with kern.
  { intros n. apply at_nolog. }
  { intros i v Hv. by apply write_log_slot. }
  { apply at_len. }
  { by apply log_fuel_enough. }
  io_norm. change (k_log (upd_io s bc2 d2)) with l in *. rewrite at_unpinned in HR3. rewrite drop_0 in E3, HR3.
  rewrite (bind_Ret _ _ _ _ _ E3). set (d3 := apply_writes _ d2) in *.
  unfold lh_set_n, upd_log, modify, bind at 1.
  set (s3 := set_k_log (no_log l) (upd_io s bc3 d3)).
  destruct (write_head_ok s3 ∅) as (bc4 & E4 & HR4); auto with kern.
  { by apply (calm_ext s). }
  { by apply no_log_ok. }
  { rewrite map_size_empty. unfold NBUF. lia. }
  exists bc4, (commit_writes st L vs hd). 
  assert (Ed : dk_write d3 st (hdr_enc [] (dk_block d3 st)) = apply_writes (commit_writes st L vs hd) d).
  { assert (E : d3 = committed st d L vs (length L)).
    { unfold committed. rewrite !apply_writes_app, take_ge by (rewrite length_zip_with; lia). done. }
    rewrite E, (committed_hdr st d L vs at_len Hm (lo_out _ Hl) at_hd).
    unfold committed, commit_writes. rewrite !apply_writes_app, take_ge by (rewrite length_zip_with; lia). done. }
  change (k_disk s3) with d3 in E4, HR4. change (log_start (k_log s3)) with st in E4, HR4.
  change (logged (k_log s3)) with ([] : list Z) in E4, HR4. rewrite Ed in E4, HR4. split_and!; [exact E4|exact HR4|by right].
Qed.

End At.

(** ** Recovery *)

Lemma recovering_emits a b :
  exists l, emits (printf_loop (S (length recovering_fmt)) recovering_fmt [VInt a; VInt b]) l.
Proof.
  eexists. unfold recovering_fmt. cbn [length].
  repeat first [ apply emits_d | apply emits_lit; [unfold byte_ok; lia|lia|lia|] ].
  apply emits_ret.
Qed.

Lemma rep_set_log l s U : rep s U -> rep (set_k_log l s) U.
Proof. done. Qed.
Lemma rep_set_uart u s U : rep s U -> rep (set_k_uart u s) U.
Proof. done. Qed.
Lemma calm_set_log l s : calm s -> calm (set_k_log l s).
Proof. by apply calm_ext. Qed.
Lemma calm_set_uart u s : calm s -> calm (set_k_uart u s).
Proof. by apply calm_ext. Qed.
#[local] Hint Resolve calm_set_log calm_set_uart rep_set_log rep_set_uart : kern.

(** The state after [install_trans(1)] has turned [s] into one with disk [d]:
    the console may have changed too. *)
Definition installed (s : kstate) (d : disk) (s' : kstate) : Prop :=
  exists u bc, s' = set_k_uart u (upd_io s bc d) /\ rep s' ∅.

Lemma recover_loop_ok f t s vs :
  calm s -> rep s ∅ -> log_ok (k_log s) -> Z.of_nat (length (logged (k_log s))) < LOGBLOCKS ->
  length vs = length (logged (k_log s)) ->
  (forall i v, vs !! i = Some v -> dk_block (k_disk s) (log_start (k_log s) + 1 + Z.of_nat i) = v) ->
  (length (logged (k_log s)) - t < f)%nat ->
  wp (install_trans_loop f true (Z.of_nat t)) s
    (fun _ => installed s (apply_writes (drop t (zip (logged (k_log s)) vs)) (k_disk s))).
Proof.
  revert t s; induction f as [|f IH]; intros t s Hc HR Hl Hm Hvs Hd Hf; [lia|].
  cbn [install_trans_loop]. eapply wp_run; [reflexivity|].
  destruct (decide (t < length (logged (k_log s)))%nat) as [Ht|Ht].
  - rewrite (turn_test _ t) by done. cbn [negb].
    destruct (lookup_lt_is_Some_2 _ _ Ht) as [b Hb]. destruct (lookup_lt_is_Some_2 vs t) as [v Hv]; [lia|].
    destruct (logged_slot _ t b Hl Hb) as (Ho & Hbr & Htr).
    destruct (recovering_emits (Z.of_nat t) b) as [out He].
    pose proof (printf_ok _ _ _ s He (calm_cpu_ok s Hc) (calm_lock_free s _ Hc) (calm_lock_free s _ Hc)) as Ep.
    set (u := uart_puts out (k_uart s)) in *.
    eapply (wp_run _ _ _ tt (set_k_uart u s)).
    { cbn [when]. rewrite (bind_Ret _ _ _ _ _ (lh_get_ok s t b Hb)). by run Ep. }
    rewrite dev_u32, start_u32 by done.
    eapply (recover_turn (set_k_uart u s) _ b v); auto with kern; [pose proof (slot_in_log _ t Hl Ht Hm); congruence| | |by eapply slot_range].
    2: { intros bc d. by apply lh_get_ok. }
    intros bc HR'. replace (Z.of_nat t + 1) with (Z.of_nat (S t)) by lia.
    eapply wp_mono; [apply IH; auto with kern|].
    + intros i w Hw. simpl. rewrite dk_block_write, decide_False; [by apply Hd|].
      intros ->. apply Ho. apply lookup_lt_Some in Hw. pose proof (logged_length _ Hl). pose proof (lo_n _ Hl).
      unfold in_log. lia.
    + simpl. lia.
    + intros _ s' (u' & bc' & -> & HR''). exists u', bc'.
      rewrite (drop_S _ (b, v) t) by (rewrite lookup_zip_with, Hb; simpl; by rewrite Hv). by split.
  - rewrite end_test by (done || lia). apply wp_ret. exists (k_uart s), (k_bcache s).
    rewrite drop_ge by (rewrite ?length_zip_with; lia). cbn [apply_writes fold_left].
    rewrite upd_io_id. by destruct s.
Qed.

(** [read_head] copies the header of the disk into memory. *)
Lemma read_head_loop_ok f t s U n buf r data h :
  rep s U -> U !! n = Some (mk_uent buf r true data) -> 0 <= hdr_n data <= LOGBLOCKS ->
  lh_n (log_lh (k_log s)) = hdr_n data -> h = hdr_list data ->
  length (lh_block (log_lh (k_log s))) = Z.to_nat LOGBLOCKS ->
  take t (lh_block (log_lh (k_log s))) = take t h -> (t <= length h)%nat ->
  (length h - t < f)%nat ->
  exists bl, length bl = Z.to_nat LOGBLOCKS /\ take (length h) bl = h /\
    read_head_loop f buf (Z.of_nat t) s =
      Ret tt (set_k_log (set_log_lh (set_lh_block bl (log_lh (k_log s))) (k_log s)) s).
Proof.
  revert t s; induction f as [|f IH]; intros t s HR Hn Hr En Eh Hlen Htk Hth Hf; [lia|].
  pose proof (hdr_list_length data (proj1 Hr)) as Hhl. rewrite <- Eh in Hhl.
  cbn [read_head_loop]. unfold gets at 1, bind at 1. rewrite En.
  destruct (Z.ltb_spec (Z.of_nat t) (hdr_n data)) as [Ht|Ht]; cbn [negb].
  - destruct (get_data s U n _ buf HR Hn eq_refl) as (x & Ex & Edx & _). run Ex. rewrite Edx. cbn [u_data].
    assert (Hb : h !! t = Some (hdr_block data (Z.of_nat t))).
    { rewrite Eh. unfold hdr_list. rewrite list_lookup_fmap, lookup_seq_lt by lia. done. }
    destruct (lookup_lt_is_Some_2 (lh_block (log_lh (k_log s))) t) as [y Hy]; [lia|].
    set (bl0 := <[t := hdr_block data (Z.of_nat t)]> (lh_block (log_lh (k_log s)))).
    set (s1 := set_k_log (set_log_lh (set_lh_block bl0 (log_lh (k_log s))) (k_log s)) s).
    rewrite (bind_Ret _ _ _ tt s1).
    2: { unfold lh_put, lh_get, upd_log, modify, deref, bind. rewrite Nat2Z.id, Hy. done. }
    replace (Z.of_nat t + 1) with (Z.of_nat (S t)) by lia.
    destruct (IH (S t) s1) as (bl & Hbl & Htk' & E); auto with kern.
    + simpl. unfold bl0. by rewrite length_insert.
    + simpl. unfold bl0. rewrite (take_S_r _ _ (hdr_block data (Z.of_nat t))) by (apply list_lookup_insert_eq; lia).
      rewrite (take_S_r h _ (hdr_block data (Z.of_nat t))) by done. rewrite take_insert_ge by lia. by rewrite Htk.
    + lia.
    + lia.
    + exists bl. by rewrite E.
  - exists (lh_block (log_lh (k_log s))). split; [done|]. replace (length h) with t by lia.
    rewrite Htk, take_ge by lia. split; [done|]. unfold ret. f_equal.
    by destruct s as [? ? ? ? ? ? ? ? ? ? ? ? [? ? ? ? ? []]].
Qed.

(** A machine that has started again: nothing cached is in use, and the log
    has its place on the disk. *)
Record rebooted (s : kstate) (st : Z) : Prop := {
  rb_calm : calm s;
  rb_rep : rep s ∅;
  rb_dev : log_dev (k_log s) = ROOTDEV;
  rb_start : log_start (k_log s) = st;
  rb_range : 0 <= st < 2 ^ 31 - LOGBLOCKS;
  rb_len : length (lh_block (log_lh (k_log s))) = Z.to_nat LOGBLOCKS
}.

Lemma read_head_ok s st :
  rebooted s st -> log_wf st (k_disk s) ->
  wp read_head s (fun _ s' => exists bc l, s' = set_k_log l (upd_io s bc (k_disk s)) /\ rep s' ∅ /\
    log_ok l /\ log_start l = st /\ logged l = hdr_list (dk_block (k_disk s) st)).
Proof.
  intros [Hc HR Hdev <- Hs Hlen] [Hn Hh]. set (st := log_start (k_log s)) in *.
  unfold read_head. eapply wp_run; [reflexivity|]. rewrite Hdev. change (u32 ROOTDEV) with ROOTDEV.
  fold st. rewrite (wrap_small 32 st) by (unfold LOGBLOCKS, MAXOPBLOCKS in Hs; lia).
  destruct (io_bread s ∅ st Hc HR) as [buf H1];
    [done|rewrite map_size_empty; unfold NBUF; lia|unfold LOGBLOCKS, MAXOPBLOCKS in Hs; lia|].
  eapply io_bind; [exact H1|]. intros bc1 HR1. set (U1 := <[st := _]> ∅) in *.
  set (data := dk_block (k_disk s) st) in *.
  assert (H1n : U1 !! st = Some (mk_uent buf 1 true data)) by (unfold U1; by simplify_map_eq).
  destruct (get_data _ U1 st _ buf HR1 H1n eq_refl) as (x & Ex & Edx & _). eapply wp_run; [exact Ex|]. rewrite Edx.
  cbn [u_data]. eapply wp_run; [reflexivity|]. unfold upd_log.
  set (l1 := set_log_lh (set_lh_n (hdr_n data) (log_lh (k_log s))) (k_log s)).
  change (wp (read_head_loop log_fuel buf (Z.of_nat 0) ;; brelse buf) (set_k_log l1 (upd_io s bc1 (k_disk s)))
    (fun _ s' => exists bc l, s' = set_k_log l (upd_io s bc (k_disk s)) /\ rep s' ∅ /\
      log_ok l /\ log_start l = st /\ logged l = hdr_list data)).
  pose proof (hdr_list_length data (proj1 Hn)) as Hhl.
  destruct (read_head_loop_ok log_fuel 0 (set_k_log l1 (upd_io s bc1 (k_disk s))) U1 st buf 1 data (hdr_list data))
    as (bl & Hbl & Htk & E); auto with kern; [lia|lia|unfold log_fuel; lia|].
  eapply wp_run; [exact E|]. set (l2 := set_log_lh _ _). 
  assert (HR2 : rep (set_k_log l2 (upd_io s bc1 (k_disk s))) U1) by done.
  io_end (io_brelse _ U1 st _ buf) as bc3 HR3.
  exists bc3, l2. assert (El : logged l2 = hdr_list data).
  { unfold logged. simpl. by replace (Z.to_nat (hdr_n data)) with (length (hdr_list data)) by lia. }
  split; [done|]. split; [|split; [|by split]].
  - replace (∅ : gmap Z uent) with (delete st U1); [exact HR3|]. unfold U1. map_solve st st.
  - constructor; simpl; try done; [lia|by rewrite El].
Qed.

(** [recover_from_log] makes the writes of [recovery_writes] and leaves an empty
    log. *)
Lemma recover_ok s st :
  rebooted s st -> log_wf st (k_disk s) ->
  wp recover_from_log s (fun _ s' => rebooted s' st /\
    k_disk s' = apply_writes (recovery_writes st (k_disk s)) (k_disk s) /\
    hdr_n (dk_block (k_disk s') st) = 0).
Proof.
  intros Hb Hw. pose proof (rb_calm _ _ Hb) as Hc. set (d := k_disk s) in *.
  unfold recover_from_log. apply wp_bind. eapply wp_mono; [by apply (read_head_ok s st)|].
  intros _ s1 (bc & l & -> & HR1 & Hl & <- & Hh). fold d in HR1, Hh |- *. set (st := log_start l) in *.
  set (s1 := set_k_log l (upd_io s bc d)) in *. assert (Hc1 : calm s1) by (by apply (calm_ext s)).
  set (vs := (fun i => dk_block d (st + 1 + Z.of_nat i)) <$> seq 0 (length (logged l))).
  assert (Hvs : length vs = length (logged l)) by (unfold vs; by rewrite length_fmap, length_seq).
  assert (Ez : zip (logged l) vs = redo st d).
  { unfold redo. rewrite <- Hh. apply list_eq. intros i. rewrite list_lookup_imap, lookup_zip_with.
    destruct (logged l !! i) eqn:E; [|done]. simpl. unfold vs. rewrite list_lookup_fmap, lookup_seq_lt; [done|].
    by apply lookup_lt_Some in E. }
  apply wp_bind. eapply wp_mono; [apply (recover_loop_ok log_fuel 0 s1 vs); auto|].
  { change (k_log s1) with l. rewrite Hh, hdr_list_length by apply Hw. apply Hw. }
  { intros i v Hv. unfold vs in Hv. rewrite list_lookup_fmap in Hv.
    destruct (seq 0 (length (logged l)) !! i) eqn:E; [|done]. apply lookup_seq in E as [-> _]. by simplify_eq/=. }
  { by apply log_fuel_enough. }
  intros _ s2 (u & bc2 & -> & HR2). rewrite drop_0 in *. change (k_log s1) with l in *. change (k_disk s1) with d in *.
  rewrite Ez in *. set (d2 := apply_writes (redo st d) d) in *.
  eapply wp_run; [reflexivity|]. 
  set (s3 := set_k_log (no_log l) (set_k_uart u (upd_io s1 bc2 d2))).
  change (wp write_head s3 (fun _ s' => rebooted s' st /\ k_disk s' = apply_writes (recovery_writes st d) d /\
    hdr_n (dk_block (k_disk s') st) = 0)).
  assert (Hc3 : calm s3) by (by apply (calm_ext s)).
  assert (Est : dk_block d2 st = dk_block d st).
  { unfold d2. rewrite dk_block_apply, lastw_None; [done|]. apply log_wf_out; [done|].
    unfold in_log, LOGBLOCKS, MAXOPBLOCKS; lia. }
  eapply io_last; [apply (write_head_ok s3 ∅ Hc3); auto|].
  { by apply no_log_ok. }
  { rewrite map_size_empty. unfold NBUF. lia. }
  intros bc4 HR4. change (k_disk s3) with d2 in *. change (log_start (k_log s3)) with st in *.
  change (logged (k_log s3)) with ([] : list Z) in *. rewrite Est in *.
  split; [|split].
  - constructor; auto with kern; try apply Hl.
  - unfold recovery_writes. by rewrite apply_writes_app.
  - io_norm. rewrite dk_block_write, decide_True by done. apply hdr_n_enc; [|by cbn].
    destruct HR1 as [H _]. apply H.
Qed.

(** ** Crashes *)

Lemma log_wf_empty st d : hdr_n (dk_block d st) = 0 -> log_wf st d.
Proof. intros H. split; [rewrite H; unfold LOGBLOCKS, MAXOPBLOCKS; lia|]. unfold hdr_list. by rewrite H. Qed.

Lemma recovered_home st d n :
  ~ in_log st n -> dk_block (apply_writes (recovery_writes st d) d) n = home st d n.
Proof.
  intros Hn. unfold recovery_writes, home. rewrite dk_block_apply, lastw_app, lastw_singleton.
  rewrite decide_False; [done|]. intros <-. apply Hn. unfold in_log, LOGBLOCKS, MAXOPBLOCKS; lia.
Qed.

Lemma lastw_zip (l : list Z) (vs : list (list Z)) i n v :
  NoDup l -> length vs = length l -> l !! i = Some n -> vs !! i = Some v -> lastw (zip l vs) n = Some v.
Proof.
  intros Hnd Hlen Hn Hv. rewrite <- (take_drop (S i) (zip l vs)), lastw_app.
  rewrite (lastw_None (drop (S i) (zip l vs))).
  - rewrite (take_S_r _ i (n, v)) by (rewrite lookup_zip_with, Hn; simpl; by rewrite Hv).
    by rewrite lastw_app, lastw_singleton, decide_True.
  - rewrite fmap_drop, fst_zip by lia. by apply NoDup_at.
Qed.

Lemma at_after s U vs n :
  at_commit s U vs -> after (k_disk s) (logged (k_log s)) vs n = blk s U n.
Proof.
  intros HA. unfold after, blk. pose proof (at_len s U vs HA) as Hlen.
  destruct (decide (n ∈ logged (k_log s))) as [Hin|Hin].
  - apply list_elem_of_lookup in Hin as [i Hi].
    destruct (Forall2_lookup_l _ _ _ _ _ (ac_pinned _ _ _ HA) Hi) as (v & Hv & j & Hu).
    rewrite Hu, (lastw_zip _ vs i n v); [done|apply HA|done..].
  - rewrite lastw_None by (by rewrite fst_zip by lia).
    destruct (U !! n) eqn:E; [|done]. destruct Hin. apply (ac_only _ _ _ HA). by eexists.
Qed.

Lemma lastw_elem ws n v : lastw ws n = Some v -> (n, v) ∈ ws.
Proof.
  induction ws as [|[m w] ws IH] using rev_ind; [done|]. rewrite lastw_app, lastw_singleton, elem_of_app.
  case_decide as E; [|auto]. intros [= ->]. subst. right. by apply list_elem_of_singleton.
Qed.

Lemma elem_of_take_1 {A} (x : A) l k : x ∈ take k l -> x ∈ l.
Proof. rewrite <- (take_drop k l) at 2. rewrite elem_of_app. auto. Qed.

(** The log is well formed at every point of a commit. *)
Lemma crash_wf s U vs k :
  at_commit s U vs ->
  let st := log_start (k_log s) in
  log_wf st (apply_writes (take k (commit_writes st (logged (k_log s)) vs (dk_block (k_disk s) st))) (k_disk s)).
Proof.
  intros HA st. set (L := logged (k_log s)). set (d := k_disk s). set (hd := dk_block d st).
  pose proof (at_len s U vs HA) as Hlen. pose proof (at_max s U vs HA) as Hmax. pose proof (at_hd s U vs HA) as Hhd.
  pose proof (lo_out _ (ac_log _ _ _ HA)) as Hout.
  pose proof (ac_empty _ _ _ HA) as He. fold L st d hd in Hlen, Hmax, Hhd, Hout, He.
  assert (Hcases : exists j, dk_block (apply_writes (take k (commit_writes st L vs hd)) d) st = j /\
     (j = hd \/ j = hdr_enc L hd \/ j = hdr_enc [] (hdr_enc L hd))).
  { eexists. split; [reflexivity|]. rewrite dk_block_apply.
    assert (Hin : forall v, lastw (take k (commit_writes st L vs hd)) st = Some v ->
        v = hdr_enc L hd \/ v = hdr_enc [] (hdr_enc L hd)).
    { intros v Hv. apply lastw_elem, (elem_of_take_1 _ _ k) in Hv. unfold commit_writes in Hv.
      rewrite !elem_of_app, !list_elem_of_singleton in Hv. destruct Hv as [Hv|[Hv|[Hv|Hv]]].
      - assert (H : st ∈ (log_writes st vs).*1) by (apply list_elem_of_fmap; by exists (st, v)).
        apply (log_writes_in st d L vs Hlen Hmax Hhd) in H. lia.
      - left. by injection Hv.
      - assert (H : st ∈ (zip L vs).*1) by (apply list_elem_of_fmap; by exists (st, v)).
        apply (B_out st d L vs Hlen Hmax Hout Hhd) in H; [done|]. unfold in_log, LOGBLOCKS, MAXOPBLOCKS; lia.
      - right. by injection Hv. }
    destruct (lastw _ st) eqn:E; simpl; [|by left]. right. by apply Hin. }
  destruct Hcases as (j & Ej & Hj). constructor; rewrite Ej.
  - destruct Hj as [->|[->| ->]].
    + rewrite He. unfold LOGBLOCKS, MAXOPBLOCKS; lia.
    + rewrite hdr_n_enc by (done || lia). lia.
    + rewrite hdr_n_enc; [simpl; unfold LOGBLOCKS, MAXOPBLOCKS; lia|apply hdr_enc_length; [done|lia]|by cbn].
  - destruct Hj as [->|[->| ->]].
    + unfold hdr_list. by rewrite He.
    + rewrite hdr_list_enc; [done|done|lia|]. eapply Forall_impl; [exact Hout|]. intros b [_ Hb]. unfold int_ok. lia.
    + rewrite hdr_list_enc; [done|apply hdr_enc_length; [done|lia]|by cbn|done].
Qed.

(** ... and of a recovery. *)
Lemma recovery_prefix_wf st d j :
  log_wf st d -> length (dk_block d st) = Z.to_nat BSIZE ->
  log_wf st (apply_writes (take j (recovery_writes st d)) d).
Proof.
  intros Hw Hl. assert (Hst : in_log st st) by (unfold in_log, LOGBLOCKS, MAXOPBLOCKS; lia).
  destruct (lastw (take j (recovery_writes st d)) st) as [v|] eqn:E.
  - apply log_wf_empty. rewrite dk_block_apply, E. simpl.
    apply lastw_elem, (elem_of_take_1 _ _ j) in E. unfold recovery_writes in E.
    apply elem_of_app in E as [E|E].
    + destruct (log_wf_out st d st Hw Hst). apply list_elem_of_fmap. by exists (st, v).
    + apply list_elem_of_singleton in E. injection E as ->. apply hdr_n_enc; [done|by cbn].
  - destruct Hw as [H1 H2]. constructor; by rewrite dk_block_apply, E.
Qed.

End LogSpec.
