(* ===== verification/Txn.v ===== *)
(** Transactions: [begin_op], [log_write] and [end_op] of log.c.

    [tx s H C] is what file-system code sees between [begin_op] and [end_op]:
    the buffers it holds locked ([H]) and the contents every block has for it
    ([C]), whatever is cached, pinned or still only on the disk.  The theorems
    at the end put the log together: crash atomicity of commit and of recovery,
    and what the log's limits mean. *)

From S2P Require Import Prelude Types Memory Spinlock Sched Sleeplock Bio Uart Printf Block Log LogSpec.
Local Open Scope c_scope.

Section Txn.
Context {W : Wakeups} {D : DiskDriver} {DC : DiskContract}.

(** * Critical sections of the log *)

Lemma enter_free l l' s : calm s -> l <> l' -> lock_free (enter l s) l'.
Proof.
  intros Hc Hne. unfold lock_free. rewrite enter_lock_ne; [|by apply calm_cpu_ok|done].
  by rewrite (calm_locks _ Hc).
Qed.

Lemma calm_wakeup_log l s ch :
  calm s -> fs_chan ch = true -> (forall i, l <> LK_proc i) ->
  forall lg, wakeup ch (set_k_log lg (enter l s)) = Ret tt (set_k_log lg (enter l s)).
Proof.
  intros Hc Hch Hl lg. apply wakeup_nobody.
  - apply (enter_cpu_ok l s). by apply calm_cpu_ok.
  - intros i _. apply (enter_free l (LK_proc i) s); auto.
  - simpl. rewrite k_procs_enter. apply Hc.
  - intros i p Hi Hcur. simpl in Hi. rewrite k_procs_enter in Hi.
    apply (calm_wait _ Hc ch Hch i p Hi). intros E. apply Hcur. rewrite <- (cur_enter l) in E. exact E.
Qed.

Lemma rep_ext s s' U :
  k_bcache s' = k_bcache s -> k_disk s' = k_disk s -> cur_pid s' = cur_pid s -> rep s U -> rep s' U.
Proof. unfold rep. by intros -> -> ->. Qed.

Lemma cur_pid_enter l s : cur_pid (enter l s) = cur_pid s.
Proof. unfold cur_pid. by rewrite cur_enter, k_procs_enter. Qed.

(** [begin_op] when there is room: it counts the operation. *)
Lemma begin_op_ok s :
  calm s -> log_committing (k_log s) = false ->
  lh_n (log_lh (k_log s)) + (log_outstanding (k_log s) + 1) * MAXOPBLOCKS <= LOGBLOCKS ->
  begin_op s = Ret tt (set_k_log (set_log_outstanding (log_outstanding (k_log s) + 1) (k_log s)) s).
Proof.
  intros Hc Hcm Hroom. pose proof (calm_cpu_ok s Hc) as Hcpu. pose proof (calm_lock_free s LK_log Hc) as Hl.
  unfold begin_op. run (acquire_free LK_log s Hcpu Hl). cbn [begin_op_loop].
  unfold gets, bind at 1. rewrite k_log_enter, Hcm. rewrite (proj2 (Z.ltb_ge _ _)) by lia.
  unfold upd_log, modify, bind at 1. rewrite k_log_enter. leave. by kproj.
Qed.

(** The search of [log_write]. *)
Lemma log_find_hit f s n i t :
  log_ok (k_log s) -> logged (k_log s) !! i = Some n -> (forall j, (j < i)%nat -> logged (k_log s) !! j <> Some n) ->
  (t <= i)%nat -> (i - t < f)%nat -> 0 <= n < 2 ^ 31 ->
  log_find f n (Z.of_nat t) s = Ret (Z.of_nat i) s.
Proof.
  revert t; induction f as [|f IH]; intros t Hl Hi Hfirst Ht Hf Hn; [lia|].
  pose proof (lookup_lt_Some _ _ _ Hi) as Hlt.
  cbn [log_find]. unfold gets at 1, bind at 1. rewrite (turn_test _ t) by (done || lia). cbn [negb].
  destruct (lookup_lt_is_Some_2 (logged (k_log s)) t) as [b Hb]; [lia|]. run (lh_get_ok s t b Hb).
  destruct (logged_slot _ t b Hl Hb) as (_ & Hbr & _). rewrite (wrap_small 32) by lia.
  destruct (Z.eqb_spec b n) as [->|Hbn].
  - destruct (decide (t = i)) as [->|]; [done|]. destruct (Hfirst t); [lia|done].
  - assert (t <> i) by congruence. replace (Z.of_nat t + 1) with (Z.of_nat (S t)) by lia. apply IH; auto; lia.
Qed.

Lemma log_find_miss f s n t :
  log_ok (k_log s) -> n ∉ logged (k_log s) -> (t <= length (logged (k_log s)))%nat ->
  (length (logged (k_log s)) - t < f)%nat ->
  log_find f n (Z.of_nat t) s = Ret (lh_n (log_lh (k_log s))) s.
Proof.
  revert t; induction f as [|f IH]; intros t Hl Hn Ht Hf; [lia|].
  cbn [log_find]. unfold gets at 1, bind at 1.
  destruct (decide (t < length (logged (k_log s)))%nat) as [Hlt|Hge].
  - rewrite (turn_test _ t) by done. cbn [negb].
    destruct (lookup_lt_is_Some_2 _ _ Hlt) as [b Hb]. run (lh_get_ok s t b Hb).
    destruct (logged_slot _ t b Hl Hb) as (_ & Hbr & _). rewrite (wrap_small 32) by lia.
    destruct (Z.eqb_spec b n) as [->|Hbn]; [destruct Hn; by eapply list_elem_of_lookup_2|].
    replace (Z.of_nat t + 1) with (Z.of_nat (S t)) by lia. apply IH; auto; lia.
  - rewrite end_test by (done || lia). cbn [negb]. unfold ret. f_equal. rewrite <- logged_length by done. lia.
Qed.

(** The transaction after [log_write] of block [n]. *)
Definition log_add (n : Z) (l : log) : log :=
  set_log_lh (set_lh_n (lh_n (log_lh l) + 1)
    (set_lh_block (<[Z.to_nat (lh_n (log_lh l)) := n]> (lh_block (log_lh l))) (log_lh l))) l.

Lemma logged_add n l : log_ok l -> lh_n (log_lh l) < LOGBLOCKS -> logged (log_add n l) = logged l ++ [n].
Proof.
  intros [_ _ Hlen Hn _] Hlt. unfold logged. simpl.
  replace (Z.to_nat (lh_n (log_lh l) + 1)) with (S (Z.to_nat (lh_n (log_lh l)))) by lia.
  rewrite (take_S_r _ _ n) by (apply list_lookup_insert_eq; lia). by rewrite take_insert_ge by lia.
Qed.

Lemma log_add_ok n l :
  log_ok l -> lh_n (log_lh l) < LOGBLOCKS -> ~ in_log (log_start l) n -> 0 <= n < 2 ^ 31 -> log_ok (log_add n l).
Proof.
  intros Hl Hlt Hn Hr. pose proof (logged_add n l Hl Hlt) as E. destruct Hl as [H1 H2 H3 H4 H5].
  constructor; simpl; try done; [by rewrite length_insert|lia|].
  rewrite E. apply Forall_app. split; [done|]. by apply Forall_singleton.
Qed.

(** The first part of [log_write], up to the search. *)
Lemma log_write_start s U n e i k (x : Z) :
  calm s -> rep s U -> U !! n = Some e -> lh_n (log_lh (k_log s)) < LOGBLOCKS -> 1 <= log_outstanding (k_log s) ->
  log_find log_fuel n 0 (enter LK_log s) = Ret x (enter LK_log s) -> u_idx e = i ->
  (acquire LK_log ;;
   l <- gets k_log ;;
   if LOGBLOCKS <=? lh_n (log_lh l) then panic "too big a transaction" else
   if log_outstanding l <? 1 then panic "log_write outside of trans" else
   y <- get_buf i ;;
   j <- log_find log_fuel (b_blockno y) 0 ;;
   k l (b_blockno y) j) s = k (k_log s) n x (enter LK_log s) :> outcome kstate unit.
Proof.
  intros Hc HR Hn Hmax Hout Hf <-. pose proof (calm_cpu_ok s Hc) as Hcpu. pose proof (calm_lock_free s LK_log Hc) as Hl.
  run (acquire_free LK_log s Hcpu Hl). unfold gets, bind at 1. rewrite k_log_enter.
  rewrite (proj2 (Z.leb_gt _ _)), (proj2 (Z.ltb_ge _ _)) by lia.
  destruct (rep_buf s U n e HR Hn) as (b & Hb & Ha & _).
  assert (Hb' : bc_buf (k_bcache (enter LK_log s)) !! u_idx e = Some b) by (by rewrite k_bcache_enter).
  run (get_buf_ok _ _ _ Hb'). rewrite (ab_no _ _ _ Ha). by run Hf.
Qed.

Lemma first_index (l : list Z) n :
  n ∈ l -> exists i, l !! i = Some n /\ forall j, (j < i)%nat -> l !! j <> Some n.
Proof.
  induction l as [|b l IH]; intros H; [by apply not_elem_of_nil in H|].
  destruct (decide (b = n)) as [->|Hne]; [exists 0%nat; split; [done|lia]|].
  apply elem_of_cons in H as [->|H]; [done|]. destruct (IH H) as (i & Hi & Hf).
  exists (S i). split; [done|]. intros [|j] Hj; simpl; [congruence|]. apply Hf. lia.
Qed.

Lemma set_k_log_id s : set_k_log (k_log s) s = s.
Proof. by destruct s. Qed.

(** Absorption: a block that is logged already. *)
Lemma log_write_hit s U n e :
  calm s -> rep s U -> log_ok (k_log s) -> U !! n = Some e -> n ∈ logged (k_log s) ->
  lh_n (log_lh (k_log s)) < LOGBLOCKS -> 1 <= log_outstanding (k_log s) ->
  log_write (u_idx e) s = Ret tt s.
Proof.
  intros Hc HR Hl Hn Hin Hmax Hout. destruct (first_index _ n Hin) as (i & Hi & Hfirst).
  destruct (logged_slot _ i n Hl Hi) as (_ & Hnr & Hir).
  pose proof (calm_cpu_ok s Hc) as Hcpu. pose proof (calm_lock_free s LK_log Hc) as Hlk.
  unfold log_write.
  rewrite (log_write_start s U n e (u_idx e) (fun l bn j => lh_put j (i32 bn) ;;
     when (j =? lh_n (log_lh l)) (bpin (u_idx e) ;; lh_set_n (lh_n (log_lh l) + 1)) ;; release LK_log) (Z.of_nat i)); auto.
  2: { apply (log_find_hit log_fuel _ n i 0); rewrite ?k_log_enter; auto; [lia|]. unfold log_fuel. lia. }
  cbn beta. pose proof (lookup_lt_Some _ _ _ Hi) as Hlt. rewrite <- (logged_length _ Hl).
  rewrite (proj2 (Z.eqb_neq _ _)) by lia. rewrite (swrap_small 32) by (simpl; lia).
  assert (Hb : lh_block (log_lh (k_log s)) !! i = Some n) by (by apply lookup_take_Some in Hi as [? _]).
  rewrite (bind_Ret _ _ _ tt (enter LK_log s)).
  2: { unfold lh_put, lh_get, upd_log, modify, deref, bind. rewrite !k_log_enter, Nat2Z.id, Hb. cbn [ret].
       unfold ret. rewrite !k_log_enter, list_insert_id by exact Hb. f_equal.
       rewrite <- (set_k_log_id (enter LK_log s)) at 2. rewrite k_log_enter. by destruct (k_log s) as [? ? ? ? ? []]. }
  unfold when. unfold ret at 1, bind at 1. leave. by kproj.
Qed.

(** A block that is new to the transaction is pinned. *)
Lemma log_write_new s U n e :
  calm s -> rep s U -> log_ok (k_log s) -> U !! n = Some e -> n ∉ logged (k_log s) -> 0 <= n < 2 ^ 31 ->
  lh_n (log_lh (k_log s)) < LOGBLOCKS -> 1 <= log_outstanding (k_log s) -> 0 <= u_refs e -> u_refs e + 1 < 2 ^ 32 ->
  exists b', log_write (u_idx e) s = Ret tt (set_k_log (log_add n (k_log s)) (with_buf (u_idx e) b' s)) /\
    rep (with_buf (u_idx e) b' s) (<[n := mk_uent (u_idx e) (u_refs e + 1) (u_locked e) (u_data e)]> U).
Proof.
  intros Hc HR Hl Hn Hin Hnr Hmax Hout Hr0 Hr1.
  pose proof (calm_cpu_ok s Hc) as Hcpu. pose proof (calm_lock_free s LK_log Hc) as Hlk.
  pose proof (lo_n _ Hl) as Hn0. pose proof (lo_len _ Hl) as Hlen.
  unfold log_write.
  rewrite (log_write_start s U n e (u_idx e) (fun l bn j => lh_put j (i32 bn) ;;
     when (j =? lh_n (log_lh l)) (bpin (u_idx e) ;; lh_set_n (lh_n (log_lh l) + 1)) ;; release LK_log)
     (lh_n (log_lh (k_log s)))); auto.
  2: { rewrite <- (k_log_enter LK_log s).
       apply (log_find_miss log_fuel _ n 0); rewrite ?k_log_enter; auto; [lia|]. by apply log_fuel_enough. }
  cbn beta. rewrite Z.eqb_refl. rewrite (swrap_small 32) by (simpl; lia). cbn [when].
  destruct (lookup_lt_is_Some_2 (lh_block (log_lh (k_log s))) (Z.to_nat (lh_n (log_lh (k_log s))))) as [y Hy]; [lia|].
  set (l1 := set_log_lh (set_lh_block (<[Z.to_nat (lh_n (log_lh (k_log s))) := n]> (lh_block (log_lh (k_log s))))
    (log_lh (k_log s))) (k_log s)).
  set (s1 := set_k_log l1 (enter LK_log s)).
  rewrite (bind_Ret _ _ _ tt s1).
  2: { unfold lh_put, lh_get, upd_log, modify, deref, bind. rewrite k_log_enter, Hy. unfold ret.
       by rewrite !k_log_enter. }
  destruct (bpin_ok s1 U n e) as (b' & E & HR'); auto.
  { by apply (enter_cpu_ok LK_log s). }
  { by apply (enter_free LK_log LK_bcache s). }
  { apply (rep_ext s); simpl; rewrite ?k_bcache_enter, ?k_disk_enter; [done..| |done].
    apply (cur_pid_enter LK_log s). }
  exists b'. rewrite (bind_Ret _ _ _ tt (set_k_log (log_add n (k_log s)) (with_buf (u_idx e) b' s1))).
  2: { run E. unfold lh_set_n, upd_log, modify. f_equal. }
  assert (Ew : with_buf (u_idx e) b' s1 = set_k_log l1 (with_buf (u_idx e) b' (enter LK_log s))).
  { unfold with_buf, s1. done. }
  split.
  - rewrite Ew. leave. unfold with_buf. kproj. done.
  - apply (rep_ext (with_buf (u_idx e) b' s1)); [..|exact HR'].
    + unfold s1, with_buf. simpl. by rewrite k_bcache_enter.
    + unfold s1, with_buf. simpl. by rewrite k_disk_enter.
    + symmetry. apply (cur_pid_enter LK_log s).
Qed.

(** * Inside a transaction *)

(** Block [n] in the cache, for the buffers [H] held and the blocks [L] logged. *)
Definition cached (U : gmap Z uent) (H : gmap Z nat) (L : list Z) (C : Z -> list Z) (n : Z) : Prop :=
  match H !! n with
  | Some i => U !! n = Some (mk_uent i (if decide (n ∈ L) then 2 else 1) true (C n))
  | None => if decide (n ∈ L) then pinned U n (C n) else U !! n = None
  end.

Record tx (s : kstate) (H : gmap Z nat) (C : Z -> list Z) : Prop := {
  tx_calm : calm s;
  tx_log : log_ok (k_log s);
  tx_nodup : NoDup (logged (k_log s));
  tx_out : 1 <= log_outstanding (k_log s);
  tx_use : exists U, rep s U /\ forall n, cached U H (logged (k_log s)) C n;
  tx_clean : forall n, n ∉ logged (k_log s) -> H !! n = None -> C n = dk_block (k_disk s) n;
  tx_empty : hdr_n (dk_block (k_disk s) (log_start (k_log s))) = 0
}.

(** A step of a transaction: [m] returns [r]; the cache and the log change, the
    disk and everything else do not; afterwards the transaction holds [H], sees
    [C] and has logged [L]. *)
Definition upd_tx (s : kstate) (bc : bcache) (l : log) : kstate := set_k_log l (set_k_bcache bc s).
Definition txs {A} (s : kstate) (m : K A) (r : A) (H : gmap Z nat) (C : Z -> list Z) (L : list Z) : Prop :=
  exists bc l, m s = Ret r (upd_tx s bc l) /\ tx (upd_tx s bc l) H C /\ logged l = L /\
    log_start l = log_start (k_log s) /\ log_outstanding l = log_outstanding (k_log s) /\
    log_committing l = log_committing (k_log s).

Lemma cached_size U H L C :
  NoDup L -> (forall n, cached U H L C n) -> (size U <= size H + length L)%nat.
Proof.
  intros Hnd Hu. rewrite <- (size_dom U), <- (size_dom H), <- (size_list_to_set (C := gset Z) L Hnd).
  assert (Hsub : dom U ⊆ dom H ∪ list_to_set L).
  { intros n Hn. apply elem_of_dom in Hn as [e He]. specialize (Hu n). unfold cached in Hu.
    rewrite elem_of_union, elem_of_dom, elem_of_list_to_set. destruct (H !! n) eqn:E; [left; by eexists|].
    right. case_decide; [done|congruence]. }
  apply subseteq_size in Hsub. rewrite size_union_alt in Hsub.
  assert (Hd : (list_to_set L ∖ dom H : gset Z) ⊆ list_to_set L) by set_solver.
  apply subseteq_size in Hd. lia.
Qed.

Lemma tx_upd_io s bc l d H C : d = k_disk s ->
  tx (set_k_log l (upd_io s bc d)) H C -> tx (upd_tx s bc l) H C.
Proof. intros ->. by destruct s. Qed.

Lemma io_upd_tx s bc : upd_io s bc (k_disk s) = upd_tx s bc (k_log s).
Proof. by destruct s. Qed.

(** Reading block [n] takes its buffer. *)
Lemma tx_bread s H C n :
  tx s H C -> H !! n = None -> (size H + length (logged (k_log s)) < NBUF)%nat -> 0 <= n < 2 ^ 31 ->
  exists i, txs s (bread ROOTDEV n) i (<[n := i]> H) C (logged (k_log s)).
Proof.
  intros T Hn Hsz Hrange. destruct (tx_use _ _ _ T) as (U & HR & Hu). pose proof (tx_calm _ _ _ T) as Hc.
  pose proof (cached_size U H _ C (tx_nodup _ _ _ T) Hu) as HszU.
  assert (Hu' : forall i e, u_idx e = i -> e = mk_uent i (if decide (n ∈ logged (k_log s)) then 2 else 1) true (C n) ->
    forall m, cached (<[n := e]> U) (<[n := i]> H) (logged (k_log s)) C m).
  { intros i e Ei -> m. specialize (Hu m). unfold cached in *. destruct (decide (m = n)) as [->|Hm].
    - by simplify_map_eq.
    - rewrite lookup_insert_ne by done. destruct (H !! m) eqn:E; [by simplify_map_eq|].
      unfold pinned in *. by rewrite lookup_insert_ne by done. }
  assert (Hend : forall i e, io s (bread ROOTDEV n) i (k_disk s) (<[n := e]> U) -> u_idx e = i ->
    e = mk_uent i (if decide (n ∈ logged (k_log s)) then 2 else 1) true (C n) ->
    txs s (bread ROOTDEV n) i (<[n := i]> H) C (logged (k_log s))).
  { intros i e (bc & E & HR') Ei Ee. rewrite io_upd_tx in E, HR'. exists bc, (k_log s). split; [done|]. split; [|done].
    destruct T. constructor; simpl; auto.
    - by apply (calm_ext s).
    - eexists. split; [exact HR'|]. by apply Hu'.
    - intros m Hm HH. apply tx_clean0; [done|]. by apply lookup_insert_None in HH as [? _]. }
  pose proof (Hu n) as Hun. unfold cached in Hun. rewrite Hn in Hun.
  destruct (decide (n ∈ logged (k_log s))) as [Hin|Hin].
  - destruct Hun as [i Hi]. exists i. eapply (Hend i); [apply (io_bread_used s U n _ Hc HR Hi); [done|simpl; lia]|done|done].
  - destruct (io_bread s U n Hc HR Hun) as [i Hi]; [lia|done|]. exists i. eapply (Hend i); [exact Hi|done|].
    f_equal. symmetry. by apply T.
Qed.

Lemma tx_held s H C n i :
  tx s H C -> H !! n = Some i ->
  exists U, rep s U /\ (forall m, cached U H (logged (k_log s)) C m) /\
    U !! n = Some (mk_uent i (if decide (n ∈ logged (k_log s)) then 2 else 1) true (C n)).
Proof.
  intros T Hn. destruct (tx_use _ _ _ T) as (U & HR & Hu). exists U. split_and!; auto.
  specialize (Hu n). unfold cached in Hu. by rewrite Hn in Hu.
Qed.

(** The data of a held buffer. *)
Lemma tx_get s H C n i :
  tx s H C -> H !! n = Some i -> exists b, get_buf i s = Ret b s /\ b_data b = C n /\ b_blockno b = n.
Proof.
  intros T Hn. destruct (tx_held s H C n i T Hn) as (U & HR & _ & Hu).
  apply (get_data s U n _ i HR Hu eq_refl).
Qed.

Lemma tx_length s H C n i : tx s H C -> H !! n = Some i -> length (C n) = Z.to_nat BSIZE.
Proof.
  intros T Hn. destruct (tx_held s H C n i T Hn) as (U & HR & _ & Hu).
  pose proof (blk_length s U n HR) as E. unfold blk in E. by rewrite Hu in E.
Qed.

(** The contents [C] with block [n] changed to [v]. *)
Definition cupd (C : Z -> list Z) (n : Z) (v : list Z) : Z -> list Z := fun m => if decide (m = n) then v else C m.

Lemma cupd_eq C n v : cupd C n v n = v.
Proof. unfold cupd. by rewrite decide_True. Qed.
Lemma cupd_ne C n v m : m <> n -> cupd C n v m = C m.
Proof. intros. unfold cupd. by rewrite decide_False. Qed.

Lemma cached_insert U H L C n i e C' :
  (forall m, cached U H L C m) -> H !! n = Some i -> (forall m, m <> n -> C' m = C m) ->
  e = mk_uent i (if decide (n ∈ L) then 2 else 1) true (C' n) ->
  forall m, cached (<[n := e]> U) H L C' m.
Proof.
  intros Hu Hn HC -> m. specialize (Hu m). unfold cached in *. destruct (decide (m = n)) as [->|Hm].
  - rewrite Hn. by simplify_map_eq.
  - rewrite (HC m Hm). destruct (H !! m); [by simplify_map_eq|]. unfold pinned in *. by rewrite lookup_insert_ne.
Qed.

(** Changing the data of a held buffer. *)
Lemma tx_put s H C n i f v :
  tx s H C -> H !! n = Some i -> length v = Z.to_nat BSIZE ->
  (forall b, b_data b = C n -> f b = set_b_data v b) ->
  txs s (upd_buf i f) tt H (cupd C n v) (logged (k_log s)).
Proof.
  intros T Hn Hv Hf. destruct (tx_held s H C n i T Hn) as (U & HR & Hu & Hun).
  destruct (io_data s U n _ i f v HR Hun eq_refl Hv Hf) as (bc & E & HR').
  rewrite io_upd_tx in E, HR'. exists bc, (k_log s). split; [done|]. split; [|done].
  destruct T. constructor; simpl; auto.
  - by apply (calm_ext s).
  - eexists. split; [exact HR'|]. apply (cached_insert U H _ C n i); auto; [intros; by apply cupd_ne|].
    by rewrite cupd_eq.
  - intros m Hm HH. rewrite cupd_ne by congruence. by apply tx_clean0.
Qed.

(** Releasing a held buffer; if it was changed it has to be logged. *)
Lemma tx_brelse s H C n i :
  tx s H C -> H !! n = Some i -> (n ∈ logged (k_log s) \/ C n = dk_block (k_disk s) n) ->
  txs s (brelse i) tt (delete n H) C (logged (k_log s)).
Proof.
  intros T Hn Hd. destruct (tx_held s H C n i T Hn) as (U & HR & Hu & Hun). pose proof (tx_calm _ _ _ T) as Hc.
  destruct (io_brelse s U n _ i Hc HR Hun eq_refl eq_refl) as (bc & E & HR').
  { simpl. intros E. case_decide; [done|]. by destruct Hd. }
  rewrite io_upd_tx in E, HR'. exists bc, (k_log s). split; [done|]. split; [|done].
  destruct T. constructor; simpl; auto.
  - by apply (calm_ext s).
  - eexists. split; [exact HR'|]. intros m. specialize (Hu m). unfold cached in *. cbn [u_refs u_data].
    destruct (decide (m = n)) as [->|Hm].
    + simplify_map_eq. destruct (decide (n ∈ logged (k_log s))); cbn [Z.eqb Pos.eqb]; [|by simplify_map_eq].
      exists i. by simplify_map_eq.
    + simplify_map_eq. assert (El : forall V, (if decide (n ∈ logged (k_log s)) then 2 else 1) =? 1 = V ->
        (if V then delete n U else <[n := mk_uent i ((if decide (n ∈ logged (k_log s)) then 2 else 1) - 1) false (C n)]> U) !! m = U !! m).
      { intros [] _; by simplify_map_eq. }
      destruct (H !! m); [by rewrite El|]. unfold pinned in *. by rewrite El.
  - intros m Hm HH. destruct (decide (m = n)) as [->|Hne]; [by destruct Hd|].
    apply tx_clean0; [done|]. by simplify_map_eq.
Qed.

(** Logging a held buffer. *)
Definition log_with (L : list Z) (n : Z) : list Z := if decide (n ∈ L) then L else L ++ [n].

Lemma tx_log_write s H C n i :
  tx s H C -> H !! n = Some i -> ~ in_log (log_start (k_log s)) n -> 0 <= n < 2 ^ 31 ->
  Z.of_nat (length (logged (k_log s))) < LOGBLOCKS ->
  txs s (log_write i) tt H C (log_with (logged (k_log s)) n).
Proof.
  intros T Hn Hout Hnr Hmax. destruct (tx_held s H C n i T Hn) as (U & HR & Hu & Hun).
  pose proof (tx_calm _ _ _ T) as Hc. pose proof (tx_log _ _ _ T) as Hl. rewrite logged_length in Hmax by done.
  unfold log_with. destruct (decide (n ∈ logged (k_log s))) as [Hin|Hin].
  - exists (k_bcache s), (k_log s). replace (upd_tx s (k_bcache s) (k_log s)) with s by by destruct s.
    split; [exact (log_write_hit s U n _ Hc HR Hl Hun Hin Hmax (tx_out _ _ _ T))|done].
  - destruct (log_write_new s U n _ Hc HR Hl Hun Hin Hnr Hmax (tx_out _ _ _ T)) as (b' & E & HR');
      [simpl; lia|simpl; lia|]. cbn [u_idx u_refs u_locked u_data] in *.
    exists (k_bcache (with_buf i b' s)), (log_add n (k_log s)).
    replace (upd_tx s (k_bcache (with_buf i b' s)) (log_add n (k_log s))) with
      (set_k_log (log_add n (k_log s)) (with_buf i b' s)) by by destruct s.
    split; [done|]. split; [|split; [by apply logged_add|done]].
    pose proof (logged_add n _ Hl Hmax) as El. destruct T. constructor; simpl; rewrite ?El; auto.
    + by apply (calm_ext s).
    + by apply log_add_ok.
    + apply NoDup_app. split_and!; [done| |apply NoDup_singleton]. intros x Hx Hx'.
      apply list_elem_of_singleton in Hx' as ->. done.
    + eexists. split; [exact HR'|]. intros m. specialize (Hu m). unfold cached in *.
      destruct (decide (m = n)) as [->|Hm].
      * rewrite Hn, decide_True by (apply elem_of_app; right; by apply list_elem_of_singleton). by simplify_map_eq.
      * assert (Ed : forall (A : Type) (a b : A), (if decide (m ∈ logged (k_log s) ++ [n]) then a else b) = if decide (m ∈ logged (k_log s)) then a else b).
        { intros A a b. apply decide_ext. rewrite elem_of_app, list_elem_of_singleton. tauto. }
        rewrite !Ed. destruct (H !! m); [by simplify_map_eq|]. unfold pinned in *. by rewrite lookup_insert_ne.
    + intros m Hm HH. apply tx_clean0; [|done]. intros Hx. apply Hm. apply elem_of_app. by left.
Qed.

(** * Composition *)

(** Nothing but the cache, the transaction and the console output has changed
    from [s] to [s']. *)
Definition txf (s s' : kstate) : Prop :=
  exists bc l u, s' = set_k_uart u (upd_tx s bc l) /\ log_start l = log_start (k_log s) /\
    log_outstanding l = log_outstanding (k_log s) /\ log_committing l = log_committing (k_log s).

#[global] Instance txf_preorder : PreOrder txf.
Proof.
  split.
  - intros s. exists (k_bcache s), (k_log s), (k_uart s). by destruct s.
  - intros s1 s2 s3 (bc & l & u & -> & H1 & H2 & H3) (bc' & l' & u' & -> & H1' & H2' & H3'). simpl in *.
    exists bc', l', u'. split; [done|]. by rewrite H1', H2', H3'.
Qed.

Lemma txf_upd_tx s bc l :
  log_start l = log_start (k_log s) -> log_outstanding l = log_outstanding (k_log s) ->
  log_committing l = log_committing (k_log s) -> txf s (upd_tx s bc l).
Proof. intros. exists bc, l, (k_uart s). by destruct s. Qed.

Lemma txf_start s s' : txf s s' -> log_start (k_log s') = log_start (k_log s).
Proof. by intros (? & ? & ? & -> & H & _). Qed.
Lemma txf_disk s s' : txf s s' -> k_disk s' = k_disk s.
Proof. by intros (? & ? & ? & -> & _). Qed.
Lemma txf_sb s s' : txf s s' -> k_sb s' = k_sb s.
Proof. by intros (? & ? & ? & -> & _). Qed.
Lemma txf_itable s s' : txf s s' -> k_itable s' = k_itable s.
Proof. by intros (? & ? & ? & -> & _). Qed.

Lemma txs_bind {A B} s (m : K A) (k : A -> K B) r H C L Q :
  txs s m r H C L ->
  (forall s', txf s s' -> tx s' H C -> logged (k_log s') = L -> wp (k r) s' Q) ->
  wp (bind m k) s Q.
Proof.
  intros (bc & l & E & T & HL & H1 & H2 & H3) Hk. eapply wp_run; [exact E|]. apply Hk; auto.
  by apply txf_upd_tx.
Qed.

Lemma txs_last {A} s (m : K A) r H C L (Q : A -> kstate -> Prop) :
  txs s m r H C L ->
  (forall s', txf s s' -> tx s' H C -> logged (k_log s') = L -> Q r s') ->
  wp m s Q.
Proof.
  intros (bc & l & E & T & HL & H1 & H2 & H3) HQ. exists r, (upd_tx s bc l). split; [done|].
  apply HQ; auto. by apply txf_upd_tx.
Qed.

(** * The end of the last operation *)

Definition committing_log (l : log) : log := set_log_committing true (set_log_outstanding 0 l).
Definition ended_log (l : log) : log :=
  set_log_ncommit (i32 (log_ncommit l + 1)) (set_log_committing false (no_log (committing_log l))).

Lemma pinned_list U H L C : (forall n, cached U H L C n) -> H = ∅ -> Forall2 (pinned U) L (C <$> L).
Proof.
  intros Hu ->. apply Forall2_fmap_r. apply Forall_Forall2_diag, Forall_forall. intros n Hn. specialize (Hu n).
  unfold cached in Hu. rewrite lookup_empty, decide_True in Hu; done.
Qed.

(** [end_op] calls [commit] with everything the transaction changed pinned. *)
Lemma tx_at_commit s C :
  tx s ∅ C -> (length (logged (k_log s)) < NBUF)%nat ->
  exists U, at_commit (set_k_log (committing_log (k_log s)) s) U (C <$> logged (k_log s)) /\
    (forall n, blk s U n = C n).
Proof.
  intros T Hlt. destruct (tx_use _ _ _ T) as (U & HR & Hu). exists U.
  pose proof (cached_size U ∅ _ C (tx_nodup _ _ _ T) Hu) as Hsz. rewrite map_size_empty in Hsz.
  split.
  - destruct T. constructor; auto.
    + by apply (calm_ext s).
    + destruct tx_log0. by constructor.
    + by apply (pinned_list U ∅).
    + intros n [e He]. specialize (Hu n). unfold cached in Hu. rewrite lookup_empty in Hu.
      destruct (decide (n ∈ logged (k_log s))); [done|]. congruence.
    + lia.
  - intros n. specialize (Hu n). unfold cached, blk in *. rewrite lookup_empty in Hu. case_decide as Hin.
    + destruct Hu as [i ->]. done.
    + rewrite Hu. symmetry. by apply T.
Qed.

(** The last [end_op] reaches [commit]. *)
Lemma end_op_start s :
  calm s -> log_outstanding (k_log s) = 1 -> log_committing (k_log s) = false ->
  end_op s =
    (commit ;; acquire LK_log ;; upd_log (set_log_committing false) ;;
     upd_log (fun l => set_log_ncommit (i32 (log_ncommit l + 1)) l) ;; wakeup CH_log ;; release LK_log)
    (set_k_log (committing_log (k_log s)) s).
Proof.
  intros Hc Hout Hcm. pose proof (calm_cpu_ok s Hc) as Hcpu. pose proof (calm_lock_free s LK_log Hc) as Hl.
  unfold end_op. run (acquire_free LK_log s Hcpu Hl).
  unfold upd_log at 1, modify at 1, bind at 1. unfold gets, bind at 1. rewrite !k_log_enter.
  cbn [k_log set_k_log log_committing set_log_outstanding log_outstanding]. rewrite Hcm, Hout.
  change (1 - 1) with 0. cbn [Z.eqb]. unfold upd_log at 1. unfold bind at 1 2, modify at 1, ret at 1. cbn [k_log set_k_log].
  rewrite (bind_Ret _ _ _ tt (set_k_log (committing_log (k_log s)) s)); [done|].
  rewrite (release_enter LK_log s); [|done|done|by kproj|reflexivity|reflexivity]. f_equal.
  unfold committing_log, restore, set_k_log, enter. destruct (k_cpus s !! k_hart s); by destruct s.
Qed.

Lemma end_op_ok s C :
  tx s ∅ C -> log_outstanding (k_log s) = 1 -> log_committing (k_log s) = false ->
  (length (logged (k_log s)) < NBUF)%nat ->
  let st := log_start (k_log s) in
  exists bc ws, let s' := set_k_log (ended_log (k_log s)) (upd_io s bc (apply_writes ws (k_disk s))) in
    end_op s = Ret tt s' /\ rep s' ∅ /\
    (ws = [] /\ logged (k_log s) = [] \/
     ws = commit_writes st (logged (k_log s)) (C <$> logged (k_log s)) (dk_block (k_disk s) st)).
Proof.
  intros T Hout Hcm Hlt st. pose proof (tx_calm _ _ _ T) as Hc.
  pose proof (calm_cpu_ok s Hc) as Hcpu. pose proof (calm_lock_free s LK_log Hc) as Hl.
  destruct (tx_at_commit s C T Hlt) as (U & HA & _).
  set (s1 := set_k_log (committing_log (k_log s)) s) in *.
  destruct (commit_ok s1 U _ HA) as (bc & ws & Ec & HR & Hws).
  exists bc, ws. set (s2 := set_k_log (no_log (k_log s1)) (upd_io s1 bc (apply_writes ws (k_disk s1)))) in *.
  assert (Hc2 : calm s2) by by apply (calm_ext s).
  pose proof (calm_cpu_ok s2 Hc2) as Hcpu2. pose proof (calm_lock_free s2 LK_log Hc2) as Hl2.
  split_and!; [|by destruct s|exact Hws].
  rewrite end_op_start by done. fold s1. run Ec. run (acquire_free LK_log s2 Hcpu2 Hl2).
  unfold upd_log, modify at 1, bind at 1. unfold modify at 1, bind at 1. cbn [k_log set_k_log]. rewrite !k_log_enter.
  change (set_k_log ?a (set_k_log ?b ?c)) with (set_k_log a c).
  rewrite (bind_Ret _ _ _ _ _ (calm_wakeup_log LK_log s2 CH_log Hc2 eq_refl ltac:(done) _)).
  rewrite (release_enter LK_log s2); [|done|done|by kproj|reflexivity|reflexivity]. f_equal.
  unfold restore, set_k_log, enter. destruct (k_cpus s2 !! k_hart s2); by destruct s.
Qed.

(** * Crash atomicity *)

(** Recovery from a disk [d] on any machine that has started again. *)
Lemma recover_home s0 st d :
  rebooted s0 st -> k_disk s0 = d -> log_wf st d ->
  exists s1, recover_from_log s0 = Ret tt s1 /\ rebooted s1 st /\
    (forall n, ~ in_log st n -> dk_block (k_disk s1) n = home st d n).
Proof.
  intros Hb <- Hw. destruct (recover_ok s0 st Hb Hw) as ([] & s1 & E & Hb1 & Hd & _).
  exists s1. split_and!; auto. intros n Hn. rewrite Hd. by apply recovered_home.
Qed.

Lemma home_of_empty st d n : hdr_n (dk_block d st) = 0 -> home st d n = dk_block d n.
Proof. intros H. unfold home. by rewrite redo_empty. Qed.

Lemma commit_writes_hdr st d l vs hd :
  length hd = Z.to_nat BSIZE -> Z.of_nat (length l) <= LOGBLOCKS ->
  hdr_n (dk_block (apply_writes (commit_writes st l vs hd) d) st) = 0.
Proof.
  intros Hhd Hl. unfold commit_writes. rewrite !app_assoc, dk_block_apply, lastw_app, lastw_singleton, decide_True by done.
  apply hdr_n_enc; [by apply hdr_enc_length|by cbn].
Qed.

Lemma tx_crash s C :
  tx s ∅ C -> (length (logged (k_log s)) < NBUF)%nat ->
  let st := log_start (k_log s) in
  let ws := commit_writes st (logged (k_log s)) (C <$> logged (k_log s)) (dk_block (k_disk s) st) in
  forall k, let d := apply_writes (take k ws) (k_disk s) in
    log_wf st d /\
    ((k <= length (logged (k_log s)))%nat /\ (forall n, ~ in_log st n -> home st d n = dk_block (k_disk s) n) \/
     (length (logged (k_log s)) < k)%nat /\ (forall n, ~ in_log st n -> home st d n = C n)).
Proof.
  intros T Hlt st ws k d. destruct (tx_at_commit s C T Hlt) as (U & HA & HC).
  pose proof (at_len _ _ _ HA) as Hlen. pose proof (at_max _ _ _ HA) as Hmax.
  pose proof (at_hd _ _ _ HA) as Hhd. pose proof (lo_out _ (ac_log _ _ _ HA)) as Hout.
  split; [apply (crash_wf _ U _ k HA)|].
  destruct (decide (k <= length (logged (k_log s)))%nat) as [Hk|Hk]; [left|right]; (split; [lia|]); intros n Hn.
  - apply (home_before st (k_disk s) _ _ Hlen Hmax (tx_empty _ _ _ T) Hhd k n Hk Hn).
  - rewrite <- HC. assert (Hk' : (length (logged (k_log s)) < k)%nat) by lia.
    pose proof (home_after st (k_disk s) _ _ Hlen Hmax Hout Hhd k n Hk' Hn) as E.
    etransitivity; [exact E|]. apply (at_after _ U _ n HA).
Qed.

Lemma end_op_crash s C :
  tx s ∅ C -> log_outstanding (k_log s) = 1 -> log_committing (k_log s) = false ->
  (length (logged (k_log s)) < NBUF)%nat ->
  let st := log_start (k_log s) in
  exists s' ws, end_op s = Ret tt s' /\ rebooted s' st /\ k_disk s' = apply_writes ws (k_disk s) /\
    hdr_n (dk_block (k_disk s') st) = 0 /\
    (forall n, ~ in_log st n -> dk_block (k_disk s') n = C n) /\
    forall k s0, rebooted s0 st -> k_disk s0 = apply_writes (take k ws) (k_disk s) ->
      exists s1, recover_from_log s0 = Ret tt s1 /\ rebooted s1 st /\
        ((forall n, ~ in_log st n -> dk_block (k_disk s1) n = dk_block (k_disk s) n) \/
         (forall n, ~ in_log st n -> dk_block (k_disk s1) n = C n)).
Proof.
  intros T Hout Hcm Hlt st. destruct (end_op_ok s C T Hout Hcm Hlt) as (bc & ws & E & HR & Hws).
  set (s' := set_k_log _ _) in *. pose proof (tx_log _ _ _ T) as Hl.
  assert (Hclean : logged (k_log s) = [] -> forall n, dk_block (k_disk s) n = C n).
  { intros HL n. symmetry. apply T; [|done]. rewrite HL. apply not_elem_of_nil. }
  exists s', ws. split; [done|]. split.
  { constructor; [by apply (calm_ext s), T|done|apply Hl|done|apply Hl|apply Hl]. }
  split; [done|]. change (k_disk s') with (apply_writes ws (k_disk s)).
  destruct Hws as [[-> HL]|Hws].
  - cbn [apply_writes fold_left]. split; [apply T|]. split; [intros n _; by apply Hclean|].
    intros k s0 Hb Hd0. rewrite take_nil in Hd0. cbn [apply_writes fold_left] in Hd0.
    destruct (recover_home s0 st _ Hb Hd0 (log_wf_empty _ _ (tx_empty _ _ _ T))) as (s1 & E1 & Hb1 & H1).
    exists s1. split_and!; auto. left. intros n Hn. rewrite H1 by done. apply home_of_empty. apply T.
  - pose proof (tx_crash s C T Hlt) as Hk. fold st in Hk. cbn zeta in Hk. fold st in Hws. rewrite <- Hws in Hk.
    assert (Hh : hdr_n (dk_block (apply_writes ws (k_disk s)) st) = 0).
    { rewrite Hws. apply commit_writes_hdr; [destruct (tx_use _ _ _ T) as (U & [HU _] & _); apply HU|]. rewrite logged_length by done. apply Hl. }
    split; [done|]. split.
    + intros n Hn. rewrite <- (home_of_empty st) by done. destruct (Hk (length ws)) as [_ [[Hle _]|[_ H]]].
      * exfalso. rewrite Hws in Hle. unfold commit_writes in Hle. rewrite !length_app in Hle. simpl in Hle.
        unfold log_writes in Hle. rewrite length_imap, length_fmap in Hle. lia.
      * rewrite take_ge in H by done. by apply H.
    + intros k s0 Hb Hd0. destruct (Hk k) as [Hw Hcase].
      destruct (recover_home s0 st _ Hb Hd0 Hw) as (s1 & E1 & Hb1 & H1).
      exists s1. split_and!; auto. destruct Hcase as [[_ H]|[_ H]]; [left|right]; intros n Hn; rewrite H1 by done; by apply H.
Qed.

End Txn.
