(* ===== verification/Crash.v ===== *)
(** The theorems about the log, and a sample machine on which they are applied:
    process 0 runs on hart 0, the disk is ideal and all zeros, the log starts
    at block 2. *)

From S2P Require Import Prelude Types Memory Spinlock Sched Sleeplock Bio Uart Printf Block Log LogSpec Txn.
Local Open Scope c_scope.

Section Log_block.
Context {W : Wakeups} {D : DiskDriver} {DC : DiskContract}.

Lemma log_with_in L n : n ∈ log_with L n.
Proof. unfold log_with. case_decide; [done|]. apply elem_of_app. right. by apply list_elem_of_singleton. Qed.

(** Changing a block the way file-system code does. *)
Lemma log_block {A} s C n v (k : K A) Q :
  tx s ∅ C -> ~ in_log (log_start (k_log s)) n -> 0 <= n < 2 ^ 31 -> length v = Z.to_nat BSIZE ->
  (length (logged (k_log s)) < NBUF)%nat ->
  (forall s', txf s s' -> tx s' ∅ (cupd C n v) -> logged (k_log s') = log_with (logged (k_log s)) n -> wp k s' Q) ->
  wp (b <- bread ROOTDEV n ;; upd_buf b (set_b_data v) ;; log_write b ;; brelse b ;; k) s Q.
Proof.
  intros T Hout Hn Hv Hlt Hk.
  assert (Hmax : Z.of_nat (length (logged (k_log s))) < LOGBLOCKS) by (unfold NBUF, LOGBLOCKS, MAXOPBLOCKS in *; lia).
  destruct (tx_bread s ∅ C n T) as [i H1]; [done|rewrite map_size_empty; lia|lia|].
  eapply txs_bind; [exact H1|]. intros s1 F1 T1 L1.
  eapply txs_bind; [apply (tx_put s1 _ C n i (set_b_data v) v T1); [by simplify_map_eq|done|done]|].
  intros s2 F2 T2 L2. rewrite L1 in L2. assert (F : txf s s2) by (by etransitivity).
  pose proof (txf_start _ _ F) as Es.
  eapply txs_bind; [apply (tx_log_write _ _ _ n i T2); [by simplify_map_eq|by rewrite Es|done|by rewrite L2]|].
  intros s3 F3 T3 L3. rewrite L2 in L3.
  eapply txs_bind; [apply (tx_brelse _ _ _ n i T3); [by simplify_map_eq|left; rewrite L3; by apply log_with_in]|].
  intros s4 F4 T4 L4. rewrite L3 in L4. apply Hk; [|by rewrite delete_insert_id in T4|done].
  by etransitivity; [exact F|]; etransitivity; [exact F3|].
Qed.

End Log_block.

(** * Theorems *)

(** C1: A transaction is atomic with respect to crashes.  [end_op] of the last
    operation of a transaction returns with every block the transaction sees
    ([C]) at home on the disk; and if the machine stops between any two of the
    disk writes it makes on the way, then [recover_from_log] on the restarted
    machine returns, with every block outside the log as it was before the
    transaction, or every one as the transaction left it. *)
Theorem end_op_crash_safe {W : Wakeups} {D : DiskDriver} {DC : DiskContract} s C :
  tx s ∅ C -> log_outstanding (k_log s) = 1 -> log_committing (k_log s) = false ->
  (length (logged (k_log s)) < NBUF)%nat ->
  let st := log_start (k_log s) in
  exists s' ws, end_op s = Ret tt s' /\ k_disk s' = apply_writes ws (k_disk s) /\
    (forall n, ~ in_log st n -> dk_block (k_disk s') n = C n) /\
    forall k s0, rebooted s0 st -> k_disk s0 = apply_writes (take k ws) (k_disk s) ->
      exists s1, recover_from_log s0 = Ret tt s1 /\
        ((forall n, ~ in_log st n -> dk_block (k_disk s1) n = dk_block (k_disk s) n) \/
         (forall n, ~ in_log st n -> dk_block (k_disk s1) n = C n)).
Proof.
  intros T Hout Hcm Hlt st. destruct (end_op_crash s C T Hout Hcm Hlt) as (s' & ws & E & _ & Hd & _ & HC & Hk).
  exists s', ws. split_and!; auto. intros k s0 Hb H0. destruct (Hk k s0 Hb H0) as (s1 & E1 & _ & H1). by exists s1.
Qed.

(** C2: Recovery is idempotent under crashes: it returns, and if the machine
    stops between any two of its disk writes, recovering again ends with the
    same contents of every block outside the log. *)
Theorem recovery_crash_safe {W : Wakeups} {D : DiskDriver} {DC : DiskContract} s st :
  rebooted s st -> log_wf st (k_disk s) ->
  exists s1 ws, recover_from_log s = Ret tt s1 /\ k_disk s1 = apply_writes ws (k_disk s) /\
    forall k s0, rebooted s0 st -> k_disk s0 = apply_writes (take k ws) (k_disk s) ->
      exists s2, recover_from_log s0 = Ret tt s2 /\
        forall n, ~ in_log st n -> dk_block (k_disk s2) n = dk_block (k_disk s1) n.
Proof.
  intros Hb Hw. destruct (recover_ok s st Hb Hw) as ([] & s1 & E & Hb1 & Hd & _).
  exists s1, (recovery_writes st (k_disk s)). split_and!; auto.
  assert (Hlen : length (dk_block (k_disk s) st) = Z.to_nat BSIZE) by apply (rb_rep _ _ Hb).
  intros k s0 Hb0 Hd0. destruct (recover_home s0 st _ Hb0 Hd0) as (s2 & E2 & _ & H2).
  { by apply recovery_prefix_wf. }
  exists s2. split; [done|]. intros n Hn. rewrite H2, Hd, recovered_home by done. by apply home_crash.
Qed.

(** Inside a transaction a block reads back as it was last logged, although
    nothing has been written to the disk. *)
Theorem logged_block_reads_back {W : Wakeups} {D : DiskDriver} {DC : DiskContract} s C n v :
  tx s ∅ C -> ~ in_log (log_start (k_log s)) n -> 0 <= n < 2 ^ 31 -> length v = Z.to_nat BSIZE ->
  (length (logged (k_log s)) + 1 < NBUF)%nat ->
  exists s', (b <- bread ROOTDEV n ;; upd_buf b (set_b_data v) ;; log_write b ;; brelse b ;;
              b <- bread ROOTDEV n ;; x <- get_buf b ;; brelse b ;; ret (b_data x)) s = Ret v s' /\
    tx s' ∅ (cupd C n v) /\ k_disk s' = k_disk s /\ logged (k_log s') = log_with (logged (k_log s)) n.
Proof.
  intros T Hout Hn Hv Hlt.
  assert (Hmax : Z.of_nat (length (logged (k_log s))) < LOGBLOCKS) by (unfold NBUF, LOGBLOCKS, MAXOPBLOCKS in *; lia).
  enough (H : wp (b <- bread ROOTDEV n ;; upd_buf b (set_b_data v) ;; log_write b ;; brelse b ;;
              b <- bread ROOTDEV n ;; x <- get_buf b ;; brelse b ;; ret (b_data x)) s
     (fun r s' => r = v /\ tx s' ∅ (cupd C n v) /\ k_disk s' = k_disk s /\ logged (k_log s') = log_with (logged (k_log s)) n)).
  { destruct H as (r & s' & E & -> & H). by exists s'. }
  eapply log_block; eauto; [lia|]. intros s4 F4 T4 L4.
  assert (Hlen : (length (log_with (logged (k_log s)) n) <= length (logged (k_log s)) + 1)%nat).
  { unfold log_with. case_decide; [lia|]. rewrite length_app. simpl. lia. }
  destruct (tx_bread _ ∅ _ n T4) as [j H5]; [done|rewrite L4, map_size_empty; lia|lia|].
  eapply txs_bind; [exact H5|]. intros s5 F5 T5 L5.
  destruct (tx_get _ _ _ n j T5) as (x & Ex & Edx & _); [by simplify_map_eq|].
  eapply wp_run; [exact Ex|].
  eapply txs_bind; [apply (tx_brelse _ _ _ n j T5); [by simplify_map_eq|left; rewrite L5, L4; by apply log_with_in]|].
  intros s6 F6 T6 L6. apply wp_ret.
  rewrite Edx, cupd_eq. split; [done|]. split; [|split; [by rewrite (txf_disk _ _ F6), (txf_disk _ _ F5), (txf_disk _ _ F4)|by rewrite L6, L5, L4]].
  by replace (delete n (<[n := j]> ∅)) with (∅ : gmap Z nat) in T6 by (symmetry; by apply delete_insert_id).
Qed.

(** C39: The limits do not fit together: [log_write] lets a transaction grow to
    [LOGBLOCKS] blocks, but all of them are pinned, [NBUF] is [LOGBLOCKS] too, and
    [commit] needs one more buffer; ending such a transaction panics. *)
Theorem full_log_panics {W : Wakeups} {D : DiskDriver} {DC : DiskContract} s C :
  tx s ∅ C -> log_outstanding (k_log s) = 1 -> log_committing (k_log s) = false ->
  Z.of_nat (length (logged (k_log s))) = LOGBLOCKS ->
  exists s', end_op s = Panic "bget: no buffers" s'.
Proof.
  intros T Hout Hcm Hfull. pose proof (tx_calm _ _ _ T) as Hc. pose proof (tx_log _ _ _ T) as Hl.
  rewrite end_op_start by done. set (s1 := set_k_log _ s).
  destruct (tx_use _ _ _ T) as (U & HR & Hu).
  pose proof (cached_size U ∅ _ C (tx_nodup _ _ _ T) Hu) as Hle. rewrite map_size_empty in Hle.
  pose proof (pinned_size U _ (tx_nodup _ _ _ T)) as Hge.
  assert (HU : size U = NBUF).
  { assert (length (logged (k_log s)) <= size U)%nat; [|unfold NBUF, LOGBLOCKS, MAXOPBLOCKS in *; lia].
    apply Hge. intros n Hn. specialize (Hu n). unfold cached in Hu. rewrite lookup_empty, decide_True in Hu by done.
    destruct Hu as [i ->]. by eexists. }
  assert (Hl1 : log_ok (k_log s1)) by (destruct Hl; by constructor).
  eexists. apply bind_Panic. unfold commit, gets, bind at 1.
  assert (Hpos : 0 < lh_n (log_lh (k_log s1))).
  { simpl. rewrite <- logged_length, Hfull by done. unfold LOGBLOCKS, MAXOPBLOCKS. lia. }
  rewrite (proj2 (Z.ltb_lt _ _)) by done. cbn [when]. apply bind_Panic.
  unfold write_log, log_fuel. cbn [write_log_loop]. unfold gets, bind at 1.
  rewrite (proj2 (Z.ltb_lt _ _)) by done. cbn [negb]. rewrite dev_u32 by done.
  rewrite start_u32 by (done || unfold LOGBLOCKS, MAXOPBLOCKS; lia).
  apply bind_Panic. apply (bread_full s1 U); [by apply (calm_ext s)|done|done|].
  specialize (Hu (log_start (k_log s1) + 1 + 0)). unfold cached in Hu. rewrite lookup_empty, decide_False in Hu; [done|].
  intros Hin. pose proof (lo_out _ Hl) as Ho. rewrite Forall_forall in Ho. destruct (Ho _ Hin) as [Hno _].
  apply Hno. simpl. unfold in_log, LOGBLOCKS, MAXOPBLOCKS. lia.
Qed.

(** * A sample machine *)

Module Machine.

#[export] Instance wakeups : Wakeups := 0%nat.

(** An ideal disk: requests complete at once. *)
#[export] Instance ideal_disk : DiskDriver := fun i w =>
  b <- get_buf i ;;
  if (w : bool) then modify (fun s => set_k_disk (dk_write (k_disk s) (b_blockno b) (b_data b)) s)
  else d <- gets k_disk ;; put_buf i (set_b_data (dk_block d (b_blockno b)) b).

#[export] Instance ideal_disk_ok : DiskContract.
Proof.
  constructor; intros s i b Hc Hi Hb; unfold virtio_disk_rw, ideal_disk; by run (get_buf_ok s i b Hi).
Qed.

(** Process 0 runs on hart 0; one operation has begun. *)
Definition st : kstate :=
  set_k_cpus (<[0%nat := mk_cpu (Some 0%nat) 0 false false]> (k_cpus boot))
    (set_k_procs (<[0%nat := set_p_pid 1 (set_p_state RUNNING zero_proc)]> (k_procs boot))
      (set_k_log (mk_log 2 1 false ROOTDEV 0 (mk_logheader 0 (replicate (Z.to_nat LOGBLOCKS) 0))) boot)).

Lemma st_calm : calm st.
Proof.
  constructor.
  - exists (mk_cpu (Some 0%nat) 0 false false). split_and!; try done.
  - done.
  - exists 0%nat, (set_p_pid 1 (set_p_state RUNNING zero_proc)). done.
  - done.
  - intros ch _ i p Hi _. destruct i as [|i]; [by simplify_eq/=|].
    change (replicate NPROC zero_proc !! S i = Some p) in Hi. apply lookup_replicate in Hi as [-> _]. done.
  - intros i p Hi Hp. unfold cur in Hi. simplify_eq/=. done.
Qed.

(** The same with another disk and superblock. *)
Definition on (d : disk) (sb : superblock) : kstate := set_k_sb sb (set_k_disk d st).

Lemma fresh_tx_on d sb :
  (forall n, length (dk_block d n) = Z.to_nat BSIZE) -> hdr_n (dk_block d 2) = 0 ->
  exists s, tx s ∅ (dk_block d) /\ txf (on d sb) s /\ logged (k_log s) = [].
Proof.
  intros Hd Hh. destruct (binit_ok (on d sb)) as (bc & _ & HR); [done|done|done|].
  exists (set_k_bcache bc (on d sb)). split; [|split; [|done]].
  - constructor; try done.
    + apply (calm_ext st); try done. apply st_calm.
    + constructor; try done; unfold LOGBLOCKS, MAXOPBLOCKS; simpl; lia.
    + exists ∅. split; [exact HR|]. intros n. by unfold cached.
  - by apply (txf_upd_tx (on d sb) bc (k_log st)).
Qed.

Lemma fresh_tx : exists s, tx s ∅ (fun _ => zero_block) /\ txf st s /\ logged (k_log s) = [].
Proof.
  assert (Hz : forall n, dk_block (k_disk st) n = zero_block).
  { intros n. unfold dk_block. simpl. by rewrite lookup_empty. }
  destruct (fresh_tx_on (k_disk st) (k_sb st)) as (s & T & F & L); [intros n; by rewrite Hz|by rewrite Hz|].
  exists s. split; [exact T|by split].
Qed.

(** A transaction that has logged [k] blocks. *)
Lemma grown_tx k :
  (k <= NBUF)%nat ->
  exists s C, tx s ∅ C /\ txf st s /\ logged (k_log s) = (fun i => 40 + Z.of_nat i) <$> seq 0 k.
Proof.
  induction k as [|k IH]; intros Hk.
  - destruct fresh_tx as (s & T & F & L). by exists s, (fun _ => zero_block).
  - destruct IH as (s & C & T & F & L); [lia|].
    assert (Hlen : length (logged (k_log s)) = k) by (by rewrite L, length_fmap, length_seq).
    pose proof (txf_start _ _ F) as Hst. change (log_start (k_log st)) with 2 in Hst.
    destruct (log_block s C (40 + Z.of_nat k) zero_block (ret tt)
      (fun _ s' => txf s s' /\ tx s' ∅ (cupd C (40 + Z.of_nat k) zero_block) /\
         logged (k_log s') = log_with (logged (k_log s)) (40 + Z.of_nat k)) T) as ([] & s' & _ & F' & T' & L').
    + rewrite Hst. unfold in_log, LOGBLOCKS, MAXOPBLOCKS. lia.
    + unfold NBUF in Hk. lia.
    + done.
    + lia.
    + intros s' F' T' L'. by apply wp_ret.
    + exists s', (cupd C (40 + Z.of_nat k) zero_block). split; [done|]. split; [by etransitivity|].
      rewrite L', L, seq_S, fmap_app. unfold log_with. rewrite decide_False; [done|].
      intros H. apply list_elem_of_fmap in H as (x & E & Hx). apply elem_of_seq in Hx. lia.
Qed.

Lemma txf_log s : txf st s -> log_outstanding (k_log s) = 1 /\ log_committing (k_log s) = false /\ log_start (k_log s) = 2.
Proof. by intros (? & ? & ? & -> & H1 & H2 & H3). Qed.

End Machine.

Import (hints) Machine.

Lemma end_op_crash_safe_witness :
  exists s C, logged (k_log s) = [40; 41] /\
  let st := log_start (k_log s) in
  exists s' ws, end_op s = Ret tt s' /\ k_disk s' = apply_writes ws (k_disk s) /\
    (forall n, ~ in_log st n -> dk_block (k_disk s') n = C n) /\
    forall k s0, rebooted s0 st -> k_disk s0 = apply_writes (take k ws) (k_disk s) ->
      exists s1, recover_from_log s0 = Ret tt s1 /\
        ((forall n, ~ in_log st n -> dk_block (k_disk s1) n = dk_block (k_disk s) n) \/
         (forall n, ~ in_log st n -> dk_block (k_disk s1) n = C n)).
Proof.
  destruct (Machine.grown_tx 2) as (s & C & T & F & L); [unfold NBUF; lia|].
  destruct (Machine.txf_log s F) as (H1 & H2 & _).
  exists s, C. split; [exact L|].
  apply (end_op_crash_safe s C T H1 H2). rewrite L. simpl. unfold NBUF. lia.
Defined.

Lemma logged_block_reads_back_witness :
  exists s, logged (k_log s) = [40] /\
  exists s', (b <- bread ROOTDEV 40 ;; upd_buf b (set_b_data (1 :: tail zero_block)) ;; log_write b ;; brelse b ;;
              b <- bread ROOTDEV 40 ;; x <- get_buf b ;; brelse b ;; ret (b_data x)) s = Ret (1 :: tail zero_block) s' /\
    exists C, tx s' ∅ (cupd C 40 (1 :: tail zero_block)) /\ k_disk s' = k_disk s /\
      logged (k_log s') = log_with (logged (k_log s)) 40.
Proof.
  destruct (Machine.grown_tx 1) as (s & C & T & F & L); [unfold NBUF; lia|].
  destruct (Machine.txf_log s F) as (_ & _ & H3).
  destruct (logged_block_reads_back s C 40 (1 :: tail zero_block) T) as (s' & E & H).
  - rewrite H3. unfold in_log, LOGBLOCKS, MAXOPBLOCKS. lia.
  - lia.
  - reflexivity.
  - rewrite L. simpl. unfold NBUF. lia.
  - exists s. split; [exact L|]. exists s'. split; [exact E|]. exists C. exact H.
Defined.

Lemma full_log_panics_witness :
  exists s, (length (logged (k_log s)) = 30)%nat /\ exists s', end_op s = Panic "bget: no buffers" s'.
Proof.
  destruct (Machine.grown_tx 30) as (s & C & T & F & L); [unfold NBUF; lia|].
  destruct (Machine.txf_log s F) as (H1 & H2 & _).
  assert (HL : (length (logged (k_log s)) = 30)%nat) by (rewrite L; reflexivity).
  exists s. split; [exact HL|]. apply (full_log_panics s C T H1 H2). rewrite HL. reflexivity.
Defined.

(** A machine that stopped after its commit point: the header on the disk lists
    block 50, whose new contents are in log block 3. *)
Definition crashed_disk : disk :=
  mk_disk {[ 2 := hdr_enc [50] zero_block; 3 := 7 :: tail zero_block ]} [].

Lemma recovery_crash_safe_witness :
  exists s, k_disk s = crashed_disk /\
  exists s1 ws, recover_from_log s = Ret tt s1 /\ k_disk s1 = apply_writes ws (k_disk s) /\
    forall k s0, rebooted s0 2 -> k_disk s0 = apply_writes (take k ws) (k_disk s) ->
      exists s2, recover_from_log s0 = Ret tt s2 /\
        forall n, ~ in_log 2 n -> dk_block (k_disk s2) n = dk_block (k_disk s1) n.
Proof.
  destruct (binit_ok (set_k_disk crashed_disk Machine.st)) as (bc & _ & HR); [reflexivity|reflexivity| |].
  { intros n. unfold dk_block, crashed_disk. cbn [k_disk set_k_disk dk_blocks].
    rewrite lookup_insert. case_decide; [by vm_compute|]. rewrite lookup_singleton. by case_decide; vm_compute. }
  exists (set_k_bcache bc (set_k_disk crashed_disk Machine.st)). split; [reflexivity|].
  apply (recovery_crash_safe (set_k_bcache bc (set_k_disk crashed_disk Machine.st)) 2).
  - constructor; [|exact HR|reflexivity|reflexivity|unfold LOGBLOCKS, MAXOPBLOCKS; lia|reflexivity].
    apply (calm_ext Machine.st); try reflexivity. apply Machine.st_calm.
  - constructor; cbn [k_disk set_k_bcache set_k_disk].
    + replace (hdr_n (dk_block crashed_disk 2)) with 1 by (vm_compute; reflexivity). unfold LOGBLOCKS, MAXOPBLOCKS. lia.
    + replace (hdr_list (dk_block crashed_disk 2)) with [50] by (vm_compute; reflexivity).
      apply Forall_singleton. unfold in_log, LOGBLOCKS, MAXOPBLOCKS. lia.
Defined.
