(* ===== verification/Fs.v ===== *)
(** kernel/fs.c: blocks, inodes, file contents, directories and path names;
    [either_copyout] and [either_copyin] of proc.c.

    A [struct inode *] is an index into [itable.inode]; a null pointer is
    [None].  Buffers of the kernel's own (a path, a directory entry on the
    stack) are byte lists; a path is the bytes before its NUL. *)

From S2P Require Import Prelude Types Memory Spinlock Vm Sched Sleeplock Bio Uart Printf Block Log.
Local Open Scope c_scope.

(** * Copying to and from user space, the kernel, or a variable *)

(** Where [readi] puts its bytes: at a user address, at a kernel address, or in
    a variable of the caller, which gets the bytes as part of the result. *)
Inductive dest := Duser (va : Z) | Dkern (a : Z) | Dvar.
(** Where [writei] takes its bytes from; a variable is given by its bytes. *)
Inductive source := Suser (va : Z) | Skern (a : Z) | Svar (l : list Z).

Definition either_copyout (dst : dest) (pos : Z) (src : list Z) : K Z :=
  match dst with
  | Duser va => p <- me ;; pr <- get_proc p ;; copyout (p_pagetable pr) (u64 (va + pos)) src
  | Dkern a => mem_upd (fun m => put_bytes m (a + pos) src) ;; ret 0
  | Dvar => ret 0
  end.

Definition either_copyin (src : source) (pos len : Z) : K (Z * list Z) :=
  match src with
  | Suser va => p <- me ;; pr <- get_proc p ;; copyin (p_pagetable pr) (u64 (va + pos)) len
  | Skern a => l <- gets (fun s => bytes_at (k_mem s) (a + pos) (Z.to_nat len)) ;; ret (0, l)
  | Svar l => ret (0, take (Z.to_nat len) (drop (Z.to_nat pos) l))
  end.

(** * Data in blocks *)

(** [data[i]] and [data[i] = v] *)
Definition byte_at (i : Z) (data : list Z) : Z := nth (Z.to_nat i) data 0.
Definition put_byte (i v : Z) (data : list Z) : list Z := <[Z.to_nat i := u8 v]> data.

(** [a[i]] and [a[i] = v] for [uint *a] *)
Definition uint_at (i : Z) (data : list Z) : Z := getle 4 (Z.to_nat (4 * i)) data.
Definition put_uint (i v : Z) (data : list Z) : list Z := putle 4 (Z.to_nat (4 * i)) v data.

(** A bit of the free map, within one block. *)
Definition bit_set (bi : Z) (data : list Z) : bool :=
  negb (Z.land (byte_at (bi / 8) data) (Z.shiftl 1 (bi mod 8)) =? 0).
Definition set_bit (bi : Z) (data : list Z) : list Z :=
  put_byte (bi / 8) (Z.lor (byte_at (bi / 8) data) (Z.shiftl 1 (bi mod 8))) data.
Definition clear_bit (bi : Z) (data : list Z) : list Z :=
  put_byte (bi / 8) (Z.land (byte_at (bi / 8) data) (Z.lnot (Z.shiftl 1 (bi mod 8)))) data.

(** The inode [inum % IPB] of a block of inodes. *)
Definition dinode_off (inum : Z) : nat := Z.to_nat (inum mod IPB * DINODE_SIZE).
Definition get_dinode (off : nat) (data : list Z) : dinode :=
  mk_dinode (i16 (getle 2 off data)) (i16 (getle 2 (off + 2) data)) (i16 (getle 2 (off + 4) data))
    (i16 (getle 2 (off + 6) data)) (getle 4 (off + 8) data)
    ((fun k => getle 4 (off + 12 + 4 * k) data) <$> seq 0 (Z.to_nat NDIRECT + 1)).
Fixpoint put_addrs (off : nat) (l data : list Z) : list Z :=
  match l with [] => data | a :: l => put_addrs (off + 4) l (putle 4 off a data) end.
Definition put_dinode (off : nat) (d : dinode) (data : list Z) : list Z :=
  put_addrs (off + 12) (di_addrs d)
    (putle 4 (off + 8) (di_size d) (putle 2 (off + 6) (di_nlink d) (putle 2 (off + 4) (di_minor d)
      (putle 2 (off + 2) (di_major d) (putle 2 off (di_type d) data))))).

(** [struct superblock] in block 1 *)
Definition get_sb (data : list Z) : superblock :=
  mk_superblock (uint_at 0 data) (uint_at 1 data) (uint_at 2 data) (uint_at 3 data)
    (uint_at 4 data) (uint_at 5 data) (uint_at 6 data) (uint_at 7 data).

(** Assignments through a [struct buf *]: [bp->data = f(bp->data)]. *)
Definition upd_data (bp : nat) (f : list Z -> list Z) : K unit := upd_buf bp (fun b => set_b_data (f (b_data b)) b).
Definition get_bdata (bp : nat) : K (list Z) := b <- get_buf bp ;; ret (b_data b).

Definition get_inode (i : nat) : K inode := fun s => deref "inode" (k_itable s !! i) s.
Definition upd_inode (i : nat) (f : inode -> inode) : K unit :=
  x <- get_inode i ;; modify (fun s => set_k_itable (<[i := f x]> (k_itable s)) s).

(** "balloc: out of blocks\n", "ialloc: no inodes\n", "ireclaim: orphaned inode %d\n" *)
Definition balloc_msg : list Z :=
  [98; 97; 108; 108; 111; 99; 58; 32; 111; 117; 116; 32; 111; 102; 32; 98; 108; 111; 99; 107; 115; 10].
Definition ialloc_msg : list Z :=
  [105; 97; 108; 108; 111; 99; 58; 32; 110; 111; 32; 105; 110; 111; 100; 101; 115; 10].
Definition ireclaim_msg : list Z :=
  [105; 114; 101; 99; 108; 97; 105; 109; 58; 32; 111; 114; 112; 104; 97; 110; 101; 100; 32; 105; 110; 111;
   100; 101; 32; 37; 100; 10].

Section Fs.
Context {W : Wakeups} {D : DiskDriver}.

(** * Blocks *)

Definition readsb (dev : Z) : K unit :=
  bp <- bread dev 1 ;;
  data <- get_bdata bp ;;
  modify (set_k_sb (get_sb data)) ;;
  brelse bp.

Definition bzero (dev bno : Z) : K unit :=
  bp <- bread dev bno ;;
  upd_data bp (fun _ => replicate (Z.to_nat BSIZE) 0) ;;
  log_write bp ;;
  brelse bp.

(** The inner loop of [balloc]: the first [bi] whose bit is clear, [n] to go. *)
Fixpoint balloc_scan (n : nat) (data : list Z) (b bi size : Z) : option Z :=
  match n with
  | O => None
  | S n =>
      if negb (b + bi <? size) then None else
      if negb (bit_set bi data) then Some bi else balloc_scan n data b (bi + 1) size
  end.

(** [for (b = 0; b < sb.size; b += BPB)] *)
Fixpoint balloc_loop (fuel : nat) (dev b : Z) : K Z :=
  match fuel with
  | O => nofuel
  | S fuel =>
      sb <- gets k_sb ;;
      if negb (b <? sb_size sb) then _ <- printf balloc_msg [] ;; ret 0 else
      bp <- bread dev (BBLOCK b sb) ;;
      data <- get_bdata bp ;;
      match balloc_scan (Z.to_nat BPB) data b 0 (sb_size sb) with
      | Some bi =>
          upd_data bp (set_bit bi) ;;
          log_write bp ;;
          brelse bp ;;
          bzero dev (b + bi) ;;
          ret (b + bi)
      | None => brelse bp ;; balloc_loop fuel dev (b + BPB)
      end
  end.
Definition balloc (dev : Z) : K Z :=
  n <- gets (fun s => sb_size (k_sb s) / BPB) ;;
  balloc_loop (S (S (Z.to_nat n))) dev 0.

Definition bfree (dev b : Z) : K unit :=
  sb <- gets k_sb ;;
  bp <- bread dev (BBLOCK b sb) ;;
  data <- get_bdata bp ;;
  if negb (bit_set (b mod BPB) data) then panic "freeing free block" else
  upd_data bp (clear_bit (b mod BPB)) ;;
  log_write bp ;;
  brelse bp.

(** * Inodes *)

(** [for (i = 0; i < NINODE; i++)], [n] to go *)
Fixpoint iinit_loop (n i : nat) : K unit :=
  match n with O => ret tt | S n => initsleeplock (SL_inode i) ;; iinit_loop n (S i) end.
Definition iinit : K unit := initlock LK_itable ;; iinit_loop NINODE 0.

(** [for (ip = &itable.inode[0]; ip < &itable.inode[NINODE]; ip++)], [n] to go,
    and what follows the loop. *)
Fixpoint iget_loop (n i : nat) (dev inum : Z) (empty : option nat) : K nat :=
  match n with
  | O =>
      match empty with
      | None => panic "iget: no inodes"
      | Some ip =>
          upd_inode ip (fun x => set_i_valid false (set_i_ref 1 (set_i_inum inum (set_i_dev dev x)))) ;;
          release LK_itable ;;
          ret ip
      end
  | S n =>
      ip <- get_inode i ;;
      if (0 <? i_ref ip) && (i_dev ip =? dev) && (i_inum ip =? inum) then
        upd_inode i (fun x => set_i_ref (i_ref x + 1) x) ;;
        release LK_itable ;;
        ret i
      else
        iget_loop n (S i) dev inum
          (match empty with None => if i_ref ip =? 0 then Some i else None | Some e => Some e end)
  end.
Definition iget (dev inum : Z) : K nat := acquire LK_itable ;; iget_loop NINODE 0 dev inum None.

Definition idup (ip : nat) : K nat :=
  acquire LK_itable ;;
  upd_inode ip (fun x => set_i_ref (i_ref x + 1) x) ;;
  release LK_itable ;;
  ret ip.

(** [for (inum = 1; inum < sb.ninodes; inum++)] *)
Fixpoint ialloc_loop (fuel : nat) (dev type inum : Z) : K (option nat) :=
  match fuel with
  | O => nofuel
  | S fuel =>
      sb <- gets k_sb ;;
      if negb (inum <? sb_ninodes sb) then _ <- printf ialloc_msg [] ;; ret None else
      bp <- bread dev (IBLOCK inum sb) ;;
      data <- get_bdata bp ;;
      let off := dinode_off inum in
      if di_type (get_dinode off data) =? 0 then
        upd_data bp (splice off (replicate (Z.to_nat DINODE_SIZE) 0)) ;;
        upd_data bp (putle 2 off type) ;;
        log_write bp ;;
        brelse bp ;;
        ip <- iget dev inum ;;
        ret (Some ip)
      else
        brelse bp ;;
        ialloc_loop fuel dev type (inum + 1)
  end.
Definition ialloc (dev type : Z) : K (option nat) :=
  n <- gets (fun s => sb_ninodes (k_sb s)) ;; ialloc_loop (S (Z.to_nat n)) dev type 1.

(** The fields of an in-memory inode that live on the disk. *)
Definition dinode_of (x : inode) : dinode :=
  mk_dinode (i_type x) (i_major x) (i_minor x) (i_nlink x) (i_size x) (i_addrs x).
Definition with_dinode (d : dinode) (x : inode) : inode :=
  set_i_addrs (di_addrs d) (set_i_size (di_size d) (set_i_nlink (di_nlink d) (set_i_minor (di_minor d)
    (set_i_major (di_major d) (set_i_type (di_type d) x))))).

Definition iupdate (ip : nat) : K unit :=
  x <- get_inode ip ;;
  sb <- gets k_sb ;;
  bp <- bread (i_dev x) (IBLOCK (i_inum x) sb) ;;
  upd_data bp (put_dinode (dinode_off (i_inum x)) (dinode_of x)) ;;
  log_write bp ;;
  brelse bp.

Definition ilock (ip : nat) : K unit :=
  x <- get_inode ip ;;
  if i_ref x <? 1 then panic "ilock" else
  acquiresleep (SL_inode ip) ;;
  x <- get_inode ip ;;
  when (negb (i_valid x))
    (sb <- gets k_sb ;;
     bp <- bread (i_dev x) (IBLOCK (i_inum x) sb) ;;
     data <- get_bdata bp ;;
     upd_inode ip (with_dinode (get_dinode (dinode_off (i_inum x)) data)) ;;
     brelse bp ;;
     upd_inode ip (set_i_valid true) ;;
     x <- get_inode ip ;;
     when (i_type x =? 0) (panic "ilock: no type")).

Definition iunlock (ip : nat) : K unit :=
  h <- holdingsleep (SL_inode ip) ;;
  x <- get_inode ip ;;
  if negb h || (i_ref x <? 1) then panic "iunlock" else releasesleep (SL_inode ip).

Definition ifree (dev inum : Z) : K unit :=
  sb <- gets k_sb ;;
  bp <- bread dev (IBLOCK inum sb) ;;
  upd_data bp (putle 2 (dinode_off inum) 0) ;;
  log_write bp ;;
  brelse bp.

(** [for (i = 0; i < NDIRECT; i++)], [n] to go *)
Fixpoint itrunc_direct (n : nat) (ip i : nat) : K unit :=
  match n with
  | O => ret tt
  | S n =>
      x <- get_inode ip ;;
      a <- deref "addrs" (i_addrs x !! i) ;;
      when (negb (a =? 0))
        (bfree (i_dev x) a ;;
         upd_inode ip (fun x => set_i_addrs (<[i := 0]> (i_addrs x)) x)) ;;
      itrunc_direct n ip (S i)
  end.

(** [for (j = 0; j < NINDIRECT; j++) if (a[j]) bfree(ip->dev, a[j]);], [n] to go *)
Fixpoint itrunc_indirect (n : nat) (dev : Z) (bp : nat) (j : Z) : K unit :=
  match n with
  | O => ret tt
  | S n =>
      data <- get_bdata bp ;;
      when (negb (uint_at j data =? 0)) (bfree dev (uint_at j data)) ;;
      itrunc_indirect n dev bp (j + 1)
  end.

Definition itrunc (ip : nat) : K unit :=
  itrunc_direct (Z.to_nat NDIRECT) ip 0 ;;
  x <- get_inode ip ;;
  a <- deref "addrs" (i_addrs x !! Z.to_nat NDIRECT) ;;
  when (negb (a =? 0))
    (bp <- bread (i_dev x) a ;;
     itrunc_indirect (Z.to_nat NINDIRECT) (i_dev x) bp 0 ;;
     brelse bp ;;
     bfree (i_dev x) a ;;
     upd_inode ip (fun x => set_i_addrs (<[Z.to_nat NDIRECT := 0]> (i_addrs x)) x)) ;;
  upd_inode ip (set_i_size 0) ;;
  iupdate ip.

Definition iput (ip : nat) : K unit :=
  acquire LK_itable ;;
  x <- get_inode ip ;;
  let last := (i_ref x =? 1) && i_valid x && (i_nlink x =? 0) in
  when last
    (acquiresleep (SL_inode ip) ;;
     release LK_itable ;;
     itrunc ip ;;
     upd_inode ip (set_i_valid false) ;;
     releasesleep (SL_inode ip) ;;
     acquire LK_itable) ;;
  upd_inode ip (fun x => set_i_ref (i_ref x - 1) x) ;;
  release LK_itable ;;
  when last (ifree (i_dev x) (i_inum x)).

Definition iunlockput (ip : nat) : K unit := iunlock ip ;; iput ip.

(** [for (inum = 1; inum < sb.ninodes; inum++)] *)
Fixpoint ireclaim_loop (fuel : nat) (dev inum : Z) : K unit :=
  match fuel with
  | O => nofuel
  | S fuel =>
      sb <- gets k_sb ;;
      if negb (inum <? sb_ninodes sb) then ret tt else
      bp <- bread dev (IBLOCK inum sb) ;;
      data <- get_bdata bp ;;
      let dip := get_dinode (dinode_off inum) data in
      ip <- (if negb (di_type dip =? 0) && (di_nlink dip =? 0)
             then _ <- printf ireclaim_msg [VInt inum] ;; ip <- iget dev inum ;; ret (Some ip)
             else ret None) ;;
      brelse bp ;;
      match ip with
      | Some ip => begin_op ;; ilock ip ;; iunlock ip ;; iput ip ;; end_op
      | None => ret tt
      end ;;
      ireclaim_loop fuel dev (inum + 1)
  end.
Definition ireclaim (dev : Z) : K unit :=
  n <- gets (fun s => sb_ninodes (k_sb s)) ;; ireclaim_loop (S (Z.to_nat n)) dev 1.

Definition fsinit (dev : Z) : K unit :=
  readsb dev ;;
  sb <- gets k_sb ;;
  if negb (sb_magic sb =? FSMAGIC) then panic "invalid file system" else
  initlog dev sb ;;
  ireclaim dev.

(** * Contents *)

(** [if ((addr = ip->addrs[bn]) == 0) { addr = balloc(ip->dev); if (addr == 0)
    return 0; ip->addrs[bn] = addr; }], for both uses of [addrs] in [bmap] *)
Definition addr_or_alloc (ip bn : nat) : K Z :=
  x <- get_inode ip ;;
  addr <- deref "addrs" (i_addrs x !! bn) ;;
  if addr =? 0 then
    addr <- balloc (i_dev x) ;;
    when (negb (addr =? 0)) (upd_inode ip (fun x => set_i_addrs (<[bn := addr]> (i_addrs x)) x)) ;;
    ret addr
  else ret addr.

Definition bmap (ip : nat) (bn : Z) : K Z :=
  if bn <? NDIRECT then addr_or_alloc ip (Z.to_nat bn) else
  let bn := bn - NDIRECT in
  if bn <? NINDIRECT then
    addr <- addr_or_alloc ip (Z.to_nat NDIRECT) ;;
    if addr =? 0 then ret 0 else
    x <- get_inode ip ;;
    bp <- bread (i_dev x) addr ;;
    data <- get_bdata bp ;;
    addr <- (if uint_at bn data =? 0 then
               addr <- balloc (i_dev x) ;;
               when (negb (addr =? 0)) (upd_data bp (put_uint bn addr) ;; log_write bp) ;;
               ret addr
             else ret (uint_at bn data)) ;;
    brelse bp ;;
    ret addr
  else panic "bmap: out of range".

Definition stati (ip : nat) : K stat :=
  x <- get_inode ip ;; ret (mk_stat (i32 (i_dev x)) (i_inum x) (i_type x) (i_nlink x) (i_size x)).

(** The loop of [readi]; [got] is what has been stored so far.  Every turn
    moves at least one byte. *)
Fixpoint readi_loop (fuel : nat) (ip : nat) (dst : dest) (off n tot : Z) (got : list Z) : K (Z * list Z) :=
  match fuel with
  | O => nofuel
  | S fuel =>
      if negb (tot <? n) then ret (tot, got) else
      addr <- bmap ip (off / BSIZE) ;;
      if addr =? 0 then ret (tot, got) else
      x <- get_inode ip ;;
      bp <- bread (i_dev x) addr ;;
      let m := Z.min (n - tot) (BSIZE - off mod BSIZE) in
      data <- get_bdata bp ;;
      let src := take (Z.to_nat m) (drop (Z.to_nat (off mod BSIZE)) data) in
      r <- either_copyout dst tot src ;;
      if r =? -1 then brelse bp ;; ret (-1, got) else
      brelse bp ;;
      readi_loop fuel ip dst (off + m) n (tot + m) (got ++ src)
  end.
Definition readi (ip : nat) (dst : dest) (off n : Z) : K (Z * list Z) :=
  x <- get_inode ip ;;
  if (i_size x <? off) || (u32 (off + n) <? off) then ret (0, []) else
  let n := if i_size x <? u32 (off + n) then i_size x - off else n in
  readi_loop (S (Z.to_nat n)) ip dst off n 0 [].

(** The loop of [writei]: the final [tot] and [off]. *)
Fixpoint writei_loop (fuel : nat) (ip : nat) (src : source) (off n tot : Z) : K (Z * Z) :=
  match fuel with
  | O => nofuel
  | S fuel =>
      if negb (tot <? n) then ret (tot, off) else
      addr <- bmap ip (off / BSIZE) ;;
      if addr =? 0 then ret (tot, off) else
      x <- get_inode ip ;;
      bp <- bread (i_dev x) addr ;;
      let m := Z.min (n - tot) (BSIZE - off mod BSIZE) in
      '(r, l) <- either_copyin src tot m ;;
      upd_data bp (splice (Z.to_nat (off mod BSIZE)) l) ;;
      if r =? -1 then log_write bp ;; brelse bp ;; ret (tot, off) else
      log_write bp ;;
      brelse bp ;;
      writei_loop fuel ip src (off + m) n (tot + m)
  end.
Definition writei (ip : nat) (src : source) (off n : Z) : K Z :=
  x <- get_inode ip ;;
  if (i_size x <? off) || (u32 (off + n) <? off) then ret (-1) else
  if MAXFILE * BSIZE <? u32 (off + n) then ret (-1) else
  '(tot, off) <- writei_loop (S (Z.to_nat n)) ip src off n 0 ;;
  x <- get_inode ip ;;
  when (i_size x <? off) (upd_inode ip (set_i_size off)) ;;
  iupdate ip ;;
  ret tot.

(** * Directories *)

(** [struct dirent]: a [ushort] and [DIRSIZ] characters *)
Definition DIRENT_SIZE : Z := 2 + DIRSIZ.
Definition de_inum (de : list Z) : Z := getle 2 0 de.
Definition de_name (de : list Z) : list Z := take (Z.to_nat DIRSIZ) (drop 2 de).

(** [strncmp] and [strncpy] of string.c on strings given by their bytes; what
    lies beyond a list is NUL. *)
Fixpoint strncmp_list (n : nat) (p q : list Z) : Z :=
  match n with
  | O => 0
  | S n =>
      let a := nth 0 p 0 in let b := nth 0 q 0 in
      if negb (a =? 0) && (a =? b) then strncmp_list n (tail p) (tail q) else a - b
  end.
Fixpoint strncpy_list (n : nat) (t : list Z) : list Z :=
  match n with
  | O => []
  | S n => let c := nth 0 t 0 in if c =? 0 then replicate (S n) 0 else c :: strncpy_list n (tail t)
  end.
Definition namecmp (s t : list Z) : Z := strncmp_list (Z.to_nat DIRSIZ) s t.

(** [for (off = 0; off < dp->size; off += sizeof(de))]; also the offset, for
    [*poff]. *)
Fixpoint dirlookup_loop (fuel : nat) (dp : nat) (name : list Z) (off : Z) : K (option (nat * Z)) :=
  match fuel with
  | O => nofuel
  | S fuel =>
      x <- get_inode dp ;;
      if negb (off <? i_size x) then ret None else
      '(r, de) <- readi dp Dvar off DIRENT_SIZE ;;
      if negb (r =? DIRENT_SIZE) then panic "dirlookup read" else
      if de_inum de =? 0 then dirlookup_loop fuel dp name (off + DIRENT_SIZE) else
      if namecmp name (de_name de) =? 0 then
        ip <- iget (i_dev x) (de_inum de) ;; ret (Some (ip, off))
      else dirlookup_loop fuel dp name (off + DIRENT_SIZE)
  end.
Definition dirlookup (dp : nat) (name : list Z) : K (option (nat * Z)) :=
  x <- get_inode dp ;;
  if negb (i_type x =? T_DIR) then panic "dirlookup not DIR" else
  dirlookup_loop (S (S (Z.to_nat (i_size x / DIRENT_SIZE)))) dp name 0.

(** The second loop of [dirlink]: the offset of the first empty entry, or of
    the end. *)
Fixpoint dirlink_loop (fuel : nat) (dp : nat) (off : Z) : K Z :=
  match fuel with
  | O => nofuel
  | S fuel =>
      x <- get_inode dp ;;
      if negb (off <? i_size x) then ret off else
      '(r, de) <- readi dp Dvar off DIRENT_SIZE ;;
      if negb (r =? DIRENT_SIZE) then panic "dirlink read" else
      if de_inum de =? 0 then ret off else dirlink_loop fuel dp (off + DIRENT_SIZE)
  end.
Definition dirlink (dp : nat) (name : list Z) (inum : Z) : K Z :=
  f <- dirlookup dp name ;;
  match f with
  | Some (ip, _) => iput ip ;; ret (-1)
  | None =>
      x <- get_inode dp ;;
      off <- dirlink_loop (S (S (Z.to_nat (i_size x / DIRENT_SIZE)))) dp 0 ;;
      let de := le_enc 2 inum ++ strncpy_list (Z.to_nat DIRSIZ) name in
      r <- writei dp (Svar de) off DIRENT_SIZE ;;
      ret (if negb (r =? DIRENT_SIZE) then -1 else 0)
  end.

(** * Paths *)

Fixpoint skip_slashes (path : list Z) : list Z :=
  match path with c :: r => if c =? 47 then skip_slashes r else path | [] => [] end.
(** The characters up to the next slash, and the rest. *)
Fixpoint span_elem (path : list Z) : list Z * list Z :=
  match path with
  | c :: r => if c =? 47 then ([], path) else let '(e, r') := span_elem r in (c :: e, r')
  | [] => ([], [])
  end.

(** What is left of [path], and the array [name] afterwards. *)
Definition skipelem (path name : list Z) : option (list Z * list Z) :=
  match skip_slashes path with
  | [] => None
  | path =>
      let '(s, path) := span_elem path in
      let name :=
        if (Z.to_nat DIRSIZ <=? length s)%nat then splice 0 (take (Z.to_nat DIRSIZ) s) name
        else splice 0 (s ++ [0]) name in
      Some (skip_slashes path, name)
  end.

(** [while ((path = skipelem(path, name)) != 0)] and what follows it: the inode
    and the array [name]. *)
Fixpoint namex_loop (fuel : nat) (ip : nat) (path name : list Z) (nameiparent : bool) : K (option nat * list Z) :=
  match fuel with
  | O => nofuel
  | S fuel =>
      match skipelem path name with
      | None => if nameiparent then iput ip ;; ret (None, name) else ret (Some ip, name)
      | Some (path, name) =>
          ilock ip ;;
          x <- get_inode ip ;;
          if negb (i_type x =? T_DIR) then iunlockput ip ;; ret (None, name) else
          if i_nlink x =? 0 then iunlockput ip ;; ret (None, name) else
          if nameiparent && bool_decide (path = []) then iunlock ip ;; ret (Some ip, name) else
          next <- dirlookup ip name ;;
          match next with
          | None => iunlockput ip ;; ret (None, name)
          | Some (next, _) => iunlockput ip ;; namex_loop fuel next path name nameiparent
          end
      end
  end.
Definition namex (path : list Z) (nameiparent : bool) (name : list Z) : K (option nat * list Z) :=
  ip <- (if nth 0 path 0 =? 47 then iget ROOTDEV ROOTINO
         else p <- me ;; pr <- get_proc p ;; cwd <- deref "cwd" (p_cwd pr) ;; idup cwd) ;;
  namex_loop (S (length path)) ip path name nameiparent.

Definition namei (path : list Z) : K (option nat) :=
  '(ip, _) <- namex path false (replicate (Z.to_nat DIRSIZ) 0) ;; ret ip.
Definition nameiparent (path name : list Z) : K (option nat * list Z) := namex path true name.

End Fs.
