(* ===== verification/FsSpec.v ===== *)
(** Blocks and inodes on the disk: what [balloc], [bfree], [iupdate] and the
    functions around them do inside a transaction. *)

From S2P Require Import Prelude Types Memory Spinlock Vm Sched Sleeplock Bio Uart Printf Block Log LogSpec Txn Fs.
Local Open Scope c_scope.

(** * Bits of the free map *)

Lemma byte_bits x k : 0 <= k < 8 -> (Z.land x (Z.shiftl 1 k) =? 0) = negb (Z.testbit x k).
Proof.
  intros Hk. rewrite Z.shiftl_1_l. destruct (Z.testbit x k) eqn:E; simpl.
  - apply Z.eqb_neq. intros H. apply (f_equal (fun z => Z.testbit z k)) in H.
    rewrite Z.land_spec, Z.pow2_bits_true, Z.bits_0, E in H by lia. done.
  - apply Z.eqb_eq. apply Z.bits_inj'. intros j Hj. rewrite Z.land_spec, Z.bits_0.
    destruct (decide (j = k)) as [->|]; [by rewrite E|]. rewrite Z.pow2_bits_false by lia. apply andb_false_r.
Qed.

Lemma bit_set_testbit bi data : bit_set bi data = Z.testbit (byte_at (bi / 8) data) (bi mod 8).
Proof.
  unfold bit_set. rewrite byte_bits by (apply Z.mod_pos_bound; lia). apply negb_involutive.
Qed.

Lemma byte_at_put i j v data :
  0 <= i -> 0 <= j -> (Z.to_nat i < length data)%nat ->
  byte_at j (put_byte i v data) = if i =? j then u8 v else byte_at j data.
Proof.
  intros Hi Hj Hl. unfold byte_at, put_byte. destruct (Z.eqb_spec i j) as [->|Hne].
  - erewrite nth_lookup_Some; [done|]. by apply list_lookup_insert_eq.
  - rewrite !nth_lookup, list_lookup_insert_ne by lia. done.
Qed.

Section Bits.
Context (data : list Z) (bi bj : Z).
Context (Hi : 0 <= bi < BPB) (Hj : 0 <= bj < BPB) (Hl : length data = Z.to_nat BSIZE).

Lemma bit_bound : (Z.to_nat (bi / 8) < length data)%nat.
Proof. rewrite Hl. unfold BPB, BSIZE in *. pose proof (Z.div_lt_upper_bound bi 8 1024). pose proof (Z.div_pos bi 8). lia. Qed.

Lemma same_bit : bi / 8 = bj / 8 -> bi mod 8 = bj mod 8 -> bi = bj.
Proof. intros E1 E2. rewrite (Z.div_mod bi 8), (Z.div_mod bj 8) by lia. lia. Qed.

Lemma u8_testbit x k : 0 <= k < 8 -> Z.testbit (u8 x) k = Z.testbit x k.
Proof. intros Hk. unfold wrap. apply Z.mod_pow2_bits_low. lia. Qed.

(** Marking a block in use or free changes its bit and no other. *)
Lemma bit_set_set : bit_set bj (set_bit bi data) = (bi =? bj) || bit_set bj data.
Proof.
  pose proof bit_bound. pose proof (Z.mod_pos_bound bi 8 ltac:(lia)). pose proof (Z.mod_pos_bound bj 8 ltac:(lia)).
  rewrite !bit_set_testbit. unfold set_bit.
  rewrite byte_at_put by (done || (apply Z.div_pos; lia)).
  destruct (Z.eqb_spec (bi / 8) (bj / 8)) as [E|E].
  - rewrite u8_testbit, Z.lor_spec, Z.shiftl_1_l by lia. rewrite E.
    destruct (Z.eqb_spec bi bj) as [->|Hne]; [rewrite Z.pow2_bits_true by lia; apply orb_true_r|].
    rewrite Z.pow2_bits_false, orb_false_r; [done|]. intros E2. apply Hne. by apply same_bit.
  - destruct (Z.eqb_spec bi bj) as [->|Hne]; done.
Qed.

Lemma bit_set_clear : bit_set bj (clear_bit bi data) = negb (bi =? bj) && bit_set bj data.
Proof.
  pose proof bit_bound. pose proof (Z.mod_pos_bound bi 8 ltac:(lia)). pose proof (Z.mod_pos_bound bj 8 ltac:(lia)).
  rewrite !bit_set_testbit. unfold clear_bit.
  rewrite byte_at_put by (done || (apply Z.div_pos; lia)).
  destruct (Z.eqb_spec (bi / 8) (bj / 8)) as [E|E].
  - rewrite u8_testbit, Z.land_spec, Z.shiftl_1_l, Z.lnot_spec by lia. rewrite E.
    destruct (Z.eqb_spec bi bj) as [->|Hne]; [rewrite Z.pow2_bits_true by lia; apply andb_false_r|].
    rewrite Z.pow2_bits_false; [apply andb_true_r|]. intros E2. apply Hne. by apply same_bit.
  - destruct (Z.eqb_spec bi bj) as [->|Hne]; done.
Qed.

Lemma set_bit_length : length (set_bit bi data) = Z.to_nat BSIZE.
Proof. unfold set_bit, put_byte. by rewrite length_insert. Qed.
Lemma clear_bit_length : length (clear_bit bi data) = Z.to_nat BSIZE.
Proof. unfold clear_bit, put_byte. by rewrite length_insert. Qed.

End Bits.

(** ** The search of [balloc] *)

Lemma balloc_scan_Some n data b bi size r :
  balloc_scan n data b bi size = Some r ->
  bi <= r < bi + Z.of_nat n /\ b + r < size /\ bit_set r data = false /\
  forall j, bi <= j < r -> bit_set j data = true.
Proof.
  revert bi; induction n as [|n IH]; intros bi H; cbn [balloc_scan] in H; [done|].
  destruct (Z.ltb_spec (b + bi) size) as [Hs|Hs]; [|done]. cbn [negb] in H.
  destruct (bit_set bi data) eqn:E; cbn [negb] in H.
  - destruct (IH _ H) as (H1 & H2 & H3 & H4). split_and!; try done; try lia.
    intros j Hj. destruct (decide (j = bi)) as [->|]; [done|]. apply H4. lia.
  - injection H as <-. split_and!; try done; lia.
Qed.

Lemma balloc_scan_None n data b bi size j :
  balloc_scan n data b bi size = None -> bi <= j < bi + Z.of_nat n -> b + j < size -> bit_set j data = true.
Proof.
  revert bi; induction n as [|n IH]; intros bi H Hj Hs; cbn [balloc_scan] in H; [lia|].
  destruct (Z.ltb_spec (b + bi) size) as [Hs'|Hs']; cbn [negb] in H; [|lia].
  destruct (bit_set bi data) eqn:E; cbn [negb] in H; [|done].
  destruct (decide (j = bi)) as [->|]; [done|]. apply (IH (bi + 1)); [done|lia|done].
Qed.

(** * Block operations inside a transaction *)

Section Blocks.
Context {W : Wakeups} {D : DiskDriver} {DC : DiskContract}.

Lemma tx_bdata s H C n i : tx s H C -> H !! n = Some i -> get_bdata i s = Ret (C n) s.
Proof.
  intros T Hn. destruct (tx_get s H C n i T Hn) as (b & E & Ed & _).
  unfold get_bdata. run E. by rewrite Ed.
Qed.

Lemma tx_upd_data s H C n i f :
  tx s H C -> H !! n = Some i -> length (f (C n)) = Z.to_nat BSIZE ->
  txs s (upd_data i f) tt H (cupd C n (f (C n))) (logged (k_log s)).
Proof. intros T Hn Hl. apply (tx_put s H C n i); auto. intros b Hb. by rewrite Hb. Qed.

Lemma tx_set_uart s H C u : tx s H C -> tx (set_k_uart u s) H C.
Proof. intros []. constructor; auto. by apply (calm_ext s). Qed.

Lemma log_with_length L n : (length (log_with L n) <= S (length L))%nat.
Proof. unfold log_with. case_decide; [lia|]. rewrite length_app. simpl. lia. Qed.

Lemma log_with_elem L n : n ∈ log_with L n.
Proof. unfold log_with. case_decide; [done|]. apply elem_of_app. right. by apply list_elem_of_singleton. Qed.

(** The block [n] may be read and logged: it is not in the log, it is not held,
    and there is a buffer and a place in the log for it. *)
Record usable (s : kstate) (H : gmap Z nat) (n : Z) : Prop := {
  us_free : H !! n = None;
  us_log : ~ in_log (log_start (k_log s)) n;
  us_range : 0 <= n < 2 ^ 31;
  us_room : (size H + length (logged (k_log s)) < NBUF)%nat
}.

Lemma us_max s H n : usable s H n -> Z.of_nat (length (logged (k_log s))) < LOGBLOCKS.
Proof. intros U. pose proof (us_room _ _ _ U). unfold NBUF, LOGBLOCKS, MAXOPBLOCKS in *. lia. Qed.

(** A held block, changed, logged and released: the end of most functions. *)
Lemma tx_finish {A} s H C n i (k : K A) Q :
  tx s (<[n := i]> H) C -> usable s H n ->
  (forall s', txf s s' -> tx s' H C -> logged (k_log s') = log_with (logged (k_log s)) n -> wp k s' Q) ->
  wp (log_write i ;; brelse i ;; k) s Q.
Proof.
  intros T U Hk. pose proof (us_max _ _ _ U) as Hm. destruct U as [Hf Hlog Hr Hroom].
  eapply txs_bind; [apply (tx_log_write _ _ _ n i T); auto; by simplify_map_eq|]. intros s1 F1 T1 L1.
  eapply txs_bind; [apply (tx_brelse _ _ _ n i T1); [by simplify_map_eq|left; rewrite L1; by apply log_with_elem]|].
  intros s2 F2 T2 L2. rewrite delete_insert_id in T2 by done. apply Hk; [by etransitivity|done|by rewrite L2].
Qed.

Lemma tx_finish_last s H C n i (Q : unit -> kstate -> Prop) :
  tx s (<[n := i]> H) C -> usable s H n ->
  (forall s', txf s s' -> tx s' H C -> logged (k_log s') = log_with (logged (k_log s)) n -> Q tt s') ->
  wp (log_write i ;; brelse i) s Q.
Proof.
  intros T U Hk. pose proof (us_max _ _ _ U) as Hm. destruct U as [Hf Hlog Hr Hroom].
  eapply txs_bind; [apply (tx_log_write _ _ _ n i T); auto; by simplify_map_eq|]. intros s1 F1 T1 L1.
  eapply txs_last; [apply (tx_brelse _ _ _ n i T1); [by simplify_map_eq|left; rewrite L1; by apply log_with_elem]|].
  intros s2 F2 T2 L2. rewrite delete_insert_id in T2 by done. apply Hk; [by etransitivity|done|by rewrite L2].
Qed.

(** Reading a block to look at it, and releasing it unchanged. *)
Lemma tx_release_clean {A} s H C n i (k : K A) Q :
  tx s (<[n := i]> H) C -> H !! n = None -> (n ∈ logged (k_log s) \/ C n = dk_block (k_disk s) n) ->
  (forall s', txf s s' -> tx s' H C -> logged (k_log s') = logged (k_log s) -> wp k s' Q) ->
  wp (brelse i ;; k) s Q.
Proof.
  intros T Hf Hd Hk. eapply txs_bind; [apply (tx_brelse _ _ _ n i T); [by simplify_map_eq|done]|].
  intros s1 F1 T1 L1. rewrite delete_insert_id in T1 by done. by apply Hk.
Qed.

(** A block that is not held is logged or as on the disk. *)
Lemma tx_dirty s H C n : tx s H C -> H !! n = None -> n ∈ logged (k_log s) \/ C n = dk_block (k_disk s) n.
Proof.
  intros T Hn. destruct (decide (n ∈ logged (k_log s))); [by left|]. right. by apply T.
Qed.

Lemma usable_txf s s' H n :
  usable s H n -> txf s s' -> logged (k_log s') = logged (k_log s) -> usable s' H n.
Proof. intros [] F E. constructor; auto; [by rewrite (txf_start _ _ F)|by rewrite E]. Qed.

(** [bzero] *)
Lemma bzero_ok s H C n (Q : unit -> kstate -> Prop) :
  tx s H C -> usable s H n ->
  (forall s', txf s s' -> tx s' H (cupd C n zero_block) -> logged (k_log s') = log_with (logged (k_log s)) n -> Q tt s') ->
  wp (bzero ROOTDEV n) s Q.
Proof.
  intros T U HQ. unfold bzero. destruct (tx_bread s H C n T) as [i H1]; [apply U|apply U|apply U|].
  eapply txs_bind; [exact H1|]. intros s1 F1 T1 L1.
  eapply txs_bind; [apply (tx_upd_data s1 _ C n i (fun _ => zero_block) T1); [by simplify_map_eq|done]|].
  intros s2 F2 T2 L2. assert (F : txf s s2) by by etransitivity.
  eapply (tx_finish_last s2 H _ n i); [done|eapply usable_txf; [done|done|by rewrite L2]|].
  intros s3 F3 T3 L3. apply HQ; [by etransitivity|done|by rewrite L3, L2, L1].
Qed.

End Blocks.

(** * The block allocator *)

(** The superblock describes a disk whose bitmap lies outside the log. *)
Record layout (sb : superblock) (st : Z) : Prop := {
  ly_size : 0 < sb_size sb < 2 ^ 31;
  ly_bmap : forall b, 0 <= b < sb_size sb -> ~ in_log st (BBLOCK b sb) /\ 0 <= BBLOCK b sb < 2 ^ 31
}.

(** Block [b] is marked in use. *)
Definition used (sb : superblock) (C : Z -> list Z) (b : Z) : bool := bit_set (b mod BPB) (C (BBLOCK b sb)).

(** Contents after [b] has been marked in use, and after it has been marked free. *)
Definition mark (sb : superblock) (C : Z -> list Z) (b : Z) : Z -> list Z :=
  cupd C (BBLOCK b sb) (set_bit (b mod BPB) (C (BBLOCK b sb))).
Definition unmark (sb : superblock) (C : Z -> list Z) (b : Z) : Z -> list Z :=
  cupd C (BBLOCK b sb) (clear_bit (b mod BPB) (C (BBLOCK b sb))).

Lemma BBLOCK_eq sb b c : b / BPB = c / BPB -> BBLOCK b sb = BBLOCK c sb.
Proof. unfold BBLOCK. by intros ->. Qed.

Lemma bpb_split b k : b mod BPB = 0 -> 0 <= k < BPB -> (b + k) / BPB = b / BPB /\ (b + k) mod BPB = k.
Proof.
  intros Hb Hk. pose proof (Z.div_mod b BPB ltac:(unfold BPB, BSIZE; lia)). split; symmetry.
  - apply (Z.div_unique _ BPB _ k); lia.
  - apply (Z.mod_unique _ BPB (b / BPB)); lia.
Qed.

(** Bits of the same bitmap block with the same index belong to the same block. *)
Lemma used_mark sb C b c :
  0 <= b < sb_size sb -> 0 <= c < sb_size sb -> length (C (BBLOCK b sb)) = Z.to_nat BSIZE ->
  (BBLOCK b sb = BBLOCK c sb -> b / BPB = c / BPB) ->
  used sb (mark sb C b) c = (b =? c) || used sb C c.
Proof.
  intros Hb Hc Hl Hinj. unfold used, mark.
  pose proof (Z.mod_pos_bound b BPB ltac:(unfold BPB, BSIZE; lia)).
  pose proof (Z.mod_pos_bound c BPB ltac:(unfold BPB, BSIZE; lia)).
  destruct (decide (BBLOCK c sb = BBLOCK b sb)) as [E|E].
  - rewrite E, cupd_eq, bit_set_set by done. f_equal.
    specialize (Hinj (eq_sym E)). destruct (Z.eqb_spec b c) as [->|Hne]; [apply Z.eqb_refl|].
    apply Z.eqb_neq. intros Em. apply Hne.
    rewrite (Z.div_mod b BPB), (Z.div_mod c BPB) by (unfold BPB, BSIZE; lia). by rewrite Hinj, Em.
  - rewrite cupd_ne by done. destruct (Z.eqb_spec b c) as [->|]; done.
Qed.

Section Balloc.
Context {W : Wakeups} {D : DiskDriver} {DC : DiskContract}.

(** The map of a transaction that holds [H] may be changed: no bitmap block is
    held, what is held is marked in use, as are block 0 and the log, and two
    more blocks can be logged. *)
Record can_alloc (s : kstate) (H : gmap Z nat) (C : Z -> list Z) : Prop := {
  ca_layout : layout (k_sb s) (log_start (k_log s));
  ca_bmap : forall b, 0 <= b < sb_size (k_sb s) -> H !! BBLOCK b (k_sb s) = None;
  ca_held : forall b, 0 <= b < sb_size (k_sb s) -> used (k_sb s) C b = false ->
              H !! b = None /\ ~ in_log (log_start (k_log s)) b /\ 0 < b;
  ca_room : (size H + length (logged (k_log s)) + 1 < NBUF)%nat
}.

Lemma balloc_printf s :
  calm s -> exists u, printf balloc_msg [] s = Ret 0 (set_k_uart u s).
Proof.
  intros Hc. eexists. apply printf_ok; [|by apply calm_cpu_ok|by apply calm_lock_free..].
  unfold balloc_msg. cbn [length].
  repeat (apply emits_lit; [unfold byte_ok; lia|lia|lia|]). apply emits_ret.
Qed.

(** What [balloc] returns and leaves behind. *)
Definition balloc_post (s : kstate) (H : gmap Z nat) (C : Z -> list Z) (r : Z) (s' : kstate) : Prop :=
  let sb := k_sb s in
  txf s s' /\
  ((r = 0 /\ tx s' H C /\ logged (k_log s') = logged (k_log s) /\
    forall b, 0 <= b < sb_size sb -> used sb C b = true) \/
   (0 < r < sb_size sb /\ used sb C r = false /\ (forall b, 0 <= b < r -> used sb C b = true) /\
    tx s' H (cupd (mark sb C r) r zero_block) /\
    logged (k_log s') = log_with (log_with (logged (k_log s)) (BBLOCK r sb)) r)).

Lemma balloc_take s s1 H C b bi i :
  can_alloc s H C -> txf s s1 -> tx s1 (<[BBLOCK b (k_sb s) := i]> H) C ->
  logged (k_log s1) = logged (k_log s) ->
  0 <= b -> b mod BPB = 0 -> (forall x, 0 <= x < b -> used (k_sb s) C x = true) ->
  b < sb_size (k_sb s) -> balloc_scan (Z.to_nat BPB) (C (BBLOCK b (k_sb s))) b 0 (sb_size (k_sb s)) = Some bi ->
  wp (upd_data i (set_bit bi) ;; log_write i ;; brelse i ;; bzero ROOTDEV (b + bi) ;; ret (b + bi)) s1
    (balloc_post s H C).
Proof.
  intros CA F1 T1 L1 Hb Hm Hall Hlt Hscan. set (sb := k_sb s) in *.
  apply balloc_scan_Some in Hscan as (Hbi & Hsz & Hclear & Hset).
  assert (Hbb : forall k, 0 <= k < BPB -> BBLOCK (b + k) sb = BBLOCK b sb /\ (b + k) mod BPB = k).
  { intros k Hk. destruct (bpb_split b k Hm Hk) as [E1 E2]. split; [by apply BBLOCK_eq|done]. }
  destruct (Hbb bi ltac:(lia)) as [Ebb Emod].
  assert (Hfree : used sb C (b + bi) = false) by (unfold used; by rewrite Ebb, Emod).
  assert (Hmin : forall x, 0 <= x < b + bi -> used sb C x = true).
  { intros x Hx. destruct (decide (x < b)) as [|Hge]; [apply Hall; lia|]. unfold used.
    destruct (Hbb (x - b) ltac:(lia)) as [E1 E2].
    replace (b + (x - b)) with x in E1, E2 by lia. rewrite E1, E2. apply Hset. lia. }
  assert (Hr1 : 0 <= b + bi < sb_size (k_sb s)) by (fold sb; lia). assert (Hr2 : 0 <= b < sb_size (k_sb s)) by (fold sb; lia).
  destruct (ca_held _ _ _ CA (b + bi) Hr1 Hfree) as (Hnh & Hnl & Hpos).
  destruct (ly_bmap _ _ (ca_layout _ _ _ CA) b Hr2) as [Hbl Hbr]. fold sb in Hbl, Hbr.
  pose proof (ca_bmap _ _ _ CA b Hr2) as Hbh. fold sb in Hbh. pose proof (ca_room _ _ _ CA) as Hroom.
  pose proof (ly_size _ _ (ca_layout _ _ _ CA)) as Hlys. fold sb in Hlys.
  assert (Hlen : length (C (BBLOCK b sb)) = Z.to_nat BSIZE) by (eapply tx_length; [exact T1|by simplify_map_eq]).
  eapply txs_bind; [apply (tx_upd_data s1 _ C (BBLOCK b sb) i (set_bit bi) T1); [by simplify_map_eq|by apply set_bit_length]|].
  intros s2 F2 T2 L2. assert (F : txf s s2) by by etransitivity.
  eapply (tx_finish s2 H _ (BBLOCK b sb) i); [exact T2| |].
  { constructor; [done|by rewrite (txf_start _ _ F)|done|rewrite L2, L1; lia]. }
  intros s3 F3 T3 L3. assert (F' : txf s s3) by by etransitivity.
  apply wp_bind. eapply (bzero_ok s3 H _ (b + bi)); [exact T3| |].
  { constructor; [done|by rewrite (txf_start _ _ F')|lia|].
    rewrite L3, L2, L1. pose proof (log_with_length (logged (k_log s)) (BBLOCK b sb)). lia. }
  intros s4 F4 T4 L4. apply wp_ret. split; [by etransitivity|]. right. fold sb.
  split_and!; [lia|lia|done|done| |].
  - unfold mark. rewrite Ebb, Emod. exact T4.
  - by rewrite L4, L3, L2, L1, Ebb.
Qed.

Lemma balloc_loop_ok f s s1 H C b :
  can_alloc s H C -> txf s s1 -> tx s1 H C -> logged (k_log s1) = logged (k_log s) ->
  0 <= b -> b mod BPB = 0 -> (forall x, 0 <= x < b -> x < sb_size (k_sb s) -> used (k_sb s) C x = true) ->
  sb_size (k_sb s) - b <= Z.of_nat f * BPB -> wp (balloc_loop (S f) ROOTDEV b) s1 (balloc_post s H C).
Proof.
  revert s1 b; induction f as [|f IH]; intros s1 b CA F1 T1 L1 Hb Hm Hall Hf;
    cbn [balloc_loop]; (eapply wp_run; [reflexivity|]); rewrite (txf_sb _ _ F1).
  all: destruct (Z.ltb_spec b (sb_size (k_sb s))) as [Hlt|Hge]; cbn [negb]; [|
    destruct (balloc_printf s1 (tx_calm _ _ _ T1)) as [u Eu];
    eapply wp_run; [exact Eu|]; apply wp_ret; split;
      [etransitivity; [exact F1|]; exists (k_bcache s1), (k_log s1), u; by destruct s1|];
    left; split_and!; [done|by apply tx_set_uart|done|intros x Hx; apply Hall; lia]].
  { lia. }
  pose proof (ca_bmap _ _ _ CA b ltac:(lia)) as Hbh. pose proof (ca_room _ _ _ CA) as Hroom.
  destruct (tx_bread s1 H C (BBLOCK b (k_sb s)) T1 Hbh) as [i H1]; [rewrite L1; lia|apply (ca_layout _ _ _ CA); lia|].
  eapply txs_bind; [exact H1|]. intros s2 F2 T2 L2. assert (F : txf s s2) by by etransitivity.
  assert (Ed : get_bdata i s2 = Ret (C (BBLOCK b (k_sb s))) s2) by (apply (tx_bdata _ _ _ _ i T2); apply lookup_insert_eq).
  refine (wp_run _ _ _ _ _ _ Ed _). clear Ed.
  destruct (balloc_scan _ _ b 0 _) as [bi|] eqn:Es.
  - apply (balloc_take s s2 H C b bi i); auto; [by rewrite L2|]. intros x Hx. apply Hall; lia.
  - eapply tx_release_clean; [exact T2|done| |].
    { rewrite L2, (txf_disk _ _ F2). by apply (tx_dirty s1 H). }
    intros s3 F3 T3 L3. apply (IH s3 (b + BPB)); auto; [by etransitivity|by rewrite L3, L2|lia| | |lia].
    + rewrite Z.add_mod, Hm, Z.mod_same by lia. done.
    + intros x Hx Hs. destruct (decide (x < b)) as [|Hxb]; [apply Hall; lia|]. unfold used.
      destruct (bpb_split b (x - b) Hm ltac:(lia)) as [E1 E2]. replace (b + (x - b)) with x in E1, E2 by lia.
      rewrite (BBLOCK_eq _ x b), E2 by done.
      apply (balloc_scan_None _ _ _ _ _ (x - b) Es); lia.
Qed.

Lemma balloc_ok s H C : tx s H C -> can_alloc s H C -> wp (balloc ROOTDEV) s (balloc_post s H C).
Proof.
  intros T CA. unfold balloc. eapply wp_run; [reflexivity|]. pose proof (ly_size _ _ (ca_layout _ _ _ CA)).
  apply balloc_loop_ok; auto; [reflexivity|lia|lia|].
  pose proof (Z.mul_succ_div_gt (sb_size (k_sb s)) BPB ltac:(lia)).
  pose proof (Z.div_pos (sb_size (k_sb s)) BPB). lia.
Qed.

(** [bfree] *)
Lemma bfree_ok s H C b (Q : unit -> kstate -> Prop) :
  tx s H C -> can_alloc s H C -> 0 <= b < sb_size (k_sb s) -> used (k_sb s) C b = true ->
  (forall s', txf s s' -> tx s' H (unmark (k_sb s) C b) ->
     logged (k_log s') = log_with (logged (k_log s)) (BBLOCK b (k_sb s)) -> Q tt s') ->
  wp (bfree ROOTDEV b) s Q.
Proof.
  intros T CA Hb Hu HQ. pose proof (ca_bmap _ _ _ CA b Hb) as Hbh. pose proof (ca_room _ _ _ CA) as Hroom.
  destruct (ly_bmap _ _ (ca_layout _ _ _ CA) b Hb) as [Hbl Hbr].
  unfold bfree. eapply wp_run; [reflexivity|].
  destruct (tx_bread s H C (BBLOCK b (k_sb s)) T Hbh) as [i H1]; [lia|lia|].
  eapply txs_bind; [exact H1|]. intros s1 F1 T1 L1.
  eapply wp_run; [apply (tx_bdata _ _ _ (BBLOCK b (k_sb s)) i T1); apply lookup_insert_eq|].
  unfold used in Hu. rewrite Hu. cbn [negb].
  assert (Hlen : length (C (BBLOCK b (k_sb s))) = Z.to_nat BSIZE) by (eapply tx_length; [exact T1|apply lookup_insert_eq]).
  eapply txs_bind; [apply (tx_upd_data _ _ _ (BBLOCK b (k_sb s)) i (clear_bit (b mod BPB)) T1);
    [apply lookup_insert_eq|by apply clear_bit_length]|].
  intros s2 F2 T2 L2. assert (F : txf s s2) by by etransitivity.
  eapply (tx_finish_last s2 H _ (BBLOCK b (k_sb s)) i); [exact T2| |].
  { constructor; [done|by rewrite (txf_start _ _ F)|done|rewrite L2, L1; lia]. }
  intros s3 F3 T3 L3. apply HQ; [by etransitivity|exact T3|by rewrite L3, L2, L1].
Qed.

End Balloc.
