(* ===== verification/FsAlloc.v ===== *)
(** The block allocator of the file system ([balloc] and [bfree], fs.c) against
    the free map it keeps on the disk: the theorems and a sample file system. *)

From S2P Require Import Prelude Types Memory Spinlock Vm Sched Sleeplock Bio Uart Printf Block Log LogSpec Txn Crash Fs FsSpec.
Local Open Scope c_scope.

Lemma tx_block_length s H C n : tx s H C -> length (C n) = Z.to_nat BSIZE.
Proof.
  intros T. destruct (tx_use _ _ _ T) as (U & HR & Hu). specialize (Hu n). unfold cached in Hu.
  pose proof (blk_length s U n HR) as E. unfold blk in E. destruct (H !! n) eqn:Hn.
  - by rewrite Hu in E.
  - case_decide as Hin.
    + destruct Hu as [i Hi]. by rewrite Hi in E.
    + rewrite Hu in E. by rewrite (tx_clean _ _ _ T n Hin Hn).
Qed.

(** Every bitmap block of the file system is itself in use, and block numbers
    do not wrap. *)
Record map_wf (sb : superblock) (C : Z -> list Z) : Prop := {
  mw_start : 0 <= sb_bmapstart sb < 2 ^ 31;
  mw_used : forall b, 0 <= b < sb_size sb -> forall r, 0 <= r < sb_size sb -> used sb C r = false -> r <> BBLOCK b sb
}.

Lemma BBLOCK_inj sb b c :
  0 <= sb_bmapstart sb < 2 ^ 31 -> 0 < sb_size sb < 2 ^ 31 -> 0 <= b < sb_size sb -> 0 <= c < sb_size sb ->
  BBLOCK b sb = BBLOCK c sb -> b / BPB = c / BPB.
Proof.
  intros Hs Hz Hb Hc. unfold BBLOCK, u32.
  assert (Hd : forall x, 0 <= x < sb_size sb -> 0 <= x / BPB <= x).
  { intros x Hx. split; [apply Z.div_pos; unfold BPB, BSIZE; lia|]. apply Z.div_le_upper_bound; unfold BPB, BSIZE; lia. }
  pose proof (Hd b Hb). pose proof (Hd c Hc). rewrite !Z.mod_small by lia. lia.
Qed.

Section Alloc.
Context {W : Wakeups} {D : DiskDriver} {DC : DiskContract}.

(** The map after an allocation has exactly the new block added. *)
Lemma used_after_balloc s H C r c :
  tx s H C -> can_alloc s H C -> map_wf (k_sb s) C -> 0 < r < sb_size (k_sb s) -> used (k_sb s) C r = false ->
  0 <= c < sb_size (k_sb s) ->
  used (k_sb s) (cupd (mark (k_sb s) C r) r zero_block) c = (r =? c) || used (k_sb s) C c.
Proof.
  intros T CA MW Hr Hu Hc. pose proof (ly_size _ _ (ca_layout _ _ _ CA)) as Hz.
  unfold used at 1. rewrite cupd_ne; [|intros E; symmetry in E; revert E; apply (mw_used _ _ MW); auto; lia].
  fold (used (k_sb s) (mark (k_sb s) C r) c). apply used_mark; [lia|done|by eapply tx_block_length|].
  apply BBLOCK_inj; [apply MW|done|lia|done].
Qed.

Lemma used_unmark sb C b c :
  0 <= sb_bmapstart sb < 2 ^ 31 -> 0 < sb_size sb < 2 ^ 31 -> 0 <= b < sb_size sb -> 0 <= c < sb_size sb ->
  length (C (BBLOCK b sb)) = Z.to_nat BSIZE ->
  used sb (unmark sb C b) c = negb (b =? c) && used sb C c.
Proof.
  intros Hs Hz Hb Hc Hl. unfold used, unmark.
  pose proof (Z.mod_pos_bound b BPB ltac:(unfold BPB, BSIZE; lia)).
  pose proof (Z.mod_pos_bound c BPB ltac:(unfold BPB, BSIZE; lia)).
  destruct (decide (BBLOCK c sb = BBLOCK b sb)) as [E|E].
  - rewrite E, cupd_eq, bit_set_clear by done. f_equal. f_equal.
    apply BBLOCK_inj in E; [|done..]. destruct (Z.eqb_spec b c) as [->|Hne]; [apply Z.eqb_refl|].
    apply Z.eqb_neq. intros Em. apply Hne.
    rewrite (Z.div_mod b BPB), (Z.div_mod c BPB) by (unfold BPB, BSIZE; lia). by rewrite E, Em.
  - rewrite cupd_ne by done. destruct (Z.eqb_spec b c) as [->|]; done.
Qed.

(** C24: [balloc] returns the lowest block that the on-disk free map has free,
    marks it in use and zeroes it, both through the log; when the map has no
    free block it returns 0 (after the "out of blocks" message) and changes
    neither the map nor the log. *)
Theorem balloc_first_free s H C :
  tx s H C -> can_alloc s H C ->
  exists r s', balloc ROOTDEV s = Ret r s' /\ txf s s' /\
  ((r = 0 /\ tx s' H C /\ logged (k_log s') = logged (k_log s) /\
    forall b, 0 <= b < sb_size (k_sb s) -> used (k_sb s) C b = true) \/
   (0 < r < sb_size (k_sb s) /\ used (k_sb s) C r = false /\
    (forall b, 0 <= b < r -> used (k_sb s) C b = true) /\
    tx s' H (cupd (mark (k_sb s) C r) r zero_block) /\
    logged (k_log s') = log_with (log_with (logged (k_log s)) (BBLOCK r (k_sb s))) r)).
Proof. intros T CA. exact (balloc_ok s H C T CA). Qed.

(** A block taken by [balloc] and given back by [bfree] leaves the free
    map as it was, for every block of the file system; while it is held, it is
    the only block whose bit differs. *)
Theorem balloc_bfree_roundtrip s H C :
  tx s H C -> can_alloc s H C -> map_wf (k_sb s) C ->
  (exists b, 0 <= b < sb_size (k_sb s) /\ used (k_sb s) C b = false) ->
  (S (S (S (size H + length (logged (k_log s))))) < NBUF)%nat ->
  exists r s1 C1 s2 C2,
    balloc ROOTDEV s = Ret r s1 /\ tx s1 H C1 /\ bfree ROOTDEV r s1 = Ret tt s2 /\ tx s2 H C2 /\
    forall c, 0 <= c < sb_size (k_sb s) ->
      used (k_sb s) C1 c = (r =? c) || used (k_sb s) C c /\ used (k_sb s) C2 c = used (k_sb s) C c.
Proof.
  intros T CA MW (b0 & Hb0 & Hf0) Hroom. pose proof (ly_size _ _ (ca_layout _ _ _ CA)) as Hz.
  destruct (balloc_ok s H C T CA) as (r & s1 & E & F & [(_ & _ & _ & Hall)|(Hr & Hu & _ & T1 & L1)]).
  { rewrite Hall in Hf0 by done. done. }
  set (C1 := cupd (mark (k_sb s) C r) r zero_block) in *.
  assert (U1 : forall c, 0 <= c < sb_size (k_sb s) -> used (k_sb s) C1 c = (r =? c) || used (k_sb s) C c).
  { intros c Hc. by apply (used_after_balloc s H C r c). }
  pose proof (txf_sb _ _ F) as Esb. pose proof (txf_start _ _ F) as Est.
  destruct (bfree_ok s1 H C1 r (fun _ s' => tx s' H (unmark (k_sb s1) C1 r))) as ([] & s2 & E2 & T2); auto.
  - constructor; rewrite ?Esb, ?Est; [apply CA|apply CA| |].
    + intros c Hc Hfree. rewrite U1 in Hfree by done. apply orb_false_iff in Hfree as [_ Hfree]. by apply (ca_held _ _ _ CA).
    + rewrite L1. pose proof (log_with_length (log_with (logged (k_log s)) (BBLOCK r (k_sb s))) r).
      pose proof (log_with_length (logged (k_log s)) (BBLOCK r (k_sb s))). lia.
  - rewrite Esb. lia.
  - rewrite Esb, U1 by lia. by rewrite Z.eqb_refl.
  - exists r, s1, C1, s2, (unmark (k_sb s1) C1 r). split_and!; auto. intros c Hc. split; [by apply U1|].
    rewrite Esb, used_unmark; [|apply MW|done|lia|done|by eapply tx_block_length].
    rewrite U1 by done. destruct (Z.eqb_spec r c) as [->|]; [by rewrite Hu|done].
Qed.

(** Freeing a block that the map already has free stops the machine with
    "freeing free block"; nothing is written. *)
Theorem bfree_free_panics s H C b :
  tx s H C -> can_alloc s H C -> 0 <= b < sb_size (k_sb s) -> used (k_sb s) C b = false ->
  exists s', bfree ROOTDEV b s = Panic "freeing free block" s' /\ k_disk s' = k_disk s /\
    logged (k_log s') = logged (k_log s).
Proof.
  intros T CA Hb Hu. pose proof (ca_bmap _ _ _ CA b Hb) as Hbh. pose proof (ca_room _ _ _ CA) as Hroom.
  destruct (ly_bmap _ _ (ca_layout _ _ _ CA) b Hb) as [Hbl Hbr].
  destruct (tx_bread s H C (BBLOCK b (k_sb s)) T Hbh) as [i (bc & l & E & T1 & L & _)]; [lia|lia|].
  exists (upd_tx s bc l). unfold bfree. unfold gets, bind at 1. unfold bind at 1. rewrite E.
  unfold bind at 1. rewrite (tx_bdata _ _ _ (BBLOCK b (k_sb s)) i T1) by apply lookup_insert_eq.
  unfold used in Hu. rewrite Hu. by split.
Qed.

End Alloc.

(** * A sample file system *)

(** mkfs's layout: 2000 blocks, the log in blocks 2 to 31, the inodes from 32,
    the free map in 45; blocks 0 to 46 are in use. *)
Module SampleFs.

Definition sb : superblock := mk_superblock FSMAGIC 2000 1954 200 30 2 32 45.
Definition bitmap : list Z := [255; 255; 255; 255; 255; 127] ++ replicate (Z.to_nat BSIZE - 6) 0.
Definition fs_disk : disk := mk_disk {[ 45 := bitmap ]} [].

Lemma fs_block n : dk_block fs_disk n = if decide (n = 45) then bitmap else zero_block.
Proof.
  unfold dk_block, fs_disk. cbn [dk_blocks]. destruct (decide (n = 45)) as [->|Hn].
  - by rewrite lookup_singleton_eq.
  - by rewrite lookup_singleton_ne.
Qed.

Lemma bmap_block b : 0 <= b < 2000 -> BBLOCK b sb = 45.
Proof. intros Hb. unfold BBLOCK, u32. cbn [sb sb_bmapstart]. rewrite (Z.div_small b) by (unfold BPB, BSIZE; lia). reflexivity. Qed.

Lemma low_used b : 0 <= b < 47 -> used sb (dk_block fs_disk) b = true.
Proof.
  intros Hb. unfold used. rewrite bmap_block, fs_block, decide_True by (done || lia).
  assert (H : forallb (fun n => bit_set (Z.of_nat n mod BPB) bitmap) (seq 0 47) = true) by (vm_compute; reflexivity).
  rewrite forallb_forall in H. specialize (H (Z.to_nat b)). rewrite Z2Nat.id in H by lia. apply H.
  apply in_seq. lia.
Qed.

Lemma free_47 : used sb (dk_block fs_disk) 47 = false.
Proof. unfold used. rewrite bmap_block, fs_block, decide_True by (done || lia). vm_compute. reflexivity. Qed.

Lemma free_high b : 0 <= b < 2000 -> used sb (dk_block fs_disk) b = false -> 47 <= b.
Proof. intros Hb Hu. destruct (decide (b < 47)); [|lia]. rewrite low_used in Hu by lia. done. Qed.

(** A transaction has begun on it. *)
Lemma fs_tx :
  exists s, k_sb s = sb /\ log_start (k_log s) = 2 /\ logged (k_log s) = [] /\ tx s ∅ (dk_block fs_disk) /\
    can_alloc s ∅ (dk_block fs_disk) /\ map_wf (k_sb s) (dk_block fs_disk).
Proof.
  destruct (Machine.fresh_tx_on fs_disk sb) as (s & T & F & L).
  - intros n. rewrite fs_block. case_decide; vm_compute; reflexivity.
  - rewrite fs_block, decide_False by lia. vm_compute. reflexivity.
  - pose proof (txf_sb _ _ F) as Esb. pose proof (txf_start _ _ F) as Est.
    change (k_sb (Machine.on fs_disk sb)) with sb in Esb. change (log_start (k_log (Machine.on fs_disk sb))) with 2 in Est.
    exists s. split_and!; auto.
    + constructor; rewrite ?Esb, ?Est, ?L.
      * constructor; [cbn; lia|]. intros b Hb. rewrite bmap_block by done. unfold in_log, LOGBLOCKS, MAXOPBLOCKS. lia.
      * intros b Hb. apply lookup_empty.
      * intros b Hb Hu. apply free_high in Hu; [|done]. split; [apply lookup_empty|].
        unfold in_log, LOGBLOCKS, MAXOPBLOCKS. lia.
      * rewrite map_size_empty. unfold NBUF. cbn. lia.
    + rewrite Esb. constructor; [cbn; lia|]. intros b Hb r Hr Hu. rewrite bmap_block by done.
      apply free_high in Hu; [lia|done].
Qed.

End SampleFs.

Import (hints) Machine.

Lemma balloc_first_free_witness :
  exists s, k_sb s = SampleFs.sb /\ exists s', balloc ROOTDEV s = Ret 47 s'.
Proof.
  destruct SampleFs.fs_tx as (s & Esb & _ & L & T & CA & _). exists s. split; [exact Esb|].
  destruct (balloc_first_free s ∅ _ T CA) as (r & s' & E & _ & [(_ & _ & _ & Hall)|(Hr & Hu & Hlow & _)]); rewrite Esb in *.
  - exfalso. pose proof (Hall 47 ltac:(cbn; lia)) as H. rewrite SampleFs.free_47 in H. discriminate H.
  - exists s'. rewrite E. f_equal. apply SampleFs.free_high in Hu; [|cbn in Hr; lia].
    destruct (decide (47 < r)) as [Hlt|Hlt]; [|lia].
    pose proof (Hlow 47 ltac:(lia)) as H. rewrite SampleFs.free_47 in H. discriminate H.
Defined.

Lemma balloc_bfree_roundtrip_witness :
  exists s r s1 s2, k_sb s = SampleFs.sb /\ balloc ROOTDEV s = Ret r s1 /\ bfree ROOTDEV r s1 = Ret tt s2.
Proof.
  destruct SampleFs.fs_tx as (s & Esb & _ & L & T & CA & MW).
  destruct (balloc_bfree_roundtrip s ∅ _ T CA MW) as (r & s1 & C1 & s2 & C2 & E1 & _ & E2 & _).
  - exists 47. rewrite Esb. split; [cbn; lia|apply SampleFs.free_47].
  - rewrite L, map_size_empty. unfold NBUF. cbn. lia.
  - exists s, r, s1, s2. split_and!; assumption.
Defined.

Lemma bfree_free_panics_witness :
  exists s s', k_sb s = SampleFs.sb /\ bfree ROOTDEV 47 s = Panic "freeing free block" s'.
Proof.
  destruct SampleFs.fs_tx as (s & Esb & _ & L & T & CA & MW).
  destruct (bfree_free_panics s ∅ _ 47 T CA) as (s' & E & _).
  - rewrite Esb. cbn. lia.
  - rewrite Esb. apply SampleFs.free_47.
  - exists s, s'. split; assumption.
Defined.
