(* ===== verification/Path.v ===== *)
(** Path names (fs.c): the loop of [namex] visits exactly the elements of a path. *)

From S2P Require Import Prelude Types Memory Spinlock Sched Sleeplock Bio Uart Printf Block Log Fs.
Local Open Scope c_scope.

(** The reference: cut at every slash, drop the empty pieces. *)
Fixpoint split_slash (p : list Z) : list (list Z) :=
  match p with
  | [] => [[]]
  | c :: p =>
      if c =? 47 then [] :: split_slash p
      else match split_slash p with e :: es => (c :: e) :: es | [] => [[c]] end
  end.
Definition elements (p : list Z) : list (list Z) := filter (fun e => e <> []) (split_slash p).

(** A directory entry holds the first [DIRSIZ] characters of a name. *)
Definition stored (e : list Z) : list Z := take (Z.to_nat DIRSIZ) e.

(** Each element, and whether it is the last one, which is what [nameiparent]
    stops at. *)
Fixpoint mark_last (es : list (list Z)) : list (list Z * bool) :=
  match es with [] => [] | e :: es => (stored e, bool_decide (es = [])) :: mark_last es end.

(** What the loop of [namex] sees: the string in [name] and whether [path] is
    used up, once per turn; [None] when it does not end within the fuel. *)
Fixpoint visits (fuel : nat) (path name : list Z) : option (list (list Z * bool)) :=
  match fuel with
  | O => None
  | S fuel =>
      match skipelem path name with
      | None => Some []
      | Some (path, name) => r ← visits fuel path name; Some ((cstr name, bool_decide (path = [])) :: r)
      end
  end.

Lemma split_slash_cons p : exists e es, split_slash p = e :: es.
Proof.
  induction p as [|c p (e & es & E)]; [by exists [], []|]. cbn [split_slash].
  destruct (c =? 47); [by exists [], (split_slash p)|]. rewrite E. by exists (c :: e), es.
Qed.

Lemma elements_skip p : elements (skip_slashes p) = elements p.
Proof.
  induction p as [|c p IH]; [done|]. cbn [skip_slashes]. destruct (c =? 47) eqn:E; [|done].
  rewrite IH. unfold elements. cbn [split_slash]. by rewrite E.
Qed.

Lemma span_split p : let '(e, r) := span_elem p in
  exists es, split_slash p = e :: es /\ elements r = filter (fun e => e <> []) es /\
    (length r <= length p)%nat /\ (e = [] -> r = p) /\ (forall x, x ∈ e -> x ∈ p) /\ (forall x, x ∈ r -> x ∈ p).
Proof.
  induction p as [|c p IH]; cbn [span_elem split_slash].
  { exists []. by split_and!. }
  destruct (c =? 47) eqn:E.
  { exists (split_slash p). split_and!; [done| |done|done|set_solver|done]. unfold elements. cbn [split_slash]. by rewrite E. }
  destruct (span_elem p) as [e r]. destruct IH as (es & -> & H1 & H2 & H3 & H4 & H5).
  exists es. cbn [length]. split_and!; [done|done|lia|done|set_solver..].
Qed.

Lemma skip_head p : skip_slashes p = [] \/ exists c r, skip_slashes p = c :: r /\ (c =? 47) = false.
Proof.
  induction p as [|c p IH]; [by left|]. cbn [skip_slashes]. destruct (c =? 47) eqn:E; [done|].
  right. by exists c, p.
Qed.

Lemma skip_shorter p : (length (skip_slashes p) <= length p)%nat /\ forall x, x ∈ skip_slashes p -> x ∈ p.
Proof.
  induction p as [|c p [IH1 IH2]]; [done|]. cbn [skip_slashes]. destruct (c =? 47); [|done].
  cbn [length]. split; [lia|set_solver].
Qed.

Lemma skip_nil_iff p : skip_slashes p = [] <-> elements p = [].
Proof.
  rewrite <- (elements_skip p). destruct (skip_head p) as [->|(c & r & -> & E)]; [done|].
  split; [done|]. unfold elements. cbn [split_slash]. rewrite E. by destruct (split_slash_cons r) as (e & es & ->).
Qed.

Lemma cstr_id l r : 0 ∉ l -> cstr (l ++ 0 :: r) = l.
Proof.
  induction l as [|c l IH]; intros H; [done|]. cbn. destruct (Z.eqb_spec c 0) as [->|]; [set_solver|].
  rewrite IH; set_solver.
Qed.
Lemma cstr_whole l : 0 ∉ l -> cstr l = l.
Proof.
  induction l as [|c l IH]; intros H; [done|]. cbn. destruct (Z.eqb_spec c 0) as [->|]; [set_solver|].
  rewrite IH; set_solver.
Qed.

(** The array [name] after [skipelem]. *)
Lemma name_stored e name :
  length name = Z.to_nat DIRSIZ -> 0 ∉ e ->
  let name' := if (Z.to_nat DIRSIZ <=? length e)%nat then splice 0 (take (Z.to_nat DIRSIZ) e) name
               else splice 0 (e ++ [0]) name in
  cstr name' = stored e /\ length name' = Z.to_nat DIRSIZ.
Proof.
  intros Hn He. unfold stored. destruct (Nat.leb_spec (Z.to_nat DIRSIZ) (length e)) as [H|H]; cbn zeta; split.
  - unfold splice. rewrite take_0, app_nil_l, drop_ge, app_nil_r by (rewrite length_take; lia).
    apply cstr_whole. intros Hx%elem_of_take. destruct Hx as (i & Hi & _). apply He, list_elem_of_lookup. by exists i.
  - rewrite splice_length by (rewrite length_take; lia). done.
  - unfold splice. rewrite take_0, app_nil_l, <- app_assoc, take_ge by lia. by apply cstr_id.
  - rewrite splice_length by (rewrite length_app; cbn; lia). done.
Qed.

Lemma skipelem_ok p name :
  length name = Z.to_nat DIRSIZ -> 0 ∉ p ->
  match skipelem p name with
  | None => elements p = []
  | Some (p', name') => exists e, elements p = e :: elements p' /\ cstr name' = stored e /\
      length name' = Z.to_nat DIRSIZ /\ (length p' < length p)%nat /\ 0 ∉ p' /\ (p' = [] <-> elements p' = [])
  end.
Proof.
  intros Hn Hp. unfold skipelem. destruct (skip_shorter p) as [Hl Hin].
  rewrite <- (elements_skip p). destruct (skip_head p) as [->|(c & r & Es & E)]; [done|].
  rewrite Es in Hl, Hin |- *. pose proof (span_split (c :: r)) as H.
  destruct (span_elem (c :: r)) as [e r'] eqn:Esp. destruct H as (es & Ee & Er & Hlen & Hemp & He & Hr).
  assert (Hne : e <> []).
  { cbn [span_elem] in Esp. rewrite E in Esp. destruct (span_elem r). by simplify_eq. }
  assert (Hr' : (length r' < length (c :: r))%nat).
  { cbn [span_elem] in Esp. rewrite E in Esp. pose proof (span_split r) as H. destruct (span_elem r) as [e2 r2].
    simplify_eq. destruct H as (? & _ & _ & H & _). cbn. lia. }
  destruct (skip_shorter r') as [Hl' Hin'].
  destruct (name_stored e name Hn) as [H1 H2]; [intros H0; by apply Hp, Hin, He|].
  exists e. split_and!; [|exact H1|exact H2|lia|intros H0; by apply Hp, Hin, Hr, Hin'|].
  - unfold elements at 1. rewrite Ee, filter_cons_True by done. by rewrite elements_skip, Er.
  - by rewrite skip_nil_iff, elements_skip.
Qed.

(** C28: walking a path with [skipelem], as [namex] does, visits the elements of the
    path in order, whatever the number of slashes before, between and after
    them: each element arrives in [name] cut to the length of a directory entry,
    and the rest of the path is empty exactly after the last one. The loop ends
    within one turn per character. *)
Theorem namex_visits_elements path name :
  length name = Z.to_nat DIRSIZ -> 0 ∉ path ->
  visits (S (length path)) path name = Some (mark_last (elements path)).
Proof.
  remember (S (length path)) as n eqn:En. assert (Hn : (length path < n)%nat) by lia. clear En.
  revert path name Hn. induction n as [|n IH]; intros path name Hlt Hn Hp; [lia|].
  cbn [visits]. pose proof (skipelem_ok path name Hn Hp) as H.
  destruct (skipelem path name) as [[p' name']|]; [|by rewrite H].
  destruct H as (e & -> & Hc & Hn' & Hl & Hp' & Hnil). rewrite IH by (lia || done). cbn. do 2 f_equal.
  rewrite Hc. f_equal. by apply bool_decide_ext.
Qed.

(** "//a///bb/": two elements *)
Lemma namex_visits_elements_witness :
  visits 10 [47; 47; 97; 47; 47; 47; 98; 98; 47] (replicate 14 0) = Some [([97], false); ([98; 98], true)].
Proof.
  apply (namex_visits_elements [47; 47; 97; 47; 47; 47; 98; 98; 47] (replicate 14 0)).
  - reflexivity.
  - apply (bool_decide_unpack _). vm_compute. exact I.
Defined.
