(* ===== verification/Inode.v ===== *)
(** Inodes (fs.c): the table of in-memory inodes as a count of references per
    inode ([iget], [idup], [iput]), and the layout of inodes on the disk. *)

From S2P Require Import Prelude Types Memory Spinlock Sched Sleeplock Bio Block Log Crash Fs.
Local Open Scope c_scope.

(** * The inode table *)

(** No inode has two active entries. *)
Definition active (dev inum : Z) (x : inode) : bool := (0 <? i_ref x) && (i_dev x =? dev) && (i_inum x =? inum).
Record itable_ok (t : list inode) : Prop := {
  it_len : length t = NINODE;
  it_ref : Forall (fun x => 0 <= i_ref x) t;
  it_uniq : forall dev inum i j x y, t !! i = Some x -> t !! j = Some y ->
              active dev inum x = true -> active dev inum y = true -> i = j
}.

(** What the table stands for: the number of references to each inode. *)
Definition weight (dev inum : Z) (x : inode) : Z := if active dev inum x then i_ref x else 0.
Fixpoint refs (t : list inode) (dev inum : Z) : Z :=
  match t with [] => 0 | x :: t => weight dev inum x + refs t dev inum end.

Lemma active_true dev inum x : active dev inum x = true <-> 0 < i_ref x /\ i_dev x = dev /\ i_inum x = inum.
Proof. unfold active. rewrite !andb_true_iff, Z.ltb_lt, !Z.eqb_eq. tauto. Qed.

Lemma refs_insert t i x y dev inum :
  t !! i = Some x -> refs (<[i := y]> t) dev inum = refs t dev inum - weight dev inum x + weight dev inum y.
Proof.
  revert i. induction t as [|z t IH]; intros [|i] H; simplify_eq/=; [lia|].
  rewrite (IH i H). lia.
Qed.

(** Changing the count of an entry, or giving an idle entry to an inode that
    has none, keeps the table well formed. *)
Lemma itable_ok_insert t i x y :
  itable_ok t -> t !! i = Some x -> 0 <= i_ref y ->
  (forall dev inum, active dev inum y = true -> active dev inum x = true \/
     forall j z, t !! j = Some z -> active dev inum z = false) ->
  itable_ok (<[i := y]> t).
Proof.
  intros [Hlen Href Huniq] Hi Hy Hact.
  assert (Ha : forall dev inum j z, <[i := y]> t !! j = Some z -> active dev inum z = true -> j <> i ->
    active dev inum y = true -> False).
  { intros dev inum j z Hj Hz Hne Hya. rewrite list_lookup_insert_ne in Hj by done.
    destruct (Hact _ _ Hya) as [Hx|Hn]; [apply Hne; by eapply Huniq|]. rewrite (Hn _ _ Hj) in Hz. done. }
  constructor.
  - by rewrite length_insert.
  - by apply Forall_insert.
  - intros dev inum j k u v Hj Hk Hu Hv.
    destruct (decide (j = i)) as [->|Hji], (decide (k = i)) as [->|Hki]; [done| | |].
    + rewrite list_lookup_insert_eq in Hj by (by eapply lookup_lt_Some). simplify_eq.
      exfalso. by eapply (Ha dev inum k).
    + rewrite list_lookup_insert_eq in Hk by (by eapply lookup_lt_Some). simplify_eq.
      exfalso. by eapply (Ha dev inum j).
    + rewrite list_lookup_insert_ne in Hj, Hk by done. by eapply Huniq.
Qed.

(** The weights of an entry whose count changes by [d]. *)
Lemma weight_ref x d dev inum :
  0 < i_ref x -> 0 <= i_ref x + d ->
  weight dev inum (set_i_ref (i_ref x + d) x) =
    weight dev inum x + (if bool_decide (i_dev x = dev /\ i_inum x = inum) then d else 0).
Proof.
  intros H1 H2. unfold weight, active. destruct x as [dv nm r]; cbn [i_ref i_dev i_inum set_i_ref] in *.
  destruct (Z.ltb_spec 0 r); [|lia].
  destruct (Z.eqb_spec dv dev), (Z.eqb_spec nm inum); rewrite ?bool_decide_eq_true_2, ?bool_decide_eq_false_2 by tauto;
    destruct (Z.ltb_spec 0 (r + d)); cbn [andb]; lia.
Qed.

(** The only entry of an inode holds all its references. *)
Lemma refs_none t dev inum : (forall j z, t !! j = Some z -> active dev inum z = false) -> refs t dev inum = 0.
Proof.
  induction t as [|x t IH]; intros H; simpl; [done|].
  rewrite IH by (intros j z Hj; apply (H (S j)); done). unfold weight. by rewrite (H 0%nat x eq_refl).
Qed.

Lemma refs_active t i x :
  itable_ok t -> t !! i = Some x -> 0 < i_ref x -> refs t (i_dev x) (i_inum x) = i_ref x.
Proof.
  intros Hok Hi Hr. assert (Hx : active (i_dev x) (i_inum x) x = true) by (by apply active_true).
  assert (E : refs (<[i := set_i_ref 0 x]> t) (i_dev x) (i_inum x) = 0).
  { apply refs_none. intros j z Hj. destruct (decide (j = i)) as [->|Hne].
    - rewrite list_lookup_insert_eq in Hj by (by eapply lookup_lt_Some). simplify_eq. done.
    - rewrite list_lookup_insert_ne in Hj by done. destruct (active _ _ z) eqn:Hz; [|done].
      exfalso. apply Hne. by eapply (it_uniq _ Hok). }
  rewrite (refs_insert t i x) in E by done. unfold weight in E. rewrite Hx in E. simpl in E. lia.
Qed.

Lemma upd_inode_ok s i x f :
  k_itable s !! i = Some x -> upd_inode i f s = Ret tt (set_k_itable (<[i := f x]> (k_itable s)) s).
Proof. intros H. unfold upd_inode, get_inode, bind, modify. rewrite H. done. Qed.

(** What the search of [iget] returns. *)
Definition is_free (x : inode) : bool := i_ref x =? 0.
Definition first_free (t : list inode) : option nat := fst <$> list_find (fun x => is_free x = true) t.

Section Iget.
Context (s : kstate) (dev inum : Z).
Hypothesis Hc : cpu_ok s.
Hypothesis Hl : lock_free s LK_itable.
Let t := k_itable s.

(** The search from entry [i] on, none of the earlier ones being the inode's. *)
Lemma iget_loop_hit n i j x e :
  t !! j = Some x -> active dev inum x = true -> (i <= j < i + n)%nat ->
  (forall k z, t !! k = Some z -> (k < j)%nat -> active dev inum z = false) ->
  iget_loop n i dev inum e (enter LK_itable s) = Ret j (set_k_itable (<[j := set_i_ref (i_ref x + 1) x]> t) s).
Proof.
  revert i e. induction n as [|n IH]; intros i e Hj Hx Hr Hb; [lia|]. cbn [iget_loop].
  destruct (lookup_lt_is_Some_2 t i) as [y Hy]; [apply lookup_lt_Some in Hj; lia|].
  unfold get_inode, bind at 1. kproj. fold t. rewrite Hy. cbn [deref ret].
  destruct (decide (i = j)) as [->|Hne].
  - replace y with x in * by congruence. unfold active in Hx. rewrite Hx.
    run (upd_inode_ok (enter LK_itable s) j x (fun x => set_i_ref (i_ref x + 1) x) ltac:(by kproj)).
    leave. by kproj.
  - pose proof (Hb i y Hy ltac:(lia)) as Hf. unfold active in Hf. rewrite Hf. apply IH; auto. lia.
Qed.

Lemma iget_loop_miss n i e :
  (forall k z, t !! k = Some z -> active dev inum z = false) -> (i + n = length t)%nat ->
  e = first_free (take i t) ->
  iget_loop n i dev inum e (enter LK_itable s) =
    match first_free t with
    | None => Panic "iget: no inodes" (enter LK_itable s)
    | Some j => Ret j (set_k_itable (alter (fun x => set_i_valid false (set_i_ref 1 (set_i_inum inum (set_i_dev dev x)))) j t) s)
    end.
Proof.
  revert i e. induction n as [|n IH]; intros i e Hm Hlen ->; cbn [iget_loop].
  - rewrite take_ge by lia. destruct (first_free t) as [j|] eqn:Ej; [|done].
    unfold first_free in Ej. apply fmap_Some in Ej as ([j' x] & E & ->). apply list_find_Some in E as (Hj & _ & _).
    run (upd_inode_ok (enter LK_itable s) j' x (fun x => set_i_valid false (set_i_ref 1 (set_i_inum inum (set_i_dev dev x)))) ltac:(by kproj)).
    leave. kproj. fold t. f_equal. apply (f_equal (fun v => set_k_itable v s)).
    rewrite list_insert_alter. apply list_alter_ext; [|done]. intros y Hy. simpl in Hy. by simplify_eq.
  - destruct (lookup_lt_is_Some_2 t i) as [y Hy]; [lia|].
    unfold get_inode, bind at 1. kproj. fold t. rewrite Hy. cbn [deref ret].
    pose proof (Hm i y Hy) as Hf. unfold active in Hf. rewrite Hf. apply IH; [done|lia|].
    rewrite (take_S_r t i y) by done. unfold first_free.
    destruct (list_find (fun x => is_free x = true) (take i t)) as [[k z]|] eqn:E.
    + by rewrite (list_find_app_l _ _ _ _ _ E).
    + rewrite list_find_app_r by done. cbn [fmap option_fmap option_map].
      unfold list_find. unfold is_free. destruct (i_ref y =? 0) eqn:Ey.
      * rewrite decide_True by done. cbn. f_equal. rewrite length_take. lia.
      * by rewrite decide_False by done.
Qed.
End Iget.

(** The counts after one more (or one fewer) reference to [(dev, inum)]. *)
Definition refs_add (t t' : list inode) (dev inum d : Z) : Prop :=
  forall dv nm, refs t' dv nm = refs t dv nm + (if bool_decide (dev = dv /\ inum = nm) then d else 0).

Lemma active_set_ref x r dev inum : 0 < i_ref x -> active dev inum (set_i_ref r x) = true -> active dev inum x = true.
Proof. rewrite !active_true. by intros ? (_ & ? & ?). Qed.

Lemma change_ref t i x d :
  itable_ok t -> t !! i = Some x -> 0 < i_ref x -> 0 <= i_ref x + d ->
  itable_ok (<[i := set_i_ref (i_ref x + d) x]> t) /\
  refs_add t (<[i := set_i_ref (i_ref x + d) x]> t) (i_dev x) (i_inum x) d.
Proof.
  intros Hok Hi Hr Hd. split.
  - apply (itable_ok_insert t i x); auto. intros dev inum Ha. left. by eapply active_set_ref.
  - intros dv nm. rewrite (refs_insert t i x), weight_ref by done. lia.
Qed.

Lemma first_free_Some t j : first_free t = Some j -> exists x, t !! j = Some x /\ i_ref x = 0.
Proof.
  unfold first_free. intros E. apply fmap_Some in E as ([j' x] & E & ->). apply list_find_Some in E as (Hj & Hf & _).
  exists x. split; [done|]. by apply Z.eqb_eq.
Qed.

(** An idle entry taken for an inode that has none. *)
Lemma take_entry t j x dev inum :
  itable_ok t -> t !! j = Some x -> i_ref x = 0 -> (forall k z, t !! k = Some z -> active dev inum z = false) ->
  let y := set_i_valid false (set_i_ref 1 (set_i_inum inum (set_i_dev dev x))) in
  itable_ok (<[j := y]> t) /\ refs_add t (<[j := y]> t) dev inum 1.
Proof.
  intros Hok Hj Hx Hn y. split.
  - apply (itable_ok_insert t j x); auto; [done|]. intros dv nm Ha. apply active_true in Ha as (_ & <- & <-). by right.
  - intros dv nm. rewrite (refs_insert t j x) by done. unfold weight, active. rewrite Hx. cbn.
    destruct (Z.eqb_spec dev dv), (Z.eqb_spec inum nm);
      rewrite ?bool_decide_eq_true_2, ?bool_decide_eq_false_2 by tauto; cbn; lia.
Qed.

(** Either the inode has an entry, or none matches. *)
Lemma find_entry (t : list inode) dev inum :
  (exists j x, t !! j = Some x /\ active dev inum x = true /\
     forall k z, t !! k = Some z -> (k < j)%nat -> active dev inum z = false) \/
  (forall k z, t !! k = Some z -> active dev inum z = false).
Proof.
  destruct (list_find (fun x => active dev inum x = true) t) as [[j x]|] eqn:E.
  - left. apply list_find_Some in E as (Hj & Ha & Hb). exists j, x. split_and!; auto.
    intros k z Hk Hlt. apply not_true_is_false. by eapply Hb.
  - right. apply list_find_None in E. intros k z Hk. apply not_true_is_false.
    rewrite Forall_forall in E. apply E. by eapply list_elem_of_lookup_2.
Qed.

(** C27: [iget] refines "one more reference to inode [inum] of [dev]": when the
    inode is in the table, or an entry is idle, it returns an entry for exactly
    that inode, the table still has at most one entry per inode, the count of
    this inode has grown by one and no other count has changed. *)
Theorem iget_counts s dev inum :
  cpu_ok s -> lock_free s LK_itable -> itable_ok (k_itable s) ->
  (exists x, x ∈ k_itable s /\ (active dev inum x = true \/ i_ref x = 0)) ->
  exists i x t', iget dev inum s = Ret i (set_k_itable t' s) /\ itable_ok t' /\
    t' !! i = Some x /\ active dev inum x = true /\ refs_add (k_itable s) t' dev inum 1.
Proof.
  intros Hc Hl Hok Hex. unfold iget. setoid_rewrite (bind_Ret _ _ _ _ _ (acquire_free LK_itable s Hc Hl)).
  pose proof (it_len _ Hok) as Hlen. set (t := k_itable s) in *.
  destruct (find_entry t dev inum) as [(j & x & Hj & Ha & Hb)|Hn].
  - exists j, (set_i_ref (i_ref x + 1) x), (<[j := set_i_ref (i_ref x + 1) x]> t).
    apply active_true in Ha as (Hr & <- & <-). destruct (change_ref t j x 1) as [H1 H2]; [done|done|done|lia|].
    split_and!; auto.
    + apply iget_loop_hit; auto; [by apply active_true|]. apply lookup_lt_Some in Hj. lia.
    + apply list_lookup_insert_eq. by eapply lookup_lt_Some.
    + apply active_true. cbn. lia.
  - rewrite iget_loop_miss by (auto; lia). fold t. destruct (first_free t) as [j|] eqn:E.
    + destruct (first_free_Some t j E) as (x & Hj & Hx). destruct (take_entry t j x dev inum) as [H1 H2]; auto.
      exists j, (set_i_valid false (set_i_ref 1 (set_i_inum inum (set_i_dev dev x)))).
      eexists. split; [reflexivity|].
      replace (alter _ j t) with (<[j := set_i_valid false (set_i_ref 1 (set_i_inum inum (set_i_dev dev x)))]> t).
      * split_and!; auto; [|by apply active_true]. apply list_lookup_insert_eq. by eapply lookup_lt_Some.
      * rewrite list_insert_alter. apply list_alter_ext; [|done]. intros y Hy. by simplify_eq.
    + exfalso. unfold first_free in E. apply fmap_None, list_find_None in E. rewrite Forall_forall in E.
      destruct Hex as (x & Hx & [Ha|Hr0]).
      * apply list_elem_of_lookup in Hx as [k Hk]. by rewrite (Hn k x Hk) in Ha.
      * apply (E x Hx). by apply Z.eqb_eq.
Qed.

(** When every entry of the table is in use and none is the inode's,
    [iget] panics. *)
Theorem iget_full_panics s dev inum :
  cpu_ok s -> lock_free s LK_itable -> length (k_itable s) = NINODE ->
  Forall (fun x => 0 < i_ref x /\ active dev inum x = false) (k_itable s) ->
  iget dev inum s = Panic "iget: no inodes" (enter LK_itable s).
Proof.
  intros Hc Hl Hlen Hall. rewrite Forall_forall in Hall. unfold iget. run (acquire_free LK_itable s Hc Hl).
  rewrite iget_loop_miss; auto; [|intros k z Hk; apply Hall; by eapply list_elem_of_lookup_2].
  destruct (first_free (k_itable s)) as [j|] eqn:E; [|done].
  apply first_free_Some in E as (x & Hj & Hx). destruct (Hall x) as [H _]; [by eapply list_elem_of_lookup_2|]. lia.
Qed.

(** [idup] adds one reference to the inode it is given, and an [iput]
    that does not drop the last reference of an unlinked inode removes one;
    both keep the table well formed and leave everything else alone. *)
Theorem idup_iput_counts {W : Wakeups} {D : DiskDriver} s i x :
  cpu_ok s -> lock_free s LK_itable -> itable_ok (k_itable s) -> k_itable s !! i = Some x -> 0 < i_ref x ->
  (exists t', idup i s = Ret i (set_k_itable t' s) /\ itable_ok t' /\ refs_add (k_itable s) t' (i_dev x) (i_inum x) 1) /\
  ((i_ref x =? 1) && i_valid x && (i_nlink x =? 0) = false ->
   exists t', iput i s = Ret tt (set_k_itable t' s) /\ itable_ok t' /\ refs_add (k_itable s) t' (i_dev x) (i_inum x) (-1)).
Proof.
  intros Hc Hl Hok Hi Hr. split.
  - exists (<[i := set_i_ref (i_ref x + 1) x]> (k_itable s)). split; [|apply change_ref; auto; lia].
    unfold idup. run (acquire_free LK_itable s Hc Hl).
    run (upd_inode_ok (enter LK_itable s) i x (fun x => set_i_ref (i_ref x + 1) x) ltac:(by kproj)). leave. by kproj.
  - intros Hlast. exists (<[i := set_i_ref (i_ref x + -1) x]> (k_itable s)). split; [|apply change_ref; auto; lia].
    unfold iput. run (acquire_free LK_itable s Hc Hl). unfold get_inode at 1, bind at 1. kproj. rewrite Hi.
    cbn [deref ret]. rewrite Hlast. cbn [when]. unfold bind at 1. cbn [ret].
    run (upd_inode_ok (enter LK_itable s) i x (fun x => set_i_ref (i_ref x - 1) x) ltac:(by kproj)). leave. by kproj.
Qed.

(** * Inodes on the disk *)

Lemma put_addrs_length off l data :
  (off + 4 * length l <= length data)%nat -> length (put_addrs off l data) = length data.
Proof.
  revert off data. induction l as [|a l IH]; intros off data H; [done|]. cbn [put_addrs length] in *.
  rewrite IH; rewrite putle_length; lia.
Qed.

Lemma put_addrs_other off l data k a :
  (off + 4 * length l <= length data)%nat -> (a + k <= off \/ off + 4 * length l <= a)%nat ->
  getle k a (put_addrs off l data) = getle k a data.
Proof.
  revert off data. induction l as [|x l IH]; intros off data H Ha; [done|]. cbn [put_addrs length] in *.
  rewrite IH by (rewrite ?putle_length; lia). apply getle_putle_ne; lia.
Qed.

Lemma put_addrs_get off l data i a :
  (off + 4 * length l <= length data)%nat -> l !! i = Some a ->
  getle 4 (off + 4 * i) (put_addrs off l data) = u32 a.
Proof.
  revert off data i. induction l as [|x l IH]; intros off data i H Hi; [done|]. cbn [put_addrs length] in *.
  destruct i as [|i].
  - simplify_eq/=. rewrite put_addrs_other by (rewrite ?putle_length; lia).
    replace (off + 0)%nat with off by lia. by rewrite getle_putle by lia.
  - replace (off + 4 * S i)%nat with (off + 4 + 4 * i)%nat by lia. apply IH; [rewrite putle_length; lia|done].
Qed.

(** The values the fields of [struct dinode] can have. *)
Record dinode_wf (d : dinode) : Prop := {
  dw_type : - 2 ^ 15 <= di_type d < 2 ^ 15;
  dw_major : - 2 ^ 15 <= di_major d < 2 ^ 15;
  dw_minor : - 2 ^ 15 <= di_minor d < 2 ^ 15;
  dw_nlink : - 2 ^ 15 <= di_nlink d < 2 ^ 15;
  dw_size : 0 <= di_size d < 2 ^ 32;
  dw_addrs : length (di_addrs d) = (Z.to_nat NDIRECT + 1)%nat;
  dw_addr : Forall (fun a => 0 <= a < 2 ^ 32) (di_addrs d)
}.

Lemma i16_mod v : - 2 ^ 15 <= v < 2 ^ 15 -> i16 (v mod 256 ^ Z.of_nat 2) = v.
Proof.
  intros H. change (256 ^ Z.of_nat 2) with (2 ^ 16). unfold swrap. rewrite Zplus_mod_idemp_l.
  rewrite Z.mod_small; lia.
Qed.

Ltac in_block :=
  match goal with
  | |- context [length (putle ?k ?o ?v ?l)] => rewrite (putle_length k o v l) by in_block; in_block
  | |- context [length (put_addrs ?o ?a ?l)] => rewrite (put_addrs_length o a l) by in_block; in_block
  | |- _ => lia
  end.

(** Read through the assignments of [put_dinode]. *)
Ltac field_of :=
  repeat first [rewrite put_addrs_other by in_block
               |rewrite getle_putle_ne by in_block
               |rewrite getle_putle by in_block].

Lemma dinode_get_put off d data :
  dinode_wf d -> (off + Z.to_nat DINODE_SIZE <= length data)%nat -> get_dinode off (put_dinode off d data) = d.
Proof.
  intros [Ht Hma Hmi Hn Hs Hl Ha] Hlen. unfold get_dinode, put_dinode.
  assert (12 + 4 * length (di_addrs d) = Z.to_nat DINODE_SIZE)%nat by (rewrite Hl; lia).
  destruct d as [ty ma mi nl sz ad]; cbn [di_type di_major di_minor di_nlink di_size di_addrs] in *.
  f_equal; field_of; rewrite ?i16_mod by done; auto; [by apply Z.mod_small|].
  apply list_eq. intros i. rewrite list_lookup_fmap. destruct (ad !! i) as [a|] eqn:Ei.
  - assert (Hi : (i < Z.to_nat NDIRECT + 1)%nat) by (apply lookup_lt_Some in Ei; lia).
    rewrite lookup_seq_lt by done. cbn [fmap option_fmap option_map]. f_equal.
    rewrite (put_addrs_get _ ad _ _ a) by (done || in_block).
    apply wrap_small. by apply (proj1 (Forall_lookup _ _) Ha i).
  - apply lookup_ge_None in Ei. by rewrite lookup_seq_ge by lia.
Qed.

Lemma put_dinode_length off d data :
  dinode_wf d -> (off + Z.to_nat DINODE_SIZE <= length data)%nat -> length (put_dinode off d data) = length data.
Proof.
  intros Hd Hlen. pose proof (dw_addrs _ Hd). unfold put_dinode.
  in_block.
Qed.

Lemma dinode_get_put_ne off d data off' :
  dinode_wf d -> (off + Z.to_nat DINODE_SIZE <= length data)%nat ->
  (off' + Z.to_nat DINODE_SIZE <= off \/ off + Z.to_nat DINODE_SIZE <= off')%nat ->
  get_dinode off' (put_dinode off d data) = get_dinode off' data.
Proof.
  intros Hd Hlen Hne. pose proof (dw_addrs _ Hd) as Hl. unfold get_dinode, put_dinode.
  f_equal; field_of; auto. apply list_fmap_ext. intros i k Hk. apply lookup_seq in Hk as [-> Hk]. by field_of.
Qed.

Lemma dinode_off_bound inum : (dinode_off inum + Z.to_nat DINODE_SIZE <= Z.to_nat BSIZE)%nat.
Proof. unfold dinode_off. pose proof (Z.mod_pos_bound inum IPB ltac:(lia)). lia. Qed.

Lemma dinode_off_ne i j :
  i mod IPB <> j mod IPB ->
  (dinode_off i + Z.to_nat DINODE_SIZE <= dinode_off j \/ dinode_off j + Z.to_nat DINODE_SIZE <= dinode_off i)%nat.
Proof.
  unfold dinode_off. intros H. pose proof (Z.mod_pos_bound i IPB ltac:(lia)). pose proof (Z.mod_pos_bound j IPB ltac:(lia)).
  lia.
Qed.

(** An inode written into its slot of a block of inodes is read back field
    by field (16-bit signed type, device numbers and link count, 32-bit size
    and block numbers), the block keeps its length, and every other inode of
    the block is unchanged. *)
Theorem dinode_roundtrip inum d data :
  dinode_wf d -> length data = Z.to_nat BSIZE ->
  get_dinode (dinode_off inum) (put_dinode (dinode_off inum) d data) = d /\
  length (put_dinode (dinode_off inum) d data) = Z.to_nat BSIZE /\
  forall j, j mod IPB <> inum mod IPB ->
    get_dinode (dinode_off j) (put_dinode (dinode_off inum) d data) = get_dinode (dinode_off j) data.
Proof.
  intros Hd Hl. pose proof (dinode_off_bound inum) as Hb. rewrite <- Hl in Hb. split_and!.
  - by apply dinode_get_put.
  - by rewrite put_dinode_length.
  - intros j Hj. apply dinode_get_put_ne; auto. by apply dinode_off_ne.
Qed.

(** * Samples *)

Import (hints) Machine.

Lemma boot_itable_ok : itable_ok (k_itable boot).
Proof.
  constructor; [done|by apply Forall_replicate|].
  intros dev inum i j x y Hi _ Hx. apply lookup_replicate in Hi as [-> _]. done.
Qed.

Lemma iget_counts_witness : exists i t', iget 1 1 boot = Ret i (set_k_itable t' boot) /\ refs t' 1 1 = 1.
Proof.
  destruct (iget_counts boot 1 1) as (i & x & t' & E & _ & _ & _ & Hr).
  - exact boot_cpu_ok.
  - reflexivity.
  - exact boot_itable_ok.
  - exists zero_inode. split; [apply elem_of_replicate; split; [reflexivity|unfold NINODE; lia]|by right].
  - exists i, t'. split; [exact E|]. specialize (Hr 1 1). rewrite bool_decide_eq_true_2 in Hr by (split; reflexivity).
    rewrite Hr. vm_compute. reflexivity.
Defined.

(** A table with every entry in use. *)
Definition full_itable : list inode :=
  (fun k => set_i_ref 1 (set_i_inum (Z.of_nat k + 2) (set_i_dev 1 zero_inode))) <$> seq 0 NINODE.

Lemma iget_full_panics_witness :
  iget 1 1 (set_k_itable full_itable boot) = Panic "iget: no inodes" (enter LK_itable (set_k_itable full_itable boot)).
Proof.
  apply (iget_full_panics (set_k_itable full_itable boot) 1 1).
  - exact boot_cpu_ok.
  - reflexivity.
  - reflexivity.
  - cbn [k_itable set_k_itable]. unfold full_itable. apply Forall_fmap, Forall_forall. intros k _.
    split; [cbn; lia|]. apply not_true_is_false. rewrite active_true. cbn. lia.
Defined.

Lemma idup_iput_counts_witness :
  let s := set_k_itable (<[3%nat := set_i_ref 2 (set_i_inum 7 (set_i_dev 1 zero_inode))]> (k_itable boot)) boot in
  exists t', iput 3 s = Ret tt (set_k_itable t' s) /\ refs t' 1 7 = 1.
Proof.
  set (x := set_i_ref 2 (set_i_inum 7 (set_i_dev 1 zero_inode))). intros s.
  destruct (idup_iput_counts s 3 x) as [_ (t' & E & _ & Hr)].
  - exact boot_cpu_ok.
  - reflexivity.
  - apply (itable_ok_insert _ 3 zero_inode); [exact boot_itable_ok|reflexivity|cbn; lia|].
    intros dev inum _. right. intros j z Hj. apply lookup_replicate in Hj as [-> _]. reflexivity.
  - reflexivity.
  - cbn. lia.
  - reflexivity.
  - exists t'. split; [exact E|]. specialize (Hr 1 7). rewrite Hr. vm_compute. reflexivity.
Defined.

Lemma dinode_roundtrip_witness :
  let d := mk_dinode T_FILE 0 (-1) 1 1024 (100 :: replicate 12 0) in
  get_dinode (dinode_off 3) (put_dinode (dinode_off 3) d zero_block) = d.
Proof.
  intros d. apply (dinode_roundtrip 3 d zero_block); [|reflexivity].
  constructor; cbn; try lia. repeat (constructor; [lia|]). constructor.
Defined.
