(* ===== verification/Mkfs.v ===== *)
(** mkfs/mkfs.c: the program that builds the disk image on the host.

    The state is the image file, as the sectors written so far, and the two
    allocation counters.  A file of the host is what [open] and the successive
    calls of [read] give.  [die] and a failing [assert] end the program: they
    are [Panic].  The host is little endian, as the build's hosts are, and its
    image file is truncated by [open]; what the program prints is left out.

    Specification: the type of the image, kept by every run to its end; what
    [iappend] does to the file it appends to; and what the kernel finds on the
    finished image. *)

From S2P Require Import Prelude Types Memory Spinlock Vm Sched Sleeplock Bio Uart Printf Block Log LogSpec Txn Crash Fs FsSpec Inode.
Local Open Scope c_scope.

(** * The program *)

Definition NINODES : Z := 200.

(** Disk layout: boot block, super block, log, inode blocks, free bit map, data
    blocks. *)
Definition nbitmap : Z := FSSIZE / BPB + 1.
Definition ninodeblocks : Z := NINODES / IPB + 1.
Definition nlog : Z := LOGBLOCKS.
Definition nmeta : Z := 2 + nlog + ninodeblocks + nbitmap.
Definition nblocks : Z := FSSIZE - nmeta.

(** [m_sects] and [m_size]: the image file and its size in sectors; a sector
    that was skipped reads as zeros.  [m_limit]: the sectors the host has room
    for. *)
Record mkfs := mk_mkfs {
  m_sects : gmap Z (list Z);
  m_size : Z;
  m_limit : Z;
  m_freeinode : Z;
  m_freeblock : Z;
}.

Definition sect (s : mkfs) (b : Z) : list Z := default zero_block (m_sects s !! b).
Definition set_sect (b : Z) (l : list Z) (s : mkfs) : mkfs :=
  mk_mkfs (<[b := l]> (m_sects s)) (Z.max (m_size s) (b + 1)) (m_limit s) (m_freeinode s) (m_freeblock s).
Definition set_freeinode (x : Z) (s : mkfs) : mkfs :=
  mk_mkfs (m_sects s) (m_size s) (m_limit s) x (m_freeblock s).
Definition set_freeblock (x : Z) (s : mkfs) : mkfs :=
  mk_mkfs (m_sects s) (m_size s) (m_limit s) (m_freeinode s) x.

(** Byte by byte into the riscv order, which is the host's. *)
Definition xshort (x : Z) : Z := le_dec [u8 x; u8 (Z.shiftr x 8)].
Definition xint (x : Z) : Z := le_dec [u8 x; u8 (Z.shiftr x 8); u8 (Z.shiftr x 16); u8 (Z.shiftr x 24)].

Definition mkfs_sb : superblock :=
  mk_superblock FSMAGIC (xint FSSIZE) (xint nblocks) (xint NINODES) (xint nlog) (xint 2) (xint (2 + nlog))
    (xint (2 + nlog + ninodeblocks)).

(** The sector at the file position [sec * BSIZE], a [uint]. *)
Definition lseek_sect (sec : Z) : Z := u32 (sec * BSIZE) / BSIZE.

Definition wsect (sec : Z) (buf : list Z) : M mkfs unit :=
  limit <- gets m_limit ;;
  if negb (lseek_sect sec <? limit) then panic "write" else
  modify (set_sect (lseek_sect sec) buf).

Definition rsect (sec : Z) : M mkfs (list Z) :=
  size <- gets m_size ;;
  if negb (lseek_sect sec <? size) then panic "read" else
  gets (fun s => sect s (lseek_sect sec)).

Definition winode (inum : Z) (ip : dinode) : M mkfs unit :=
  let bn := IBLOCK inum mkfs_sb in
  buf <- rsect bn ;;
  wsect bn (put_dinode (dinode_off inum) ip buf).

Definition rinode (inum : Z) : M mkfs dinode :=
  let bn := IBLOCK inum mkfs_sb in
  buf <- rsect bn ;;
  ret (get_dinode (dinode_off inum) buf).

(** The [ushort] and [uint] values [xshort] and [xint] give are stored in
    [short] and [uint] fields. *)
Definition mkfs_ialloc (type : Z) : M mkfs Z :=
  inum <- gets m_freeinode ;;
  modify (set_freeinode (u32 (inum + 1))) ;;
  winode inum (mk_dinode (i16 (xshort type)) 0 0 (i16 (xshort 1)) (xint 0) (replicate (Z.to_nat NDIRECT + 1) 0)) ;;
  ret inum.

(** [for (i = 0; i < used; i++)], with [n] to go *)
Fixpoint balloc_bits (n : nat) (i : Z) (buf : list Z) : list Z :=
  match n with O => buf | S n => balloc_bits n (i + 1) (set_bit i buf) end.

Definition mkfs_balloc (used : Z) : M mkfs unit :=
  if negb (used <? BPB) then panic "used < BPB" else
  wsect (sb_bmapstart mkfs_sb) (balloc_bits (Z.to_nat used) 0 zero_block).

(** [freeblock++] *)
Definition next_block : M mkfs Z :=
  x <- gets m_freeblock ;;
  modify (set_freeblock (u32 (x + 1))) ;;
  ret x.

(** The block number of block [fbn] of the file, allocated if there is none:
    the branches of the loop of [iappend] up to [x]. *)
Definition iappend_block (din : dinode) (fbn : Z) : M mkfs (dinode * Z) :=
  let addr k din := nth (Z.to_nat k) (di_addrs din) 0 in
  let alloc k :=
    if xint (addr k din) =? 0 then
      b <- next_block ;; ret (set_di_addrs (<[Z.to_nat k := xint b]> (di_addrs din)) din)
    else ret din in
  if fbn <? NDIRECT then
    din <- alloc fbn ;;
    ret (din, xint (addr fbn din))
  else
    din <- alloc NDIRECT ;;
    indirect <- rsect (xint (addr NDIRECT din)) ;;
    indirect <- (if uint_at (fbn - NDIRECT) indirect =? 0 then
        b <- next_block ;;
        let indirect := put_uint (fbn - NDIRECT) (xint b) indirect in
        wsect (xint (addr NDIRECT din)) indirect ;;
        ret indirect
      else ret indirect) ;;
    ret (din, xint (uint_at (fbn - NDIRECT) indirect)).

(** [while (n > 0)], [n] the bytes [p] that are left *)
Fixpoint iappend_loop (fuel : nat) (din : dinode) (off : Z) (p : list Z) : M mkfs (dinode * Z) :=
  match fuel with
  | O => nofuel
  | S fuel =>
      let n := Z.of_nat (length p) in
      if negb (0 <? n) then ret (din, off) else
      let fbn := off / BSIZE in
      if negb (fbn <? MAXFILE) then panic "fbn < MAXFILE" else
      '(din, x) <- iappend_block din fbn ;;
      let n1 := Z.min n (u32 (u32 ((fbn + 1) * BSIZE) - off)) in
      buf <- rsect x ;;
      wsect x (splice (Z.to_nat (off - fbn * BSIZE)) (take (Z.to_nat n1) p) buf) ;;
      iappend_loop fuel din (u32 (off + n1)) (drop (Z.to_nat n1) p)
  end.

(** Every turn takes at least a byte, so [length p] turns are enough. *)
Definition iappend (inum : Z) (p : list Z) : M mkfs unit :=
  din <- rinode inum ;;
  '(din, off) <- iappend_loop (S (length p)) din (xint (di_size din)) p ;;
  winode inum (set_di_size (xint off) din).

Definition dirent (inum : Z) (name : list Z) : list Z :=
  le_enc 2 (xshort inum) ++ strncpy_list (Z.to_nat DIRSIZ) name.

(** [while ((cc = read(fd, buf, sizeof(buf))) > 0)] *)
Fixpoint iappend_chunks (inum : Z) (chunks : list (list Z)) : M mkfs unit :=
  match chunks with
  | [] | [] :: _ => ret tt
  | buf :: chunks => iappend inum buf ;; iappend_chunks inum chunks
  end.

(** "user/" *)
Definition user_dir : list Z := [117; 115; 101; 114; 47].
Definition shortname_of (arg : list Z) : list Z :=
  if strncmp_list 5 arg user_dir =? 0 then drop 5 arg else arg.

(** The body of [for (i = 2; i < argc; i++)].  [chunks]: what reading the file
    gives, [None] if it does not open. *)
Definition mkfs_file (rootino : Z) (arg : list Z * option (list (list Z))) : M mkfs unit :=
  let shortname := shortname_of (fst arg) in
  if existsb (Z.eqb 47) shortname then panic "index(shortname, '/') == 0" else
  match snd arg with
  | None => panic "open"
  | Some chunks =>
      let shortname := if nth 0 shortname 0 =? 95 then drop 1 shortname else shortname in
      if negb (Z.of_nat (length shortname) <=? DIRSIZ) then panic "strlen(shortname) <= DIRSIZ" else
      inum <- mkfs_ialloc T_FILE ;;
      iappend rootino (dirent inum shortname) ;;
      iappend_chunks inum chunks
  end.

Fixpoint mkfs_files (rootino : Z) (args : list (list Z * option (list (list Z)))) : M mkfs unit :=
  match args with
  | [] => ret tt
  | arg :: args => mkfs_file rootino arg ;; mkfs_files rootino args
  end.

(** [for (i = 0; i < FSSIZE; i++) wsect(i, zeroes)] *)
Fixpoint zero_sects (n : nat) (i : Z) : M mkfs unit :=
  match n with O => ret tt | S n => wsect i zero_block ;; zero_sects n (i + 1) end.

(** [memmove(buf, &sb, sizeof(sb))] *)
Definition put_sb (sb : superblock) (buf : list Z) : list Z :=
  splice 0 (concat (le_enc 4 <$> [sb_magic sb; sb_size sb; sb_nblocks sb; sb_ninodes sb; sb_nlog sb; sb_logstart sb;
    sb_inodestart sb; sb_bmapstart sb])) buf.

(** [fsfd]: whether the image file opens, [None] if no name is given for it.
    The result is the status the program exits with. *)
Definition mkfs_main (fsfd : option bool) (args : list (list Z * option (list (list Z)))) : M mkfs Z :=
  match fsfd with
  | None => ret 1
  | Some false => panic "open"
  | Some true =>
      modify (set_freeblock nmeta) ;;
      zero_sects (Z.to_nat FSSIZE) 0 ;;
      wsect 1 (put_sb mkfs_sb zero_block) ;;
      rootino <- mkfs_ialloc T_DIR ;;
      if negb (rootino =? ROOTINO) then panic "rootino == ROOTINO" else
      iappend rootino (dirent rootino [46]) ;;
      iappend rootino (dirent rootino [46; 46]) ;;
      mkfs_files rootino args ;;
      din <- rinode rootino ;;
      let off := xint (di_size din) in
      let off := u32 ((off / BSIZE + 1) * BSIZE) in
      winode rootino (set_di_size (xint off) din) ;;
      used <- gets m_freeblock ;;
      mkfs_balloc (i32 used) ;;
      ret 0
  end.

(** The state [mkfs] starts in, on a host with room for [limit] sectors. *)
Definition mkfs0 (limit : Z) : mkfs := mk_mkfs ∅ 0 limit 1 0.

(** * Encodings *)

Lemma xint_id x : 0 <= x < 2 ^ 32 -> xint x = x.
Proof.
  intros H. transitivity (le_dec (le_enc 4 x)).
  - unfold xint. f_equal. cbn [le_enc]. rewrite !Z.shiftr_div_pow2, !Z.div_div by lia. done.
  - rewrite le_dec_enc. by apply Z.mod_small.
Qed.

Lemma xshort_id x : 0 <= x < 2 ^ 16 -> xshort x = x.
Proof.
  intros H. transitivity (le_dec (le_enc 2 x)).
  - unfold xshort. f_equal. cbn [le_enc]. by rewrite !Z.shiftr_div_pow2 by lia.
  - rewrite le_dec_enc. by apply Z.mod_small.
Qed.

Lemma xint_range x : 0 <= xint x < 2 ^ 32.
Proof.
  unfold xint. apply (le_dec_range [_; _; _; _]). repeat constructor; apply (wrap_range 8); lia.
Qed.

Lemma lseek_sect_id b : 0 <= b < 2 ^ 22 -> lseek_sect b = b.
Proof.
  intros H. unfold lseek_sect. rewrite wrap_small by (unfold BSIZE; lia). apply Z.div_mul. done.
Qed.

(** * The type of the image *)

(** A sector is [BSIZE] bytes. *)
Definition block_ok (l : list Z) : Prop := length l = Z.to_nat BSIZE /\ Forall byte_ok l.

Record image_ok (s : mkfs) : Prop := {
  io_sects : map_Forall (fun _ l => block_ok l) (m_sects s);
  io_freeblock : 0 <= m_freeblock s < 2 ^ 32;
  io_freeinode : 0 <= m_freeinode s < 2 ^ 32
}.

(** [m] ends, by returning a value in [P] or by dying, and the image is still
    well typed. *)
Definition keeps {A} (P : A -> Prop) (m : M mkfs A) : Prop :=
  forall s, image_ok s ->
  match m s with Ret a s' => image_ok s' /\ P a | Panic _ s' => image_ok s' | _ => False end.

Lemma keeps_ret {A} (P : A -> Prop) a : P a -> keeps P (ret a).
Proof. intros H s Hs. by split. Qed.

Lemma keeps_panic {A} (P : A -> Prop) msg : keeps P (panic msg).
Proof. intros s Hs. done. Qed.

Lemma keeps_bind {A B} (Q : A -> Prop) (P : B -> Prop) m k :
  keeps Q m -> (forall a, Q a -> keeps P (k a)) -> keeps P (bind m k).
Proof.
  intros Hm Hk s Hs. specialize (Hm s Hs). unfold bind. destruct (m s) as [a s'|msg s'| | | |]; try done.
  destruct Hm as [Hs' Ha]. by apply Hk.
Qed.

Lemma keeps_gets {A} (P : A -> Prop) f : (forall s, image_ok s -> P (f s)) -> keeps P (gets f).
Proof. intros H s Hs. split; auto. Qed.

Lemma keeps_modify (f : mkfs -> mkfs) : (forall s, image_ok s -> image_ok (f s)) -> keeps (fun _ => True) (modify f).
Proof. intros H s Hs. split; auto. Qed.

Create HintDb mkfs discriminated.

Lemma zero_block_ok : block_ok zero_block.
Proof. split; [done|]. apply Forall_replicate. unfold byte_ok. lia. Qed.

Lemma sect_ok s b : image_ok s -> block_ok (sect s b).
Proof.
  intros Hs. unfold sect. destruct (m_sects s !! b) eqn:E; [by apply (io_sects s Hs b)|apply zero_block_ok].
Qed.

Lemma splice_ok off x l :
  block_ok l -> Forall byte_ok x -> (off + length x <= Z.to_nat BSIZE)%nat -> block_ok (splice off x l).
Proof.
  intros [Hl Hb] Hx Ho. split; [by rewrite splice_length by lia|].
  unfold splice. rewrite !Forall_app. auto using Forall_take, Forall_drop.
Qed.

Lemma putle_ok k off v l : block_ok l -> (off + k <= Z.to_nat BSIZE)%nat -> block_ok (putle k off v l).
Proof. intros Hl Ho. apply splice_ok; [done|apply le_enc_bytes|by rewrite length_le_enc]. Qed.

Lemma put_addrs_ok off a l : block_ok l -> (off + 4 * length a <= Z.to_nat BSIZE)%nat -> block_ok (put_addrs off a l).
Proof.
  revert off l. induction a as [|x a IH]; intros off l Hl Ho; [done|]. cbn [put_addrs length] in *.
  apply IH; [apply putle_ok; [done|]|]; lia.
Qed.

Lemma put_dinode_ok inum d l : block_ok l -> dinode_wf d -> block_ok (put_dinode (dinode_off inum) d l).
Proof.
  intros Hl Hd. pose proof (dinode_off_bound inum). pose proof (dw_addrs d Hd).
  unfold put_dinode. apply put_addrs_ok; [repeat (apply putle_ok; [|lia]); done|lia].
Qed.

Lemma getle_range k off l : Forall byte_ok l -> 0 <= getle k off l < 256 ^ Z.of_nat k.
Proof.
  intros Hl. unfold getle. destruct (le_dec_range (take k (drop off l))) as [H0 H1]; [auto using Forall_take, Forall_drop|].
  split; [done|]. eapply Z.lt_le_trans; [done|]. apply Z.pow_le_mono_r; [lia|]. rewrite length_take. lia.
Qed.

Lemma i16_range z : - 2 ^ 15 <= i16 z < 2 ^ 15.
Proof. unfold swrap. pose proof (Z.mod_pos_bound (z + 2 ^ (16 - 1)) (2 ^ 16)). lia. Qed.

Lemma get_dinode_wf off l : Forall byte_ok l -> dinode_wf (get_dinode off l).
Proof.
  intros Hl. constructor; cbn [get_dinode di_type di_major di_minor di_nlink di_size di_addrs]; auto using i16_range.
  - by apply (getle_range 4).
  - apply Forall_fmap, Forall_forall. intros k _. by apply (getle_range 4).
Qed.

Lemma set_size_wf d x : dinode_wf d -> 0 <= x < 2 ^ 32 -> dinode_wf (set_di_size x d).
Proof. intros [] Hx. by constructor. Qed.

Lemma set_addr_wf d k x : dinode_wf d -> 0 <= x < 2 ^ 32 -> dinode_wf (set_di_addrs (<[k := x]> (di_addrs d)) d).
Proof. intros [] Hx. constructor; cbn [set_di_addrs di_addrs]; try done; [by rewrite length_insert|by apply Forall_insert]. Qed.

#[export] Hint Resolve zero_block_ok put_dinode_ok set_size_wf set_addr_wf xint_range keeps_ret keeps_panic : mkfs.

Lemma keeps_wsect sec buf : block_ok buf -> keeps (fun _ => True) (wsect sec buf).
Proof.
  intros Hb. unfold wsect. eapply (keeps_bind (fun _ => True)); [by apply keeps_gets|]. intros limit _.
  case_match; [auto with mkfs|]. apply keeps_modify. intros s []. constructor; try done.
  by apply map_Forall_insert_2.
Qed.

Lemma keeps_rsect sec : keeps block_ok (rsect sec).
Proof.
  unfold rsect. eapply (keeps_bind (fun _ => True)); [by apply keeps_gets|]. intros size _.
  case_match; [auto with mkfs|]. apply keeps_gets. intros s Hs. by apply sect_ok.
Qed.

Lemma keeps_rinode inum : keeps dinode_wf (rinode inum).
Proof.
  eapply keeps_bind; [apply keeps_rsect|]. intros buf [_ Hb]. apply keeps_ret. by apply get_dinode_wf.
Qed.

Lemma keeps_winode inum d : dinode_wf d -> keeps (fun _ => True) (winode inum d).
Proof. intros Hd. eapply keeps_bind; [apply keeps_rsect|]. intros buf Hb. apply keeps_wsect. auto with mkfs. Qed.

#[export] Hint Resolve keeps_wsect keeps_rsect keeps_rinode keeps_winode : mkfs.

Lemma keeps_next_block : keeps (fun x => 0 <= x < 2 ^ 32) next_block.
Proof.
  unfold next_block. eapply (keeps_bind (fun x => 0 <= x < 2 ^ 32)); [apply keeps_gets; by intros s []|]. intros x Hx.
  eapply keeps_bind; [|intros _ _; by apply keeps_ret]. apply keeps_modify. intros s [].
  constructor; try done. by apply (wrap_range 32).
Qed.

Lemma keeps_ialloc type : keeps (fun _ => True) (mkfs_ialloc type).
Proof.
  unfold mkfs_ialloc. eapply (keeps_bind (fun _ => True)); [by apply keeps_gets|]. intros inum _.
  eapply keeps_bind; [apply keeps_modify; intros s []; constructor; try done; by apply (wrap_range 32)|]. intros _ _.
  eapply keeps_bind; [|intros _ _; by apply keeps_ret]. apply keeps_winode.
  constructor; cbn [di_type di_major di_minor di_nlink di_size di_addrs]; auto using i16_range, xint_range; try lia.
  apply Forall_replicate. lia.
Qed.

#[export] Hint Resolve keeps_next_block keeps_ialloc : mkfs.

Definition is_block_of (r : dinode * Z) : Prop := dinode_wf (fst r).

Lemma keeps_block din fbn :
  dinode_wf din -> 0 <= fbn < MAXFILE -> keeps is_block_of (iappend_block din fbn).
Proof.
  intros Hd Hf. unfold iappend_block.
  assert (Halloc : forall k, keeps dinode_wf
    (if xint (nth (Z.to_nat k) (di_addrs din) 0) =? 0
     then b <- next_block ;; ret (set_di_addrs (<[Z.to_nat k := xint b]> (di_addrs din)) din) else ret din)).
  { intros k. case_match; [|auto with mkfs]. eapply keeps_bind; [auto with mkfs|]. intros b _. auto with mkfs. }
  destruct (Z.ltb_spec fbn NDIRECT).
  - eapply keeps_bind; [apply Halloc|]. intros d Hd'. by apply keeps_ret.
  - eapply keeps_bind; [apply Halloc|]. intros d Hd'. eapply keeps_bind; [auto with mkfs|]. intros ind Hi.
    eapply (keeps_bind block_ok); [|intros ind' _; by apply keeps_ret].
    case_match; [|auto with mkfs]. eapply keeps_bind; [auto with mkfs|]. intros b _.
    assert (block_ok (put_uint (fbn - NDIRECT) (xint b) ind)) by (apply putle_ok; [done|unfold MAXFILE in Hf; lia]).
    eapply keeps_bind; [auto with mkfs|]. intros _ _. auto with mkfs.
Qed.

(** The bytes a turn of the loop takes: what fits in the block. *)
Lemma turn_size off n :
  0 <= off -> off / BSIZE < MAXFILE -> 0 < n ->
  0 < Z.min n (u32 (u32 ((off / BSIZE + 1) * BSIZE) - off)) /\
  Z.min n (u32 (u32 ((off / BSIZE + 1) * BSIZE) - off)) = Z.min n (BSIZE - off mod BSIZE).
Proof.
  intros Ho Hf Hn. pose proof (Z.div_mod off BSIZE ltac:(done)). pose proof (Z.mod_pos_bound off BSIZE ltac:(done)).
  pose proof (Z.div_pos off BSIZE Ho ltac:(done)). rewrite wrap_sub_l.
  replace ((off / BSIZE + 1) * BSIZE - off) with (BSIZE - off mod BSIZE) by lia.
  rewrite wrap_small by lia. lia.
Qed.

Lemma keeps_iappend_loop fuel din off p :
  (length p < fuel)%nat -> dinode_wf din -> 0 <= off < 2 ^ 32 -> Forall byte_ok p ->
  keeps (fun r => dinode_wf (fst r)) (iappend_loop fuel din off p).
Proof.
  revert din off p. induction fuel as [|fuel IH]; intros din off p Hl Hd Ho Hp; [lia|]. cbn [iappend_loop].
  destruct (Z.ltb_spec 0 (Z.of_nat (length p))) as [Hn|]; cbn [negb]; [|auto with mkfs].
  destruct (Z.ltb_spec (off / BSIZE) MAXFILE) as [Hf|]; cbn [negb]; [|auto with mkfs].
  destruct (turn_size off (Z.of_nat (length p)) ltac:(lia) Hf Hn) as [H1 E1].
  pose proof (Z.div_mod off BSIZE ltac:(done)). pose proof (Z.mod_pos_bound off BSIZE ltac:(done)).
  pose proof (Z.div_pos off BSIZE ltac:(lia) ltac:(done)). set (n1 := Z.min _ _) in *.
  eapply keeps_bind; [by apply keeps_block|]. intros [d x] Hd'.
  eapply keeps_bind; [auto with mkfs|]. intros buf Hb. eapply keeps_bind.
  - apply keeps_wsect, splice_ok; [done|by apply Forall_take|]. rewrite length_take. lia.
  - intros _ _. apply IH; [rewrite length_drop; lia|done|by apply (wrap_range 32)|by apply Forall_drop].
Qed.

Lemma keeps_iappend inum p : Forall byte_ok p -> keeps (fun _ => True) (iappend inum p).
Proof.
  intros Hp. eapply keeps_bind; [auto with mkfs|]. intros d Hd. eapply keeps_bind.
  - apply keeps_iappend_loop; auto with mkfs.
  - intros [d' off] Hd'. auto with mkfs.
Qed.

Lemma strncpy_list_bytes n t : Forall byte_ok t -> Forall byte_ok (strncpy_list n t).
Proof.
  revert t. induction n as [|n IH]; intros t Ht; [constructor|]. cbn [strncpy_list]. case_match.
  - apply Forall_replicate. unfold byte_ok. lia.
  - constructor; [|apply IH; destruct Ht; [constructor|done]].
    destruct Ht; [unfold byte_ok; cbn; lia|done].
Qed.

Lemma dirent_bytes inum name : Forall byte_ok name -> Forall byte_ok (dirent inum name).
Proof. intros H. apply Forall_app. split; [apply le_enc_bytes|by apply strncpy_list_bytes]. Qed.

(** An argument of [main] whose name, and whose contents if it opens, are bytes. *)
Definition arg_ok (arg : list Z * option (list (list Z))) : Prop :=
  Forall byte_ok (fst arg) /\ forall chunks, snd arg = Some chunks -> Forall (Forall byte_ok) chunks.

Lemma shortname_bytes l : Forall byte_ok l -> Forall byte_ok (shortname_of l).
Proof. intros H. unfold shortname_of. case_match; [by apply Forall_drop|done]. Qed.

#[export] Hint Resolve keeps_iappend dirent_bytes shortname_bytes Forall_drop : mkfs.

Lemma keeps_chunks inum chunks : Forall (Forall byte_ok) chunks -> keeps (fun _ => True) (iappend_chunks inum chunks).
Proof.
  induction 1 as [|c cs Hc _ IH]; [by apply keeps_ret|]. cbn [iappend_chunks]. destruct c as [|a c]; [by apply keeps_ret|].
  eapply keeps_bind; auto with mkfs.
Qed.

Lemma keeps_file rootino arg : arg_ok arg -> keeps (fun _ => True) (mkfs_file rootino arg).
Proof.
  intros [Hn Hc]. unfold mkfs_file. case_match; [auto with mkfs|]. destruct (snd arg) as [chunks|]; [|auto with mkfs].
  set (name := if _ =? 95 then _ else _).
  assert (Forall byte_ok name) by (unfold name; case_match; auto with mkfs).
  case_match; [auto with mkfs|]. eapply keeps_bind; [auto with mkfs|]. intros inum _.
  eapply keeps_bind; [auto with mkfs|]. intros _ _. apply keeps_chunks. auto.
Qed.

Lemma keeps_files rootino args : Forall arg_ok args -> keeps (fun _ => True) (mkfs_files rootino args).
Proof.
  induction 1 as [|arg args Ha _ IH]; [by apply keeps_ret|]. eapply keeps_bind; [by apply keeps_file|]. auto.
Qed.

Lemma keeps_zero n i : keeps (fun _ => True) (zero_sects n i).
Proof.
  revert i. induction n as [|n IH]; intros i; [by apply keeps_ret|]. eapply keeps_bind; auto with mkfs.
Qed.

Lemma set_bit_ok i l : block_ok l -> block_ok (set_bit i l).
Proof.
  intros [Hl Hb]. split; [unfold set_bit, put_byte; by rewrite length_insert|].
  apply Forall_insert; [done|]. apply (wrap_range 8). lia.
Qed.

Lemma balloc_bits_ok n i l : block_ok l -> block_ok (balloc_bits n i l).
Proof. revert i l. induction n as [|n IH]; intros i l H; [done|]. cbn [balloc_bits]. apply IH. by apply set_bit_ok. Qed.

Lemma put_sb_ok sb : block_ok (put_sb sb zero_block).
Proof.
  apply splice_ok; [auto with mkfs| |].
  - apply Forall_concat, Forall_fmap, Forall_forall. intros x _. apply le_enc_bytes.
  - cbn [concat fmap list_fmap]. rewrite !length_app, !length_le_enc. cbn. lia.
Qed.

(** C33: whatever its arguments and whatever room the host has, [mkfs] ends, by
    exiting or by dying, and the image it leaves is a sequence of sectors of
    [BSIZE] bytes each. *)
Theorem mkfs_image_type fsfd args limit :
  Forall arg_ok args ->
  exists s, ((exists status, mkfs_main fsfd args (mkfs0 limit) = Ret status s) \/
             (exists msg, mkfs_main fsfd args (mkfs0 limit) = Panic msg s)) /\
    map_Forall (fun _ l => length l = Z.to_nat BSIZE /\ Forall byte_ok l) (m_sects s).
Proof.
  intros Ha. assert (H : keeps (fun _ => True) (mkfs_main fsfd args)).
  { unfold mkfs_main. destruct fsfd as [[]|]; [|auto with mkfs..].
    eapply keeps_bind; [apply keeps_modify; intros s []; constructor; [done| |done]; split; vm_compute; done|]. intros _ _.
    eapply keeps_bind; [apply keeps_zero|]. intros _ _.
    eapply keeps_bind; [apply keeps_wsect, put_sb_ok|]. intros _ _.
    eapply keeps_bind; [auto with mkfs|]. intros r _. case_match; [auto with mkfs|].
    eapply keeps_bind; [apply keeps_iappend, dirent_bytes; repeat constructor; lia|]. intros _ _.
    eapply keeps_bind; [apply keeps_iappend, dirent_bytes; repeat constructor; lia|]. intros _ _.
    eapply keeps_bind; [by apply keeps_files|]. intros _ _.
    eapply keeps_bind; [auto with mkfs|]. intros d Hd.
    eapply keeps_bind; [auto with mkfs|]. intros _ _.
    eapply (keeps_bind (fun _ => True)); [by apply keeps_gets|]. intros u _.
    eapply (keeps_bind (fun _ => True)); [|auto with mkfs]. unfold mkfs_balloc. case_match; [auto with mkfs|].
    apply keeps_wsect, balloc_bits_ok, zero_block_ok. }
  assert (I : image_ok (mkfs0 limit)) by (constructor; [apply map_Forall_empty|cbn; lia..]).
  specialize (H _ I). destruct (mkfs_main fsfd args (mkfs0 limit)) as [st s|msg s| | | |]; try done.
  - exists s. split; [eauto|]. destruct H as [[] _]. done.
  - exists s. split; [eauto|]. by destruct H.
Qed.

Lemma mkfs_image_type_witness :
  Forall arg_ok [([99; 97; 116], Some [[1; 2; 3]]); ([108; 115], None)] /\
  exists s, ((exists status, mkfs_main (Some true) [([99; 97; 116], Some [[1; 2; 3]]); ([108; 115], None)] (mkfs0 1990)
                = Ret status s) \/
             (exists msg, mkfs_main (Some true) [([99; 97; 116], Some [[1; 2; 3]]); ([108; 115], None)] (mkfs0 1990)
                = Panic msg s)) /\
    map_Forall (fun _ l => length l = Z.to_nat BSIZE /\ Forall byte_ok l) (m_sects s).
Proof.
  assert (H : Forall arg_ok [([99; 97; 116], Some [[1; 2; 3]]); ([108; 115], None)]).
  { repeat constructor; try (unfold byte_ok; lia); [intros c [= <-]; repeat constructor; unfold byte_ok; lia|done]. }
  split; [exact H|]. exact (mkfs_image_type (Some true) _ 1990 H).
Defined.

(** * Files on the image *)

(** A file: its type, the size its inode gives, its bytes, its data blocks and
    its indirect block, 0 if it has none. *)
Record file := mk_file { f_type : Z; f_size : Z; f_data : list Z; f_blks : list Z; f_ind : Z }.

Definition ND : nat := Z.to_nat NDIRECT.
Definition BS : nat := Z.to_nat BSIZE.

Definition addrs_of (blks : list Z) (ind : Z) : list Z := ((fun k => nth k blks 0) <$> seq 0 ND) ++ [ind].
Definition din_of (f : file) : dinode :=
  mk_dinode (f_type f) 0 0 1 (f_size f) (addrs_of (f_blks f) (f_ind f)).
(** The blocks of a file, in the order they are allocated in. *)
Definition file_blocks (f : file) : list Z :=
  take ND (f_blks f) ++ (if f_ind f =? 0 then [] else f_ind f :: drop ND (f_blks f)).
Definition grow (fb : Z) (f : file) : file :=
  if (length (f_blks f) =? ND)%nat then mk_file (f_type f) (f_size f) (f_data f) (f_blks f ++ [fb + 1]) fb
  else mk_file (f_type f) (f_size f) (f_data f) (f_blks f ++ [fb]) (f_ind f).
Definition put_data (c : list Z) (f : file) : file := mk_file (f_type f) (f_size f) (f_data f ++ c) (f_blks f) (f_ind f).
Definition with_size (n : Z) (f : file) : file := mk_file (f_type f) n (f_data f) (f_blks f) (f_ind f).

(** The sectors [C] hold the file: past its end its blocks are zeros. *)
Record file_rep (C : Z -> list Z) (f : file) : Prop := {
  fr_max : (length (f_blks f) <= Z.to_nat MAXFILE)%nat;
  fr_ind : f_ind f = 0 <-> (length (f_blks f) <= ND)%nat;
  fr_tbl : f_ind f <> 0 -> forall j, 0 <= j < NINDIRECT -> uint_at j (C (f_ind f)) = nth (ND + Z.to_nat j) (f_blks f) 0;
  fr_bytes : forall k b, f_blks f !! k = Some b -> forall i, (i < BS)%nat ->
    nth i (C b) 0 = nth (k * BS + i) (f_data f) 0
}.

Record disk_rep (s : mkfs) (F : list file) : Prop := {
  dr_files : Forall (file_rep (sect s)) F;
  dr_own : NoDup (concat (file_blocks <$> F));
  dr_range : Forall (fun b => nmeta <= b < m_freeblock s) (concat (file_blocks <$> F));
  dr_zero : forall b, m_freeblock s <= b -> sect s b = zero_block;
  dr_len : forall b, length (sect s b) = BS;
  dr_size : m_size s = FSSIZE /\ FSSIZE <= m_limit s;
  dr_free : nmeta <= m_freeblock s <= FSSIZE
}.

Lemma owned_blks f b : f_ind f = 0 <-> (length (f_blks f) <= ND)%nat -> b ∈ f_blks f -> b ∈ file_blocks f.
Proof.
  intros Hi Hb. unfold file_blocks. destruct (Z.eqb_spec (f_ind f) 0) as [E|E].
  - rewrite app_nil_r, take_ge by tauto. done.
  - rewrite <- (take_drop ND (f_blks f)) in Hb. apply elem_of_app in Hb as [?|?]; apply elem_of_app; [by left|].
    right. by right.
Qed.

Lemma file_rep_frame C C' f : (forall b, b ∈ file_blocks f -> C' b = C b) -> file_rep C f -> file_rep C' f.
Proof.
  intros HC [Hm Hi Ht Hb]. constructor; auto.
  - intros Hn j Hj. rewrite HC; [by apply Ht|]. unfold file_blocks. rewrite (proj2 (Z.eqb_neq _ _) Hn).
    apply elem_of_app. right. left.
  - intros k b Hk i Hi'. rewrite HC; [by apply Hb|]. apply owned_blks; [done|]. by eapply list_elem_of_lookup_2.
Qed.

Lemma owned_concat F f b : f ∈ F -> b ∈ file_blocks f -> b ∈ concat (file_blocks <$> F).
Proof.
  intros Hf Hb. induction Hf as [F|f g F Hf IH]; cbn [fmap list_fmap concat]; apply elem_of_app; auto.
Qed.

(** One file changes: its old blocks and freshly allocated ones. *)
Lemma disk_rep_replace s s' F1 F2 f f' new :
  disk_rep s (F1 ++ f :: F2) -> file_rep (sect s') f' -> file_blocks f' = file_blocks f ++ new ->
  (forall b, b ∉ file_blocks f -> b < m_freeblock s -> sect s' b = sect s b) ->
  NoDup new -> Forall (fun b => m_freeblock s <= b < m_freeblock s') new ->
  (forall b, m_freeblock s' <= b -> sect s' b = zero_block) -> (forall b, length (sect s' b) = BS) ->
  m_size s' = m_size s -> m_limit s' = m_limit s -> m_freeblock s <= m_freeblock s' <= FSSIZE ->
  disk_rep s' (F1 ++ f' :: F2).
Proof.
  intros [Hf Ho Hr Hz Hl Hs Hfr] Hf' Eo HC Hn Hnr Hz' Hl' E1 E2 Hfb.
  rewrite fmap_app, concat_app in Ho, Hr. cbn [fmap list_fmap concat] in Ho, Hr.
  apply Forall_app in Hf as [Hf1 Hf2]. inversion_clear Hf2 as [|? ? _ Hf3].
  assert (Hfresh : forall b, b ∈ new -> b ∉ concat (file_blocks <$> F1) ++ file_blocks f ++ concat (file_blocks <$> F2)).
  { intros b Hb Hin. rewrite Forall_forall in Hnr. specialize (Hnr b Hb).
    rewrite Forall_forall in Hr. specialize (Hr b Hin). lia. }
  assert (Hfar : forall b, b ∈ concat (file_blocks <$> F1) ++ concat (file_blocks <$> F2) -> sect s' b = sect s b).
  { intros b Hb. apply HC.
    - intros Hbf. rewrite NoDup_app, NoDup_app in Ho. apply elem_of_app in Hb as [Hb|Hb].
      + apply (proj1 (proj2 Ho) b Hb). apply elem_of_app. by left.
      + exact (proj1 (proj2 (proj2 (proj2 Ho))) b Hbf Hb).
    - rewrite Forall_forall in Hr. apply (Hr b). apply elem_of_app in Hb as [Hb|Hb]; apply elem_of_app; [by left|].
      right. apply elem_of_app. by right. }
  assert (Hin : forall G, (forall b, b ∈ concat (file_blocks <$> G) -> sect s' b = sect s b) ->
    Forall (file_rep (sect s)) G -> Forall (file_rep (sect s')) G).
  { intros G HG HF. apply Forall_forall. intros g Hg. rewrite Forall_forall in HF.
    eapply file_rep_frame; [|by apply HF]. intros b Hb. apply HG.
    by eapply owned_concat. }
  constructor; auto; [| | |rewrite E1, E2; done|lia].
  - apply Forall_app. split; [apply Hin; [|done]|constructor; [done|apply Hin; [|done]]];
      intros b Hb; apply Hfar, elem_of_app; auto.
  - rewrite fmap_app, concat_app. cbn [fmap list_fmap concat]. rewrite Eo.
    assert (P : (concat (file_blocks <$> F1) ++ (file_blocks f ++ new) ++ concat (file_blocks <$> F2)) ≡ₚ
      new ++ (concat (file_blocks <$> F1) ++ file_blocks f ++ concat (file_blocks <$> F2))) by solve_Permutation.
    rewrite P. apply NoDup_app. auto.
  - rewrite fmap_app, concat_app. cbn [fmap list_fmap concat]. rewrite Eo, !Forall_app in *.
    destruct Hr as (R1 & R2 & R3).
    split_and!; [eapply Forall_impl; [exact R1|]|eapply Forall_impl; [exact R2|]
      |eapply Forall_impl; [exact Hnr|]|eapply Forall_impl; [exact R3|]]; cbn beta; lia.
Qed.

Lemma rsect_ok s b : 0 <= b < m_size s -> m_size s = FSSIZE -> rsect b s = Ret (sect s b) s.
Proof.
  intros Hb Hs. unfold rsect, gets, bind. rewrite lseek_sect_id by (rewrite Hs in Hb; lia).
  destruct (Z.ltb_spec b (m_size s)); [done|lia].
Qed.

Lemma wsect_ok s b l :
  0 <= b < m_size s -> m_size s = FSSIZE -> FSSIZE <= m_limit s ->
  wsect b l s = Ret tt (set_sect b l s) /\ m_size (set_sect b l s) = m_size s.
Proof.
  intros Hb Hs Hl. unfold wsect, gets, modify, bind. rewrite lseek_sect_id by (rewrite Hs in Hb; lia).
  destruct (Z.ltb_spec b (m_limit s)); [|lia]. split; [done|]. cbn. lia.
Qed.

Lemma sect_set s b l c : sect (set_sect b l s) c = if decide (c = b) then l else sect s c.
Proof.
  unfold sect, set_sect. cbn. case_decide as E; [subst; by rewrite lookup_insert_eq|by rewrite lookup_insert_ne].
Qed.

Lemma next_block_ok s :
  0 <= m_freeblock s < FSSIZE -> next_block s = Ret (m_freeblock s) (set_freeblock (m_freeblock s + 1) s).
Proof. intros H. unfold next_block, gets, modify, bind. by rewrite wrap_small by lia. Qed.

Lemma addrs_of_direct blks ind k : (k < ND)%nat -> nth k (addrs_of blks ind) 0 = nth k blks 0.
Proof.
  intros H. unfold addrs_of. rewrite app_nth1 by (by rewrite length_fmap, length_seq).
  apply nth_lookup_Some. by rewrite list_lookup_fmap, lookup_seq_lt.
Qed.

Lemma addrs_of_ind blks ind : nth ND (addrs_of blks ind) 0 = ind.
Proof.
  unfold addrs_of. rewrite app_nth2 by (rewrite length_fmap, length_seq; lia).
  by rewrite length_fmap, length_seq, Nat.sub_diag.
Qed.

Lemma addrs_of_snoc blks ind b :
  (length blks < ND)%nat -> <[length blks := b]> (addrs_of blks ind) = addrs_of (blks ++ [b]) ind.
Proof.
  intros H. unfold addrs_of. rewrite insert_app_l by (by rewrite length_fmap, length_seq). f_equal.
  apply list_eq. intros i. destruct (decide (i < ND)%nat) as [Hi|Hi].
  - rewrite list_lookup_fmap, lookup_seq_lt by done. cbn [fmap option_fmap option_map plus].
    destruct (decide (i = length blks)) as [->|Hne].
    + rewrite list_lookup_insert_eq by (by rewrite length_fmap, length_seq).
      by rewrite app_nth2, Nat.sub_diag by lia.
    + rewrite list_lookup_insert_ne, list_lookup_fmap, lookup_seq_lt by done. cbn. f_equal.
      destruct (decide (i < length blks)%nat); [by rewrite app_nth1|].
      rewrite (nth_overflow blks), app_nth2 by lia. by rewrite nth_overflow by (cbn; lia).
  - rewrite !lookup_ge_None_2; [done|by rewrite length_fmap, length_seq; lia|].
    rewrite length_insert, length_fmap, length_seq. lia.
Qed.

Lemma addrs_of_set_ind blks ind b c :
  length blks = ND -> <[ND := b]> (addrs_of blks ind) = addrs_of (blks ++ [c]) b.
Proof.
  intros H. unfold addrs_of.
  rewrite insert_app_r_alt by (rewrite length_fmap, length_seq; lia). rewrite length_fmap, length_seq, Nat.sub_diag.
  f_equal.
  apply list_fmap_ext. intros i k Hk. apply lookup_seq in Hk as [-> Hk]. rewrite app_nth1; [done|lia].
Qed.

Lemma addrs_of_more blks ind b :
  (ND <= length blks)%nat -> addrs_of (blks ++ [b]) ind = addrs_of blks ind.
Proof.
  intros H. unfold addrs_of. f_equal. apply list_fmap_ext. intros i k Hk. apply lookup_seq in Hk as [-> Hk].
  rewrite app_nth1; [done|lia].
Qed.

(** How many blocks the next block of a file takes. *)
Definition growth (f : file) : Z := if (length (f_blks f) =? ND)%nat then 2 else 1.

Lemma owned_grow fb f :
  f_ind f = 0 <-> (length (f_blks f) <= ND)%nat -> fb <> 0 -> file_blocks (grow fb f) = file_blocks f ++ seqZ fb (growth f).
Proof.
  intros Hi Hfb. unfold file_blocks, grow, growth. destruct (Nat.eqb_spec (length (f_blks f)) ND) as [E|E]; cbn [f_blks f_ind].
  - rewrite (proj2 (Z.eqb_neq _ _) Hfb), (proj2 (Z.eqb_eq _ _)) by (apply Hi; lia).
    rewrite take_app_length', drop_app_length', app_nil_r, take_ge by lia.
    rewrite seqZ_cons, seqZ_cons by lia. done.
  - destruct (Z.eqb_spec (f_ind f) 0) as [E0|E0].
    + apply Hi in E0. rewrite !app_nil_r, !take_ge by (rewrite ?length_app; cbn; lia). done.
    + assert (ND < length (f_blks f))%nat by (destruct (decide (ND < length (f_blks f))%nat); [done|]; exfalso; apply E0, Hi; lia).
      rewrite take_app_le, drop_app_le by lia. rewrite <- app_assoc. done.
Qed.

Lemma uint_at_put j k v l :
  0 <= j < NINDIRECT -> 0 <= k < NINDIRECT -> 0 <= v < 2 ^ 32 -> length l = BS ->
  uint_at j (put_uint k v l) = if decide (j = k) then v else uint_at j l.
Proof.
  intros Hj Hk Hv Hl. unfold uint_at, put_uint. unfold BS in Hl.
  case_decide as E; [subst; rewrite getle_putle by lia; by apply Z.mod_small|]. by rewrite getle_putle_ne by lia.
Qed.

Lemma uint_at_zero j : uint_at j zero_block = 0.
Proof.
  unfold uint_at, getle, zero_block. rewrite drop_replicate, take_replicate.
  generalize (4 `min` (Z.to_nat BSIZE - Z.to_nat (4 * j)))%nat. intros n.
  induction n as [|n IH]; [done|]. cbn [replicate le_dec]. by rewrite IH.
Qed.

Lemma nth_zero i : nth i zero_block 0 = 0.
Proof. unfold zero_block. generalize (Z.to_nat BSIZE). intros n. revert i. induction n; intros [|i]; cbn; auto. Qed.

Lemma blk_range s F1 f F2 b : disk_rep s (F1 ++ f :: F2) -> b ∈ file_blocks f -> nmeta <= b < m_freeblock s.
Proof.
  intros H Hb. pose proof (dr_range _ _ H) as Hr. rewrite Forall_forall in Hr. apply Hr.
  eapply owned_concat; [|done]. apply elem_of_app. right. left.
Qed.

Lemma nmeta_eq : nmeta = 46.
Proof. done. Qed.

(** The file at hand, and the numbers of its blocks. *)
Lemma rep_file s F1 f F2 : disk_rep s (F1 ++ f :: F2) -> file_rep (sect s) f.
Proof. intros H. pose proof (dr_files _ _ H) as Hf. apply Forall_app in Hf as [_ Hf]. by inversion Hf. Qed.

Lemma rep_blk s F1 f F2 k b : disk_rep s (F1 ++ f :: F2) -> f_blks f !! k = Some b -> nmeta <= b < m_freeblock s.
Proof.
  intros H Hk. eapply blk_range; [done|]. apply owned_blks; [apply (fr_ind _ _ (rep_file _ _ _ _ H))|].
  by eapply list_elem_of_lookup_2.
Qed.

Lemma rep_ind s F1 f F2 : disk_rep s (F1 ++ f :: F2) -> f_ind f <> 0 -> nmeta <= f_ind f < m_freeblock s.
Proof.
  intros H Hi. eapply blk_range; [done|]. unfold file_blocks. rewrite (proj2 (Z.eqb_neq _ _) Hi). apply elem_of_app. right. left.
Qed.

(** The block is there. *)
Lemma block_have s F1 f F2 k b :
  disk_rep s (F1 ++ f :: F2) -> f_blks f !! k = Some b ->
  iappend_block (din_of f) (Z.of_nat k) s = Ret (din_of f, b) s.
Proof.
  intros H Hk. pose proof (rep_blk _ _ _ _ _ _ H Hk) as Hb. pose proof (rep_file _ _ _ _ H) as Hf.
  pose proof (nth_lookup_Some _ _ 0 _ Hk) as Hn. pose proof nmeta_eq. destruct (dr_free _ _ H). destruct (dr_size _ _ H).
  pose proof (fr_max _ _ Hf) as Hmax. pose proof (lookup_lt_Some _ _ _ Hk).
  unfold iappend_block. cbn [din_of di_addrs]. destruct (Z.ltb_spec (Z.of_nat k) NDIRECT) as [Hd|Hd].
  - rewrite Nat2Z.id, addrs_of_direct, Hn by (unfold ND; lia). rewrite xint_id by lia.
    destruct (Z.eqb_spec b 0); [lia|]. unfold bind, ret. cbn [din_of di_addrs].
    rewrite addrs_of_direct, Hn, xint_id by (unfold ND; lia). done.
  - assert (Hi : f_ind f <> 0) by (intros E; apply (fr_ind _ _ Hf) in E; unfold ND in E; lia).
    pose proof (rep_ind _ _ _ _ H Hi) as Hir. fold ND. rewrite addrs_of_ind, xint_id by lia.
    destruct (Z.eqb_spec (f_ind f) 0); [done|]. rewrite (bind_Ret _ _ _ _ _ eq_refl). cbn [din_of di_addrs].
    rewrite addrs_of_ind, xint_id by lia. run (rsect_ok s (f_ind f) ltac:(lia) ltac:(done)).
    rewrite (fr_tbl _ _ Hf Hi) by (unfold MAXFILE in Hmax; lia).
    replace (ND + Z.to_nat (Z.of_nat k - NDIRECT))%nat with k by (unfold ND; lia). rewrite Hn.
    destruct (Z.eqb_spec b 0); [lia|]. unfold bind, ret. rewrite (fr_tbl _ _ Hf Hi) by (unfold MAXFILE in Hmax; lia).
    replace (ND + Z.to_nat (Z.of_nat k - NDIRECT))%nat with k by (unfold ND; lia). rewrite Hn, xint_id by lia. done.
Qed.

(** The sectors of the file that has file_grown. *)
Lemma file_rep_grow C C' f fb :
  file_rep C f -> (length (f_blks f) < Z.to_nat MAXFILE)%nat -> (length (f_data f) <= BS * length (f_blks f))%nat ->
  fb <> 0 -> (forall b, b ∈ f_blks f -> C' b = C b) ->
  (forall b, b = fb \/ b = fb + 1 -> b ∈ f_blks (grow fb f) -> C' b = zero_block) ->
  (f_ind (grow fb f) <> 0 -> forall j, 0 <= j < NINDIRECT ->
    uint_at j (C' (f_ind (grow fb f))) = nth (ND + Z.to_nat j) (f_blks (grow fb f)) 0) ->
  file_rep C' (grow fb f).
Proof.
  intros [Hm Hi Ht Hb] Hlt Hd Hfb HC Hz Htbl.
  assert (Eb : exists nb, f_blks (grow fb f) = f_blks f ++ [nb] /\ (nb = fb \/ nb = fb + 1)).
  { unfold grow. case_match; cbn; eauto. }
  destruct Eb as (nb & Eb & Hnb). constructor; [..|exact Htbl|].
  - rewrite Eb, length_app. cbn. lia.
  - rewrite Eb, length_app. cbn [length]. unfold grow. destruct (Nat.eqb_spec (length (f_blks f)) ND) as [E|E]; cbn [f_ind].
    + split; [done|lia].
    + rewrite Hi. lia.
  - intros k b Hk i Hi'. replace (f_data (grow fb f)) with (f_data f) by (unfold grow; by case_match).
    rewrite Eb in Hk. apply lookup_app_Some in Hk as [Hk|[Hk1 Hk2]].
    + rewrite HC by (by eapply list_elem_of_lookup_2). by apply Hb.
    + apply list_lookup_singleton_Some in Hk2 as [Hk2 <-]. rewrite Hz, nth_zero, nth_overflow; [done|nia|done|].
      rewrite Eb. apply elem_of_app. right. by apply list_elem_of_singleton.
Qed.

Lemma rep_nodup s F1 f F2 : disk_rep s (F1 ++ f :: F2) -> NoDup (file_blocks f).
Proof.
  intros H. pose proof (dr_own _ _ H) as Ho. rewrite fmap_app, concat_app in Ho. cbn [fmap list_fmap concat] in Ho.
  apply NoDup_app in Ho as (_ & _ & Ho). by apply NoDup_app in Ho as (Ho & _).
Qed.

Lemma ind_not_blk f : NoDup (file_blocks f) -> f_ind f <> 0 -> f_ind f ∉ f_blks f.
Proof.
  intros Hn Hi Hin. unfold file_blocks in Hn. rewrite (proj2 (Z.eqb_neq _ _) Hi) in Hn.
  apply NoDup_app in Hn as (_ & H1 & H2). apply NoDup_cons in H2 as [H2 _].
  rewrite <- (take_drop ND (f_blks f)) in Hin. apply elem_of_app in Hin as [Hin|Hin]; [|done].
  apply (H1 _ Hin). left.
Qed.

Section Grow.
Variables (s s' : mkfs) (F1 F2 : list file) (f f' : file).
Hypothesis (H : disk_rep s (F1 ++ f :: F2)) (Ef' : f' = grow (m_freeblock s) f).
Hypothesis Hlt : (length (f_blks f) < Z.to_nat MAXFILE)%nat.
Hypothesis Hd : (length (f_data f) <= BS * length (f_blks f))%nat.
Hypothesis HC : forall b, f_ind f' = 0 \/ b <> f_ind f' -> sect s' b = sect s b.
Hypothesis Hl : forall b, length (sect s' b) = BS.
Hypothesis Ht : f_ind f' <> 0 -> forall j, 0 <= j < NINDIRECT ->
  uint_at j (sect s' (f_ind f')) = nth (ND + Z.to_nat j) (f_blks f') 0.
Hypothesis (Es : m_size s' = m_size s) (El : m_limit s' = m_limit s).
Hypothesis (Ef : m_freeblock s' = m_freeblock s + growth f) (Hroom : m_freeblock s + growth f <= FSSIZE).

Lemma step_cases :
  f_ind f' = m_freeblock s /\ f_blks f' = f_blks f ++ [m_freeblock s + 1] /\ growth f = 2 \/
  f_ind f' = f_ind f /\ f_blks f' = f_blks f ++ [m_freeblock s] /\ growth f = 1.
Proof. rewrite Ef'. unfold grow, growth. case_match; auto. Qed.

(** The indirect block of the file_grown file, if it has one. *)
Lemma ind_cases : f_ind f' <> 0 ->
  f_ind f' = m_freeblock s /\ growth f = 2 \/
  f_ind f' ∈ file_blocks f /\ f_ind f' ∉ f_blks f /\ nmeta <= f_ind f' < m_freeblock s.
Proof.
  intros Hn. destruct step_cases as [(E & _ & E2)|(E & _)]; [by left|right]. rewrite E in *. split_and!.
  - unfold file_blocks. rewrite (proj2 (Z.eqb_neq _ _) Hn). apply elem_of_app. right. left.
  - apply ind_not_blk; [|done]. by eapply rep_nodup.
  - by eapply (rep_ind s F1 f F2).
  - by eapply (rep_ind s F1 f F2).
Qed.

(** A block that is not the indirect block keeps its contents. *)
Lemma grow_other b : (f_ind f' <> 0 -> b <> f_ind f') -> sect s' b = sect s b.
Proof. intros Hb. apply HC. destruct (decide (f_ind f' = 0)); auto. Qed.

Lemma grow_file : file_rep (sect s') f'.
Proof.
  pose proof (rep_file _ _ _ _ H) as Hf. pose proof (dr_free _ _ H) as Hfb. pose proof nmeta_eq.
  pose proof step_cases as Hsc. pose proof ind_cases as Hic. rewrite Ef' in Hsc |- *.
  apply (file_rep_grow (sect s)); auto; [lia| | |by rewrite <- Ef'].
  - intros b Hb. apply grow_other. intros Hn ->. destruct (Hic Hn) as [[E _]|(_ & Hnb & _)]; [|done].
    apply list_elem_of_lookup in Hb as [k Hk]. pose proof (rep_blk _ _ _ _ _ _ H Hk). lia.
  - intros b Hb Hin. rewrite grow_other; [apply (dr_zero _ _ H); lia|]. intros Hn Eb.
    destruct (Hic Hn) as [[E E2]|(_ & _ & ?)]; [|lia].
    destruct Hsc as [(_ & Eb' & _)|(_ & _ & ?)]; [|lia]. rewrite Eb' in Hin. apply elem_of_app in Hin as [Hin|Hin].
    + apply list_elem_of_lookup in Hin as [k Hk]. pose proof (rep_blk _ _ _ _ _ _ H Hk). lia.
    + apply list_elem_of_singleton in Hin. lia.
Qed.

Lemma grow_rep : disk_rep s' (F1 ++ f' :: F2) /\ forall b, b < nmeta -> sect s' b = sect s b.
Proof.
  pose proof (dr_free _ _ H) as Hfb. pose proof nmeta_eq. pose proof ind_cases as Hic.
  assert (Hstep : growth f = 1 \/ growth f = 2) by (unfold growth; case_match; auto). split.
  - apply (disk_rep_replace s s' F1 F2 f f' (seqZ (m_freeblock s) (growth f)) H); auto using grow_file, NoDup_seqZ.
    + rewrite Ef'. apply owned_grow; [apply (fr_ind _ _ (rep_file _ _ _ _ H))|lia].
    + intros b Hb Hlt'. apply grow_other. intros Hn ->. destruct (Hic Hn) as [[? _]|[? _]]; [lia|done].
    + apply Forall_seqZ. intros b Hb. lia.
    + intros b Hb. rewrite grow_other; [apply (dr_zero _ _ H); lia|]. intros Hn ->. destruct (Hic Hn) as [[? _]|[? ?]]; lia.
    + lia.
  - intros b Hb. apply grow_other. intros Hn ->. destruct (Hic Hn) as [[? _]|[? ?]]; lia.
Qed.
End Grow.

(** What a call of a part of [iappend] on the file [f] has done to the image:
    the file is now [f']. *)
Record file_grown (s s' : mkfs) (F1 : list file) (f f' : file) (F2 : list file) : Prop := {
  gr_rep : disk_rep s' (F1 ++ f' :: F2);
  gr_meta : forall b, b < nmeta -> sect s' b = sect s b;
  gr_inode : m_freeinode s' = m_freeinode s
}.

Section NewBlock.
Variables (s : mkfs) (F1 F2 : list file) (f : file).
Hypothesis H : disk_rep s (F1 ++ f :: F2).
Hypothesis Hlt : (length (f_blks f) < Z.to_nat MAXFILE)%nat.
Hypothesis Hd : (length (f_data f) <= BS * length (f_blks f))%nat.
Hypothesis Hroom : m_freeblock s + growth f <= FSSIZE.

Definition new_block : Prop :=
  exists s', iappend_block (din_of f) (Z.of_nat (length (f_blks f))) s =
      Ret (din_of (grow (m_freeblock s) f), m_freeblock s + growth f - 1) s' /\
    file_grown s s' F1 f (grow (m_freeblock s) f) F2 /\ m_freeblock s' = m_freeblock s + growth f.

Lemma new_direct : (length (f_blks f) < ND)%nat -> new_block.
Proof.
  intros Hk. pose proof (rep_file _ _ _ _ H) as Hf. pose proof (dr_free _ _ H) as Hfb.
  pose proof nmeta_eq. destruct (dr_size _ _ H) as [Hs Hlim].
  pose proof (grow_rep s (set_freeblock (m_freeblock s + 1) s) F1 F2 f _ H eq_refl Hlt Hd) as G.
  assert (Hi : f_ind f = 0) by (apply (fr_ind _ _ Hf); lia).
  unfold new_block. unfold growth, grow in *. destruct (Nat.eqb_spec (length (f_blks f)) ND); [lia|].
  exists (set_freeblock (m_freeblock s + 1) s). split.
  - unfold iappend_block. cbn [din_of di_addrs]. destruct (Z.ltb_spec (Z.of_nat (length (f_blks f))) NDIRECT); [|unfold ND in *; lia].
    rewrite Nat2Z.id, addrs_of_direct, nth_overflow by lia. replace (xint 0 =? 0) with true by done.
    unfold bind at 1. run (next_block_ok s ltac:(lia)). rewrite xint_id by lia. unfold ret, bind. cbn [di_addrs set_di_addrs].
    rewrite addrs_of_snoc by done. rewrite addrs_of_direct, app_nth2, Nat.sub_diag by lia. cbn [nth].
    rewrite xint_id by lia. unfold din_of. cbn [f_type f_size f_data f_blks f_ind]. do 2 f_equal. lia.
  - destruct G as [G1 G2]; auto; [by apply (dr_len _ _ H)|cbn; done|]. by split.
Qed.

Lemma new_tbl : (ND < length (f_blks f))%nat -> new_block.
Proof.
  intros Hk. pose proof (rep_file _ _ _ _ H) as Hf. pose proof (dr_free _ _ H) as Hfb.
  pose proof nmeta_eq. destruct (dr_size _ _ H) as [Hs Hlim]. pose proof (dr_len _ _ H) as Hlen.
  assert (Hi : f_ind f <> 0) by (intros E; apply (fr_ind _ _ Hf) in E; lia).
  pose proof (rep_ind _ _ _ _ H Hi) as Hir.
  set (j := Z.of_nat (length (f_blks f)) - NDIRECT).
  assert (Hj : 0 <= j < NINDIRECT) by (unfold j, ND, MAXFILE in *; lia).
  set (s1 := set_freeblock (m_freeblock s + 1) s).
  set (s2 := set_sect (f_ind f) (put_uint j (m_freeblock s) (sect s (f_ind f))) s1).
  pose proof (grow_rep s s2 F1 F2 f _ H eq_refl Hlt Hd) as G.
  destruct (wsect_ok s1 (f_ind f) (put_uint j (m_freeblock s) (sect s (f_ind f)))) as [Hw Hsz]; [cbn; lia|done..|].
  unfold new_block. unfold growth, grow in *. destruct (Nat.eqb_spec (length (f_blks f)) ND); [lia|].
  exists s2. split.
  - unfold iappend_block. cbn [din_of di_addrs]. destruct (Z.ltb_spec (Z.of_nat (length (f_blks f))) NDIRECT); [unfold ND in *; lia|].
    fold ND j. rewrite addrs_of_ind, xint_id by lia. destruct (Z.eqb_spec (f_ind f) 0); [done|].
    rewrite (bind_Ret _ _ _ _ _ eq_refl). cbn [din_of di_addrs]. rewrite addrs_of_ind, xint_id by lia.
    run (rsect_ok s (f_ind f) ltac:(lia) ltac:(done)). rewrite (fr_tbl _ _ Hf Hi) by done.
    rewrite nth_overflow by (unfold j, ND; lia). cbn [Z.eqb]. unfold bind at 1. run (next_block_ok s ltac:(lia)).
    rewrite xint_id by lia. fold s1. run Hw. unfold ret. rewrite uint_at_put, decide_True, xint_id by (done || lia).
    unfold din_of. cbn [f_type f_size f_data f_blks f_ind]. rewrite addrs_of_more by lia. do 2 f_equal. lia.
  - destruct G as [G1 G2]; auto; cbn [f_ind f_blks].
    + intros b [?|Hb]; [done|]. unfold s2. rewrite sect_set. by case_decide.
    + intros b. unfold s2. rewrite sect_set. case_decide; [|apply Hlen].
      unfold put_uint. rewrite putle_length; [apply Hlen|]. rewrite Hlen. unfold BS. lia.
    + intros _ j' Hj'. unfold s2. rewrite sect_set, decide_True, uint_at_put by (done || lia).
      case_decide as Ej.
      * subst j'. rewrite app_nth2 by (unfold j, ND; lia).
        replace (_ + _ - _)%nat with 0%nat by (unfold j, ND; lia). done.
      * rewrite (fr_tbl _ _ Hf Hi) by done. destruct (decide (ND + Z.to_nat j' < length (f_blks f))%nat).
        -- by rewrite app_nth1.
        -- rewrite !nth_overflow; [done|rewrite length_app; cbn; unfold j, ND in *; lia|lia].
    + by split.
Qed.

Lemma new_ind : length (f_blks f) = ND -> new_block.
Proof.
  intros Hk. pose proof (rep_file _ _ _ _ H) as Hf. pose proof (dr_free _ _ H) as Hfb.
  pose proof nmeta_eq. destruct (dr_size _ _ H) as [Hs Hlim]. pose proof (dr_len _ _ H) as Hlen.
  assert (Hi : f_ind f = 0) by (apply (fr_ind _ _ Hf); lia).
  set (s1 := set_freeblock (m_freeblock s + 1) s). set (s2 := set_freeblock (m_freeblock s + 1 + 1) s1).
  set (ind := put_uint 0 (m_freeblock s + 1) zero_block). set (s3 := set_sect (m_freeblock s) ind s2).
  pose proof (grow_rep s s3 F1 F2 f _ H eq_refl Hlt Hd) as G. rewrite Hk in *.
  unfold new_block. unfold growth, grow in *. rewrite Hk in *. destruct (Nat.eqb_spec ND ND); [|done].
  destruct (wsect_ok s2 (m_freeblock s) ind) as [Hw Hsz]; [cbn; lia|done..|].
  exists s3. split.
  - unfold iappend_block. cbn [din_of di_addrs]. destruct (Z.ltb_spec (Z.of_nat ND) NDIRECT); [unfold ND in *; lia|].
    fold ND. rewrite addrs_of_ind, Hi. replace (xint 0 =? 0) with true by done.
    unfold bind at 1. unfold bind at 1. rewrite next_block_ok by lia. unfold ret at 1. cbn [set_di_addrs di_addrs].
    fold s1. rewrite (xint_id (m_freeblock s)) by lia. rewrite (addrs_of_set_ind _ _ _ (m_freeblock s + 1)), addrs_of_ind, xint_id by (done || lia).
    run (rsect_ok s1 (m_freeblock s) ltac:(cbn; lia) ltac:(done)).
    replace (sect s1 (m_freeblock s)) with zero_block by (symmetry; apply (dr_zero _ _ H); lia).
    replace (Z.of_nat ND - NDIRECT) with 0 by done. rewrite uint_at_zero. cbn [Z.eqb].
    unfold bind at 1. run (next_block_ok s1 ltac:(cbn; lia)). cbn [m_freeblock s1 set_freeblock].
    rewrite xint_id by lia. fold ind s2. run Hw. unfold ret. fold s3.
    unfold ind. rewrite uint_at_put, decide_True, xint_id by (done || lia).
    unfold din_of. cbn [f_type f_size f_data f_blks f_ind]. do 2 f_equal. lia.
  - destruct G as [G1 G2]; auto; cbn [f_ind f_blks].
    + intros b [?|Hb]; [lia|]. unfold s3. rewrite sect_set. by case_decide.
    + intros b. unfold s3. rewrite sect_set. case_decide; [done|apply Hlen].
    + intros _ j Hj. unfold s3. rewrite sect_set, decide_True by done. unfold ind.
      rewrite uint_at_put, uint_at_zero by (done || lia). rewrite app_nth2 by lia. rewrite Hk.
      case_decide as Ej; [by subst j; rewrite Nat.add_0_r, Nat.sub_diag|]. rewrite nth_overflow; [done|cbn; lia].
    + cbn. lia.
    + split; [by split|]. cbn. lia.
Qed.

Lemma block_new : new_block.
Proof.
  destruct (lt_eq_lt_dec (length (f_blks f)) ND) as [[?|?]|?]; [by apply new_direct|by apply new_ind|by apply new_tbl].
Qed.
End NewBlock.

(** The file has the blocks its bytes need, and no more. *)
Definition exact (f : file) : Prop := (length (f_data f) <= BS * length (f_blks f) < length (f_data f) + BS)%nat.

(** [c] written at the end of the file, in block [k], which has room for it. *)
Lemma put_data_bytes C f k x c :
  file_rep C f -> NoDup (f_blks f) -> f_blks f !! k = Some x -> length (C x) = BS ->
  (k * BS <= length (f_data f) <= k * BS + BS)%nat -> (length (f_data f) + length c <= k * BS + BS)%nat ->
  forall C', C' x = splice (length (f_data f) - k * BS) c (C x) -> (forall b, b <> x -> C' b = C b) ->
  forall k' b, f_blks f !! k' = Some b -> forall i, (i < BS)%nat ->
    nth i (C' b) 0 = nth (k' * BS + i) (f_data f ++ c) 0.
Proof.
  intros Hf Hn Hk Hl Hd Hc C' Ex Eo k' b Hk' i Hi. pose proof (fr_bytes _ _ Hf _ _ Hk' i Hi) as Hb.
  destruct (decide (b = x)) as [->|Hbx].
  - assert (k' = k) as -> by (by eapply NoDup_lookup). rewrite Ex.
    set (o := (length (f_data f) - k * BS)%nat) in *.
    destruct (decide (o <= i < o + length c)%nat) as [Hin|Hout].
    + rewrite app_nth2 by lia. unfold splice. rewrite app_nth2; rewrite length_take, Hl, Nat.min_l by lia; [|lia].
      rewrite app_nth1 by lia. f_equal. lia.
    + replace (nth i (splice o c (C x)) 0) with (nth i (C x) 0).
      * rewrite Hb. destruct (decide (k * BS + i < length (f_data f))%nat); [by rewrite app_nth1|].
        rewrite !nth_overflow; [done|rewrite length_app; lia|lia].
      * rewrite !nth_lookup, splice_lookup; [done|rewrite Hl|]; lia.
  - rewrite Eo, Hb by done. assert (k' <> k) by (intros ->; congruence).
    destruct (decide (k' * BS + i < length (f_data f))%nat); [by rewrite app_nth1|].
    assert (k < k')%nat by nia. rewrite !nth_overflow; [done|rewrite length_app; nia|lia].
Qed.

Lemma nodup_blks f : f_ind f = 0 <-> (length (f_blks f) <= ND)%nat -> NoDup (file_blocks f) -> NoDup (f_blks f).
Proof.
  intros Hi. unfold file_blocks. destruct (Z.eqb_spec (f_ind f) 0) as [E|E].
  - apply Hi in E. by rewrite app_nil_r, take_ge by lia.
  - intros Ho. apply NoDup_app in Ho as (H1 & H2 & H3). apply NoDup_cons in H3 as [_ H3].
    rewrite <- (take_drop ND (f_blks f)). apply NoDup_app. split_and!; [done| |done].
    intros b Hb Hb'. apply (H2 b Hb). by right.
Qed.

Lemma write_data s F1 f F2 k x c :
  disk_rep s (F1 ++ f :: F2) -> f_blks f !! k = Some x ->
  (k * BS <= length (f_data f))%nat -> (length (f_data f) + length c <= k * BS + BS)%nat ->
  exists s', wsect x (splice (length (f_data f) - k * BS) c (sect s x)) s = Ret tt s' /\
    file_grown s s' F1 f (put_data c f) F2 /\ m_freeblock s' = m_freeblock s.
Proof.
  intros H Hk Hd Hc. pose proof (rep_file _ _ _ _ H) as Hf. destruct (dr_size _ _ H) as [Hs Hlim].
  pose proof (dr_len _ _ H) as Hlen. pose proof (dr_free _ _ H) as Hfb. pose proof (rep_blk _ _ _ _ _ _ H Hk) as Hx.
  pose proof (fr_ind _ _ Hf) as Hi. pose proof (nodup_blks f Hi (rep_nodup _ _ _ _ H)) as Hn. pose proof nmeta_eq.
  pose proof (list_elem_of_lookup_2 _ _ _ Hk) as Hin.
  set (l := splice (length (f_data f) - k * BS) c (sect s x)).
  destruct (wsect_ok s x l) as [Hw Hsz]; [lia|done..|]. exists (set_sect x l s).
  assert (Hne : forall b, b <> x -> sect (set_sect x l s) b = sect s b) by (intros b Hb; rewrite sect_set; by case_decide).
  assert (Hx' : sect (set_sect x l s) x = l) by (rewrite sect_set; by case_decide).
  split_and!; [done| |done]. split; [|intros b Hb; apply Hne; lia|done].
  apply (disk_rep_replace s _ F1 F2 f _ [] H); [|by rewrite app_nil_r|..]; auto.
  - constructor; cbn [put_data f_blks f_ind f_data]; try apply Hf.
    + intros Hi0 j Hj. rewrite Hne; [by apply (fr_tbl _ _ Hf)|]. intros E.
      apply (ind_not_blk f (rep_nodup _ _ _ _ H) Hi0). by rewrite E.
    + eapply (put_data_bytes (sect s)); eauto. lia.
  - intros b Hb _. apply Hne. intros ->. apply Hb. by apply owned_blks.
  - constructor.
  - intros b Hb. rewrite Hne; [by apply (dr_zero _ _ H)|]. cbn in Hb. lia.
  - intros b. destruct (decide (b = x)) as [->|Hb]; [|by rewrite Hne].
    rewrite Hx'. unfold l. rewrite splice_length; [done|]. rewrite Hlen. lia.
  - cbn. lia.
Qed.

(** The blocks a file of [n] bytes takes: its data blocks, and the indirect
    block if they do not all fit in the inode. *)
Definition need (n : nat) : Z :=
  let b := (Z.of_nat n + BSIZE - 1) / BSIZE in b + (if NDIRECT <? b then 1 else 0).

Lemma need_mono n m : (n <= m)%nat -> need n <= need m.
Proof.
  intros H. unfold need. assert ((Z.of_nat n + BSIZE - 1) / BSIZE <= (Z.of_nat m + BSIZE - 1) / BSIZE).
  { apply Z.div_le_mono; lia. }
  destruct (Z.ltb_spec NDIRECT ((Z.of_nat n + BSIZE - 1) / BSIZE)),
    (Z.ltb_spec NDIRECT ((Z.of_nat m + BSIZE - 1) / BSIZE)); lia.
Qed.

Lemma need_owned f :
  f_ind f = 0 <-> (length (f_blks f) <= ND)%nat -> exact f -> Z.of_nat (length (file_blocks f)) = need (length (f_data f)).
Proof.
  intros Hi He. unfold exact, BS in He. unfold need.
  replace ((Z.of_nat (length (f_data f)) + BSIZE - 1) / BSIZE) with (Z.of_nat (length (f_blks f))).
  - unfold file_blocks. unfold ND in *.
    destruct (Z.eqb_spec (f_ind f) 0) as [E|E]; rewrite !length_app, length_take; cbn [length]; rewrite ?length_drop.
    + apply Hi in E. destruct (Z.ltb_spec NDIRECT (Z.of_nat (length (f_blks f)))); lia.
    + assert (~ (length (f_blks f) <= Z.to_nat NDIRECT)%nat) by tauto.
      destruct (Z.ltb_spec NDIRECT (Z.of_nat (length (f_blks f)))); lia.
  - apply (Z.div_unique_pos _ _ _ (Z.of_nat (length (f_data f)) + BSIZE - 1 - BSIZE * Z.of_nat (length (f_blks f)))); lia.
Qed.

Lemma grown_trans s s1 s2 F1 F2 f f1 f2 :
  file_grown s s1 F1 f f1 F2 -> file_grown s1 s2 F1 f1 f2 F2 -> file_grown s s2 F1 f f2 F2.
Proof. intros [H1 H2 H3] [H4 H5 H6]. split; [done| |congruence]. intros b Hb. by rewrite H5, H2. Qed.

(** The file after an append of [c]. *)
Record appended (c : list Z) (f f' : file) : Prop := {
  ap_type : f_type f' = f_type f;
  ap_size : f_size f' = f_size f;
  ap_data : f_data f' = f_data f ++ c;
  ap_exact : exact f'
}.

Lemma grow_ind fb f :
  f_ind f = 0 <-> (length (f_blks f) <= ND)%nat -> fb <> 0 ->
  f_ind (grow fb f) = 0 <-> (length (f_blks (grow fb f)) <= ND)%nat.
Proof.
  intros Hi Hfb. unfold grow. destruct (Nat.eqb_spec (length (f_blks f)) ND) as [E|E]; cbn [f_ind f_blks];
    rewrite length_app; cbn [length]; [split; [done|lia]|rewrite Hi; lia].
Qed.

Section Turn.
Variables (s : mkfs) (F1 F2 : list file) (f : file) (c : list Z).
Let off := Z.of_nat (length (f_data f)).
Let k := Z.to_nat (off / BSIZE).
Let cost := need (length (f_data f) + length c) - need (length (f_data f)).
Hypothesis (H : disk_rep s (F1 ++ f :: F2)) (He : exact f) (Hc : (0 < length c)%nat).
Hypothesis (Hfit : Z.of_nat (length c) <= BSIZE - off mod BSIZE) (Hmax : off / BSIZE < MAXFILE).
Hypothesis Hroom : m_freeblock s + cost <= FSSIZE.

(** The block [x] has been found, in a file that has become [f1]. *)
Definition block_found (f1 : file) (x : Z) (s1 : mkfs) : Prop :=
  file_grown s s1 F1 f f1 F2 /\ f_blks f1 !! k = Some x /\ length (f_blks f1) = S k /\
  f_data f1 = f_data f /\ f_type f1 = f_type f /\ f_size f1 = f_size f.

Lemma off_in_block :
  off = Z.of_nat k * BSIZE + off mod BSIZE /\ 0 <= off mod BSIZE < BSIZE /\ (k < Z.to_nat MAXFILE)%nat /\
  off / BSIZE = Z.of_nat k.
Proof.
  pose proof (Z.div_mod off BSIZE ltac:(done)). pose proof (Z.mod_pos_bound off BSIZE ltac:(done)).
  pose proof (Z.div_pos off BSIZE ltac:(lia) ltac:(done)). unfold k. lia.
Qed.

Lemma found_exact f1 : length (f_blks f1) = S k -> f_data f1 = f_data f -> exact (put_data c f1).
Proof.
  intros El Ed. destruct off_in_block as (? & ? & _ & _). unfold exact, BS. cbn [put_data f_data f_blks].
  rewrite Ed, El, length_app. unfold off in *. lia.
Qed.

Lemma turn_block : exists f1 x s1, iappend_block (din_of f) (off / BSIZE) s = Ret (din_of f1, x) s1 /\
  block_found f1 x s1 /\ m_freeblock s1 = m_freeblock s + cost.
Proof.
  pose proof (rep_file _ _ _ _ H) as Hf. pose proof (fr_ind _ _ Hf) as Hi. pose proof (dr_free _ _ H). pose proof nmeta_eq.
  destruct off_in_block as (Eo & Hm & Hk & Eq). rewrite Eq.
  pose proof (need_owned f Hi He) as En. pose proof He as He'. unfold exact in He'. unfold BS, cost, off in *.
  destruct (decide (k < length (f_blks f))%nat) as [Hlt|Hge].
  - assert (El : length (f_blks f) = S k) by lia. destruct (lookup_lt_is_Some_2 _ _ Hlt) as [x Hx].
    pose proof (need_owned (put_data c f) Hi (found_exact f El eq_refl)) as En'.
    replace (file_blocks (put_data c f)) with (file_blocks f) in En' by done. cbn [put_data f_data] in En'. rewrite length_app in En'.
    exists f, x, s. split; [by eapply block_have|]. split; [split; [by split|done]|lia].
  - assert (Ek : k = length (f_blks f)) by lia. set (g := grow (m_freeblock s) f).
    assert (Eg : exists nb, f_blks g = f_blks f ++ [nb] /\ nb = m_freeblock s + growth f - 1 /\ f_data g = f_data f /\
      f_type g = f_type f /\ f_size g = f_size f).
    { unfold g, grow, growth. case_match; cbn; eexists; split_and!; auto; lia. }
    destruct Eg as (nb & Eb & Enb & Ed & Et & Es).
    assert (El : length (f_blks g) = S k) by (rewrite Eb, length_app; cbn; lia).
    pose proof (need_owned (put_data c g) (grow_ind (m_freeblock s) f Hi ltac:(lia)) (found_exact g El Ed)) as En'.
    replace (file_blocks (put_data c g)) with (file_blocks g) in En' by done. cbn [put_data f_data] in En'.
    unfold g in En' at 1. rewrite owned_grow, Ed, !length_app, length_seqZ in En' by (done || lia).
    assert (0 < growth f) by (unfold growth; case_match; lia). rewrite Ek.
    destruct (block_new s F1 F2 f H) as (s1 & Hb & G & Efb); [lia|unfold BS; lia|lia|].
    exists g, nb, s1. subst nb. split; [done|]. split; [|lia]. split; [done|]. split; [|done].
    rewrite Eb, Ek. by rewrite lookup_app_r, Nat.sub_diag by lia.
Qed.

(** A turn of the loop of [iappend]. *)
Lemma append_turn : exists x s1 s2 f',
  iappend_block (din_of f) (off / BSIZE) s = Ret (din_of f', x) s1 /\ rsect x s1 = Ret (sect s1 x) s1 /\
  wsect x (splice (Z.to_nat (off - off / BSIZE * BSIZE)) c (sect s1 x)) s1 = Ret tt s2 /\
  file_grown s s2 F1 f f' F2 /\ appended c f f' /\ m_freeblock s2 = m_freeblock s + cost.
Proof.
  destruct turn_block as (f1 & x & s1 & Hb & (G & Hx & El & Ed & Et & Es) & Efb). destruct off_in_block as (Eo & Hm & Hk & Eq).
  pose proof (gr_rep _ _ _ _ _ _ G) as H1. pose proof (rep_blk _ _ _ _ _ _ H1 Hx). destruct (dr_size _ _ H1).
  pose proof (dr_free _ _ H1). pose proof nmeta_eq.
  replace (Z.to_nat (off - off / BSIZE * BSIZE)) with (length (f_data f1) - k * BS)%nat by (rewrite Ed, Eq; unfold BS, off in *; lia).
  destruct (write_data s1 F1 f1 F2 k x c H1 Hx) as (s2 & Hw & G2 & Efb2); [rewrite Ed; unfold BS, off in *; lia..|].
  exists x, s1, s2, (put_data c f1). split_and!; [done|apply rsect_ok; lia|done|by eapply grown_trans| |lia].
  split; [done..|cbn; by rewrite Ed|by apply found_exact].
Qed.
End Turn.

Lemma iappend_loop_ok fuel s F1 f F2 p :
  (length p < fuel)%nat -> disk_rep s (F1 ++ f :: F2) -> exact f ->
  Z.of_nat (length (f_data f) + length p) <= MAXFILE * BSIZE ->
  m_freeblock s + need (length (f_data f) + length p) - need (length (f_data f)) <= FSSIZE ->
  exists s' f', iappend_loop fuel (din_of f) (Z.of_nat (length (f_data f))) p s =
      Ret (din_of f', Z.of_nat (length (f_data f) + length p)) s' /\
    file_grown s s' F1 f f' F2 /\ appended p f f' /\
    m_freeblock s' = m_freeblock s + need (length (f_data f) + length p) - need (length (f_data f)).
Proof.
  revert s f p. induction fuel as [|fuel IH]; intros s f p Hfuel H He Hmax Hroom; [lia|]. cbn [iappend_loop].
  destruct (Z.ltb_spec 0 (Z.of_nat (length p))) as [Hn|Hn]; cbn [negb].
  2:{ destruct p; [|cbn [length] in Hn; lia]. exists s, f. cbn [length]. rewrite Nat.add_0_r. split; [done|].
      split; [by split|]. split; [|lia]. split; [done..|by rewrite app_nil_r|done]. }
  set (off := Z.of_nat (length (f_data f))) in *.
  assert (Hq : off / BSIZE < MAXFILE) by (apply Z.div_lt_upper_bound; lia).
  destruct (Z.ltb_spec (off / BSIZE) MAXFILE) as [_|]; [|lia]. cbn [negb].
  destruct (turn_size off (Z.of_nat (length p)) ltac:(lia) Hq Hn) as [H1 E1].
  set (n1 := Z.min _ _) in *. set (c := take (Z.to_nat n1) p). pose proof (Z.mod_pos_bound off BSIZE ltac:(done)).
  assert (Hc : length c = Z.to_nat n1) by (unfold c; rewrite length_take; lia).
  pose proof (need_mono (length (f_data f) + length c) (length (f_data f) + length p) ltac:(lia)).
  destruct (append_turn s F1 F2 f c H He) as (x & s1 & s2 & f2 & Hb & Hr & Hw & G & A & Efb); [lia|fold off; lia|done|lia|].
  fold off in Hb, Hw. run Hb. run Hr. run Hw. destruct A as [At As Ad Ae].
  destruct (IH s2 f2 (drop (Z.to_nat n1) p)) as (s' & f' & Hl & G' & A' & Efb'); auto.
  - rewrite length_drop. lia.
  - apply (gr_rep _ _ _ _ _ _ G).
  - rewrite Ad, length_app, length_drop. lia.
  - rewrite Ad, length_app, length_drop. replace (_ + _ + _)%nat with (length (f_data f) + length p)%nat by lia. lia.
  - rewrite Ad, length_app, length_drop in Hl, Efb'.
    replace (length (f_data f) + length c + (length p - Z.to_nat n1))%nat with (length (f_data f) + length p)%nat in Hl, Efb' by lia.
    exists s', f'. split; [|split; [by eapply grown_trans|]].
    + rewrite <- Hl. f_equal. rewrite wrap_small; lia.
    + destruct A' as [Bt Bs Bd Be]. split; [|lia]. split; [congruence..| |done].
      rewrite Bd, Ad, <- app_assoc. unfold c. by rewrite take_drop.
Qed.

(** * Inodes *)

Lemma IBLOCK_eq inum : 0 <= inum < 208 -> IBLOCK inum mkfs_sb = inum / 16 + 32 /\ 32 <= IBLOCK inum mkfs_sb < 45.
Proof.
  intros H. unfold IBLOCK. change (sb_inodestart mkfs_sb) with 32. change IPB with 16.
  pose proof (Z.div_pos inum 16 ltac:(lia) ltac:(done)).
  assert (inum / 16 < 13) by (apply Z.div_lt_upper_bound; lia). rewrite wrap_small; lia.
Qed.

(** The inode [inum] of an image with the sectors [C]. *)
Definition inode_at (C : Z -> list Z) (inum : Z) : dinode := get_dinode (dinode_off inum) (C (IBLOCK inum mkfs_sb)).

Record sized (s : mkfs) : Prop := {
  sz_size : m_size s = FSSIZE;
  sz_limit : FSSIZE <= m_limit s;
  sz_len : forall b, length (sect s b) = BS
}.

Lemma rinode_ok s inum : sized s -> 0 <= inum < 208 -> rinode inum s = Ret (inode_at (sect s) inum) s.
Proof.
  intros [Hs Hl Hn] Hi. destruct (IBLOCK_eq inum Hi) as [_ Hb]. unfold rinode.
  run (rsect_ok s (IBLOCK inum mkfs_sb) ltac:(lia) Hs). done.
Qed.

Lemma winode_ok s inum d :
  sized s -> 0 <= inum < 208 -> dinode_wf d ->
  exists s', winode inum d s = Ret tt s' /\ sized s' /\
    (forall j, 0 <= j < 208 -> inode_at (sect s') j = if decide (j = inum) then d else inode_at (sect s) j) /\
    (forall b, b < 32 \/ 45 <= b -> sect s' b = sect s b) /\
    m_freeblock s' = m_freeblock s /\ m_freeinode s' = m_freeinode s.
Proof.
  intros [Hs Hl Hn] Hi Hd. destruct (IBLOCK_eq inum Hi) as [Eb Hb]. set (bn := IBLOCK inum mkfs_sb) in *.
  set (l := put_dinode (dinode_off inum) d (sect s bn)).
  pose proof (dinode_off_bound inum) as Hob. change (Z.to_nat BSIZE) with BS in Hob.
  assert (Hll : length l = BS) by (unfold l; rewrite put_dinode_length by (rewrite ?Hn; done); apply Hn).
  destruct (wsect_ok s bn l) as [Hw Hsz]; [lia|done..|]. exists (set_sect bn l s). split_and!; [| | | |done..].
  - unfold winode. fold bn. run (rsect_ok s bn ltac:(lia) Hs). done.
  - constructor; [congruence|done|]. intros b. rewrite sect_set. by case_decide.
  - intros j Hj. destruct (IBLOCK_eq j Hj) as [Ej _]. unfold inode_at. rewrite sect_set.
    destruct (decide (j = inum)) as [->|Hne].
    + fold bn. rewrite decide_True by done. apply dinode_get_put; [done|]. by rewrite Hn.
    + case_decide as E; [|done]. rewrite E. apply dinode_get_put_ne; [done|by rewrite Hn|].
      apply dinode_off_ne. change IPB with 16. intros Em. apply Hne.
      rewrite (Z.div_mod j 16), (Z.div_mod inum 16) by done. rewrite Em. f_equal. f_equal. lia.
  - intros b Hbb. rewrite sect_set. case_decide; [lia|done].
Qed.

Record file_ok (f : file) : Prop := {
  fo_exact : exact f;
  fo_size : f_size f = Z.of_nat (length (f_data f));
  fo_max : Z.of_nat (length (f_data f)) <= MAXFILE * BSIZE;
  fo_type : 0 < f_type f < 2 ^ 15
}.

(** The image holds the files [F], inode [i + 1] the [i]th. *)
Record image_rep (s : mkfs) (F : list file) : Prop := {
  ir_disk : disk_rep s F;
  ir_inodes : forall i f, F !! i = Some f -> inode_at (sect s) (Z.of_nat i + 1) = din_of f;
  ir_files : Forall file_ok F;
  ir_free : m_freeinode s = Z.of_nat (length F) + 1;
  ir_count : Z.of_nat (length F) < NINODES
}.

Lemma disk_sized s F : disk_rep s F -> sized s.
Proof. intros H. destruct (dr_size _ _ H). constructor; auto. apply (dr_len _ _ H). Qed.

(** Writing inodes leaves the files alone. *)
Lemma disk_rep_meta s s' F :
  disk_rep s F -> sized s' -> (forall b, nmeta <= b -> sect s' b = sect s b) -> m_freeblock s' = m_freeblock s ->
  disk_rep s' F.
Proof.
  intros [Hf Ho Hr Hz Hl Hs Hfr] [Es El En] HC Efb. pose proof nmeta_eq. constructor; auto; try rewrite Efb; auto.
  - apply Forall_forall. intros f Hin. rewrite Forall_forall in Hf. eapply file_rep_frame; [|by apply Hf].
    intros b Hb. apply HC. rewrite Forall_forall in Hr. specialize (Hr b (owned_concat _ _ _ Hin Hb)). lia.
  - intros b Hb. rewrite HC; [by apply Hz|lia].
Qed.

Lemma disk_rep_set_size s F1 f F2 n : disk_rep s (F1 ++ f :: F2) -> disk_rep s (F1 ++ with_size n f :: F2).
Proof.
  intros H. pose proof (rep_file _ _ _ _ H) as []. pose proof (dr_free _ _ H).
  apply (disk_rep_replace s s F1 F2 f (with_size n f) [] H); auto;
    [by constructor|by rewrite app_nil_r|constructor|apply (dr_zero _ _ H)|apply (dr_len _ _ H)|lia].
Qed.

Lemma din_of_wf s F1 f F2 :
  disk_rep s (F1 ++ f :: F2) -> 0 < f_type f < 2 ^ 15 -> 0 <= f_size f < 2 ^ 32 -> dinode_wf (din_of f).
Proof.
  intros H Ht Hs. pose proof (dr_free _ _ H). pose proof nmeta_eq.
  constructor; cbn [din_of di_type di_major di_minor di_nlink di_size di_addrs]; try lia.
  - done.
  - apply Forall_app. split; [|constructor; [|constructor]].
    + apply Forall_fmap, Forall_forall. intros k _. cbn. destruct (f_blks f !! k) as [b|] eqn:E.
      * rewrite (nth_lookup_Some _ _ 0 _ E). pose proof (rep_blk _ _ _ _ _ _ H E). lia.
      * rewrite nth_overflow by (by apply lookup_ge_None). lia.
    + destruct (decide (f_ind f = 0)) as [->|Hi]; [lia|]. pose proof (rep_ind _ _ _ _ H Hi). lia.
Qed.

Lemma iappend_ok s F i f p :
  image_rep s F -> F !! i = Some f -> Z.of_nat (length (f_data f) + length p) <= MAXFILE * BSIZE ->
  m_freeblock s + need (length (f_data f) + length p) - need (length (f_data f)) <= FSSIZE ->
  exists s' f', iappend (Z.of_nat i + 1) p s = Ret tt s' /\ image_rep s' (<[i := f']> F) /\
    f_type f' = f_type f /\ f_data f' = f_data f ++ p /\
    m_freeblock s' = m_freeblock s + need (length (f_data f) + length p) - need (length (f_data f)) /\
    (forall b, b < 32 -> sect s' b = sect s b).
Proof.
  intros [Hd Hin Hfs Hfree Hcnt] Hi Hmax Hroom. pose proof (lookup_lt_Some _ _ _ Hi) as Hlt.
  unfold NINODES in Hcnt. pose proof nmeta_eq. pose proof (take_drop_middle _ _ _ Hi) as EF.
  pose proof (disk_sized _ _ Hd) as Hsz. pose proof (proj1 (Forall_lookup _ _) Hfs _ _ Hi) as [He Es _ Ht].
  set (F1 := take i F) in *. set (F2 := drop (S i) F) in *. rewrite <- EF in Hd.
  unfold iappend. run (rinode_ok s (Z.of_nat i + 1) Hsz ltac:(lia)). rewrite (Hin _ _ Hi).
  change (di_size (din_of f)) with (f_size f). rewrite Es, xint_id by lia.
  destruct (iappend_loop_ok (S (length p)) s F1 f F2 p ltac:(lia) Hd He Hmax Hroom) as (s1 & f1 & Hl & G & A & Efb).
  run Hl. rewrite xint_id by lia. destruct A as [At As Ad Ae].
  set (f2 := with_size (Z.of_nat (length (f_data f) + length p)) f1).
  pose proof (disk_rep_set_size _ _ _ _ (Z.of_nat (length (f_data f) + length p)) (gr_rep _ _ _ _ _ _ G)) as Hd1. fold f2 in Hd1.
  change (set_di_size _ (din_of f1)) with (din_of f2).
  destruct (winode_ok s1 (Z.of_nat i + 1) (din_of f2) (disk_sized _ _ Hd1) ltac:(lia)) as (s2 & Hw & Hsz2 & Hino & Hsame & Ef2 & Ei2).
  { eapply din_of_wf; [exact Hd1|cbn; by rewrite At|cbn; lia]. }
  exists s2, f2. split_and!; [done| |done|done|lia|intros b Hb; rewrite Hsame by lia; apply (gr_meta _ _ _ _ _ _ G); lia].
  constructor.
  - rewrite insert_take_drop by done. eapply disk_rep_meta; eauto with lia.
  - intros j g Hj. assert (Hjl : (j < length F)%nat) by (apply lookup_lt_Some in Hj; by rewrite length_insert in Hj).
    rewrite Hino by lia. case_decide as E.
    + assert (j = i) as -> by lia. rewrite list_lookup_insert_eq in Hj by done. by simplify_eq.
    + rewrite list_lookup_insert_ne in Hj by lia. rewrite <- (Hin _ _ Hj). unfold inode_at. f_equal.
      apply (gr_meta _ _ _ _ _ _ G). destruct (IBLOCK_eq (Z.of_nat j + 1)); lia.
  - apply Forall_insert; [done|]. constructor; cbn; rewrite ?At, ?Ad, ?length_app; try done.
  - rewrite length_insert, Ei2, (gr_inode _ _ _ _ _ _ G). done.
  - by rewrite length_insert.
Qed.

Lemma ialloc_ok s F type :
  image_rep s F -> Z.of_nat (length F) + 1 < NINODES -> 0 < type < 2 ^ 15 ->
  exists s', mkfs_ialloc type s = Ret (Z.of_nat (length F) + 1) s' /\
    image_rep s' (F ++ [mk_file type 0 [] [] 0]) /\ m_freeblock s' = m_freeblock s /\
    (forall b, b < 32 -> sect s' b = sect s b).
Proof.
  intros [Hd Hin Hfs Hfree Hcnt] Hn Ht. unfold NINODES in *. pose proof nmeta_eq. set (f := mk_file type 0 [] [] 0).
  set (s1 := set_freeinode (m_freeinode s + 1) s).
  assert (Hd1 : disk_rep s1 (F ++ [f])).
  { destruct Hd as [Hf Ho Hr Hz Hl Hs Hfr].
    assert (E : concat (file_blocks <$> (F ++ [f])) = concat (file_blocks <$> F)) by (rewrite fmap_app, concat_app; cbn; by rewrite app_nil_r).
    constructor; rewrite ?E; auto. apply Forall_app. split; [done|]. constructor; [|constructor].
    constructor; cbn [f f_blks f_ind]; [cbn; lia|split; [cbn; lia|done]|done|done]. }
  destruct (winode_ok s1 (Z.of_nat (length F) + 1) (din_of f) (disk_sized _ _ Hd1) ltac:(lia)) as
    (s2 & Hw & Hsz2 & Hino & Hsame & Ef2 & Ei2); [eapply (din_of_wf s1 F); [exact Hd1|done|cbn; lia]|].
  exists s2. split_and!; [| |done|intros b Hb; by rewrite Hsame by lia].
  - unfold mkfs_ialloc, gets, modify, bind. rewrite wrap_small by lia. fold s1. rewrite Hfree in *.
    rewrite xshort_id, xint_id by lia. replace (i16 type) with type by (unfold swrap; rewrite Z.mod_small; lia).
    change (i16 (xshort 1)) with 1. fold (din_of f) in *.
    change (mk_dinode type 0 0 1 0 _) with (din_of f). by rewrite Hw.
  - constructor.
    + eapply disk_rep_meta; eauto with lia.
    + intros j g Hj. assert (Hjl : (j < length F + 1)%nat) by (apply lookup_lt_Some in Hj; by rewrite length_app in Hj).
      rewrite Hino by lia. case_decide as E.
      * assert (j = length F) as -> by lia. rewrite lookup_app_r, Nat.sub_diag in Hj by lia. by simplify_eq/=.
      * rewrite lookup_app_l in Hj by lia. by rewrite <- (Hin _ _ Hj).
    + apply Forall_app. split; [done|]. constructor; [|constructor]. constructor; cbn; [|done|lia|done].
      unfold exact, BS. cbn. lia.
    + rewrite length_app, Ei2. cbn. lia.
    + rewrite length_app. cbn. unfold NINODES. lia.
Qed.

Lemma chunks_ok chunks s F i f :
  image_rep s F -> F !! i = Some f -> Forall (fun c => c <> []) chunks ->
  Z.of_nat (length (f_data f ++ concat chunks)) <= MAXFILE * BSIZE ->
  m_freeblock s + need (length (f_data f ++ concat chunks)) - need (length (f_data f)) <= FSSIZE ->
  exists s' f', iappend_chunks (Z.of_nat i + 1) chunks s = Ret tt s' /\ image_rep s' (<[i := f']> F) /\
    f_type f' = f_type f /\ f_data f' = f_data f ++ concat chunks /\
    m_freeblock s' = m_freeblock s + need (length (f_data f ++ concat chunks)) - need (length (f_data f)) /\
    (forall b, b < 32 -> sect s' b = sect s b).
Proof.
  intros H Hi Hc. revert s F f H Hi. induction Hc as [|c cs Hc _ IH]; intros s F f H Hi Hmax Hroom.
  - exists s, f. cbn [concat] in *. rewrite app_nil_r in *. rewrite list_insert_id by done. split_and!; auto. lia.
  - cbn [concat] in *. rewrite !app_assoc in *. rewrite length_app in Hmax.
    pose proof (need_mono (length (f_data f ++ c)) (length ((f_data f ++ c) ++ concat cs)) ltac:(rewrite !length_app; lia)).
    destruct (iappend_ok s F i f c H Hi) as (s1 & f1 & Ha & H1 & Et & Ed & Efb & Hlow).
    { rewrite length_app in Hmax. lia. }
    { rewrite <- length_app. lia. }
    rewrite <- length_app, <- Ed in Efb. rewrite <- Ed in *.
    pose proof (lookup_lt_Some _ _ _ Hi) as Hlt.
    destruct (IH s1 _ f1 H1) as (s2 & f2 & Ha2 & H2 & Et2 & Ed2 & Efb2 & Hlow2).
    { by apply list_lookup_insert_eq. }
    { by rewrite length_app. }
    { lia. }
    rewrite list_insert_insert_eq in H2.
    exists s2, f2. cbn [iappend_chunks]. destruct c as [|a c]; [done|]. run Ha. split_and!; auto; [congruence|lia|].
    intros b Hb. by rewrite Hlow2, Hlow.
Qed.

(** * The whole image *)

(** The name a file of the host gets. *)
Definition stored_name (arg : list Z) : list Z :=
  let n := shortname_of arg in if nth 0 n 0 =? 95 then drop 1 n else n.

(** A file of the host that fits: its name and the results of [read]. *)
Record good_file (x : list Z * list (list Z)) : Prop := {
  gf_slash : existsb (Z.eqb 47) (shortname_of (fst x)) = false;
  gf_name : Z.of_nat (length (stored_name (fst x))) <= DIRSIZ;
  gf_chunks : Forall (fun c => c <> []) (snd x);
  gf_size : Z.of_nat (length (concat (snd x))) <= MAXFILE * BSIZE
}.

(** The entries of the files [xs], the first of them inode [n]. *)
Fixpoint entries (n : Z) (xs : list (list Z * list (list Z))) : list Z :=
  match xs with [] => [] | x :: xs => dirent n (stored_name (fst x)) ++ entries (n + 1) xs end.
Fixpoint needs (xs : list (list Z * list (list Z))) : Z :=
  match xs with [] => 0 | x :: xs => need (length (concat (snd x))) + needs xs end.

Definition host (x : list Z * list (list Z)) : list Z * option (list (list Z)) := (fst x, Some (snd x)).

Lemma length_dirent n name : length (dirent n name) = Z.to_nat DIRENT_SIZE.
Proof.
  unfold dirent. rewrite length_app, length_le_enc. change (Z.to_nat DIRENT_SIZE) with (2 + Z.to_nat DIRSIZ)%nat. f_equal.
  generalize (Z.to_nat DIRSIZ). intros k. revert name. induction k as [|k IH]; intros name; [done|].
  cbn [strncpy_list]. case_match; [by rewrite length_replicate|]. cbn. by rewrite IH.
Qed.

Lemma length_entries n xs : length (entries n xs) = (Z.to_nat DIRENT_SIZE * length xs)%nat.
Proof.
  revert n. induction xs as [|x xs IH]; intros n; [done|]. cbn [entries length]. rewrite length_app, length_dirent, IH. lia.
Qed.

Lemma need_nonneg n : 0 <= need n.
Proof. pose proof (need_mono 0 n ltac:(lia)). change (need 0) with 0 in *. lia. Qed.

Lemma needs_nonneg xs : 0 <= needs xs.
Proof. induction xs as [|x xs IH]; cbn [needs]; [lia|]. pose proof (need_nonneg (length (concat (snd x)))). lia. Qed.

Lemma file_made s root G x :
  image_rep s (root :: G) -> good_file x -> Z.of_nat (length G) + 2 < NINODES ->
  let data := f_data root ++ dirent (Z.of_nat (length G) + 2) (stored_name (fst x)) in
  Z.of_nat (length data) <= MAXFILE * BSIZE ->
  m_freeblock s + need (length data) - need (length (f_data root)) + need (length (concat (snd x))) <= FSSIZE ->
  exists s' root' f, mkfs_file ROOTINO (host x) s = Ret tt s' /\ image_rep s' (root' :: G ++ [f]) /\
    f_type root' = f_type root /\ f_data root' = data /\ f_type f = T_FILE /\ f_data f = concat (snd x) /\
    m_freeblock s' = m_freeblock s + need (length data) - need (length (f_data root)) + need (length (concat (snd x))) /\
    (forall b, b < 32 -> sect s' b = sect s b).
Proof.
  intros H [Hsl Hnm Hch Hsize] Hcnt data Hmax Hroom. unfold NINODES in Hcnt.
  destruct (ialloc_ok s (root :: G) T_FILE H) as (s1 & Ha & H1 & Efb1 & L1); [cbn; unfold NINODES; lia|done|].
  pose proof (need_nonneg (length (concat (snd x)))). unfold data in Hmax, Hroom. rewrite length_app in Hmax, Hroom.
  destruct (iappend_ok s1 _ 0 root (dirent (Z.of_nat (length G) + 2) (stored_name (fst x))) H1 eq_refl)
    as (s2 & root' & Hb & H2 & Et & Ed & Efb2 & L2); [done|lia|].
  cbn [app insert list_insert] in H2.
  destruct (chunks_ok (snd x) s2 _ (S (length G)) (mk_file T_FILE 0 [] [] 0) H2) as (s3 & f & Hc & H3 & Et3 & Ed3 & Efb3 & L3); auto.
  - change ((G ++ [mk_file T_FILE 0 [] [] 0]) !! length G = Some (mk_file T_FILE 0 [] [] 0)).
    by rewrite lookup_app_r, Nat.sub_diag.
  - cbn. change (need 0) with 0. lia.
  - exists s3, root', f. split_and!; auto.
    + unfold mkfs_file, host. cbn [fst snd]. rewrite Hsl. fold (stored_name (fst x)).
      destruct (Z.leb_spec (Z.of_nat (length (stored_name (fst x)))) DIRSIZ); [|lia]. cbn [negb].
      run Ha. replace (Z.of_nat (length (root :: G)) + 1) with (Z.of_nat (length G) + 2) by (cbn; lia).
      change ROOTINO with (Z.of_nat 0 + 1). run Hb. rewrite <- Hc. f_equal. lia.
    + change (image_rep s3 (root' :: <[length G := f]> (G ++ [mk_file T_FILE 0 [] [] 0]))) in H3. rewrite insert_app_r_alt, Nat.sub_diag in H3 by lia. done.
    + cbn in Efb3. change (need 0) with 0 in Efb3. unfold data. rewrite length_app. lia.
    + intros b Hbb. by rewrite L3, L2, L1.
Qed.

Lemma files_made xs s root G :
  image_rep s (root :: G) -> Forall good_file xs -> Z.of_nat (length G) + 1 + Z.of_nat (length xs) < NINODES ->
  let data := f_data root ++ entries (Z.of_nat (length G) + 2) xs in
  Z.of_nat (length data) <= MAXFILE * BSIZE ->
  m_freeblock s + need (length data) - need (length (f_data root)) + needs xs <= FSSIZE ->
  exists s' root' G', mkfs_files ROOTINO (host <$> xs) s = Ret tt s' /\ image_rep s' (root' :: G ++ G') /\
    f_type root' = f_type root /\ f_data root' = data /\
    Forall2 (fun x f => f_type f = T_FILE /\ f_data f = concat (snd x)) xs G' /\
    (forall b, b < 32 -> sect s' b = sect s b).
Proof.
  intros H Hg. revert s root G H. induction Hg as [|x xs Hx _ IH]; intros s root G H Hcnt data Hmax Hroom.
  - exists s, root, []. unfold data. cbn [entries]. rewrite !app_nil_r. auto 10.
  - cbn [entries needs length] in *. unfold data in *. rewrite app_assoc in *.
    pose proof (needs_nonneg xs). set (d1 := f_data root ++ dirent _ _) in *.
    pose proof (need_mono (length d1) (length (d1 ++ entries (Z.of_nat (length G) + 2 + 1) xs))
      ltac:(rewrite length_app; lia)).
    destruct (file_made s root G x H Hx) as (s1 & root1 & f & Hf & HI1 & Et & Ed & Ft & Fd & Efb & L1);
      [lia|fold d1; rewrite length_app in Hmax; lia|fold d1; lia|]. fold d1 in Ed, Efb.
    assert (El : Z.of_nat (length (G ++ [f])) = Z.of_nat (length G) + 1) by (rewrite length_app; cbn; lia).
    destruct (IH s1 root1 (G ++ [f]) HI1) as (s2 & root2 & G' & Hfs & HI2 & Et2 & Ed2 & F2 & L2).
    + lia.
    + rewrite Ed, El. replace (_ + 1 + 2) with (Z.of_nat (length G) + 2 + 1) by lia. done.
    + rewrite Ed, El. replace (_ + 1 + 2) with (Z.of_nat (length G) + 2 + 1) by lia. lia.
    + exists s2, root2, (f :: G'). cbn [fmap list_fmap mkfs_files]. run Hf. rewrite <- app_assoc in HI2.
      split_and!; auto; [congruence| |intros b Hb; by rewrite L2, L1].
      rewrite Ed2, Ed, El. do 2 f_equal. lia.
Qed.

(** What the kernel reads: block [k] of the inode, its first [n] bytes, and the
    blocks it holds. *)
Definition block_of (C : Z -> list Z) (d : dinode) (k : Z) : Z :=
  if k <? NDIRECT then nth (Z.to_nat k) (di_addrs d) 0
  else uint_at (k - NDIRECT) (C (nth (Z.to_nat NDIRECT) (di_addrs d) 0)).
Definition bytes_of (C : Z -> list Z) (d : dinode) (n : nat) : list Z :=
  (fun i => nth (i mod BS) (C (block_of C d (Z.of_nat (i / BS)))) 0) <$> seq 0 n.
Definition inode_blocks (C : Z -> list Z) (d : dinode) : list Z :=
  let ind := nth (Z.to_nat NDIRECT) (di_addrs d) 0 in
  filter (fun b => b <> 0) (take (Z.to_nat NDIRECT) (di_addrs d)) ++
  (if ind =? 0 then [] else ind :: filter (fun b => b <> 0) ((fun j => uint_at j (C ind)) <$> seqZ 0 NINDIRECT)).

Lemma block_of_rep C f d k b :
  file_rep C f -> di_addrs d = addrs_of (f_blks f) (f_ind f) -> f_blks f !! k = Some b -> block_of C d (Z.of_nat k) = b.
Proof.
  intros Hf Ea Hk. pose proof (nth_lookup_Some _ _ 0 _ Hk) as Hn. pose proof (lookup_lt_Some _ _ _ Hk).
  pose proof (fr_max _ _ Hf) as Hmax. unfold MAXFILE in Hmax. unfold block_of. rewrite Ea. fold ND.
  destruct (Z.ltb_spec (Z.of_nat k) NDIRECT).
  - rewrite Nat2Z.id, addrs_of_direct; [done|unfold ND; lia].
  - assert (f_ind f <> 0) by (intros E; apply (fr_ind _ _ Hf) in E; unfold ND in E; lia).
    rewrite addrs_of_ind, (fr_tbl _ _ Hf) by (done || lia). by replace (_ + _)%nat with k by (unfold ND; lia).
Qed.

Lemma bytes_of_rep C f d :
  file_rep C f -> exact f -> di_addrs d = addrs_of (f_blks f) (f_ind f) -> bytes_of C d (length (f_data f)) = f_data f.
Proof.
  intros Hf He Ea. unfold exact in He. apply list_eq. intros i. unfold bytes_of. rewrite list_lookup_fmap.
  destruct (f_data f !! i) as [v|] eqn:Ei.
  - pose proof (lookup_lt_Some _ _ _ Ei) as Hi. rewrite lookup_seq_lt by done. cbn [fmap option_fmap option_map plus]. f_equal.
    pose proof (Nat.div_mod i BS ltac:(done)) as Hdm. pose proof (Nat.mod_upper_bound i BS ltac:(done)).
    assert (Hk : (i / BS < length (f_blks f))%nat) by (apply Nat.Div0.div_lt_upper_bound; lia).
    destruct (lookup_lt_is_Some_2 _ _ Hk) as [b Hb]. rewrite (block_of_rep C f d _ b Hf Ea Hb).
    rewrite (fr_bytes _ _ Hf _ _ Hb) by done. replace (_ + _)%nat with i by lia. by apply nth_lookup_Some.
  - apply lookup_ge_None in Ei. by rewrite lookup_seq_ge by lia.
Qed.

(** The nonzero entries of a table that starts with [l]. *)
Lemma filter_table l n :
  Forall (fun b => b <> 0) l -> (length l <= n)%nat ->
  filter (fun b => b <> 0) ((fun k => nth k l 0) <$> seq 0 n) = l.
Proof.
  intros Hl. revert n. induction Hl as [|x l Hx _ IH]; intros n Hn.
  - induction (seq 0 n) as [|k ks IHk]; [done|]. cbn [fmap list_fmap]. rewrite filter_cons_False; [done|]. intros Hk. by destruct k.
  - cbn [length] in Hn. destruct n as [|n]; [lia|]. cbn [seq fmap list_fmap]. rewrite filter_cons_True by done. cbn [nth]. f_equal.
    rewrite <- fmap_S_seq, <- list_fmap_compose. apply IH. lia.
Qed.

Lemma inode_blocks_rep s F1 f F2 d :
  disk_rep s (F1 ++ f :: F2) -> di_addrs d = addrs_of (f_blks f) (f_ind f) -> inode_blocks (sect s) d = file_blocks f.
Proof.
  intros H Ea. pose proof (rep_file _ _ _ _ H) as Hf. pose proof nmeta_eq. unfold inode_blocks, file_blocks. rewrite Ea. fold ND.
  rewrite addrs_of_ind.
  assert (Hnz : Forall (fun b => b <> 0) (f_blks f)).
  { apply Forall_lookup. intros k b Hk. pose proof (rep_blk _ _ _ _ _ _ H Hk). lia. }
  f_equal.
  - unfold addrs_of. rewrite take_app_length' by (by rewrite length_fmap, length_seq).
    rewrite <- (filter_table (take ND (f_blks f)) ND) by (auto using Forall_take || (rewrite length_take; lia)).
    f_equal. apply list_fmap_ext. intros i k Hk. apply lookup_seq in Hk as [-> Hk].
    by rewrite !nth_lookup, lookup_take_lt by lia.
  - destruct (Z.eqb_spec (f_ind f) 0) as [|Hi]; [done|]. f_equal. pose proof (fr_max _ _ Hf) as Hmax. unfold MAXFILE in Hmax.
    rewrite <- (filter_table (drop ND (f_blks f)) (Z.to_nat NINDIRECT)) by
      (auto using Forall_drop || (rewrite length_drop; unfold ND; lia)).
    f_equal. unfold seqZ. rewrite <- list_fmap_compose. apply list_fmap_ext. intros i k Hk.
    apply lookup_seq in Hk as [-> Hk]. cbn [compose plus]. rewrite (fr_tbl _ _ Hf Hi) by lia.
    rewrite !nth_lookup, lookup_drop. do 3 f_equal. lia.
Qed.

Lemma balloc_bits_set n i l j :
  0 <= i -> i + Z.of_nat n <= BPB -> 0 <= j < BPB -> length l = Z.to_nat BSIZE ->
  bit_set j (balloc_bits n i l) = (i <=? j) && (j <? i + Z.of_nat n) || bit_set j l.
Proof.
  revert i l. induction n as [|n IH]; intros i l Hi Hn Hj Hl; cbn [balloc_bits].
  - destruct (Z.leb_spec i j), (Z.ltb_spec j (i + Z.of_nat 0)); try done; lia.
  - rewrite IH; [|lia..|done|unfold set_bit, put_byte; by rewrite length_insert].
    rewrite bit_set_set by lia. destruct (Z.leb_spec (i + 1) j), (Z.ltb_spec j (i + 1 + Z.of_nat n)),
      (Z.leb_spec i j), (Z.ltb_spec j (i + Z.of_nat (S n))), (Z.eqb_spec i j); try done; lia.
Qed.

Lemma zero_sects_ok n i s :
  0 <= i -> m_size s = i -> i + Z.of_nat n <= FSSIZE -> FSSIZE <= m_limit s -> (forall b, sect s b = zero_block) ->
  exists s', zero_sects n i s = Ret tt s' /\ m_size s' = i + Z.of_nat n /\ (forall b, sect s' b = zero_block) /\
    m_limit s' = m_limit s /\ m_freeinode s' = m_freeinode s /\ m_freeblock s' = m_freeblock s.
Proof.
  revert i s. induction n as [|n IH]; intros i s Hi Hs Hn Hl Hz; cbn [zero_sects].
  - exists s. split_and!; auto. lia.
  - assert (Hw : wsect i zero_block s = Ret tt (set_sect i zero_block s)).
    { unfold wsect, gets, modify, bind. rewrite lseek_sect_id by lia. destruct (Z.ltb_spec i (m_limit s)); [done|lia]. }
    run Hw. destruct (IH (i + 1) (set_sect i zero_block s)) as (s' & E & Es & Ez & El & Ei & Ef).
    + lia.
    + cbn. lia.
    + lia.
    + done.
    + intros b. rewrite sect_set. by case_decide.
    + exists s'. split_and!; auto. lia.
Qed.

(** The empty image, with its superblock. *)
Lemma start_ok limit :
  FSSIZE <= limit -> exists s,
    (modify (set_freeblock nmeta) ;; zero_sects (Z.to_nat FSSIZE) 0 ;; wsect 1 (put_sb mkfs_sb zero_block)) (mkfs0 limit) = Ret tt s /\
    image_rep s [] /\ m_freeblock s = nmeta /\ sect s 1 = put_sb mkfs_sb zero_block /\ sect s 2 = zero_block.
Proof.
  intros Hl. rewrite (bind_Ret (modify _) _ _ _ _ eq_refl).
  destruct (zero_sects_ok (Z.to_nat FSSIZE) 0 (set_freeblock nmeta (mkfs0 limit))) as (s & E & Es & Ez & El & Ei & Ef);
    [done|done|lia|done|done|]. run E. change (m_size s = FSSIZE) in Es. cbn [set_freeblock mkfs0 m_limit] in El.
  destruct (wsect_ok s 1 (put_sb mkfs_sb zero_block)) as [Hw Hsz]; [lia|done|lia|].
  exists (set_sect 1 (put_sb mkfs_sb zero_block) s).
  split_and!; [done| |done|by rewrite sect_set|by rewrite sect_set, Ez].
  constructor; [|done|constructor|done|done]. pose proof nmeta_eq. constructor; cbn [fmap list_fmap concat].
  - constructor.
  - constructor.
  - constructor.
  - intros b Hb. rewrite sect_set. case_decide; [|apply Ez]. cbn in Hb. rewrite Ef in Hb. cbn in Hb. lia.
  - intros b. rewrite sect_set. case_decide; [apply put_sb_ok|by rewrite Ez].
  - rewrite Hsz. cbn. rewrite El. lia.
  - cbn. rewrite Ef. cbn. lia.
Qed.

(** The end of [main]: the size of the root directory is rounded up and the
    bitmap written. *)
Lemma finish_ok s root G :
  image_rep s (root :: G) -> let n := (f_size root / BSIZE + 1) * BSIZE in
  exists s', (din <- rinode ROOTINO ;;
      let off := u32 ((xint (di_size din) / BSIZE + 1) * BSIZE) in
      winode ROOTINO (set_di_size (xint off) din) ;; used <- gets m_freeblock ;; mkfs_balloc (i32 used) ;; ret 0) s = Ret 0 s' /\
    disk_rep s' (with_size n root :: G) /\
    (forall i f, (with_size n root :: G) !! i = Some f -> inode_at (sect s') (Z.of_nat i + 1) = din_of f) /\
    sect s' 45 = balloc_bits (Z.to_nat (m_freeblock s')) 0 zero_block /\
    (forall b, b < 32 -> sect s' b = sect s b).
Proof.
  intros [Hd Hin Hfs Hfree Hcnt] n. pose proof (disk_sized _ _ Hd) as Hsz. pose proof nmeta_eq. unfold NINODES in Hcnt.
  inversion_clear Hfs as [|? ? [He Es Hmax Ht] HG]. unfold MAXFILE in Hmax.
  assert (Hn : 0 <= n < 2 ^ 32).
  { pose proof (Z.div_pos (f_size root) BSIZE ltac:(lia) ltac:(done)).
    assert (f_size root / BSIZE < 300) by (apply Z.div_lt_upper_bound; lia). unfold n. lia. }
  run (rinode_ok s ROOTINO Hsz ltac:(done)). cbv zeta. change ROOTINO with (Z.of_nat 0 + 1). rewrite (Hin 0%nat root eq_refl).
  change (di_size (din_of root)) with (f_size root). rewrite (xint_id (f_size root)) by lia. fold n.
  rewrite wrap_small, xint_id by done. change (set_di_size n (din_of root)) with (din_of (with_size n root)).
  pose proof (disk_rep_set_size s [] root G n Hd) as Hd1. cbn [app] in Hd1.
  destruct (winode_ok s (Z.of_nat 0 + 1) (din_of (with_size n root)) Hsz ltac:(done)) as (s1 & Hw & Hsz1 & Hino & Hsame & Ef & Ei).
  { eapply (din_of_wf s []); [exact Hd1|done|done]. }
  assert (Hd2 : disk_rep s1 (with_size n root :: G)) by (eapply disk_rep_meta; eauto with lia).
  run Hw. rewrite (bind_Ret (gets _) _ _ _ _ eq_refl). pose proof (dr_free _ _ Hd2) as Hfb.
  replace (i32 (m_freeblock s1)) with (m_freeblock s1) by (unfold swrap; rewrite Z.mod_small; lia).
  unfold mkfs_balloc. destruct (Z.ltb_spec (m_freeblock s1) BPB); [|lia]. cbn [negb].
  change (sb_bmapstart mkfs_sb) with 45. destruct Hsz1 as [Z1 Z2 Z3].
  destruct (wsect_ok s1 45 (balloc_bits (Z.to_nat (m_freeblock s1)) 0 zero_block)) as [Hw2 Hsz2]; [lia|done..|].
  run Hw2. set (s2 := set_sect 45 _ s1) in *.
  assert (Hsame2 : forall b, b <> 45 -> sect s2 b = sect s1 b) by (intros b Hb; unfold s2; rewrite sect_set; by case_decide).
  exists s2. split_and!; [done| | |unfold s2; by rewrite sect_set|intros b Hb; rewrite Hsame2, Hsame by lia; done].
  - eapply disk_rep_meta; [exact Hd2| |intros b Hb; apply Hsame2; lia|done]. constructor; [congruence|done|].
    intros b. unfold s2. rewrite sect_set. case_decide; [|apply Z3]. apply balloc_bits_ok, zero_block_ok.
  - intros i f Hi. assert (Hil : (i < S (length G))%nat) by (apply lookup_lt_Some in Hi; done). cbn [length] in Hcnt.
    destruct (IBLOCK_eq (Z.of_nat i + 1) ltac:(lia)) as [_ Hb].
    transitivity (inode_at (sect s1) (Z.of_nat i + 1)); [unfold inode_at; by rewrite Hsame2 by lia|].
    rewrite Hino by lia. destruct i as [|i]; [rewrite decide_True by lia; by simplify_eq/=|].
    rewrite decide_False by lia. by apply Hin.
Qed.

(** The root directory with its first two entries. *)
Lemma root_ok s :
  image_rep s [] -> m_freeblock s = nmeta -> exists s' root,
    (rootino <- mkfs_ialloc T_DIR ;;
     if negb (rootino =? ROOTINO) then panic "rootino == ROOTINO" else
     iappend rootino (dirent rootino [46]) ;; iappend rootino (dirent rootino [46; 46]) ;; ret rootino) s = Ret ROOTINO s' /\
    image_rep s' [root] /\ f_type root = T_DIR /\ f_data root = dirent ROOTINO [46] ++ dirent ROOTINO [46; 46] /\
    m_freeblock s' = nmeta + 1 /\ (forall b, b < 32 -> sect s' b = sect s b).
Proof.
  intros H Efb. pose proof nmeta_eq.
  destruct (ialloc_ok s [] T_DIR H) as (s1 & Ha & H1 & Ef1 & L1); [done|done|].
  destruct (iappend_ok s1 _ 0 _ (dirent ROOTINO [46]) H1 eq_refl) as (s2 & r2 & Hb & H2 & Et2 & Ed2 & Ef2 & L2);
    [done|cbn [f_data]; rewrite length_dirent, Ef1, Efb; vm_compute; done|]. cbn [app insert list_insert f_type f_data] in *.
  rewrite length_dirent in Ef2.
  destruct (iappend_ok s2 _ 0 _ (dirent ROOTINO [46; 46]) H2 eq_refl) as (s3 & r3 & Hc & H3 & Et3 & Ed3 & Ef3 & L3);
    [rewrite Ed2, !length_dirent; vm_compute; done|rewrite Ed2, !length_dirent, Ef2, Ef1, Efb; vm_compute; done|].
  rewrite Ed2, !length_dirent, Ef2, Ef1, Efb in Ef3.
  exists s3, r3. split_and!; [|done|congruence|congruence|rewrite Ef3; done|intros b Hbb; by rewrite L3, L2, L1].
  run Ha. change (negb (Z.of_nat (length (@nil file)) + 1 =? ROOTINO)) with false. cbv iota.
  change (Z.of_nat (length (@nil file)) + 1) with (Z.of_nat 0 + 1). change ROOTINO with (Z.of_nat 0 + 1) in *.
  run Hb. run Hc. done.
Qed.

(** The image a kernel can start from: the superblock and the log header it
    reads, a bitmap that marks just the blocks below [free], the directory of
    the root with the entries [es], and inode [i + 2] the [i]th of the files
    [xs]; no block belongs to two inodes. *)
Record built (C : Z -> list Z) (free : Z) (es : list Z) (xs : list (list Z * list (list Z))) : Prop := {
  bu_sb : get_sb (C 1) = mk_superblock FSMAGIC FSSIZE (FSSIZE - 46) 200 30 2 32 45;
  bu_log : uint_at 0 (C (sb_logstart (get_sb (C 1)))) = 0;
  bu_bitmap : forall b, 0 <= b < FSSIZE -> used (get_sb (C 1)) C b = (b <? free);
  bu_root : let d := inode_at C ROOTINO in
    di_type d = T_DIR /\ di_nlink d = 1 /\ bytes_of C d (length es) = es /\
    di_size d = (Z.of_nat (length es) / BSIZE + 1) * BSIZE;
  bu_files : forall i x, xs !! i = Some x -> let d := inode_at C (Z.of_nat i + 2) in
    di_type d = T_FILE /\ di_nlink d = 1 /\ bytes_of C d (Z.to_nat (di_size d)) = concat (snd x);
  bu_blocks : let bs := concat ((fun i => inode_blocks C (inode_at C i)) <$> seqZ 1 (Z.of_nat (length xs) + 1)) in
    NoDup bs /\ Forall (fun b => 46 <= b < free) bs
}.

Lemma blocks_of_files s F :
  disk_rep s F -> (forall i f, F !! i = Some f -> inode_at (sect s) (Z.of_nat i + 1) = din_of f) ->
  concat ((fun i => inode_blocks (sect s) (inode_at (sect s) i)) <$> seqZ 1 (Z.of_nat (length F))) = concat (file_blocks <$> F).
Proof.
  intros H Hin. f_equal. apply list_eq. intros i. rewrite !list_lookup_fmap. destruct (F !! i) as [f|] eqn:E.
  - pose proof (lookup_lt_Some _ _ _ E). rewrite lookup_seqZ_lt by lia. cbn [fmap option_fmap option_map]. f_equal.
    replace (1 + Z.of_nat i) with (Z.of_nat i + 1) by lia. rewrite (Hin _ _ E).
    eapply (inode_blocks_rep s (take i F) f (drop (S i) F)); [by rewrite take_drop_middle|done].
  - apply lookup_ge_None in E. by rewrite lookup_seqZ_ge by lia.
Qed.

Lemma built_ok s root G xs es :
  disk_rep s (with_size ((Z.of_nat (length es) / BSIZE + 1) * BSIZE) root :: G) ->
  (forall i f, (with_size ((Z.of_nat (length es) / BSIZE + 1) * BSIZE) root :: G) !! i = Some f ->
     inode_at (sect s) (Z.of_nat i + 1) = din_of f) ->
  sect s 45 = balloc_bits (Z.to_nat (m_freeblock s)) 0 zero_block ->
  sect s 1 = put_sb mkfs_sb zero_block -> sect s 2 = zero_block ->
  f_type root = T_DIR -> f_data root = es -> exact root -> Forall file_ok G ->
  Forall2 (fun x f => f_type f = T_FILE /\ f_data f = concat (snd x)) xs G ->
  built (sect s) (m_freeblock s) es xs.
Proof.
  intros Hd Hin Hbm H1 H2 Ht Hes He HG HX. pose proof (dr_free _ _ Hd) as Hfb. pose proof nmeta_eq.
  assert (Hsb : get_sb (sect s 1) = mk_superblock FSMAGIC FSSIZE (FSSIZE - 46) 200 30 2 32 45) by (rewrite H1; vm_compute; done).
  constructor; [done| | | | |].
  - rewrite Hsb. cbn [sb_logstart]. rewrite H2. apply uint_at_zero.
  - intros b Hb. unfold used, BBLOCK. rewrite Hsb. cbn [sb_bmapstart]. rewrite Z.div_small, Z.mod_small by lia.
    change (u32 (0 + 45)) with 45. rewrite Hbm, balloc_bits_set by (done || lia).
    replace (bit_set b zero_block) with false by (unfold bit_set, byte_at; by rewrite nth_zero, Z.land_0_l).
    rewrite orb_false_r, Z2Nat.id, Z.add_0_l by lia. destruct (Z.leb_spec 0 b); [done|lia].
  - change ROOTINO with (Z.of_nat 0 + 1). rewrite (Hin 0%nat _ eq_refl). cbn zeta. split_and!; [done|done| |done].
    rewrite <- Hes. apply bytes_of_rep; [|done|done].
    pose proof (rep_file s [] _ G Hd) as []. by constructor.
  - intros i x Hx. destruct (Forall2_lookup_l _ _ _ _ _ HX Hx) as (f & Hf & Et & Ed). cbn zeta.
    pose proof (Hin (S i) f Hf) as E. replace (Z.of_nat (S i) + 1) with (Z.of_nat i + 2) in E by lia. rewrite E.
    pose proof (proj1 (Forall_lookup _ _) HG _ _ Hf) as [Hx1 Hx2 _ _]. split_and!; [done|done|].
    cbn [din_of di_size]. rewrite Hx2, Nat2Z.id, <- Ed. apply bytes_of_rep; [|done|done].
    apply (proj1 (Forall_lookup _ _) (dr_files _ _ Hd) (S i)). done.
  - cbn zeta. pose proof (blocks_of_files _ _ Hd Hin) as E. cbn [length] in E.
    replace (Z.of_nat (S (length G))) with (Z.of_nat (length xs) + 1) in E by (rewrite (Forall2_length _ _ _ HX); lia).
    rewrite E. split; [apply (dr_own _ _ Hd)|]. exact (dr_range _ _ Hd).
Qed.

(** C13: [mkfs], given files whose names fit in a directory entry and that fit
    together on the disk, ends with status 0 and leaves the image the kernel
    expects: the superblock its [readsb] decodes, an empty log, the bitmap that
    marks exactly the blocks in use, a root directory with an entry for each
    file, and in each file's inode (through direct and indirect blocks) the
    bytes that were read on the host, no block being shared. *)
Theorem mkfs_builds limit xs :
  let es := dirent ROOTINO [46] ++ dirent ROOTINO [46; 46] ++ entries 2 xs in
  FSSIZE <= limit -> Forall good_file xs -> Z.of_nat (length xs) + 1 < NINODES ->
  nmeta + need (length es) + needs xs <= FSSIZE ->
  exists s, mkfs_main (Some true) (host <$> xs) (mkfs0 limit) = Ret 0 s /\ built (sect s) (m_freeblock s) es xs.
Proof.
  intros es Hl Hg Hc Hroom. destruct (start_ok limit Hl) as (s1 & E1 & H1 & F1 & S1 & S2).
  destruct (root_ok s1 H1 F1) as (s2 & root & E2 & H2 & T2 & D2 & F2 & L2).
  assert (Ees : f_data root ++ entries (Z.of_nat (length (@nil file)) + 2) xs = es) by (rewrite D2; unfold es; by rewrite <- app_assoc).
  assert (Hes : length es = (32 + 16 * length xs)%nat).
  { unfold es. rewrite !length_app, !length_dirent, length_entries. change (Z.to_nat DIRENT_SIZE) with 16%nat. lia. }
  destruct (files_made xs s2 root [] H2 Hg) as (s3 & root' & G & E3 & H3 & T3 & D3 & X3 & L3).
  - cbn [length]. lia.
  - rewrite Ees, Hes. unfold NINODES, MAXFILE in *. lia.
  - rewrite Ees, D2, length_app, !length_dirent, F2. change (need (_ + _)) with 1. lia.
  - rewrite Ees in D3. cbn [app] in H3. destruct (finish_ok s3 root' G H3) as (s4 & E4 & Hd & Hin & Hbm & L4).
    pose proof (ir_files _ _ H3) as HF. inversion_clear HF as [|? ? [R1 R2 _ _] HG]. rewrite R2, D3 in *.
    exists s4. split.
    + unfold mkfs_main. apply bind_inv in E1 as ([] & t1 & E1 & E1'). apply bind_inv in E1' as ([] & t2 & E1' & E1'').
      run E1. run E1'. run E1''. apply bind_inv in E2 as (r & t3 & E2 & E2'). run E2. case_match; [done|].
      apply bind_inv in E2' as ([] & t4 & E5 & E6). apply bind_inv in E6 as ([] & t5 & E6 & E7). injection E7 as -> ->.
      run E5. run E6. run E3. exact E4.
    + apply (built_ok s4 root' G); auto; [rewrite L4, L3, L2 by lia; done..|congruence].
Qed.

Lemma mkfs_builds_witness :
  let xs := [([82; 69; 65; 68; 77; 69], [[104; 105; 10]]);
             ([117; 115; 101; 114; 47; 95; 108; 115], replicate 13 (replicate 1024 7))] in
  let es := dirent ROOTINO [46] ++ dirent ROOTINO [46; 46] ++ entries 2 xs in
  FSSIZE <= 2000 /\ Forall good_file xs /\ Z.of_nat (length xs) + 1 < NINODES /\
  nmeta + need (length es) + needs xs <= FSSIZE /\
  exists s, mkfs_main (Some true) (host <$> xs) (mkfs0 2000) = Ret 0 s /\ built (sect s) (m_freeblock s) es xs.
Proof.
  intros xs es.
  assert (H1 : FSSIZE <= 2000) by done.
  assert (H2 : Forall good_file xs).
  { repeat constructor; vm_compute; done. }
  assert (H3 : Z.of_nat (length xs) + 1 < NINODES) by done.
  assert (H4 : nmeta + need (length es) + needs xs <= FSSIZE) by (vm_compute; done).
  split_and!; [exact H1|exact H2|exact H3|exact H4|exact (mkfs_builds 2000 xs H1 H2 H3 H4)].
Defined.
