(* ===== verification/Console.v ===== *)
(** kernel/console.c and [uartintr] of kernel/uart.c: console input and output.

    The theorems show that the input ring with its three indices is a pair of
    queues, the bytes [consoleread] may take and the line being edited, and
    that the interrupt handler and [consoleread] are line editing and line
    reading on these queues. *)

From S2P Require Import Prelude Types Memory Spinlock Vm Sched Sleeplock Bio Uart Crash Fs.
Local Open Scope c_scope.

(** [C(x)], control-x *)
Definition CTRL (x : Z) : Z := x - 64.

Definition upd_cons (f : cons -> cons) : K unit := modify (fun s => set_k_cons (f (k_cons s)) s).

(** [cons.buf[i % INPUT_BUF_SIZE]] *)
Definition cons_slot (i : Z) : nat := Z.to_nat (i mod INPUT_BUF_SIZE).
Definition cons_at (i : Z) : K Z := fun s => deref "cons.buf" (cons_buf (k_cons s) !! cons_slot i) s.

Section Console.
Context {W : Wakeups}.

(** * System calls *)

(** [while (i < n)], at most 32 bytes at a time *)
Fixpoint consolewrite_loop (fuel : nat) (src : source) (i n : Z) : K Z :=
  match fuel with
  | O => nofuel
  | S fuel =>
      if negb (i <? n) then ret i else
      let nn := if n - i <? 32 then n - i else 32 in
      ' (r, buf) <- either_copyin src i nn ;;
      if r =? -1 then ret i else
      uartwrite buf ;;
      consolewrite_loop fuel src (i + nn) n
  end.
Definition consolewrite (src : source) (n : Z) : K Z := consolewrite_loop (S (Z.to_nat n)) src 0 n.

(** [while (cons.r == cons.w)]; [false]: killed, and the lock is released *)
Fixpoint cons_wait (fuel : nat) : K bool :=
  match fuel with
  | O => nofuel
  | S fuel =>
      c <- gets k_cons ;;
      if negb (cons_r c =? cons_w c) then ret true else
      p <- me ;;
      k <- killed p ;;
      if negb (k =? 0) then release LK_cons ;; ret false else
      sleep CH_cons_r LK_cons ;;
      cons_wait fuel
  end.

(** [while (n > 0)] and what follows; [pos] bytes have been stored. *)
Fixpoint consoleread_loop (fuel : nat) (dst : dest) (pos n target : Z) : K Z :=
  match fuel with
  | O => nofuel
  | S fuel =>
      if negb (0 <? n) then release LK_cons ;; ret (i32 (target - n)) else
      ok <- cons_wait (S n_wakeups) ;;
      if negb ok then ret (-1) else
      r <- gets (fun s => cons_r (k_cons s)) ;;
      upd_cons (set_cons_r (u32 (r + 1))) ;;
      c <- cons_at r ;;
      if c =? CTRL 68 then
        when (n <? target) (upd_cons (fun x => set_cons_r (u32 (cons_r x - 1)) x)) ;;
        release LK_cons ;;
        ret (i32 (target - n))
      else
      x <- either_copyout dst pos [c] ;;
      if x =? -1 then release LK_cons ;; ret (i32 (target - n)) else
      if c =? 10 then release LK_cons ;; ret (i32 (target - (n - 1))) else
      consoleread_loop fuel dst (pos + 1) (n - 1) target
  end.
Definition consoleread (dst : dest) (n : Z) : K Z :=
  acquire LK_cons ;; consoleread_loop (S (Z.to_nat n)) dst 0 n (u32 n).

(** * Interrupts *)

(** [while (cons.e != cons.w && cons.buf[(cons.e - 1) % INPUT_BUF_SIZE] != '\n')] *)
Fixpoint kill_line (fuel : nat) : K unit :=
  match fuel with
  | O => nofuel
  | S fuel =>
      c <- gets k_cons ;;
      if cons_e c =? cons_w c then ret tt else
      b <- cons_at (u32 (cons_e c - 1)) ;;
      if b =? 10 then ret tt else
      upd_cons (set_cons_e (u32 (cons_e c - 1))) ;;
      consputc BACKSPACE ;;
      kill_line fuel
  end.

(** The [default] case of [consoleintr]. *)
Definition cons_char (c : Z) : K unit :=
  x <- gets k_cons ;;
  when (negb (c =? 0) && (u32 (cons_e x - cons_r x) <? INPUT_BUF_SIZE))
    (let c := if c =? 13 then 10 else c in
     consputc c ;;
     x <- gets k_cons ;;
     _ <- cons_at (cons_e x) ;;
     upd_cons (set_cons_buf (<[cons_slot (cons_e x) := u8 c]> (cons_buf x))) ;;
     upd_cons (set_cons_e (u32 (cons_e x + 1))) ;;
     x <- gets k_cons ;;
     when ((c =? 10) || (c =? CTRL 68) || (u32 (cons_e x - cons_r x) =? INPUT_BUF_SIZE))
       (upd_cons (set_cons_w (cons_e x)) ;; wakeup CH_cons_r)).

Definition consoleintr (c : Z) : K unit :=
  acquire LK_cons ;;
  (if c =? CTRL 80 then ret tt
   else if c =? CTRL 85 then
     n <- gets (fun s => u32 (cons_e (k_cons s) - cons_w (k_cons s))) ;; kill_line (S (Z.to_nat n))
   else if (c =? CTRL 72) || (c =? 0x7f) then
     x <- gets k_cons ;;
     when (negb (cons_e x =? cons_w x))
       (upd_cons (set_cons_e (u32 (cons_e x - 1))) ;; consputc BACKSPACE)
   else cons_char c) ;;
  release LK_cons.

(** [while (1)]: every byte the device has received *)
Fixpoint uartintr_loop (fuel : nat) : K unit :=
  match fuel with
  | O => nofuel
  | S fuel =>
      c <- uartgetc ;;
      if c =? -1 then ret tt else
      consoleintr c ;;
      uartintr_loop fuel
  end.
Definition uartintr : K unit :=
  acquire LK_tx ;;
  uartstart ;;
  release LK_tx ;;
  wakeup CH_tx_r ;;
  n <- gets (fun s => length (u_rx (k_uart s))) ;;
  uartintr_loop (S n).

(** The entries of [devsw] that [consoleinit] sets as well are read by file.c
    alone, which the kernel does not link. *)
Definition consoleinit : K unit := initlock LK_cons ;; uartinit.

End Console.

(** * The ring as two queues *)

(** [rd]: the bytes between the read and the write index, which [consoleread]
    may take; [ln]: those between the write and the edit index. *)
Record cons_rep (c : cons) (rd ln : list Z) : Prop := {
  cr_size : length (cons_buf c) = Z.to_nat INPUT_BUF_SIZE;
  cr_room : (length (rd ++ ln) <= Z.to_nat INPUT_BUF_SIZE)%nat;
  cr_read : 0 <= cons_r c < 2 ^ 32;
  cr_write : cons_w c = u32 (cons_r c + Z.of_nat (length rd));
  cr_edit : cons_e c = u32 (cons_r c + Z.of_nat (length (rd ++ ln)));
  cr_bytes k b : (rd ++ ln) !! k = Some b -> cons_buf c !! cons_slot (cons_r c + Z.of_nat k) = Some b
}.

Lemma cons_slot_u32 a : cons_slot (u32 a) = cons_slot a.
Proof.
  unfold cons_slot, wrap. f_equal. symmetry. rewrite (Z.div_mod a (2 ^ 32)) at 1 by lia.
  replace (2 ^ 32 * (a / 2 ^ 32)) with ((2 ^ 25 * (a / 2 ^ 32)) * INPUT_BUF_SIZE) by lia.
  by rewrite Z.add_comm, Z_mod_plus_full.
Qed.

Lemma cons_slot_inj a j k :
  0 <= j < INPUT_BUF_SIZE -> 0 <= k < INPUT_BUF_SIZE -> cons_slot (a + j) = cons_slot (a + k) -> j = k.
Proof.
  unfold cons_slot. intros Hj Hk E. apply Z2Nat.inj in E; [|apply Z.mod_pos_bound; lia..].
  pose proof (Zminus_mod (a + j) (a + k) INPUT_BUF_SIZE) as D. rewrite E, Z.sub_diag in D.
  replace (a + j - (a + k)) with (j - k) in D by lia. apply Z.mod_divide in D; [|lia].
  destruct D as [q Hq]. change INPUT_BUF_SIZE with 128 in *. lia.
Qed.

Lemma cons_slot_lt a : (cons_slot a < Z.to_nat INPUT_BUF_SIZE)%nat.
Proof. unfold cons_slot. pose proof (Z.mod_pos_bound a INPUT_BUF_SIZE ltac:(lia)). lia. Qed.

Section Rep.
Context (c : cons) (rd ln : list Z).
Hypothesis R : cons_rep c rd ln.

Lemma cr_len : (length rd + length ln <= 128)%nat.
Proof. pose proof (cr_room _ _ _ R) as H. rewrite length_app in H. lia. Qed.

Lemma cr_line_empty : (cons_e c =? cons_w c) = bool_decide (ln = []).
Proof.
  pose proof cr_len. pose proof (cr_read _ _ _ R). rewrite (cr_edit _ _ _ R), (cr_write _ _ _ R), length_app.
  replace (u32 (cons_r c + Z.of_nat (length rd + length ln)))
    with (u32 (u32 (cons_r c + Z.of_nat (length rd)) + Z.of_nat (length ln)))
    by (rewrite wrap_add_l; f_equal; lia).
  rewrite u32_same by (apply wrap_range || idtac; lia). by destruct ln.
Qed.

Lemma cr_ready_empty : (cons_r c =? cons_w c) = bool_decide (rd = []).
Proof.
  pose proof cr_len. pose proof (cr_read _ _ _ R). rewrite Z.eqb_sym, (cr_write _ _ _ R), u32_same by lia.
  by destruct rd.
Qed.

Lemma cr_fill : u32 (cons_e c - cons_r c) = Z.of_nat (length rd + length ln).
Proof.
  pose proof cr_len. pose proof (cr_read _ _ _ R). rewrite (cr_edit _ _ _ R), length_app. apply u32_diff; lia.
Qed.

Lemma cr_line_fill : u32 (cons_e c - cons_w c) = Z.of_nat (length ln).
Proof.
  pose proof cr_len. pose proof (cr_read _ _ _ R). rewrite (cr_edit _ _ _ R), (cr_write _ _ _ R), length_app.
  rewrite wrap_sub_l, wrap_sub_r. rewrite wrap_small; lia.
Qed.

(** Accept a byte into the line; hand the line over. *)
Lemma cr_push b :
  (length rd + length ln < 128)%nat ->
  cons_rep (set_cons_e (u32 (cons_e c + 1)) (set_cons_buf (<[cons_slot (cons_e c) := b]> (cons_buf c)) c)) rd (ln ++ [b]).
Proof.
  intros Hlen. pose proof (cr_read _ _ _ R). pose proof (cr_edit _ _ _ R) as E. constructor; simpl.
  - rewrite length_insert. apply R.
  - rewrite !length_app. simpl. lia.
  - done.
  - apply R.
  - rewrite E, wrap_add_l, !length_app. simpl. f_equal. lia.
  - intros k x Hk. rewrite E, cons_slot_u32. rewrite (assoc_L (++)) in Hk.
    apply lookup_app_Some in Hk as [Hk|[Hk Hx]].
    + rewrite list_lookup_insert_ne; [by apply (cr_bytes _ _ _ R)|]. intros Es.
      apply cons_slot_inj in Es; apply lookup_lt_Some in Hk; rewrite length_app in *; lia.
    + apply list_lookup_singleton_Some in Hx as [Hx <-]. replace k with (length (rd ++ ln)) by lia.
      apply list_lookup_insert_eq. rewrite (cr_size _ _ _ R). apply cons_slot_lt.
Qed.

Lemma cr_hand_over : cons_rep (set_cons_w (cons_e c) c) (rd ++ ln) [].
Proof. destruct R. constructor; simpl; rewrite ?app_nil_r; auto. Qed.

Lemma cr_erase ln' b : ln = ln' ++ [b] -> cons_rep (set_cons_e (u32 (cons_e c - 1)) c) rd ln'.
Proof.
  intros Hln. pose proof (cr_room _ _ _ R) as Hr. pose proof (cr_edit _ _ _ R) as E.
  rewrite Hln in Hr, E. rewrite !length_app in Hr, E. simpl in Hr, E. constructor; simpl; try apply R.
  - rewrite length_app. lia.
  - rewrite E, wrap_sub_l, length_app. f_equal. lia.
  - intros k x Hk. apply (cr_bytes _ _ _ R). rewrite Hln, (assoc_L (++)). by apply lookup_app_l_Some.
Qed.

(** The last byte of the line. *)
Lemma cr_last ln' b : ln = ln' ++ [b] -> cons_buf c !! cons_slot (u32 (cons_e c - 1)) = Some b.
Proof.
  intros Hln. rewrite cons_slot_u32. rewrite (cr_edit _ _ _ R).
  replace (cons_slot (u32 (cons_r c + Z.of_nat (length (rd ++ ln))) - 1))
    with (cons_slot (cons_r c + Z.of_nat (length (rd ++ ln')))).
  - apply (cr_bytes _ _ _ R). rewrite Hln, (assoc_L (++)). by apply list_lookup_middle.
  - rewrite <- (cons_slot_u32 (u32 _ - 1)), wrap_sub_l, cons_slot_u32. f_equal. rewrite Hln, !length_app. simpl. lia.
Qed.

(** Take the oldest ready byte. *)
Lemma cr_pop b rd' : rd = b :: rd' ->
  cons_buf c !! cons_slot (cons_r c) = Some b /\ cons_rep (set_cons_r (u32 (cons_r c + 1)) c) rd' ln.
Proof.
  intros Hrd. pose proof (cr_room _ _ _ R) as Hr. pose proof (cr_edit _ _ _ R) as E. pose proof (cr_write _ _ _ R) as Ew.
  rewrite Hrd in Hr, E, Ew. simpl in Hr, E, Ew. split.
  - rewrite <- (cr_bytes _ _ _ R 0 b) by (by rewrite Hrd). f_equal. f_equal. simpl. lia.
  - constructor; simpl; try apply R.
    + lia.
    + by apply wrap_range.
    + rewrite Ew, wrap_add_l. f_equal. lia.
    + rewrite E, wrap_add_l. f_equal. lia.
    + intros k x Hk. rewrite <- cons_slot_u32, wrap_add_l, cons_slot_u32.
      rewrite <- (cr_bytes _ _ _ R (S k) x) by (by rewrite Hrd). f_equal. f_equal. lia.
Qed.
End Rep.

(** * Line editing *)

(** What typing [c] does to the queues, what it echoes, and whether it makes
    input ready. *)
Definition is_erase (c : Z) : bool := (c =? CTRL 72) || (c =? 0x7f).
Definition newline (c : Z) : Z := if c =? 13 then 10 else c.
Definition accepts (c : Z) (rd ln : list Z) : bool :=
  negb (c =? CTRL 80) && negb (c =? CTRL 85) && negb (is_erase c) && negb (c =? 0) &&
  bool_decide (length rd + length ln < 128)%nat.
Definition ends_line (c : Z) (rd ln : list Z) : bool :=
  (c =? 10) || (c =? CTRL 68) || bool_decide (length rd + length ln = 127)%nat.

Definition edit (c : Z) (rd ln : list Z) : list Z * list Z :=
  if c =? CTRL 85 then (rd, [])
  else if is_erase c then (rd, removelast ln)
  else if negb (accepts c rd ln) then (rd, ln)
  else if ends_line (newline c) rd ln then (rd ++ ln ++ [newline c], [])
  else (rd, ln ++ [newline c]).
Definition echo (c : Z) (rd ln : list Z) : list Z :=
  if c =? CTRL 85 then concat (replicate (length ln) [8; 32; 8])
  else if is_erase c then (if bool_decide (ln = []) then [] else [8; 32; 8])
  else if accepts c rd ln then [newline c] else [].
Definition hands_over (c : Z) (rd ln : list Z) : bool := accepts c rd ln && ends_line (newline c) rd ln.

(** The state a handler runs in. *)
Record handler_ok (s : kstate) : Prop := {
  ho_cpu : cpu_ok s;
  ho_tx : lock_free s LK_tx;
  ho_procs : procs_free s;
  ho_nproc : length (k_procs s) = NPROC
}.

Lemma handler_ok_ext s s' :
  k_hart s' = k_hart s -> k_cpus s' = k_cpus s -> k_locks s' = k_locks s -> length (k_procs s') = length (k_procs s) ->
  cur s' = cur s -> handler_ok s -> handler_ok s'.
Proof.
  intros E1 E2 E3 E4 E5 [H1 H2 H3 H4]. constructor.
  - unfold cpu_ok. by rewrite E1, E2.
  - unfold lock_free, lock_get in *. by rewrite E3.
  - intros i Hi. unfold lock_free, lock_get. rewrite E3. apply H3. by rewrite <- E5.
  - by rewrite E4.
Qed.

Lemma kill_line_ok n s rd ln :
  handler_ok s -> cons_rep (k_cons s) rd ln -> 10 ∉ ln -> length ln = n ->
  exists c, kill_line (S n) s =
    Ret tt (set_k_cons c (set_k_uart (uart_puts (concat (replicate n [8; 32; 8])) (k_uart s)) s)) /\ cons_rep c rd [].
Proof.
  revert s ln. induction n as [|n IH]; intros s ln HO R Hnl Hlen; cbn [kill_line]; unfold gets, bind at 1;
    rewrite (cr_line_empty _ _ _ R).
  - apply nil_length_inv in Hlen as ->. exists (k_cons s). split; [|done]. cbn. unfold ret. f_equal. by destruct s.
  - destruct ln as [|b ln' _] using rev_ind; [done|]. rewrite length_app in Hlen. simpl in Hlen.
    rewrite bool_decide_false by (by destruct ln'). unfold cons_at, bind at 1. rewrite (cr_last _ _ _ R ln' b eq_refl).
    cbn [deref ret]. rewrite not_elem_of_app, list_elem_of_singleton in Hnl. destruct Hnl as [Hnl Hb].
    rewrite (proj2 (Z.eqb_neq b 10)) by congruence. unfold upd_cons, modify, bind at 1.
    set (s1 := set_k_cons _ s). assert (HO1 : handler_ok s1) by (by apply (handler_ok_ext s)).
    run (consputc_ok BACKSPACE s1 (ho_cpu _ HO1) (ho_tx _ HO1)). set (s2 := set_k_uart _ s1).
    destruct (IH s2 ln') as (c & E & Rc).
    + by apply (handler_ok_ext s1).
    + simpl. by apply (cr_erase _ _ _ R ln' b).
    + done.
    + lia.
    + exists c. split; [|done]. etransitivity; [exact E|]. unfold s2, s1. cbn [set_k_uart set_k_cons k_uart].
      f_equal.
Qed.

Lemma cons_char_ok c s rd ln :
  handler_ok s -> cons_rep (k_cons s) rd ln -> 0 <= c < 256 ->
  c <> CTRL 80 -> c <> CTRL 85 -> is_erase c = false ->
  exists x, cons_char c s = Ret tt (set_k_cons x (set_k_uart (uart_puts (echo c rd ln) (k_uart s))
      (if hands_over c rd ln then set_k_procs (wake (cur s) CH_cons_r 0 (k_procs s)) s else s))) /\
    cons_rep x (fst (edit c rd ln)) (snd (edit c rd ln)).
Proof.
  intros HO R Hc H1 H2 H3. unfold hands_over, echo, edit. rewrite (proj2 (Z.eqb_neq c (CTRL 85)) H2), H3.
  unfold cons_char, gets, bind at 1. rewrite (cr_fill _ _ _ R).
  assert (Ha : negb (c =? 0) && (Z.of_nat (length rd + length ln) <? INPUT_BUF_SIZE) = accepts c rd ln).
  { unfold accepts. rewrite (proj2 (Z.eqb_neq c (CTRL 80)) H1), (proj2 (Z.eqb_neq c (CTRL 85)) H2), H3. cbn [negb andb].
    f_equal. apply eq_true_iff_eq. rewrite Z.ltb_lt, bool_decide_eq_true. lia. }
  rewrite Ha. destruct (accepts c rd ln) eqn:Ea; cbn [when negb andb].
  2: { exists (k_cons s). split; [|done]. unfold ret. f_equal. by destruct s. }
  assert (Hlen : (length rd + length ln < 128)%nat).
  { unfold accepts in Ea. rewrite !andb_true_iff, bool_decide_eq_true in Ea. tauto. }
  fold (newline c). set (d := newline c).
  assert (Hd : 0 <= d < 256) by (unfold d, newline; destruct (c =? 13); lia).
  run (consputc_ok d s (ho_cpu _ HO) (ho_tx _ HO)).
  replace (cons_bytes d) with [d] by (unfold cons_bytes; rewrite (proj2 (Z.eqb_neq d BACKSPACE)); [done|unfold BACKSPACE; lia]).
  set (s1 := set_k_uart _ s). unfold bind at 1. unfold cons_at, bind at 1.
  destruct (lookup_lt_is_Some_2 (cons_buf (k_cons s1)) (cons_slot (cons_e (k_cons s1)))) as [y ->].
  { unfold s1. cbn [set_k_uart k_cons]. rewrite (cr_size _ _ _ R). apply cons_slot_lt. }
  cbn [deref ret]. unfold upd_cons, modify, bind at 1. unfold bind at 1.
  rewrite (wrap_small 8 d) by (simpl; lia). pose proof (cr_push _ _ _ R d Hlen) as R1.
  set (x := set_cons_e (u32 (cons_e (k_cons s) + 1)) _) in R1.
  lazymatch goal with |- exists _, ?f ?st = _ /\ _ => change st with (set_k_cons x s1) end.
  unfold bind at 1.
  assert (Hfull : u32 (cons_e x - cons_r x) = Z.of_nat (S (length rd + length ln))).
  { rewrite (cr_fill _ _ _ R1), length_app. f_equal. simpl. lia. }
  change (k_cons (set_k_cons x s1)) with x. rewrite Hfull.
  replace ((d =? 10) || (d =? CTRL 68) || (Z.of_nat (S (length rd + length ln)) =? INPUT_BUF_SIZE)) with (ends_line d rd ln).
  2: { unfold ends_line. f_equal. apply eq_true_iff_eq. rewrite Z.eqb_eq, bool_decide_eq_true. lia. }
  destruct (ends_line d rd ln); cbn [when fst snd].
  - exists (set_cons_w (cons_e x) x). split.
    + unfold bind at 1. set (s2 := set_k_cons _ _).
      assert (HO2 : handler_ok s2) by (by apply (handler_ok_ext s)).
      rewrite (wakeup_ok _ s2 (ho_cpu _ HO2) (ho_procs _ HO2) (ho_nproc _ HO2)). done.
    + by apply cr_hand_over.
  - by exists x.
Qed.

Lemma enter_handler_ok l s :
  l <> LK_tx -> (forall i, l <> LK_proc i) -> handler_ok s -> handler_ok (enter l s).
Proof.
  intros Hl Hp [H1 H2 H3 H4]. constructor.
  - by apply enter_cpu_ok.
  - unfold lock_free, lock_get in *. by rewrite enter_lock_ne.
  - intros i Hi. unfold lock_free, lock_get. rewrite enter_lock_ne by done. apply H3. by rewrite cur_enter in Hi.
  - by kproj.
Qed.

Lemma edit_line c rd ln : 10 ∉ ln -> 10 ∉ snd (edit c rd ln).
Proof.
  intros H. unfold edit. destruct (c =? CTRL 85); [set_solver|]. destruct (is_erase c).
  { simpl. destruct ln as [|b ln _] using rev_ind; [done|]. rewrite removelast_last. set_solver. }
  destruct (negb (accepts c rd ln)); [done|]. destruct (ends_line (newline c) rd ln) eqn:E; simpl; [set_solver|].
  unfold ends_line in E. rewrite !orb_false_iff, !Z.eqb_neq in E. rewrite not_elem_of_app, list_elem_of_singleton.
  split; [done|]. intros Hn. by destruct E as [[E _] _].
Qed.

(** What the handler leaves of the rest of the state. *)
Definition typed (c : Z) (rd ln : list Z) (s : kstate) : kstate :=
  set_k_uart (uart_puts (echo c rd ln) (k_uart s))
    (if hands_over c rd ln then set_k_procs (wake (cur s) CH_cons_r 0 (k_procs s)) s else s).

Lemma erase_ok s rd ln :
  handler_ok s -> cons_rep (k_cons s) rd ln ->
  exists x, (x <- gets k_cons ;; when (negb (cons_e x =? cons_w x))
       (upd_cons (set_cons_e (u32 (cons_e x - 1))) ;; consputc BACKSPACE)) s =
    Ret tt (set_k_cons x (set_k_uart (uart_puts (if bool_decide (ln = []) then [] else [8; 32; 8]) (k_uart s)) s)) /\
    cons_rep x rd (removelast ln).
Proof.
  intros HO R. unfold gets, bind at 1. rewrite (cr_line_empty _ _ _ R).
  destruct ln as [|b ln _] using rev_ind.
  - exists (k_cons s). split; [|done]. cbn. unfold ret. f_equal. by destruct s.
  - rewrite bool_decide_false by (by destruct ln). cbn [negb when]. unfold upd_cons, modify, bind at 1.
    exists (set_cons_e (u32 (cons_e (k_cons s) - 1)) (k_cons s)). rewrite removelast_last. split.
    + rewrite consputc_ok; [done|apply HO|apply HO].
    + by apply (cr_erase _ _ _ R ln b).
Qed.

Lemma consoleintr_ok s c rd ln :
  handler_ok s -> lock_free s LK_cons -> cons_rep (k_cons s) rd ln -> 10 ∉ ln -> 0 <= c < 256 ->
  exists x, consoleintr c s = Ret tt (set_k_cons x (typed c rd ln s)) /\
    cons_rep x (fst (edit c rd ln)) (snd (edit c rd ln)).
Proof.
  intros HO Hl R Hnl Hc. unfold consoleintr. pose proof (ho_cpu _ HO) as Hcpu.
  setoid_rewrite (bind_Ret _ _ _ _ _ (acquire_free LK_cons s Hcpu Hl)).
  assert (HO1 : handler_ok (enter LK_cons s)) by (by apply enter_handler_ok).
  assert (R1 : cons_rep (k_cons (enter LK_cons s)) rd ln) by (by kproj).
  unfold typed. destruct (Z.eqb_spec c (CTRL 80)) as [->|H1].
  { exists (k_cons s). split; [|done]. unfold bind at 1. cbn [ret]. leave. kproj. f_equal. by destruct s. }
  destruct (Z.eqb_spec c (CTRL 85)) as [->|H2].
  { destruct (kill_line_ok (length ln) _ rd ln HO1 R1 Hnl eq_refl) as (x & E & Rx). exists x. split; [|done].
    erewrite bind_Ret; [|unfold gets, bind; rewrite (cr_line_fill _ _ _ R1), Nat2Z.id; exact E]. leave. by kproj. }
  destruct (is_erase c) eqn:H3; unfold is_erase in H3; rewrite H3.
  { destruct (erase_ok _ rd ln HO1 R1) as (x & E & Rx). exists x. unfold edit, echo, hands_over, accepts, is_erase.
    rewrite (proj2 (Z.eqb_neq c (CTRL 85)) H2), H3. rewrite andb_false_r. split; [|done].
    rewrite (bind_Ret _ _ _ _ _ E). leave. by kproj. }
  destruct (cons_char_ok c _ rd ln HO1 R1 Hc H1 H2 H3) as (x & E & Rx). exists x. split; [|done].
  rewrite (bind_Ret _ _ _ _ _ E). destruct (hands_over c rd ln); leave; by kproj.
Qed.

(** C25: each byte that arrives does to the input ring what line editing does
    to a pair of queues: control-U empties the line being edited, control-H and
    delete remove its last byte, any other byte but NUL and control-P is
    appended while there is room (return as newline), and newline, control-D or
    a full ring hand the line over to the readers and wake them up. The echo is
    exactly the erasures and the appended byte, and nothing else changes. *)
Theorem consoleintr_edits s c rd ln :
  handler_ok s -> lock_free s LK_cons -> cons_rep (k_cons s) rd ln -> 10 ∉ ln -> 0 <= c < 256 ->
  exists x, consoleintr c s = Ret tt (set_k_cons x (typed c rd ln s)) /\
    cons_rep x (fst (edit c rd ln)) (snd (edit c rd ln)) /\ 10 ∉ snd (edit c rd ln).
Proof.
  intros HO Hl R Hnl Hc. destruct (consoleintr_ok s c rd ln HO Hl R Hnl Hc) as (x & E & Rx).
  exists x. split_and!; auto. by apply edit_line.
Qed.

(** * Line reading *)

(** What a read of at most [n] bytes delivers and leaves: up to the end of the
    line, or up to control-D, which is consumed only when it comes first;
    [None] when the ready bytes run out. *)
Fixpoint read_line (n : nat) (first : bool) (rd : list Z) : option (list Z * list Z) :=
  match n, rd with
  | O, _ => Some ([], rd)
  | S _, [] => None
  | S n, c :: rd' =>
      if c =? CTRL 68 then Some ([], if first then rd' else rd)
      else if c =? 10 then Some ([c], rd')
      else '(out, rest) ← read_line n false rd'; Some (c :: out, rest)
  end.

Section Read.
Context {W : Wakeups}.
Variables (s : kstate) (a : Z) (ln : list Z).
Hypothesis Hc : cpu_ok s.
Hypothesis Hl : lock_free s LK_cons.

(** Inside the critical section. *)
Definition reading (m : gmap Z Z) (c : cons) : kstate := set_k_mem m (set_k_cons c (enter LK_cons s)).

Lemma leave_read m c (r : Z) :
  (release LK_cons ;; ret r) (reading m c) = Ret r (set_k_mem m (set_k_cons c s)).
Proof. unfold reading. leave. by kproj. Qed.

Lemma cons_wait_ready f m c rd : cons_rep c rd ln -> rd <> [] -> cons_wait (S f) (reading m c) = Ret true (reading m c).
Proof.
  intros R Hrd. cbn [cons_wait]. unfold gets, bind at 1. cbn [reading set_k_mem set_k_cons k_cons].
  rewrite (cr_ready_empty _ _ _ R). by rewrite bool_decide_false.
Qed.

Lemma consoleread_loop_ok n m c rd pos target out rest :
  cons_rep c rd ln -> target = pos + Z.of_nat n -> 0 <= pos -> target < 2 ^ 31 ->
  read_line n (bool_decide (pos = 0)) rd = Some (out, rest) ->
  exists c', consoleread_loop (S n) (Dkern a) pos (Z.of_nat n) target (reading m c) =
    Ret (pos + Z.of_nat (length out)) (set_k_mem (put_bytes m (a + pos) out) (set_k_cons c' s)) /\ cons_rep c' rest ln.
Proof.
  revert m c rd pos out. induction n as [|n IH]; intros m c rd pos out R Ht Hp Hb Hrl.
  { cbn [consoleread_loop]. simplify_eq/=. exists c. rewrite leave_read. split; [|done]. f_equal. rewrite swrap_small; lia. }
  remember (S n) as f eqn:Ef. cbn [consoleread_loop].
  rewrite (proj2 (Z.ltb_lt 0 _)) by lia. cbn [negb]. destruct rd as [|b rd]; [by rewrite Ef in Hrl|].
  rewrite (bind_Ret _ _ _ _ _ (cons_wait_ready _ m c _ R ltac:(done))). cbn [negb].
  destruct (cr_pop _ _ _ R b rd eq_refl) as [Eb R'].
  unfold gets, bind at 1. unfold upd_cons at 1, modify, bind at 1. unfold cons_at, bind at 1.
  change (k_cons (reading m c)) with c. set (c1 := set_cons_r (u32 (cons_r c + 1)) c) in *.
  change (set_k_cons c1 (reading m c)) with (reading m c1).
  change (cons_buf (k_cons (reading m c1))) with (cons_buf c). rewrite Eb. cbn [deref ret].
  rewrite Ef in Hrl. cbn [read_line] in Hrl. destruct (Z.eqb_spec b (CTRL 68)) as [->|Hd].
  - simplify_eq Hrl. intros <- <-. simpl length. replace (Z.of_nat f <? target) with (negb (bool_decide (pos = 0)))
      by (case_bool_decide; symmetry; [apply Z.ltb_ge|apply Z.ltb_lt]; lia).
    destruct (bool_decide (pos = 0)); cbn [negb when].
    + exists c1. unfold bind at 1. cbn [ret]. rewrite leave_read. split; [|done]. f_equal. rewrite swrap_small; lia.
    + exists c. split; [|done]. unfold upd_cons, modify, bind at 1. change (k_cons (reading m c1)) with c1.
      replace (set_cons_r (u32 (cons_r c1 - 1)) c1) with c.
      * change (set_k_cons c (reading m c1)) with (reading m c). rewrite leave_read. f_equal. rewrite swrap_small; lia.
      * unfold c1. cbn [set_cons_r cons_r]. rewrite wrap_sub_l. replace (cons_r c + 1 - 1) with (cons_r c) by lia.
        rewrite wrap_small by apply (cr_read _ _ _ R). by destruct c.
  - unfold either_copyout, mem_upd, modify, bind at 2. unfold bind at 1. cbn [ret].
    change (0 =? -1) with false. cbn match. change (set_k_mem _ (reading m c1)) with (reading (put_bytes m (a + pos) [b]) c1).
    destruct (Z.eqb_spec b 10) as [->|Hn].
    + simplify_eq Hrl. intros <- <-. exists c1. rewrite leave_read. split; [|done]. simpl length. f_equal.
      rewrite swrap_small; lia.
    + destruct (read_line n false rd) as [[o r]|] eqn:E; simpl in Hrl; [|done]. simplify_eq Hrl. intros <- <-.
      destruct (IH (put_bytes m (a + pos) [b]) c1 rd (pos + 1) o) as (c' & Er & Rc'); auto; try lia.
      { by rewrite bool_decide_false by lia. }
      exists c'. split; [|done]. replace (Z.of_nat f - 1) with (Z.of_nat n) by lia. rewrite Er.
      cbn [length put_bytes]. replace (a + (pos + 1)) with (a + pos + 1) by lia. f_equal. lia.
Qed.
End Read.

(** A read takes from the ready bytes what line reading takes from a
    queue: at most [n] bytes, up to and including a newline, or up to a
    control-D (which ends the file when it comes first and is kept for the next
    read otherwise). It does not sleep when the ready bytes suffice, returns
    the number of bytes delivered, and changes only the destination and the
    read index. *)
Theorem consoleread_reads_line {W : Wakeups} s a n rd ln out rest :
  cpu_ok s -> lock_free s LK_cons -> cons_rep (k_cons s) rd ln -> Z.of_nat n < 2 ^ 31 ->
  read_line n true rd = Some (out, rest) ->
  exists c, consoleread (Dkern a) (Z.of_nat n) s =
      Ret (Z.of_nat (length out)) (set_k_mem (put_bytes (k_mem s) a out) (set_k_cons c s)) /\
    cons_rep c rest ln.
Proof.
  intros Hc Hl R Hn Hrl. unfold consoleread. setoid_rewrite (bind_Ret _ _ _ _ _ (acquire_free LK_cons s Hc Hl)).
  rewrite Nat2Z.id, wrap_small by (simpl; lia).
  destruct (consoleread_loop_ok s a ln Hc Hl n (k_mem s) (k_cons s) rd 0 (Z.of_nat n) out rest) as (c & E & Rc);
    auto; try lia. exists c. split; [|done]. rewrite Z.add_0_r in E.
  replace (reading s (k_mem s) (k_cons s)) with (enter LK_cons s) in E; [exact E|].
  unfold reading, enter. destruct (k_cpus s !! k_hart s); by destruct s.
Qed.

(** * The interrupt *)

Fixpoint edits (l : list Z) (rd ln : list Z) : list Z * list Z :=
  match l with [] => (rd, ln) | c :: l => edits l (fst (edit c rd ln)) (snd (edit c rd ln)) end.

Lemma uart_puts_rx l u : u_rx (uart_puts l u) = u_rx u.
Proof. revert u. induction l as [|c l IH]; intros u; [done|]. unfold uart_puts in *. simpl. by rewrite IH. Qed.

Lemma typed_handler_ok c rd ln s x : handler_ok s -> handler_ok (set_k_cons x (typed c rd ln s)).
Proof.
  intros HO. unfold typed. destruct (hands_over c rd ln); apply (handler_ok_ext s); try done.
  cbn. unfold wake. by rewrite length_imap.
Qed.

Lemma typed_lock c rd ln s x l : lock_free s l -> lock_free (set_k_cons x (typed c rd ln s)) l.
Proof. unfold typed. by destruct (hands_over c rd ln). Qed.

Lemma uartintr_loop_ok l s rd ln :
  handler_ok s -> lock_free s LK_cons -> cons_rep (k_cons s) rd ln -> 10 ∉ ln ->
  u_rx (k_uart s) = l -> Forall (fun c => 0 <= c < 256) l ->
  exists s', uartintr_loop (S (length l)) s = Ret tt s' /\ handler_ok s' /\ lock_free s' LK_cons /\
    u_rx (k_uart s') = [] /\ cons_rep (k_cons s') (fst (edits l rd ln)) (snd (edits l rd ln)).
Proof.
  revert s rd ln. induction l as [|c l IH]; intros s rd ln HO Hl R Hnl Hrx Hall.
  { exists s. cbn. unfold uartgetc, gets, bind. rewrite Hrx. by split_and!. }
  inversion Hall as [|? ? Hc Hall']; subst. remember (length (c :: l)) as f eqn:Ef. cbn [uartintr_loop].
  unfold uartgetc, gets, bind at 2. unfold bind at 1. rewrite Hrx. unfold upd_uart, modify. unfold bind at 1. cbn [ret].
  rewrite (proj2 (Z.eqb_neq c (-1))) by lia.
  set (s1 := set_k_uart (set_u_rx l (k_uart s)) s). assert (HO1 : handler_ok s1) by (by apply (handler_ok_ext s)).
  destruct (consoleintr_ok s1 c rd ln HO1 Hl R Hnl Hc) as (x & E & Rx).
  rewrite (bind_Ret _ _ _ _ _ E). rewrite Ef. apply IH; auto.
  - by apply typed_handler_ok.
  - by apply typed_lock.
  - by apply edit_line.
  - unfold typed. cbn [set_k_cons k_uart set_k_uart]. by rewrite uart_puts_rx.
Qed.

(** One UART interrupt takes every byte the device has received, in
    order, through line editing, and leaves none behind; pending output is kept
    in order. *)
Theorem uartintr_edits s q rd ln :
  handler_ok s -> lock_free s LK_cons -> ring (k_uart s) q -> cons_rep (k_cons s) rd ln -> 10 ∉ ln ->
  Forall (fun c => 0 <= c < 256) (u_rx (k_uart s)) ->
  exists s', uartintr s = Ret tt s' /\ u_rx (k_uart s') = [] /\
    cons_rep (k_cons s') (fst (edits (u_rx (k_uart s)) rd ln)) (snd (edits (u_rx (k_uart s)) rd ln)).
Proof.
  intros HO Hl Rq R Hnl Hall. unfold uartintr. pose proof (ho_cpu _ HO) as Hc. pose proof (ho_tx _ HO) as Ht.
  setoid_rewrite (bind_Ret _ _ _ _ _ (acquire_free LK_tx s Hc Ht)).
  destruct (uartstart_ok q (enter LK_tx s)) as (u & q' & E & Rq' & _ & Hrx & _); [by kproj|].
  rewrite (bind_Ret _ _ _ _ _ E). leave. kproj. set (s1 := set_k_uart u s).
  assert (HO1 : handler_ok s1) by (by apply (handler_ok_ext s)).
  rewrite (bind_Ret _ _ _ _ _ (wakeup_ok CH_tx_r s1 (ho_cpu _ HO1) (ho_procs _ HO1) (ho_nproc _ HO1))).
  set (s2 := set_k_procs _ s1). unfold gets, bind.
  destruct (uartintr_loop_ok (u_rx (k_uart s2)) s2 rd ln) as (s' & E' & _ & _ & Hx & Rc); auto.
  - apply (handler_ok_ext s1); try done. cbn. unfold wake. by rewrite length_imap.
  - cbn [s2 s1 set_k_procs k_uart set_k_uart]. rewrite Hrx. by kproj.
  - exists s'. split_and!; auto. cbn [s2 s1 set_k_procs k_uart set_k_uart] in Rc. rewrite Hrx in Rc. revert Rc. by kproj.
Qed.

(** * Samples *)

Lemma boot_cons : cons_rep (k_cons boot) [] [].
Proof. constructor; try done. cbn. lia. Qed.

Lemma boot_ring : ring (k_uart boot) [].
Proof. constructor; try done; cbn; try lia. Qed.

Lemma boot_handler_ok : handler_ok boot.
Proof. constructor; [apply boot_cpu_ok|done|intros i _; done|done]. Qed.

(** "a", then control-H, in an empty console. *)
Lemma consoleintr_edits_witness :
  exists x, consoleintr 97 boot = Ret tt (set_k_cons x (typed 97 [] [] boot)) /\ cons_rep x [] [97].
Proof.
  destruct (consoleintr_edits boot 97 [] []) as (x & E & R & _).
  - exact boot_handler_ok.
  - reflexivity.
  - exact boot_cons.
  - apply not_elem_of_nil.
  - lia.
  - exists x. split; [exact E|exact R].
Defined.

(** "hi", return and "x" arrive: the readers see one line. *)
Lemma uartintr_edits_witness :
  exists s', uartintr (set_k_uart (set_u_rx [104; 105; 13; 120] (k_uart boot)) boot) = Ret tt s' /\
    cons_rep (k_cons s') [104; 105; 10] [120].
Proof.
  destruct (uartintr_edits (set_k_uart (set_u_rx [104; 105; 13; 120] (k_uart boot)) boot) [] [] [])
    as (s' & E & _ & R).
  - apply (handler_ok_ext boot); try reflexivity. exact boot_handler_ok.
  - reflexivity.
  - destruct boot_ring. constructor; assumption.
  - exact boot_cons.
  - apply not_elem_of_nil.
  - cbn. repeat (constructor; [lia|]). constructor.
  - exists s'. split; [exact E|exact R].
Defined.

(** A ring that holds "hi", newline and "x". *)
Definition hi_cons : cons := mk_cons ([104; 105; 10; 120] ++ replicate 124 0) 0 4 4.

Import (hints) Machine.
Lemma consoleread_reads_line_witness :
  exists c, consoleread (Dkern 4096) 100 (set_k_cons hi_cons boot) =
    Ret 3 (set_k_mem (put_bytes (k_mem boot) 4096 [104; 105; 10]) (set_k_cons c boot)) /\ cons_rep c [120] [].
Proof.
  destruct (consoleread_reads_line (set_k_cons hi_cons boot) 4096 100 [104; 105; 10; 120] [] [104; 105; 10] [120])
    as (c & E & R).
  - exact boot_cpu_ok.
  - reflexivity.
  - constructor; try reflexivity; cbn; try lia. intros k b Hk. do 4 (destruct k as [|k]; [exact Hk|]). discriminate Hk.
  - lia.
  - reflexivity.
  - exists c. split; [exact E|exact R].
Defined.
