(* ===== verification/InitCode.v ===== *)
(** The image of the first user program, [initcode] in kernel/proc.c, byte for
    byte. *)

From S2P Require Import Prelude.

Definition initcode : list Z := [
  121; 113; 6; 244; 34; 240; 38; 236; 74; 232; 0; 24; 239; 0; 224; 20;
  99; 67; 5; 4; 170; 132; 37; 193; 239; 0; 32; 20; 99; 74; 5; 6;
  81; 193; 239; 0; 128; 19; 99; 76; 5; 8; 23; 9; 0; 0; 19; 9;
  233; 111; 69; 193; 19; 5; 196; 253; 239; 0; 32; 19; 170; 132; 99; 64;
  5; 16; 239; 0; 128; 20; 170; 133; 131; 38; 196; 253; 38; 134; 74; 133;
  239; 0; 64; 60; 197; 183; 239; 0; 64; 19; 170; 133; 23; 5; 0; 0;
  19; 5; 69; 95; 239; 0; 0; 59; 1; 69; 162; 112; 2; 116; 226; 100;
  66; 105; 69; 97; 130; 128; 151; 21; 0; 0; 147; 133; 165; 248; 23; 5;
  0; 0; 19; 5; 37; 95; 239; 0; 192; 15; 1; 69; 239; 0; 96; 13;
  239; 0; 160; 15; 170; 133; 23; 5; 0; 0; 19; 5; 165; 94; 239; 0;
  96; 55; 217; 183; 151; 21; 0; 0; 147; 133; 197; 246; 23; 5; 0; 0;
  19; 5; 69; 95; 239; 0; 224; 12; 1; 69; 239; 0; 128; 10; 239; 0;
  192; 12; 170; 133; 23; 5; 0; 0; 19; 5; 197; 91; 239; 0; 128; 52;
  97; 191; 41; 69; 239; 0; 96; 12; 239; 0; 32; 11; 42; 137; 239; 0;
  64; 12; 42; 134; 202; 133; 23; 5; 0; 0; 19; 5; 165; 92; 239; 0;
  96; 50; 81; 69; 239; 0; 96; 10; 239; 0; 32; 9; 42; 137; 239; 0;
  64; 10; 42; 134; 202; 133; 23; 5; 0; 0; 19; 5; 37; 93; 239; 0;
  96; 48; 121; 69; 239; 0; 96; 8; 239; 0; 32; 7; 42; 137; 239; 0;
  64; 8; 42; 134; 202; 133; 23; 5; 0; 0; 19; 5; 165; 93; 239; 0;
  96; 46; 38; 133; 239; 0; 96; 4; 1; 69; 239; 0; 128; 2; 239; 0;
  192; 4; 170; 132; 239; 0; 224; 5; 42; 134; 166; 133; 23; 5; 0; 0;
  19; 5; 197; 96; 239; 0; 0; 44; 1; 160; 133; 72; 115; 0; 0; 0;
  130; 128; 137; 72; 115; 0; 0; 0; 130; 128; 141; 72; 115; 0; 0; 0;
  130; 128; 193; 72; 115; 0; 0; 0; 130; 128; 153; 72; 115; 0; 0; 0;
  130; 128; 157; 72; 115; 0; 0; 0; 130; 128; 173; 72; 115; 0; 0; 0;
  130; 128; 177; 72; 115; 0; 0; 0; 130; 128; 181; 72; 115; 0; 0; 0;
  130; 128; 185; 72; 115; 0; 0; 0; 130; 128; 1; 17; 6; 236; 34; 232;
  0; 16; 163; 7; 180; 254; 5; 70; 147; 5; 244; 254; 239; 240; 127; 251;
  226; 96; 66; 100; 5; 97; 130; 128; 57; 113; 6; 252; 34; 248; 38; 244;
  74; 240; 78; 236; 128; 0; 170; 132; 153; 194; 99; 196; 5; 8; 129; 37;
  129; 72; 147; 6; 4; 252; 1; 71; 1; 38; 19; 5; 0; 122; 58; 136;
  5; 39; 187; 247; 197; 2; 130; 23; 129; 147; 170; 151; 131; 199; 7; 0;
  35; 128; 246; 0; 155; 135; 5; 0; 187; 213; 197; 2; 133; 6; 227; 240;
  199; 254; 99; 139; 8; 0; 147; 7; 4; 253; 62; 151; 147; 7; 208; 2;
  35; 8; 247; 254; 27; 7; 40; 0; 99; 86; 224; 2; 147; 7; 4; 252;
  51; 137; 231; 0; 147; 137; 247; 255; 186; 153; 125; 55; 2; 23; 1; 147;
  179; 137; 233; 64; 131; 69; 249; 255; 38; 133; 239; 240; 31; 246; 125; 25;
  227; 26; 57; 255; 226; 112; 66; 116; 162; 116; 2; 121; 226; 105; 33; 97;
  130; 128; 187; 5; 176; 64; 133; 72; 173; 191; 25; 113; 134; 252; 162; 248;
  166; 244; 202; 240; 206; 236; 210; 232; 214; 228; 218; 224; 94; 252; 98; 248;
  102; 244; 106; 240; 110; 236; 0; 1; 3; 201; 5; 0; 99; 5; 9; 22;
  170; 138; 50; 139; 147; 132; 21; 0; 129; 73; 19; 10; 80; 2; 19; 12;
  64; 6; 147; 12; 192; 6; 19; 13; 128; 7; 147; 13; 0; 7; 147; 11;
  0; 122; 41; 168; 202; 133; 86; 133; 239; 240; 63; 239; 25; 160; 99; 143;
  73; 1; 133; 4; 3; 201; 244; 255; 99; 7; 9; 18; 155; 7; 9; 0;
  227; 151; 9; 254; 227; 144; 71; 255; 190; 137; 229; 183; 99; 140; 135; 3;
  99; 134; 151; 5; 99; 128; 167; 7; 99; 138; 183; 7; 19; 7; 48; 7;
  99; 134; 231; 10; 19; 7; 48; 6; 99; 140; 231; 12; 99; 132; 71; 15;
  210; 133; 86; 133; 239; 240; 127; 234; 202; 133; 86; 133; 239; 240; 255; 233;
  129; 73; 69; 191; 19; 9; 139; 0; 133; 70; 41; 70; 131; 37; 11; 0;
  86; 133; 239; 240; 127; 234; 74; 139; 129; 73; 97; 191; 19; 9; 139; 0;
  129; 70; 41; 70; 131; 37; 11; 0; 86; 133; 239; 240; 255; 232; 74; 139;
  129; 73; 65; 183; 19; 9; 139; 0; 129; 70; 65; 70; 131; 37; 11; 0;
  86; 133; 239; 240; 127; 231; 74; 139; 129; 73; 165; 183; 147; 7; 139; 0;
  35; 52; 244; 248; 131; 57; 11; 0; 147; 5; 0; 3; 86; 133; 239; 240;
  223; 227; 234; 133; 86; 133; 239; 240; 95; 227; 65; 73; 147; 215; 201; 3;
  222; 151; 131; 197; 7; 0; 86; 133; 239; 240; 63; 226; 146; 9; 125; 57;
  227; 22; 9; 254; 3; 59; 132; 248; 129; 73; 37; 183; 147; 9; 139; 0;
  3; 57; 11; 0; 99; 15; 9; 0; 131; 69; 9; 0; 177; 193; 86; 133;
  239; 240; 191; 223; 5; 9; 131; 69; 9; 0; 245; 249; 78; 139; 129; 73;
  9; 183; 23; 9; 0; 0; 19; 9; 105; 61; 147; 5; 128; 2; 197; 183;
  19; 9; 139; 0; 131; 69; 11; 0; 86; 133; 239; 240; 31; 221; 74; 139;
  129; 73; 197; 181; 210; 133; 86; 133; 239; 240; 63; 220; 129; 73; 209; 189;
  78; 139; 129; 73; 249; 181; 230; 112; 70; 116; 166; 116; 6; 121; 230; 105;
  70; 106; 166; 106; 6; 107; 226; 123; 66; 124; 162; 124; 2; 125; 226; 109;
  9; 97; 130; 128; 29; 113; 6; 236; 34; 232; 0; 16; 12; 228; 16; 232;
  20; 236; 24; 240; 28; 244; 35; 56; 4; 3; 35; 60; 20; 3; 19; 6;
  132; 0; 35; 52; 196; 254; 170; 133; 5; 69; 239; 240; 31; 227; 226; 96;
  66; 100; 37; 97; 130; 128; 1; 17; 6; 236; 34; 232; 38; 228; 0; 16;
  147; 4; 5; 255; 151; 23; 0; 0; 131; 183; 71; 189; 145; 160; 152; 70;
  57; 158; 35; 44; 197; 254; 152; 99; 24; 99; 35; 56; 229; 254; 161; 168;
  3; 39; 133; 255; 185; 158; 148; 199; 3; 55; 5; 255; 152; 227; 190; 132;
  161; 168; 19; 5; 0; 16; 25; 157; 239; 0; 32; 8; 147; 7; 0; 16;
  156; 196; 189; 160; 152; 99; 99; 228; 231; 0; 99; 234; 228; 0; 186; 135;
  227; 250; 151; 254; 152; 99; 99; 228; 228; 0; 227; 234; 231; 254; 3; 38;
  133; 255; 148; 99; 19; 23; 6; 2; 1; 147; 18; 7; 38; 151; 227; 128;
  230; 250; 35; 56; 213; 254; 148; 71; 19; 151; 6; 2; 1; 147; 18; 7;
  62; 151; 227; 143; 228; 248; 132; 227; 23; 23; 0; 0; 35; 56; 247; 180;
  152; 68; 147; 23; 7; 2; 129; 147; 146; 7; 166; 151; 151; 22; 0; 0;
  131; 182; 70; 179; 99; 230; 215; 0; 147; 7; 240; 63; 227; 227; 231; 248;
  226; 96; 66; 100; 162; 100; 5; 97; 130; 128; 1; 17; 6; 236; 34; 232;
  38; 228; 0; 16; 170; 132; 99; 95; 160; 2; 27; 21; 69; 0; 239; 240;
  95; 199; 170; 135; 125; 87; 1; 69; 99; 129; 231; 2; 132; 199; 146; 4;
  190; 148; 23; 23; 0; 0; 35; 55; 151; 174; 19; 133; 7; 1; 239; 240;
  159; 240; 23; 21; 0; 0; 3; 53; 101; 174; 226; 96; 66; 100; 162; 100;
  5; 97; 130; 128; 27; 21; 69; 0; 239; 240; 191; 195; 42; 135; 253; 87;
  1; 69; 227; 4; 247; 254; 151; 23; 0; 0; 147; 135; 167; 171; 146; 4;
  136; 99; 170; 148; 132; 227; 1; 69; 201; 191; 93; 113; 134; 228; 162; 224;
  38; 252; 74; 248; 78; 244; 82; 240; 86; 236; 90; 232; 94; 228; 128; 8;
  147; 20; 5; 2; 129; 144; 189; 4; 145; 128; 155; 137; 20; 0; 133; 4;
  23; 21; 0; 0; 3; 53; 133; 168; 5; 193; 28; 97; 152; 71; 99; 121;
  151; 2; 23; 25; 0; 0; 19; 9; 105; 167; 38; 139; 166; 138; 19; 10;
  0; 16; 147; 11; 0; 16; 165; 160; 151; 23; 0; 0; 147; 135; 135; 166;
  23; 23; 0; 0; 35; 60; 247; 164; 156; 227; 35; 164; 7; 0; 209; 191;
  99; 140; 228; 2; 59; 7; 55; 65; 152; 199; 2; 23; 1; 147; 18; 7;
  186; 151; 35; 164; 55; 1; 23; 23; 0; 0; 35; 57; 167; 162; 19; 133;
  7; 1; 166; 96; 6; 100; 226; 116; 66; 121; 162; 121; 2; 122; 226; 106;
  66; 107; 162; 107; 97; 97; 130; 128; 152; 99; 24; 225; 233; 191; 1; 37;
  239; 240; 191; 238; 121; 221; 28; 97; 152; 71; 227; 123; 151; 250; 3; 55;
  9; 0; 62; 133; 227; 25; 247; 254; 90; 133; 227; 242; 74; 255; 94; 133;
  249; 191; 0; 0; 0; 0; 0; 0; 0; 0; 0; 0; 0; 0; 0; 0;
  91; 112; 105; 100; 58; 32; 37; 100; 93; 32; 49; 115; 116; 32; 102; 111;
  114; 107; 40; 41; 32; 102; 97; 105; 108; 101; 100; 0; 0; 0; 0; 0;
  101; 120; 101; 99; 99; 104; 105; 108; 100; 49; 0; 0; 0; 0; 0; 0;
  91; 112; 105; 100; 58; 32; 37; 100; 93; 32; 50; 110; 100; 32; 102; 111;
  114; 107; 40; 41; 32; 102; 97; 105; 108; 101; 100; 0; 0; 0; 0; 0;
  101; 120; 101; 99; 99; 104; 105; 108; 100; 50; 0; 0; 0; 0; 0; 0;
  91; 112; 105; 100; 58; 32; 37; 100; 93; 32; 115; 108; 101; 101; 112; 32;
  116; 101; 115; 116; 32; 45; 32; 49; 115; 46; 32; 117; 112; 116; 105; 109;
  101; 58; 32; 37; 100; 10; 0; 0; 91; 112; 105; 100; 58; 32; 37; 100;
  93; 32; 115; 108; 101; 101; 112; 32; 116; 101; 115; 116; 32; 45; 32; 50;
  115; 46; 32; 117; 112; 116; 105; 109; 101; 58; 32; 37; 100; 10; 0; 0;
  91; 112; 105; 100; 58; 32; 37; 100; 93; 32; 115; 108; 101; 101; 112; 32;
  116; 101; 115; 116; 32; 45; 32; 51; 115; 46; 32; 117; 112; 116; 105; 109;
  101; 58; 32; 37; 100; 10; 0; 0; 91; 112; 105; 100; 58; 32; 37; 100;
  93; 32; 119; 97; 105; 116; 32; 45; 32; 112; 105; 100; 58; 32; 37; 100;
  32; 45; 32; 101; 120; 105; 116; 32; 99; 111; 100; 101; 58; 32; 37; 100;
  10; 0; 0; 0; 0; 0; 0; 0; 91; 112; 105; 100; 58; 32; 37; 100;
  93; 32; 117; 112; 116; 105; 109; 101; 58; 32; 37; 100; 44; 32; 105; 110;
  105; 116; 32; 112; 114; 111; 99; 101; 115; 115; 32; 104; 97; 115; 32; 110;
  111; 32; 99; 104; 105; 108; 100; 32; 110; 111; 119; 44; 32; 111; 118; 101;
  114; 33; 10; 0; 0; 0; 0; 0; 40; 110; 117; 108; 108; 41; 0; 0;
  48; 49; 50; 51; 52; 53; 54; 55; 56; 57; 65; 66; 67; 68; 69; 70;
  0; 0; 0; 0; 0; 0; 0; 0; 0; 0; 0; 0; 0; 0; 0; 0;
  0; 0; 0; 0; 0; 0; 0; 0; 0; 0; 0; 0; 0; 0; 0; 0;
  0; 0; 0; 0; 0; 0; 0; 0; 0; 0; 0; 0; 0; 0; 0; 0;
  0; 0; 0; 0; 0; 0; 0; 0; 0; 0; 0; 0; 0; 0; 0; 0;
  0; 0; 0; 0; 0; 0; 0; 0; 0; 0; 0; 0; 0; 0; 0; 0;
  0; 0; 0; 0; 0; 0; 0; 0; 0; 0; 0; 0; 0; 0; 0; 0;
  0; 0; 0; 0; 0; 0; 0; 0; 0; 0; 0; 0; 0; 0; 0; 0;
  0; 0; 0; 0; 0; 0; 0; 0; 0; 0; 0; 0; 0; 0; 0; 0;
  0; 0; 0; 0; 0; 0; 0; 0; 0; 0; 0; 0; 0; 0; 0; 0;
  0; 0; 0; 0; 0; 0; 0; 0; 0; 0; 0; 0; 0; 0; 0; 0;
  0; 0; 0; 0; 0; 0; 0; 0; 0; 0; 0; 0; 0; 0; 0; 0;
  0; 0; 0; 0; 0; 0; 0; 0; 0; 0; 0; 0; 0; 0; 0; 0;
  0; 0; 0; 0; 0; 0; 0; 0; 0; 0; 0; 0; 0; 0; 0; 0;
  0; 0; 0; 0; 0; 0; 0; 0; 0; 0; 0; 0; 0; 0; 0; 0;
  0; 0; 0; 0; 0; 0; 0; 0; 0; 0; 0; 0; 0; 0; 0; 0;
  0; 0; 0; 0; 0; 0; 0; 0; 0; 0; 0; 0; 0; 0; 0; 0;
  0; 0; 0; 0; 0; 0; 0; 0; 0; 0; 0; 0; 0; 0; 0; 0;
  0; 0; 0; 0; 0; 0; 0; 0; 0; 0; 0; 0; 0; 0; 0; 0;
  0; 0; 0; 0; 0; 0; 0; 0; 0; 0; 0; 0; 0; 0; 0; 0;
  0; 0; 0; 0; 0; 0; 0; 0; 0; 0; 0; 0; 0; 0; 0; 0;
  0; 0; 0; 0; 0; 0; 0; 0; 0; 0; 0; 0; 0; 0; 0; 0;
  0; 0; 0; 0; 0; 0; 0; 0; 0; 0; 0; 0; 0; 0; 0; 0;
  0; 0; 0; 0; 0; 0; 0; 0; 0; 0; 0; 0; 0; 0; 0; 0;
  0; 0; 0; 0; 0; 0; 0; 0; 0; 0; 0; 0; 0; 0; 0; 0;
  0; 0; 0; 0; 0; 0; 0; 0; 0; 0; 0; 0; 0; 0; 0; 0;
  0; 0; 0; 0; 0; 0; 0; 0; 0; 0; 0; 0; 0; 0; 0; 0;
  0; 0; 0; 0; 0; 0; 0; 0; 0; 0; 0; 0; 0; 0; 0; 0;
  0; 0; 0; 0; 0; 0; 0; 0; 0; 0; 0; 0; 0; 0; 0; 0;
  0; 0; 0; 0; 0; 0; 0; 0; 0; 0; 0; 0; 0; 0; 0; 0;
  0; 0; 0; 0; 0; 0; 0; 0; 0; 0; 0; 0; 0; 0; 0; 0;
  0; 0; 0; 0; 0; 0; 0; 0; 0; 0; 0; 0; 0; 0; 0; 0;
  0; 0; 0; 0; 0; 0; 0; 0; 0; 0; 0; 0; 0; 0; 0; 0;
  0; 0; 0; 0; 0; 0; 0; 0; 0; 0; 0; 0; 0; 0; 0; 0;
  0; 0; 0; 0; 0; 0; 0; 0; 0; 0; 0; 0; 0; 0; 0; 0;
  0; 0; 0; 0; 0; 0; 0; 0; 0; 0; 0; 0; 0; 0; 0; 0;
  0; 0; 0; 0; 0; 0; 0; 0; 0; 0; 0; 0; 0; 0; 0; 0;
  0; 0; 0; 0; 0; 0; 0; 0; 0; 0; 0; 0; 0; 0; 0; 0;
  0; 0; 0; 0; 0; 0; 0; 0; 0; 0; 0; 0; 0; 0; 0; 0;
  0; 0; 0; 0; 0; 0; 0; 0; 0; 0; 0; 0; 0; 0; 0; 0;
  0; 0; 0; 0; 0; 0; 0; 0; 0; 0; 0; 0; 0; 0; 0; 0;
  0; 0; 0; 0; 0; 0; 0; 0; 0; 0; 0; 0; 0; 0; 0; 0;
  0; 0; 0; 0; 0; 0; 0; 0; 0; 0; 0; 0; 0; 0; 0; 0;
  0; 0; 0; 0; 0; 0; 0; 0; 0; 0; 0; 0; 0; 0; 0; 0;
  0; 0; 0; 0; 0; 0; 0; 0; 0; 0; 0; 0; 0; 0; 0; 0;
  0; 0; 0; 0; 0; 0; 0; 0; 0; 0; 0; 0; 0; 0; 0; 0;
  0; 0; 0; 0; 0; 0; 0; 0; 0; 0; 0; 0; 0; 0; 0; 0;
  0; 0; 0; 0; 0; 0; 0; 0; 0; 0; 0; 0; 0; 0; 0; 0;
  0; 0; 0; 0; 0; 0; 0; 0; 0; 0; 0; 0; 0; 0; 0; 0;
  0; 0; 0; 0; 0; 0; 0; 0; 0; 0; 0; 0; 0; 0; 0; 0;
  0; 0; 0; 0; 0; 0; 0; 0; 0; 0; 0; 0; 0; 0; 0; 0;
  0; 0; 0; 0; 0; 0; 0; 0; 0; 0; 0; 0; 0; 0; 0; 0;
  0; 0; 0; 0; 0; 0; 0; 0; 0; 0; 0; 0; 0; 0; 0; 0;
  0; 0; 0; 0; 0; 0; 0; 0; 0; 0; 0; 0; 0; 0; 0; 0;
  0; 0; 0; 0; 0; 0; 0; 0; 0; 0; 0; 0; 0; 0; 0; 0;
  0; 0; 0; 0; 0; 0; 0; 0; 0; 0; 0; 0; 0; 0; 0; 0;
  0; 0; 0; 0; 0; 0; 0; 0; 0; 0; 0; 0; 0; 0; 0; 0;
  0; 0; 0; 0; 0; 0; 0; 0; 0; 0; 0; 0; 0; 0; 0; 0;
  0; 0; 0; 0; 0; 0; 0; 0; 0; 0; 0; 0; 0; 0; 0; 0;
  0; 0; 0; 0; 0; 0; 0; 0; 0; 0; 0; 0; 0; 0; 0; 0;
  0; 0; 0; 0; 0; 0; 0; 0; 0; 0; 0; 0; 0; 0; 0; 0;
  0; 0; 0; 0; 0; 0; 0; 0; 0; 0; 0; 0; 0; 0; 0; 0;
  0; 0; 0; 0; 0; 0; 0; 0; 0; 0; 0; 0; 0; 0; 0; 0;
  0; 0; 0; 0; 0; 0; 0; 0; 0; 0; 0; 0; 0; 0; 0; 0;
  0; 0; 0; 0; 0; 0; 0; 0; 0; 0; 0; 0; 0; 0; 0; 0;
  0; 0; 0; 0; 0; 0; 0; 0; 0; 0; 0; 0; 0; 0; 0; 0;
  0; 0; 0; 0; 0; 0; 0; 0; 0; 0; 0; 0; 0; 0; 0; 0;
  0; 0; 0; 0; 0; 0; 0; 0; 0; 0; 0; 0; 0; 0; 0; 0;
  0; 0; 0; 0; 0; 0; 0; 0; 0; 0; 0; 0; 0; 0; 0; 0;
  0; 0; 0; 0; 0; 0; 0; 0; 0; 0; 0; 0; 0; 0; 0; 0;
  0; 0; 0; 0; 0; 0; 0; 0; 0; 0; 0; 0; 0; 0; 0; 0;
  0; 0; 0; 0; 0; 0; 0; 0; 0; 0; 0; 0; 0; 0; 0; 0;
  0; 0; 0; 0; 0; 0; 0; 0; 0; 0; 0; 0; 0; 0; 0; 0;
  0; 0; 0; 0; 0; 0; 0; 0; 0; 0; 0; 0; 0; 0; 0; 0;
  0; 0; 0; 0; 0; 0; 0; 0; 0; 0; 0; 0; 0; 0; 0; 0;
  0; 0; 0; 0; 0; 0; 0; 0; 0; 0; 0; 0; 0; 0; 0; 0;
  0; 0; 0; 0; 0; 0; 0; 0; 0; 0; 0; 0; 0; 0; 0; 0;
  0; 0; 0; 0; 0; 0; 0; 0; 0; 0; 0; 0; 0; 0; 0; 0;
  0; 0; 0; 0; 0; 0; 0; 0; 0; 0; 0; 0; 0; 0; 0; 0;
  0; 0; 0; 0; 0; 0; 0; 0; 0; 0; 0; 0; 0; 0; 0; 0;
  0; 0; 0; 0; 0; 0; 0; 0; 0; 0; 0; 0; 0; 0; 0; 0;
  0; 0; 0; 0; 0; 0; 0; 0; 0; 0; 0; 0; 0; 0; 0; 0;
  0; 0; 0; 0; 0; 0; 0; 0; 0; 0; 0; 0; 0; 0; 0; 0;
  0; 0; 0; 0; 0; 0; 0; 0; 0; 0; 0; 0; 0; 0; 0; 0;
  0; 0; 0; 0; 0; 0; 0; 0; 0; 0; 0; 0; 0; 0; 0; 0;
  0; 0; 0; 0; 0; 0; 0; 0; 0; 0; 0; 0; 0; 0; 0; 0;
  0; 0; 0; 0; 0; 0; 0; 0; 0; 0; 0; 0; 0; 0; 0; 0;
  0; 0; 0; 0; 0; 0; 0; 0; 0; 0; 0; 0; 0; 0; 0; 0;
  0; 0; 0; 0; 0; 0; 0; 0; 0; 0; 0; 0; 0; 0; 0; 0;
  0; 0; 0; 0; 0; 0; 0; 0; 0; 0; 0; 0; 0; 0; 0; 0;
  0; 0; 0; 0; 0; 0; 0; 0; 0; 0; 0; 0; 0; 0; 0; 0;
  0; 0; 0; 0; 0; 0; 0; 0; 0; 0; 0; 0; 0; 0; 0; 0;
  0; 0; 0; 0; 0; 0; 0; 0; 0; 0; 0; 0; 0; 0; 0; 0;
  0; 0; 0; 0; 0; 0; 0; 0; 0; 0; 0; 0; 0; 0; 0; 0;
  0; 0; 0; 0; 0; 0; 0; 0; 0; 0; 0; 0; 0; 0; 0; 0;
  0; 0; 0; 0; 0; 0; 0; 0; 0; 0; 0; 0; 0; 0; 0; 0;
  0; 0; 0; 0; 0; 0; 0; 0; 0; 0; 0; 0; 0; 0; 0; 0;
  0; 0; 0; 0; 0; 0; 0; 0; 0; 0; 0; 0; 0; 0; 0; 0;
  0; 0; 0; 0; 0; 0; 0; 0; 0; 0; 0; 0; 0; 0; 0; 0;
  0; 0; 0; 0; 0; 0; 0; 0; 0; 0; 0; 0; 0; 0; 0; 0;
  0; 0; 0; 0; 0; 0; 0; 0; 0; 0; 0; 0; 0; 0; 0; 0;
  0; 0; 0; 0; 0; 0; 0; 0; 0; 0; 0; 0; 0; 0; 0; 0;
  0; 0; 0; 0; 0; 0; 0; 0; 0; 0; 0; 0; 0; 0; 0; 0;
  0; 0; 0; 0; 0; 0; 0; 0; 0; 0; 0; 0; 0; 0; 0; 0;
  0; 0; 0; 0; 0; 0; 0; 0; 0; 0; 0; 0; 0; 0; 0; 0;
  0; 0; 0; 0; 0; 0; 0; 0; 0; 0; 0; 0; 0; 0; 0; 0;
  0; 0; 0; 0; 0; 0; 0; 0; 0; 0; 0; 0; 0; 0; 0; 0;
  0; 0; 0; 0; 0; 0; 0; 0; 0; 0; 0; 0; 0; 0; 0; 0;
  0; 0; 0; 0; 0; 0; 0; 0; 0; 0; 0; 0; 0; 0; 0; 0;
  0; 0; 0; 0; 0; 0; 0; 0; 0; 0; 0; 0; 0; 0; 0; 0;
  0; 0; 0; 0; 0; 0; 0; 0; 0; 0; 0; 0; 0; 0; 0; 0;
  0; 0; 0; 0; 0; 0; 0; 0; 0; 0; 0; 0; 0; 0; 0; 0;
  0; 0; 0; 0; 0; 0; 0; 0; 0; 0; 0; 0; 0; 0; 0; 0;
  0; 0; 0; 0; 0; 0; 0; 0; 0; 0; 0; 0; 0; 0; 0; 0;
  0; 0; 0; 0; 0; 0; 0; 0; 0; 0; 0; 0; 0; 0; 0; 0;
  0; 0; 0; 0; 0; 0; 0; 0; 0; 0; 0; 0; 0; 0; 0; 0;
  0; 0; 0; 0; 0; 0; 0; 0; 0; 0; 0; 0; 0; 0; 0; 0;
  0; 0; 0; 0; 0; 0; 0; 0; 0; 0; 0; 0; 0; 0; 0; 0;
  0; 0; 0; 0; 0; 0; 0; 0; 0; 0; 0; 0; 0; 0; 0; 0;
  0; 0; 0; 0; 0; 0; 0; 0; 0; 0; 0; 0; 0; 0; 0; 0;
  0; 0; 0; 0; 0; 0; 0; 0; 0; 0; 0; 0; 0; 0; 0; 0;
  0; 0; 0; 0; 0; 0; 0; 0; 0; 0; 0; 0; 0; 0; 0; 0;
  0; 0; 0; 0; 0; 0; 0; 0; 0; 0; 0; 0; 0; 0; 0; 0;
  0; 0; 0; 0; 0; 0; 0; 0; 0; 0; 0; 0; 0; 0; 0; 0;
  0; 0; 0; 0; 0; 0; 0; 0; 0; 0; 0; 0; 0; 0; 0; 0;
  0; 0; 0; 0; 0; 0; 0; 0; 0; 0; 0; 0; 0; 0; 0; 0;
  0; 0; 0; 0; 0; 0; 0; 0; 0; 0; 0; 0; 0; 0; 0; 0;
  0; 0; 0; 0; 0; 0; 0; 0; 0; 0; 0; 0; 0; 0; 0; 0;
  0; 0; 0; 0; 0; 0; 0; 0; 0; 0; 0; 0; 0; 0; 0; 0;
  0; 0; 0; 0; 0; 0; 0; 0; 0; 0; 0; 0; 0; 0; 0; 0;
  0; 0; 0; 0; 0; 0; 0; 0; 0; 0; 0; 0; 0; 0; 0; 0;
  0; 0; 0; 0; 0; 0; 0; 0; 0; 0; 0; 0; 0; 0; 0; 0;
  0; 0; 0; 0; 0; 0; 0; 0; 0; 0; 0; 0; 0; 0; 0; 0;
  0; 0; 0; 0; 0; 0; 0; 0; 0; 0; 0; 0; 0; 0; 0; 0;
  112; 6; 0; 0; 0; 0; 0; 0; 0; 0; 0; 0; 0; 0; 0; 0;
  160; 6; 0; 0; 0; 0; 0; 0; 0; 0; 0; 0; 0; 0; 0; 0].
