(* ===== verification/Proc.v ===== *)
(** kernel/proc.c: the life of a process, from [allocproc] to [kwait], and the
    scheduler.  What runs between two turns of the scheduler is a parameter,
    [run_thread]. *)

From S2P Require Import Prelude Types Memory Spinlock Kalloc Vm Sched Sleeplock Bio Uart Printf Block Log Fs InitCode.
Local Open Scope c_scope.

(** Addresses of code, chosen by the linker. *)
Class Text := {
  t_forkret : Z;
  t_usertrap : Z;
  t_uservec : Z;
  t_userret : Z;
  t_kernelvec : Z
}.

(** proc.h: offsets into [struct trapframe] and its size *)
Definition TF_kernel_satp : Z := 0.
Definition TF_kernel_sp : Z := 8.
Definition TF_kernel_trap : Z := 16.
Definition TF_epc : Z := 24.
Definition TF_kernel_hartid : Z := 32.
Definition TF_sp : Z := 48.
Definition TF_a (n : Z) : Z := 112 + 8 * n.
Definition TF_SIZE : Z := 288.

(** [p->trapframe->f], for the field at [off]. *)
Definition tf_of (p : nat) : K Z :=
  pr <- get_proc p ;; if p_trapframe pr =? 0 then fault "trapframe" else ret (p_trapframe pr).
Definition tf_get (p : nat) (off : Z) : K Z := tf <- tf_of p ;; ld64 (tf + off).
Definition tf_put (p : nat) (off v : Z) : K unit := tf <- tf_of p ;; st64 (tf + off) v.

(** [for (int i = 0; i < NPROC; i++)], [n] to go *)
Fixpoint procinit_loop (n i : nat) : K unit :=
  match n with
  | O => ret tt
  | S n =>
      initlock (LK_proc i) ;;
      upd_proc i (set_p_state UNUSED) ;;
      upd_proc i (set_p_kstack (KSTACK (Z.of_nat i))) ;;
      procinit_loop n (S i)
  end.
Definition procinit : K unit := initlock LK_pid ;; initlock LK_wait ;; procinit_loop NPROC 0.

Section Proc.
Context {L : KernelLayout} {X : Text} {W : Wakeups} {D : DiskDriver}.

(** * Making and freeing processes *)

Definition proc_pagetable (p : nat) : K Z :=
  pagetable <- uvmcreate ;;
  if pagetable =? 0 then ret 0 else
  r <- mappages pagetable TRAMPOLINE PGSIZE l_trampoline (Z.lor PTE_R PTE_X) ;;
  if negb (r =? 0) then uvmfree pagetable 0 ;; ret 0 else
  pr <- get_proc p ;;
  r <- mappages pagetable TRAPFRAME PGSIZE (p_trapframe pr) (Z.lor PTE_R PTE_W) ;;
  if negb (r =? 0) then uvmunmap pagetable TRAMPOLINE 1 false ;; uvmfree pagetable 0 ;; ret 0 else
  ret pagetable.

Definition proc_freepagetable (pagetable sz : Z) : K unit :=
  uvmunmap pagetable TRAMPOLINE 1 false ;;
  uvmunmap pagetable TRAPFRAME 1 false ;;
  uvmfree pagetable sz.

Definition freeproc (p : nat) : K unit :=
  pr <- get_proc p ;;
  when (negb (p_trapframe pr =? 0)) (kfree (p_trapframe pr)) ;;
  upd_proc p (set_p_trapframe 0) ;;
  when (negb (p_pagetable pr =? 0)) (proc_freepagetable (p_pagetable pr) (p_sz pr)) ;;
  upd_proc p (fun x => set_p_state UNUSED (set_p_name (<[0%nat := 0]> (p_name x)) (set_p_cwd None (set_p_xstate 0
    (set_p_killed 0 (set_p_chan None (set_p_parent None (set_p_pid 0 (set_p_sz 0 (set_p_pagetable 0 x)))))))))).

(** From [found:] on; the lock of [p] is held. *)
Definition allocproc_found (p : nat) : K (option nat) :=
  let bad := freeproc p ;; release (LK_proc p) ;; ret None in
  pid <- allocpid ;;
  upd_proc p (set_p_pid pid) ;;
  upd_proc p (set_p_state USED) ;;
  tf <- kalloc ;;
  upd_proc p (set_p_trapframe tf) ;;
  if tf =? 0 then bad else
  pagetable <- proc_pagetable p ;;
  upd_proc p (set_p_pagetable pagetable) ;;
  if pagetable =? 0 then bad else
  upd_proc p (fun x => set_p_context (mk_context t_forkret (u64 (p_kstack x + PGSIZE)) (replicate 12 0)) x) ;;
  ret (Some p).

(** [for (p = proc; p < &proc[NPROC]; p++)], [n] to go *)
Fixpoint allocproc_loop (n i : nat) : K (option nat) :=
  match n with
  | O => ret None
  | S n =>
      acquire (LK_proc i) ;;
      p <- get_proc i ;;
      if decide (p_state p = UNUSED) then allocproc_found i else
      release (LK_proc i) ;;
      allocproc_loop n (S i)
  end.
Definition allocproc : K (option nat) := allocproc_loop NPROC 0.

(** [for (int page = 1; page <= 3; page++)], [n] to go *)
Fixpoint userinit_loop (n : nat) (page : Z) (p : nat) : K unit :=
  match n with
  | O => ret tt
  | S n =>
      mem <- kalloc ;;
      if mem =? 0 then panic "userinit: user page" else
      mem_upd (fun m => memset m mem 0 PGSIZE) ;;
      when (page =? 1) (mem_upd (fun m => put_bytes m mem (drop (Z.to_nat PGSIZE) initcode))) ;;
      pr <- get_proc p ;;
      r <- mappages (p_pagetable pr) (page * PGSIZE) PGSIZE mem (Z.lor (Z.lor PTE_R PTE_W) PTE_U) ;;
      if negb (r =? 0) then panic "userinit: mappages" else
      userinit_loop n (page + 1) p
  end.
Definition userinit : K unit :=
  p <- allocproc ;;
  match p with
  | None => panic "userinit"
  | Some p =>
      modify (set_k_initproc (Some p)) ;;
      pr <- get_proc p ;;
      uvmfirst (p_pagetable pr) (take (Z.to_nat PGSIZE) initcode) ;;
      userinit_loop 3 1 p ;;
      upd_proc p (set_p_sz (4 * PGSIZE)) ;;
      tf_put p TF_epc 0 ;;
      tf_put p TF_sp (4 * PGSIZE) ;;
      upd_proc p (set_p_state RUNNABLE) ;;
      release (LK_proc p)
  end.

(** [-n] is undefined for the least [int]. *)
Definition growproc (n : Z) : K Z :=
  p <- me ;;
  pr <- get_proc p ;;
  let sz := p_sz pr in
  if 0 <? n then
    if (u64 (sz + n) <? sz) || (TRAPFRAME <=? u64 (sz + n)) then ret (-1) else
    sz' <- uvmalloc (p_pagetable pr) sz (u64 (sz + n)) PTE_W ;;
    if sz' =? 0 then ret (-1) else
    upd_proc p (set_p_sz sz') ;; ret 0
  else if n <? 0 then
    if n =? - 2 ^ 31 then fault "-n" else
    if sz <? - n then ret (-1) else
    sz' <- uvmdealloc (p_pagetable pr) sz (u64 (sz + n)) ;;
    upd_proc p (set_p_sz sz') ;; ret 0
  else upd_proc p (set_p_sz sz) ;; ret 0.

Definition kfork : K Z :=
  p <- me ;;
  np <- allocproc ;;
  match np with
  | None => ret (-1)
  | Some np =>
      pr <- get_proc p ;;
      npr <- get_proc np ;;
      r <- uvmcopy (p_pagetable pr) (p_pagetable npr) (p_sz pr) ;;
      if r <? 0 then freeproc np ;; release (LK_proc np) ;; ret (-1) else
      upd_proc np (set_p_sz (p_sz pr)) ;;
      dst <- tf_of np ;;
      src <- tf_of p ;;
      mem_upd (fun m => memmove m dst src TF_SIZE) ;;
      tf_put np (TF_a 0) 0 ;;
      cwd <- deref "cwd" (p_cwd pr) ;;
      ip <- idup cwd ;;
      upd_proc np (set_p_cwd (Some ip)) ;;
      npr <- get_proc np ;;
      release (LK_proc np) ;;
      acquire LK_wait ;;
      upd_proc np (set_p_parent (Some p)) ;;
      release LK_wait ;;
      acquire (LK_proc np) ;;
      upd_proc np (set_p_state RUNNABLE) ;;
      release (LK_proc np) ;;
      ret (p_pid npr)
  end.

(** * Leaving *)

(** [for (pp = proc; pp < &proc[NPROC]; pp++)], [n] to go.  Here and in [kexit],
    [wakeup] of a null pointer is a fault: every process has a parent but
    [initproc], which does not exit. *)
Fixpoint reparent_loop (n i : nat) (p : nat) : K unit :=
  match n with
  | O => ret tt
  | S n =>
      pp <- get_proc i ;;
      when (bool_decide (p_parent pp = Some p))
        (ini <- gets k_initproc ;;
         upd_proc i (set_p_parent ini) ;;
         ini <- deref "initproc" ini ;;
         wakeup (CH_proc ini)) ;;
      reparent_loop n (S i) p
  end.
Definition reparent (p : nat) : K unit := reparent_loop NPROC 0 p.

Definition kexit {A} (status : Z) : K A :=
  p <- me ;;
  ini <- gets k_initproc ;;
  if bool_decide (ini = Some p) then panic "init exiting" else
  begin_op ;;
  pr <- get_proc p ;;
  cwd <- deref "cwd" (p_cwd pr) ;;
  iput cwd ;;
  end_op ;;
  upd_proc p (set_p_cwd None) ;;
  acquire LK_wait ;;
  reparent p ;;
  pr <- get_proc p ;;
  parent <- deref "parent" (p_parent pr) ;;
  wakeup (CH_proc parent) ;;
  acquire (LK_proc p) ;;
  upd_proc p (set_p_xstate status) ;;
  upd_proc p (set_p_state ZOMBIE) ;;
  release LK_wait ;;
  sched ;;
  panic "zombie exit".

(** The scan of the process table in [kwait]: [inl r] returns [r] (the locks are
    released), [inr havekids] is the end of the scan. *)
Fixpoint kwait_scan (n i : nat) (p : nat) (addr : Z) (havekids : bool) : K (Z + bool) :=
  match n with
  | O => ret (inr havekids)
  | S n =>
      pp <- get_proc i ;;
      if negb (bool_decide (p_parent pp = Some p)) then kwait_scan n (S i) p addr havekids else
      acquire (LK_proc i) ;;
      pp <- get_proc i ;;
      if decide (p_state pp = ZOMBIE) then
        pr <- get_proc p ;;
        r <- (if addr =? 0 then ret 0 else copyout (p_pagetable pr) addr (le_enc 4 (u32 (p_xstate pp)))) ;;
        if r <? 0 then release (LK_proc i) ;; release LK_wait ;; ret (inl (-1)) else
        upd_proc i (set_p_parent None) ;;
        freeproc i ;;
        release (LK_proc i) ;;
        release LK_wait ;;
        ret (inl (p_pid pp))
      else
        release (LK_proc i) ;;
        kwait_scan n (S i) p addr true
  end.

(** [for (;;)] *)
Fixpoint kwait_loop (fuel : nat) (p : nat) (addr : Z) : K Z :=
  match fuel with
  | O => nofuel
  | S fuel =>
      r <- kwait_scan NPROC 0 p addr false ;;
      match r with
      | inl r => ret r
      | inr havekids =>
          k <- (if (havekids : bool) then killed p else ret 1) ;;
          if negb (k =? 0) then release LK_wait ;; ret (-1) else
          sleep (CH_proc p) LK_wait ;;
          kwait_loop fuel p addr
      end
  end.
Definition kwait (addr : Z) : K Z :=
  p <- me ;;
  acquire LK_wait ;;
  kwait_loop (S n_wakeups) p addr.

End Proc.

(** * The scheduler *)

(** What happens from the moment the scheduler switches to a process until that
    process switches back. *)
Class Threads := run_thread : nat -> K unit.

(** Switching to process [i], whose lock is held, and what follows the return of
    [swtch]. *)
Definition switch_in (i : nat) : K unit :=
  upd_proc i (set_p_state RUNNING) ;;
  c <- mycpu ;;
  put_mycpu (set_c_proc (Some i) c).
Definition switch_out : K unit :=
  c <- mycpu ;;
  put_mycpu (set_c_proc None c).

Section Scheduler.
Context {T : Threads}.

(** [for (p = proc; p < &proc[NPROC]; p++)], [n] to go *)
Fixpoint scheduler_pass (n i : nat) : K unit :=
  match n with
  | O => ret tt
  | S n =>
      acquire (LK_proc i) ;;
      p <- get_proc i ;;
      when (bool_decide (p_state p = RUNNABLE)) (switch_in i ;; run_thread i ;; switch_out) ;;
      release (LK_proc i) ;;
      scheduler_pass n (S i)
  end.

(** [rounds] turns of [for (;;)] *)
Fixpoint scheduler_rounds (rounds : nat) : K unit :=
  match rounds with
  | O => ret tt
  | S rounds => intr_on ;; scheduler_pass NPROC 0 ;; scheduler_rounds rounds
  end.
Definition scheduler (rounds : nat) : K unit :=
  c <- mycpu ;;
  put_mycpu (set_c_proc None c) ;;
  scheduler_rounds rounds.

End Scheduler.
