(* ===== verification/SleepWake.v ===== *)
(** Sleeping, waking up and being scheduled again (proc.c): the whole trip of a
    process that sleeps in a critical section, through the scheduler and back. *)

From S2P Require Import Prelude Types Memory Spinlock Sched Bio Crash Proc.
Local Open Scope c_scope.

(** The scheduler after the process has switched back to it, and when it
    switches to the process again. *)
Definition sched_leave (p : nat) : K unit := switch_out ;; release (LK_proc p).
Definition sched_enter (p : nat) : K unit :=
  acquire (LK_proc p) ;;
  pr <- get_proc p ;;
  if bool_decide (p_state pr = RUNNABLE) then switch_in p else fault "not runnable".

(** [s'] is inside the critical section of [l] entered from [s]. *)
Record inside (l : lockid) (s s' : kstate) : Prop := {
  in_hart : k_hart s' = k_hart s;
  in_locks : k_locks s' = k_locks (enter l s);
  in_cpus : k_cpus s' = k_cpus (enter l s)
}.

Lemma inside_enter l s : inside l s (enter l s).
Proof. constructor; by kproj. Qed.

Lemma inside_release l s s' :
  cpu_ok s -> lock_free s l -> inside l s s' -> release l s' = Ret tt (restore s s').
Proof. intros Hc Hl [H1 H2 H3]. by apply release_enter. Qed.

Lemma set_k_cpus_cpus v w s : set_k_cpus v (set_k_cpus w s) = set_k_cpus v s.
Proof. done. Qed.

Section Sleep.
Variables (s0 : kstate) (c : cpu) (p : nat) (ch : chan) (lk : lockid).
Hypothesis Hcpu : k_cpus s0 !! k_hart s0 = Some c.
Hypothesis Hinv : cpu_inv c.
Hypothesis Hnoff : c_noff c = 0.
Hypothesis Hproc : c_proc c = Some p.
Hypothesis Hlk : lock_free s0 lk.
Hypothesis Hlp : lock_free s0 (LK_proc p).
Hypothesis Hne : lk <> LK_proc p.

Let h := k_hart s0.
Let held := mk_spinlock true (Some h).

Lemma hart_lt : (h < length (k_cpus s0))%nat.
Proof. by eapply lookup_lt_Some. Qed.

(** The CPU without a process. *)
Definition cpu_idle : cpu := set_c_proc None c.

Lemma cpu_idle_inv : cpu_inv cpu_idle.
Proof. by destruct Hinv as (H1 & H2 & H3). Qed.

Lemma cpu_eta : set_c_proc (Some p) cpu_idle = c.
Proof. unfold cpu_idle. rewrite <- Hproc. by destruct c. Qed.

(** The states of the trip, for any state [s] the process has reached inside the
    critical section: suspended, with [p->lock] held, and after the scheduler
    has let go of it. *)
Definition sleeping (pr : proc) : proc := set_p_state SLEEPING (set_p_chan (Some ch) pr).
Definition suspended (pr : proc) (s : kstate) : kstate :=
  set_k_procs (<[p := sleeping pr]> (k_procs s)) (set_k_locks (k_locks (enter (LK_proc p) s0)) s).
Definition descheduled (pr : proc) (s : kstate) : kstate :=
  set_k_procs (<[p := sleeping pr]> (k_procs s))
    (set_k_locks (k_locks s0) (set_k_cpus (<[h := cpu_idle]> (k_cpus s0)) s)).

Lemma enter_parts l s x : k_cpus s !! k_hart s = Some x ->
  enter l s = set_k_locks (<[l := mk_spinlock true (Some (k_hart s))]> (k_locks s))
                (set_k_cpus (<[k_hart s := cpu_push x]> (k_cpus s)) s).
Proof. intros E. unfold enter. by rewrite E. Qed.

Lemma inside_cpu s : inside lk s0 s -> k_cpus s !! k_hart s = Some (cpu_push c).
Proof.
  intros [E1 _ E3]. rewrite E3, E1, (enter_parts _ _ c) by done. apply list_lookup_insert_eq, hart_lt.
Qed.

Lemma inside_cpu_ok s : inside lk s0 s -> cpu_ok s.
Proof. intros H. exists (cpu_push c). split; [by apply inside_cpu|by apply cpu_push_inv]. Qed.

Lemma inside_cur s : inside lk s0 s -> cur s = Some p.
Proof. intros H. unfold cur. rewrite (inside_cpu s H). exact Hproc. Qed.

(** [acquire(&p->lock); release(lk);] inside the section of [lk]. *)
Lemma swap_locks s :
  inside lk s0 s ->
  (acquire (LK_proc p) ;; release lk) s = Ret tt (set_k_locks (k_locks (enter (LK_proc p) s0)) s).
Proof.
  intros I. pose proof (inside_cpu_ok s I) as Hc. pose proof (inside_cpu s I) as Ec. destruct I as [E1 E2 E3].
  rewrite (enter_parts _ _ c) in E2, E3 by done. cbn in E2, E3.
  assert (Hf : lock_free s (LK_proc p)) by (unfold lock_free; rewrite E2; by rewrite lookup_insert_ne).
  run (acquire_free (LK_proc p) s Hc Hf).
  set (t := set_k_locks (<[LK_proc p := held]> (k_locks s0)) s).
  assert (Ht : k_cpus t !! k_hart t = Some (cpu_push c)) by exact Ec.
  rewrite (inside_release lk t).
  - unfold restore. rewrite !(enter_parts _ _ _ Ec), (enter_parts _ s0 c) by done. unfold t. f_equal.
  - exists (cpu_push c). split; [done|by apply cpu_push_inv].
  - unfold lock_free. cbn. by rewrite lookup_insert_ne.
  - constructor; rewrite (enter_parts _ _ _ Ec), ?(enter_parts _ _ _ Ht); cbn; [done| |done].
    rewrite E2, E1. unfold held, h. by rewrite insert_insert_ne.
Qed.

(** What is left of [sleep] when it is resumed. *)
Definition sleep_rest (intena : bool) : K unit :=
  (c <- mycpu ;; put_mycpu (set_c_intena intena c)) ;;
  upd_proc p (set_p_chan None) ;;
  release (LK_proc p) ;;
  acquire lk.

Lemma sched_suspends s pr :
  k_hart s = h -> k_cpus s !! h = Some (cpu_push c) -> k_locks s !! LK_proc p = Some held ->
  k_procs s !! p = Some pr -> p_state pr <> RUNNING ->
  sched s = Asleep s (x <- mycpu ;; put_mycpu (set_c_intena (c_intena c) x)).
Proof.
  intros Eh Ec El Ep Hst. rewrite <- Eh in Ec.
  assert (Hc : cpu_ok s) by (exists (cpu_push c); split; [done|by apply cpu_push_inv]).
  assert (Hm : cur s = Some p) by (unfold cur; by rewrite Ec).
  unfold sched. run (me_ok s p Hc Hm).
  assert (Hh : holding (LK_proc p) s = Ret true s).
  { unfold holding, cpuid, gets, lock_get, bind, ret. rewrite El. cbn. by rewrite Eh, bool_decide_true. }
  run Hh. cbn [negb]. assert (Em : mycpu s = Ret (cpu_push c) s) by (unfold mycpu; by rewrite Ec).
  run Em. cbn [cpu_push c_noff]. rewrite Hnoff. change (0 + 1 =? 1) with true. cbn [negb].
  run (get_proc_ok s p pr Ep). rewrite decide_False by done.
  unfold intr_get. assert (Ei : (c0 <- mycpu ;; ret (c_sie c0)) s = Ret false s) by (by run Em).
  run Ei. run Em. done.
Qed.

(** [sleep] inside the section of [lk] suspends with the process marked as
    sleeping on [ch], its lock held and [lk] free. *)
Lemma sleep_suspends s pr :
  inside lk s0 s -> k_procs s !! p = Some pr ->
  exists r, sleep ch lk s = Asleep (suspended pr s) r /\ forall s', r s' = sleep_rest (c_intena c) s'.
Proof.
  intros I Ep. pose proof (inside_cpu_ok s I) as Hc. pose proof (inside_cur s I) as Hm.
  unfold sleep. setoid_rewrite (bind_Ret _ _ _ _ _ (me_ok s p Hc Hm)).
  pose proof (swap_locks s I) as E. set (t := set_k_locks _ s) in E.
  assert (E' : forall (k : K unit), (acquire (LK_proc p) ;; release lk ;; k) s = k t).
  { intros k. unfold bind in E |- *. destruct (acquire (LK_proc p) s) as [[] s1| | | | |]; try done. cbn in E |- *. by rewrite E. }
  setoid_rewrite E'. clear E E'.
  setoid_rewrite (bind_Ret _ _ _ _ _ (upd_proc_ok t p pr (set_p_chan (Some ch)) Ep)). set (t1 := set_k_procs _ t).
  assert (Ep1 : k_procs t1 !! p = Some (set_p_chan (Some ch) pr)).
  { apply list_lookup_insert_eq. by eapply lookup_lt_Some. }
  setoid_rewrite (bind_Ret _ _ _ _ _ (upd_proc_ok t1 p _ (set_p_state SLEEPING) Ep1)). set (t2 := set_k_procs _ t1).
  assert (Et2 : t2 = suspended pr s).
  { unfold t2, t1, t, suspended. cbn [set_k_procs k_procs set_k_locks]. by rewrite list_insert_insert_eq. }
  setoid_rewrite Et2. unfold bind at 1. rewrite (sched_suspends (suspended pr s) (sleeping pr)).
  - eexists. split; [reflexivity|]. intros s'. unfold sleep_rest. by rewrite <- bind_obind.
  - apply I.
  - cbn. rewrite <- (inside_cpu s I). f_equal. symmetry. apply I.
  - cbn. rewrite (enter_parts _ _ c) by done. cbn. by rewrite lookup_insert_eq.
  - cbn. apply list_lookup_insert_eq. by eapply lookup_lt_Some.
  - done.
Qed.

Lemma put_mycpu_ok s x : put_mycpu x s = Ret tt (set_k_cpus (<[k_hart s := x]> (k_cpus s)) s).
Proof. done. Qed.

(** The scheduler lets go of a suspended process. *)
Lemma leave_suspended s pr :
  inside lk s0 s -> sched_leave p (suspended pr s) = Ret tt (descheduled pr s).
Proof.
  intros I. pose proof (inside_cpu s I) as Ec. destruct I as [E1 E2 E3]. pose proof hart_lt as Hlt.
  rewrite (enter_parts _ _ c) in E3 by done. cbn in E3.
  unfold sched_leave, switch_out.
  assert (Em : mycpu (suspended pr s) = Ret (cpu_push c) (suspended pr s)) by (unfold mycpu; cbn; by rewrite Ec).
  erewrite (bind_Ret (c0 <- mycpu ;; _)); [|unfold bind; rewrite Em; apply put_mycpu_ok].
  set (t := set_k_locks (k_locks s0) (set_k_cpus (<[h := cpu_idle]> (k_cpus s0)) s)).
  assert (Ht : k_cpus t !! k_hart t = Some cpu_idle).
  { cbn. rewrite E1. by apply list_lookup_insert_eq. }
  rewrite (inside_release (LK_proc p) t).
  - unfold restore, descheduled, suspended, t. done.
  - exists cpu_idle. split; [done|apply cpu_idle_inv].
  - done.
  - constructor; [done| |]; rewrite (enter_parts _ _ _ Ht); cbn.
    + rewrite (enter_parts _ _ c) by done. cbn. by rewrite E1.
    + rewrite E3, E1. fold h. by rewrite !list_insert_insert_eq.
Qed.

(** The scheduler takes the process up again; [s] is the state it does so in. *)
Definition rescheduled (s : kstate) : kstate :=
  set_k_locks (<[LK_proc p := held]> (k_locks s))
    (set_k_cpus (<[h := cpu_push c]> (k_cpus s)) s).

Lemma enter_runnable s q :
  k_hart s = h -> k_cpus s !! h = Some cpu_idle -> lock_free s (LK_proc p) ->
  k_procs s !! p = Some q -> p_state q = RUNNABLE ->
  sched_enter p s = Ret tt (set_k_procs (<[p := set_p_state RUNNING q]> (k_procs s)) (rescheduled s)).
Proof.
  intros Eh Ec Hf Ep Hst. rewrite <- Eh in Ec.
  assert (Hc : cpu_ok s) by (exists cpu_idle; split; [done|apply cpu_idle_inv]).
  unfold sched_enter. run (acquire_free (LK_proc p) s Hc Hf).
  assert (Ep' : k_procs (enter (LK_proc p) s) !! p = Some q) by (by kproj).
  run (get_proc_ok _ p q Ep'). rewrite bool_decide_true by done.
  unfold switch_in. run (upd_proc_ok _ p q (set_p_state RUNNING) Ep').
  rewrite (enter_parts _ _ _ Ec). unfold bind, mycpu. cbn.
  rewrite list_lookup_insert_eq by (by eapply lookup_lt_Some). cbn.
  unfold rescheduled. rewrite put_mycpu_ok. cbn. rewrite Eh, list_insert_insert_eq. unfold set_k_procs, held. cbn.
  do 2 f_equal. f_equal. unfold set_c_proc, cpu_push, cpu_idle. cbn. by rewrite Hproc.
Qed.

(** The rest of [sleep]. *)
Lemma sleep_returns s q :
  k_hart s = h -> k_cpus s !! h = Some cpu_idle -> lock_free s (LK_proc p) -> lock_free s lk ->
  k_procs s !! p = Some q ->
  sleep_rest (c_intena c) (set_k_procs (<[p := set_p_state RUNNING q]> (k_procs s)) (rescheduled s)) =
  Ret tt (enter lk (set_k_procs (<[p := set_p_chan None (set_p_state RUNNING q)]> (k_procs s))
                     (set_k_cpus (<[h := c]> (k_cpus s)) s))).
Proof.
  intros Eh Ec Hf Hf' Ep. assert (Hlt : (h < length (k_cpus s))%nat) by (by eapply lookup_lt_Some).
  set (t := set_k_procs _ (rescheduled s)).
  assert (Et : k_cpus t !! k_hart t = Some (cpu_push c)) by (cbn; rewrite Eh; by apply list_lookup_insert_eq).
  assert (Hlen : (p < length (k_procs s))%nat) by (by eapply lookup_lt_Some).
  unfold sleep_rest.
  assert (E1 : (x <- mycpu ;; put_mycpu (set_c_intena (c_intena c) x)) t = Ret tt t).
  { unfold bind, mycpu. rewrite Et. cbn [deref ret]. rewrite put_mycpu_ok. f_equal.
    rewrite list_insert_id; [by destruct t|]. rewrite Et. done. }
  rewrite (bind_Ret _ _ _ _ _ E1).
  rewrite (bind_Ret _ _ _ _ _ (upd_proc_ok t p (set_p_state RUNNING q) (set_p_chan None)
    ltac:(cbn; by apply list_lookup_insert_eq))).
  set (w := set_k_procs (<[p := set_p_chan None (set_p_state RUNNING q)]> (k_procs s)) (set_k_cpus (<[h := c]> (k_cpus s)) s)).
  assert (Hw : k_cpus w !! k_hart w = Some c) by (cbn; rewrite Eh; by apply list_lookup_insert_eq).
  assert (Hcw : cpu_ok w) by (by exists c).
  set (t1 := set_k_procs _ t). assert (I : inside (LK_proc p) w t1).
  { constructor; [done| |]; rewrite (enter_parts _ _ _ Hw); cbn; rewrite Eh; [done|].
    by rewrite list_insert_insert_eq. }
  rewrite (bind_Ret _ _ _ _ _ (inside_release (LK_proc p) w t1 Hcw Hf I)).
  rewrite (acquire_free lk); [|exists c; split; [exact Hw|exact Hinv]|done].
  f_equal. f_equal. unfold restore, w, t1, t, rescheduled. cbn. by rewrite list_insert_insert_eq.
Qed.
End Sleep.

(** Process [p] runs on the hart of [s], outside of any critical section, and may
    take [lk]. *)
Record can_sleep (s : kstate) (p : nat) (lk : lockid) : Prop := {
  cs_cpu : exists c, k_cpus s !! k_hart s = Some c /\ cpu_inv c /\ c_noff c = 0 /\ c_proc c = Some p;
  cs_free : lock_free s lk;
  cs_procs : forall i, lock_free s (LK_proc i);
  cs_ne : forall i, lk <> LK_proc i;
  cs_len : length (k_procs s) = NPROC
}.

Definition woken (ch : chan) (pr : proc) : proc := set_p_state RUNNABLE (sleeping ch pr).

(** The trip, for anything that happens meanwhile on this hart and makes the
    process runnable. *)
Lemma sleep_trip s0 s p ch lk pr :
  can_sleep s0 p lk -> inside lk s0 s -> k_procs s !! p = Some pr -> p_state pr = RUNNING -> p_chan pr = None ->
  exists s1 r s2, sleep ch lk s = Asleep s1 r /\ sched_leave p s1 = Ret tt s2 /\
    s2 = set_k_procs (<[p := sleeping ch pr]> (k_procs s)) (set_k_locks (k_locks s0) (set_k_cpus (k_cpus s2) s)) /\
    cur s2 = None /\ cpu_ok s2 /\
    forall s3, k_hart s3 = k_hart s0 -> k_cpus s3 = k_cpus s2 -> k_locks s3 = k_locks s0 ->
      k_procs s3 !! p = Some (woken ch pr) ->
      exists s4, sched_enter p s3 = Ret tt s4 /\
        r s4 = Ret tt (enter lk (set_k_procs (<[p := pr]> (k_procs s3)) (restore s0 s3))).
Proof.
  intros [(c & Hc & Hi & Hn & Hp) Hf Hpf Hne _] I Ep Hst Hch.
  destruct (sleep_suspends s0 c p ch lk Hc Hi Hn Hp Hf (Hpf p) (Hne p) s pr I Ep) as (r & E & Hr).
  exists (suspended s0 p ch pr s), r, (descheduled s0 c p ch pr s). split; [exact E|].
  pose proof (hart_lt s0 c Hc) as Hlt.
  split; [by apply (leave_suspended s0 c p ch lk)|]. split; [done|].
  assert (Ec2 : k_cpus (descheduled s0 c p ch pr s) !! k_hart s0 = Some (cpu_idle c)).
  { cbn. by apply list_lookup_insert_eq. }
  split; [unfold cur; cbn; rewrite (in_hart _ _ _ I), list_lookup_insert_eq by done; done|].
  split; [exists (cpu_idle c); split; [cbn; rewrite (in_hart _ _ _ I); by apply list_lookup_insert_eq|by apply cpu_idle_inv]|].
  intros s3 Eh Ecs El Ep3.
  assert (Ec3 : k_cpus s3 !! k_hart s0 = Some (cpu_idle c)) by (by rewrite Ecs).
  assert (Hf3 : lock_free s3 (LK_proc p)) by (unfold lock_free; rewrite El; apply Hpf).
  assert (Hf3' : lock_free s3 lk) by (unfold lock_free; by rewrite El).
  eexists. split; [by apply (enter_runnable s0 c p Hi Hp s3 (woken ch pr))|].
  rewrite Hr, (sleep_returns s0 c p lk Hi s3 (woken ch pr)) by done. f_equal. f_equal.
  replace (set_p_chan None (set_p_state RUNNING (woken ch pr))) with pr
    by (destruct pr; cbn in *; by subst). unfold restore. rewrite Ecs.
  replace (<[k_hart s0 := c]> (k_cpus (descheduled s0 c p ch pr s))) with (k_cpus s0).
  - rewrite <- El. by destruct s3.
  - cbn. by rewrite list_insert_insert_eq, list_insert_id.
Qed.


(** Process 0 of the sample machine waits for the log. *)
Lemma machine_can_sleep : can_sleep Machine.st 0 LK_log.
Proof.
  constructor; try done.
  exists (mk_cpu (Some 0%nat) 0 false false). split_and!; try done.
Qed.

