(* ===== verification/SchedSpec.v ===== *)
(** The scheduler (proc.c): every round gives every runnable process one turn.
    What a process does during its turn is described by a contract. *)

From S2P Require Import Prelude Types Memory Spinlock Sched Bio Crash Proc SleepWake.
Local Open Scope c_scope.

(** The hart between two turns: no process, no lock held. *)
Record ready (s : kstate) : Prop := {
  rd_cpu : exists c, k_cpus s !! k_hart s = Some c /\ c_noff c = 0 /\ c_proc c = None;
  rd_free : forall j, lock_free s (LK_proc j);
  rd_len : length (k_procs s) = NPROC
}.

Definition runnable (s : kstate) (i : nat) : Prop :=
  exists p, k_procs s !! i = Some p /\ p_state p = RUNNABLE.

(** The hart of [s] while process [i] has it, with [i]'s lock held. *)
Definition in_thread (i : nat) (s : kstate) : kstate :=
  match k_cpus s !! k_hart s with
  | Some c => set_k_cpus (<[k_hart s := set_c_proc (Some i) (cpu_push c)]> (k_cpus s)) (enter (LK_proc i) s)
  | None => s
  end.

(** What a process does when it gets the CPU: after finitely many steps it
    switches back to the scheduler, with its lock held again.  [progress] counts
    its turns; it leaves the turns of the others alone, and may make others
    runnable but not take that from them.  A [busy] process always wants another
    turn. *)
Class ThreadsContract (T : Threads) := {
  progress : kstate -> nat -> nat;
  busy : nat -> Prop;
  progress_cpus : forall s v i, progress (set_k_cpus v s) i = progress s i;
  thread_runs : forall s i p, ready s -> cpu_ok s ->
    k_procs s !! i = Some p -> p_state p = RUNNABLE ->
    exists s', run_thread i (set_k_procs (<[i := set_p_state RUNNING p]> (k_procs s)) (in_thread i s)) =
        Ret tt (in_thread i s') /\
      ready s' /\ cpu_ok s' /\ progress s' i = S (progress s i) /\
      (forall j, j <> i -> progress s' j = progress s j) /\
      (forall j, j <> i -> runnable s j -> runnable s' j) /\
      (busy i -> runnable s' i)
}.

(** * One turn *)

(** Outside of every critical section [intena] is not used: [push_off] sets it. *)
Definition settle (s : kstate) : kstate :=
  match k_cpus s !! k_hart s with
  | Some c => set_k_cpus (<[k_hart s := set_c_intena (c_sie c) c]> (k_cpus s)) s
  | None => s
  end.

Lemma settle_ok s c :
  k_cpus s !! k_hart s = Some c -> c_noff c = 0 ->
  cpu_ok (settle s) /\ push_off s = push_off (settle s).
Proof.
  intros Hc Hn. assert (Hlt : (k_hart s < length (k_cpus s))%nat) by (by eapply lookup_lt_Some).
  unfold settle. rewrite Hc. split.
  - exists (set_c_intena (c_sie c) c). split; [by apply list_lookup_insert_eq|]. unfold cpu_inv. cbn. rewrite Hn.
    split_and!; [lia|lia|done].
  - unfold push_off, rc_sie, mycpu, put_mycpu, bind, modify, ret, deref, when. rewrite Hc. cbn.
    rewrite !list_lookup_insert_eq by done. cbn. rewrite !list_lookup_insert_eq by (rewrite ?length_insert; done).
    cbn. rewrite Hn. cbn. rewrite !list_lookup_insert_eq by (rewrite ?length_insert; done). cbn.
    f_equal. unfold set_k_cpus. cbn. f_equal. by rewrite !list_insert_insert_eq.
Qed.

Lemma acquire_settle s c l :
  k_cpus s !! k_hart s = Some c -> c_noff c = 0 -> lock_free s l ->
  acquire l s = Ret tt (enter l (settle s)).
Proof.
  intros Hc Hn Hl. destruct (settle_ok s c Hc Hn) as [Hok E].
  rewrite <- (acquire_free l (settle s)); [unfold acquire, bind at 1; by rewrite E|done|].
  unfold lock_free, settle in *. by rewrite Hc.
Qed.

Lemma ready_settle s : ready s -> ready (settle s) /\ cpu_ok (settle s).
Proof.
  intros [(c & Hc & Hn & Hp) Hf Hl]. split; [|by eapply settle_ok]. unfold settle. rewrite Hc.
  constructor; [|done|done]. eexists. split; [apply list_lookup_insert_eq; by eapply lookup_lt_Some|done].
Qed.

Lemma settle_procs s : k_procs (settle s) = k_procs s.
Proof. unfold settle. by destruct (k_cpus s !! k_hart s). Qed.

Lemma switch_in_ok s i p :
  cpu_ok s -> k_procs s !! i = Some p ->
  switch_in i (enter (LK_proc i) s) =
    Ret tt (set_k_procs (<[i := set_p_state RUNNING p]> (k_procs s)) (in_thread i s)).
Proof.
  intros (c & Hc & _) Hp. unfold switch_in.
  assert (Hp' : k_procs (enter (LK_proc i) s) !! i = Some p) by (by kproj).
  run (upd_proc_ok _ i p (set_p_state RUNNING) Hp'). unfold in_thread. rewrite Hc, (enter_parts _ _ _ Hc).
  unfold bind, mycpu. cbn. rewrite list_lookup_insert_eq by (by eapply lookup_lt_Some). cbn.
  rewrite put_mycpu_ok. cbn. rewrite list_insert_insert_eq. done.
Qed.

Lemma switch_out_ok s i :
  ready s -> cpu_ok s -> switch_out (in_thread i s) = Ret tt (enter (LK_proc i) s).
Proof.
  intros [(c & Hc & _ & Hp) _ _] _. unfold switch_out, in_thread. rewrite Hc, (enter_parts _ _ _ Hc).
  unfold bind, mycpu. cbn. rewrite list_lookup_insert_eq by (by eapply lookup_lt_Some). cbn.
  rewrite put_mycpu_ok. cbn. rewrite list_insert_insert_eq. f_equal. unfold set_k_locks, set_k_cpus. cbn. f_equal. f_equal.
  unfold cpu_push, set_c_proc. cbn. by rewrite Hp.
Qed.

Section Scheduler.
Context {T : Threads} {C : ThreadsContract T}.

(** What [n] turns offered to each process of [from, to) amount to. *)
Record turns (n from to : nat) (s s' : kstate) : Prop := {
  tn_ready : ready s';
  tn_most : forall j, (progress s j <= progress s' j <= progress s j + n)%nat;
  tn_some : forall j, (from <= j < to)%nat -> (0 < n)%nat -> runnable s j -> (progress s j < progress s' j)%nat;
  tn_busy : forall j, busy j -> runnable s j ->
    runnable s' j /\ ((from <= j < to)%nat -> progress s' j = (progress s j + n)%nat);
  tn_rest : forall j, ~ (from <= j < to)%nat -> progress s' j = progress s j /\ (runnable s j -> runnable s' j)
}.

(** One turn of the loop over the process table. *)
Lemma one_turn s i :
  ready s -> (i < NPROC)%nat ->
  exists s', (forall k : K unit,
      (acquire (LK_proc i) ;; p <- get_proc i ;;
       when (bool_decide (p_state p = RUNNABLE)) (switch_in i ;; run_thread i ;; switch_out) ;;
       release (LK_proc i) ;; k) s = k s') /\ turns 1 i (S i) s s'.
Proof.
  intros Hr Hi. destruct (ready_settle s Hr) as [Hr1 Hc1]. pose proof Hr as [(c & Hc & Hn & Hnone) Hf Hl].
  destruct (lookup_lt_is_Some_2 (k_procs s) i) as [p Hp]; [lia|].
  assert (Hrun : forall j, runnable (settle s) j <-> runnable s j) by (intros j; unfold runnable; by rewrite settle_procs).
  assert (Hpg : forall j, progress (settle s) j = progress s j).
  { intros j. unfold settle. rewrite Hc. apply progress_cpus. }
  assert (Hp1 : k_procs (settle s) !! i = Some p) by (by rewrite settle_procs).
  assert (Hl1 : lock_free (settle s) (LK_proc i)) by apply Hr1.
  setoid_rewrite (bind_Ret _ _ _ _ _ (acquire_settle s c (LK_proc i) Hc Hn (Hf i))).
  setoid_rewrite (bind_Ret _ _ _ _ _ (get_proc_ok (enter (LK_proc i) (settle s)) i p ltac:(by kproj))).
  destruct (decide (p_state p = RUNNABLE)) as [E|E].
  - rewrite bool_decide_true by done. cbn [when].
    destruct (thread_runs (settle s) i p Hr1 Hc1 Hp1 E) as (s' & Et & Hr' & Hc' & Pi & Pj & Rj & Bi).
    assert (Eb : (switch_in i ;; run_thread i ;; switch_out) (enter (LK_proc i) (settle s)) =
                 Ret tt (enter (LK_proc i) s')).
    { run (switch_in_ok (settle s) i p Hc1 Hp1). run Et. by apply switch_out_ok. }
    setoid_rewrite (bind_Ret _ _ _ _ _ Eb). exists s'. split.
    { intros k. assert (Hl' : lock_free s' (LK_proc i)) by apply Hr'.
      rewrite (bind_Ret _ _ _ _ _ (release_enter _ s' (enter (LK_proc i) s') Hc' Hl' ltac:(by kproj) eq_refl eq_refl)).
      by rewrite restore_enter. }
    constructor; [done|..].
    + intros j. destruct (decide (j = i)) as [->|Hj]; [rewrite Pi, Hpg|rewrite Pj, Hpg by done]; lia.
    + intros j Hj _ _. replace j with i by lia. rewrite Pi, Hpg. lia.
    + intros j Hb Hj. destruct (decide (j = i)) as [->|Hne].
      * split; [auto|]. intros _. rewrite Pi, Hpg. lia.
      * split; [by apply Rj, Hrun|lia].
    + intros j Hj. assert (j <> i) by lia. rewrite Pj, Hpg by done. split; [done|]. intros Hrj. by apply Rj, Hrun.
  - rewrite bool_decide_false by done. cbn [when]. exists (settle s). split.
    { intros k. unfold bind at 1. cbn [ret].
      rewrite (bind_Ret _ _ _ _ _ (release_enter _ (settle s) (enter (LK_proc i) (settle s)) Hc1 Hl1 ltac:(by kproj) eq_refl eq_refl)).
      by rewrite restore_enter. }
    assert (Hni : ~ runnable s i) by (intros (q & Eq & Hq); congruence).
    constructor; [done|..]; intros j.
    + rewrite Hpg. lia.
    + intros Hj _ Hrj. by replace j with i in Hrj by lia.
    + intros _ Hrj. split; [by apply Hrun|]. intros Hj. by replace j with i in Hrj by lia.
    + intros _. by rewrite Hpg, Hrun.
Qed.

Lemma turns_refl n from s : ready s -> turns n from from s s.
Proof. intros H. constructor; intros; try done; try lia. split; [done|lia]. Qed.

Lemma turns_app n a b c s s1 s2 :
  (a <= b <= c)%nat -> turns n a b s s1 -> turns n b c s1 s2 -> turns n a c s s2.
Proof.
  intros Hab [_ M1 S1 B1 R1] [Hr M2 S2 B2 R2]. constructor; [done|..]; intros j.
  - specialize (M1 j). specialize (M2 j). destruct (decide (b <= j < c)%nat) as [H|H].
    + destruct (R1 j) as [E _]; lia.
    + destruct (R2 j H) as [E _]. lia.
  - intros Hj Hn Hrj. specialize (M1 j). specialize (M2 j). destruct (decide (b <= j)%nat) as [H|H].
    + destruct (R1 j) as [E Hr1]; [lia|]. rewrite <- E. apply S2; [lia|done|auto].
    + pose proof (S1 j ltac:(lia) Hn Hrj). lia.
  - intros Hb Hrj. destruct (B1 j Hb Hrj) as [Hr1 E1]. destruct (B2 j Hb Hr1) as [Hr2 E2]. split; [done|].
    intros Hj. destruct (decide (b <= j)%nat) as [H|H].
    + destruct (R1 j) as [E _]; [lia|]. rewrite E2 by lia. lia.
    + destruct (R2 j) as [E _]; [lia|]. rewrite E. apply E1. lia.
  - intros Hj. destruct (R1 j) as [E1 Hr1]; [lia|]. destruct (R2 j) as [E2 Hr2]; [lia|]. rewrite E2, E1. auto.
Qed.

Lemma scheduler_pass_ok n i s :
  ready s -> (i + n = NPROC)%nat ->
  exists s', scheduler_pass n i s = Ret tt s' /\ turns 1 i NPROC s s'.
Proof.
  revert i s; induction n as [|n IH]; intros i s Hr Hn; cbn [scheduler_pass].
  { exists s. split; [done|]. replace NPROC with i by lia. by apply turns_refl. }
  destruct (one_turn s i Hr ltac:(lia)) as (s1 & E & T1).
  destruct (IH (S i) s1) as (s2 & E2 & T2); [apply T1|lia|].
  exists s2. rewrite E. split; [done|]. eapply turns_app; [|exact T1|exact T2]. lia.
Qed.

(** [intr_on] between two turns *)
Lemma intr_on_ready s :
  ready s -> exists v, intr_on s = Ret tt (set_k_cpus v s) /\ ready (set_k_cpus v s).
Proof.
  intros [(c & Hc & Hn & Hp) Hf Hl]. unfold intr_on, bind, mycpu. rewrite Hc. cbn. setoid_rewrite put_mycpu_ok.
  eexists. split; [reflexivity|]. constructor; [|done|done].
  eexists. split; [apply list_lookup_insert_eq; by eapply lookup_lt_Some|done].
Qed.

Lemma turns_cpus n a b v s s' : turns n a b (set_k_cpus v s) s' -> turns n a b s s'.
Proof.
  intros [Hr M S B R]. constructor; [done|..]; intros j;
    [specialize (M j)|specialize (S j)|specialize (B j)|specialize (R j)]; rewrite progress_cpus in *; assumption.
Qed.

Lemma runnable_lt s j : ready s -> runnable s j -> (j < NPROC)%nat.
Proof. intros Hr (p & Hp & _). rewrite <- (rd_len s Hr). by eapply lookup_lt_Some. Qed.

Lemma turns_more n s s1 s2 :
  turns 1 0 NPROC s s1 -> turns n 0 NPROC s1 s2 -> ready s -> turns (S n) 0 NPROC s s2.
Proof.
  intros [_ M1 S1 B1 R1] [Hr M2 S2 B2 R2] Hr0. constructor; [done|..]; intros j.
  - specialize (M1 j). specialize (M2 j). lia.
  - intros Hj _ Hrj. specialize (M2 j). pose proof (S1 j Hj ltac:(lia) Hrj). lia.
  - intros Hb Hrj. destruct (B1 j Hb Hrj) as [Hr1 E1]. destruct (B2 j Hb Hr1) as [Hr2 E2]. split; [done|].
    intros Hj. rewrite E2, E1 by done. lia.
  - intros Hj. destruct (R1 j Hj) as [E1 _], (R2 j Hj) as [E2 _]. rewrite E2, E1. split; [done|].
    intros Hrj. pose proof (runnable_lt s j Hr0 Hrj). lia.
Qed.

Lemma scheduler_rounds_ok n s :
  ready s -> exists s', scheduler_rounds n s = Ret tt s' /\ turns n 0 NPROC s s'.
Proof.
  revert s; induction n as [|n IH]; intros s Hr; cbn [scheduler_rounds].
  { exists s. split; [done|]. constructor; intros; try done; try lia. }
  destruct (intr_on_ready s Hr) as (v & E & Hr1). setoid_rewrite (bind_Ret _ _ _ _ _ E).
  destruct (scheduler_pass_ok NPROC 0 _ Hr1) as (s1 & E1 & T1); [done|]. setoid_rewrite (bind_Ret _ _ _ _ _ E1).
  destruct (IH s1) as (s2 & E2 & T2); [apply T1|].
  exists s2. split; [exact E2|]. apply (turns_more n s s1 s2); [by eapply turns_cpus|exact T2|exact Hr].
Qed.

(** C7: the scheduler starves nobody. Whatever the processes do in their turns, as
    long as each turn ends, any number of rounds of the scheduler goes through
    without a panic; a process that is runnable at the start gets a turn in the
    first round and at most one in each round; one that stays runnable gets
    exactly one in every round. *)
Theorem scheduler_fair rounds s :
  ready s ->
  exists s', scheduler rounds s = Ret tt s' /\ ready s' /\
    forall j, runnable s j ->
      ((0 < rounds)%nat -> (progress s j < progress s' j)%nat) /\
      (progress s' j <= progress s j + rounds)%nat /\
      (busy j -> runnable s' j /\ progress s' j = (progress s j + rounds)%nat).
Proof.
  intros Hr. pose proof Hr as [(c & Hc & Hn & Hp) Hf Hl].
  destruct (scheduler_rounds_ok rounds s Hr) as (s' & E & [Hr' M S B _]). exists s'. split; [|split; [done|]].
  - unfold scheduler. unfold bind at 1, mycpu. rewrite Hc. cbn [deref ret]. rewrite (bind_Ret _ _ _ _ _ (put_mycpu_ok _ _)).
    rewrite list_insert_id by (rewrite Hc; destruct c; cbn in *; by subst).
    rewrite <- E. f_equal. by destruct s.
  - intros j Hj. pose proof (runnable_lt s j Hr Hj). split; [intros H0; apply S; [lia|done|done]|].
    split; [apply M|]. intros Hb. destruct (B j Hb Hj) as [H1 H2]. split; [done|]. apply H2. lia.
Qed.
End Scheduler.

(** * A sample: processes that count their turns; process 0 always yields, the
      others exit *)

Module SampleThreads.
Definition turn (i : nat) (p : proc) : proc :=
  set_p_state (if bool_decide (i = 0%nat) then RUNNABLE else ZOMBIE)
    (set_p_xstate (Z.of_nat (S (Z.to_nat (p_xstate p)))) p).
#[export] Instance threads : Threads := fun i => upd_proc i (turn i).

Definition count (s : kstate) (i : nat) : nat :=
  match k_procs s !! i with Some p => Z.to_nat (p_xstate p) | None => 0 end.

Lemma in_thread_procs s i q :
  ready s -> in_thread i (set_k_procs q s) = set_k_procs q (in_thread i s).
Proof.
  intros [(c & Hc & _) _ _]. unfold in_thread. cbn. rewrite Hc.
  rewrite (enter_parts _ (set_k_procs q s) c), (enter_parts _ s c) by done. done.
Qed.

#[export] Instance contract : ThreadsContract threads.
Proof.
  refine {| progress := count; busy := fun i => i = 0%nat |}; [done|].
  intros s i p Hr Hc Hp Hst. set (q := <[i := turn i p]> (k_procs s)).
  assert (Hlt : (i < length (k_procs s))%nat) by (by eapply lookup_lt_Some).
  exists (set_k_procs q s).
  assert (Hi : count (set_k_procs q s) i = S (count s i)).
  { unfold count, q. cbn. rewrite list_lookup_insert_eq, Hp by done. cbn. lia. }
  assert (Hj : forall j, j <> i -> q !! j = k_procs s !! j) by (intros j Hne; unfold q; by rewrite list_lookup_insert_ne by done).
  assert (Hr' : ready (set_k_procs q s)).
  { destruct Hr as [H1 H2 H3]. constructor; [done|done|]. unfold q. cbn. by rewrite length_insert. }
  split_and!; [|done|done|done|..].
  - rewrite in_thread_procs by done. unfold run_thread, threads. erewrite upd_proc_ok; [|cbn; by apply list_lookup_insert_eq].
    cbn. by rewrite list_insert_insert_eq.
  - intros j Hne. unfold count. cbn. by rewrite Hj.
  - intros j Hne (r & Er & Hs). exists r. cbn. by rewrite Hj.
  - intros ->. exists (turn 0 p). cbn. unfold q. by rewrite list_lookup_insert_eq.
Defined.

(** Two runnable processes. *)
Definition st : kstate :=
  set_k_procs (<[0%nat := set_p_state RUNNABLE zero_proc]> (<[5%nat := set_p_state RUNNABLE zero_proc]> (k_procs boot))) boot.
End SampleThreads.

Lemma scheduler_fair_witness :
  exists s', scheduler (T := SampleThreads.threads) 4 SampleThreads.st = Ret tt s' /\
    SampleThreads.count s' 0 = 4%nat /\ (0 < SampleThreads.count s' 5)%nat.
Proof.
  destruct (scheduler_fair (C := SampleThreads.contract) 4 SampleThreads.st) as (s' & E & _ & H).
  - constructor; [|intros j; reflexivity|reflexivity].
    exists (mk_cpu None 0 false false). split; [reflexivity|]. split; reflexivity.
  - exists s'. split; [exact E|]. split.
    + apply (H 0%nat); [eexists; split; reflexivity|reflexivity].
    + apply (H 5%nat); [eexists; split; reflexivity|lia].
Defined.
