(* ===== verification/ProcSpec.v ===== *)
(** Processes (proc.c): theorems about pids, killing, allocation, growing and the
    scheduler. *)

From S2P Require Import Prelude Types Memory Spinlock Kalloc Vm PageTable UserMem Sched Sleeplock Bio Uart Block Log Crash Fs InitCode Proc SleepWake.
Local Open Scope c_scope.

(** * Pids *)

Definition pid_ok (n : Z) : Prop := 1 <= n < 2 ^ 31.

Definition next_pid (n : Z) : Z := if n =? 2 ^ 31 - 1 then 1 else n + 1.

Lemma allocpid_ok s :
  cpu_ok s -> lock_free s LK_pid -> pid_ok (k_nextpid s) ->
  allocpid s = Ret (k_nextpid s) (set_k_nextpid (next_pid (k_nextpid s)) s).
Proof.
  intros Hc Hl Hp. unfold pid_ok in *. unfold allocpid. run (acquire_free LK_pid s Hc Hl).
  unfold gets, modify. unfold bind at 1. unfold bind at 1. unfold bind at 1. kproj. unfold next_pid.
  destruct (Z.eqb_spec (k_nextpid s) (2 ^ 31 - 1)) as [E|E].
  - replace (i32 (k_nextpid s + 1) <? 1) with true by (rewrite E; reflexivity).
    cbn [when]. unfold bind at 1. leave. by kproj.
  - rewrite swrap_small by lia. rewrite (proj2 (Z.ltb_ge _ _)) by lia.
    cbn [when]. unfold bind at 1. cbn [ret]. leave. by kproj.
Qed.

(** C40: [allocpid] hands out the next pid, which is always a positive [int];
    after the largest one, numbering starts again at 1 (no pid is negative or
    0, but an old pid can be handed out again). *)
Theorem allocpid_bounds s :
  cpu_ok s -> lock_free s LK_pid -> pid_ok (k_nextpid s) ->
  exists n, allocpid s = Ret (k_nextpid s) (set_k_nextpid n s) /\ pid_ok n /\
    n = (if k_nextpid s =? 2 ^ 31 - 1 then 1 else k_nextpid s + 1).
Proof.
  intros Hc Hl Hp. exists (next_pid (k_nextpid s)). split; [by apply allocpid_ok|]. unfold next_pid, pid_ok in *.
  destruct (Z.eqb_spec (k_nextpid s) (2 ^ 31 - 1)); lia.
Qed.

Lemma allocpid_bounds_witness : allocpid (set_k_nextpid (2 ^ 31 - 1) boot) = Ret (2 ^ 31 - 1) (set_k_nextpid 1 boot).
Proof.
  destruct (allocpid_bounds (set_k_nextpid (2 ^ 31 - 1) boot)) as (n & E & _ & Hn).
  - exact boot_cpu_ok.
  - reflexivity.
  - unfold pid_ok. cbn. lia.
  - subst n. exact E.
Defined.

(** * Killing *)

(** What [kkill] does to the process it finds. *)
Definition kill1 (p : proc) : proc :=
  let p := set_p_killed 1 p in if bool_decide (p_state p = SLEEPING) then set_p_state RUNNABLE p else p.

Lemma kill_body s i p :
  cpu_ok s -> lock_free s (LK_proc i) -> k_procs s !! i = Some p ->
  (upd_proc i (set_p_killed 1) ;; p <- get_proc i ;;
   when (bool_decide (p_state p = SLEEPING)) (upd_proc i (set_p_state RUNNABLE)) ;;
   release (LK_proc i) ;; ret 0) (enter (LK_proc i) s) =
  Ret 0 (set_k_procs (<[i := kill1 p]> (k_procs s)) s).
Proof.
  intros Hc Hl Hp. assert (Hlt : (i < length (k_procs s))%nat) by (by eapply lookup_lt_Some).
  assert (Hp' : k_procs (enter (LK_proc i) s) !! i = Some p) by (by kproj).
  run (upd_proc_ok _ i p (set_p_killed 1) Hp'). set (s1 := set_k_procs _ _).
  assert (Hp1 : k_procs s1 !! i = Some (set_p_killed 1 p)) by (cbn; kproj; by apply list_lookup_insert_eq).
  run (get_proc_ok s1 i _ Hp1). unfold kill1. cbn [p_state set_p_killed].
  destruct (bool_decide (p_state p = SLEEPING)); cbn [when].
  - run (upd_proc_ok s1 i _ (set_p_state RUNNABLE) Hp1). leave. unfold s1. kproj. by rewrite list_insert_insert_eq.
  - unfold bind at 1. cbn [ret]. unfold s1. leave. by kproj.
Qed.

Lemma kkill_loop_ok n i s pid :
  cpu_ok s -> (forall j, lock_free s (LK_proc j)) -> length (k_procs s) = (i + n)%nat ->
  kkill_loop n i pid s =
    match list_find (fun p => p_pid p = pid) (drop i (k_procs s)) with
    | Some (j, p) => Ret 0 (set_k_procs (<[(i + j)%nat := kill1 p]> (k_procs s)) s)
    | None => Ret (-1) s
    end.
Proof.
  revert i. induction n as [|n IH]; intros i Hc Hf Hlen; cbn [kkill_loop].
  { rewrite drop_ge by lia. done. }
  destruct (lookup_lt_is_Some_2 (k_procs s) i) as [p Hp]; [lia|]. rewrite (drop_S _ p i Hp).
  run (acquire_free (LK_proc i) s Hc (Hf i)).
  assert (Hp' : k_procs (enter (LK_proc i) s) !! i = Some p) by (by kproj).
  run (get_proc_ok _ i p Hp'). cbn [list_find]. destruct (Z.eqb_spec (p_pid p) pid) as [E|E].
  - rewrite decide_True by done. rewrite Nat.add_0_r. apply kill_body; auto.
  - rewrite decide_False by done.
    assert (Hl : lock_free s (LK_proc i)) by auto. leave. kproj. rewrite IH by (auto; lia).
    destruct (list_find _ (drop (S i) (k_procs s))) as [[j q]|]; [|done]. cbn. do 3 f_equal. lia.
Qed.

(** [kkill] marks the first process with the given pid as killed, makes it
    runnable if it was sleeping, and returns 0; when there is no such process it
    returns -1. Nothing else changes. *)
Theorem kkill_marks s pid :
  cpu_ok s -> (forall j, lock_free s (LK_proc j)) -> length (k_procs s) = NPROC ->
  kkill pid s =
    match list_find (fun p => p_pid p = pid) (k_procs s) with
    | Some (j, p) => Ret 0 (set_k_procs (<[j := kill1 p]> (k_procs s)) s)
    | None => Ret (-1) s
    end.
Proof. intros Hc Hf Hlen. unfold kkill. by rewrite kkill_loop_ok. Qed.

Lemma kkill_marks_witness :
  let p := set_p_chan (Some CH_ticks) (set_p_state SLEEPING (set_p_pid 7 zero_proc)) in
  let s := set_k_procs (<[5%nat := p]> (k_procs boot)) boot in
  kkill 7 s = Ret 0 (set_k_procs (<[5%nat := kill1 p]> (k_procs s)) s).
Proof.
  intros p s. rewrite (kkill_marks s 7).
  - reflexivity.
  - exact boot_cpu_ok.
  - intros j. reflexivity.
  - reflexivity.
Defined.

(** * Growing and shrinking *)

Section Grow.
Context {L : KernelLayout}.

(** The memory of process [i], as its [struct proc] describes it: the page table
    it points to maps exactly the pages below [sz] under the trap frame. *)
Record user_space (s : kstate) (i : nat) (t : ptree) (l : list Z) (p : proc) : Prop := {
  us_proc : k_procs s !! i = Some p;
  us_root : p_pagetable p = pt_root t;
  us_inv : as_inv s t l;
  us_sz : 0 <= p_sz p < TRAPFRAME;
  us_mapped : forall va, 0 <= va < TRAPFRAME ->
                has PTE_V (pt_leaf (k_mem s) t va) = (va / PGSIZE <? npages (p_sz p))
}.

Lemma as_inv_ext s s' t l :
  k_mem s' = k_mem s -> k_freelist s' = k_freelist s -> as_inv s t l -> as_inv s' t l.
Proof.
  intros Em Ef [[[K1 K2 K3 K4] W U] P I Hi]. constructor; rewrite ?Em; try done.
  constructor; rewrite ?Em; try done. constructor; rewrite ?Em, ?Ef; done.
Qed.

(** A page kept by a change of size: same entry, same bytes. *)
Definition kept (s s' : kstate) (t t' : ptree) (va : Z) : Prop :=
  pt_leaf (k_mem s') t' va = pt_leaf (k_mem s) t va /\
  forall x, upage (k_mem s) t va <= x < upage (k_mem s) t va + PGSIZE ->
    mget (k_mem s') x = mget (k_mem s) x.

Lemma as_chg_kept s t l s' t' l' D F va :
  as_chg s t l s' t' l' D F -> uvalid (k_mem s) t va -> ~ D va -> kept s s' t t' va.
Proof.
  intros C Hv Hn. pose proof TRAPFRAME_MAXVA. split; [destruct Hv; apply (ac_same _ _ _ _ _ _ _ _ C); [lia|done]|].
  intros x. by apply (ac_keep _ _ _ _ _ _ _ _ C).
Qed.

Lemma as_chg_space s i t l p s' t' l' D F sz :
  user_space s i t l p -> as_chg s t l s' t' l' D F -> 0 <= sz < TRAPFRAME ->
  (forall va, 0 <= va < TRAPFRAME ->
     has PTE_V (pt_leaf (k_mem s') t' va) = (va / PGSIZE <? npages sz)) ->
  user_space (set_k_procs (<[i := set_p_sz sz p]> (k_procs s')) s') i t' l' (set_p_sz sz p).
Proof.
  intros [Hp Hr _ _ _] C Hsz Hm.
  assert (Hp' : k_procs s' = k_procs s) by (rewrite (ac_state _ _ _ _ _ _ _ _ C); done).
  constructor; cbn; try done.
  - rewrite Hp'. apply list_lookup_insert_eq. by eapply lookup_lt_Some.
  - rewrite (ac_root _ _ _ _ _ _ _ _ C). exact Hr.
  - apply (as_inv_ext s'); [done|done|apply C].
Qed.

Lemma put_sz s i t l p s' t' l' D F sz :
  user_space s i t l p -> as_chg s t l s' t' l' D F ->
  (upd_proc i (set_p_sz sz) ;; ret 0) s' =
    Ret 0 (set_k_procs (<[i := set_p_sz sz p]> (k_procs s')) s').
Proof.
  intros [Hp _ _ _ _] C.
  assert (Hp' : k_procs s' !! i = Some p) by (by rewrite (ac_state _ _ _ _ _ _ _ _ C)).
  by run (upd_proc_ok s' i p (set_p_sz sz) Hp').
Qed.

(** The process ends with [sz'] bytes: every page below both sizes is kept, every
    page between is a page of zeros. *)
Definition resized (s : kstate) (t : ptree) (sz : Z) (s' : kstate) (t' : ptree) (sz' : Z) : Prop :=
  (forall va, uvalid (k_mem s) t va -> va / PGSIZE < npages sz' -> kept s s' t t' va) /\
  (forall va, 0 <= va < TRAPFRAME -> npages sz <= va / PGSIZE < npages sz' ->
     zero_mapped (k_mem s') t' (Z.lor (Z.lor PTE_R PTE_U) PTE_W) va).

Lemma grow_ok s i t l p newsz :
  quiet s -> user_space s i t l p -> p_sz p <= newsz < TRAPFRAME ->
  exists r s' t' l' D F, uvmalloc (pt_root t) (p_sz p) newsz PTE_W s = Ret r s' /\
    as_chg s t l s' t' l' D F /\
    ((r = newsz /\ (forall va, 0 <= va < TRAPFRAME ->
        has PTE_V (pt_leaf (k_mem s') t' va) = (va / PGSIZE <? npages newsz)) /\
      resized s t (p_sz p) s' t' newsz) \/
     (r = 0 /\ Z.of_nat (length l) < 3 * (npages newsz - npages (p_sz p)) /\
      (forall va, 0 <= va < TRAPFRAME ->
        has PTE_V (pt_leaf (k_mem s') t' va) = (va / PGSIZE <? npages (p_sz p))) /\
      resized s t (p_sz p) s' t' (p_sz p))).
Proof.
  intros Hq [Hp Hr Hi Hsz Hm] Hn. pose proof TRAPFRAME_MAXVA.
  pose proof (npages_mono (p_sz p) newsz ltac:(lia)) as Hmono.
  assert (Hlow : forall va, uvalid (k_mem s) t va -> va / PGSIZE < npages (p_sz p)).
  { intros va [Hva Hv]. rewrite Hm in Hv by done. by apply Z.ltb_lt. }
  destruct (uvmalloc_ok s t l (p_sz p) newsz PTE_W) as (r & s' & t' & l' & E & G); try done; try lia.
  { intros va Hva Hin. pose proof (npages_limit newsz ltac:(lia)).
    pose proof (Z.div_mod va PGSIZE ltac:(lia)). pose proof (Z.mod_pos_bound va PGSIZE ltac:(lia)).
    rewrite Hm by lia. apply Z.ltb_ge. lia. }
  destruct G as [[-> [C Hz _]]|(-> & Hlen & C & Hv)]; do 6 eexists; (split; [exact E|]); (split; [exact C|]).
  - left. split; [done|]. split; [|split].
    + intros va Hva. destruct (in_pages_dec (npages (p_sz p)) (npages newsz - npages (p_sz p)) va) as [Hin|Hin].
      * rewrite (zero_mapped_valid _ _ (Z.lor (Z.lor PTE_R PTE_U) PTE_W) va ltac:(split; [discriminate|reflexivity]) (Hz va Hva Hin)).
        symmetry. apply Z.ltb_lt. unfold in_pages in Hin. lia.
      * rewrite (ac_same _ _ _ _ _ _ _ _ C), Hm by (done || lia).
        unfold in_pages in Hin. destruct (Z.ltb_spec (va / PGSIZE) (npages newsz)); [apply Z.ltb_lt|apply Z.ltb_ge]; lia.
    + intros va Hv _. apply (as_chg_kept _ _ _ _ _ _ _ _ _ C Hv). unfold in_pages. apply Hlow in Hv. lia.
    + intros va Hva Hin. apply Hz; [done|]. unfold in_pages. lia.
  - right. split; [done|]. split; [exact Hlen|]. split; [|split].
    + intros va Hva. rewrite Hv by lia. by apply Hm.
    + intros va Hva _. apply (as_chg_kept _ _ _ _ _ _ _ _ _ C Hva). unfold in_pages. apply Hlow in Hva. lia.
    + intros va _ Hin. lia.
Qed.

Lemma shrink_ok s i t l p newsz :
  quiet s -> user_space s i t l p -> 0 <= newsz <= p_sz p ->
  exists s' l' D F, uvmdealloc (pt_root t) (p_sz p) newsz s = Ret newsz s' /\
    as_chg s t l s' t l' D F /\
    (forall va, 0 <= va < TRAPFRAME ->
       has PTE_V (pt_leaf (k_mem s') t va) = (va / PGSIZE <? npages newsz)) /\
    resized s t (p_sz p) s' t newsz.
Proof.
  intros Hq [Hp Hr Hi Hsz Hm] Hn. pose proof TRAPFRAME_MAXVA.
  pose proof (npages_mono newsz (p_sz p) ltac:(lia)) as Hmono.
  destruct (uvmdealloc_ok s t l (p_sz p) newsz) as (s' & l' & E & C); try done; try lia.
  rewrite Z.min_r in E by lia. do 4 eexists. split; [exact E|]. split; [exact C|]. split; [|split].
  - intros va Hva. rewrite (ac_leaf _ _ _ _ _ _ _ _ C) by lia. specialize (Hm va Hva). unfold unmap_range.
    destruct (Z.leb_spec (npages newsz) (va / PGSIZE)), (Z.ltb_spec (va / PGSIZE) (npages newsz)); try lia; cbn [andb].
    + destruct (Z.ltb_spec (va / PGSIZE) (npages (p_sz p)));
        destruct (Z.ltb_spec (va / PGSIZE) (npages newsz + (npages (p_sz p) - npages newsz))); try lia; cbn [andb].
      * by rewrite Hm.
      * by rewrite Hm.
    + rewrite Hm. apply Z.ltb_lt. lia.
  - intros va Hv Hlt. apply (as_chg_kept _ _ _ _ _ _ _ _ _ C Hv). unfold in_pages. lia.
  - intros va _ Hin. lia.
Qed.

(** Everything but the memory of the process, its table and the allocator. *)
Record same_rest (s : kstate) (t : ptree) (l : list Z) (s' : kstate) : Prop := {
  sr_mem : forall x, (forall p, owned (k_mem s) t l p -> x < p \/ p + PGSIZE <= x) ->
             mget (k_mem s') x = mget (k_mem s) x;
  sr_locks : k_locks s' = k_locks s;
  sr_cpus : k_cpus s' = k_cpus s;
  sr_hart : k_hart s' = k_hart s
}.

(** The pages of the process, its table and the allocator, as a whole. *)
Definition same_pages (s : kstate) (t : ptree) (l : list Z) (s' : kstate) (t' : ptree) (l' : list Z) : Prop :=
  forall p, owned (k_mem s') t' l' p <-> owned (k_mem s) t l p.

Lemma as_chg_rest s t l s' t' l' D F : as_chg s t l s' t' l' D F -> same_rest s t l s'.
Proof. intros C. constructor; [apply C|..]; by rewrite (ac_state _ _ _ _ _ _ _ _ C). Qed.
Lemma rest_procs s t l s' ps : same_rest s t l s' -> same_rest s t l (set_k_procs ps s').
Proof. intros [H1 H2 H3 H4]. by constructor. Qed.

Lemma growproc_ok s i t l p n :
  quiet s -> cur s = Some i -> user_space s i t l p -> - 2 ^ 31 < n < 2 ^ 31 ->
  exists r s' t' l' sz, growproc n s = Ret r s' /\
    user_space s' i t' l' (set_p_sz sz p) /\ resized s t (p_sz p) s' t' sz /\
    (same_rest s t l s' /\ same_pages s t l s' t' l') /\
    ((r = 0 /\ sz = p_sz p + n) \/ (r = -1 /\ sz = p_sz p)) /\
    (p_sz p + n < 0 \/ TRAPFRAME <= p_sz p + n -> r = -1) /\
    (0 <= p_sz p + n < TRAPFRAME -> 3 * (npages (p_sz p + n) - npages (p_sz p)) <= Z.of_nat (length l) -> r = 0).
Proof.
  intros Hq Hcur Hu Hn. pose proof Hu as [Hp Hr Hi Hsz Hm]. pose proof TRAPFRAME_MAXVA.
  assert (Hsame : set_p_sz (p_sz p) p = p) by (by destruct p).
  assert (Hrefl : resized s t (p_sz p) s t (p_sz p) /\ same_rest s t l s /\ same_pages s t l s t l) by (split; [split; [by split|intros; lia]|by split]).
  pose proof (as_chg_refl s t l (fun _ => False) Hi) as C0.
  unfold growproc. setoid_rewrite (bind_Ret _ _ _ _ _ (me_ok s i (proj1 Hq) Hcur)).
  setoid_rewrite (bind_Ret _ _ _ _ _ (get_proc_ok s i p Hp)). rewrite Hr.
  assert (HF : TRAPFRAME < 2 ^ 40) by reflexivity.
  destruct (Z.ltb_spec 0 n) as [Hpos|Hneg].
  - rewrite wrap_small by lia. rewrite (proj2 (Z.ltb_ge _ _)) by lia. cbn [orb].
    destruct (Z.leb_spec TRAPFRAME (p_sz p + n)).
    { exists (-1), s, t, l, (p_sz p). rewrite Hsame. split_and!; try apply Hrefl; auto; lia. }
    destruct (grow_ok s i t l p (p_sz p + n)) as (r & s' & t' & l' & D & F & E & C & [(-> & Hv & Hz)|(-> & Hlen & Hv & Hz)]);
      [done|done|lia|..]; setoid_rewrite (bind_Ret _ _ _ _ _ E).
    + rewrite (proj2 (Z.eqb_neq _ _)) by lia. setoid_rewrite (put_sz s i t l p s' t' l' D F _ Hu C).
      do 5 eexists. split; [reflexivity|]. split; [eapply as_chg_space; [exact Hu|exact C|lia|exact Hv]|].
      split; [exact Hz|]. split; [split; [eapply rest_procs, as_chg_rest, C|exact (ac_owned _ _ _ _ _ _ _ _ C)]|]. lia.
    + exists (-1), s', t', l', (p_sz p). split; [done|]. split; [|split; [exact Hz|split; [split; [eapply as_chg_rest, C|exact (ac_owned _ _ _ _ _ _ _ _ C)]|lia]]].
      rewrite Hsame. constructor; try done; rewrite ?(ac_root _ _ _ _ _ _ _ _ C); try done; [|apply C].
      by rewrite (ac_state _ _ _ _ _ _ _ _ C).
  - destruct (Z.ltb_spec n 0) as [Hlt|Hge].
    + rewrite (proj2 (Z.eqb_neq _ _)) by lia. destruct (Z.ltb_spec (p_sz p) (- n)).
      { exists (-1), s, t, l, (p_sz p). rewrite Hsame. split_and!; try apply Hrefl; auto; lia. }
      rewrite wrap_small by lia.
      destruct (shrink_ok s i t l p (p_sz p + n)) as (s' & l' & D & F & E & C & Hv & Hz); [done|done|lia|].
      setoid_rewrite (bind_Ret _ _ _ _ _ E). setoid_rewrite (put_sz s i t l p s' t l' D F _ Hu C).
      do 5 eexists. split; [reflexivity|]. split; [eapply as_chg_space; [exact Hu|exact C|lia|exact Hv]|].
      split; [exact Hz|]. split; [split; [eapply rest_procs, as_chg_rest, C|exact (ac_owned _ _ _ _ _ _ _ _ C)]|]. lia.
    + setoid_rewrite (put_sz s i t l p s t l _ _ _ Hu C0).
      do 5 eexists. split; [reflexivity|]. split; [eapply as_chg_space; [exact Hu|exact C0|lia|exact Hm]|].
      split; [apply Hrefl|]. split; [split; [apply rest_procs, Hrefl|done]|]. lia.
Qed.

(** C8: [growproc] keeps the memory of a process as its size says: on success the
    size has changed by [n], the pages below both sizes keep their entries and
    bytes, the pages added are zeroed, writable user pages, and exactly the pages
    below the new size are mapped; on failure the process is as before. It fails
    for a size below 0 or reaching the trap frame; otherwise it succeeds when the
    allocator has three free pages for each page to add, so never fails to shrink. *)
Theorem growproc_resizes s i t l p n :
  quiet s -> cur s = Some i -> user_space s i t l p -> - 2 ^ 31 < n < 2 ^ 31 ->
  exists r s' t' l' sz, growproc n s = Ret r s' /\
    user_space s' i t' l' (set_p_sz sz p) /\ resized s t (p_sz p) s' t' sz /\
    ((r = 0 /\ sz = p_sz p + n) \/ (r = -1 /\ sz = p_sz p)) /\
    (p_sz p + n < 0 \/ TRAPFRAME <= p_sz p + n -> r = -1) /\
    (0 <= p_sz p + n < TRAPFRAME -> 3 * (npages (p_sz p + n) - npages (p_sz p)) <= Z.of_nat (length l) -> r = 0).
Proof.
  intros Hq Hcur Hu Hn. destruct (growproc_ok s i t l p n Hq Hcur Hu Hn) as (r & s' & t' & l' & sz & E & H1 & H2 & _ & H3).
  by exists r, s', t', l', sz.
Qed.
End Grow.

(** The sample address space as the memory of process 0, which runs. *)
Definition sample_proc : proc :=
  set_p_pid 7 (set_p_trapframe (KERNBASE + 0x54000) (set_p_sz 4096 (set_p_pagetable Sample.R zero_proc))).
Definition sample_grow : kstate :=
  set_k_cpus (<[0%nat := mk_cpu (Some 0%nat) 0 false false]> (k_cpus Sample.st))
    (set_k_procs (<[0%nat := sample_proc]> (k_procs Sample.st)) Sample.st).

#[local] Existing Instance sample_layout.

Lemma sample_mem : k_mem sample_grow = k_mem Sample.st /\ k_freelist sample_grow = k_freelist Sample.st.
Proof. unfold sample_grow. generalize Sample.st. by intros []. Qed.

Lemma sample_space :
  user_space sample_grow 0 Sample.tree Sample.free sample_proc.
Proof.
  constructor.
  - reflexivity.
  - reflexivity.
  - apply (as_inv_ext Sample.st); [apply sample_mem|apply sample_mem|exact Sample.inv].
  - split; [discriminate|reflexivity].
  - intros va Hva. pose proof TRAPFRAME_MAXVA. rewrite (proj1 sample_mem).
    rewrite Sample.leaf by lia. change (npages (p_sz sample_proc)) with 1.
    pose proof (Z.div_pos va PGSIZE ltac:(lia) ltac:(lia)).
    destruct (Z.eqb_spec (va / PGSIZE) 0), (Z.ltb_spec (va / PGSIZE) 1); try lia; reflexivity.
Qed.

Lemma growproc_resizes_witness : exists s', growproc (-4096) sample_grow = Ret 0 s'.
Proof.
  destruct (growproc_resizes sample_grow 0 Sample.tree Sample.free
    sample_proc (-4096))
    as (r & s' & t' & l' & sz & E & _ & _ & _ & _ & Hr).
  - split; [|reflexivity]. eexists. split; [reflexivity|]. by split_and!.
  - reflexivity.
  - exact sample_space.
  - lia.
  - exists s'. rewrite E. rewrite Hr; [reflexivity|split; [discriminate|reflexivity]|discriminate].
Defined.
