(* ===== verification/ProcMem.v ===== *)
(** The memory of a process (proc.c): making its page table and trap frame, and
    giving them back.

    Each operation is shown to move pages between the allocator's list and the
    process ([moved]), so that none is lost on any path, also when memory runs
    out half way. *)

From S2P Require Import Prelude Types Memory Spinlock Kalloc Vm PageTable UserMem UserCopy UvmFree UvmCopy Sched Sleeplock Bio Uart Block Log Crash Fs InitCode Proc SleepWake ProcSpec.
Local Open Scope Z_scope.
Local Open Scope c_scope.

(** Only memory and the free list differ. *)
Definition mem_only (s s' : kstate) : Prop := s' = set_k_freelist (k_freelist s') (set_k_mem (k_mem s') s).

Lemma mem_only_refl s : mem_only s s.
Proof. by destruct s. Qed.
Lemma mem_only_trans s1 s2 s3 : mem_only s1 s2 -> mem_only s2 s3 -> mem_only s1 s3.
Proof. unfold mem_only. intros E1 E2. rewrite E2. cbn. by rewrite E1. Qed.
Lemma mem_only_quiet s s' : mem_only s s' -> quiet s -> quiet s'.
Proof. intros ->. by apply quiet_set. Qed.
Lemma mem_only_procs s s' : mem_only s s' -> k_procs s' = k_procs s.
Proof. by intros ->. Qed.

Lemma mem_only_set_procs s s' v : mem_only s s' -> mem_only (set_k_procs v s) (set_k_procs v s').
Proof. unfold mem_only. intros E. rewrite E at 1. done. Qed.

Section ProcMem.
Context {L : KernelLayout} {X : Text}.
#[local] Opaque walk mappages_loop kalloc kfree uvmunmap uvmfree.

(** * An empty page table *)

Definition root_only (p : Z) : ptree := mk_ptree p ∅ ∅.

Lemma root_only_table p q : is_table (root_only p) q <-> q = p.
Proof.
  split; [|intros ->; by exists TRoot]. intros [n Hn]. destruct n as [|i|i j]; cbn in Hn; rewrite ?lookup_empty in Hn; by simplify_eq.
Qed.

Lemma root_only_leaf m p va : pt_leaf m (root_only p) va = 0.
Proof. unfold pt_leaf, pt_slot. cbn. by rewrite lookup_empty. Qed.

Lemma root_only_wf m p :
  page_ok p -> (forall i, 0 <= i < 512 -> load64 m (p + 8 * i) = 0) -> pt_wf m (root_only p).
Proof.
  intros Hp H0. constructor.
  - intros n1 n2 q H1 H2. destruct n1, n2; cbn in *; rewrite ?lookup_empty in *; done.
  - intros n q H. by rewrite (proj1 (root_only_table p q)) by (by exists n).
  - intros i Hi. cbn. rewrite lookup_empty. by apply H0.
  - intros i j q H. cbn in H. by rewrite lookup_empty in H.
  - intros i q H. cbn in H. by rewrite lookup_empty in H.
  - intros i j q H. cbn in H. by rewrite lookup_empty in H.
Qed.

(** A page table of the process, made from pages of [l]. *)
Record made (s : kstate) (l : list Z) (s' : kstate) (t : ptree) (l' : list Z) : Prop := {
  md_state : mem_only s s';
  md_inv : as_inv s' t l';
  md_moved : moved (k_mem s) (.∈ l) (k_mem s') (owned (k_mem s') t l')
}.

Lemma made_chg s l s1 t1 l1 s2 t2 l2 D F : made s l s1 t1 l1 -> as_chg s1 t1 l1 s2 t2 l2 D F -> made s l s2 t2 l2.
Proof.
  intros [H1 H2 H3] C. constructor; [eapply mem_only_trans; [done|apply C]|apply C|].
  eapply moved_trans; [done|by eapply as_chg_moved].
Qed.

Lemma uvmcreate_spec s l :
  quiet s -> kmem_inv s l ->
  (l = [] /\ uvmcreate s = Ret 0 s) \/
  (exists p l' s', l = p :: l' /\ page_ok p /\ uvmcreate s = Ret p s' /\ made s l s' (root_only p) l').
Proof.
  intros [Hc Hlk] Hk. destruct l as [|p l]; [left|right].
  { split; [done|]. unfold uvmcreate. by run (kalloc_none s Hc Hlk Hk). }
  destruct (kalloc_some p s l Hc Hlk Hk) as (m & E & Hs & Hm & Hp & Hn & Hk').
  set (m' := memset m p 0 PGSIZE). set (s' := set_k_freelist (load64 (k_mem s) p) (set_k_mem m' s)).
  assert (Hs' : same_but_page p (k_mem s) m').
  { intros x Hx. unfold m'. rewrite mget_memset_out by lia. by apply Hs. }
  assert (Hown : forall q, owned m' (root_only p) l q <-> q = p \/ q ∈ l).
  { intros q. unfold owned. rewrite root_only_table. split; [|tauto]. intros [?|[?|(va & [_ Hv] & _)]]; [tauto..|].
    rewrite root_only_leaf in Hv. done. }
  exists p, l, s'. split_and!; [done|done| |].
  - unfold uvmcreate. run E. by rewrite (proj2 (Z.eqb_neq _ _) (page_ok_nonzero _ Hp)).
  - constructor; [done| |].
    + constructor; [constructor| | |]; cbn [k_mem s' set_k_freelist set_k_mem].
      * destruct Hk' as [K1 K2 K3 K4]. constructor; [|done|done|by apply memset_ok]. cbn in *.
        apply (flist_same_but p m); [|done..]. intros x Hx. unfold m'. by rewrite mget_memset_out by lia.
      * apply root_only_wf; [done|]. intros i Hi. apply load_memset_zero; lia.
      * by intros q ->%root_only_table.
      * intros va [_ Hv]. by rewrite root_only_leaf in Hv.
      * intros va va' [_ Hv]. by rewrite root_only_leaf in Hv.
      * intros va _. by rewrite root_only_leaf.
    + constructor; cbn [k_mem s' set_k_freelist set_k_mem].
      * intros q. rewrite Hown, elem_of_cons. done.
      * intros x Hx. apply Hs', Hx. by left.
Qed.

(** * The entries above user memory *)

Definition perm_kernel (perm : Z) : Prop := 0 <= perm < 1024 /\ has PTE_U (Z.lor perm PTE_V) = false.

(** Mapping one page above user memory. *)
Lemma mappages_high s t l va pa perm :
  quiet s -> as_inv s t l -> va mod PGSIZE = 0 -> TRAPFRAME <= va -> va + PGSIZE <= MAXVA ->
  0 <= pa -> pa + PGSIZE <= 2 ^ 56 -> perm_kernel perm ->
  has PTE_V (pt_leaf (k_mem s) t va) = false ->
  exists r s' t' l' k, mappages (pt_root t) va PGSIZE pa perm s = Ret r s' /\
    as_chg s t l s' t' l' (in_pages (va / PGSIZE) 1) (map_range (pt_leaf (k_mem s) t) va pa perm k) /\
    ((r = 0 /\ k = 1 /\ (length l <= length l' + 2)%nat) \/ (r = -1 /\ k = 0 /\ (length l < 2)%nat)).
Proof.
  intros Hq Hi Hal Hva Hvb Hpa Hpb [Hperm Hnu] Hfree. assert (HT0 : 0 < TRAPFRAME) by done.
  assert (HMX : MAXVA < 2 ^ 64) by done. assert (HP : PGSIZE = 4096) by done.
  rewrite mappages_1 by lia.
  destruct (mappages_loop_spec 0 s t l va pa perm Hq (as_pt _ _ _ Hi)) as (r & s' & t' & l' & k & E & C & Hr);
    [lia|lia|lia|lia|done| |].
  { intros va' Hva' Hd. rewrite (pt_leaf_page _ _ va' va) by lia. done. }
  exists r, s', t', l', k. split; [done|].
  split; [|lia]. assert (Hk1 : k <= 1) by lia.
  assert (Hdiv : TRAPFRAME / PGSIZE <= va / PGSIZE) by (apply Z.div_le_mono; lia).
  assert (Hout : forall x, ~ in_pages (va / PGSIZE) 1 x -> map_range (pt_leaf (k_mem s) t) va pa perm k x = pt_leaf (k_mem s) t x).
  { intros x Hx. unfold map_range. unfold in_pages in Hx.
    destruct (Z.leb_spec 0 (x / PGSIZE - va / PGSIZE)); [|done]. by rewrite (proj2 (Z.ltb_ge _ _)) by lia. }
  apply as_chg_high; [done|done| |by intros; apply Hout|].
  - intros x Hx. apply Hout. pose proof (div_lt_aligned x TRAPFRAME ltac:(done) ltac:(lia)). unfold in_pages. lia.
  - intros x Hx. destruct (in_pages_dec (va / PGSIZE) 1 x) as [Hin|Hin]; [|rewrite Hout by done; by apply Hi].
    unfold map_range. destruct (_ && _) eqn:Eb; [|by apply Hi]. unfold in_pages in Hin. b2p.
    replace (x / PGSIZE - va / PGSIZE) with 0 by lia. rewrite Z.mul_0_l, Z.add_0_r, entry_eq, has_pte by (done || lia || by apply lor_small; lia). done.
Qed.

(** Pages came and went, and all of them are free again. *)
Record back (s : kstate) (O : Z -> Prop) (s' : kstate) (l' : list Z) : Prop := {
  bk_state : mem_only s s';
  bk_kmem : kmem_inv s' l';
  bk_moved : moved (k_mem s) O (k_mem s') (.∈ l')
}.

Lemma made_back s l s1 t1 l1 s2 l2 : made s l s1 t1 l1 -> back s1 (owned (k_mem s1) t1 l1) s2 l2 -> back s (.∈ l) s2 l2.
Proof. intros [A1 A2 A3] [B1 B2 B3]. constructor; [by eapply mem_only_trans|done|by eapply moved_trans]. Qed.

Lemma chg_back s1 t1 l1 s2 t2 l2 D F s3 l3 :
  as_chg s1 t1 l1 s2 t2 l2 D F -> back s2 (owned (k_mem s2) t2 l2) s3 l3 -> back s1 (owned (k_mem s1) t1 l1) s3 l3.
Proof.
  intros C [B1 B2 B3]. constructor; [eapply mem_only_trans; [apply C|done]|done|].
  eapply moved_trans; [by eapply as_chg_moved|done].
Qed.

Lemma uvmfree_back s t l sz :
  quiet s -> as_inv s t l -> 0 <= sz <= TRAPFRAME ->
  (forall va, 0 <= va < MAXVA -> npages sz <= va / PGSIZE -> has PTE_V (pt_leaf (k_mem s) t va) = false) ->
  exists s' l', uvmfree (pt_root t) sz s = Ret tt s' /\ back s (owned (k_mem s) t l) s' l'.
Proof.
  intros Hq Hi Hsz Hno. destruct (uvmfree_spec s t l sz Hq Hi Hsz Hno) as (s' & l' & E & Es & Hk & Hm).
  exists s', l'. split; [done|]. by constructor.
Qed.

(** The two pages above user memory. *)
Lemma high_pages va : TRAPFRAME <= va < MAXVA -> va / PGSIZE = TRAPFRAME / PGSIZE \/ va / PGSIZE = TRAMPOLINE / PGSIZE.
Proof.
  intros H. assert (E1 : TRAMPOLINE / PGSIZE = TRAPFRAME / PGSIZE + 1) by done.
  assert (E2 : MAXVA / PGSIZE = TRAPFRAME / PGSIZE + 2) by done.
  pose proof (Z.div_le_mono TRAPFRAME va PGSIZE ltac:(lia) ltac:(lia)).
  pose proof (div_lt_aligned va MAXVA ltac:(done) ltac:(lia)). lia.
Qed.

Lemma perm_RX : perm_kernel (Z.lor PTE_R PTE_X).
Proof. by split. Qed.
Lemma perm_RW : perm_kernel (Z.lor PTE_R PTE_W).
Proof. by split. Qed.

Lemma trampoline_range : 0 <= l_trampoline /\ l_trampoline + PGSIZE <= 2 ^ 56.
Proof. pose proof l_text_order. pose proof l_end_order. unfold KERNBASE, PHYSTOP, KERNBASE, PGSIZE in *. lia. Qed.

(** The page table of a new process: no user memory, the trampoline and the trap
    frame [tf]. *)
Record new_space (m : gmap Z Z) (t : ptree) (tf : Z) : Prop := {
  ns_empty : forall va, 0 <= va < TRAPFRAME -> pt_leaf m t va = 0;
  ns_tramp : pt_leaf m t TRAMPOLINE = entry l_trampoline (Z.lor PTE_R PTE_X);
  ns_tf : pt_leaf m t TRAPFRAME = entry tf (Z.lor PTE_R PTE_W)
}.

(** The second half of [proc_pagetable]: the trap frame. *)
Definition map_trapframe (pagetable tf : Z) : K Z :=
  r <- mappages pagetable TRAPFRAME PGSIZE tf (Z.lor PTE_R PTE_W) ;;
  if negb (r =? 0) then uvmunmap pagetable TRAMPOLINE 1 false ;; uvmfree pagetable 0 ;; ret 0 else
  ret pagetable.

Lemma map_trapframe_spec s l s2 t2 l2 tf :
  quiet s -> made s l s2 t2 l2 -> page_ok tf -> (forall va, 0 <= va < TRAMPOLINE -> pt_leaf (k_mem s2) t2 va = 0) ->
  pt_leaf (k_mem s2) t2 TRAMPOLINE = entry l_trampoline (Z.lor PTE_R PTE_X) ->
  exists r s', map_trapframe (pt_root t2) tf s2 = Ret r s' /\
    ((r = 0 /\ (length l2 < 2)%nat /\ exists l', back s (.∈ l) s' l') \/
     (exists t l', r = pt_root t /\ r = pt_root t2 /\ made s l s' t l' /\ (length l2 <= length l' + 2)%nat /\
       new_space (k_mem s') t tf)).
Proof.
  intros Hq M2 Htf Hne Htr. assert (HTT : TRAPFRAME < TRAMPOLINE < MAXVA) by done. assert (HT0 : 0 < TRAPFRAME) by done.
  pose proof (mem_only_quiet _ _ (md_state _ _ _ _ _ M2) Hq) as Hq2. apply page_ok_pos in Htf as Htfp. unfold PHYSTOP, KERNBASE in Htfp.
  destruct (mappages_high s2 t2 l2 TRAPFRAME tf (Z.lor PTE_R PTE_W) Hq2 (md_inv _ _ _ _ _ M2))
    as (r3 & s3 & t3 & l3 & k3 & E3 & C3 & Hr3); [done|done|done|lia|lia|apply perm_RW|by rewrite Hne by lia|].
  pose proof (ac_root _ _ _ _ _ _ _ _ C3) as Hroot3. pose proof (ac_leaf _ _ _ _ _ _ _ _ C3) as Hl3.
  pose proof (made_chg _ _ _ _ _ _ _ _ _ _ M2 C3) as M3. pose proof (mem_only_quiet _ _ (md_state _ _ _ _ _ M3) Hq) as Hq3.
  unfold map_trapframe. setoid_rewrite (bind_Ret _ _ _ _ _ E3). destruct Hr3 as [(-> & -> & Hlen)|(-> & -> & Hlen)]; cbn [Z.eqb negb].
  - exists (pt_root t2), s3. split; [done|]. right. exists t3, l3. split_and!; [done|done|done|done|]. constructor.
    + intros va Hva. rewrite Hl3 by lia. unfold map_range. pose proof (div_lt_aligned va TRAPFRAME ltac:(done) ltac:(lia)).
      rewrite (proj2 (Z.leb_gt _ _)) by lia. apply Hne. lia.
    + rewrite Hl3 by lia. unfold map_range. by rewrite (proj2 (Z.ltb_ge _ 1)), andb_false_r by done.
    + rewrite Hl3 by lia. unfold map_range. rewrite Z.sub_diag. cbn [Z.leb Z.ltb Z.compare andb]. by rewrite Z.mul_0_l, Z.add_0_r.
  - destruct (uvmunmap_high s3 t3 l3 TRAMPOLINE (md_inv _ _ _ _ _ M3)) as (s4 & E4 & C4); [done|lia|].
    pose proof (made_chg _ _ _ _ _ _ _ _ _ _ M3 C4) as M4. pose proof (mem_only_quiet _ _ (md_state _ _ _ _ _ M4) Hq) as Hq4.
    destruct (uvmfree_back s4 t3 l3 0 Hq4 (md_inv _ _ _ _ _ M4)) as (s5 & l5 & E5 & B5); [lia| |].
    { intros va Hva _. rewrite (ac_leaf _ _ _ _ _ _ _ _ C4) by done. unfold unmap_range.
      assert (E0 : pt_leaf (k_mem s3) t3 va = pt_leaf (k_mem s2) t2 va) by (rewrite Hl3 by done; apply map_range_0). rewrite E0.
      destruct (decide (va < TRAMPOLINE)); [rewrite Hne by lia; by rewrite andb_false_r|].
      assert (Ev : va / PGSIZE = TRAMPOLINE / PGSIZE).
      { destruct (high_pages va) as [E|E]; [lia| |done]. pose proof (Z.div_le_mono TRAMPOLINE va PGSIZE ltac:(done) ltac:(lia)).
        assert (TRAMPOLINE / PGSIZE = TRAPFRAME / PGSIZE + 1) by done. lia. }
      rewrite Ev, Z.leb_refl, (proj2 (Z.ltb_lt _ _)) by lia. cbn [andb].
      destruct (has PTE_V (pt_leaf (k_mem s2) t2 va)) eqn:E; [apply has_0|done]. }
    rewrite Hroot3 in E4, E5. exists 0, s5. run E4. run E5. split; [done|]. left. split_and!; [done|done|]. exists l5. by eapply made_back.
Qed.

Lemma proc_pagetable_spec s l i pr :
  quiet s -> kmem_inv s l -> k_procs s !! i = Some pr -> page_ok (p_trapframe pr) ->
  exists r s', proc_pagetable i s = Ret r s' /\
    ((r = 0 /\ (length l < 5)%nat /\ exists l', back s (.∈ l) s' l') \/
     (exists t l', r = pt_root t /\ r <> 0 /\ made s l s' t l' /\ (length l <= length l' + 5)%nat /\
       new_space (k_mem s') t (p_trapframe pr))).
Proof.
  intros Hq Hk Hp Htf. unfold proc_pagetable. pose proof TRAPFRAME_MAXVA as HT. assert (HT0 : 0 < TRAPFRAME) by done.
  destruct (uvmcreate_spec s l Hq Hk) as [[-> E]|(p & l1 & s1 & -> & Hpk & E & M1)].
  { exists 0, s. run E. split; [done|]. left. split_and!; [done|simpl; lia|]. exists []. constructor; [apply mem_only_refl|done|by apply moved_refl]. }
  setoid_rewrite (bind_Ret _ _ _ _ _ E). rewrite (proj2 (Z.eqb_neq _ _) (page_ok_nonzero _ Hpk)).
  pose proof (mem_only_quiet _ _ (md_state _ _ _ _ _ M1) Hq) as Hq1. destruct trampoline_range as [Htr1 Htr2].
  destruct (mappages_high s1 (root_only p) l1 TRAMPOLINE l_trampoline (Z.lor PTE_R PTE_X) Hq1 (md_inv _ _ _ _ _ M1))
    as (r2 & s2 & t2 & l2 & k2 & E2 & C2 & Hr2); [done|done|done|done|done|apply perm_RX|by rewrite root_only_leaf|].
  change (pt_root (root_only p)) with p in E2. pose proof (ac_root _ _ _ _ _ _ _ _ C2) as Hroot2. cbn in Hroot2.
  pose proof (made_chg _ _ _ _ _ _ _ _ _ _ M1 C2) as M2. pose proof (mem_only_quiet _ _ (md_state _ _ _ _ _ M2) Hq) as Hq2.
  setoid_rewrite (bind_Ret _ _ _ _ _ E2).
  assert (Hleaf2 : forall va, 0 <= va < MAXVA -> pt_leaf (k_mem s2) t2 va =
    map_range (fun _ => 0) TRAMPOLINE l_trampoline (Z.lor PTE_R PTE_X) k2 va).
  { intros va Hva. rewrite (ac_leaf _ _ _ _ _ _ _ _ C2) by done. unfold map_range. by rewrite root_only_leaf. }
  destruct Hr2 as [(-> & -> & Hlen)|(-> & -> & Hlen)]; cbn [Z.eqb negb].
  2:{ destruct (uvmfree_back s2 t2 l2 0 Hq2 (md_inv _ _ _ _ _ M2)) as (s3 & l3 & E3 & B3); [lia| |].
      { intros va Hva _. rewrite Hleaf2 by done. by rewrite map_range_0. }
      rewrite Hroot2 in E3. exists 0, s3. run E3. split; [done|]. left. split_and!; [done|simpl; lia|]. exists l3. by eapply made_back. }
  assert (Hp2 : k_procs s2 !! i = Some pr) by (by rewrite (mem_only_procs s s2) by apply M2).
  setoid_rewrite (bind_Ret _ _ _ _ _ (get_proc_ok s2 i pr Hp2)).
  destruct (map_trapframe_spec s (p :: l1) s2 t2 l2 (p_trapframe pr) Hq M2 Htf) as (r & s' & E3 & Hr).
  - intros va Hva. rewrite Hleaf2 by (assert (TRAMPOLINE < MAXVA) by done; lia). unfold map_range.
    pose proof (div_lt_aligned va TRAMPOLINE ltac:(done) ltac:(lia)). by rewrite (proj2 (Z.leb_gt _ _)) by lia.
  - rewrite Hleaf2 by done. unfold map_range. rewrite Z.sub_diag. cbn [Z.leb Z.ltb Z.compare andb]. by rewrite Z.mul_0_l, Z.add_0_r.
  - rewrite Hroot2 in E3. exists r, s'. split; [exact E3|]. destruct Hr as [(-> & Hlen' & B)|(t & l' & -> & Hr & M & Hlen' & N)]; [left; split_and!; [done|simpl; lia|done]|right].
    exists t, l'. split_and!; [done| |done|simpl; lia|done]. rewrite Hr, Hroot2. by apply page_ok_nonzero.
Qed.

(** * Giving it all back *)

Lemma proc_freepagetable_spec s t l sz :
  quiet s -> as_inv s t l -> 0 <= sz <= TRAPFRAME ->
  (forall va, 0 <= va < TRAPFRAME -> npages sz <= va / PGSIZE -> has PTE_V (pt_leaf (k_mem s) t va) = false) ->
  exists s' l', proc_freepagetable (pt_root t) sz s = Ret tt s' /\ back s (owned (k_mem s) t l) s' l'.
Proof.
  intros Hq Hi Hsz Hno. assert (HTT : TRAPFRAME < TRAMPOLINE < MAXVA) by done. assert (HT0 : 0 < TRAPFRAME) by done.
  destruct (uvmunmap_high s t l TRAMPOLINE Hi) as (s1 & E1 & C1); [done|lia|].
  destruct (uvmunmap_high s1 t l TRAPFRAME (ac_inv _ _ _ _ _ _ _ _ C1)) as (s2 & E2 & C2); [done|lia|].
  assert (Hq2 : quiet s2) by (eapply as_chg_quiet; [exact C2|]; by eapply as_chg_quiet).
  assert (Hl2 : forall va, 0 <= va < MAXVA -> has PTE_V (pt_leaf (k_mem s2) t va) = true ->
    pt_leaf (k_mem s2) t va = pt_leaf (k_mem s) t va /\ va / PGSIZE <> TRAPFRAME / PGSIZE /\ va / PGSIZE <> TRAMPOLINE / PGSIZE).
  { intros va Hva Hv. rewrite (ac_leaf _ _ _ _ _ _ _ _ C2) in * by done. unfold unmap_range in *.
    rewrite (ac_leaf _ _ _ _ _ _ _ _ C1) in * by done. unfold unmap_range in *.
    repeat match goal with H : context [if ?b then _ else _] |- _ => destruct b eqn:? end; try (rewrite has_0 in Hv; done).
    rewrite Hv, !andb_true_r, andb_false_iff, Z.leb_gt, Z.ltb_ge in *. split; [done|lia]. }
  destruct (uvmfree_back s2 t l sz Hq2 (ac_inv _ _ _ _ _ _ _ _ C2) Hsz) as (s3 & l3 & E3 & B3).
  { intros va Hva Hp. destruct (has PTE_V (pt_leaf (k_mem s2) t va)) eqn:Hv; [|done].
    destruct (Hl2 va Hva Hv) as (El & H1 & H2). destruct (decide (va < TRAPFRAME)); [rewrite El, Hno in Hv by (done || lia); done|].
    destruct (high_pages va); [lia|done..]. }
  exists s3, l3. unfold proc_freepagetable. run E1. run E2. split; [exact E3|]. eapply chg_back; [exact C1|]. by eapply chg_back.
Qed.

(** The pages [O] of a process without its trap frame, and the free ones, [l]. *)
Inductive tabled (s : kstate) (pr : proc) (l : list Z) (O : Z -> Prop) : Prop :=
| no_table : p_pagetable pr = 0 -> kmem_inv s l -> (forall p, O p <-> p ∈ l) -> tabled s pr l O
| a_table t : p_pagetable pr = pt_root t -> as_inv s t l -> 0 <= p_sz pr <= TRAPFRAME ->
    (forall va, 0 <= va < TRAPFRAME -> npages (p_sz pr) <= va / PGSIZE -> has PTE_V (pt_leaf (k_mem s) t va) = false) ->
    (forall p, O p <-> owned (k_mem s) t l p) -> tabled s pr l O.

(** ... and with it. *)
Definition framed (s : kstate) (pr : proc) (l : list Z) (O : Z -> Prop) : Prop :=
  (p_trapframe pr = 0 /\ tabled s pr l O) \/
  (page_ok (p_trapframe pr) /\ exists O', ~ O' (p_trapframe pr) /\ tabled s pr l O' /\ forall p, O p <-> p = p_trapframe pr \/ O' p).

(** What is left of the process. *)
Definition cleared (x : proc) : proc :=
  set_p_state UNUSED (set_p_name (<[0%nat := 0]> (p_name x)) (set_p_cwd None (set_p_xstate 0
    (set_p_killed 0 (set_p_chan None (set_p_parent None (set_p_pid 0 (set_p_sz 0 (set_p_pagetable 0 (set_p_trapframe 0 x)))))))))).

Lemma moved_iff m O1 O1' m' O2 O2' :
  (forall p, O1' p <-> O1 p) -> (forall p, O2' p <-> O2 p) -> moved m O1 m' O2 -> moved m O1' m' O2'.
Proof.
  intros H1 H2 [P F]. constructor; [intros p; by rewrite H2, P, H1|]. intros x Hx. apply F. intros p Hp. apply Hx. by apply H1.
Qed.

Lemma same_page_moved p m m' (O O' : Z -> Prop) :
  same_but_page p m m' -> O p -> (forall q, O' q <-> O q) -> moved m O m' O'.
Proof. intros Hs Hp Hq. constructor; [done|]. intros x Hx. by apply Hs, Hx. Qed.

Lemma free_trapframe s pr l O :
  quiet s -> framed s pr l O ->
  exists s' l' O', when (negb (p_trapframe pr =? 0)) (kfree (p_trapframe pr)) s = Ret tt s' /\ mem_only s s' /\
    tabled s' pr l' O' /\ moved (k_mem s) O (k_mem s') O'.
Proof.
  intros Hq [[-> Ht]|(Hp & O' & Hno & Ht & HO)].
  { exists s, l, O. split_and!; [done|apply mem_only_refl|done|by apply moved_refl]. }
  rewrite (proj2 (Z.eqb_neq _ _) (page_ok_nonzero _ Hp)). cbn [negb when]. set (tf := p_trapframe pr) in *.
  destruct Ht as [H0 Hk HO'|t Hr Hi Hsz Hm HO'].
  - destruct Hq as [Hc Hlk]. destruct (kfree_spec tf s l Hc Hlk Hk Hp) as (m & E & Hs & Hm & Hk'); [by rewrite <- HO'|].
    eexists _, (tf :: l), (.∈ tf :: l). split_and!; [exact E|done|by apply no_table|].
    eapply same_page_moved; [exact Hs|apply HO; by left|]. intros q. by rewrite HO, HO', elem_of_cons.
  - destruct (kfree_page s t tf l Hq Hi Hp) as (m & E & Hi' & Hown & _ & Hs); [by rewrite <- HO'|].
    eexists _, (tf :: l), (owned m t (tf :: l)). split_and!; [exact E|done| |].
    + apply (a_table _ _ _ _ t); [done|done|done| |done]. intros va Hva Hn. cbn.
      destruct (as_inv_page s t l tf m Hi Hp) as [_ El];
        [intros ?; apply Hno, HO'; by left|intros ?; apply Hno, HO'; right; by left|apply (km_mem _ _ (pi_kmem _ _ _ (as_pt _ _ _ Hi')))|done|].
      rewrite El. by apply Hm.
    + eapply same_page_moved; [exact Hs|apply HO; by left|]. intros q. by rewrite Hown, HO, HO'.
Qed.

Lemma tabled_ext s s' pr l O : k_mem s' = k_mem s -> k_freelist s' = k_freelist s -> tabled s pr l O -> tabled s' pr l O.
Proof.
  intros Em Ef [H0 [K1 K2 K3 K4] HO|t Hr Hi Hsz Hm HO].
  - apply no_table; [done| |done]. by constructor; rewrite ?Em, ?Ef.
  - apply (a_table _ _ _ _ t); [done|by apply (as_inv_ext s)|done|by rewrite Em|by rewrite Em].
Qed.

Lemma free_table s pr l O :
  quiet s -> tabled s pr l O ->
  exists s' l', when (negb (p_pagetable pr =? 0)) (proc_freepagetable (p_pagetable pr) (p_sz pr)) s = Ret tt s' /\ back s O s' l'.
Proof.
  intros Hq [-> Hk HO|t Hr Hi Hsz Hm HO].
  - exists s, l. split; [done|]. constructor; [apply mem_only_refl|done|]. apply moved_refl. intros p. by rewrite HO.
  - assert (Hpk : page_ok (pt_root t)) by (by apply (wf_page _ _ (pi_wf _ _ _ (as_pt _ _ _ Hi)) TRoot)).
    rewrite Hr, (proj2 (Z.eqb_neq _ _) (page_ok_nonzero _ Hpk)). cbn [negb when].
    destruct (proc_freepagetable_spec s t l (p_sz pr) Hq Hi Hsz Hm) as (s' & l' & E & [B1 B2 B3]). exists s', l'.
    split; [done|]. constructor; [done|done|]. by eapply moved_iff; [exact HO| |exact B3].
Qed.

(** [freeproc] clears the process, and all its pages are free. *)
Lemma freeproc_spec s i pr l O :
  quiet s -> k_procs s !! i = Some pr -> framed s pr l O ->
  exists s' l', freeproc i s = Ret tt s' /\
    back (set_k_procs (<[i := cleared pr]> (k_procs s)) s) O s' l'.
Proof.
  intros Hq Hp Hf. pose proof (lookup_lt_Some _ _ _ Hp) as Hlt. unfold freeproc.
  setoid_rewrite (bind_Ret _ _ _ _ _ (get_proc_ok s i pr Hp)).
  destruct (free_trapframe s pr l O Hq Hf) as (s1 & l1 & O1 & E1 & M1 & T1 & V1). setoid_rewrite (bind_Ret _ _ _ _ _ E1).
  assert (Hp1 : k_procs s1 !! i = Some pr) by (by rewrite (mem_only_procs _ _ M1)).
  setoid_rewrite (bind_Ret _ _ _ _ _ (upd_proc_ok s1 i pr (set_p_trapframe 0) Hp1)).
  set (s2 := set_k_procs (<[i := set_p_trapframe 0 pr]> (k_procs s1)) s1).
  destruct (free_table s2 pr l1 O1) as (s3 & l3 & E3 & [M3 K3 V3]); [exact (mem_only_quiet _ _ M1 Hq)|by apply (tabled_ext s1)|].
  setoid_rewrite (bind_Ret _ _ _ _ _ E3).
  assert (Ep3 : k_procs s3 = <[i := set_p_trapframe 0 pr]> (k_procs s)) by (rewrite (mem_only_procs _ _ M3); cbn; by rewrite (mem_only_procs _ _ M1)).
  assert (Hp3 : k_procs s3 !! i = Some (set_p_trapframe 0 pr)) by (rewrite Ep3; by apply list_lookup_insert_eq).
  eexists _, l3. split; [apply (upd_proc_ok s3 i _ _ Hp3)|]. constructor.
  - rewrite Ep3, list_insert_insert_eq. eapply mem_only_trans; [apply mem_only_set_procs, M1|exact (mem_only_set_procs s2 s3 _ M3)].
  - destruct K3. by constructor.
  - eapply moved_trans; [exact V1|exact V3].
Qed.
End ProcMem.
