(* ===== verification/ForkSpec.v ===== *)
(** allocproc and kfork (proc.c): a new process from an old one.

    [kfork] is followed through the process table, the page allocator, the page
    tables, the trap frames and the inode table, on the paths where memory or
    slots run out as well as on the one that succeeds. *)

From S2P Require Import Prelude Types Memory Spinlock Kalloc Vm PageTable UserMem UserCopy UvmFree UvmCopy Sched Sleeplock Bio Uart Block Log Crash Fs Inode InitCode Proc SleepWake ProcSpec ProcMem.
Local Open Scope Z_scope.
Local Open Scope c_scope.

(** * Inside a critical section *)

Lemma inside_ok lk s0 s : cpu_ok s0 -> inside lk s0 s -> cpu_ok s.
Proof. intros Hc [H1 _ H3]. unfold cpu_ok. rewrite H1, H3, <- (k_hart_enter lk s0). by apply enter_cpu_ok. Qed.

Lemma inside_free lk s0 s lk' : cpu_ok s0 -> inside lk s0 s -> lk <> lk' -> lock_free s0 lk' -> lock_free s lk'.
Proof. intros Hc [_ H2 _] Hne Hl. unfold lock_free. rewrite H2. by rewrite enter_lock_ne. Qed.

Lemma inside_mem lk s0 s s' : inside lk s0 s -> mem_only s s' -> inside lk s0 s'.
Proof. intros [H1 H2 H3] ->. by constructor. Qed.
Lemma inside_procs lk s0 s v : inside lk s0 s -> inside lk s0 (set_k_procs v s).
Proof. intros [H1 H2 H3]. by constructor. Qed.
Lemma inside_nextpid lk s0 s v : inside lk s0 s -> inside lk s0 (set_k_nextpid v s).
Proof. intros [H1 H2 H3]. by constructor. Qed.
Lemma inside_itable lk s0 s v : inside lk s0 s -> inside lk s0 (set_k_itable v s).
Proof. intros [H1 H2 H3]. by constructor. Qed.

(** * Finding a slot *)

Definition first_free (ps : list proc) (j : nat) (p : proc) : Prop :=
  ps !! j = Some p /\ p_state p = UNUSED /\ forall k q, (k < j)%nat -> ps !! k = Some q -> p_state q <> UNUSED.

Section Fork.
Context {L : KernelLayout} {X : Text} {W : Wakeups} {D : DiskDriver}.
#[local] Opaque walk mappages_loop kalloc kfree freeproc proc_pagetable allocpid uvmcopy.

Lemma allocproc_loop_spec n i s :
  cpu_ok s -> (forall j, lock_free s (LK_proc j)) -> length (k_procs s) = (i + n)%nat ->
  (forall k q, (k < i)%nat -> k_procs s !! k = Some q -> p_state q <> UNUSED) ->
  ((forall k q, k_procs s !! k = Some q -> p_state q <> UNUSED) /\ allocproc_loop n i s = Ret None s) \/
  (exists j p, first_free (k_procs s) j p /\ allocproc_loop n i s = allocproc_found j (enter (LK_proc j) s)).
Proof.
  intros Hc Hl. revert i; induction n as [|n IH]; intros i Hlen Hlow.
  - left. split; [|done]. intros k q Hk. apply (Hlow k q); [|done]. apply lookup_lt_Some in Hk. lia.
  - destruct (lookup_lt_is_Some_2 (k_procs s) i ltac:(lia)) as [p Hp]. cbn [allocproc_loop].
    setoid_rewrite (bind_Ret _ _ _ _ _ (acquire_free (LK_proc i) s Hc (Hl i))).
    setoid_rewrite (bind_Ret _ _ _ _ _ (get_proc_ok (enter (LK_proc i) s) i p ltac:(by kproj))).
    destruct (decide (p_state p = UNUSED)) as [Hu|Hu].
    + right. by exists i, p.
    + setoid_rewrite (bind_Ret _ _ _ _ _ (inside_release _ _ _ Hc (Hl i) (inside_enter (LK_proc i) s))). rewrite restore_enter.
      apply IH; [lia|]. intros k q Hk Hq. destruct (decide (k = i)) as [->|]; [by simplify_eq|]. apply (Hlow k q); [lia|done].
Qed.

(** [freeproc(p); release(&p->lock); return 0;] *)
Lemma alloc_bad s0 s j p l O {A} (a : A) :
  cpu_ok s0 -> lock_free s0 (LK_proc j) -> lock_free s0 LK_kmem -> inside (LK_proc j) s0 s ->
  k_procs s !! j = Some p -> framed s p l O ->
  exists s' l', (freeproc j ;; release (LK_proc j) ;; ret a) s = Ret a (restore s0 s') /\
    back (set_k_procs (<[j := cleared p]> (k_procs s)) s) O s' l'.
Proof.
  intros Hc Hl Hk Hin Hp Hf.
  destruct (freeproc_spec s j p l O) as (s' & l' & E & B); [split; [by eapply inside_ok|by eapply inside_free]|done|done|].
  exists s', l'. split; [|done]. run E. by run (inside_release (LK_proc j) s0 s' Hc Hl ltac:(eapply inside_mem; [by apply inside_procs|apply B])).
Qed.

(** The slot as [allocproc] leaves it. *)
Definition slot (p : proc) (pid tf pagetable : Z) : proc :=
  set_p_context (mk_context t_forkret (u64 (p_kstack p + PGSIZE)) (replicate 12 0))
    (set_p_pagetable pagetable (set_p_trapframe tf (set_p_state USED (set_p_pid pid p)))).

Lemma upd_slot s j x ps f :
  k_procs s = <[j := x]> ps -> (j < length ps)%nat -> upd_proc j f s = Ret tt (set_k_procs (<[j := f x]> ps) s).
Proof.
  intros E Hlt. rewrite (upd_proc_ok s j x f) by (rewrite E; by apply list_lookup_insert_eq). by rewrite E, list_insert_insert_eq.
Qed.

(** Everything [allocproc] may leave behind, from the list [l] of free pages; the
    state would be [s] but for memory and the slot [j]. *)
Definition no_slot (s0 s : kstate) (j : nat) (l : list Z) (s' : kstate) : Prop :=
  exists s1 p l', s' = restore s0 s1 /\ back (set_k_procs (<[j := cleared p]> (k_procs s)) s) (.∈ l) s1 l'.
Record new_slot (s : kstate) (j : nat) (p : proc) (l : list Z) (s' : kstate) (tf : Z) (t : ptree) (l' : list Z) : Prop := {
  nw_state : mem_only (set_k_procs (<[j := slot p (k_nextpid s) tf (pt_root t)]> (k_procs s)) (set_k_nextpid (next_pid (k_nextpid s)) s)) s';
  nw_inv : as_inv s' t l';
  nw_tf : page_ok tf;
  nw_apart : ~ owned (k_mem s') t l' tf;
  nw_moved : moved (k_mem s) (.∈ l) (k_mem s') (fun q => q = tf \/ owned (k_mem s') t l' q);
  nw_space : new_space (k_mem s') t tf;
  nw_used : (length l <= length l' + 6)%nat
}.

Section Found.
Variables (s0 s : kstate) (j : nat) (p : proc) (l : list Z).
Hypothesis Hc : cpu_ok s0.
Hypothesis Hl : lock_free s0 (LK_proc j).
Hypothesis Hlk : lock_free s0 LK_kmem.
Hypothesis Hlt : (j < length (k_procs s))%nat.

(** The page table, once the trap frame is there. *)
Lemma found_table s3 p3 tf l1 m :
  inside (LK_proc j) s0 s3 -> k_procs s3 = <[j := p3]> (k_procs s) -> p_trapframe p3 = tf -> page_ok tf -> tf ∉ l1 -> kmem_inv s3 l1 ->
  same_but_page tf m (k_mem s3) ->
  exists o s', (pagetable <- proc_pagetable j ;;
    upd_proc j (set_p_pagetable pagetable) ;;
    if pagetable =? 0 then freeproc j ;; release (LK_proc j) ;; ret None else
    upd_proc j (fun x => set_p_context (mk_context t_forkret (u64 (p_kstack x + PGSIZE)) (replicate 12 0)) x) ;;
    ret (Some j)) s3 = Ret o s' /\
   ((o = None /\ (length l1 < 5)%nat /\ exists s1 p' l', s' = restore s0 s1 /\
       mem_only (set_k_procs (<[j := cleared p']> (k_procs s)) s3) s1 /\ kmem_inv s1 l' /\ moved m (.∈ tf :: l1) (k_mem s1) (.∈ l')) \/
    (o = Some j /\ exists t l', (length l1 <= length l' + 5)%nat /\
       mem_only (set_k_procs (<[j := set_p_context (mk_context t_forkret (u64 (p_kstack p3 + PGSIZE)) (replicate 12 0)) (set_p_pagetable (pt_root t) p3)]> (k_procs s)) s3) s' /\
       as_inv s' t l' /\ ~ owned (k_mem s') t l' tf /\
       moved m (.∈ tf :: l1) (k_mem s') (fun q => q = tf \/ owned (k_mem s') t l' q) /\ new_space (k_mem s') t tf)).
Proof.
  intros Hin Hps Htf Hok Hn Hk Hs.
  assert (Hq : quiet s3) by (split; [by eapply inside_ok|by eapply inside_free]).
  assert (Hm3 : moved m (.∈ tf :: l1) (k_mem s3) (fun q => q = tf \/ q ∈ l1)).
  { eapply same_page_moved; [exact Hs|by left|]. intros q. by rewrite elem_of_cons. }
  assert (Hp3 : k_procs s3 !! j = Some p3) by (rewrite Hps; by apply list_lookup_insert_eq).
  destruct (proc_pagetable_spec s3 l1 j p3 Hq Hk Hp3) as (r & s4 & E4 & Hr); [by rewrite Htf|].
  setoid_rewrite (bind_Ret _ _ _ _ _ E4).
  assert (M4 : mem_only s3 s4) by (destruct Hr as [(_ & _ & l4 & [B _ _])|(t & l4 & _ & _ & [M _ _] & _)]; done).
  assert (Hps4 : k_procs s4 = <[j := p3]> (k_procs s)) by (by rewrite (mem_only_procs _ _ M4)).
  setoid_rewrite (bind_Ret _ _ _ _ _ (upd_slot s4 j p3 (k_procs s) (set_p_pagetable r) Hps4 Hlt)).
  set (s5 := set_k_procs _ s4). assert (Hin5 : inside (LK_proc j) s0 s5) by (apply inside_procs; by eapply inside_mem).
  destruct Hr as [(-> & Hlen & l4 & [_ K4 V4])|(t & l4 & -> & Hr0 & [_ I4 V4] & Hlen & N4)]; [rewrite Z.eqb_refl|rewrite (proj2 (Z.eqb_neq _ _) Hr0)].
  - assert (Hn4 : tf ∉ l4) by (intros H; apply Hn; by apply (mv_pages _ _ _ _ V4)).
    destruct (alloc_bad s0 s5 j (set_p_pagetable 0 p3) l4 (fun q => q = tf \/ q ∈ l4) (@None nat) Hc Hl Hlk Hin5) as (s6 & l6 & E6 & [M6 K6 V6]).
    { by apply list_lookup_insert_eq. }
    { right. cbn. rewrite Htf. split; [done|]. exists (.∈ l4). split_and!; [done| |done]. apply no_table; [done| |done]. destruct K4. by constructor. }
    exists None, (restore s0 s6). split; [exact E6|]. left. split_and!; [done|done|]. exists s6, (set_p_pagetable 0 p3), l6. split_and!; [done| |done|].
    + eapply mem_only_trans; [exact (mem_only_set_procs s3 s4 _ M4)|]. cbn in M6. by rewrite list_insert_insert_eq in M6.
    + eapply moved_trans; [exact Hm3|]. eapply moved_trans; [|exact V6]. by apply moved_add.
  - exists (Some j), (set_k_procs (<[j := set_p_context (mk_context t_forkret (u64 (p_kstack p3 + PGSIZE)) (replicate 12 0)) (set_p_pagetable (pt_root t) p3)]> (k_procs s)) s5).
    split; [by run (upd_slot s5 j (set_p_pagetable (pt_root t) p3) (k_procs s) (fun x => set_p_context (mk_context t_forkret (u64 (p_kstack x + PGSIZE)) (replicate 12 0)) x) eq_refl Hlt)|].
    right. split; [done|]. exists t, l4. split_and!.
    + exact Hlen.
    + exact (mem_only_set_procs s3 s4 _ M4).
    + by apply (as_inv_ext s4).
    + intros H. apply Hn. by apply (mv_pages _ _ _ _ V4).
    + eapply moved_trans; [exact Hm3|]. by apply moved_add.
    + by rewrite <- Htf.
Qed.

Lemma allocproc_found_spec :
  inside (LK_proc j) s0 s -> k_procs s !! j = Some p -> p_pagetable p = 0 -> kmem_inv s l ->
  lock_free s0 LK_pid -> pid_ok (k_nextpid s) ->
  exists o s', allocproc_found j s = Ret o s' /\
    ((o = None /\ (length l < 6)%nat /\ no_slot s0 (set_k_nextpid (next_pid (k_nextpid s)) s) j l s') \/
     (o = Some j /\ exists tf t l', new_slot s j p l s' tf t l')).
Proof.
  intros Hin Hp H0 Hk Hlp Hpid. unfold allocproc_found. cbv zeta.
  setoid_rewrite (bind_Ret _ _ _ _ _ (allocpid_ok s ltac:(by eapply inside_ok) ltac:(by eapply inside_free) Hpid)).
  set (pid := k_nextpid s) in *. set (b := set_k_nextpid (next_pid pid) s). set (ps := k_procs s) in *.
  assert (Hb : k_procs b = <[j := p]> ps) by (symmetry; by apply list_insert_id).
  setoid_rewrite (bind_Ret _ _ _ _ _ (upd_slot b j p ps (set_p_pid pid) Hb Hlt)).
  setoid_rewrite (bind_Ret _ _ _ _ _ (upd_slot (set_k_procs (<[j := set_p_pid pid p]> ps) b) j (set_p_pid pid p) ps (set_p_state USED) eq_refl Hlt)).
  set (p2 := set_p_state USED (set_p_pid pid p)). set (s2 := set_k_procs (<[j := p2]> ps) _).
  assert (Hin2 : inside (LK_proc j) s0 s2) by (destruct Hin; by constructor).
  assert (Hk2 : kmem_inv s2 l) by (destruct Hk; by constructor).
  assert (Hc2 : cpu_ok s2) by (by eapply inside_ok). assert (Hl2 : lock_free s2 LK_kmem) by (by apply (inside_free (LK_proc j) s0)).
  destruct l as [|tf l1].
  - setoid_rewrite (bind_Ret _ _ _ _ _ (kalloc_none s2 Hc2 Hl2 Hk2)).
    setoid_rewrite (bind_Ret _ _ _ _ _ (upd_slot s2 j p2 ps (set_p_trapframe 0) eq_refl Hlt)). cbn [Z.eqb].
    destruct (alloc_bad s0 (set_k_procs (<[j := set_p_trapframe 0 p2]> ps) s2) j (set_p_trapframe 0 p2) [] (.∈ []) (@None nat) Hc Hl Hlk) as (s' & l' & E & B).
    { destruct Hin2; by constructor. }
    { by apply list_lookup_insert_eq. }
    { left. split; [done|]. apply no_table; [done| |done]. destruct Hk2. by constructor. }
    exists None, (restore s0 s'). split; [exact E|]. left. split_and!; [done|simpl; lia|]. exists s', (set_p_trapframe 0 p2), l'. split; [done|].
    cbn [k_procs set_k_procs] in B. by rewrite list_insert_insert_eq in B.
  - destruct (kalloc_some tf s2 l1 Hc2 Hl2 Hk2) as (m & E & Hs & Hm & Hok & Hn & Hk').
    setoid_rewrite (bind_Ret _ _ _ _ _ E). set (s3 := set_k_freelist _ _) in *.
    setoid_rewrite (bind_Ret _ _ _ _ _ (upd_slot s3 j p2 ps (set_p_trapframe tf) eq_refl Hlt)).
    rewrite (proj2 (Z.eqb_neq _ _) (page_ok_nonzero _ Hok)). set (s4 := set_k_procs _ s3).
    destruct (found_table s4 (set_p_trapframe tf p2) tf l1 (k_mem s)) as (o & s' & E' & Ho); [|done|done|done|done| |done|].
    { destruct Hin2. by constructor. }
    { destruct Hk'. by constructor. }
    exists o, s'. split; [exact E'|]. destruct Ho as [(-> & Hlen & s1 & p' & l' & -> & M1 & K1 & V1)|(-> & t & l' & Hlen & M1 & I1 & N1 & V1 & S1)].
    + left. split_and!; [done|simpl; lia|]. exists s1, p', l'. split; [done|]. constructor; [|done|done].
      eapply mem_only_trans; [|exact M1]. done.
    + right. split; [done|]. exists tf, t, l'. constructor; [|done..|simpl; lia]. eapply mem_only_trans; [|exact M1]. done.
Qed.
End Found.

(** * kfork *)

(** [kfork] after the memory has been copied. *)
Definition fork_rest (p np : nat) (pr : proc) : K Z :=
  upd_proc np (set_p_sz (p_sz pr)) ;;
  dst <- tf_of np ;;
  src <- tf_of p ;;
  mem_upd (fun m => memmove m dst src TF_SIZE) ;;
  tf_put np (TF_a 0) 0 ;;
  cwd <- deref "cwd" (p_cwd pr) ;;
  ip <- idup cwd ;;
  upd_proc np (set_p_cwd (Some ip)) ;;
  npr <- get_proc np ;;
  release (LK_proc np) ;;
  acquire LK_wait ;;
  upd_proc np (set_p_parent (Some p)) ;;
  release LK_wait ;;
  acquire (LK_proc np) ;;
  upd_proc np (set_p_state RUNNABLE) ;;
  release (LK_proc np) ;;
  ret (p_pid npr).

(** The memory and the slot of the child in the end. *)
Definition fork_mem (m : gmap Z Z) (dst src : Z) : gmap Z Z := store64 (memmove m dst src TF_SIZE) (dst + TF_a 0) 0.
Definition fork_slot (q pr : proc) (cwd p : nat) : proc :=
  set_p_state RUNNABLE (set_p_parent (Some p) (set_p_cwd (Some cwd) (set_p_sz (p_sz pr) q))).

(** [upd_proc] in a critical section of its own. *)
Lemma locked_upd s lk j x ps f {A} (k : K A) :
  cpu_ok s -> lock_free s lk -> k_procs s = <[j := x]> ps -> (j < length ps)%nat ->
  (acquire lk ;; upd_proc j f ;; release lk ;; k) s = k (set_k_procs (<[j := f x]> ps) s).
Proof.
  intros Hc Hl Hp Hlt. run (acquire_free lk s Hc Hl).
  run (upd_slot (enter lk s) j x ps f ltac:(by kproj) Hlt). leave. by kproj.
Qed.

Lemma idup_ok s c x :
  cpu_ok s -> lock_free s LK_itable -> k_itable s !! c = Some x ->
  idup c s = Ret c (set_k_itable (<[c := set_i_ref (i_ref x + 1) x]> (k_itable s)) s).
Proof.
  intros Hc Hl Hi. unfold idup. run (acquire_free LK_itable s Hc Hl).
  run (upd_inode_ok (enter LK_itable s) c x (fun x => set_i_ref (i_ref x + 1) x) ltac:(by kproj)). leave. by kproj.
Qed.

Lemma tf_of_ok s j x : k_procs s !! j = Some x -> p_trapframe x <> 0 -> tf_of j s = Ret (p_trapframe x) s.
Proof. intros Hj H0. unfold tf_of. run (get_proc_ok s j x Hj). by rewrite (proj2 (Z.eqb_neq _ _) H0). Qed.

Lemma tf_put_ok s j x off v :
  k_procs s !! j = Some x -> p_trapframe x <> 0 ->
  tf_put j off v s = Ret tt (set_k_mem (store64 (k_mem s) (p_trapframe x + off) v) s).
Proof. intros Hj H0. unfold tf_put. by run (tf_of_ok s j x Hj H0). Qed.

Lemma fork_rest_spec s0 s p np q pr ps cwd ino :
  cpu_ok s0 -> (forall lk, lock_free s0 lk) -> inside (LK_proc np) s0 s -> (np < length ps)%nat -> np <> p ->
  k_procs s = <[np := q]> ps -> ps !! p = Some pr -> p_trapframe q <> 0 -> p_trapframe pr <> 0 ->
  p_cwd pr = Some cwd -> k_itable s !! cwd = Some ino ->
  fork_rest p np pr s = Ret (p_pid q)
    (restore s0 (set_k_procs (<[np := fork_slot q pr cwd p]> ps)
      (set_k_itable (<[cwd := set_i_ref (i_ref ino + 1) ino]> (k_itable s))
        (set_k_mem (fork_mem (k_mem s) (p_trapframe q) (p_trapframe pr)) s)))).
Proof.
  intros Hc Hlks Hin Hlt Hne Hps Hp Hq0 Hp0 Hcwd Hino. unfold fork_rest.
  rewrite (bind_Ret _ _ _ _ _ (upd_slot s np q ps (set_p_sz (p_sz pr)) Hps Hlt)).
  set (q1 := set_p_sz (p_sz pr) q). set (s1 := set_k_procs (<[np := q1]> ps) s).
  assert (Hin1 : forall m, inside (LK_proc np) s0 (set_k_mem m s1)) by (intros m; destruct Hin; by constructor).
  assert (Hq1 : k_procs s1 !! np = Some q1) by (by apply list_lookup_insert_eq).
  assert (Hp1 : k_procs s1 !! p = Some pr) by (cbn; by rewrite list_lookup_insert_ne).
  rewrite (bind_Ret _ _ _ _ _ (tf_of_ok s1 np q1 Hq1 Hq0)), (bind_Ret _ _ _ _ _ (tf_of_ok s1 p pr Hp1 Hp0)).
  change (p_trapframe q1) with (p_trapframe q). unfold mem_upd at 1, modify at 1. unfold bind at 1.
  set (s2 := set_k_mem (memmove (k_mem s1) (p_trapframe q) (p_trapframe pr) TF_SIZE) s1).
  rewrite (bind_Ret _ _ _ _ _ (tf_put_ok s2 np q1 (TF_a 0) 0 Hq1 Hq0)). rewrite Hcwd. unfold bind at 1. cbn [deref ret].
  set (m' := store64 (k_mem s2) (p_trapframe q1 + TF_a 0) 0). set (s3 := set_k_mem m' s2).
  assert (Hc3 : cpu_ok s3) by (apply (inside_ok (LK_proc np) s0); [done|apply Hin1]).
  assert (Hl3 : lock_free s3 LK_itable) by (by apply (inside_free (LK_proc np) s0); [|apply Hin1| |]).
  rewrite (bind_Ret _ _ _ _ _ (idup_ok s3 cwd ino Hc3 Hl3 Hino)). set (s4 := set_k_itable _ s3).
  rewrite (bind_Ret _ _ _ _ _ (upd_slot s4 np q1 ps (set_p_cwd (Some cwd)) eq_refl Hlt)).
  set (q2 := set_p_cwd (Some cwd) q1). set (s5 := set_k_procs _ s4).
  rewrite (bind_Ret _ _ _ _ _ (get_proc_ok s5 np q2 ltac:(by apply list_lookup_insert_eq))).
  assert (Hin5 : inside (LK_proc np) s0 s5) by (destruct Hin; by constructor).
  rewrite (bind_Ret _ _ _ _ _ (inside_release _ _ _ Hc (Hlks (LK_proc np)) Hin5)).
  assert (Hcr : cpu_ok (restore s0 s5)) by (unfold cpu_ok; cbn; by rewrite (in_hart _ _ _ Hin)).
  rewrite (locked_upd (restore s0 s5) LK_wait np q2 ps (set_p_parent (Some p)) _ Hcr (Hlks LK_wait) eq_refl Hlt).
  rewrite (locked_upd _ (LK_proc np) np (set_p_parent (Some p) q2) ps (set_p_state RUNNABLE) _); [done|exact Hcr|apply Hlks|done|done].
Qed.

(** Copying the trap frame changes the child's frame only. *)
Lemma fork_mem_page m dst src : mem_ok m -> same_but_page dst m (fork_mem m dst src) /\ mem_ok (fork_mem m dst src).
Proof.
  intros Hm. unfold fork_mem. split; [|apply store_ok; by apply memmove_ok].
  intros x Hx. unfold TF_a, TF_SIZE, PGSIZE in *. rewrite mget_store_out by lia. rewrite mget_memmove by (done || lia).
  destruct (Z.leb_spec dst x), (Z.ltb_spec x (dst + 288)); cbn [andb]; done || lia.
Qed.

Lemma fork_mem_frame m dst src off :
  mem_ok m -> 0 <= off < TF_SIZE -> off < TF_a 0 \/ TF_a 0 + 8 <= off ->
  mget (fork_mem m dst src) (dst + off) = mget m (src + off).
Proof.
  intros Hm Ho Ha. unfold fork_mem. rewrite mget_store_out by lia. rewrite mget_memmove by (done || lia).
  rewrite (proj2 (Z.leb_le _ _)), (proj2 (Z.ltb_lt _ _)) by lia. cbn [andb]. f_equal. lia.
Qed.

(** Process [i] can fork: its memory is [tp], the free pages are [l], and slots of
    the process table that are not in use hold no memory. *)
Record forks (s : kstate) (i : nat) (pr : proc) (tp : ptree) (l : list Z) (cwd : nat) (ino : inode) : Prop := {
  fk_cpu : cpu_ok s;
  fk_cur : cur s = Some i;
  fk_locks : forall lk, lock_free s lk;
  fk_len : length (k_procs s) = NPROC;
  fk_proc : k_procs s !! i = Some pr;
  fk_used : p_state pr <> UNUSED;
  fk_root : p_pagetable pr = pt_root tp;
  fk_sz : 0 <= p_sz pr <= TRAPFRAME;
  fk_kmem : kmem_inv s l;
  fk_by : bystander (k_mem s) tp (.∈ l);
  fk_tf : page_ok (p_trapframe pr) /\ p_trapframe pr ∉ l;
  fk_pid : pid_ok (k_nextpid s);
  fk_cwd : p_cwd pr = Some cwd;
  fk_ino : k_itable s !! cwd = Some ino;
  fk_clean : forall j q, k_procs s !! j = Some q -> p_state q = UNUSED -> p_pagetable q = 0 /\ p_sz q = 0
}.

(** A process apart from the free pages. *)
Lemma inv_bystander s t l : as_inv s t l -> bystander (k_mem s) t (.∈ l).
Proof.
  intros [[_ Hw Hu] Hp _ Hh]. constructor; [done|done| |done]. intros va Hva. by destruct (Hp va Hva) as (? & _ & ?).
Qed.

(** The child, in slot [np]: memory, trap frame and fields. *)
Record child (s : kstate) (i : nat) (pr : proc) (tp : ptree) (l : list Z) (cwd : nat) (s' : kstate) (np : nat) (c : proc) (t : ptree) (l' : list Z) : Prop := {
  cd_slot : k_procs s' = <[np := c]> (k_procs s);
  cd_fields : p_state c = RUNNABLE /\ p_parent c = Some i /\ p_pid c = k_nextpid s /\ p_sz c = p_sz pr /\ p_cwd c = Some cwd;
  cd_space : p_pagetable c = pt_root t /\ as_inv s' t l';
  cd_mem : forall va, 0 <= va < p_sz pr ->
    uread (k_mem s') t va = uread (k_mem s) tp va /\ writable (k_mem s') t va = writable (k_mem s) tp va;
  cd_high : pt_leaf (k_mem s') t TRAMPOLINE = entry l_trampoline (Z.lor PTE_R PTE_X) /\
            pt_leaf (k_mem s') t TRAPFRAME = entry (p_trapframe c) (Z.lor PTE_R PTE_W);
  cd_frame : forall off, 0 <= off < TF_SIZE -> off < TF_a 0 \/ TF_a 0 + 8 <= off ->
    mget (k_mem s') (p_trapframe c + off) = mget (k_mem s) (p_trapframe pr + off);
  cd_a0 : load64 (k_mem s') (p_trapframe c + TF_a 0) = 0;
  cd_pages : forall p, p ∈ l <-> p = p_trapframe c \/ owned (k_mem s') t l' p
}.

(** No child: the pages that were free are free, and the slots that were not in use
    are not. *)
Definition childless (s : kstate) (l : list Z) (s' : kstate) : Prop :=
  exists n ps l', mem_only (set_k_procs ps (set_k_nextpid n s)) s' /\ kmem_inv s' l' /\ (forall p, p ∈ l' <-> p ∈ l) /\
    forall j q, k_procs s !! j = Some q -> exists q', ps !! j = Some q' /\
      (q' = q \/ p_state q = UNUSED /\ p_state q' = UNUSED /\ p_pagetable q' = 0 /\ p_sz q' = 0).

(** [kfork] after [allocproc] has returned [np]. *)
Definition fork_copy (p np : nat) : K Z :=
  pr <- get_proc p ;;
  npr <- get_proc np ;;
  r <- uvmcopy (p_pagetable pr) (p_pagetable npr) (p_sz pr) ;;
  if r <? 0 then freeproc np ;; release (LK_proc np) ;; ret (-1) else fork_rest p np pr.

Lemma restore_mem s lk ps n s' :
  mem_only (set_k_procs ps (set_k_nextpid n (enter lk s))) s' -> mem_only (set_k_procs ps (set_k_nextpid n s)) (restore s s').
Proof.
  unfold mem_only. intros E. cbn [k_mem k_freelist restore set_k_locks set_k_cpus]. rewrite E at 1. by kproj.
Qed.

Section Forking.
Variables (s : kstate) (i : nat) (pr : proc) (tp : ptree) (l : list Z) (cwd : nat) (ino : inode).
Hypothesis FK : forks s i pr tp l cwd ino.

(** Whatever the new pages are used for, the parent's memory and trap frame stay. *)
Definition parent_same (m : gmap Z Z) : Prop :=
  (forall va, uread m tp va = uread (k_mem s) tp va) /\
  (forall off, 0 <= off < PGSIZE -> mget m (p_trapframe pr + off) = mget (k_mem s) (p_trapframe pr + off)).

Lemma free_ok p : p ∈ l -> page_ok p.
Proof. intros Hp. pose proof (km_pages _ _ (fk_kmem _ _ _ _ _ _ _ FK)) as H. rewrite Forall_forall in H. by apply H. Qed.

Lemma moved_parent m O : moved (k_mem s) (.∈ l) m O -> bystander m tp O /\ undisturbed (k_mem s) m tp /\ parent_same m.
Proof.
  intros Hm. destruct (bystander_moved _ _ tp _ _ free_ok Hm (fk_by _ _ _ _ _ _ _ FK)) as [B U]. split_and!; [done|done|].
  split; [intros va; by eapply undisturbed_uread, U; apply FK|]. intros off Ho. apply (mv_frame _ _ _ _ Hm). intros p Hp.
  destruct (fk_tf _ _ _ _ _ _ _ FK) as [Ht Hn].
  destruct (page_ok_apart (p_trapframe pr) p Ht (free_ok p Hp)) as [?|?]; [by intros E; rewrite E in Hn|lia..].
Qed.

Lemma no_child j q n s1 p' l' :
  first_free (k_procs s) j q ->
  back (set_k_procs (<[j := cleared p']> (k_procs s)) (set_k_nextpid n (enter (LK_proc j) s))) (.∈ l) s1 l' ->
  childless s l (restore s s1) /\ parent_same (k_mem s1).
Proof.
  intros (Hj & Hu & _) [M K V]. pose proof (lookup_lt_Some _ _ _ Hj) as Hlt.
  change (k_mem (set_k_procs _ (set_k_nextpid n (enter (LK_proc j) s)))) with (k_mem (enter (LK_proc j) s)) in V. rewrite k_mem_enter in V.
  split; [|by eapply moved_parent]. exists n, (<[j := cleared p']> (k_procs s)), l'. split_and!.
  - by eapply restore_mem.
  - destruct K. by constructor.
  - intros p. apply (mv_pages _ _ _ _ V).
  - intros k x Hk. destruct (decide (k = j)) as [->|Hne].
    + exists (cleared p'). rewrite list_lookup_insert_eq by done. split; [done|]. right. by simplify_eq.
    + exists x. rewrite list_lookup_insert_ne by done. split; [done|by left].
Qed.

Section Slot.
Variables (j : nat) (q : proc) (s1 : kstate) (tf : Z) (t : ptree) (l1 : list Z).
Hypothesis Hj : first_free (k_procs s) j q.
Hypothesis NS : new_slot (enter (LK_proc j) s) j q l s1 tf t l1.

Let sl : proc := slot q (k_nextpid s) tf (pt_root t).

Lemma slot_other : j <> i.
Proof. intros ->. destruct Hj as (H & Hu & _). rewrite (fk_proc _ _ _ _ _ _ _ FK) in H. simplify_eq. by apply (fk_used _ _ _ _ _ _ _ FK). Qed.

Lemma slot_lt : (j < length (k_procs s))%nat.
Proof. destruct Hj as (H & _). by eapply lookup_lt_Some. Qed.

Lemma slot_state : mem_only (set_k_procs (<[j := sl]> (k_procs s)) (set_k_nextpid (next_pid (k_nextpid s)) (enter (LK_proc j) s))) s1.
Proof. pose proof (nw_state _ _ _ _ _ _ _ _ NS) as M. by rewrite k_nextpid_enter, k_procs_enter in M. Qed.

Lemma slot_moved : moved (k_mem s) (.∈ l) (k_mem s1) (fun p => p = tf \/ owned (k_mem s1) t l1 p).
Proof. pose proof (nw_moved _ _ _ _ _ _ _ _ NS) as V. by rewrite k_mem_enter in V. Qed.

Lemma slot_inside : inside (LK_proc j) s s1.
Proof. eapply inside_mem; [|exact slot_state]. apply inside_procs, inside_nextpid, inside_enter. Qed.

(** From [s1] on, memory of the child was added; the slot has not changed. *)
Lemma grown_inside s2 : mem_only s1 s2 -> inside (LK_proc j) s s2 /\ k_procs s2 = <[j := sl]> (k_procs s) /\ k_itable s2 = k_itable s.
Proof.
  intros M. pose proof (mem_only_trans _ _ _ slot_state M) as M2. split_and!.
  - by apply (inside_mem _ _ s1); [apply slot_inside|].
  - rewrite M2. done.
  - rewrite M2. cbn. by rewrite k_itable_enter.
Qed.

Lemma copy_failed s2 t2 l2 :
  as_chg s1 t l1 s2 t2 l2 (in_pages 0 (npages (p_sz pr))) (pt_leaf (k_mem s2) t2) ->
  (forall va, 0 <= va -> va / PGSIZE < npages (p_sz pr) -> has PTE_V (pt_leaf (k_mem s2) t2 va) = false) ->
  exists s', (freeproc j ;; release (LK_proc j) ;; ret (-1)) s2 = Ret (-1) s' /\
    k_locks s' = k_locks s /\ k_cpus s' = k_cpus s /\ parent_same (k_mem s') /\ childless s l s'.
Proof.
  intros C H0. pose proof TRAPFRAME_MAXVA as HT. destruct (grown_inside s2 (ac_state _ _ _ _ _ _ _ _ C)) as (Hin & Hps & _).
  destruct (fk_clean _ _ _ _ _ _ _ FK j q) as [_ Hsz0]; [apply Hj..|].
  assert (V2 : moved (k_mem s) (.∈ l) (k_mem s2) (fun p => p = tf \/ owned (k_mem s2) t2 l2 p)).
  { eapply moved_trans; [exact slot_moved|]. apply moved_add. by eapply as_chg_moved. }
  destruct (alloc_bad s s2 j sl l2 (fun p => p = tf \/ owned (k_mem s2) t2 l2 p) (-1)) as (s3 & l3 & E & [M3 K3 V3]);
    [apply FK|apply FK|apply FK|done|rewrite Hps; by apply list_lookup_insert_eq, slot_lt| |].
  { right. split; [apply NS|]. exists (owned (k_mem s2) t2 l2). split_and!; [|apply (a_table _ _ _ _ t2)|done].
    - intros H%(ac_owned _ _ _ _ _ _ _ _ C). by apply (nw_apart _ _ _ _ _ _ _ _ NS).
    - cbn. symmetry. apply (ac_root _ _ _ _ _ _ _ _ C).
    - apply C.
    - cbn. rewrite Hsz0. done.
    - intros va Hva _. destruct (decide (va / PGSIZE < npages (p_sz pr))); [apply H0; lia|].
      rewrite (ac_same _ _ _ _ _ _ _ _ C) by (unfold in_pages; lia). rewrite (ns_empty _ _ _ (nw_space _ _ _ _ _ _ _ _ NS)) by done. apply has_0.
    - done. }
  exists (restore s s3). split; [exact E|]. split; [done|]. split; [done|].
  destruct (no_child j q (next_pid (k_nextpid s)) s3 sl l3 Hj) as [? ?]; [|done].
  constructor; [|done|].
  - eapply mem_only_trans; [|exact M3]. rewrite Hps, list_insert_insert_eq.
    exact (mem_only_set_procs _ _ (<[j := cleared sl]> (k_procs s)) (mem_only_trans _ _ _ slot_state (ac_state _ _ _ _ _ _ _ _ C))).
  - cbn [k_mem set_k_procs set_k_nextpid] in *. rewrite k_mem_enter. by eapply moved_trans.
Qed.

Lemma slot_bystander : bystander (k_mem s1) tp (owned (k_mem s1) t l1).
Proof.
  destruct (moved_parent _ _ slot_moved) as ([B1 B2 B3 B4] & _). constructor; [done| | |done].
  - intros p Hp Ho. apply (B2 p Hp). by right.
  - intros va Hva. destruct (B3 va Hva) as [? Hn]. split; [done|]. intros Ho. apply Hn. by right.
Qed.

Lemma copy_done s2 t2 l2 :
  cloning s1 t l1 tp s2 t2 l2 (npages (p_sz pr)) ->
  exists c s', fork_rest i j pr s2 = Ret (k_nextpid s) s' /\
    k_locks s' = k_locks s /\ k_cpus s' = k_cpus s /\ parent_same (k_mem s') /\ child s i pr tp l cwd s' j c t2 l2 /\
    k_itable s' = <[cwd := set_i_ref (i_ref ino + 1) ino]> (k_itable s).
Proof.
  intros Hcl. pose proof (cl_chg _ _ _ _ _ _ _ _ Hcl) as C. pose proof (fk_sz _ _ _ _ _ _ _ FK) as Hsz.
  destruct (grown_inside s2 (ac_state _ _ _ _ _ _ _ _ C)) as (Hin & Hps & Hit). pose proof (nw_tf _ _ _ _ _ _ _ _ NS) as Htf.
  destruct (fk_tf _ _ _ _ _ _ _ FK) as [Hptf _]. pose proof (ac_inv _ _ _ _ _ _ _ _ C) as I2.
  pose proof (km_mem _ _ (pi_kmem _ _ _ (as_pt _ _ _ I2))) as Hm2.
  set (m3 := fork_mem (k_mem s2) tf (p_trapframe pr)). destruct (fork_mem_page (k_mem s2) tf (p_trapframe pr) Hm2) as [Hs3 Hm3]. fold m3 in Hs3, Hm3.
  assert (Hno : ~ owned (k_mem s2) t2 l2 tf) by (intros H%(ac_owned _ _ _ _ _ _ _ _ C); by apply (nw_apart _ _ _ _ _ _ _ _ NS)).
  destruct (other_page s2 t2 l2 tf m3 I2 Htf Hno Hm3 Hs3) as (I3 & _ & Hu3 & Hw3).
  destruct (as_inv_page s2 t2 l2 tf m3 I2 Htf) as [_ Hl3]; [intros ?; apply Hno; by left|intros ?; apply Hno; right; by left|done|done|].
  assert (Ho3 : forall p, owned m3 t2 l2 p <-> owned (k_mem s2) t2 l2 p) by (intros p; unfold owned, uvalid, upage; by setoid_rewrite Hl3).
  assert (V2 : moved (k_mem s) (.∈ l) (k_mem s2) (fun p => p = tf \/ owned (k_mem s2) t2 l2 p)).
  { eapply moved_trans; [exact slot_moved|]. apply moved_add. by eapply as_chg_moved. }
  assert (V3 : moved (k_mem s) (.∈ l) m3 (fun p => p = tf \/ owned m3 t2 l2 p)).
  { eapply moved_trans; [exact V2|]. eapply same_page_moved; [exact Hs3|by left|]. intros p. by rewrite Ho3. }
  assert (Hhigh : forall va, TRAPFRAME <= va < MAXVA -> pt_leaf m3 t2 va = pt_leaf (k_mem s1) t va).
  { intros va Hva. rewrite Hl3. assert (0 < TRAPFRAME) by done. apply (ac_same _ _ _ _ _ _ _ _ C); [lia|]. unfold in_pages.
    pose proof (npages_limit (p_sz pr) ltac:(lia)). intros [_ Hn]. assert (va < npages (p_sz pr) * PGSIZE); [|lia].
    pose proof (Z.div_mod va PGSIZE ltac:(lia)). pose proof (Z.mod_pos_bound va PGSIZE ltac:(lia)). nia. }
  exists (fork_slot sl pr cwd i). eexists. split.
  { apply (fork_rest_spec s s2 i j sl pr (k_procs s) cwd ino); [apply FK|apply FK|done|apply slot_lt|apply slot_other|done|apply FK| | |apply FK|rewrite Hit; apply FK];
      by apply page_ok_nonzero. }
  split; [done|]. split; [done|]. split; [exact (proj2 (proj2 (moved_parent _ _ V3)))|]. split; [|cbn; by rewrite Hit]. constructor.
  - done.
  - done.
  - split; [cbn; symmetry; apply (ac_root _ _ _ _ _ _ _ _ C)|]. by apply (as_inv_ext (set_k_mem m3 s2)).
  - intros va Hva. cbn [k_mem restore set_k_locks set_k_cpus set_k_procs set_k_itable set_k_mem]. fold m3.
    change (p_trapframe sl) with tf. fold m3. rewrite Hu3, Hw3.
    destruct (cloning_uread s1 t l1 tp s2 t2 l2 (p_sz pr) va slot_bystander ltac:(lia) Hcl Hva) as [-> ->].
    destruct (moved_parent _ _ slot_moved) as (_ & U & [Hp _]). split; [apply Hp|]. unfold writable, readable. by rewrite (un_leaf _ _ _ U).
  - split; (etransitivity; [apply Hhigh; done|]); apply (nw_space _ _ _ _ _ _ _ _ NS).
  - intros off Ho Ha. etransitivity; [by apply fork_mem_frame|].
    destruct (moved_parent _ _ V2) as (_ & _ & [_ Hp]). apply Hp. unfold TF_SIZE, PGSIZE in *. lia.
  - by apply load64_store64.
  - intros p. symmetry. apply (mv_pages _ _ _ _ V3).
Qed.

(** [kfork] once there is a slot. *)
Lemma fork_copy_spec :
  exists r s', fork_copy i j s1 = Ret r s' /\ k_locks s' = k_locks s /\ k_cpus s' = k_cpus s /\ parent_same (k_mem s') /\
    ((r = -1 /\ childless s l s' /\ Z.of_nat (length l) < 6 + 3 * npages (p_sz pr)) \/
     (r = k_nextpid s /\ k_itable s' = <[cwd := set_i_ref (i_ref ino + 1) ino]> (k_itable s) /\
      exists c t' l', child s i pr tp l cwd s' j c t' l')).
Proof.
  pose proof (fk_sz _ _ _ _ _ _ _ FK) as Hsz. pose proof (nw_used _ _ _ _ _ _ _ _ NS) as Hused.
  destruct (grown_inside s1 (mem_only_refl s1)) as (Hin & Hps & _).
  assert (Hp : k_procs s1 !! i = Some pr) by (rewrite Hps, list_lookup_insert_ne by apply slot_other; apply FK).
  assert (Hnp : k_procs s1 !! j = Some sl) by (rewrite Hps; apply list_lookup_insert_eq, slot_lt).
  unfold fork_copy. setoid_rewrite (bind_Ret _ _ _ _ _ (get_proc_ok s1 i pr Hp)).
  setoid_rewrite (bind_Ret _ _ _ _ _ (get_proc_ok s1 j sl Hnp)). rewrite (fk_root _ _ _ _ _ _ _ FK).
  change (p_pagetable sl) with (pt_root t).
  destruct (uvmcopy_spec s1 t l1 tp (p_sz pr)) as (r & s2 & t2 & l2 & E & Fk & Hlen); [|apply NS|apply slot_bystander|done| |].
  { split; [by eapply inside_ok, Hin; apply FK|]. by eapply (inside_free (LK_proc j) s); [apply FK|done|done|apply FK]. }
  { intros va Hva Hpg. rewrite (ns_empty _ _ _ (nw_space _ _ _ _ _ _ _ _ NS)); [apply has_0|]. split; [done|].
    eapply below_npages; [|exact Hpg]. lia. }
  setoid_rewrite (bind_Ret _ _ _ _ _ E). destruct Fk as [[-> Hcl]|(-> & C & _ & _ & H0)]; cbn [Z.ltb Z.compare].
  - destruct (copy_done s2 t2 l2 Hcl) as (c & s' & Er & H1 & H2 & H3 & H4 & H5). exists (k_nextpid s), s'. split_and!; try done.
    right. split_and!; [done|done|]. by exists c, t2, l2.
  - destruct (copy_failed s2 t2 l2 C H0) as (s' & Er & H1 & H2 & H3 & H4). exists (-1), s'. split_and!; try done.
    left. split_and!; [done|done|]. lia.
Qed.
End Slot.
End Forking.

(** C16: [kfork] makes a child that is a copy of its parent. The child takes the
    first unused slot of the process table and the next pid, which is what the
    parent gets; it reads the same bytes and may write the same addresses as the
    parent, through a table and pages of its own; its trap frame is a copy of the
    parent's but for a 0 in [a0]; the directory both are in has one reference more.
    [kfork] returns -1 only when there is no slot or fewer free pages than 6 and 3
    for each page of the parent; the pages and the slot then are free as before.
    The parent's memory and trap frame stay as they are, and no lock is kept. *)
Theorem kfork_forks s i pr tp l cwd ino :
  forks s i pr tp l cwd ino ->
  exists r s', kfork s = Ret r s' /\ k_locks s' = k_locks s /\ k_cpus s' = k_cpus s /\ parent_same s pr tp (k_mem s') /\
    ((r = -1 /\ childless s l s' /\
      ((forall j q, k_procs s !! j = Some q -> p_state q <> UNUSED) \/ Z.of_nat (length l) < 6 + 3 * npages (p_sz pr))) \/
     (r = k_nextpid s /\ k_itable s' = <[cwd := set_i_ref (i_ref ino + 1) ino]> (k_itable s) /\
      exists j q c t' l', first_free (k_procs s) j q /\ child s i pr tp l cwd s' j c t' l')).
Proof.
  intros FK. change kfork with (p <- me ;; np <- allocproc ;; match np with None => ret (-1) | Some np => fork_copy p np end).
  pose proof FK as [Hc Hcur Hlks Hlen Hp Hu _ Hsz Hk Hby Htf Hpid _ _ Hclean].
  setoid_rewrite (bind_Ret _ _ _ _ _ (me_ok s i Hc Hcur)). unfold allocproc.
  destruct (allocproc_loop_spec NPROC 0 s Hc (fun j => Hlks (LK_proc j)) Hlen) as [[Hfull E]|(j & q & Hj & E)]; [lia|..].
  { setoid_rewrite (bind_Ret _ _ _ _ _ E). exists (-1), s. split_and!; try done. left. split_and!; [done| |by left].
    exists (k_nextpid s), (k_procs s), l. split_and!; [|done|done|].
    - destruct s. done.
    - intros k x Hx. exists x. split; [done|by left]. }
  pose proof Hj as (Hjq & Hju & _). pose proof (lookup_lt_Some _ _ _ Hjq) as Hlt.
  destruct (allocproc_found_spec s (enter (LK_proc j) s) j q l Hc (Hlks _) (Hlks _)) as (o & s1 & E1 & Ho);
    [by kproj|apply inside_enter|by kproj|by eapply Hclean| |apply Hlks|by kproj|].
  { destruct Hk. constructor; by kproj. }
  rewrite <- E in E1. setoid_rewrite (bind_Ret _ _ _ _ _ E1).
  destruct Ho as [(-> & Hfew & s2 & p' & l' & -> & B)|(-> & tf & t & l1 & NS)].
  - exists (-1), (restore s s2). rewrite k_nextpid_enter in B. cbn [k_procs set_k_nextpid] in B. rewrite k_procs_enter in B.
    destruct (no_child s i pr tp l cwd ino FK j q _ s2 p' l' Hj B) as [? ?]. split_and!; try done. left. split_and!; [done|done|right].
    pose proof (npages_mono 0 (p_sz pr) ltac:(lia)). change (npages 0) with 0 in *. lia.
  - destruct (fork_copy_spec s i pr tp l cwd ino FK j q s1 tf t l1 Hj NS) as (r & s' & E2 & H1 & H2 & H3 & H4). exists r, s'. split_and!; try done.
    destruct H4 as [(-> & H4 & H5)|(-> & H4 & c & t' & l' & H5)]; [left; split_and!; [done|done|by right]|right].
    split_and!; [done|done|]. by exists j, q, c, t', l'.
Qed.
End Fork.

(** * A sample: the process of UserMem.v with ten free pages *)

Module ForkRun.
#[local] Existing Instance sample_layout.
#[local] Existing Instance Machine.ideal_disk.
#[local] Existing Instance Machine.wakeups.
#[local] Instance text : Text := {|
  t_forkret := KERNBASE + 0x100; t_usertrap := KERNBASE + 0x200; t_uservec := KERNBASE + 0x7000;
  t_userret := KERNBASE + 0x709c; t_kernelvec := KERNBASE + 0x300 |}.

Definition parent : proc := set_p_cwd (Some 0%nat) (set_p_state RUNNING sample_proc).
Definition base : kstate := set_k_procs (<[0%nat := parent]> (k_procs sample_grow)) sample_grow.

(** [n] pages from [KERNBASE + 0x60000] on are given to the allocator. *)
Definition page (k : nat) : Z := KERNBASE + 0x60000 + Z.of_nat k * PGSIZE.
Fixpoint more (n : nat) : K unit := match n with O => ret tt | S n => more n ;; kfree (page n) end.
Fixpoint pages (n : nat) : list Z := match n with O => Sample.free | S n => page n :: pages n end.
Definition st : kstate := match more 8 base with Ret _ s => s | _ => base end.

Lemma page_fine k : (k < 100)%nat -> page_ok (page k).
Proof.
  intros Hk. unfold page. split; [|cbn; unfold PGSIZE, PHYSTOP; lia].
  rewrite Z.add_mod, Z.mod_mul by done. done.
Qed.

Lemma owned_low q : owned (k_mem Sample.st) Sample.tree Sample.free q -> q < KERNBASE + 0x54000.
Proof.
  intros [Ht|[Hf|(va & [Hva Hv] & <-)]].
  - apply Sample.is_table_st in Ht. unfold Sample.R, Sample.A, Sample.B in Ht. lia.
  - assert (q = KERNBASE + 0x30000 \/ q = KERNBASE + 0x40000) by (unfold Sample.free in Hf; set_solver). lia.
  - pose proof TRAPFRAME_MAXVA. unfold upage. rewrite Sample.leaf in Hv |- * by lia.
    destruct (va / PGSIZE =? 0); [|done]. rewrite PTE2PA_entry by (apply Sample.U_ok || done). unfold Sample.U. lia.
Qed.

Lemma more_ok n :
  (n <= 100)%nat -> exists f m, more n base = Ret tt (set_k_freelist f (set_k_mem m base)) /\
    as_inv (set_k_freelist f (set_k_mem m base)) Sample.tree (pages n) /\
    forall q, owned m Sample.tree (pages n) q -> q < KERNBASE + 0x54000 \/ exists k, (k < n)%nat /\ q = page k.
Proof.
  destruct sample_mem as [Em Ef]. assert (Hbase : quiet base /\ k_mem base = k_mem sample_grow /\ k_freelist base = k_freelist sample_grow).
  { split; [split; [|reflexivity]|]; [eexists; split; [reflexivity|]; by split_and!|]. unfold base. generalize sample_grow. by intros []. }
  destruct Hbase as (Hb & Em1 & Ef1). generalize dependent base. intros b Hb Em1 Ef1. induction n as [|n IH]; intros Hn.
  - exists (k_freelist b), (k_mem b). split; [|split].
    + by destruct b.
    + apply (as_inv_ext Sample.st); cbn; [by rewrite Em1|by rewrite Ef1|exact Sample.inv].
    + intros q Hq. left. apply owned_low. rewrite <- Em, <- Em1. exact Hq.
  - destruct IH as (f & m & E & I & Ho); [lia|]. set (s1 := set_k_freelist f (set_k_mem m b)) in *.
    assert (Hq : quiet s1) by (by apply quiet_set).
    destruct (kfree_page s1 Sample.tree (page n) (pages n) Hq I) as (m' & E' & I' & Ho' & _).
    { apply page_fine. lia. }
    { intros [H|(k & Hk & H)]%Ho; unfold page, PGSIZE in H; lia. }
    exists (page n), m'. split_and!.
    + cbn [more]. run E. exact E'.
    + exact I'.
    + intros q [->|[H|(k & Hk & H)]%Ho]%Ho'; [right; exists n; split; [lia|done]|by left|right]. exists k. split; [lia|done].
Qed.

Lemma forks_st : forks st 0 parent Sample.tree (pages 8) 0 zero_inode.
Proof.
  destruct (more_ok 8 ltac:(lia)) as (f & m & E & I & Ho). unfold st. rewrite E.
  set (s1 := set_k_freelist f (set_k_mem m base)) in *. pose proof (pi_kmem _ _ _ (as_pt _ _ _ I)) as Hk.
  assert (Hb : forall j, k_procs s1 !! j = if decide (j = 0%nat) then Some parent else k_procs boot !! j).
  { intros [|j]; [reflexivity|]. rewrite decide_False by done. reflexivity. }
  constructor.
  - eexists. split; [reflexivity|]. by split_and!.
  - reflexivity.
  - intros lk. reflexivity.
  - reflexivity.
  - reflexivity.
  - discriminate.
  - reflexivity.
  - split; [discriminate|reflexivity || discriminate].
  - exact Hk.
  - exact (inv_bystander s1 _ _ I).
  - split; [split; [reflexivity|cbn; lia]|]. intros Hin. destruct (Ho (p_trapframe parent)) as [H|(k & _ & H)]; [right; left; exact Hin|..];
      change (p_trapframe parent) with (KERNBASE + 0x54000) in H; unfold page, PGSIZE in H; lia.
  - split; [discriminate|reflexivity].
  - reflexivity.
  - reflexivity.
  - intros j q Hj Hun. rewrite Hb in Hj. destruct (decide (j = 0%nat)); [injection Hj as <-; discriminate Hun|].
    apply lookup_replicate_1 in Hj as [-> _]. split; reflexivity.
Qed.

Lemma st_rest : k_nextpid st = 1 /\ k_procs st = <[0%nat := parent]> (k_procs boot).
Proof. destruct (more_ok 8 ltac:(lia)) as (f & m & E & _). unfold st. rewrite E. split; reflexivity. Qed.

Lemma slot_1 : k_procs st !! 1%nat = Some zero_proc.
Proof. rewrite (proj2 st_rest). reflexivity. Qed.

Lemma pid_1 : k_nextpid st = 1.
Proof. apply st_rest. Qed.

Lemma first_slot j q : first_free (k_procs st) j q -> j = 1%nat.
Proof.
  rewrite (proj2 st_rest). intros (H & Hu & Hlow). destruct j as [|[|j]]; [|done|].
  - by simplify_eq/=.
  - by destruct (Hlow 1%nat zero_proc ltac:(lia) eq_refl).
Qed.
End ForkRun.

#[local] Existing Instance sample_layout.
#[local] Existing Instance Machine.ideal_disk.
#[local] Existing Instance Machine.wakeups.
#[local] Existing Instance ForkRun.text.

(** A process of one page and ten free pages: the first child gets pid 1. *)
Lemma kfork_forks_witness :
  exists s' c t', kfork ForkRun.st = Ret 1 s' /\ k_procs s' = <[1%nat := c]> (k_procs ForkRun.st) /\
    p_state c = RUNNABLE /\ uread (k_mem s') t' 0 = uread (k_mem ForkRun.st) Sample.tree 0.
Proof.
  destruct (kfork_forks ForkRun.st 0 ForkRun.parent Sample.tree (ForkRun.pages 8) 0 zero_inode ForkRun.forks_st)
    as (r & s' & E & _ & _ & _ & [(_ & _ & [H|H])|(-> & _ & j & q & c & t' & l' & Hj & C)]).
  - exfalso. apply (H 1%nat zero_proc); [exact ForkRun.slot_1|reflexivity].
  - exfalso. apply Z.lt_gt in H. discriminate H.
  - rewrite (ForkRun.first_slot j q Hj) in C. exists s', c, t'. split; [rewrite E; f_equal; exact ForkRun.pid_1|].
    split; [exact (cd_slot _ _ _ _ _ _ _ _ _ _ _ C)|]. split; [exact (proj1 (cd_fields _ _ _ _ _ _ _ _ _ _ _ C))|].
    refine (proj1 (cd_mem _ _ _ _ _ _ _ _ _ _ _ C 0 _)). split; [discriminate|reflexivity].
Defined.
