(* ===== verification/Exec.v ===== *)
(** kernel/exec.c: loading a program.  The ELF header and the program headers are
    decoded from the bytes of the file; every [goto bad] is a call of [exec_bad]
    with what has been set up so far. *)

From S2P Require Import Prelude Types Memory Spinlock Kalloc Vm Sched Sleeplock Bio Uart Printf Block Log Fs InitCode Proc.
Local Open Scope c_scope.

(** elf.h *)
Definition ELF_MAGIC : Z := 0x464C457F.
Definition ELF_PROG_LOAD : Z := 1.

Record elfhdr := mk_elfhdr { e_magic : Z; e_entry : Z; e_phoff : Z; e_phnum : Z }.
Definition ELFHDR_SIZE : Z := 64.
Definition get_elfhdr (l : list Z) : elfhdr :=
  mk_elfhdr (getle 4 0 l) (getle 8 24 l) (getle 8 32 l) (getle 2 56 l).

Record proghdr := mk_proghdr {
  ph_type : Z; ph_flags : Z; ph_off : Z; ph_vaddr : Z; ph_filesz : Z; ph_memsz : Z }.
Definition PROGHDR_SIZE : Z := 56.
Definition get_proghdr (l : list Z) : proghdr :=
  mk_proghdr (getle 4 0 l) (getle 4 4 l) (getle 8 8 l) (getle 8 16 l) (getle 8 32 l) (getle 8 40 l).

Definition flags2perm (flags : Z) : Z :=
  let perm := if Z.land flags 1 =? 0 then 0 else PTE_X in
  if Z.land flags 2 =? 0 then perm else Z.lor perm PTE_W.

(** string.c's [safestrcpy] into an array, of a string given without its NUL: when
    the loop has copied the NUL, the assignment after it stores a second one. *)
Definition safestrcpy_list (old t : list Z) (n : nat) : list Z :=
  let l := take (n - 1) (t ++ [0]) in l ++ [0] ++ drop (length l + 1) old.

(** [for (last = s = path; *s; s++) if ( *s == '/' ) last = s + 1;] *)
Fixpoint last_elem (last s : list Z) : list Z :=
  match s with [] => last | c :: s => last_elem (if c =? 47 then s else last) s end.

Section Exec.
Context {L : KernelLayout} {X : Text} {W : Wakeups} {D : DiskDriver}.

(** [for (i = 0; i < sz; i += PGSIZE)] *)
Fixpoint loadseg_loop (fuel : nat) (pagetable va : Z) (ip : nat) (offset sz i : Z) : K Z :=
  match fuel with
  | O => nofuel
  | S fuel =>
      if negb (i <? sz) then ret 0 else
      pa <- walkaddr pagetable (u64 (va + i)) ;;
      if pa =? 0 then panic "loadseg: address should exist" else
      let n := if sz - i <? PGSIZE then sz - i else PGSIZE in
      ' (r, _) <- readi ip (Dkern pa) (u32 (offset + i)) n ;;
      if negb (r =? n) then ret (-1) else
      loadseg_loop fuel pagetable va ip offset sz (u32 (i + PGSIZE))
  end.
Definition loadseg (pagetable va : Z) (ip : nat) (offset sz : Z) : K Z :=
  loadseg_loop (S (Z.to_nat (sz / PGSIZE + 1))) pagetable va ip offset sz 0.

(** From [bad:] on; [ip] is null once the file has been closed. *)
Definition exec_bad (pagetable sz : Z) (ip : option nat) : K Z :=
  when (negb (pagetable =? 0)) (proc_freepagetable pagetable sz) ;;
  match ip with Some ip => iunlockput ip ;; end_op | None => ret tt end ;;
  ret (-1).

(** [for (i = 0, off = elf.phoff; i < elf.phnum; i++, off += sizeof(ph))], [n] to
    go: [inl] a result to return, [inr] the size of the image. *)
Fixpoint exec_load (n : nat) (ip : nat) (pagetable off sz : Z) : K (Z + Z) :=
  match n with
  | O => ret (inr sz)
  | S n =>
      let bad sz := r <- exec_bad pagetable sz (Some ip) ;; ret (inl r) in
      ' (r, l) <- readi ip Dvar (u32 off) PROGHDR_SIZE ;;
      if negb (r =? PROGHDR_SIZE) then bad sz else
      let ph := get_proghdr l in
      if negb (ph_type ph =? ELF_PROG_LOAD) then exec_load n ip pagetable (i32 (off + PROGHDR_SIZE)) sz else
      if ph_memsz ph <? ph_filesz ph then bad sz else
      if u64 (ph_vaddr ph + ph_memsz ph) <? ph_vaddr ph then bad sz else
      if negb (ph_vaddr ph mod PGSIZE =? 0) then bad sz else
      sz1 <- uvmalloc pagetable sz (u64 (ph_vaddr ph + ph_memsz ph)) (flags2perm (i32 (ph_flags ph))) ;;
      if sz1 =? 0 then bad sz else
      r <- loadseg pagetable (ph_vaddr ph) ip (u32 (ph_off ph)) (u32 (ph_filesz ph)) ;;
      if r <? 0 then bad sz1 else
      exec_load n ip pagetable (i32 (off + PROGHDR_SIZE)) sz1
  end.

(** [for (argc = 0; argv[argc]; argc++)] over the strings of [argv]: [None] for
    [goto bad], else the stack pointer and [ustack]. *)
Fixpoint exec_args (argv : list (list Z)) (pagetable sp stackbase : Z) (ustack : list Z) : K (option (Z * list Z)) :=
  match argv with
  | [] => ret (Some (sp, ustack))
  | arg :: argv =>
      let sp := u64 (sp - (Z.of_nat (length arg) + 1)) in
      let sp := sp - sp mod 16 in
      if sp <? stackbase then ret None else
      r <- copyout pagetable sp (arg ++ [0]) ;;
      if r <? 0 then ret None else
      if decide (length ustack < MAXARG)%nat then exec_args argv pagetable sp stackbase (ustack ++ [sp])
      else fault "ustack"
  end.

(** After the file has been closed: the stack, the arguments, and the switch to
    the new image. *)
Definition exec_stack (p : nat) (path : list Z) (argv : list (list Z)) (elf : elfhdr) (pagetable sz : Z) : K Z :=
  pr <- get_proc p ;;
  let oldsz := p_sz pr in
  let sz := PGROUNDUP sz in
  sz1 <- uvmalloc pagetable sz (u64 (sz + (USERSTACK + 1) * PGSIZE)) PTE_W ;;
  if sz1 =? 0 then exec_bad pagetable sz None else
  let sz := sz1 in
  uvmclear pagetable (u64 (sz - (USERSTACK + 1) * PGSIZE)) ;;
  let stackbase := u64 (sz - USERSTACK * PGSIZE) in
  a <- exec_args argv pagetable sz stackbase [] ;;
  match a with
  | None => exec_bad pagetable sz None
  | Some (sp, ustack) =>
      if decide (MAXARG <= length ustack)%nat then fault "ustack" else
      let argc := Z.of_nat (length ustack) in
      let sp := u64 (sp - (argc + 1) * 8) in
      let sp := sp - sp mod 16 in
      if sp <? stackbase then exec_bad pagetable sz None else
      r <- copyout pagetable sp (concat (le_enc 8 <$> ustack ++ [0])) ;;
      if r <? 0 then exec_bad pagetable sz None else
      tf_put p (TF_a 1) sp ;;
      upd_proc p (fun x => set_p_name (safestrcpy_list (p_name x) (last_elem path path) 16) x) ;;
      pr <- get_proc p ;;
      let oldpagetable := p_pagetable pr in
      upd_proc p (set_p_pagetable pagetable) ;;
      upd_proc p (set_p_sz sz) ;;
      tf_put p TF_epc (e_entry elf) ;;
      tf_put p TF_sp sp ;;
      proc_freepagetable oldpagetable oldsz ;;
      ret (i32 argc)
  end.

Definition kexec (path : list Z) (argv : list (list Z)) : K Z :=
  p <- me ;;
  begin_op ;;
  ip <- namei path ;;
  match ip with
  | None => end_op ;; ret (-1)
  | Some ip =>
      ilock ip ;;
      ' (r, l) <- readi ip Dvar 0 ELFHDR_SIZE ;;
      if negb (r =? ELFHDR_SIZE) then exec_bad 0 0 (Some ip) else
      let elf := get_elfhdr l in
      if negb (e_magic elf =? ELF_MAGIC) then exec_bad 0 0 (Some ip) else
      pagetable <- proc_pagetable p ;;
      if pagetable =? 0 then exec_bad 0 0 (Some ip) else
      r <- exec_load (Z.to_nat (e_phnum elf)) ip pagetable (i32 (e_phoff elf)) 0 ;;
      match r with
      | inl r => ret r
      | inr sz =>
          iunlockput ip ;;
          end_op ;;
          p <- me ;;
          exec_stack p path argv elf pagetable sz
      end
  end.

End Exec.
