(* ===== verification/Mach.v ===== *)
(** The machine around the kernel state: the virtio disk with its queue, the
    control and status registers of the running hart, the interrupt controller,
    and the static variables of sysproc.c and proc.c that only system calls and
    [forkret] use.  Kernel code that does not touch these is lifted. *)

From stdpp Require Export functions.
From S2P Require Import Prelude Types Memory Spinlock.

(** * The virtio disk (virtio.h, virtio_disk.c) *)

Definition NUM : nat := 8.

(** What a descriptor points at: a request header [disk.ops[i]], the data of
    buffer [i], the status byte [disk.info[i].status]. *)
Inductive vptr := VP_null | VP_op (i : nat) | VP_data (i : nat) | VP_status (i : nat).

(** virtio.h: [struct virtq_desc] *)
Record virtq_desc := mk_desc {
  d_addr : vptr;
  d_len : Z;
  d_flags : Z;
  d_next : Z;
}.
Definition set_d_addr (x : vptr) (r : virtq_desc) : virtq_desc :=
  mk_desc x (d_len r) (d_flags r) (d_next r).
Definition set_d_len (x : Z) (r : virtq_desc) : virtq_desc :=
  mk_desc (d_addr r) x (d_flags r) (d_next r).
Definition set_d_flags (x : Z) (r : virtq_desc) : virtq_desc :=
  mk_desc (d_addr r) (d_len r) x (d_next r).
Definition set_d_next (x : Z) (r : virtq_desc) : virtq_desc :=
  mk_desc (d_addr r) (d_len r) (d_flags r) x.
Definition zero_desc : virtq_desc := mk_desc VP_null 0 0 0.

(** virtio.h: [struct virtio_blk_req] *)
Record blk_req := mk_blk_req {
  br_type : Z;
  br_reserved : Z;
  br_sector : Z;
}.
Definition set_br_type (x : Z) (r : blk_req) : blk_req :=
  mk_blk_req x (br_reserved r) (br_sector r).
Definition set_br_reserved (x : Z) (r : blk_req) : blk_req :=
  mk_blk_req (br_type r) x (br_sector r).
Definition set_br_sector (x : Z) (r : blk_req) : blk_req :=
  mk_blk_req (br_type r) (br_reserved r) x.

(** An element of [disk.info]. *)
Record vinfo := mk_vinfo {
  vi_b : option nat;  (* the buffer, an index into bcache.buf *)
  vi_status : Z;
}.
Definition set_vi_b (x : option nat) (r : vinfo) : vinfo :=
  mk_vinfo x (vi_status r).
Definition set_vi_status (x : Z) (r : vinfo) : vinfo :=
  mk_vinfo (vi_b r) x.

(** virtio_disk.c: [disk], with the arrays its pages hold, and the registers of the device. *)
Record vdisk := mk_vdisk {
  vd_pages : Z * Z * Z;  (* the pages of desc, avail and used *)
  vd_desc : list virtq_desc;  (* disk.desc[NUM] *)
  vd_avail_idx : Z;  (* disk.avail->idx *)
  vd_avail : list Z;  (* disk.avail->ring[NUM] *)
  vd_uidx : Z;  (* disk.used->idx, written by the device *)
  vd_used : list Z;  (* the ids in disk.used->ring[NUM], written by the device *)
  vd_free : list bool;  (* disk.free[NUM] *)
  vd_used_idx : Z;  (* disk.used_idx *)
  vd_info : list vinfo;  (* disk.info[NUM] *)
  vd_ops : list blk_req;  (* disk.ops[NUM] *)
  vd_regs : gmap Z Z;  (* the registers, by offset *)
  vd_accepts : bool;  (* does the device accept the negotiated features? *)
}.
Definition set_vd_pages (x : Z * Z * Z) (r : vdisk) : vdisk :=
  mk_vdisk x (vd_desc r) (vd_avail_idx r) (vd_avail r) (vd_uidx r) (vd_used r) (vd_free r) (vd_used_idx r) (vd_info r) (vd_ops r) (vd_regs r) (vd_accepts r).
Definition set_vd_desc (x : list virtq_desc) (r : vdisk) : vdisk :=
  mk_vdisk (vd_pages r) x (vd_avail_idx r) (vd_avail r) (vd_uidx r) (vd_used r) (vd_free r) (vd_used_idx r) (vd_info r) (vd_ops r) (vd_regs r) (vd_accepts r).
Definition set_vd_avail_idx (x : Z) (r : vdisk) : vdisk :=
  mk_vdisk (vd_pages r) (vd_desc r) x (vd_avail r) (vd_uidx r) (vd_used r) (vd_free r) (vd_used_idx r) (vd_info r) (vd_ops r) (vd_regs r) (vd_accepts r).
Definition set_vd_avail (x : list Z) (r : vdisk) : vdisk :=
  mk_vdisk (vd_pages r) (vd_desc r) (vd_avail_idx r) x (vd_uidx r) (vd_used r) (vd_free r) (vd_used_idx r) (vd_info r) (vd_ops r) (vd_regs r) (vd_accepts r).
Definition set_vd_uidx (x : Z) (r : vdisk) : vdisk :=
  mk_vdisk (vd_pages r) (vd_desc r) (vd_avail_idx r) (vd_avail r) x (vd_used r) (vd_free r) (vd_used_idx r) (vd_info r) (vd_ops r) (vd_regs r) (vd_accepts r).
Definition set_vd_used (x : list Z) (r : vdisk) : vdisk :=
  mk_vdisk (vd_pages r) (vd_desc r) (vd_avail_idx r) (vd_avail r) (vd_uidx r) x (vd_free r) (vd_used_idx r) (vd_info r) (vd_ops r) (vd_regs r) (vd_accepts r).
Definition set_vd_free (x : list bool) (r : vdisk) : vdisk :=
  mk_vdisk (vd_pages r) (vd_desc r) (vd_avail_idx r) (vd_avail r) (vd_uidx r) (vd_used r) x (vd_used_idx r) (vd_info r) (vd_ops r) (vd_regs r) (vd_accepts r).
Definition set_vd_used_idx (x : Z) (r : vdisk) : vdisk :=
  mk_vdisk (vd_pages r) (vd_desc r) (vd_avail_idx r) (vd_avail r) (vd_uidx r) (vd_used r) (vd_free r) x (vd_info r) (vd_ops r) (vd_regs r) (vd_accepts r).
Definition set_vd_info (x : list vinfo) (r : vdisk) : vdisk :=
  mk_vdisk (vd_pages r) (vd_desc r) (vd_avail_idx r) (vd_avail r) (vd_uidx r) (vd_used r) (vd_free r) (vd_used_idx r) x (vd_ops r) (vd_regs r) (vd_accepts r).
Definition set_vd_ops (x : list blk_req) (r : vdisk) : vdisk :=
  mk_vdisk (vd_pages r) (vd_desc r) (vd_avail_idx r) (vd_avail r) (vd_uidx r) (vd_used r) (vd_free r) (vd_used_idx r) (vd_info r) x (vd_regs r) (vd_accepts r).
Definition set_vd_regs (x : gmap Z Z) (r : vdisk) : vdisk :=
  mk_vdisk (vd_pages r) (vd_desc r) (vd_avail_idx r) (vd_avail r) (vd_uidx r) (vd_used r) (vd_free r) (vd_used_idx r) (vd_info r) (vd_ops r) x (vd_accepts r).
Definition set_vd_accepts (x : bool) (r : vdisk) : vdisk :=
  mk_vdisk (vd_pages r) (vd_desc r) (vd_avail_idx r) (vd_avail r) (vd_uidx r) (vd_used r) (vd_free r) (vd_used_idx r) (vd_info r) (vd_ops r) (vd_regs r) x.

(** * The machine *)

(** riscv.h: the control and status registers the kernel uses.  The bit
    [SSTATUS_SIE] of [sstatus] is [c_sie] of the hart. *)
Inductive csr :=
| C_sstatus | C_sepc | C_scause | C_stval | C_stvec | C_satp | C_sie | C_stimecmp | C_time
| C_mstatus | C_mepc | C_medeleg | C_mideleg | C_pmpaddr0 | C_pmpcfg0 | C_menvcfg | C_mcounteren | C_mhartid.

#[global] Instance csr_eq_dec : EqDecision csr.
Proof. solve_decision. Defined.

(** plic.c: the interrupt controller. *)
Record plic := mk_plic {
  pl_regs : gmap Z Z;  (* priorities, enables and thresholds, by address *)
  pl_claims : list Z;  (* answers of the next claims; 0 when there are none *)
  pl_done : list Z;  (* completed interrupts, oldest first *)
}.
Definition set_pl_regs (x : gmap Z Z) (r : plic) : plic :=
  mk_plic x (pl_claims r) (pl_done r).
Definition set_pl_claims (x : list Z) (r : plic) : plic :=
  mk_plic (pl_regs r) x (pl_done r).
Definition set_pl_done (x : list Z) (r : plic) : plic :=
  mk_plic (pl_regs r) (pl_claims r) x.

(** Everything. *)
Record mach := mk_mach {
  m_k : kstate;  (* the kernel *)
  m_vd : vdisk;
  m_csr : csr -> Z;  (* of the running hart *)
  m_plic : plic;
  m_nextfd : Z;  (* nextfd in sys_dup *)
  m_first : bool;  (* first in forkret *)
}.
Definition set_m_k (x : kstate) (r : mach) : mach :=
  mk_mach x (m_vd r) (m_csr r) (m_plic r) (m_nextfd r) (m_first r).
Definition set_m_vd (x : vdisk) (r : mach) : mach :=
  mk_mach (m_k r) x (m_csr r) (m_plic r) (m_nextfd r) (m_first r).
Definition set_m_csr (x : csr -> Z) (r : mach) : mach :=
  mk_mach (m_k r) (m_vd r) x (m_plic r) (m_nextfd r) (m_first r).
Definition set_m_plic (x : plic) (r : mach) : mach :=
  mk_mach (m_k r) (m_vd r) (m_csr r) x (m_nextfd r) (m_first r).
Definition set_m_nextfd (x : Z) (r : mach) : mach :=
  mk_mach (m_k r) (m_vd r) (m_csr r) (m_plic r) x (m_first r).
Definition set_m_first (x : bool) (r : mach) : mach :=
  mk_mach (m_k r) (m_vd r) (m_csr r) (m_plic r) (m_nextfd r) x.

Abbreviation H := (M mach).

(** Kernel code in the machine. *)
Fixpoint lift_out {A} (o : outcome kstate A) (s : mach) : outcome mach A :=
  match o with
  | Ret a k => Ret a (set_m_k k s)
  | Panic msg k => Panic msg (set_m_k k s)
  | Asleep k r => Asleep (set_m_k k s) (fun s' => lift_out (r (m_k s')) s')
  | Fault what => Fault what
  | Spin => Spin
  | NoFuel => NoFuel
  end.
Definition lift {A} (m : K A) : H A := fun s => lift_out (m (m_k s)) s.

Lemma lift_Ret {A} (m : K A) s a k : m (m_k s) = Ret a k -> lift m s = Ret a (set_m_k k s).
Proof. intros E. unfold lift. by rewrite E. Qed.

Definition r_csr (c : csr) : H Z := gets (fun s => m_csr s c).
Definition w_csr (c : csr) (v : Z) : H unit := modify (fun s => set_m_csr (<[c := v]> (m_csr s)) s).

(** [disk.f] and [disk.f = v] *)
Definition upd_vd (f : vdisk -> vdisk) : H unit := modify (fun s => set_m_vd (f (m_vd s)) s).
Definition get_vd : H vdisk := gets m_vd.
