(* ===== verification/Virtio.v ===== *)
(** kernel/virtio_disk.c: the driver of the virtio disk. *)

From S2P Require Import Prelude Types Memory Spinlock Kalloc Vm Sched Sleeplock Bio Mach.
Local Open Scope Z_scope.
Local Open Scope c_scope.

(** virtio.h: register offsets and bits *)
Definition VIRTIO_MMIO_MAGIC_VALUE : Z := 0x000.
Definition VIRTIO_MMIO_VERSION : Z := 0x004.
Definition VIRTIO_MMIO_DEVICE_ID : Z := 0x008.
Definition VIRTIO_MMIO_VENDOR_ID : Z := 0x00c.
Definition VIRTIO_MMIO_DEVICE_FEATURES : Z := 0x010.
Definition VIRTIO_MMIO_DRIVER_FEATURES : Z := 0x020.
Definition VIRTIO_MMIO_QUEUE_SEL : Z := 0x030.
Definition VIRTIO_MMIO_QUEUE_NUM_MAX : Z := 0x034.
Definition VIRTIO_MMIO_QUEUE_NUM : Z := 0x038.
Definition VIRTIO_MMIO_QUEUE_READY : Z := 0x044.
Definition VIRTIO_MMIO_QUEUE_NOTIFY : Z := 0x050.
Definition VIRTIO_MMIO_INTERRUPT_STATUS : Z := 0x060.
Definition VIRTIO_MMIO_INTERRUPT_ACK : Z := 0x064.
Definition VIRTIO_MMIO_STATUS : Z := 0x070.
Definition VIRTIO_MMIO_QUEUE_DESC_LOW : Z := 0x080.
Definition VIRTIO_MMIO_QUEUE_DESC_HIGH : Z := 0x084.
Definition VIRTIO_MMIO_DRIVER_DESC_LOW : Z := 0x090.
Definition VIRTIO_MMIO_DRIVER_DESC_HIGH : Z := 0x094.
Definition VIRTIO_MMIO_DEVICE_DESC_LOW : Z := 0x0a0.
Definition VIRTIO_MMIO_DEVICE_DESC_HIGH : Z := 0x0a4.
Definition VIRTIO_CONFIG_S_ACKNOWLEDGE : Z := 1.
Definition VIRTIO_CONFIG_S_DRIVER : Z := 2.
Definition VIRTIO_CONFIG_S_DRIVER_OK : Z := 4.
Definition VIRTIO_CONFIG_S_FEATURES_OK : Z := 8.
Definition VIRTIO_BLK_F_RO : Z := 5.
Definition VIRTIO_BLK_F_SCSI : Z := 7.
Definition VIRTIO_BLK_F_FLUSH : Z := 9.
Definition VIRTIO_BLK_F_CONFIG_WCE : Z := 11.
Definition VIRTIO_BLK_F_MQ : Z := 12.
Definition VIRTIO_F_ANY_LAYOUT : Z := 27.
Definition VIRTIO_RING_F_INDIRECT_DESC : Z := 28.
Definition VIRTIO_RING_F_EVENT_IDX : Z := 29.
Definition VRING_DESC_F_NEXT : Z := 1.
Definition VRING_DESC_F_WRITE : Z := 2.
Definition VIRTIO_BLK_T_IN : Z := 0.
Definition VIRTIO_BLK_T_OUT : Z := 1.

(** [*R(r)] and [*R(r) = v]; a device that does not accept the features clears
    FEATURES_OK again (virtio 1.1, 3.1.1). *)
Definition r_reg (r : Z) : H Z := gets (fun s => default 0 (vd_regs (m_vd s) !! r)).
Definition w_reg (r v : Z) : H unit :=
  upd_vd (fun d =>
    let v := if (r =? VIRTIO_MMIO_STATUS) && negb (vd_accepts d)
             then Z.land v (Z.lnot VIRTIO_CONFIG_S_FEATURES_OK) else v in
    set_vd_regs (<[r := u32 v]> (vd_regs d)) d).

(** [features &= ~(1 << b)] for each [b] *)
Definition drop_features (features : Z) (bits : list Z) : Z :=
  fold_left (fun f b => Z.land f (Z.lnot (Z.shiftl 1 b))) bits features.

Section Virtio.
Context {L : KernelLayout} {W : Wakeups}.

Definition virtio_disk_init : H unit :=
  lift (initlock LK_vdisk) ;;
  magic <- r_reg VIRTIO_MMIO_MAGIC_VALUE ;;
  version <- r_reg VIRTIO_MMIO_VERSION ;;
  device <- r_reg VIRTIO_MMIO_DEVICE_ID ;;
  vendor <- r_reg VIRTIO_MMIO_VENDOR_ID ;;
  if negb (magic =? 0x74726976) || negb (version =? 2) || negb (device =? 2) || negb (vendor =? 0x554d4551)
  then panic "could not find virtio disk" else
  w_reg VIRTIO_MMIO_STATUS 0 ;;
  let status := VIRTIO_CONFIG_S_ACKNOWLEDGE in
  w_reg VIRTIO_MMIO_STATUS status ;;
  let status := Z.lor status VIRTIO_CONFIG_S_DRIVER in
  w_reg VIRTIO_MMIO_STATUS status ;;
  features <- r_reg VIRTIO_MMIO_DEVICE_FEATURES ;;
  w_reg VIRTIO_MMIO_DRIVER_FEATURES
    (drop_features features [VIRTIO_BLK_F_RO; VIRTIO_BLK_F_SCSI; VIRTIO_BLK_F_FLUSH; VIRTIO_BLK_F_CONFIG_WCE;
       VIRTIO_BLK_F_MQ; VIRTIO_F_ANY_LAYOUT; VIRTIO_RING_F_EVENT_IDX; VIRTIO_RING_F_INDIRECT_DESC]) ;;
  let status := Z.lor status VIRTIO_CONFIG_S_FEATURES_OK in
  w_reg VIRTIO_MMIO_STATUS status ;;
  status <- r_reg VIRTIO_MMIO_STATUS ;;
  if negb (has VIRTIO_CONFIG_S_FEATURES_OK status) then panic "virtio disk FEATURES_OK unset" else
  w_reg VIRTIO_MMIO_QUEUE_SEL 0 ;;
  ready <- r_reg VIRTIO_MMIO_QUEUE_READY ;;
  if negb (ready =? 0) then panic "virtio disk should not be ready" else
  max <- r_reg VIRTIO_MMIO_QUEUE_NUM_MAX ;;
  if max =? 0 then panic "virtio disk has no queue 0" else
  if max <? Z.of_nat NUM then panic "virtio disk max queue too short" else
  desc <- lift kalloc ;;
  avail <- lift kalloc ;;
  used <- lift kalloc ;;
  upd_vd (set_vd_pages (desc, avail, used)) ;;
  if (desc =? 0) || (avail =? 0) || (used =? 0) then panic "virtio disk kalloc" else
  lift (mem_upd (fun m => memset m desc 0 PGSIZE)) ;;
  upd_vd (set_vd_desc (replicate NUM zero_desc)) ;;
  lift (mem_upd (fun m => memset m avail 0 PGSIZE)) ;;
  upd_vd (fun d => set_vd_avail_idx 0 (set_vd_avail (replicate NUM 0) d)) ;;
  lift (mem_upd (fun m => memset m used 0 PGSIZE)) ;;
  upd_vd (fun d => set_vd_uidx 0 (set_vd_used (replicate NUM 0) d)) ;;
  w_reg VIRTIO_MMIO_QUEUE_NUM (Z.of_nat NUM) ;;
  w_reg VIRTIO_MMIO_QUEUE_DESC_LOW desc ;;
  w_reg VIRTIO_MMIO_QUEUE_DESC_HIGH (Z.shiftr desc 32) ;;
  w_reg VIRTIO_MMIO_DRIVER_DESC_LOW avail ;;
  w_reg VIRTIO_MMIO_DRIVER_DESC_HIGH (Z.shiftr avail 32) ;;
  w_reg VIRTIO_MMIO_DEVICE_DESC_LOW used ;;
  w_reg VIRTIO_MMIO_DEVICE_DESC_HIGH (Z.shiftr used 32) ;;
  w_reg VIRTIO_MMIO_QUEUE_READY 1 ;;
  upd_vd (set_vd_free (replicate NUM true)) ;;
  w_reg VIRTIO_MMIO_STATUS (Z.lor status VIRTIO_CONFIG_S_DRIVER_OK).

(** * Descriptors *)

(** [disk.desc[i] = f(disk.desc[i])] *)
Definition upd_desc (i : Z) (f : virtq_desc -> virtq_desc) : H unit :=
  d <- get_vd ;;
  x <- deref "desc" (vd_desc d !! Z.to_nat i) ;;
  upd_vd (set_vd_desc (<[Z.to_nat i := f x]> (vd_desc d))).

(** [for (int i = 0; i < NUM; i++)], [n] to go *)
Fixpoint alloc_desc_loop (n : nat) (i : nat) : H Z :=
  match n with
  | O => ret (-1)
  | S n =>
      d <- get_vd ;;
      b <- deref "free" (vd_free d !! i) ;;
      if (b : bool) then upd_vd (set_vd_free (<[i := false]> (vd_free d))) ;; ret (Z.of_nat i)
      else alloc_desc_loop n (S i)
  end.
Definition alloc_desc : H Z := alloc_desc_loop NUM 0.

Definition free_desc (i : Z) : H unit :=
  if Z.of_nat NUM <=? i then panic "free_desc 1" else
  d <- get_vd ;;
  b <- deref "free" (vd_free d !! Z.to_nat i) ;;
  if (b : bool) then panic "free_desc 2" else
  upd_desc i (fun _ => zero_desc) ;;
  d <- get_vd ;;
  upd_vd (set_vd_free (<[Z.to_nat i := true]> (vd_free d))) ;;
  lift (wakeup CH_disk_free).

(** [while (1)]: a descriptor is freed once, so there are at most [NUM] turns. *)
Fixpoint free_chain_loop (fuel : nat) (i : Z) : H unit :=
  match fuel with
  | O => nofuel
  | S fuel =>
      d <- get_vd ;;
      x <- deref "desc" (vd_desc d !! Z.to_nat i) ;;
      free_desc i ;;
      if has VRING_DESC_F_NEXT (d_flags x) then free_chain_loop fuel (d_next x) else ret tt
  end.
Definition free_chain (i : Z) : H unit := free_chain_loop (S NUM) i.

(** [for (int j = 0; j < i; j++) free_desc(idx[j]);] *)
Fixpoint free_descs (idx : list Z) : H unit :=
  match idx with [] => ret tt | i :: idx => free_desc i ;; free_descs idx end.

(** [for (int i = 0; i < 3; i++)], [n] to go; [idx] are the descriptors so far *)
Fixpoint alloc3_desc_loop (n : nat) (idx : list Z) : H (option (list Z)) :=
  match n with
  | O => ret (Some idx)
  | S n =>
      i <- alloc_desc ;;
      if i <? 0 then free_descs idx ;; ret None else
      alloc3_desc_loop n (idx ++ [i])
  end.
Definition alloc3_desc : H (option (list Z)) := alloc3_desc_loop 3 [].

(** * Requests *)

(** [while (1)] around [alloc3_desc] *)
Fixpoint rw_alloc (fuel : nat) : H (list Z) :=
  match fuel with
  | O => nofuel
  | S fuel =>
      r <- alloc3_desc ;;
      match r with
      | Some idx => ret idx
      | None => lift (sleep CH_disk_free LK_vdisk) ;; rw_alloc fuel
      end
  end.

(** Format the three descriptors of a request for buffer [b]. *)
Definition rw_format (b : nat) (write : bool) (sector : Z) (idx : list Z) : H unit :=
  i0 <- deref "idx" (idx !! 0%nat) ;;
  i1 <- deref "idx" (idx !! 1%nat) ;;
  i2 <- deref "idx" (idx !! 2%nat) ;;
  let op := mk_blk_req (if write then VIRTIO_BLK_T_OUT else VIRTIO_BLK_T_IN) 0 sector in
  upd_vd (fun d => set_vd_ops (<[Z.to_nat i0 := op]> (vd_ops d)) d) ;;
  upd_desc i0 (fun _ => mk_desc (VP_op (Z.to_nat i0)) 16 VRING_DESC_F_NEXT i1) ;;
  upd_desc i1 (fun _ => mk_desc (VP_data b) BSIZE
                          (Z.lor (if write then 0 else VRING_DESC_F_WRITE) VRING_DESC_F_NEXT) i2) ;;
  d <- get_vd ;;
  inf <- deref "info" (vd_info d !! Z.to_nat i0) ;;
  upd_vd (set_vd_info (<[Z.to_nat i0 := set_vi_status 0xff inf]> (vd_info d))) ;;
  upd_desc i2 (fun _ => mk_desc (VP_status (Z.to_nat i0)) 1 VRING_DESC_F_WRITE 0) ;;
  lift (upd_buf b (set_b_disk true)) ;;
  upd_vd (fun d => set_vd_info (alter (set_vi_b (Some b)) (Z.to_nat i0) (vd_info d)) d).

(** Put the head of the chain into the avail ring and notify the device. *)
Definition rw_submit (i0 : Z) : H unit :=
  upd_vd (fun d => set_vd_avail (<[Z.to_nat (vd_avail_idx d mod Z.of_nat NUM) := u16 i0]> (vd_avail d)) d) ;;
  upd_vd (fun d => set_vd_avail_idx (u16 (vd_avail_idx d + 1)) d) ;;
  w_reg VIRTIO_MMIO_QUEUE_NOTIFY 0.

(** [while (b->disk == 1) sleep(b, &disk.vdisk_lock);] *)
Fixpoint rw_wait (fuel : nat) (b : nat) : H unit :=
  match fuel with
  | O => nofuel
  | S fuel =>
      x <- lift (get_buf b) ;;
      if b_disk x then lift (sleep (CH_buf b) LK_vdisk) ;; rw_wait fuel b else ret tt
  end.

Definition disk_rw (b : nat) (write : bool) : H unit :=
  x <- lift (get_buf b) ;;
  let sector := u32 (b_blockno x * (BSIZE / 512)) in
  lift (acquire LK_vdisk) ;;
  idx <- rw_alloc (S n_wakeups) ;;
  rw_format b write sector idx ;;
  i0 <- deref "idx" (idx !! 0%nat) ;;
  rw_submit i0 ;;
  rw_wait (S (S n_wakeups)) b ;;
  upd_vd (fun d => set_vd_info (alter (set_vi_b None) (Z.to_nat i0) (vd_info d)) d) ;;
  free_chain i0 ;;
  lift (release LK_vdisk).

(** [while (disk.used_idx != disk.used->idx)] *)
Fixpoint disk_intr_loop (fuel : nat) : H unit :=
  match fuel with
  | O => nofuel
  | S fuel =>
      d <- get_vd ;;
      if vd_used_idx d =? vd_uidx d then ret tt else
      id <- deref "used ring" (vd_used d !! Z.to_nat (vd_used_idx d mod Z.of_nat NUM)) ;;
      inf <- deref "info" (vd_info d !! Z.to_nat id) ;;
      if negb (vi_status inf =? 0) then panic "virtio_disk_intr status" else
      b <- deref "info.b" (vi_b inf) ;;
      lift (upd_buf b (set_b_disk false)) ;;
      lift (wakeup (CH_buf b)) ;;
      upd_vd (fun d => set_vd_used_idx (u16 (vd_used_idx d + 1)) d) ;;
      disk_intr_loop fuel
  end.
Definition virtio_disk_intr : H unit :=
  lift (acquire LK_vdisk) ;;
  st <- r_reg VIRTIO_MMIO_INTERRUPT_STATUS ;;
  w_reg VIRTIO_MMIO_INTERRUPT_ACK (Z.land st 3) ;;
  n <- gets (fun s => u16 (vd_uidx (m_vd s) - vd_used_idx (m_vd s))) ;;
  disk_intr_loop (S (Z.to_nat n)) ;;
  lift (release LK_vdisk).

End Virtio.
