(* ===== verification/VirtioSpec.v ===== *)
(** The disk driver keeps its promise to the buffer cache: a request made by
    [virtio_disk_rw] puts the process to sleep, the device and the interrupt
    handler complete it, and the process goes on with the block transferred.

    The device is a parameter whose behaviour is that of the virtio
    specification for a queue with one request. *)

From S2P Require Import Prelude Types Memory Spinlock Kalloc Vm Sched Sleeplock Bio Crash Proc SleepWake Mach Virtio.
Local Open Scope Z_scope.
Local Open Scope c_scope.

(** * The device *)

Definition ring_slot (i : Z) : nat := Z.to_nat (i mod Z.of_nat NUM).

(** What the device may do to the memory it shares with the driver. *)
Class Device := dev_run : mach -> mach.

(** The request is done: status 0, an entry in the used ring. *)
Definition completed (h : Z) (t : nat) (d : vdisk) : vdisk :=
  set_vd_uidx (u16 (vd_uidx d + 1))
    (set_vd_used (<[ring_slot (vd_uidx d) := h]> (vd_used d))
      (set_vd_info (alter (set_vi_status 0) t (vd_info d)) d)).

(** virtio 1.1, 2.6 and 5.2.6: with one request in the avail ring, a chain of
    header, data and status, the device transfers the block at the sector and
    completes the request. *)
Class DeviceContract `{V : Device} : Prop := {
  dev_write s h i1 i2 o i t n b :
    let d := m_vd s in
    vd_avail_idx d = u16 (vd_uidx d + 1) -> vd_avail d !! ring_slot (vd_uidx d) = Some h ->
    vd_desc d !! Z.to_nat h = Some (mk_desc (VP_op o) 16 VRING_DESC_F_NEXT i1) ->
    vd_desc d !! Z.to_nat i1 = Some (mk_desc (VP_data i) BSIZE VRING_DESC_F_NEXT i2) ->
    vd_desc d !! Z.to_nat i2 = Some (mk_desc (VP_status t) 1 VRING_DESC_F_WRITE 0) ->
    vd_ops d !! o = Some (mk_blk_req VIRTIO_BLK_T_OUT 0 (n * (BSIZE / 512))) ->
    bc_buf (k_bcache (m_k s)) !! i = Some b ->
    dev_run s = set_m_vd (completed h t d) (set_m_k (set_k_disk (dk_write (k_disk (m_k s)) n (b_data b)) (m_k s)) s);
  dev_read s h i1 i2 o i t n b :
    let d := m_vd s in
    vd_avail_idx d = u16 (vd_uidx d + 1) -> vd_avail d !! ring_slot (vd_uidx d) = Some h ->
    vd_desc d !! Z.to_nat h = Some (mk_desc (VP_op o) 16 VRING_DESC_F_NEXT i1) ->
    vd_desc d !! Z.to_nat i1 =
      Some (mk_desc (VP_data i) BSIZE (Z.lor VRING_DESC_F_WRITE VRING_DESC_F_NEXT) i2) ->
    vd_desc d !! Z.to_nat i2 = Some (mk_desc (VP_status t) 1 VRING_DESC_F_WRITE 0) ->
    vd_ops d !! o = Some (mk_blk_req VIRTIO_BLK_T_IN 0 (n * (BSIZE / 512))) ->
    bc_buf (k_bcache (m_k s)) !! i = Some b ->
    dev_run s = set_m_vd (completed h t d) (set_m_k (with_buf i (set_b_data (dk_block (k_disk (m_k s)) n) b) (m_k s)) s)
}.

(** * States *)

Definition mach_at (s : mach) (k : kstate) (d : vdisk) : mach := set_m_vd d (set_m_k k s).

Lemma lift_at {A} (m : K A) s k d a k' : m k = Ret a k' -> lift m (mach_at s k d) = Ret a (mach_at s k' d).
Proof. intros E. unfold lift. cbn. by rewrite E. Qed.

(** No request is in flight and every descriptor is free. *)
Record vd_idle (d : vdisk) : Prop := {
  vq_desc : length (vd_desc d) = NUM;
  vq_avail : length (vd_avail d) = NUM;
  vq_used : length (vd_used d) = NUM;
  vq_info : length (vd_info d) = NUM;
  vq_ops : length (vd_ops d) = NUM;
  vq_free : vd_free d = replicate NUM true;
  vq_seen : vd_used_idx d = vd_uidx d;
  vq_next : vd_avail_idx d = vd_uidx d;
  vq_range : 0 <= vd_uidx d < 2 ^ 16
}.

Lemma upd_desc_at s k d i f x :
  vd_desc d !! Z.to_nat i = Some x ->
  upd_desc i f (mach_at s k d) = Ret tt (mach_at s k (set_vd_desc (<[Z.to_nat i := f x]> (vd_desc d)) d)).
Proof. intros E. unfold upd_desc, get_vd, gets, bind. cbn. by rewrite E. Qed.

(** The first three descriptors are taken. *)
Definition taken : list bool := [false; false; false; true; true; true; true; true].

Lemma rw_alloc_idle `{W : Wakeups} n s k d :
  vd_free d = replicate NUM true ->
  rw_alloc (S n) (mach_at s k d) = Ret [0; 1; 2] (mach_at s k (set_vd_free taken d)).
Proof. intros E. destruct d; cbn in E; subst. reflexivity. Qed.

(** The queue once the request for buffer [b] is formatted and submitted. *)
Definition op_of (write : bool) (sector : Z) : blk_req :=
  mk_blk_req (if write then VIRTIO_BLK_T_OUT else VIRTIO_BLK_T_IN) 0 sector.
Definition data_flags (write : bool) : Z := Z.lor (if write then 0 else VRING_DESC_F_WRITE) VRING_DESC_F_NEXT.
Definition formatted (b : nat) (write : bool) (sector : Z) (d : vdisk) : vdisk :=
  set_vd_info (<[0%nat := mk_vinfo (Some b) 0xff]> (vd_info d))
    (set_vd_desc (<[2%nat := mk_desc (VP_status 0) 1 VRING_DESC_F_WRITE 0]>
                   (<[1%nat := mk_desc (VP_data b) BSIZE (data_flags write) 2]>
                     (<[0%nat := mk_desc (VP_op 0) 16 VRING_DESC_F_NEXT 1]> (vd_desc d))))
      (set_vd_ops (<[0%nat := op_of write sector]> (vd_ops d)) d)).
Definition submitted (d : vdisk) : vdisk :=
  set_vd_regs (<[VIRTIO_MMIO_QUEUE_NOTIFY := 0]> (vd_regs d))
    (set_vd_avail_idx (u16 (vd_avail_idx d + 1)) (set_vd_avail (<[ring_slot (vd_avail_idx d) := 0]> (vd_avail d)) d)).

Lemma rw_format_at s k d b write sector x :
  length (vd_desc d) = NUM -> length (vd_info d) = NUM -> bc_buf (k_bcache k) !! b = Some x ->
  rw_format b write sector [0; 1; 2] (mach_at s k d) =
  Ret tt (mach_at s (with_buf b (set_b_disk true x) k) (formatted b write sector d)).
Proof.
  intros Hd Hi Hb.
  destruct (vd_desc d) as [|d0 [|d1 [|d2 ds]]] eqn:Ed; try discriminate.
  destruct (vd_info d) as [|[ib ist] infos] eqn:Ei; try discriminate.
  destruct d; cbn in Ed, Ei; subst. unfold rw_format.
  do 4 (erewrite bind_Ret; [|reflexivity]).
  erewrite bind_Ret; [|apply upd_desc_at; reflexivity].
  erewrite bind_Ret; [|apply upd_desc_at; reflexivity].
  do 3 (erewrite bind_Ret; [|reflexivity]).
  erewrite bind_Ret; [|apply upd_desc_at; reflexivity].
  erewrite bind_Ret; [|apply lift_at, upd_buf_ok, Hb].
  reflexivity.
Qed.

Lemma rw_submit_at s k d : rw_submit 0 (mach_at s k d) = Ret tt (mach_at s k (submitted d)).
Proof. reflexivity. Qed.

(** * The interrupt *)

Definition acked (d : vdisk) : vdisk :=
  set_vd_regs (<[VIRTIO_MMIO_INTERRUPT_ACK := u32 (Z.land (default 0 (vd_regs d !! VIRTIO_MMIO_INTERRUPT_STATUS)) 3)]> (vd_regs d)) d.
Definition handled (d : vdisk) : vdisk := set_vd_used_idx (u16 (vd_used_idx d + 1)) (acked d).

Lemma u16_next u : 0 <= u < 2 ^ 16 -> u16 (u16 (u + 1) - u) = 1 /\ u16 (u + 1) <> u.
Proof.
  intros Hu. assert (E : u16 (u16 (u + 1) - u) = 1).
  { rewrite wrap_sub_l. replace (u + 1 - u) with 1 by lia. reflexivity. }
  split; [done|]. intros E'. rewrite E', Z.sub_diag in E. discriminate.
Qed.

Lemma disk_intr_one s k d b x :
  cpu_ok k -> lock_free k LK_vdisk -> procs_free k -> length (k_procs k) = NPROC ->
  0 <= vd_used_idx d < 2 ^ 16 -> vd_uidx d = u16 (vd_used_idx d + 1) ->
  vd_used d !! ring_slot (vd_used_idx d) = Some 0 -> vd_info d !! 0%nat = Some (mk_vinfo (Some b) 0) ->
  bc_buf (k_bcache k) !! b = Some x ->
  virtio_disk_intr (mach_at s k d) =
  Ret tt (mach_at s (set_k_procs (wake (cur k) (CH_buf b) 0 (k_procs k)) (with_buf b (set_b_disk false x) k)) (handled d)).
Proof.
  intros Hc Hl Hp Hlen Hr Hu Hring Hinf Hb. destruct (u16_next _ Hr) as [E1 E2].
  unfold virtio_disk_intr. erewrite bind_Ret; [|apply lift_at, (acquire_free LK_vdisk k Hc Hl)].
  do 2 (erewrite bind_Ret; [|reflexivity]).
  change (set_m_vd _ _) with (mach_at s (enter LK_vdisk k) (acked d)).
  erewrite bind_Ret; [|reflexivity]. cbn [mach_at set_m_vd m_vd set_m_k acked set_vd_regs vd_uidx vd_used_idx].
  rewrite Hu, E1. change (Z.to_nat 1) with 1%nat.
  assert (Hb' : bc_buf (k_bcache (enter LK_vdisk k)) !! b = Some x) by (by kproj).
  set (k1 := with_buf b (set_b_disk false x) (enter LK_vdisk k)).
  assert (Hc1 : cpu_ok k1) by (by apply (enter_cpu_ok LK_vdisk)).
  assert (Hp1 : procs_free k1).
  { intros i Hi. change (cur k1) with (cur (enter LK_vdisk k)) in Hi. rewrite cur_enter in Hi.
    unfold lock_free. change (k_locks k1) with (k_locks (enter LK_vdisk k)). rewrite enter_lock_ne by done. by apply Hp. }
  assert (Hlen1 : length (k_procs k1) = NPROC) by (change (k_procs k1) with (k_procs (enter LK_vdisk k)); by kproj).
  assert (Eloop : disk_intr_loop 2 (mach_at s (enter LK_vdisk k) (acked d)) =
    Ret tt (mach_at s (set_k_procs (wake (cur k1) (CH_buf b) 0 (k_procs k1)) k1) (handled d))).
  { cbn [disk_intr_loop]. erewrite bind_Ret; [|reflexivity].
    cbn [mach_at set_m_vd m_vd set_m_k acked set_vd_regs vd_uidx vd_used_idx vd_used vd_info].
    rewrite Hu, (proj2 (Z.eqb_neq _ _)) by congruence. fold (ring_slot (vd_used_idx d)). rewrite Hring.
    erewrite bind_Ret; [|reflexivity]. change (Z.to_nat 0) with 0%nat. rewrite Hinf.
    erewrite bind_Ret; [|reflexivity]. cbn [vi_status vi_b Z.eqb negb].
    erewrite bind_Ret; [|reflexivity].
    erewrite bind_Ret; [|apply lift_at, (upd_buf_ok _ b x _ Hb')].
    erewrite bind_Ret; [|apply lift_at, (wakeup_ok (CH_buf b) k1 Hc1 Hp1 Hlen1)].
    erewrite bind_Ret; [|reflexivity]. erewrite bind_Ret; [|reflexivity].
    cbn [mach_at set_m_vd m_vd set_m_k acked set_vd_regs set_vd_used_idx vd_uidx vd_used_idx].
    by rewrite Hu, Z.eqb_refl. }
  erewrite bind_Ret; [|exact Eloop]. apply lift_at.
  rewrite (inside_release LK_vdisk k); [|done|done|by destruct (inside_enter LK_vdisk k)].
  unfold k1. f_equal. change (cur (with_buf b (set_b_disk false x) (enter LK_vdisk k))) with (cur (enter LK_vdisk k)).
  unfold restore, with_buf. kproj. unfold enter. by destruct (k_cpus k !! k_hart k); destruct k.
Qed.

(** * Freeing the chain *)

Lemma free_desc_at s k d i x :
  cpu_ok k -> procs_free k -> length (k_procs k) = NPROC -> no_waiters k CH_disk_free ->
  (i < NUM)%nat -> vd_free d !! i = Some false -> vd_desc d !! i = Some x ->
  free_desc (Z.of_nat i) (mach_at s k d) =
  Ret tt (mach_at s k (set_vd_free (<[i := true]> (vd_free d)) (set_vd_desc (<[i := zero_desc]> (vd_desc d)) d))).
Proof.
  intros Hc Hp Hlen Hw Hi Hf Hd. unfold free_desc. rewrite (proj2 (Z.leb_gt _ _)) by lia.
  erewrite bind_Ret; [|reflexivity]. rewrite Nat2Z.id. cbn [mach_at set_m_vd m_vd]. rewrite Hf.
  erewrite bind_Ret; [|reflexivity]. cbv iota.
  erewrite bind_Ret; [|apply upd_desc_at; rewrite Nat2Z.id; exact Hd]. rewrite Nat2Z.id.
  do 2 (erewrite bind_Ret; [|reflexivity]).
  change (set_m_vd _ _) with (mach_at s k (set_vd_free (<[i := true]> (vd_free d)) (set_vd_desc (<[i := zero_desc]> (vd_desc d)) d))).
  apply lift_at. by apply wakeup_nobody.
Qed.

(** Freeing any chain of descriptors, however they are linked. *)
Definition busy_descs (d : vdisk) : nat := length (filter (fun b => b = false) (vd_free d)).

Record queue_ok (d : vdisk) : Prop := {
  qo_desc : length (vd_desc d) = NUM;
  qo_free : length (vd_free d) = NUM;
  qo_next : forall j x, vd_desc d !! j = Some x -> 0 <= d_next x < Z.of_nat NUM
}.

Record can_wake (k : kstate) : Prop := {
  cw_cpu : cpu_ok k;
  cw_free : procs_free k;
  cw_len : length (k_procs k) = NPROC
}.

Lemma free_one s k d i x :
  can_wake k -> queue_ok d -> (i < NUM)%nat -> vd_desc d !! i = Some x ->
  (vd_free d !! i = Some true /\ free_desc (Z.of_nat i) (mach_at s k d) = Panic "free_desc 2" (mach_at s k d)) \/
  exists k' d', free_desc (Z.of_nat i) (mach_at s k d) = Ret tt (mach_at s k' d') /\ can_wake k' /\ queue_ok d' /\
    vd_free d !! i = Some false /\ vd_free d' = <[i := true]> (vd_free d).
Proof.
  intros [Hc Hp Hl] [Q1 Q2 Q3] Hi Hx. unfold free_desc. rewrite (proj2 (Z.leb_gt _ _)) by lia. rewrite Nat2Z.id.
  destruct (lookup_lt_is_Some_2 (vd_free d) i) as [[] Hf]; [lia|left|right].
  - split; [done|]. erewrite bind_Ret; [|reflexivity]. cbn [mach_at set_m_vd m_vd]. rewrite Hf.
    by erewrite bind_Ret; [|reflexivity].
  - erewrite bind_Ret; [|reflexivity]. cbn [mach_at set_m_vd m_vd]. rewrite Hf.
    erewrite bind_Ret; [|reflexivity]. cbv iota.
    erewrite bind_Ret; [|apply upd_desc_at; rewrite Nat2Z.id; exact Hx]. rewrite Nat2Z.id.
    do 2 (erewrite bind_Ret; [|reflexivity]).
    change (set_m_vd _ _) with (mach_at s k (set_vd_free (<[i := true]> (vd_free d)) (set_vd_desc (<[i := zero_desc]> (vd_desc d)) d))).
    do 2 eexists. split; [apply lift_at; by apply wakeup_ok|]. split_and!; [| |done|done].
    + constructor; [done|done|]. unfold wake. cbn. by rewrite length_imap.
    + constructor; cbn; rewrite ?length_insert; [done|done|]. intros j y [(-> & <- & _)|[_ Hy]]%list_lookup_insert_Some;
        [unfold zero_desc, NUM; cbn; lia|by eapply Q3].
Qed.

Lemma busy_insert d i :
  vd_free d !! i = Some false -> forall d', vd_free d' = <[i := true]> (vd_free d) -> busy_descs d = S (busy_descs d').
Proof.
  intros H d' E. unfold busy_descs. rewrite E. clear E. revert i H. generalize (vd_free d) as l. induction l as [|b l IH]; intros i H; [done|].
  destruct i as [|i]; cbn in H; [by simplify_eq|]. change (<[S i := true]> (b :: l)) with (b :: <[i := true]> l).
  rewrite !filter_cons. destruct (decide (b = false)); cbn [length]; by rewrite (IH i H).
Qed.

Lemma free_chain_loop_ends n i s k d :
  can_wake k -> queue_ok d -> 0 <= i < Z.of_nat NUM -> (busy_descs d < n)%nat ->
  (exists k' d', free_chain_loop n i (mach_at s k d) = Ret tt (mach_at s k' d') /\ queue_ok d' /\ can_wake k' /\
     (busy_descs d' < busy_descs d)%nat) \/
  exists k' d', free_chain_loop n i (mach_at s k d) = Panic "free_desc 2" (mach_at s k' d').
Proof.
  revert i k d; induction n as [|n IH]; intros i k d Hk Hq Hi Hb; [lia|]. cbn [free_chain_loop].
  destruct (lookup_lt_is_Some_2 (vd_desc d) (Z.to_nat i)) as [x Hx]; [rewrite (qo_desc d Hq); lia|].
  erewrite (bind_Ret get_vd); [|reflexivity]. cbn [mach_at set_m_vd m_vd]. rewrite Hx.
  erewrite (bind_Ret (deref _ _)); [|reflexivity].
  destruct (free_one s k d (Z.to_nat i) x Hk Hq) as [[_ E]|(k' & d' & E & Hk' & Hq' & Hf & Hf')]; [lia|done|..];
    rewrite Z2Nat.id in E by lia.
  { right. exists k, d. by apply bind_Panic. }
  pose proof (busy_insert d _ Hf d' Hf') as Hbd. rewrite (bind_Ret _ _ _ _ _ E).
  destruct (has VRING_DESC_F_NEXT (d_flags x)).
  - destruct (IH (d_next x) k' d') as [(k2 & d2 & E2 & H2 & H3 & H4)|H]; [done|done|by eapply (qo_next d Hq)|lia| |by right].
    left. exists k2, d2. split_and!; [done|done|done|lia].
  - left. exists k', d'. split_and!; [done|done|done|lia].
Qed.

(** C38: freeing a chain of descriptors terminates, however the descriptors are
    linked: from a descriptor of the table, [free_chain] either frees at least one
    busy descriptor and returns, or meets a descriptor that is already free (as
    on every cyclic chain) and panics. *)
Theorem free_chain_terminates s k d i :
  can_wake k -> queue_ok d -> 0 <= i < Z.of_nat NUM ->
  (exists k' d', free_chain i (mach_at s k d) = Ret tt (mach_at s k' d') /\ queue_ok d' /\ can_wake k' /\
     (busy_descs d' < busy_descs d)%nat) \/
  exists k' d', free_chain i (mach_at s k d) = Panic "free_desc 2" (mach_at s k' d').
Proof.
  intros Hk Hq Hi. apply free_chain_loop_ends; try done.
  pose proof (length_filter (fun b => b = false) (vd_free d)). rewrite (qo_free d Hq) in *. unfold busy_descs. lia.
Qed.

(** The chain of a request, as [rw_format] leaves it. *)
Definition chained (b : nat) (write : bool) (l : list virtq_desc) : Prop :=
  exists ds, l = mk_desc (VP_op 0) 16 VRING_DESC_F_NEXT 1 :: mk_desc (VP_data b) BSIZE (data_flags write) 2 ::
    mk_desc (VP_status 0) 1 VRING_DESC_F_WRITE 0 :: ds.
Definition freed (d : vdisk) : vdisk :=
  set_vd_free (replicate NUM true)
    (set_vd_desc (<[2%nat := zero_desc]> (<[1%nat := zero_desc]> (<[0%nat := zero_desc]> (vd_desc d)))) d).

Lemma free_chain_at s k d b write :
  cpu_ok k -> procs_free k -> length (k_procs k) = NPROC -> no_waiters k CH_disk_free ->
  vd_free d = taken -> chained b write (vd_desc d) ->
  free_chain 0 (mach_at s k d) = Ret tt (mach_at s k (freed d)).
Proof.
  intros Hc Hp Hlen Hw Hf [ds Hd]. destruct d; cbn in Hf, Hd; subst. unfold free_chain.
  change (S NUM) with (S (S (S 6))). generalize 6%nat. intros f. cbn [free_chain_loop].
  do 2 (erewrite bind_Ret; [|reflexivity]).
  erewrite bind_Ret; [|eapply (free_desc_at s k _ 0 _ Hc Hp Hlen Hw); [unfold NUM; lia|reflexivity|reflexivity]].
  cbn [d_flags d_next]. change (has VRING_DESC_F_NEXT VRING_DESC_F_NEXT) with true. cbv iota.
  do 2 (erewrite bind_Ret; [|reflexivity]).
  erewrite bind_Ret; [|eapply (free_desc_at s k _ 1 _ Hc Hp Hlen Hw); [unfold NUM; lia|reflexivity|reflexivity]].
  cbn [d_flags d_next]. replace (has VRING_DESC_F_NEXT (data_flags write)) with true by (by destruct write). cbv iota.
  do 2 (erewrite bind_Ret; [|reflexivity]).
  erewrite bind_Ret; [|eapply (free_desc_at s k _ 2 _ Hc Hp Hlen Hw); [unfold NUM; lia|reflexivity|reflexivity]].
  reflexivity.
Qed.

(** * A whole request *)

(** [virtio_disk_rw], and what happens while it sleeps: the scheduler lets go of
    the process, the device works, its interrupt is handled, and the scheduler
    takes the process up again. *)
Definition disk_request `{W : Wakeups} `{V : Device} (p b : nat) (write : bool) : H unit := fun s =>
  match disk_rw b write s with
  | Asleep s1 r =>
      obind ((lift (sched_leave p) ;; modify dev_run ;; virtio_disk_intr ;; lift (sched_enter p)) s1) (fun _ => r)
  | o => o
  end.

Section Request.
Context {W : Wakeups} {V : Device} {VC : DeviceContract}.
Variables (s : mach) (b p : nat) (x : buf) (pr : proc) (write : bool).
Abbreviation k0 := (m_k s).
Abbreviation d0 := (m_vd s).
Hypothesis Hcalm : calm k0.
Hypothesis Hidle : vd_idle d0.
Hypothesis Hbuf : bc_buf (k_bcache k0) !! b = Some x.
Hypothesis Hdisk : b_disk x = false.
Hypothesis Hno : 0 <= b_blockno x < 2 ^ 31.
Hypothesis Hcur : cur k0 = Some p.
Hypothesis Hpr : k_procs k0 !! p = Some pr.

Let n := b_blockno x.

Lemma req_can_sleep : can_sleep k0 p LK_vdisk.
Proof.
  constructor.
  - destruct (calm_cpu _ Hcalm) as (c & Hc & Hi & Hn). exists c. split_and!; auto.
    pose proof Hcur as E. unfold cur in E. by rewrite Hc in E.
  - by apply calm_lock_free.
  - intros i. by apply calm_lock_free.
  - done.
  - apply Hcalm.
Qed.

(** The kernel state and the queue when the process goes to sleep. *)
Definition waiting : kstate := with_buf b (set_b_disk true x) (enter LK_vdisk k0).
Definition queued : vdisk := submitted (formatted b write (n * (BSIZE / 512)) (set_vd_free taken d0)).

Lemma waiting_inside : inside LK_vdisk k0 waiting.
Proof. by destruct (inside_enter LK_vdisk k0). Qed.

Lemma sector_of_block : u32 (b_blockno x * (BSIZE / 512)) = n * (BSIZE / 512).
Proof. apply wrap_small. change (BSIZE / 512) with 2. lia. Qed.

Lemma disk_rw_sleeps k1 rk :
  sleep (CH_buf b) LK_vdisk waiting = Asleep k1 rk ->
  exists r, disk_rw b write s = Asleep (mach_at s k1 queued) r /\
    forall k4 d4 k5, rk k4 = Ret tt k5 ->
      r (mach_at s k4 d4) =
      (rw_wait (S n_wakeups) b ;;
       upd_vd (fun d => set_vd_info (alter (set_vi_b None) (Z.to_nat 0) (vd_info d)) d) ;;
       free_chain 0 ;;
       lift (release LK_vdisk)) (mach_at s k5 d4).
Proof.
  intros Esl. unfold disk_rw.
  assert (E0 : s = mach_at s k0 d0) by (by destruct s).
  assert (Hc : cpu_ok k0) by (by apply calm_cpu_ok). assert (Hl : lock_free k0 LK_vdisk) by (by apply calm_lock_free).
  setoid_rewrite (bind_Ret _ _ s x s); [|rewrite E0 at 1 2; apply lift_at, (get_buf_ok _ b x Hbuf)].
  rewrite sector_of_block.
  setoid_rewrite (bind_Ret _ _ s tt (mach_at s (enter LK_vdisk k0) d0));
    [|rewrite E0 at 1; apply lift_at, (acquire_free LK_vdisk k0 Hc Hl)].
  setoid_rewrite (bind_Ret _ _ _ _ _ (rw_alloc_idle n_wakeups s (enter LK_vdisk k0) d0 (vq_free _ Hidle))).
  setoid_rewrite (bind_Ret _ _ _ _ _ (rw_format_at s (enter LK_vdisk k0) (set_vd_free taken d0) b write _ x
    (vq_desc _ Hidle) (vq_info _ Hidle) ltac:(by kproj))).
  setoid_rewrite (bind_Ret _ _ _ 0); [|reflexivity].
  setoid_rewrite (bind_Ret _ _ _ _ _ (rw_submit_at s _ _)).
  fold waiting. fold queued. unfold bind at 1.
  assert (Eg : lift (get_buf b) (mach_at s waiting queued) = Ret (set_b_disk true x) (mach_at s waiting queued)).
  { apply lift_at, get_buf_ok. unfold waiting. apply (with_buf_lookup b _ x). by kproj. }
  cbn [rw_wait]. rewrite (bind_Ret _ _ _ _ _ Eg). cbn [b_disk set_b_disk].
  unfold bind at 1. unfold lift at 1. change (m_k (mach_at s waiting queued)) with waiting. rewrite Esl. cbn [lift_out].
  eexists. split; [reflexivity|]. intros k4 d4 k5 E. cbn [m_k mach_at set_m_vd set_m_k].
  rewrite E. cbn [lift_out obind]. by rewrite <- bind_obind.
Qed.

(** What the transfer leaves of the buffer and of the disk. *)
Definition filled (y : buf) : buf := if write then y else set_b_data (dk_block (k_disk k0) n) y.
Definition new_disk : disk := if write then dk_write (k_disk k0) n (b_data x) else k_disk k0.
Definition transferred (k : kstate) : kstate := set_k_disk new_disk (with_buf b (filled (set_b_disk true x)) k).

Lemma queued_lookups :
  vd_avail_idx queued = u16 (vd_uidx queued + 1) /\ vd_avail queued !! ring_slot (vd_uidx queued) = Some 0 /\
  chained b write (vd_desc queued) /\ vd_ops queued !! 0%nat = Some (op_of write (n * (BSIZE / 512))) /\
  vd_info queued !! 0%nat = Some (mk_vinfo (Some b) 0xff).
Proof.
  destruct Hidle as [H1 H2 H3 H4 H5 H6 H7 H8 H9]. unfold queued. cbn. split_and!.
  - by rewrite H8.
  - rewrite H8. apply list_lookup_insert_eq. rewrite H2. unfold ring_slot, NUM.
    pose proof (Z.mod_pos_bound (vd_uidx d0) (Z.of_nat 8) ltac:(lia)). lia.
  - destruct (vd_desc d0) as [|? [|? [|? ds]]]; try discriminate. by exists ds.
  - apply list_lookup_insert_eq. rewrite H5. unfold NUM. lia.
  - apply list_lookup_insert_eq. rewrite H4. unfold NUM. lia.
Qed.

Lemma device_transfers k :
  bc_buf (k_bcache k) !! b = Some (set_b_disk true x) -> k_disk k = k_disk k0 ->
  dev_run (mach_at s k queued) = mach_at s (transferred k) (completed 0 0 queued).
Proof.
  intros Hb Hk. destruct queued_lookups as (E1 & E2 & [ds E3] & E4 & _). unfold transferred, filled, new_disk.
  destruct write.
  - rewrite (dev_write (mach_at s k queued) 0 1 2 0 b 0 n (set_b_disk true x)); try (done || (cbn [m_vd mach_at set_m_vd]; rewrite E3; done)).
    unfold mach_at. cbn [m_vd set_m_vd m_k set_m_k]. rewrite Hk. unfold with_buf. rewrite list_insert_id by done.
    by destruct k as [? ? ? ? ? ? ? ? ? ? [] ? ? ? ? ? ?].
  - rewrite (dev_read (mach_at s k queued) 0 1 2 0 b 0 n (set_b_disk true x)); try (done || (cbn [m_vd mach_at set_m_vd]; rewrite E3; done)).
    unfold mach_at. cbn [m_vd set_m_vd m_k set_m_k]. rewrite Hk. rewrite <- Hk. by destruct k.
Qed.

(** Only the sleeping process waits for the buffer. *)
Lemma wake_waiter :
  wake None (CH_buf b) 0 (<[p := sleeping (CH_buf b) pr]> (k_procs k0)) = <[p := woken (CH_buf b) pr]> (k_procs k0).
Proof.
  assert (Hlt : (p < length (k_procs k0))%nat) by (by eapply lookup_lt_Some).
  apply list_eq. intros i. unfold wake. rewrite list_lookup_imap. destruct (decide (i = p)) as [->|Hne].
  - rewrite !list_lookup_insert_eq by done. cbn [fmap option_fmap option_map]. f_equal.
    rewrite bool_decide_true by lia. rewrite bool_decide_false by done. cbn [andb negb].
    unfold wake1, waits_on. by rewrite !bool_decide_true.
  - rewrite !list_lookup_insert_ne by done. destruct (k_procs k0 !! i) as [q|] eqn:E; [|done].
    cbn [fmap option_fmap option_map]. f_equal. unfold wake1.
    rewrite (calm_wait _ Hcalm (CH_buf b) eq_refl i q E); [by destruct (_ && _)|]. rewrite Hcur. congruence.
Qed.

(** The kernel state after the request, before the lock is released. *)
Definition done_state : kstate := set_k_disk new_disk (with_buf b (filled x) k0).

Lemma filled_done : set_b_disk false (filled (set_b_disk true x)) = filled x.
Proof. unfold filled. destruct write; destruct x; cbn in *; by subst. Qed.

Lemma request_done_calm : calm done_state.
Proof. by apply (calm_ext k0). Qed.

(** The queue when everything is over. *)
Definition final_queue : vdisk :=
  freed ((fun d => set_vd_info (alter (set_vi_b None) (Z.to_nat 0) (vd_info d)) d) (handled (completed 0 0 queued))).

Lemma final_idle : vd_idle final_queue.
Proof.
  destruct Hidle as [H1 H2 H3 H4 H5 H6 H7 H8 H9]. unfold final_queue, queued. constructor; cbn;
    rewrite ?length_insert, ?length_alter, ?length_insert; try done.
  - by rewrite H7.
  - by rewrite H8.
  - by apply wrap_range.
Qed.

(** The process goes on after its sleep. *)
Lemma request_ends :
  (rw_wait (S n_wakeups) b ;;
   upd_vd (fun d => set_vd_info (alter (set_vi_b None) (Z.to_nat 0) (vd_info d)) d) ;;
   free_chain 0 ;;
   lift (release LK_vdisk)) (mach_at s (enter LK_vdisk done_state) (handled (completed 0 0 queued))) =
  Ret tt (mach_at s done_state final_queue).
Proof.
  pose proof request_done_calm as HC. pose proof (calm_cpu_ok _ HC) as Hc. pose proof (calm_lock_free _ LK_vdisk HC) as Hl.
  assert (Hb : bc_buf (k_bcache (enter LK_vdisk done_state)) !! b = Some (filled x)).
  { kproj. apply list_lookup_insert_eq. by eapply lookup_lt_Some. }
  erewrite bind_Ret.
  2: { cbn [rw_wait]. erewrite bind_Ret; [|apply lift_at, (get_buf_ok _ b _ Hb)].
       replace (b_disk (filled x)) with false by (unfold filled; by destruct write). reflexivity. }
  erewrite bind_Ret; [|reflexivity].
  erewrite bind_Ret.
  2: { apply (free_chain_at s (enter LK_vdisk done_state) _ b write).
       - by apply enter_cpu_ok.
       - intros i _. unfold lock_free. rewrite enter_lock_ne by done. by apply calm_lock_free.
       - kproj. apply Hcalm.
       - intros i q. kproj. apply (calm_wait _ HC CH_disk_free eq_refl).
       - done.
       - apply queued_lookups. }
  apply lift_at. rewrite (inside_release LK_vdisk done_state); [|done|done|apply inside_enter]. by rewrite restore_enter.
Qed.

(** The interrupt finds the request done and wakes the process up. *)
Lemma intr_completes k2 :
  k2 = set_k_procs (<[p := sleeping (CH_buf b) pr]> (k_procs waiting))
         (set_k_locks (k_locks k0) (set_k_cpus (k_cpus k2) waiting)) ->
  cur k2 = None -> cpu_ok k2 ->
  (modify dev_run ;; virtio_disk_intr) (mach_at s k2 queued) =
  Ret tt (mach_at s (set_k_procs (<[p := woken (CH_buf b) pr]> (k_procs k0))
                      (set_k_disk new_disk (with_buf b (filled x) (set_k_cpus (k_cpus k2) k0)))) (handled (completed 0 0 queued))).
Proof.
  intros E2 Hc2 Hok. destruct queued_lookups as (E1 & Ea & _ & _ & Ei).
  assert (Hlb : (b < length (bc_buf (k_bcache k0)))%nat) by (by eapply lookup_lt_Some).
  assert (Hb2 : bc_buf (k_bcache k2) !! b = Some (set_b_disk true x)).
  { rewrite E2. cbn. kproj. by apply list_lookup_insert_eq. }
  assert (Hd2 : k_disk k2 = k_disk k0) by (rewrite E2; cbn; by kproj).
  assert (Hp2 : k_procs k2 = <[p := sleeping (CH_buf b) pr]> (k_procs k0)) by (rewrite E2; cbn; by kproj).
  assert (Hl2 : k_locks k2 = k_locks k0) by (by rewrite E2).
  erewrite bind_Ret; [|unfold modify; rewrite (device_transfers k2 Hb2 Hd2); reflexivity].
  rewrite (disk_intr_one s (transferred k2) _ b (filled (set_b_disk true x))).
  - f_equal. unfold mach_at. apply (f_equal (fun k => set_m_vd (handled (completed 0 0 queued)) (set_m_k k s))).
    change (cur (transferred k2)) with (cur k2). change (k_procs (transferred k2)) with (k_procs k2).
    rewrite Hc2, Hp2, wake_waiter, filled_done. unfold transferred. rewrite E2. unfold waiting, with_buf. kproj.
    rewrite !list_insert_insert_eq. unfold enter.
    destruct (calm_cpu _ Hcalm) as (c & -> & _). reflexivity.
  - done.
  - unfold lock_free. cbn. rewrite Hl2. by apply calm_lock_free.
  - intros i _. unfold lock_free. cbn. rewrite Hl2. by apply calm_lock_free.
  - cbn. rewrite Hp2, length_insert. apply Hcalm.
  - cbn. rewrite (vq_seen _ Hidle). apply Hidle.
  - cbn. by rewrite (vq_seen _ Hidle).
  - cbn. rewrite (vq_seen _ Hidle). apply list_lookup_insert_eq. rewrite (vq_used _ Hidle). unfold ring_slot, NUM.
    pose proof (Z.mod_pos_bound (vd_uidx d0) (Z.of_nat 8) ltac:(lia)). lia.
  - cbn [completed set_vd_uidx vd_info set_vd_used set_vd_info]. by rewrite list_lookup_alter_eq, Ei.
  - cbn. rewrite E2. cbn. kproj. rewrite list_insert_insert_eq. by apply list_lookup_insert_eq.
Qed.

Lemma request_ok : disk_request p b write s = Ret tt (mach_at s done_state final_queue).
Proof.
  destruct (calm_run _ Hcalm p pr Hcur Hpr) as [Hst Hch].
  assert (Hpw : k_procs waiting !! p = Some pr) by (unfold waiting; cbn; by kproj).
  destruct (sleep_trip k0 waiting p (CH_buf b) LK_vdisk pr req_can_sleep waiting_inside Hpw Hst Hch)
    as (k1 & rk & k2 & Esl & Elv & Ek2 & Hc2 & Hok2 & Htrip).
  destruct (disk_rw_sleeps k1 rk Esl) as (r & Erw & Hr). unfold disk_request. rewrite Erw.
  erewrite bind_Ret; [|apply lift_at, Elv].
  pose proof (intr_completes k2 Ek2 Hc2 Hok2) as Ei. set (k3 := set_k_procs _ _) in Ei.
  change (virtio_disk_intr (dev_run (mach_at s k2 queued)) = Ret tt (mach_at s k3 (handled (completed 0 0 queued)))) in Ei.
  erewrite (bind_Ret (modify dev_run)); [|reflexivity]. rewrite (bind_Ret _ _ _ _ _ Ei).
  assert (Eh3 : k_hart k3 = k_hart k0) by done.
  destruct (Htrip k3) as (k4 & E4 & E5).
  - done.
  - done.
  - done.
  - cbn. apply list_lookup_insert_eq. by eapply lookup_lt_Some.
  - rewrite (lift_at _ _ _ _ _ _ E4). cbn [obind]. rewrite (Hr _ _ _ E5).
    assert (Ed : set_k_procs (<[p := pr]> (k_procs k3)) (restore k0 k3) = done_state).
    { unfold k3, restore, done_state. cbn. rewrite list_insert_insert_eq, list_insert_id by done. reflexivity. }
    rewrite Ed. apply request_ends.
Qed.
End Request.


(** The driver as the buffer cache calls it, with an idle queue [d]. *)
Definition virtio_driver `{W : Wakeups} `{V : Device} (s : mach) (d : vdisk) : DiskDriver := fun b write k =>
  match disk_request (default 0%nat (cur k)) b write (mach_at s k d) with
  | Ret a s' => Ret a (m_k s')
  | Panic msg s' => Panic msg (m_k s')
  | Asleep _ _ | NoFuel => NoFuel
  | Fault w => Fault w
  | Spin => Spin
  end.


(** * A sample device *)

Module SampleDevice.

(** Serves the request at the head of the avail ring. *)
Definition serve (s : mach) (h : Z) (o i t : nat) : mach :=
  match vd_ops (m_vd s) !! o, bc_buf (k_bcache (m_k s)) !! i with
  | Some op, Some b =>
      let n := br_sector op / (BSIZE / 512) in
      set_m_vd (completed h t (m_vd s))
        (set_m_k (if br_type op =? VIRTIO_BLK_T_OUT
                  then set_k_disk (dk_write (k_disk (m_k s)) n (b_data b)) (m_k s)
                  else with_buf i (set_b_data (dk_block (k_disk (m_k s)) n) b) (m_k s)) s)
  | _, _ => s
  end.
#[export] Instance device : Device := fun s =>
  let d := m_vd s in
  match vd_avail d !! ring_slot (vd_uidx d) with
  | Some h =>
      match vd_desc d !! Z.to_nat h with
      | Some (mk_desc (VP_op o) _ _ i1) =>
          match vd_desc d !! Z.to_nat i1 with
          | Some (mk_desc (VP_data i) _ _ i2) =>
              match vd_desc d !! Z.to_nat i2 with
              | Some (mk_desc (VP_status t) _ _ _) => serve s h o i t
              | _ => s
              end
          | _ => s
          end
      | _ => s
      end
  | None => s
  end.

#[export] Instance device_ok : DeviceContract.
Proof.
  constructor; intros s h i1 i2 o i t n b d Ha Hh H1 H2 H3 Ho Hb; unfold dev_run, device; fold d;
    rewrite Hh, H1, H2, H3; unfold serve; fold d; rewrite Ho, Hb; cbn [br_type br_sector];
    rewrite Z.div_mul by done; reflexivity.
Qed.

Definition queue : vdisk :=
  mk_vdisk (0, 0, 0) (replicate NUM zero_desc) 0 (replicate NUM 0) 0 (replicate NUM 0) (replicate NUM true) 0
    (replicate NUM (mk_vinfo None 0)) (replicate NUM (mk_blk_req 0 0 0)) ∅ true.
Lemma queue_idle : vd_idle queue.
Proof. constructor; try reflexivity. cbn. lia. Qed.

Definition machine (k : kstate) : mach := mk_mach k queue (fun _ => 0) (mk_plic ∅ [] []) 1 true.

End SampleDevice.

Import (hints) SampleDevice.
Import (hints) Machine.

(** Process 0 of the sample machine reads block 40 into buffer 3. *)
Definition reading40 : kstate := with_buf 3 (set_b_blockno 40 zero_buf) Machine.st.

Lemma reading40_calm : calm reading40.
Proof. apply (calm_ext Machine.st); try reflexivity. apply Machine.st_calm. Qed.



(** Three descriptors linked in a circle. *)
Lemma free_chain_terminates_witness :
  let ring := [mk_desc VP_null 0 VRING_DESC_F_NEXT 1; mk_desc VP_null 0 VRING_DESC_F_NEXT 2;
               mk_desc VP_null 0 VRING_DESC_F_NEXT 0] ++ replicate 5 zero_desc in
  let q := set_vd_free taken (set_vd_desc ring SampleDevice.queue) in
  exists k' d', free_chain 0 (mach_at (SampleDevice.machine boot) boot q) =
    Panic "free_desc 2" (mach_at (SampleDevice.machine boot) k' d').
Proof.
  intros ring q. destruct (free_chain_terminates (SampleDevice.machine boot) boot q 0) as [(k' & d' & E & _)|H].
  - constructor; [exact boot_cpu_ok|intros i _; reflexivity|reflexivity].
  - constructor; [reflexivity|reflexivity|]. intros j x Hx.
    do 8 (destruct j as [|j]; [cbn in Hx; simplify_eq; cbn; unfold NUM; lia|]). discriminate.
  - unfold NUM. lia.
  - vm_compute in E. discriminate.
  - exact H.
Defined.
