(* ===== verification/Syscall.v ===== *)
(** kernel/syscall.c and kernel/sysproc.c: fetching system call arguments, the
    system calls, and their dispatch.  A result is the 64-bit value that goes
    into [a0]. *)

From Stdlib Require Import Ascii.
From S2P Require Import Prelude Types Memory Spinlock Kalloc Vm Sched Sleeplock Bio Uart Printf Block Log Fs Console InitCode Proc Exec Mach.
Local Open Scope Z_scope.
Local Open Scope c_scope.

(** The bytes of a string literal. *)
Fixpoint bytes (s : string) : list Z :=
  match s with
  | EmptyString => []
  | String c s => Z.of_N (N_of_ascii c) :: bytes s
  end.

Section Syscall.
Context {L : KernelLayout} {X : Text} {W : Wakeups} {D : DiskDriver}.

(** * Arguments *)

(** The result and, when it is 0, [*ip]. *)
Definition fetchaddr (addr : Z) : K (Z * Z) :=
  p <- me ;;
  pr <- get_proc p ;;
  if (p_sz pr <=? addr) || (p_sz pr <? u64 (addr + 8)) then ret (-1, 0) else
  ' (r, l) <- copyin (p_pagetable pr) addr 8 ;;
  if negb (r =? 0) then ret (-1, 0) else
  ret (0, le_dec l).

(** The result and, when it is not -1, the string in [buf]. *)
Definition fetchstr (addr max : Z) : K (Z * list Z) :=
  p <- me ;;
  pr <- get_proc p ;;
  ' (r, l) <- copyinstr (p_pagetable pr) addr max ;;
  if r <? 0 then ret (-1, []) else
  ret (Z.of_nat (length (cstr l)), cstr l).

Definition argraw (n : Z) : K Z :=
  p <- me ;;
  if (0 <=? n) && (n <=? 5) then tf_get p (TF_a n) else panic "argraw".
Definition argint (n : Z) : K Z := x <- argraw n ;; ret (i32 x).
Definition argaddr (n : Z) : K Z := argraw n.
Definition argstr (n max : Z) : K (Z * list Z) := addr <- argaddr n ;; fetchstr addr max.

(** * System calls *)

Definition msg_super : list Z := bytes "Super Block info:" ++ [10].
Definition msg_super1 : list Z :=
  [9] ++ bytes "magic: %x" ++ [10; 9] ++ bytes "size: %d" ++ [10; 9] ++ bytes "nblocks: %d" ++ [10; 9] ++
  bytes "ninodes: %d" ++ [10].
Definition msg_super2 : list Z :=
  [9] ++ bytes "nlog: %d" ++ [10; 9] ++ bytes "logstart: %d" ++ [10; 9] ++ bytes "inodestart: %d" ++ [10; 9] ++
  bytes "bmapstart: %d" ++ [10; 10].
Definition msg_readme : list Z := bytes "README (1KB):" ++ [10] ++ bytes "%s" ++ [10; 10].
Definition msg_modified : list Z := bytes "README (modified):" ++ [10] ++ bytes "%s" ++ [10; 10].

(** [for (i = 0; i < BSIZE - 1; i++) if (c[i] == '\n' && c[i + 1] == '\n') break;] *)
Fixpoint blank_line (n : nat) (i : Z) (c : list Z) : Z :=
  match n with
  | O => i
  | S n => if (byte_at i c =? 10) && (byte_at (i + 1) c =? 10) then i else blank_line n (i + 1) c
  end.
(** [for (; i < BSIZE; i++) c[i] = 0;] *)
Definition clear_from (i : Z) (c : list Z) : list Z :=
  take (Z.to_nat i) c ++ replicate (Z.to_nat (BSIZE - i)) 0.

Definition blocktest : K Z :=
  b <- bread ROOTDEV 1 ;;
  data <- get_bdata b ;;
  let sb := get_sb data in
  _ <- printf msg_super [] ;;
  _ <- printf msg_super1 [VInt (sb_magic sb); VInt (sb_size sb); VInt (sb_nblocks sb); VInt (sb_ninodes sb)] ;;
  _ <- printf msg_super2 [VInt (sb_nlog sb); VInt (sb_logstart sb); VInt (sb_inodestart sb); VInt (sb_bmapstart sb)] ;;
  brelse b ;;
  b <- bread ROOTDEV 47 ;;
  upd_data b (put_byte (BSIZE - 1) 0) ;;
  c <- get_bdata b ;;
  _ <- printf msg_readme [VStr (Some c)] ;;
  let i := blank_line (Z.to_nat (BSIZE - 1)) 0 c in
  when (i <? BSIZE - 1) (upd_data b (clear_from i)) ;;
  bwrite b ;;
  brelse b ;;
  b <- bread ROOTDEV 47 ;;
  upd_data b (put_byte (BSIZE - 1) 0) ;;
  c <- get_bdata b ;;
  _ <- printf msg_modified [VStr (Some c)] ;;
  brelse b ;;
  ret 0.

Definition sys_exit : K Z := status <- argint 0 ;; kexit status.

Definition sys_getpid : K Z := p <- me ;; pr <- get_proc p ;; ret (u64 (p_pid pr)).

Definition sys_fork : K Z := r <- kfork ;; ret (u64 r).

Definition sys_wait : K Z := addr <- argaddr 0 ;; r <- kwait addr ;; ret (u64 r).

Definition sys_sbrk : K Z :=
  n <- argint 0 ;;
  p <- me ;;
  pr <- get_proc p ;;
  let addr := p_sz pr in
  r <- growproc n ;;
  if r <? 0 then ret (u64 (-1)) else ret addr.

(** [while (ticks - ticks0 < (uint)n)] *)
Fixpoint sys_sleep_loop (fuel : nat) (ticks0 n : Z) : K Z :=
  match fuel with
  | O => nofuel
  | S fuel =>
      t <- gets k_ticks ;;
      if negb (u32 (t - ticks0) <? n) then release LK_ticks ;; ret 0 else
      p <- me ;;
      k <- killed p ;;
      if negb (k =? 0) then release LK_ticks ;; ret (u64 (-1)) else
      sleep CH_ticks LK_ticks ;;
      sys_sleep_loop fuel ticks0 n
  end.
Definition sys_sleep : K Z :=
  n <- argint 0 ;;
  let n := if n <? 0 then 0 else n in
  acquire LK_ticks ;;
  ticks0 <- gets k_ticks ;;
  sys_sleep_loop (S n_wakeups) ticks0 n.

Definition sys_kill : K Z := pid <- argint 0 ;; r <- kkill pid ;; ret (u64 r).

Definition sys_exec : K Z :=
  ' (r, path) <- argstr 0 MAXPATH ;;
  if r <? 0 then ret (u64 (-1)) else
  _ <- argaddr 1 ;;
  r <- kexec path [path] ;;
  ret (u64 r).

Definition sys_uptime : K Z :=
  acquire LK_ticks ;;
  xticks <- gets k_ticks ;;
  release LK_ticks ;;
  ret xticks.

Definition sys_write : K Z :=
  fd <- argint 0 ;;
  if fd =? 3 then r <- blocktest ;; ret (u64 r) else
  if 3 <=? fd then ret 0 else
  addr <- argaddr 1 ;;
  n <- argint 2 ;;
  if n <? 0 then ret (u64 (-1)) else
  r <- consolewrite (Suser addr) n ;;
  ret (u64 r).

Definition sys_read : K Z :=
  addr <- argaddr 1 ;;
  n <- argint 2 ;;
  if n <? 0 then ret (u64 (-1)) else
  r <- consoleread (Duser addr) n ;;
  ret (u64 r).

Definition sys_chdir : K Z :=
  p <- me ;;
  ' (r, path) <- argstr 0 MAXPATH ;;
  if r <? 0 then ret (u64 (-1)) else
  ip <- namei path ;;
  match ip with
  | None => ret (u64 (-1))
  | Some ip =>
      begin_op ;;
      pr <- get_proc p ;;
      cwd <- deref "cwd" (p_cwd pr) ;;
      iput cwd ;;
      upd_proc p (set_p_cwd (Some ip)) ;;
      end_op ;;
      ret 0
  end.

Definition sys_open : K Z := ret 0.
Definition sys_mknod : K Z := ret 0.

(** [nextfd] is an [int]. *)
Definition sys_dup : H Z :=
  fd <- gets m_nextfd ;;
  modify (set_m_nextfd (i32 (fd + 1))) ;;
  ret (u64 fd).

(** * Dispatch *)

(** syscall.h, and the array [syscalls]; [None] is a null entry. *)
Definition syscalls (num : Z) : option (H Z) :=
  match num with
  | 1 => Some (lift sys_fork)
  | 2 => Some (lift sys_exit)
  | 3 => Some (lift sys_wait)
  | 5 => Some (lift sys_read)
  | 6 => Some (lift sys_kill)
  | 7 => Some (lift sys_exec)
  | 9 => Some (lift sys_chdir)
  | 10 => Some sys_dup
  | 11 => Some (lift sys_getpid)
  | 12 => Some (lift sys_sbrk)
  | 13 => Some (lift sys_sleep)
  | 14 => Some (lift sys_uptime)
  | 15 => Some (lift sys_open)
  | 16 => Some (lift sys_write)
  | 17 => Some (lift sys_mknod)
  | _ => None
  end.
(** [sizeof(syscalls) / sizeof(syscalls[0])] *)
Definition NSYSCALLS : Z := 18.

Definition msg_unknown : list Z := bytes "%d: unknown sys call %d" ++ [10].

Definition syscall : H unit :=
  p <- lift me ;;
  a7 <- lift (tf_get p (TF_a 7)) ;;
  let num := i32 a7 in
  match (if (0 <? num) && (num <? NSYSCALLS) then syscalls num else None) with
  | Some f => r <- f ;; lift (tf_put p (TF_a 0) r)
  | None =>
      pr <- lift (get_proc p) ;;
      _ <- lift (printf msg_unknown [VInt (p_pid pr); VInt num]) ;;
      lift (tf_put p (TF_a 0) (u64 (-1)))
  end.

End Syscall.
