(* ===== verification/Pipe.v ===== *)
(** kernel/pipe.c: reading, writing and closing a pipe.

    A [struct pipe] lies in a page of its own, at the address [kalloc] gave; its
    fields are accessed in memory.  The kernel's [sleep] takes a lock; pipe.c
    calls [sleep_prepare] and a [sleep] without arguments, which no file of the
    repository defines: they are parameters, [PipeSleep]. *)

From S2P Require Import Prelude Types Memory Spinlock Kalloc Vm Sched Sleeplock.
Local Open Scope c_scope.

Definition PIPESIZE : Z := 512.

(** Offsets into [struct pipe]: a [struct spinlock] takes 24 bytes. *)
Definition PI_data : Z := 24.
Definition PI_nread : Z := 536.
Definition PI_nwrite : Z := 540.
Definition PI_readopen : Z := 544.
Definition PI_writeopen : Z := 548.

(** An [int] or [uint] in memory. *)
Definition ld32 (a : Z) : K Z := gets (fun s => load 4 (k_mem s) a).
Definition st32 (a v : Z) : K unit := modify (fun s => set_k_mem (store 4 (k_mem s) a v) s).

Class PipeSleep := {
  sleep_prepare : chan -> K unit;
  sleep_now : K unit
}.

Section Pipe.
Context {L : KernelLayout} {W : Wakeups} {P : PipeSleep}.

Definition pipeclose (pi : Z) (writable : bool) : K unit :=
  acquire (LK_pipe pi) ;;
  (if writable then st32 (pi + PI_writeopen) 0 ;; wakeup (CH_pipe_r pi)
   else st32 (pi + PI_readopen) 0 ;; wakeup (CH_pipe_w pi)) ;;
  readopen <- ld32 (pi + PI_readopen) ;;
  writeopen <- ld32 (pi + PI_writeopen) ;;
  if (readopen =? 0) && (writeopen =? 0) then release (LK_pipe pi) ;; kfree pi
  else release (LK_pipe pi).

(** After the loop of [pipewrite]. *)
Definition pipewrite_end (pi i : Z) : K Z :=
  wakeup (CH_pipe_r pi) ;;
  release (LK_pipe pi) ;;
  ret i.

(** [while (i < n)]; a turn writes a byte or sleeps. *)
Fixpoint pipewrite_loop (fuel : nat) (pi : Z) (pr : nat) (addr n i : Z) : K Z :=
  match fuel with
  | O => nofuel
  | S fuel =>
      if negb (i <? n) then pipewrite_end pi i else
      readopen <- ld32 (pi + PI_readopen) ;;
      k <- (if readopen =? 0 then ret 1 else killed pr) ;;
      if negb (k =? 0) then release (LK_pipe pi) ;; ret (-1) else
      nwrite <- ld32 (pi + PI_nwrite) ;;
      nread <- ld32 (pi + PI_nread) ;;
      if nwrite =? u32 (nread + PIPESIZE) then
        wakeup (CH_pipe_r pi) ;;
        sleep_prepare (CH_pipe_w pi) ;;
        release (LK_pipe pi) ;;
        sleep_now ;;
        acquire (LK_pipe pi) ;;
        pipewrite_loop fuel pi pr addr n i
      else
        p <- get_proc pr ;;
        ' (r, l) <- copyin (p_pagetable p) (u64 (addr + i)) 1 ;;
        if r =? -1 then pipewrite_end pi (if i =? 0 then -1 else i) else
        nwrite <- ld32 (pi + PI_nwrite) ;;
        mem_upd (fun m => put_bytes m (pi + PI_data + nwrite mod PIPESIZE) l) ;;
        st32 (pi + PI_nwrite) (u32 (nwrite + 1)) ;;
        pipewrite_loop fuel pi pr addr n (i + 1)
  end.
Definition pipewrite (pi addr n : Z) : K Z :=
  pr <- me ;;
  acquire (LK_pipe pi) ;;
  pipewrite_loop (S (Z.to_nat n + n_wakeups)) pi pr addr n 0.

(** [while (pi->nread == pi->nwrite && pi->writeopen)]: false when the process was
    killed and the lock is released. *)
Fixpoint piperead_wait (fuel : nat) (pi : Z) (pr : nat) : K bool :=
  match fuel with
  | O => nofuel
  | S fuel =>
      nread <- ld32 (pi + PI_nread) ;;
      nwrite <- ld32 (pi + PI_nwrite) ;;
      writeopen <- ld32 (pi + PI_writeopen) ;;
      if (nread =? nwrite) && negb (writeopen =? 0) then
        k <- killed pr ;;
        if negb (k =? 0) then release (LK_pipe pi) ;; ret false else
        sleep_prepare (CH_pipe_r pi) ;;
        release (LK_pipe pi) ;;
        sleep_now ;;
        acquire (LK_pipe pi) ;;
        piperead_wait fuel pi pr
      else ret true
  end.

(** [for (i = 0; i < n; i++)], [k] to go: the final [i]. *)
Fixpoint piperead_copy (k : nat) (pi : Z) (pr : nat) (addr i : Z) : K Z :=
  match k with
  | O => ret i
  | S k =>
      nread <- ld32 (pi + PI_nread) ;;
      nwrite <- ld32 (pi + PI_nwrite) ;;
      if nread =? nwrite then ret i else
      ch <- gets (fun s => bytes_at (k_mem s) (pi + PI_data + nread mod PIPESIZE) 1) ;;
      p <- get_proc pr ;;
      r <- copyout (p_pagetable p) (u64 (addr + i)) ch ;;
      if r =? -1 then ret (if i =? 0 then -1 else i) else
      nread <- ld32 (pi + PI_nread) ;;
      st32 (pi + PI_nread) (u32 (nread + 1)) ;;
      piperead_copy k pi pr addr (i + 1)
  end.

Definition piperead (pi addr n : Z) : K Z :=
  pr <- me ;;
  acquire (LK_pipe pi) ;;
  go <- piperead_wait (S n_wakeups) pi pr ;;
  if negb go then ret (-1) else
  i <- piperead_copy (Z.to_nat n) pi pr addr 0 ;;
  wakeup (CH_pipe_w pi) ;;
  release (LK_pipe pi) ;;
  ret i.
End Pipe.
