(* ===== verification/PipeSpec.v ===== *)
(** Pipes (pipe.c) as queues of bytes.

    [pipe_rep] reads the ring in the page of a pipe as the queue of the bytes
    that were written and not yet read.  [pipewrite] and [piperead] are shown to
    append to the queue and to take from its front, whatever the counters, which
    are 32 bits wide and wrap around. *)

From S2P Require Import Prelude Types Memory Spinlock Kalloc Vm PageTable UserMem UserCopy Sched Sleeplock Bio Uart Block Log Crash Fs InitCode Proc SleepWake ProcSpec Pipe.
Local Open Scope Z_scope.
Local Open Scope c_scope.

(** * The ring *)

Definition nread (m : gmap Z Z) (pi : Z) : Z := load 4 m (pi + PI_nread).
Definition nwrite (m : gmap Z Z) (pi : Z) : Z := load 4 m (pi + PI_nwrite).
(** The address of byte number [n]. *)
Definition cell (pi n : Z) : Z := pi + PI_data + n mod PIPESIZE.

Record pipe_rep (m : gmap Z Z) (pi : Z) (q : list Z) : Prop := {
  pp_room : Z.of_nat (length q) <= PIPESIZE;
  pp_count : nwrite m pi = u32 (nread m pi + Z.of_nat (length q));
  pp_data : forall k b, q !! k = Some b -> mget m (cell pi (nread m pi + Z.of_nat k)) = b
}.

(** The lock lies below the ring and the counters above it. *)
Lemma cell_range pi n : pi + PI_data <= cell pi n < pi + PI_nread.
Proof. unfold cell, PI_data, PI_nread, PIPESIZE. pose proof (Z.mod_pos_bound n 512 ltac:(lia)). lia. Qed.

(** The size of the ring divides 2^32, so counters that wrapped still index it. *)
Lemma cell_wrap pi n : cell pi (u32 n) = cell pi n.
Proof.
  unfold cell, wrap, PIPESIZE. f_equal. symmetry. change (2 ^ 32) with (512 * 8388608).
  rewrite Z.rem_mul_r by lia. rewrite Z.mul_comm, Z.mod_add by lia. by rewrite Z.mod_mod by lia.
Qed.

Lemma cell_inj pi a b : cell pi a = cell pi b -> - PIPESIZE < a - b < PIPESIZE -> a = b.
Proof.
  unfold cell, PIPESIZE. intros E H. pose proof (Z.div_mod a 512 ltac:(lia)). pose proof (Z.div_mod b 512 ltac:(lia)).
  assert (a mod 512 = b mod 512) by lia. lia.
Qed.

Lemma load4_range m a : mem_ok m -> 0 <= load 4 m a < 2 ^ 32.
Proof. intros Hm. apply (load_range 4 m a Hm). Qed.

Lemma load4_store4 m a v : 0 <= v < 2 ^ 32 -> load 4 (store 4 m a v) a = v.
Proof. intros H. rewrite load_store. by apply Z.mod_small. Qed.

Lemma pipe_rep_ext m m' pi q :
  (forall x, pi <= x < pi + PI_readopen -> mget m' x = mget m x) -> pipe_rep m pi q -> pipe_rep m' pi q.
Proof.
  unfold PI_readopen. intros He [H1 H2 H3]. unfold nwrite, nread in *.
  assert (El : forall a, pi <= a -> a + 4 <= pi + 544 -> load 4 m' a = load 4 m a).
  { intros a Ha Ha'. apply load_ext. intros x Hx. apply He. lia. }
  unfold PI_nwrite, PI_nread in *. constructor; unfold nwrite, nread, PI_nwrite, PI_nread; rewrite ?El by lia; [done..|].
  intros k b Hk. rewrite He; [by apply H3|]. pose proof (cell_range pi (load 4 m (pi + 536) + Z.of_nat k)).
  unfold PI_data, PI_nread in *. lia.
Qed.

(** The number of bytes in the ring, and the test for a full one. *)
Lemma pipe_full m pi q :
  mem_ok m -> pipe_rep m pi q -> (nwrite m pi =? u32 (nread m pi + PIPESIZE)) = (Z.of_nat (length q) =? PIPESIZE).
Proof.
  intros Hm [H1 H2 _]. rewrite H2. unfold PIPESIZE in *. pose proof (load4_range m (pi + PI_nread) Hm). fold (nread m pi) in *.
  destruct (Z.eqb_spec (Z.of_nat (length q)) 512) as [->|Hne]; [by rewrite Z.eqb_refl|]. apply Z.eqb_neq.
  unfold wrap. intros E.
  pose proof (Z.div_mod (nread m pi + Z.of_nat (length q)) (2 ^ 32) ltac:(lia)).
  pose proof (Z.div_mod (nread m pi + 512) (2 ^ 32) ltac:(lia)). lia.
Qed.

Lemma pipe_empty m pi q :
  mem_ok m -> pipe_rep m pi q -> (nread m pi =? nwrite m pi) = bool_decide (q = []).
Proof.
  intros Hm [H1 H2 _]. rewrite H2. unfold PIPESIZE in *. pose proof (load4_range m (pi + PI_nread) Hm). fold (nread m pi) in *.
  destruct q as [|b q].
  { rewrite Z.add_0_r, wrap_small by done. by rewrite Z.eqb_refl. }
  rewrite bool_decide_false by done. apply Z.eqb_neq. unfold wrap. cbn [length] in *. intros E.
  pose proof (Z.div_mod (nread m pi + Z.of_nat (S (length q))) (2 ^ 32) ltac:(lia)). lia.
Qed.

(** [pi->data[pi->nwrite++ % PIPESIZE] = b] *)
Definition push (m : gmap Z Z) (pi b : Z) : gmap Z Z :=
  store 4 (put_bytes m (cell pi (nwrite m pi)) [b]) (pi + PI_nwrite) (u32 (nwrite m pi + 1)).
(** [pi->nread++] *)
Definition pop (m : gmap Z Z) (pi : Z) : gmap Z Z := store 4 m (pi + PI_nread) (u32 (nread m pi + 1)).

Lemma mget_push m pi b x :
  x < pi + PI_data \/ pi + PI_nwrite + 4 <= x \/ pi + PI_nread <= x < pi + PI_nwrite -> mget (push m pi b) x = mget m x.
Proof.
  intros Hx. pose proof (cell_range pi (nwrite m pi)). unfold push. unfold PI_data, PI_nread, PI_nwrite in *.
  rewrite mget_store_out by lia. apply mget_put_bytes_out. cbn [length]. lia.
Qed.

Lemma push_rep m pi q b :
  mem_ok m -> byte_ok b -> pipe_rep m pi q -> Z.of_nat (length q) < PIPESIZE -> pipe_rep (push m pi b) pi (q ++ [b]).
Proof.
  intros Hm Hb R Hlt. pose proof R as [H1 H2 H3]. pose proof (load4_range m (pi + PI_nread) Hm) as Hr. fold (nread m pi) in Hr.
  assert (Er : nread (push m pi b) pi = nread m pi).
  { apply load_ext. intros x Hx. apply mget_push. unfold PI_nread, PI_nwrite in *. lia. }
  constructor; rewrite ?Er, ?length_app; cbn [length].
  - lia.
  - unfold nwrite, push. rewrite load4_store4 by (by apply wrap_range).
    change (load 4 m (pi + PI_nwrite)) with (nwrite m pi). rewrite H2, wrap_add_l. f_equal. lia.
  - assert (Hcell : forall n, mget (push m pi b) (cell pi n) = mget (put_bytes m (cell pi (nwrite m pi)) [b]) (cell pi n)).
    { intros n. apply mget_store_out. pose proof (cell_range pi n). unfold PI_data, PI_nread, PI_nwrite in *. lia. }
    intros k c Hk. rewrite Hcell, mget_put_bytes. cbn [length]. rewrite H2, cell_wrap.
    destruct (decide (k < length q)%nat) as [Hk1|Hk1].
    + rewrite lookup_app_l in Hk by done. rewrite <- (H3 k c Hk).
      destruct (Z.leb_spec (cell pi (nread m pi + Z.of_nat (length q))) (cell pi (nread m pi + Z.of_nat k))); [|done].
      destruct (Z.ltb_spec (cell pi (nread m pi + Z.of_nat k)) (cell pi (nread m pi + Z.of_nat (length q)) + Z.of_nat 1)); [|done].
      assert (E : cell pi (nread m pi + Z.of_nat k) = cell pi (nread m pi + Z.of_nat (length q))) by lia.
      apply cell_inj in E; lia.
    + apply lookup_lt_Some in Hk as Hk2. rewrite length_app in Hk2. cbn in Hk2. assert (k = length q) as -> by lia.
      rewrite lookup_app_r, Nat.sub_diag in Hk by lia. injection Hk as <-.
      rewrite (proj2 (Z.leb_le _ _)), (proj2 (Z.ltb_lt _ _)), Z.sub_diag by lia. cbn. by apply wrap_small.
Qed.

Lemma mget_pop m pi x : x < pi + PI_nread \/ pi + PI_nwrite <= x -> mget (pop m pi) x = mget m x.
Proof. intros Hx. apply mget_store_out. unfold PI_nread, PI_nwrite in *. lia. Qed.

Lemma pop_rep m pi b q :
  mem_ok m -> pipe_rep m pi (b :: q) -> mget m (cell pi (nread m pi)) = b /\ pipe_rep (pop m pi) pi q.
Proof.
  intros Hm R. pose proof R as [H1 H2 H3]. pose proof (load4_range m (pi + PI_nread) Hm) as Hr. fold (nread m pi) in Hr.
  split; [specialize (H3 0%nat b eq_refl); by rewrite Z.add_0_r in H3|].
  assert (Er : nread (pop m pi) pi = u32 (nread m pi + 1)) by (apply load4_store4; by apply wrap_range).
  assert (Ew : nwrite (pop m pi) pi = nwrite m pi).
  { apply load_ext. intros x Hx. apply mget_pop. lia. }
  cbn [length] in *. constructor.
  - lia.
  - rewrite Er, Ew, H2, wrap_add_l. f_equal. lia.
  - intros k c Hk. rewrite Er. rewrite mget_pop by (pose proof (cell_range pi (u32 (nread m pi + 1) + Z.of_nat k)); lia).
    rewrite <- cell_wrap, wrap_add_l, cell_wrap. rewrite <- (H3 (S k) c Hk). do 2 f_equal. lia.
Qed.

Lemma push_ok m pi b : mem_ok m -> mem_ok (push m pi b).
Proof. intros Hm. unfold push. auto using store_ok, put_bytes_ok. Qed.
Lemma pop_ok m pi : mem_ok m -> mem_ok (pop m pi).
Proof. intros Hm. unfold pop. auto using store_ok. Qed.

Lemma push_page m pi b : same_but_page pi m (push m pi b).
Proof. intros x Hx. apply mget_push. unfold PI_data, PI_nread, PI_nwrite, PGSIZE in *. lia. Qed.
Lemma pop_page m pi : same_but_page pi m (pop m pi).
Proof. intros x Hx. apply mget_pop. unfold PI_nread, PI_nwrite, PGSIZE in *. lia. Qed.

(** [readopen] and [writeopen] are as they were. *)
Definition same_ends (pi : Z) (m m' : gmap Z Z) : Prop :=
  forall x, pi + PI_readopen <= x < pi + PI_writeopen + 4 -> mget m' x = mget m x.
Lemma push_ends m pi b : same_ends pi m (push m pi b).
Proof. intros x Hx. apply mget_push. unfold PI_readopen, PI_nwrite in *. lia. Qed.
Lemma pop_ends m pi : same_ends pi m (pop m pi).
Proof. intros x Hx. apply mget_pop. unfold PI_readopen, PI_nwrite in *. lia. Qed.
Lemma same_ends_trans pi m1 m2 m3 : same_ends pi m1 m2 -> same_ends pi m2 m3 -> same_ends pi m1 m3.
Proof. intros A B x Hx. rewrite B by done. by apply A. Qed.
Lemma same_ends_readopen pi m m' : same_ends pi m m' -> load 4 m' (pi + PI_readopen) = load 4 m (pi + PI_readopen).
Proof. intros A. apply load_ext. intros x Hx. apply A. unfold PI_readopen, PI_writeopen in *. lia. Qed.
Lemma same_ends_writeopen pi m m' : same_ends pi m m' -> load 4 m' (pi + PI_writeopen) = load 4 m (pi + PI_writeopen).
Proof. intros A. apply load_ext. intros x Hx. apply A. unfold PI_readopen, PI_writeopen in *. lia. Qed.

(** * The calling process *)

Section PipeIo.
Context {L : KernelLayout} {W : Wakeups} {P : PipeSleep}.
#[local] Opaque walk walkaddr kalloc kfree wakeup.

(** Process [i], with table [t], runs; it was not killed, and it can take the
    locks of processes. *)
Record caller (s : kstate) (i : nat) (p : proc) (t : ptree) : Prop := {
  ca_cpu : cpu_ok s;
  ca_cur : cur s = Some i;
  ca_proc : k_procs s !! i = Some p;
  ca_root : p_pagetable p = pt_root t;
  ca_killed : p_killed p = 0;
  ca_locks : forall j, lock_free s (LK_proc j);
  ca_len : length (k_procs s) = NPROC
}.

Lemma caller_mem s i p t m : caller s i p t -> caller (set_k_mem m s) i p t.
Proof. intros []. by constructor. Qed.

Lemma caller_enter s i p t lk :
  caller s i p t -> (forall j, lk <> LK_proc j) -> caller (enter lk s) i p t.
Proof.
  intros [H1 H2 H3 H4 H5 H6 H7] Hn. constructor; try (by kproj); [by apply enter_cpu_ok|].
  intros j. unfold lock_free. rewrite enter_lock_ne by done. apply H6.
Qed.

Lemma killed_ok s i p t : caller s i p t -> killed i s = Ret 0 s.
Proof.
  intros C. pose proof (ca_cpu _ _ _ _ C) as Hc. pose proof (ca_locks _ _ _ _ C i) as Hl. unfold killed.
  run (acquire_free (LK_proc i) s Hc Hl).
  assert (Hp : k_procs (enter (LK_proc i) s) !! i = Some p) by (kproj; apply C).
  run (get_proc_ok _ i p Hp). leave. kproj. by rewrite (ca_killed _ _ _ _ C).
Qed.

(** One byte in, one byte out. *)
Lemma copyin1 s t l va :
  as_inv s t l -> 0 <= va ->
  exists rest, copyin (pt_root t) va 1 s = Ret (match uread (k_mem s) t va with Some b => (0, [b]) | None => (-1, rest) end) s.
Proof.
  intros Hi Hva. destruct (copyin_loop_spec 2 s t l va 1 [] Hi Hva ltac:(lia)) as [rest E]. exists rest.
  unfold copyin. change (S (Z.to_nat 1)) with 2%nat. change 1 with (Z.of_nat 1) at 1. rewrite E. cbn.
  by destruct (uread (k_mem s) t va).
Qed.

Lemma copyout1 s t l va b :
  as_inv s t l -> 0 <= va ->
  copyout (pt_root t) va [b] s =
  if writable (k_mem s) t va then Ret 0 (set_k_mem (put_bytes (k_mem s) (phys (k_mem s) t va) [b]) s) else Ret (-1) s.
Proof.
  intros Hi Hva. unfold copyout. rewrite copyout_loop_S. cbn [length]. cbv zeta. rewrite (proj2 (Z.ltb_lt _ _)) by lia. cbn [negb].
  rewrite (copyout_guard s t l va) by done. destruct (writable (k_mem s) t va); [|done].
  rewrite rounddown_off. pose proof (Z.mod_pos_bound va PGSIZE ltac:(lia)).
  assert (E : (if Z.of_nat 1 <? PGSIZE - va mod PGSIZE then Z.of_nat 1 else PGSIZE - va mod PGSIZE) = 1) by (case_ltb; lia).
  replace (upage (k_mem s) t va + va - PGROUNDDOWN va) with (phys (k_mem s) t va)
    by (unfold phys; pose proof (rounddown_off va); lia).
  rewrite E. reflexivity.
Qed.

(** * Writing *)

(** The bytes at [va] up to the first that cannot be read, [n] at most. *)
Fixpoint uprefix (m : gmap Z Z) (t : ptree) (va : Z) (n : nat) : list Z :=
  match n with
  | O => []
  | S n => match uread m t va with Some b => b :: uprefix m t (va + 1) n | None => [] end
  end.

Lemma uprefix_ext m m' t va n :
  (forall va, uread m' t va = uread m t va) -> uprefix m' t va n = uprefix m t va n.
Proof. intros H. revert va; induction n as [|n IH]; intros va; [done|]. cbn. rewrite H. destruct (uread m t va); [by rewrite IH|done]. Qed.

(** What a call answers that was to move [n] bytes and moved [k]. *)
Definition answer (k n : Z) : Z := if (k =? 0) && (k <? n) then -1 else k.

(** The state inside the critical section: the pipe holds [q]. *)
Record holds_pipe (s : kstate) (i : nat) (p : proc) (t : ptree) (l : list Z) (pi : Z) (q : list Z) : Prop := {
  hp_caller : caller s i p t;
  hp_inv : as_inv s t l;
  hp_page : page_ok pi;
  hp_apart : ~ owned (k_mem s) t l pi;
  hp_rep : pipe_rep (k_mem s) pi q
}.

Lemma hp_mem s i p t l pi q : holds_pipe s i p t l pi q -> mem_ok (k_mem s).
Proof. intros H. apply (km_mem _ _ (pi_kmem _ _ _ (as_pt _ _ _ (hp_inv _ _ _ _ _ _ _ H)))). Qed.

(** A change of the pipe's page to one that holds [q']. *)
Lemma holds_pipe_set s i p t l pi q m q' :
  holds_pipe s i p t l pi q -> mem_ok m -> same_but_page pi (k_mem s) m -> pipe_rep m pi q' ->
  holds_pipe (set_k_mem m s) i p t l pi q' /\
  (forall va, uread m t va = uread (k_mem s) t va) /\ (forall va, writable m t va = writable (k_mem s) t va).
Proof.
  intros [H1 H2 H3 H4 H5] Hm Hs R. destruct (other_page s t l pi m H2 H3 H4 Hm Hs) as (A & B & C & D).
  split; [|done]. constructor; try done. by apply caller_mem.
Qed.

Lemma uread_byte s i p t l pi q va b : holds_pipe s i p t l pi q -> uread (k_mem s) t va = Some b -> byte_ok b.
Proof. intros H E. unfold uread in E. destruct (readable _ _ _); [|done]. injection E as <-. by apply (hp_mem _ _ _ _ _ _ _ H). Qed.

Lemma uread_bound m t va b : uread m t va = Some b -> 0 <= va < MAXVA.
Proof. unfold uread, readable. intros H. destruct (_ && _) eqn:E; [|done]. b2p. lia. Qed.

Lemma pipewrite_loop_S fuel pi pr addr n i :
  pipewrite_loop (S fuel) pi pr addr n i =
  if negb (i <? n) then pipewrite_end pi i else
  readopen <- ld32 (pi + PI_readopen) ;;
  k <- (if readopen =? 0 then ret 1 else killed pr) ;;
  if negb (k =? 0) then release (LK_pipe pi) ;; ret (-1) else
  w <- ld32 (pi + PI_nwrite) ;;
  r <- ld32 (pi + PI_nread) ;;
  if w =? u32 (r + PIPESIZE) then
    wakeup (CH_pipe_r pi) ;; sleep_prepare (CH_pipe_w pi) ;; release (LK_pipe pi) ;; sleep_now ;;
    acquire (LK_pipe pi) ;; pipewrite_loop fuel pi pr addr n i
  else
    p <- get_proc pr ;;
    ' (r, l) <- copyin (p_pagetable p) (u64 (addr + i)) 1 ;;
    if r =? -1 then pipewrite_end pi (if i =? 0 then -1 else i) else
    w <- ld32 (pi + PI_nwrite) ;;
    mem_upd (fun m => put_bytes m (pi + PI_data + w mod PIPESIZE) l) ;;
    st32 (pi + PI_nwrite) (u32 (w + 1)) ;;
    pipewrite_loop fuel pi pr addr n (i + 1).
Proof. reflexivity. Qed.

(** A turn when there is room: the next byte is pushed, or the loop ends. *)
Lemma pipewrite_turn fuel s i p t l pi q addr n j :
  holds_pipe s i p t l pi q -> load 4 (k_mem s) (pi + PI_readopen) <> 0 -> 0 <= j < n ->
  0 <= addr + j < 2 ^ 64 -> Z.of_nat (length q) < PIPESIZE ->
  pipewrite_loop (S fuel) pi i addr n j s =
  match uread (k_mem s) t (addr + j) with
  | Some b => pipewrite_loop fuel pi i addr n (j + 1) (set_k_mem (push (k_mem s) pi b) s)
  | None => pipewrite_end pi (answer j n) s
  end.
Proof.
  intros H Hro Hj Hva Hq. pose proof (hp_caller _ _ _ _ _ _ _ H) as C. rewrite pipewrite_loop_S.
  rewrite (proj2 (Z.ltb_lt _ _)) by lia. cbn [negb].
  unfold ld32 at 1, gets at 1, bind at 1. rewrite (proj2 (Z.eqb_neq _ _)) by done.
  run (killed_ok s i p t C). cbn [negb Z.eqb]. unfold ld32 at 1 2, gets at 1 2, bind at 1 2.
  change (load 4 (k_mem s) (pi + PI_nwrite)) with (nwrite (k_mem s) pi).
  change (load 4 (k_mem s) (pi + PI_nread)) with (nread (k_mem s) pi).
  rewrite (pipe_full _ _ q (hp_mem _ _ _ _ _ _ _ H) (hp_rep _ _ _ _ _ _ _ H)), (proj2 (Z.eqb_neq _ _)) by lia.
  run (get_proc_ok s i p (ca_proc _ _ _ _ C)). rewrite (ca_root _ _ _ _ C), wrap_small by done.
  destruct (copyin1 s t l (addr + j) (hp_inv _ _ _ _ _ _ _ H) ltac:(lia)) as [rest E]. run E.
  destruct (uread (k_mem s) t (addr + j)) as [b|] eqn:Eb.
  - cbn [Z.eqb]. reflexivity.
  - cbn [Z.eqb Pos.eqb]. f_equal. unfold answer. rewrite (proj2 (Z.ltb_lt j n)) by lia. by rewrite andb_true_r.
Qed.

Lemma pipewrite_loop_spec k s i p t l pi q addr n j fuel :
  holds_pipe s i p t l pi q -> load 4 (k_mem s) (pi + PI_readopen) <> 0 ->
  0 <= j -> n = j + Z.of_nat k -> 0 <= addr + j < 2 ^ 64 -> Z.of_nat (length q) + Z.of_nat k <= PIPESIZE ->
  let bs := uprefix (k_mem s) t (addr + j) k in
  exists m', pipewrite_loop (S k + fuel) pi i addr n j s = pipewrite_end pi (answer (j + Z.of_nat (length bs)) n) (set_k_mem m' s) /\
    holds_pipe (set_k_mem m' s) i p t l pi (q ++ bs) /\ same_but_page pi (k_mem s) m' /\ same_ends pi (k_mem s) m'.
Proof.
  revert s q j; induction k as [|k IH]; intros s q j H Hro Hj Hn Hva Hq bs.
  { exists (k_mem s). assert (Es : set_k_mem (k_mem s) s = s) by (by destruct s). rewrite Es. subst bs. cbn [uprefix length].
    rewrite app_nil_r, Z.add_0_r. change (1 + fuel)%nat with (S fuel). rewrite pipewrite_loop_S, (proj2 (Z.ltb_ge _ _)) by lia. cbn [negb].
    split; [|done]. f_equal. unfold answer. by rewrite (proj2 (Z.ltb_ge j n)), andb_false_r by lia. }
  change (S (S k) + fuel)%nat with (S (S k + fuel)). rewrite (pipewrite_turn _ s i p t l pi q addr n j) by (done || lia).
  subst bs. cbn [uprefix]. destruct (uread (k_mem s) t (addr + j)) as [b|] eqn:Eb.
  2:{ exists (k_mem s). assert (Es : set_k_mem (k_mem s) s = s) by (by destruct s). rewrite Es. cbn [length].
      by rewrite app_nil_r, Z.add_0_r. }
  pose proof (uread_byte _ _ _ _ _ _ _ _ _ H Eb) as Hb. pose proof (uread_bound _ _ _ _ Eb) as Hbd.
  destruct (holds_pipe_set s i p t l pi q (push (k_mem s) pi b) (q ++ [b]) H) as (H' & Hu & _);
    [apply push_ok, (hp_mem _ _ _ _ _ _ _ H)|apply push_page|apply push_rep; [apply (hp_mem _ _ _ _ _ _ _ H)|done|apply H|lia]|].
  destruct (IH (set_k_mem (push (k_mem s) pi b) s) (q ++ [b]) (j + 1) H') as (m' & E & Hp & Hs & He).
  - cbn [k_mem set_k_mem]. by rewrite (same_ends_readopen _ _ _ (push_ends _ _ _)).
  - lia.
  - lia.
  - lia.
  - rewrite length_app. cbn. lia.
  - cbn [k_mem set_k_mem] in *. replace (addr + (j + 1)) with (addr + j + 1) in * by lia.
    rewrite (uprefix_ext (k_mem s)) in * by done. exists m'. rewrite E. cbn [length]. split_and!.
    + f_equal. f_equal. lia.
    + by rewrite <- app_assoc in Hp.
    + eapply same_but_page_trans; [apply push_page|done].
    + eapply same_ends_trans; [apply push_ends|done].
Qed.

(** [wakeup(ch); release(&pi->lock);] at the end of both calls *)
Lemma pipe_leave {A} s i p t pi ch m (a : A) :
  caller s i p t -> lock_free s (LK_pipe pi) ->
  (wakeup ch ;; release (LK_pipe pi) ;; ret a) (set_k_mem m (enter (LK_pipe pi) s)) =
  Ret a (set_k_procs (wake (Some i) ch 0 (k_procs s)) (set_k_mem m s)).
Proof.
  intros C Hl. pose proof (ca_cpu _ _ _ _ C) as Hc.
  pose proof (caller_mem _ _ _ _ m (caller_enter s i p t (LK_pipe pi) C ltac:(done))) as C1.
  rewrite (bind_Ret _ _ _ _ _ (wakeup_ok ch (set_k_mem m (enter (LK_pipe pi) s)) (ca_cpu _ _ _ _ C1)
    (fun j _ => ca_locks _ _ _ _ C1 j) (ca_len _ _ _ _ C1))).
  rewrite (ca_cur _ _ _ _ C1). leave. by kproj.
Qed.

Lemma enter_pipe s i p t l pi q :
  holds_pipe s i p t l pi q -> holds_pipe (enter (LK_pipe pi) s) i p t l pi q.
Proof.
  intros [H1 H2 H3 H4 H5]. constructor; rewrite ?k_mem_enter; try done; [by apply caller_enter|].
  destruct H2 as [[[K1 K2 K3 K4] Hw Hu] Ha Hb Hc].
  constructor; rewrite ?k_mem_enter; try done. constructor; rewrite ?k_mem_enter; try done.
  constructor; rewrite ?k_mem_enter, ?k_freelist_enter; done.
Qed.

(** What both calls do to the kernel: memory [m], and [ch] woken. *)
Definition after (i : nat) (ch : chan) (m : gmap Z Z) (s : kstate) : kstate :=
  set_k_procs (wake (Some i) ch 0 (k_procs s)) (set_k_mem m s).

Lemma leave_pipe s i p t l pi q m :
  holds_pipe s i p t l pi q -> forall q', holds_pipe (set_k_mem m (enter (LK_pipe pi) s)) i p t l pi q' -> holds_pipe (set_k_mem m s) i p t l pi q'.
Proof.
  intros [H1 H2 H3 H4 H5] q' [G1 [[[K1 K2 K3 K4] Hw Hu] Ha Hb Hc] G3 G4 G5]. cbn [k_mem k_freelist set_k_mem] in *. rewrite k_freelist_enter in K1.
  constructor; [by apply caller_mem|by constructor|done..].
Qed.

Lemma pipewrite_ok s i p t l pi q addr n :
  holds_pipe s i p t l pi q -> lock_free s (LK_pipe pi) -> load 4 (k_mem s) (pi + PI_readopen) <> 0 ->
  0 <= addr < 2 ^ 64 -> 0 <= n -> Z.of_nat (length q) + n <= PIPESIZE ->
  let bs := uprefix (k_mem s) t addr (Z.to_nat n) in
  exists m', pipewrite pi addr n s = Ret (answer (Z.of_nat (length bs)) n) (after i (CH_pipe_r pi) m' s) /\
    holds_pipe (set_k_mem m' s) i p t l pi (q ++ bs) /\ same_but_page pi (k_mem s) m' /\ same_ends pi (k_mem s) m'.
Proof.
  intros H Hl Hro Ha Hn Hq bs. pose proof (hp_caller _ _ _ _ _ _ _ H) as C. pose proof (enter_pipe _ _ _ _ _ _ _ H) as H1.
  destruct (pipewrite_loop_spec (Z.to_nat n) (enter (LK_pipe pi) s) i p t l pi q addr n 0 n_wakeups H1)
    as (m' & E & Hp & Hs & He); rewrite ?k_mem_enter, ?Z.add_0_r; [done|lia..|].
  rewrite ?k_mem_enter, ?Z.add_0_r, ?Z.add_0_l in *. exists m'. split_and!; [|by eapply leave_pipe|done|done].
  unfold pipewrite. run (me_ok s i (ca_cpu _ _ _ _ C) (ca_cur _ _ _ _ C)).
  run (acquire_free (LK_pipe pi) s (ca_cpu _ _ _ _ C) Hl).
  change (S (Z.to_nat n + n_wakeups)) with (S (Z.to_nat n) + n_wakeups)%nat. rewrite E. by eapply pipe_leave.
Qed.

(** C22: writing to a pipe that has a reader and room for [n] bytes appends to its
    queue the bytes the process itself reads at [addr], and answers [n]; if one of
    them cannot be read it appends those before it and answers their number, or -1
    if there are none. Those who sleep on the pipe for bytes are woken; the locks
    are as before, nothing but the page of the pipe is written, and no end of the
    pipe is opened or closed. *)
Theorem pipewrite_appends s i p t l pi q addr n :
  holds_pipe s i p t l pi q -> lock_free s (LK_pipe pi) -> load 4 (k_mem s) (pi + PI_readopen) <> 0 ->
  0 <= addr < 2 ^ 64 -> 0 <= n -> Z.of_nat (length q) + n <= PIPESIZE ->
  let bs := uprefix (k_mem s) t addr (Z.to_nat n) in
  exists m', pipewrite pi addr n s =
      Ret (answer (Z.of_nat (length bs)) n)
          (set_k_procs (wake (Some i) (CH_pipe_r pi) 0 (k_procs s)) (set_k_mem m' s)) /\
    pipe_rep m' pi (q ++ bs) /\ as_inv (set_k_mem m' s) t l /\ same_but_page pi (k_mem s) m' /\ same_ends pi (k_mem s) m'.
Proof.
  intros H Hl Hro Ha Hn Hq bs. destruct (pipewrite_ok s i p t l pi q addr n H Hl Hro Ha Hn Hq) as (m' & E & Hp & Hs & He).
  exists m'. split_and!; [exact E|apply Hp|apply Hp|done|done].
Qed.

(** * Reading *)

(** The number of addresses from [va] on that can be written, [n] at most. *)
Fixpoint wprefix (m : gmap Z Z) (t : ptree) (va : Z) (n : nat) : nat :=
  match n with O => O | S n => if writable m t va then S (wprefix m t (va + 1) n) else O end.

Lemma wprefix_ext m m' t va n :
  (forall va, writable m' t va = writable m t va) -> wprefix m' t va n = wprefix m t va n.
Proof. intros H. revert va; induction n as [|n IH]; intros va; [done|]. cbn. rewrite H. destruct (writable m t va); [by rewrite IH|done]. Qed.

(** User memory after the bytes [bs] were stored at [va]. *)
Definition stored (m m' : gmap Z Z) (t : ptree) (va : Z) (bs : list Z) : Prop :=
  forall x, uread m' t x =
    if (va <=? x) && (x <? va + Z.of_nat (length bs)) then Some (nth (Z.to_nat (x - va)) bs 0) else uread m t x.

Lemma stored_cons m m1 m' t va b bs :
  stored m m1 t va [b] -> stored m1 m' t (va + 1) bs -> stored m m' t va (b :: bs).
Proof.
  intros A B x. rewrite B, A. cbn [length].
  destruct (Z.leb_spec (va + 1) x), (Z.ltb_spec x (va + 1 + Z.of_nat (length bs))), (Z.leb_spec va x),
    (Z.ltb_spec x (va + Z.of_nat (S (length bs)))), (Z.ltb_spec x (va + Z.of_nat 1)); cbn [andb]; try lia; try done.
  - replace (Z.to_nat (x - va)) with (S (Z.to_nat (x - (va + 1)))) by lia. done.
  - replace (Z.to_nat (x - va)) with O by lia. done.
Qed.

Lemma piperead_copy_S k pi pr addr i :
  piperead_copy (S k) pi pr addr i =
  (r <- ld32 (pi + PI_nread) ;;
   w <- ld32 (pi + PI_nwrite) ;;
   if r =? w then ret i else
   ch <- gets (fun s => bytes_at (k_mem s) (pi + PI_data + r mod PIPESIZE) 1) ;;
   p <- get_proc pr ;;
   x <- copyout (p_pagetable p) (u64 (addr + i)) ch ;;
   if x =? -1 then ret (if i =? 0 then -1 else i) else
   r <- ld32 (pi + PI_nread) ;;
   st32 (pi + PI_nread) (u32 (r + 1)) ;;
   piperead_copy k pi pr addr (i + 1)).
Proof. reflexivity. Qed.

(** Writing user memory leaves the pipe alone. *)
Lemma store_user s i p t l pi q va b :
  holds_pipe s i p t l pi q -> writable (k_mem s) t va = true -> byte_ok b ->
  let m := put_bytes (k_mem s) (phys (k_mem s) t va) [b] in
  holds_pipe (set_k_mem m s) i p t l pi q /\ stored (k_mem s) m t va [b] /\
  (forall va, writable m t va = writable (k_mem s) t va) /\
  forall x, pi <= x < pi + PGSIZE -> mget m x = mget (k_mem s) x.
Proof.
  intros H Hw Hb m. pose proof (hp_inv _ _ _ _ _ _ _ H) as Hi.
  pose proof (Z.mod_pos_bound va PGSIZE ltac:(lia)).
  destruct (uput_page s t l va [b] Hi Hw) as [[U1 U2 U3 U4] Hi']; [by constructor|cbn [length]; lia|]. fold m in U1, U3, U4, Hi'.
  pose proof (readable_uvalid _ _ _ _ Hi (writable_readable _ _ _ Hw)) as Hv.
  assert (Hx : forall x, pi <= x < pi + PGSIZE -> mget m x = mget (k_mem s) x).
  { intros x Hx. apply mget_put_bytes_out. cbn [length]. pose proof (phys_in_page (k_mem s) t va).
    destruct (as_page _ _ _ Hi va Hv) as [Hok _].
    destruct (page_ok_apart pi (upage (k_mem s) t va) (hp_page _ _ _ _ _ _ _ H) Hok); [|lia..].
    intros E. apply (hp_apart _ _ _ _ _ _ _ H). right; right. by exists va. }
  split_and!; [|done|intros va'; by apply writable_leaf|done]. constructor; [apply caller_mem, H|done|apply H| |].
  - intros Ho. apply (hp_apart _ _ _ _ _ _ _ H). destruct Ho as [?|[?|(va' & [H1 H2] & E)]]; [by left|right; by left|right; right].
    exists va'. unfold uvalid, upage in *. cbn in *. rewrite U1 in *. done.
  - eapply pipe_rep_ext; [|apply H]. intros x Hx'. apply Hx. unfold PI_readopen, PGSIZE in *. lia.
Qed.

(** [x] lies neither in the pipe nor in a page of the process or the allocator. *)
Definition elsewhere (m : gmap Z Z) (t : ptree) (l : list Z) (pi x : Z) : Prop :=
  forall r, r = pi \/ owned m t l r -> x < r \/ r + PGSIZE <= x.

(** One byte: from the front of the queue to [addr + j]. *)
Lemma piperead_turn k s i p t l pi b q addr j :
  holds_pipe s i p t l pi (b :: q) -> 0 <= addr + j < 2 ^ 64 ->
  if writable (k_mem s) t (addr + j) then
    exists m, piperead_copy (S k) pi i addr j s = piperead_copy k pi i addr (j + 1) (set_k_mem m s) /\
      holds_pipe (set_k_mem m s) i p t l pi q /\ stored (k_mem s) m t (addr + j) [b] /\
      (forall va, writable m t va = writable (k_mem s) t va) /\
      (forall r, owned m t l r <-> owned (k_mem s) t l r) /\ same_ends pi (k_mem s) m /\
      (forall x, elsewhere (k_mem s) t l pi x -> mget m x = mget (k_mem s) x)
  else piperead_copy (S k) pi i addr j s = Ret (if j =? 0 then -1 else j) s.
Proof.
  intros H Hva. pose proof (hp_caller _ _ _ _ _ _ _ H) as C. pose proof (hp_mem _ _ _ _ _ _ _ H) as Hm.
  destruct (pop_rep _ _ _ _ Hm (hp_rep _ _ _ _ _ _ _ H)) as [Hb _].
  assert (Hbk : byte_ok b) by (rewrite <- Hb; apply Hm).
  assert (Hrun : piperead_copy (S k) pi i addr j s =
    (x <- copyout (pt_root t) (addr + j) [b] ;;
     if x =? -1 then ret (if j =? 0 then -1 else j) else
     r <- ld32 (pi + PI_nread) ;; st32 (pi + PI_nread) (u32 (r + 1)) ;; piperead_copy k pi i addr (j + 1)) s).
  { rewrite piperead_copy_S. unfold ld32 at 1 2, gets at 1 2, bind at 1 2.
    change (load 4 (k_mem s) (pi + PI_nwrite)) with (nwrite (k_mem s) pi).
    change (load 4 (k_mem s) (pi + PI_nread)) with (nread (k_mem s) pi).
    rewrite (pipe_empty _ _ (b :: q) Hm (hp_rep _ _ _ _ _ _ _ H)), bool_decide_false by done.
    unfold gets at 1, bind at 1. cbn [bytes_at]. fold (cell pi (nread (k_mem s) pi)). rewrite Hb.
    run (get_proc_ok s i p (ca_proc _ _ _ _ C)). by rewrite (ca_root _ _ _ _ C), wrap_small. }
  rewrite Hrun. pose proof (copyout1 s t l (addr + j) b (hp_inv _ _ _ _ _ _ _ H) ltac:(lia)) as Eo.
  destruct (writable (k_mem s) t (addr + j)) eqn:Hw; [|by run Eo].
  destruct (store_user s i p t l pi (b :: q) (addr + j) b H Hw Hbk) as (H1 & Hst & Hwr & Hpg).
  set (m1 := put_bytes (k_mem s) (phys (k_mem s) t (addr + j)) [b]) in *.
  pose proof (hp_mem _ _ _ _ _ _ _ H1) as Hm1. cbn [k_mem set_k_mem] in Hm1.
  destruct (pop_rep m1 pi b q Hm1 (hp_rep _ _ _ _ _ _ _ H1)) as [_ R2].
  destruct (holds_pipe_set _ i p t l pi (b :: q) (pop m1 pi) q H1 (pop_ok _ _ Hm1) (pop_page _ _) R2) as (H2 & Hu2 & Hw2).
  cbn [k_mem set_k_mem] in Hu2, Hw2. exists (pop m1 pi).
  split; [by run Eo|]. split; [exact H2|]. split; [intros x; rewrite Hu2; apply Hst|].
  split; [intros va; by rewrite Hw2|].
  assert (He : same_ends pi (k_mem s) (pop m1 pi)).
  { intros x Hx. rewrite (pop_ends m1 pi x Hx). apply Hpg. unfold PI_readopen, PI_writeopen, PGSIZE in *. lia. }
  pose proof (hp_inv _ _ _ _ _ _ _ H) as Hi.
  pose proof (readable_uvalid _ _ _ _ Hi (writable_readable _ _ _ Hw)) as Hv.
  assert (Hup : page_ok (upage (k_mem s) t (addr + j))) by apply (as_page _ _ _ Hi _ Hv).
  assert (Hs1 : same_but_page (upage (k_mem s) t (addr + j)) (k_mem s) m1).
  { intros x Hx. apply mget_put_bytes_out. cbn [length]. pose proof (phys_in_page (k_mem s) t (addr + j)). lia. }
  assert (Hfr : forall x, elsewhere (k_mem s) t l pi x -> mget (pop m1 pi) x = mget (k_mem s) x).
  { intros x Hx. rewrite (pop_page m1 pi) by (apply Hx; by left). apply Hs1, Hx. right; right; right. by exists (addr + j). }
  split; [|split; [exact He|exact Hfr]].
  assert (Hl : forall va, pt_leaf (pop m1 pi) t va = pt_leaf (k_mem s) t va).
  { intros va. destruct (as_inv_write s t l (addr + j) m1 Hi Hv Hm1 Hs1) as [Hi1 Hl1].
    destruct (as_inv_page (set_k_mem m1 s) t l pi (pop m1 pi) Hi1 (hp_page _ _ _ _ _ _ _ H)) as [_ Hl2].
    - intros ?. apply (hp_apart _ _ _ _ _ _ _ H). by left.
    - intros ?. apply (hp_apart _ _ _ _ _ _ _ H). right; by left.
    - by apply pop_ok.
    - apply pop_page.
    - rewrite Hl2. cbn. apply Hl1. }
  intros r. unfold owned, uvalid, upage. by setoid_rewrite Hl.
Qed.

Lemma piperead_copy_spec k s i p t l pi q addr j :
  holds_pipe s i p t l pi q -> 0 <= j -> 0 <= addr + j < 2 ^ 64 ->
  let c := wprefix (k_mem s) t (addr + j) (k `min` length q) in
  exists m', piperead_copy k pi i addr j s =
      Ret (answer (j + Z.of_nat c) (j + Z.of_nat (k `min` length q))) (set_k_mem m' s) /\
    holds_pipe (set_k_mem m' s) i p t l pi (drop c q) /\ stored (k_mem s) m' t (addr + j) (take c q) /\
    same_ends pi (k_mem s) m' /\ (forall x, elsewhere (k_mem s) t l pi x -> mget m' x = mget (k_mem s) x).
Proof.
  revert s q j; induction k as [|k IH]; intros s q j H Hj Hva c.
  all: assert (Es : set_k_mem (k_mem s) s = s) by (by destruct s).
  all: assert (Hnil : stored (k_mem s) (k_mem s) t (addr + j) []) by
    (intros x; cbn [length]; destruct (Z.leb_spec (addr + j) x), (Z.ltb_spec x (addr + j + Z.of_nat 0)); done || lia).
  { exists (k_mem s). rewrite Es. cbn. rewrite Z.add_0_r. unfold answer. by rewrite Z.ltb_irrefl, andb_false_r. }
  destruct q as [|b q].
  { exists (k_mem s). rewrite Es. subst c. cbn [length]. rewrite Nat.min_0_r. cbn [wprefix Z.of_nat drop take]. rewrite Z.add_0_r.
    split_and!; [|done..]. rewrite piperead_copy_S. unfold ld32 at 1 2, gets at 1 2, bind at 1 2.
    change (load 4 (k_mem s) (pi + PI_nwrite)) with (nwrite (k_mem s) pi).
    change (load 4 (k_mem s) (pi + PI_nread)) with (nread (k_mem s) pi).
    rewrite (pipe_empty _ _ [] (hp_mem _ _ _ _ _ _ _ H) (hp_rep _ _ _ _ _ _ _ H)).
    cbn. unfold answer. by rewrite Z.ltb_irrefl, andb_false_r. }
  pose proof (piperead_turn k s i p t l pi b q addr j H Hva) as Ht. subst c.
  change (S k `min` length (b :: q))%nat with (S (k `min` length q)). cbn [wprefix].
  destruct (writable (k_mem s) t (addr + j)) eqn:Hw.
  2:{ exists (k_mem s). rewrite Es. split_and!; [|done..]. rewrite Ht. f_equal. unfold answer. cbn [Z.of_nat].
      rewrite Z.add_0_r, (proj2 (Z.ltb_lt j _)), andb_true_r by lia. done. }
  destruct Ht as (m & E & H1 & Hst & Hwr & Hown & He & Hfr).
  assert (Hbd : addr + j < MAXVA) by (pose proof (writable_readable _ _ _ Hw) as Hr; unfold readable in Hr; b2p; lia).
  destruct (IH (set_k_mem m s) q (j + 1) H1) as (m' & E' & H' & Hst' & He' & Hfr'); [lia..|].
  cbn [k_mem set_k_mem] in *. replace (addr + (j + 1)) with (addr + j + 1) in * by lia.
  rewrite (wprefix_ext (k_mem s)) in * by done. exists m'. rewrite E, E'. cbn [drop take]. split_and!.
  - f_equal. f_equal; lia.
  - done.
  - by eapply stored_cons.
  - by eapply same_ends_trans.
  - intros x Hx. rewrite Hfr'; [by apply Hfr|]. intros r [->|Hr]; apply Hx; [by left|right; by apply Hown].
Qed.

Lemma piperead_ok s i p t l pi q addr n :
  holds_pipe s i p t l pi q -> lock_free s (LK_pipe pi) ->
  q <> [] \/ load 4 (k_mem s) (pi + PI_writeopen) = 0 -> 0 <= addr < 2 ^ 64 -> 0 <= n ->
  let k := (Z.to_nat n `min` length q)%nat in
  let c := wprefix (k_mem s) t addr k in
  exists m', piperead pi addr n s = Ret (answer (Z.of_nat c) (Z.of_nat k)) (after i (CH_pipe_w pi) m' s) /\
    holds_pipe (set_k_mem m' s) i p t l pi (drop c q) /\ stored (k_mem s) m' t addr (take c q) /\
    same_ends pi (k_mem s) m' /\ (forall x, elsewhere (k_mem s) t l pi x -> mget m' x = mget (k_mem s) x).
Proof.
  intros H Hl Hgo Ha Hn k c. pose proof (hp_caller _ _ _ _ _ _ _ H) as C. pose proof (enter_pipe _ _ _ _ _ _ _ H) as H1.
  destruct (piperead_copy_spec (Z.to_nat n) (enter (LK_pipe pi) s) i p t l pi q addr 0 H1)
    as (m' & E & Hp & Hst & He & Hfr); [lia..|]. rewrite ?k_mem_enter, ?Z.add_0_r, ?Z.add_0_l in *.
  exists m'. split_and!; [|by eapply leave_pipe|done..].
  unfold piperead. run (me_ok s i (ca_cpu _ _ _ _ C) (ca_cur _ _ _ _ C)).
  run (acquire_free (LK_pipe pi) s (ca_cpu _ _ _ _ C) Hl).
  assert (Ew : piperead_wait (S n_wakeups) pi i (enter (LK_pipe pi) s) = Ret true (enter (LK_pipe pi) s)).
  { cbn [piperead_wait]. unfold ld32 at 1 2 3, gets at 1 2 3, bind at 1 2 3. rewrite k_mem_enter.
    change (load 4 (k_mem s) (pi + PI_nwrite)) with (nwrite (k_mem s) pi).
    change (load 4 (k_mem s) (pi + PI_nread)) with (nread (k_mem s) pi).
    rewrite (pipe_empty _ _ q (hp_mem _ _ _ _ _ _ _ H) (hp_rep _ _ _ _ _ _ _ H)).
    destruct Hgo as [Hq|Hw0]; [by rewrite bool_decide_false|by rewrite Hw0, andb_false_r]. }
  run Ew. cbn [negb]. run E. by eapply pipe_leave.
Qed.

(** C23: reading from a pipe that has bytes, or whose writers are gone, takes bytes
    from the front of its queue, [n] at most, stores them in order at [addr] in the
    memory of the process, and answers how many it took: 0 at the end of the file,
    and -1 if not even the first could be stored. It stops at the first address the
    process could not write, and that byte stays in the pipe. Writers that wait for
    room are woken; nothing but the pipe and the process's own memory is written, and
    no end of the pipe is opened or closed. *)
Theorem piperead_takes s i p t l pi q addr n :
  holds_pipe s i p t l pi q -> lock_free s (LK_pipe pi) ->
  q <> [] \/ load 4 (k_mem s) (pi + PI_writeopen) = 0 -> 0 <= addr < 2 ^ 64 -> 0 <= n ->
  let k := (Z.to_nat n `min` length q)%nat in
  let c := wprefix (k_mem s) t addr k in
  exists m', piperead pi addr n s =
      Ret (answer (Z.of_nat c) (Z.of_nat k))
          (set_k_procs (wake (Some i) (CH_pipe_w pi) 0 (k_procs s)) (set_k_mem m' s)) /\
    pipe_rep m' pi (drop c q) /\ as_inv (set_k_mem m' s) t l /\ stored (k_mem s) m' t addr (take c q) /\
    same_ends pi (k_mem s) m' /\ (forall x, elsewhere (k_mem s) t l pi x -> mget m' x = mget (k_mem s) x).
Proof.
  intros H Hl Hgo Ha Hn k c. destruct (piperead_ok s i p t l pi q addr n H Hl Hgo Ha Hn) as (m' & E & Hp & Hst & He & Hfr).
  exists m'. split_and!; [exact E|apply Hp|apply Hp|done..].
Qed.

(** The end that [pipeclose] closes. *)
Definition end_flag (w : bool) : Z := if w then PI_writeopen else PI_readopen.

Lemma pipeclose_ok s i p t l pi q (w : bool) :
  holds_pipe s i p t l pi q -> lock_free s (LK_pipe pi) ->
  let ch := if w then CH_pipe_r pi else CH_pipe_w pi in
  let m1 := store 4 (k_mem s) (pi + end_flag w) 0 in
  let s1 := after i ch m1 s in
  holds_pipe (set_k_mem m1 s) i p t l pi q /\
  pipeclose pi w s = if load 4 (k_mem s) (pi + end_flag (negb w)) =? 0 then kfree pi s1 else Ret tt s1.
Proof.
  intros H Hl ch m1 s1. pose proof (hp_caller _ _ _ _ _ _ _ H) as C. pose proof (hp_mem _ _ _ _ _ _ _ H) as Hm.
  assert (Hm1 : mem_ok m1) by (by apply store_ok).
  assert (Hs : same_but_page pi (k_mem s) m1).
  { intros x Hx. apply mget_store_out. unfold end_flag, PI_readopen, PI_writeopen, PGSIZE in *. destruct w; lia. }
  split.
  { apply (holds_pipe_set s i p t l pi q m1 q H Hm1 Hs). eapply pipe_rep_ext; [|apply H].
    intros x Hx. apply mget_store_out. unfold end_flag, PI_readopen, PI_writeopen, PI_nwrite in *. destruct w; lia. }
  pose proof (caller_mem _ _ _ _ m1 (caller_enter s i p t (LK_pipe pi) C ltac:(done))) as C1.
  set (e := enter (LK_pipe pi) s) in *. set (e1 := set_k_procs (wake (Some i) ch 0 (k_procs s)) (set_k_mem m1 e)).
  assert (Ew : (if w then st32 (pi + PI_writeopen) 0 ;; wakeup (CH_pipe_r pi) else st32 (pi + PI_readopen) 0 ;; wakeup (CH_pipe_w pi)) e = Ret tt e1).
  { transitivity (wakeup ch (set_k_mem m1 e)); [by subst m1 ch e; rewrite <- (k_mem_enter (LK_pipe pi) s); destruct w|].
    rewrite (wakeup_ok ch (set_k_mem m1 e) (ca_cpu _ _ _ _ C1) (fun j _ => ca_locks _ _ _ _ C1 j) (ca_len _ _ _ _ C1)).
    rewrite (ca_cur _ _ _ _ C1). subst e1 e. by kproj. }
  assert (Ec : (load 4 m1 (pi + PI_readopen) =? 0) && (load 4 m1 (pi + PI_writeopen) =? 0) =
               (load 4 (k_mem s) (pi + end_flag (negb w)) =? 0)).
  { unfold m1, end_flag. destruct w; cbn [negb]; rewrite load4_store4 by lia;
      rewrite (load_store_out 4 4) by (unfold PI_readopen, PI_writeopen; lia); cbn [Z.eqb]; by rewrite ?andb_true_r. }
  assert (Er : release (LK_pipe pi) e1 = Ret tt s1).
  { unfold e1, e. pose proof (ca_cpu _ _ _ _ C) as Hc. leave. subst s1. unfold after. by kproj. }
  unfold pipeclose. run (acquire_free (LK_pipe pi) s (ca_cpu _ _ _ _ C) Hl). fold e.
  rewrite (bind_Ret _ _ _ _ _ Ew). unfold ld32 at 1 2, gets at 1 2, bind at 1 2. change (k_mem e1) with m1. rewrite Ec.
  destruct (load 4 (k_mem s) (pi + end_flag (negb w)) =? 0); [exact (bind_Ret _ _ _ _ _ Er)|exact Er].
Qed.
End PipeIo.

(** * A pipe beside the sample process *)

Module PipeSample.
#[local] Existing Instance sample_layout.

Definition PIP := KERNBASE + 0x60000.
(** An empty pipe whose reading end is open, and the same with one byte in it. *)
Definition opened : gmap Z Z := store 4 (k_mem sample_grow) (PIP + PI_readopen) 1.
Definition st : kstate := set_k_mem opened sample_grow.
Definition st1 : kstate := set_k_mem (push opened PIP 7) st.

Lemma mem_zero x : PIP <= x < PIP + PGSIZE -> mget (k_mem sample_grow) x = 0.
Proof.
  intros Hx. rewrite (proj1 sample_mem). unfold Sample.st, two_free, PIP, PGSIZE in *. cbn [k_mem set_k_mem set_k_freelist].
  unfold Sample.R, Sample.A, Sample.B. rewrite !mget_store_out by lia.
  unfold mget. by rewrite lookup_empty.
Qed.

Lemma load_zero a : PIP <= a -> a + 4 <= PIP + PI_readopen -> load 4 opened a = 0.
Proof.
  intros H1 H2. unfold opened. rewrite load_store_out by lia. rewrite (load_ext 4 _ ∅); [apply Sample.load_empty|].
  intros x Hx. rewrite mem_zero by (unfold PI_readopen, PGSIZE in *; lia). unfold mget. by rewrite lookup_empty.
Qed.

Lemma PIP_ok : page_ok PIP.
Proof. split; [done|cbn; unfold PIP; lia]. Qed.

Lemma apart : ~ owned (k_mem sample_grow) Sample.tree Sample.free PIP.
Proof.
  rewrite (proj1 sample_mem). intros [H|[H|(va & [Hva Hv] & E)]].
  - apply Sample.is_table_st in H. unfold PIP, Sample.R, Sample.A, Sample.B in H. lia.
  - unfold Sample.free, PIP in H. set_solver by lia.
  - pose proof TRAPFRAME_MAXVA. unfold upage in E. rewrite Sample.leaf in E, Hv by lia. destruct (va / PGSIZE =? 0); [|done].
    rewrite PTE2PA_entry in E by (apply Sample.U_ok || done). done.
Qed.

Lemma mem_opened : mem_ok opened.
Proof. apply store_ok, (km_mem _ _ (pi_kmem _ _ _ (as_pt _ _ _ (us_inv _ _ _ _ _ sample_space)))). Qed.

Lemma empty : holds_pipe st 0 sample_proc Sample.tree Sample.free PIP [].
Proof.
  destruct (other_page sample_grow Sample.tree Sample.free PIP opened (us_inv _ _ _ _ _ sample_space) PIP_ok apart mem_opened)
    as (Hi & Hno & _).
  { intros x Hx. apply mget_store_out. unfold PI_readopen, PGSIZE in *. lia. }
  constructor; [|exact Hi|exact PIP_ok|exact Hno|].
  - constructor; try reflexivity. exists (mk_cpu (Some 0%nat) 0 false false). split; [reflexivity|by split_and!].
  - constructor; [done| |by intros k b Hk]. unfold nread, nwrite. cbn [length k_mem st set_k_mem].
    rewrite !load_zero by (unfold PI_nread, PI_nwrite, PI_readopen, PIP; lia). done.
Qed.

Lemma one : holds_pipe st1 0 sample_proc Sample.tree Sample.free PIP [7].
Proof.
  apply (holds_pipe_set st _ _ _ _ _ _ (push opened PIP 7) [7] empty); [apply push_ok, mem_opened|apply push_page|].
  apply (push_rep opened PIP [] 7); [apply mem_opened|done|apply empty|done].
Qed.
End PipeSample.

(** Nobody sleeps in the examples. *)
#[local] Instance no_wakeups : Wakeups := 0%nat.
#[local] Instance no_sleep : PipeSleep := {| sleep_prepare := fun _ => ret tt; sleep_now := ret tt |}.

Lemma pipewrite_appends_witness :
  exists m', @pipewrite no_wakeups no_sleep PipeSample.PIP 0 3 PipeSample.st =
    Ret 3 (set_k_procs (wake (Some 0%nat) (CH_pipe_r PipeSample.PIP) 0 (k_procs PipeSample.st)) (set_k_mem m' PipeSample.st)) /\
    pipe_rep m' PipeSample.PIP [0; 0; 0].
Proof.
  destruct (@pipewrite_appends sample_layout no_wakeups no_sleep PipeSample.st 0 sample_proc Sample.tree Sample.free PipeSample.PIP [] 0 3)
    as (m' & E & R & _).
  - exact PipeSample.empty.
  - reflexivity.
  - cbn [k_mem set_k_mem PipeSample.st]. unfold PipeSample.opened. rewrite load4_store4 by lia. discriminate.
  - lia.
  - lia.
  - cbn. unfold PIPESIZE. lia.
  - exists m'. revert E R. assert (Hb : uprefix (k_mem PipeSample.st) Sample.tree 0 (Z.to_nat 3) = [0; 0; 0]).
    { vm_compute. reflexivity. }
    rewrite Hb. intros E R. split; [exact E|exact R].
Defined.

Lemma piperead_takes_witness :
  exists m', @piperead no_wakeups no_sleep PipeSample.PIP 16 5 PipeSample.st1 =
    Ret 1 (set_k_procs (wake (Some 0%nat) (CH_pipe_w PipeSample.PIP) 0 (k_procs PipeSample.st1)) (set_k_mem m' PipeSample.st1)) /\
    pipe_rep m' PipeSample.PIP [] /\ uread m' Sample.tree 16 = Some 7.
Proof.
  destruct (@piperead_takes sample_layout no_wakeups no_sleep PipeSample.st1 0 sample_proc Sample.tree Sample.free PipeSample.PIP [7] 16 5)
    as (m' & E & R & _ & Hst & _).
  - exact PipeSample.one.
  - reflexivity.
  - left. discriminate.
  - lia.
  - lia.
  - exists m'. revert E R Hst. assert (Hw : wprefix (k_mem PipeSample.st1) Sample.tree 16 (Z.to_nat 5 `min` 1) = 1%nat).
    { vm_compute. reflexivity. }
    cbn [length]. rewrite Hw. intros E R Hst. split; [exact E|]. split; [exact R|]. apply (Hst 16).
Defined.
