(* ===== verification/File.v ===== *)
(** kernel/file.c, and [pipealloc] of kernel/pipe.c: open files.

    The files of the file layer run over [fstate]: the kernel, [ftable], [devsw],
    and the descriptor table of each process, [ofile], which sysfile.c expects in
    [struct proc].  Kernel code is lifted, and so cannot touch the other parts.
    A [struct file *] is an index into [ftable.file]; a null pointer is [None]. *)

From S2P Require Import Prelude Types Memory Spinlock Kalloc Vm Sched Sleeplock Bio Uart Printf Block Log Fs Console Pipe.
Local Open Scope c_scope.

Definition NFILE : nat := 100.
Definition NOFILE : nat := 16.

Inductive ftype := FD_NONE | FD_PIPE | FD_INODE | FD_DEVICE.
#[global] Instance ftype_eq_dec : EqDecision ftype.
Proof. solve_decision. Defined.

(** file.h: [struct file] *)
Record file := mk_file {
  f_type : ftype;
  f_ref : Z;
  f_readable : bool;
  f_writable : bool;
  f_pipe : Z;
  f_ip : option nat;  (* index into itable.inode *)
  f_off : Z;
  f_major : Z;
}.
Definition set_f_type (x : ftype) (r : file) : file :=
  mk_file x (f_ref r) (f_readable r) (f_writable r) (f_pipe r) (f_ip r) (f_off r) (f_major r).
Definition set_f_ref (x : Z) (r : file) : file :=
  mk_file (f_type r) x (f_readable r) (f_writable r) (f_pipe r) (f_ip r) (f_off r) (f_major r).
Definition set_f_readable (x : bool) (r : file) : file :=
  mk_file (f_type r) (f_ref r) x (f_writable r) (f_pipe r) (f_ip r) (f_off r) (f_major r).
Definition set_f_writable (x : bool) (r : file) : file :=
  mk_file (f_type r) (f_ref r) (f_readable r) x (f_pipe r) (f_ip r) (f_off r) (f_major r).
Definition set_f_pipe (x : Z) (r : file) : file :=
  mk_file (f_type r) (f_ref r) (f_readable r) (f_writable r) x (f_ip r) (f_off r) (f_major r).
Definition set_f_ip (x : option nat) (r : file) : file :=
  mk_file (f_type r) (f_ref r) (f_readable r) (f_writable r) (f_pipe r) x (f_off r) (f_major r).
Definition set_f_off (x : Z) (r : file) : file :=
  mk_file (f_type r) (f_ref r) (f_readable r) (f_writable r) (f_pipe r) (f_ip r) x (f_major r).
Definition set_f_major (x : Z) (r : file) : file :=
  mk_file (f_type r) (f_ref r) (f_readable r) (f_writable r) (f_pipe r) (f_ip r) (f_off r) x.
Definition zero_file : file := mk_file FD_NONE 0 false false 0 None 0 0.

(** file.h: [struct devsw] *)
Record devsw := mk_devsw {
  dv_read : option (dest -> Z -> K Z);
  dv_write : option (source -> Z -> K Z);
}.

Record fstate := mk_fstate {
  fs_k : kstate;  (* the kernel *)
  fs_file : list file;  (* ftable.file[NFILE] *)
  fs_devsw : list devsw;  (* devsw[NDEV] *)
  fs_ofile : list (list (option nat));  (* ofile[NOFILE] of each process *)
}.
Definition set_fs_k (x : kstate) (r : fstate) : fstate := mk_fstate x (fs_file r) (fs_devsw r) (fs_ofile r).
Definition set_fs_file (x : list file) (r : fstate) : fstate := mk_fstate (fs_k r) x (fs_devsw r) (fs_ofile r).
Definition set_fs_devsw (x : list devsw) (r : fstate) : fstate := mk_fstate (fs_k r) (fs_file r) x (fs_ofile r).
Definition set_fs_ofile (x : list (list (option nat))) (r : fstate) : fstate := mk_fstate (fs_k r) (fs_file r) (fs_devsw r) x.

Abbreviation F := (M fstate).

(** Kernel code under the file layer. *)
Fixpoint liftk_out {A} (o : outcome kstate A) (s : fstate) : outcome fstate A :=
  match o with
  | Ret a k => Ret a (set_fs_k k s)
  | Panic msg k => Panic msg (set_fs_k k s)
  | Asleep k r => Asleep (set_fs_k k s) (fun s' => liftk_out (r (fs_k s')) s')
  | Fault what => Fault what
  | Spin => Spin
  | NoFuel => NoFuel
  end.
Definition liftk {A} (m : K A) : F A := fun s => liftk_out (m (fs_k s)) s.

Definition get_file (f : nat) : F file := fun s => deref "file" (fs_file s !! f) s.
Definition upd_file (f : nat) (g : file -> file) : F unit :=
  x <- get_file f ;; modify (fun s => set_fs_file (<[f := g x]> (fs_file s)) s).

Section File.
Context {L : KernelLayout} {W : Wakeups} {D : DiskDriver} {P : PipeSleep}.

(** console.c: [consoleinit], with the entries of [devsw] it sets *)
Definition consoleinit_devsw : F unit :=
  liftk consoleinit ;;
  modify (fun s => set_fs_devsw (<[Z.to_nat CONSOLE := mk_devsw (Some consoleread) (Some consolewrite)]> (fs_devsw s)) s).

(** * The table of open files *)

Definition fileinit : F unit := liftk (initlock LK_ftable).

(** [for (f = ftable.file; f < ftable.file + NFILE; f++)], [n] to go *)
Fixpoint filealloc_loop (n f : nat) : F (option nat) :=
  match n with
  | O => liftk (release LK_ftable) ;; ret None
  | S n =>
      x <- get_file f ;;
      if f_ref x =? 0 then
        upd_file f (set_f_ref 1) ;;
        liftk (release LK_ftable) ;;
        ret (Some f)
      else filealloc_loop n (S f)
  end.
Definition filealloc : F (option nat) := liftk (acquire LK_ftable) ;; filealloc_loop NFILE 0.

Definition filedup (f : nat) : F nat :=
  liftk (acquire LK_ftable) ;;
  x <- get_file f ;;
  if f_ref x <? 1 then panic "filedup" else
  upd_file f (fun x => set_f_ref (i32 (f_ref x + 1)) x) ;;
  liftk (release LK_ftable) ;;
  ret f.

(** What [fileclose] does with a file [ff] nobody refers to any more. *)
Definition file_drop (ff : file) : K unit :=
  match f_type ff with
  | FD_PIPE => pipeclose (f_pipe ff) (f_writable ff)
  | FD_INODE | FD_DEVICE =>
      begin_op ;;
      ip <- deref "ip" (f_ip ff) ;;
      iput ip ;;
      end_op
  | FD_NONE => ret tt
  end.

Definition fileclose (f : nat) : F unit :=
  liftk (acquire LK_ftable) ;;
  x <- get_file f ;;
  if f_ref x <? 1 then panic "fileclose" else
  upd_file f (fun x => set_f_ref (f_ref x - 1) x) ;;
  ff <- get_file f ;;
  if 0 <? f_ref ff then liftk (release LK_ftable) else
  upd_file f (set_f_ref 0) ;;
  upd_file f (set_f_type FD_NONE) ;;
  liftk (release LK_ftable) ;;
  liftk (file_drop ff).

(** * Pipes *)

(** The code at [bad]. *)
Definition pipealloc_bad (pi : Z) (f0 f1 : option nat) : F (option (nat * nat)) :=
  when (negb (pi =? 0)) (liftk (kfree pi)) ;;
  match f0 with Some f0 => fileclose f0 | None => ret tt end ;;
  match f1 with Some f1 => fileclose f1 | None => ret tt end ;;
  ret None.

(** [*f0] and [*f1] when the result is 0. *)
Definition pipealloc : F (option (nat * nat)) :=
  f0 <- filealloc ;;
  match f0 with
  | None => pipealloc_bad 0 None None
  | Some r =>
      f1 <- filealloc ;;
      match f1 with
      | None => pipealloc_bad 0 (Some r) None
      | Some w =>
          pi <- liftk kalloc ;;
          if pi =? 0 then pipealloc_bad 0 (Some r) (Some w) else
          liftk (st32 (pi + PI_readopen) 1) ;;
          liftk (st32 (pi + PI_writeopen) 1) ;;
          liftk (st32 (pi + PI_nwrite) 0) ;;
          liftk (st32 (pi + PI_nread) 0) ;;
          liftk (initlock (LK_pipe pi)) ;;
          upd_file r (fun x => set_f_pipe pi (set_f_writable false (set_f_readable true (set_f_type FD_PIPE x)))) ;;
          upd_file w (fun x => set_f_pipe pi (set_f_writable true (set_f_readable false (set_f_type FD_PIPE x)))) ;;
          ret (Some (r, w))
      end
  end.

(** * Reading and writing *)

(** The bytes of a [struct stat]: four of them are padding, and hold what the stack
    held, [pad]. *)
Definition stat_bytes (pad : list Z) (st : stat) : list Z :=
  le_enc 4 (u32 (st_dev st)) ++ le_enc 4 (st_ino st) ++ le_enc 2 (u16 (st_type st)) ++ le_enc 2 (u16 (st_nlink st)) ++
  pad ++ le_enc 8 (st_size st).

Definition filestat (pad : list Z) (f : nat) (addr : Z) : F Z :=
  p <- liftk me ;;
  x <- get_file f ;;
  match f_type x with
  | FD_INODE | FD_DEVICE =>
      ip <- deref "ip" (f_ip x) ;;
      liftk (ilock ip) ;;
      st <- liftk (stati ip) ;;
      liftk (iunlock ip) ;;
      pr <- liftk (get_proc p) ;;
      r <- liftk (copyout (p_pagetable pr) addr (stat_bytes pad st)) ;;
      ret (if r <? 0 then -1 else 0)
  | _ => ret (-1)
  end.

(** [devsw[major]], when [major] is in range *)
Definition get_devsw (major : Z) : F (option devsw) :=
  if (major <? 0) || (NDEV <=? major) then ret None else
  fun s => (d <- deref "devsw" (fs_devsw s !! Z.to_nat major) ;; ret (Some d)) s.

Definition fileread (f : nat) (addr n : Z) : F Z :=
  x <- get_file f ;;
  if negb (f_readable x) || (n <? 0) then ret (-1) else
  match f_type x with
  | FD_PIPE => liftk (piperead (f_pipe x) addr n)
  | FD_DEVICE =>
      d <- get_devsw (f_major x) ;;
      match d with
      | Some (mk_devsw (Some read) _) => liftk (read (Duser addr) n)
      | _ => ret (-1)
      end
  | FD_INODE =>
      ip <- deref "ip" (f_ip x) ;;
      liftk (ilock ip) ;;
      x <- get_file f ;;
      ' (r, _) <- liftk (readi ip (Duser addr) (f_off x) n) ;;
      when (0 <? r) (upd_file f (fun x => set_f_off (u32 (f_off x + r)) x)) ;;
      liftk (iunlock ip) ;;
      ret r
  | FD_NONE => panic "fileread"
  end.

(** [((MAXOPBLOCKS - 1 - 1 - 2) / 2) * BSIZE] *)
Definition WRITEMAX : Z := (MAXOPBLOCKS - 1 - 1 - 2) / 2 * BSIZE.

(** [while (i < n)]: the final [i]; a turn writes at least one byte or is the last. *)
Fixpoint filewrite_loop (fuel : nat) (f ip : nat) (addr n i : Z) : F Z :=
  match fuel with
  | O => nofuel
  | S fuel =>
      if negb (i <? n) then ret i else
      let n1 := if WRITEMAX <? n - i then WRITEMAX else n - i in
      liftk begin_op ;;
      liftk (ilock ip) ;;
      x <- get_file f ;;
      r <- liftk (writei ip (Suser (u64 (addr + i))) (f_off x) n1) ;;
      when (0 <? r) (upd_file f (fun x => set_f_off (u32 (f_off x + r)) x)) ;;
      liftk (iunlock ip) ;;
      liftk end_op ;;
      if negb (r =? n1) then ret i else
      filewrite_loop fuel f ip addr n (i + r)
  end.

Definition filewrite (f : nat) (addr n : Z) : F Z :=
  x <- get_file f ;;
  if negb (f_writable x) || (n <? 0) then ret (-1) else
  match f_type x with
  | FD_PIPE => liftk (pipewrite (f_pipe x) addr n)
  | FD_DEVICE =>
      d <- get_devsw (f_major x) ;;
      match d with
      | Some (mk_devsw _ (Some write)) => liftk (write (Suser addr) n)
      | _ => ret (-1)
      end
  | FD_INODE =>
      ip <- deref "ip" (f_ip x) ;;
      i <- filewrite_loop (S (Z.to_nat n)) f ip addr n 0 ;;
      ret (if i =? n then n else -1)
  | FD_NONE => panic "filewrite"
  end.
End File.
