(* ===== verification/Sysfile.v ===== *)
(** kernel/sysfile.c: the system calls on files.

    The results are the 64-bit values that go into [a0].  A path or name is the
    bytes before its NUL; the arrays [name], which start uninitialised, start as
    zeros here (what follows the NUL that [skipelem] writes is never read). *)

From S2P Require Import Prelude Types Memory Spinlock Kalloc Vm Sched Sleeplock Bio Uart Printf Block Log Fs Console InitCode Proc Exec Mach Syscall Pipe File.
Local Open Scope Z_scope.
Local Open Scope c_scope.

(** [omode & flag] as a condition *)
Definition has_mode (flag omode : Z) : bool := negb (Z.land omode flag =? 0).

(** [return -1], as a [uint64] *)
Definition err : Z := u64 (-1).

(** [char name[DIRSIZ]] *)
Definition name0 : list Z := replicate (Z.to_nat DIRSIZ) 0.

(** [myproc()->ofile[fd]] and its assignment *)
Definition get_ofile (p : nat) (fd : Z) : F (option nat) :=
  fun s => (t <- deref "ofile" (fs_ofile s !! p) ;; deref "ofile" (t !! Z.to_nat fd)) s.
Definition put_ofile (p : nat) (fd : Z) (f : option nat) : F unit :=
  _ <- get_ofile p fd ;;
  modify (fun s => set_fs_ofile (alter (fun t => <[Z.to_nat fd := f]> t) p (fs_ofile s)) s).

Section Sysfile.
Context {L : KernelLayout} {X : Text} {W : Wakeups} {D : DiskDriver} {P : PipeSleep}.

(** * Descriptors *)

(** [*pfd] and [*pf] when the result is 0. *)
Definition argfd (n : Z) : F (option (Z * nat)) :=
  fd <- liftk (argint n) ;;
  if (fd <? 0) || (Z.of_nat NOFILE <=? fd) then ret None else
  p <- liftk me ;;
  f <- get_ofile p fd ;;
  ret (match f with Some f => Some (fd, f) | None => None end).

(** [for (fd = 0; fd < NOFILE; fd++)], [n] to go *)
Fixpoint fdalloc_loop (n : nat) (p : nat) (fd : Z) (f : nat) : F Z :=
  match n with
  | O => ret (-1)
  | S n =>
      o <- get_ofile p fd ;;
      match o with
      | None => put_ofile p fd (Some f) ;; ret fd
      | Some _ => fdalloc_loop n p (fd + 1) f
      end
  end.
Definition fdalloc (f : nat) : F Z := p <- liftk me ;; fdalloc_loop NOFILE p 0 f.

Definition sys_dup : F Z :=
  a <- argfd 0 ;;
  match a with
  | None => ret err
  | Some (_, f) =>
      fd <- fdalloc f ;;
      if fd <? 0 then ret err else
      _ <- filedup f ;;
      ret (u64 fd)
  end.

Definition sys_read : F Z :=
  p <- liftk (argaddr 1) ;;
  n <- liftk (argint 2) ;;
  a <- argfd 0 ;;
  match a with None => ret err | Some (_, f) => r <- fileread f p n ;; ret (u64 r) end.

Definition sys_write : F Z :=
  p <- liftk (argaddr 1) ;;
  n <- liftk (argint 2) ;;
  a <- argfd 0 ;;
  match a with None => ret err | Some (_, f) => r <- filewrite f p n ;; ret (u64 r) end.

Definition sys_close : F Z :=
  a <- argfd 0 ;;
  match a with
  | None => ret err
  | Some (fd, f) =>
      p <- liftk me ;;
      put_ofile p fd None ;;
      fileclose f ;;
      ret 0
  end.

Definition sys_fstat (pad : list Z) : F Z :=
  st <- liftk (argaddr 1) ;;
  a <- argfd 0 ;;
  match a with None => ret err | Some (_, f) => r <- filestat pad f st ;; ret (u64 r) end.

(** * Links *)

Definition end_op_err : K Z := end_op ;; ret err.
Definition unlockput_err (ip : nat) : K Z := iunlockput ip ;; end_op_err.

(** The code at [bad] of [sys_link]. *)
Definition link_bad (ip : nat) : K Z :=
  ilock ip ;;
  upd_inode ip (fun x => set_i_nlink (i16 (i_nlink x - 1)) x) ;;
  iupdate ip ;;
  unlockput_err ip.

Definition sys_link : K Z :=
  ' (r, old) <- argstr 0 MAXPATH ;;
  if r <? 0 then ret err else
  ' (r, new) <- argstr 1 MAXPATH ;;
  if r <? 0 then ret err else
  begin_op ;;
  ip <- namei old ;;
  match ip with
  | None => end_op_err
  | Some ip =>
      ilock ip ;;
      x <- get_inode ip ;;
      if i_type x =? T_DIR then unlockput_err ip else
      if NLINK_MAX <=? i_nlink x then unlockput_err ip else
      upd_inode ip (fun x => set_i_nlink (i16 (i_nlink x + 1)) x) ;;
      iupdate ip ;;
      iunlock ip ;;
      ' (dp, name) <- nameiparent new name0 ;;
      match dp with
      | None => link_bad ip
      | Some dp =>
          ilock dp ;;
          d <- get_inode dp ;;
          if i_nlink d =? 0 then iunlockput dp ;; link_bad ip else
          x <- get_inode ip ;;
          r <- (if negb (i_dev d =? i_dev x) then ret (-1) else dirlink dp name (i_inum x)) ;;
          if r <? 0 then iunlockput dp ;; link_bad ip else
          iunlockput dp ;;
          iput ip ;;
          end_op ;;
          ret 0
      end
  end.

(** [for (off = 2 * sizeof(de); off < dp->size; off += sizeof(de))] *)
Fixpoint isdirempty_loop (fuel : nat) (dp : nat) (off : Z) : K bool :=
  match fuel with
  | O => nofuel
  | S fuel =>
      x <- get_inode dp ;;
      if negb (off <? i_size x) then ret true else
      ' (r, de) <- readi dp Dvar off DIRENT_SIZE ;;
      if negb (r =? DIRENT_SIZE) then panic "isdirempty: readi" else
      if negb (de_inum de =? 0) then ret false else isdirempty_loop fuel dp (off + DIRENT_SIZE)
  end.
Definition isdirempty (dp : nat) : K bool :=
  x <- get_inode dp ;;
  isdirempty_loop (S (S (Z.to_nat (i_size x / DIRENT_SIZE)))) dp (2 * DIRENT_SIZE).

(** [namecmp(name, ".") == 0 || namecmp(name, "..") == 0] *)
Definition is_dots (name : list Z) : bool := (namecmp name [46] =? 0) || (namecmp name [46; 46] =? 0).

Definition sys_unlink : K Z :=
  ' (r, path) <- argstr 0 MAXPATH ;;
  if r <? 0 then ret err else
  begin_op ;;
  ' (dp, name) <- nameiparent path name0 ;;
  match dp with
  | None => end_op_err
  | Some dp =>
      ilock dp ;;
      if is_dots name then unlockput_err dp else
      found <- dirlookup dp name ;;
      match found with
      | None => unlockput_err dp
      | Some (ip, off) =>
          ilock ip ;;
          x <- get_inode ip ;;
          if i_nlink x <? 1 then panic "unlink: nlink < 1" else
          empty <- (if i_type x =? T_DIR then isdirempty ip else ret true) ;;
          if negb empty then iunlockput ip ;; unlockput_err dp else
          r <- writei dp (Svar (replicate (Z.to_nat DIRENT_SIZE) 0)) off DIRENT_SIZE ;;
          if negb (r =? DIRENT_SIZE) then panic "unlink: writei" else
          x <- get_inode ip ;;
          when (i_type x =? T_DIR)
            (upd_inode dp (fun d => set_i_nlink (i16 (i_nlink d - 1)) d) ;; iupdate dp) ;;
          iunlockput dp ;;
          upd_inode ip (fun x => set_i_nlink (i16 (i_nlink x - 1)) x) ;;
          iupdate ip ;;
          iunlockput ip ;;
          end_op ;;
          ret 0
      end
  end.

(** * Creating *)

(** The code at [fail] of [create]. *)
Definition create_fail (dp ip : nat) : K (option nat) :=
  upd_inode ip (set_i_nlink 0) ;;
  iupdate ip ;;
  iunlockput ip ;;
  iunlockput dp ;;
  ret None.

(** [dirlink(ip, ".", ip->inum) < 0 || dirlink(ip, "..", dp->inum) < 0] *)
Definition link_dots (dp ip : nat) : K bool :=
  x <- get_inode ip ;;
  r <- dirlink ip [46] (i_inum x) ;;
  if r <? 0 then ret false else
  d <- get_inode dp ;;
  r <- dirlink ip [46; 46] (i_inum d) ;;
  ret (negb (r <? 0)).

Definition create (path : list Z) (type major minor : Z) : K (option nat) :=
  ' (dp, name) <- nameiparent path name0 ;;
  match dp with
  | None => ret None
  | Some dp =>
      ilock dp ;;
      d <- get_inode dp ;;
      if i_nlink d =? 0 then iunlockput dp ;; ret None else
      if (type =? T_DIR) && (NLINK_MAX <=? i_nlink d) then iunlockput dp ;; ret None else
      found <- dirlookup dp name ;;
      match found with
      | Some (ip, _) =>
          iunlockput dp ;;
          ilock ip ;;
          x <- get_inode ip ;;
          if (type =? T_FILE) && ((i_type x =? T_FILE) || (i_type x =? T_DEVICE)) then ret (Some ip) else
          iunlockput ip ;;
          ret None
      | None =>
          ip <- ialloc (i_dev d) type ;;
          match ip with
          | None => iunlockput dp ;; ret None
          | Some ip =>
              ilock ip ;;
              upd_inode ip (fun x => set_i_nlink 1 (set_i_minor minor (set_i_major major x))) ;;
              iupdate ip ;;
              dots <- (if type =? T_DIR then link_dots dp ip else ret true) ;;
              if negb dots then create_fail dp ip else
              x <- get_inode ip ;;
              r <- dirlink dp name (i_inum x) ;;
              if r <? 0 then create_fail dp ip else
              when (type =? T_DIR)
                (upd_inode dp (fun d => set_i_nlink (i16 (i_nlink d + 1)) d) ;; iupdate dp) ;;
              iunlockput dp ;;
              ret (Some ip)
          end
      end
  end.

(** The first half of [sys_open]: the locked inode, or the result. *)
Definition open_inode (path : list Z) (omode : Z) : K (Z + nat) :=
  if has_mode O_CREATE omode then
    ip <- create path T_FILE 0 0 ;;
    match ip with None => r <- end_op_err ;; ret (inl r) | Some ip => ret (inr ip) end
  else
    ip <- namei path ;;
    match ip with
    | None => r <- end_op_err ;; ret (inl r)
    | Some ip =>
        ilock ip ;;
        x <- get_inode ip ;;
        if (i_type x =? T_DIR) && negb (omode =? O_RDONLY) then r <- unlockput_err ip ;; ret (inl r)
        else ret (inr ip)
    end.

(** The assignments to the new [struct file]. *)
Definition open_file (x : inode) (ip : nat) (omode : Z) (f : file) : file :=
  set_f_writable (has_mode O_WRONLY omode || has_mode O_RDWR omode)
    (set_f_readable (negb (has_mode O_WRONLY omode))
      (set_f_ip (Some ip)
        (if i_type x =? T_DEVICE then set_f_major (i_major x) (set_f_type FD_DEVICE f)
         else set_f_off 0 (set_f_type FD_INODE f)))).

Definition sys_open : F Z :=
  omode <- liftk (argint 1) ;;
  ' (n, path) <- liftk (argstr 0 MAXPATH) ;;
  if n <? 0 then ret err else
  liftk begin_op ;;
  r <- liftk (open_inode path omode) ;;
  match r with
  | inl r => ret r
  | inr ip =>
      x <- liftk (get_inode ip) ;;
      if (i_type x =? T_DEVICE) && ((i_major x <? 0) || (NDEV <=? i_major x)) then liftk (unlockput_err ip) else
      f <- filealloc ;;
      match f with
      | None => liftk (unlockput_err ip)
      | Some f =>
          fd <- fdalloc f ;;
          if fd <? 0 then fileclose f ;; liftk (unlockput_err ip) else
          upd_file f (open_file x ip omode) ;;
          when (has_mode O_TRUNC omode && (i_type x =? T_FILE)) (liftk (itrunc ip)) ;;
          liftk (iunlock ip) ;;
          liftk end_op ;;
          ret (u64 fd)
      end
  end.

Definition sys_mkdir : K Z :=
  begin_op ;;
  ' (r, path) <- argstr 0 MAXPATH ;;
  ip <- (if r <? 0 then ret None else create path T_DIR 0 0) ;;
  match ip with
  | None => end_op_err
  | Some ip => iunlockput ip ;; end_op ;; ret 0
  end.

Definition sys_mknod : K Z :=
  begin_op ;;
  major <- argint 1 ;;
  minor <- argint 2 ;;
  ' (r, path) <- argstr 0 MAXPATH ;;
  ip <- (if r <? 0 then ret None else create path T_DEVICE (i16 major) (i16 minor)) ;;
  match ip with
  | None => end_op_err
  | Some ip => iunlockput ip ;; end_op ;; ret 0
  end.

Definition sys_chdir : K Z :=
  p <- me ;;
  begin_op ;;
  ' (r, path) <- argstr 0 MAXPATH ;;
  ip <- (if r <? 0 then ret None else namei path) ;;
  match ip with
  | None => end_op_err
  | Some ip =>
      ilock ip ;;
      x <- get_inode ip ;;
      if negb (i_type x =? T_DIR) then unlockput_err ip else
      iunlock ip ;;
      pr <- get_proc p ;;
      cwd <- deref "cwd" (p_cwd pr) ;;
      iput cwd ;;
      end_op ;;
      upd_proc p (set_p_cwd (Some ip)) ;;
      ret 0
  end.

(** * exec and pipe *)

(** [for (i = 0; i < NELEM(argv) && argv[i] != 0; i++) kfree(argv[i]);] *)
Fixpoint free_argv (pages : list Z) : K unit :=
  match pages with [] => ret tt | a :: pages => kfree a ;; free_argv pages end.

(** [for (i = 0;; i++)], [n] turns to go before [i >= NELEM(argv)]: the pages
    allocated so far, and the strings in them unless the code goes to [bad]. *)
Fixpoint fetch_args (n : nat) (uargv i : Z) (pages : list Z) (argv : list (list Z)) : K (list Z * option (list (list Z))) :=
  match n with
  | O => ret (pages, None)
  | S n =>
      ' (r, uarg) <- fetchaddr (u64 (uargv + 8 * i)) ;;
      if r <? 0 then ret (pages, None) else
      if uarg =? 0 then ret (pages, Some argv) else
      a <- kalloc ;;
      if a =? 0 then ret (pages, None) else
      ' (r, str) <- fetchstr uarg PGSIZE ;;
      if r <? 0 then ret (pages ++ [a], None) else
      mem_upd (fun m => put_bytes m a (str ++ [0])) ;;
      fetch_args n uargv (i + 1) (pages ++ [a]) (argv ++ [str])
  end.

Definition sys_exec : K Z :=
  uargv <- argaddr 1 ;;
  ' (r, path) <- argstr 0 MAXPATH ;;
  if r <? 0 then ret err else
  ' (pages, argv) <- fetch_args MAXARG uargv 0 [] [] ;;
  match argv with
  | None => free_argv pages ;; ret err
  | Some argv => r <- kexec path argv ;; free_argv pages ;; ret (u64 r)
  end.

(** [fileclose(rf); fileclose(wf); return -1;] *)
Definition close_both (rf wf : nat) : F Z := fileclose rf ;; fileclose wf ;; ret err.

Definition sys_pipe : F Z :=
  p <- liftk me ;;
  fdarray <- liftk (argaddr 0) ;;
  fs <- pipealloc ;;
  match fs with
  | None => ret err
  | Some (rf, wf) =>
      fd0 <- fdalloc rf ;;
      if fd0 <? 0 then close_both rf wf else
      fd1 <- fdalloc wf ;;
      if fd1 <? 0 then put_ofile p fd0 None ;; close_both rf wf else
      pr <- liftk (get_proc p) ;;
      r <- liftk (copyout (p_pagetable pr) fdarray (le_enc 4 fd0)) ;;
      r <- (if r <? 0 then ret r else liftk (copyout (p_pagetable pr) (u64 (fdarray + 4)) (le_enc 4 fd1))) ;;
      if r <? 0 then put_ofile p fd0 None ;; put_ofile p fd1 None ;; close_both rf wf else
      ret 0
  end.
End Sysfile.
