(* ===== verification/FileSpec.v ===== *)
(** Open files (file.c, sysfile.c): reference counts, descriptors, and pipes from
    one end to the other.

    [files_ok] is the invariant of the file layer: the reference count of a
    [struct file] is the number of descriptors that refer to it. *)

From S2P Require Import Prelude Types Memory Spinlock Kalloc Vm PageTable UserMem UserCopy Sched Sleeplock Bio Uart Block Log Crash Fs InitCode Proc SleepWake ProcSpec Mach Syscall Pipe PipeSpec File Sysfile.
Local Open Scope Z_scope.
Local Open Scope c_scope.

(** * Kernel code under the file layer *)

Lemma liftk_Ret {A} (m : K A) s a k : m (fs_k s) = Ret a k -> liftk m s = Ret a (set_fs_k k s).
Proof. intros E. unfold liftk. by rewrite E. Qed.

Lemma set_fs_k_id s : set_fs_k (fs_k s) s = s.
Proof. by destruct s. Qed.

Lemma liftk_same {A} (m : K A) s a : m (fs_k s) = Ret a (fs_k s) -> liftk m s = Ret a s.
Proof. intros E. rewrite (liftk_Ret _ _ _ _ E). by rewrite set_fs_k_id. Qed.

Lemma get_file_ok s f x : fs_file s !! f = Some x -> get_file f s = Ret x s.
Proof. intros H. unfold get_file. by rewrite H. Qed.

Lemma upd_file_ok s f x g :
  fs_file s !! f = Some x -> upd_file f g s = Ret tt (set_fs_file (<[f := g x]> (fs_file s)) s).
Proof. intros H. unfold upd_file. by run (get_file_ok s f x H). Qed.

(** The file table can be locked. *)
Definition ftable_free (s : fstate) : Prop := cpu_ok (fs_k s) /\ lock_free (fs_k s) LK_ftable.

(** Code between [acquire(&ftable.lock)] and [release(&ftable.lock)] that changes
    the table to [fl]. *)
Lemma ftable_acquire s : ftable_free s -> liftk (acquire LK_ftable) s = Ret tt (set_fs_k (enter LK_ftable (fs_k s)) s).
Proof. intros [Hc Hl]. apply liftk_Ret. by apply acquire_free. Qed.

Lemma ftable_release s fl :
  ftable_free s -> liftk (release LK_ftable) (set_fs_file fl (set_fs_k (enter LK_ftable (fs_k s)) s)) = Ret tt (set_fs_file fl s).
Proof.
  intros [Hc Hl]. erewrite liftk_Ret.
  2:{ cbn [fs_k set_fs_file set_fs_k]. apply (release_enter LK_ftable (fs_k s)); [done|done|by kproj|done|done]. }
  rewrite restore_enter. by destruct s.
Qed.

(** * The table *)

(** [f] is the first entry nobody refers to. *)
Definition first_unused (fl : list file) (f : nat) (x : file) : Prop :=
  fl !! f = Some x /\ f_ref x = 0 /\ forall g y, (g < f)%nat -> fl !! g = Some y -> f_ref y <> 0.

Lemma unused_or_full fl : (exists f x, first_unused fl f x) \/ (forall g y, fl !! g = Some y -> f_ref y <> 0).
Proof.
  destruct (list_find (fun x => f_ref x = 0) fl) as [[f x]|] eqn:E.
  - left. exists f, x. apply list_find_Some in E as (H1 & H2 & H3). split_and!; [done|done|].
    intros g y Hg Hy. by eapply H3.
  - right. apply list_find_None in E. intros g y Hy. exact (Forall_lookup_1 _ _ _ _ E Hy).
Qed.

Section FileSpec.
Context {L : KernelLayout} {X : Text} {W : Wakeups} {D : DiskDriver} {P : PipeSleep}.

Lemma filealloc_loop_spec n f s o :
  ftable_free s -> length (fs_file s) = (f + n)%nat ->
  (match o with
   | Some g => (f <= g)%nat /\ exists x, first_unused (fs_file s) g x
   | None => forall g y, fs_file s !! g = Some y -> f_ref y <> 0
   end) ->
  filealloc_loop n f (set_fs_k (enter LK_ftable (fs_k s)) s) =
  Ret o (match o with Some g => set_fs_file (alter (set_f_ref 1) g (fs_file s)) s | None => s end).
Proof.
  intros Hfr. revert f; induction n as [|n IH]; intros f Hlen Ho.
  - destruct o as [g|].
    + destruct Ho as (Hg & x & Hx & _). apply lookup_lt_Some in Hx. lia.
    + cbn [filealloc_loop]. pose proof (ftable_release s (fs_file s) Hfr) as E.
      replace (set_fs_file (fs_file s) (set_fs_k (enter LK_ftable (fs_k s)) s)) with (set_fs_k (enter LK_ftable (fs_k s)) s) in E by done.
      replace (set_fs_file (fs_file s) s) with s in E by (by destruct s). by run E.
  - destruct (lookup_lt_is_Some_2 (fs_file s) f ltac:(lia)) as [y Hy].
    cbn [filealloc_loop]. run (get_file_ok (set_fs_k (enter LK_ftable (fs_k s)) s) f y Hy).
    destruct (Z.eqb_spec (f_ref y) 0) as [E0|E0].
    + destruct o as [g|]; [|by destruct (Ho f y Hy)]. destruct Ho as (Hg & x & Hx & Hx0 & Hlt).
      assert (g = f) as ->. { destruct (decide (g = f)) as [|Hne]; [done|]. destruct (Hlt f y); [lia|done|done]. }
      run (upd_file_ok (set_fs_k (enter LK_ftable (fs_k s)) s) f y (set_f_ref 1) Hy). cbn [fs_file set_fs_k].
      rewrite (bind_Ret _ _ _ _ _ (ftable_release s (<[f := set_f_ref 1 y]> (fs_file s)) Hfr)). unfold ret. do 2 f_equal.
      rewrite list_insert_alter. apply list_alter_ext; [|done]. intros z Hz. by simplify_eq.
    + apply IH; [lia|]. destruct o as [g|]; [|done]. destruct Ho as (Hg & x & Hx & Hx0 & Hlt). split; [|by exists x].
      destruct (decide (g = f)) as [->|]; [|lia]. by simplify_eq.
Qed.

Lemma filealloc_some s f x :
  ftable_free s -> length (fs_file s) = NFILE -> first_unused (fs_file s) f x ->
  filealloc s = Ret (Some f) (set_fs_file (<[f := set_f_ref 1 x]> (fs_file s)) s).
Proof.
  intros Hfr Hlen Hx. unfold filealloc. run (ftable_acquire s Hfr).
  rewrite (filealloc_loop_spec NFILE 0 s (Some f)); [|done|done|split; [lia|by exists x]].
  do 2 f_equal. rewrite list_insert_alter. apply list_alter_ext; [|done]. intros z Hz. destruct Hx as [Hx _]. by simplify_eq.
Qed.

Lemma filealloc_none s :
  ftable_free s -> length (fs_file s) = NFILE -> (forall g y, fs_file s !! g = Some y -> f_ref y <> 0) -> filealloc s = Ret None s.
Proof.
  intros Hfr Hlen Hx. unfold filealloc. run (ftable_acquire s Hfr). by rewrite (filealloc_loop_spec NFILE 0 s None).
Qed.

Lemma filedup_ok s f x :
  ftable_free s -> fs_file s !! f = Some x -> 1 <= f_ref x < 2 ^ 31 - 1 ->
  filedup f s = Ret f (set_fs_file (<[f := set_f_ref (f_ref x + 1) x]> (fs_file s)) s).
Proof.
  intros Hfr Hx Hr. unfold filedup. run (ftable_acquire s Hfr).
  run (get_file_ok (set_fs_k (enter LK_ftable (fs_k s)) s) f x Hx). rewrite (proj2 (Z.ltb_ge _ _)) by lia.
  run (upd_file_ok (set_fs_k (enter LK_ftable (fs_k s)) s) f x (fun x => set_f_ref (i32 (f_ref x + 1)) x) Hx).
  cbn [fs_file set_fs_k]. rewrite swrap_small by lia. by run (ftable_release s _ Hfr).
Qed.

(** [fileclose]: one reference less, or, when it was the last, the entry is free
    and the kernel object is given up. *)
Definition closed (x : file) : file := if 1 <? f_ref x then set_f_ref (f_ref x - 1) x else set_f_type FD_NONE (set_f_ref 0 x).
Definition close_kernel (x : file) : K unit := if 1 <? f_ref x then ret tt else file_drop (set_f_ref 0 x).

Lemma fileclose_ok s f x :
  ftable_free s -> fs_file s !! f = Some x -> 1 <= f_ref x ->
  fileclose f s = liftk (close_kernel x) (set_fs_file (<[f := closed x]> (fs_file s)) s).
Proof.
  intros Hfr Hx Hr. pose proof (lookup_lt_Some _ _ _ Hx) as Hlt. unfold fileclose. run (ftable_acquire s Hfr).
  set (s1 := set_fs_k (enter LK_ftable (fs_k s)) s). run (get_file_ok s1 f x Hx). rewrite (proj2 (Z.ltb_ge _ _)) by lia.
  run (upd_file_ok s1 f x (fun x => set_f_ref (f_ref x - 1) x) Hx). cbn [fs_file set_fs_k s1].
  set (y := set_f_ref (f_ref x - 1) x). set (s2 := set_fs_file (<[f := y]> (fs_file s)) s1).
  assert (Hy : fs_file s2 !! f = Some y) by (by apply list_lookup_insert_eq). run (get_file_ok s2 f y Hy).
  change (f_ref y) with (f_ref x - 1). unfold closed, close_kernel.
  destruct (Z.ltb_spec 1 (f_ref x)) as [H1|H1].
  - rewrite (proj2 (Z.ltb_lt _ _)) by lia. exact (ftable_release s _ Hfr).
  - rewrite (proj2 (Z.ltb_ge _ _)) by lia. run (upd_file_ok s2 f y (set_f_ref 0) Hy). cbn [fs_file set_fs_file s2].
    rewrite list_insert_insert_eq.
    set (s3 := set_fs_file (<[f := set_f_ref 0 y]> (fs_file s)) s2).
    assert (Hz : fs_file s3 !! f = Some (set_f_ref 0 y)) by (by apply list_lookup_insert_eq).
    run (upd_file_ok s3 f _ (set_f_type FD_NONE) Hz). cbn [fs_file set_fs_file s3]. rewrite list_insert_insert_eq.
    replace y with (set_f_ref 0 x) by (unfold y; by replace (f_ref x - 1) with 0 by lia).
    exact (bind_Ret _ _ _ _ _ (ftable_release s (<[f := set_f_type FD_NONE (set_f_ref 0 (set_f_ref 0 x))]> (fs_file s)) Hfr)).
Qed.

(** * Descriptors *)

(** How many of the entries [t] are [f], and how many descriptors are, in all the
    processes. *)
Definition refs_in (f : nat) (t : list (option nat)) : nat := length (filter (fun o => o = Some f) t).
Definition refs (f : nat) (ts : list (list (option nat))) : nat := sum_list_with (refs_in f) ts.

Record files_ok (s : fstate) : Prop := {
  fo_files : length (fs_file s) = NFILE;
  fo_procs : length (fs_ofile s) = NPROC;
  fo_tables : forall p t, fs_ofile s !! p = Some t -> length t = NOFILE;
  fo_range : forall p t fd f, fs_ofile s !! p = Some t -> t !! fd = Some (Some f) -> (f < NFILE)%nat;
  fo_refs : forall f x, fs_file s !! f = Some x -> f_ref x = Z.of_nat (refs f (fs_ofile s))
}.

(** 1 if the entry is [f]. *)
Definition is_ref (f : nat) (o : option nat) : nat := if decide (o = Some f) then 1 else 0.

Lemma refs_in_insert f t fd o o' :
  t !! fd = Some o -> (refs_in f (<[fd := o']> t) + is_ref f o = refs_in f t + is_ref f o')%nat.
Proof.
  unfold refs_in, is_ref. revert fd; induction t as [|a t IH]; intros [|fd] H; [done|done| |].
  - simpl in H. simplify_eq. cbn [insert list_insert]. rewrite !filter_cons. repeat case_decide; cbn [length]; lia.
  - simpl in H. cbn [insert list_insert]. specialize (IH fd H). rewrite !filter_cons.
    destruct (decide (a = Some f)); [exact (f_equal S IH)|exact IH].
Qed.

Lemma refs_put f ts p t fd o o' :
  ts !! p = Some t -> t !! fd = Some o ->
  (refs f (alter (fun t => <[fd := o']> t) p ts) + is_ref f o = refs f ts + is_ref f o')%nat.
Proof.
  unfold refs. intros Hp Hf. revert p Hp; induction ts as [|a ts IH]; intros [|p] H; [done|done| |]; simpl in H.
  - simplify_eq. pose proof (refs_in_insert f t fd o o' Hf).
    change ((refs_in f (<[fd := o']> t) + sum_list_with (refs_in f) ts + is_ref f o = refs_in f t + sum_list_with (refs_in f) ts + is_ref f o')%nat). lia.
  - specialize (IH p H).
    change ((refs_in f a + sum_list_with (refs_in f) (alter (fun t => <[fd := o']> t) p ts) + is_ref f o =
             refs_in f a + sum_list_with (refs_in f) ts + is_ref f o')%nat). lia.
Qed.

(** 64 processes of 16 descriptors: a count fits an [int] with room to spare. *)
Lemma refs_bound s f : files_ok s -> (refs f (fs_ofile s) <= 1024)%nat.
Proof.
  intros H. change 1024%nat with (NPROC * NOFILE)%nat. rewrite <- (fo_procs _ H). unfold refs.
  pose proof (fo_tables _ H) as Ht. induction (fs_ofile s) as [|t ts IH]; [done|]. cbn [sum_list_with length Nat.mul].
  assert (refs_in f t <= NOFILE)%nat by (rewrite <- (Ht 0%nat t eq_refl); apply length_filter).
  assert (sum_list_with (refs_in f) ts <= length ts * NOFILE)%nat by (apply IH; intros p t'; apply (Ht (S p))). lia.
Qed.

Lemma refs_pos s p t fd f : fs_ofile s !! p = Some t -> t !! fd = Some (Some f) -> (1 <= refs f (fs_ofile s))%nat.
Proof.
  intros Hp Hf. pose proof (refs_put f _ p t fd _ None Hp Hf) as E. unfold is_ref in E. rewrite decide_True in E by done.
  rewrite decide_False in E by done. lia.
Qed.

Lemma get_ofile_ok s p t fd o :
  fs_ofile s !! p = Some t -> t !! Z.to_nat fd = Some o -> get_ofile p fd s = Ret o s.
Proof. intros Hp Hf. unfold get_ofile. rewrite Hp. unfold bind at 1. cbn. by rewrite Hf. Qed.

Definition with_fd (p : nat) (fd : Z) (o : option nat) (s : fstate) : fstate :=
  set_fs_ofile (alter (fun t => <[Z.to_nat fd := o]> t) p (fs_ofile s)) s.

Lemma put_ofile_ok s p t fd o o' :
  fs_ofile s !! p = Some t -> t !! Z.to_nat fd = Some o -> put_ofile p fd o' s = Ret tt (with_fd p fd o' s).
Proof. intros Hp Hf. unfold put_ofile. by run (get_ofile_ok s p t fd o Hp Hf). Qed.

(** [fd] is the lowest free descriptor of the table [t]. *)
Definition lowest_free (t : list (option nat)) (fd : Z) : Prop :=
  0 <= fd /\ t !! Z.to_nat fd = Some None /\ forall k, 0 <= k < fd -> exists g, t !! Z.to_nat k = Some (Some g).

Lemma fdalloc_loop_spec n s p t f k :
  fs_ofile s !! p = Some t -> length t = (Z.to_nat k + n)%nat -> 0 <= k ->
  (forall j, 0 <= j < k -> exists g, t !! Z.to_nat j = Some (Some g)) ->
  (exists fd, lowest_free t fd /\ fdalloc_loop n p k f s = Ret fd (with_fd p fd (Some f) s)) \/
  (None ∉ t /\ fdalloc_loop n p k f s = Ret (-1) s).
Proof.
  intros Hp. revert k; induction n as [|n IH]; intros k Hlen Hk Hlow.
  - right. split; [|done]. intros (j & Hj)%list_elem_of_lookup. pose proof (lookup_lt_Some _ _ _ Hj).
    destruct (Hlow (Z.of_nat j)) as [g Hg]; [lia|]. rewrite Nat2Z.id in Hg. by simplify_eq.
  - destruct (lookup_lt_is_Some_2 t (Z.to_nat k) ltac:(lia)) as [o Ho]. cbn [fdalloc_loop].
    setoid_rewrite (bind_Ret _ _ _ _ _ (get_ofile_ok s p t k o Hp Ho)). destruct o as [g|].
    + apply IH; [lia|lia|]. intros j Hj. destruct (decide (j = k)) as [->|]; [by exists g|apply Hlow; lia].
    + left. exists k. split; [done|]. by run (put_ofile_ok s p t k None (Some f) Hp Ho).
Qed.

(** The change of one descriptor of [i], with the count of the file it refers to. *)
Lemma files_ok_move s s' i t fd o o' :
  files_ok s -> fs_ofile s !! i = Some t -> t !! Z.to_nat fd = Some o ->
  fs_ofile s' = fs_ofile (with_fd i fd o' s) -> length (fs_file s') = NFILE ->
  (forall f, o' = Some f -> (f < NFILE)%nat) ->
  (forall f x', fs_file s' !! f = Some x' -> exists x, fs_file s !! f = Some x /\
    f_ref x' + Z.of_nat (is_ref f o) = f_ref x + Z.of_nat (is_ref f o')) ->
  files_ok s'.
Proof.
  intros H Ht Hfd Ho Hlen Ho' Hf. pose proof (lookup_lt_Some _ _ _ Ht).
  assert (Hlk : forall p t', fs_ofile s' !! p = Some t' ->
    exists t0, fs_ofile s !! p = Some t0 /\ (t' = t0 \/ t' = <[Z.to_nat fd := o']> t0)).
  { intros p t' Hp. rewrite Ho in Hp. cbn in Hp. destruct (decide (p = i)) as [->|Hne].
    - rewrite list_lookup_alter_eq, Ht in Hp. cbn in Hp. simplify_eq. exists t. by auto.
    - rewrite list_lookup_alter_ne in Hp by done. exists t'. by auto. }
  constructor.
  - done.
  - rewrite Ho. cbn. rewrite length_alter. apply H.
  - intros p t' Hp. destruct (Hlk p t' Hp) as (t0 & Ht0 & [->| ->]); rewrite ?length_insert; by eapply fo_tables.
  - intros p t' fd' f Hp Hff. destruct (Hlk p t' Hp) as (t0 & Ht0 & [->| ->]); [by eapply fo_range|].
    apply list_lookup_insert_Some in Hff as [(E0 & E & _)|[_ ?]]; [by apply Ho'|by eapply fo_range].
  - intros f x' Hx'. destruct (Hf f x' Hx') as (x & Hx & E). rewrite (fo_refs _ H f x Hx) in E.
    pose proof (refs_put f _ i t _ o o' Ht Hfd). rewrite Ho. cbn [fs_ofile with_fd set_fs_ofile]. lia.
Qed.

(** Process [i] makes a system call; its descriptors are [t]. *)
Record calls (s : fstate) (i : nat) (pr : proc) (t : list (option nat)) : Prop := {
  cl_ok : files_ok s;
  cl_free : ftable_free s;
  cl_cur : cur (fs_k s) = Some i;
  cl_proc : k_procs (fs_k s) !! i = Some pr;
  cl_tf : p_trapframe pr <> 0;
  cl_fds : fs_ofile s !! i = Some t
}.

(** The first argument of the call, as an [int]. *)
Definition arg0 (s : fstate) (pr : proc) : Z := i32 (load64 (k_mem (fs_k s)) (p_trapframe pr + TF_a 0)).

(** The file that descriptor [fd] of the table [t] refers to. *)
Definition fd_file (t : list (option nat)) (fd : Z) : option nat :=
  if (0 <=? fd) && (fd <? Z.of_nat NOFILE) then mjoin (t !! Z.to_nat fd) else None.

Lemma calls_me s i pr t : calls s i pr t -> liftk me s = Ret i s.
Proof. intros C. apply liftk_same, me_ok; apply C. Qed.

Lemma argfd_ok s i pr t :
  calls s i pr t -> argfd 0 s = Ret ((fun f => (arg0 s pr, f)) <$> fd_file t (arg0 s pr)) s.
Proof.
  intros C. unfold argfd.
  assert (E : liftk (argint 0) s = Ret (arg0 s pr) s).
  { apply liftk_same. unfold argint, argraw, bind. rewrite (me_ok (fs_k s) i) by apply C. cbn [Z.leb andb Z.compare].
    unfold tf_get, tf_of, bind. rewrite (get_proc_ok _ i pr (cl_proc _ _ _ _ C)).
    by rewrite (proj2 (Z.eqb_neq _ _) (cl_tf _ _ _ _ C)). }
  run E. unfold fd_file. destruct (Z.ltb_spec (arg0 s pr) 0), (Z.leb_spec (Z.of_nat NOFILE) (arg0 s pr)),
    (Z.leb_spec 0 (arg0 s pr)), (Z.ltb_spec (arg0 s pr) (Z.of_nat NOFILE)); try lia; try done.
  cbn [orb andb]. run (calls_me _ _ _ _ C). pose proof (fo_tables _ (cl_ok _ _ _ _ C) i t (cl_fds _ _ _ _ C)).
  destruct (lookup_lt_is_Some_2 t (Z.to_nat (arg0 s pr)) ltac:(lia)) as [o Ho].
  run (get_ofile_ok s i t _ o (cl_fds _ _ _ _ C) Ho). rewrite Ho. by destruct o.
Qed.

Lemma fd_file_Some t fd f : fd_file t fd = Some f -> 0 <= fd /\ t !! Z.to_nat fd = Some (Some f).
Proof.
  unfold fd_file. destruct (Z.leb_spec 0 fd), (fd <? Z.of_nat NOFILE); cbn [andb]; try done.
  intros E. split; [done|]. by destruct (t !! Z.to_nat fd) as [[g|]|]; cbn in E; simplify_eq.
Qed.

(** An open descriptor refers to a file whose count is in range. *)
Lemma fd_open s i pr t fd f :
  calls s i pr t -> fd_file t fd = Some f ->
  exists x, fs_file s !! f = Some x /\ f_ref x = Z.of_nat (refs f (fs_ofile s)) /\ 1 <= f_ref x <= 1024.
Proof.
  intros C Hf. destruct (fd_file_Some _ _ _ Hf) as [_ Hl]. pose proof (cl_ok _ _ _ _ C) as H.
  pose proof (fo_range _ H i t _ f (cl_fds _ _ _ _ C) Hl). destruct (lookup_lt_is_Some_2 (fs_file s) f) as [x Hx].
  { by rewrite (fo_files _ H). }
  exists x. pose proof (fo_refs _ H f x Hx). pose proof (refs_bound s f H). pose proof (refs_pos s i t _ f (cl_fds _ _ _ _ C) Hl).
  split_and!; [done|done|lia|lia].
Qed.

(** C20: [dup] gives the lowest free descriptor to the file that its argument refers
    to and counts the new reference; it answers -1, and changes nothing, if the
    argument is not an open descriptor or if no descriptor is free. Afterwards the
    count of each file is again the number of descriptors that refer to it. *)
Theorem sys_dup_shares s i pr t :
  calls s i pr t ->
  match fd_file t (arg0 s pr) with
  | None => sys_dup s = Ret err s
  | Some f =>
      (exists fd, let s' := set_fs_file (alter (fun x => set_f_ref (f_ref x + 1) x) f (fs_file s)) (with_fd i fd (Some f) s) in
         lowest_free t fd /\ sys_dup s = Ret fd s' /\ files_ok s') \/
      (None ∉ t /\ sys_dup s = Ret err s)
  end.
Proof.
  intros C. unfold sys_dup. destruct (fd_file t (arg0 s pr)) as [f|] eqn:Ef; setoid_rewrite (bind_Ret _ _ _ _ _ (argfd_ok s i pr t C)); rewrite Ef; [|done].
  destruct (fd_open _ _ _ _ _ _ C Ef) as (x & Hx & Hr & Hr'). cbn [fmap option_fmap option_map].
  pose proof (fo_tables _ (cl_ok _ _ _ _ C) i t (cl_fds _ _ _ _ C)) as Hlen. pose proof (cl_free _ _ _ _ C) as Hfr.
  destruct (fdalloc_loop_spec NOFILE s i t f 0 (cl_fds _ _ _ _ C)) as [(fd & Hlow & E)|[Hn E]]; [done|done|lia| |].
  - left. exists fd. pose proof Hlow as (H0 & Hfd & _). pose proof (lookup_lt_Some _ _ _ Hfd) as Hlt. split; [done|].
    assert (E1 : fdalloc f s = Ret fd (with_fd i fd (Some f) s)) by (unfold fdalloc; by run (calls_me _ _ _ _ C)).
    split.
    + rewrite (bind_Ret _ _ _ _ _ E1). rewrite (proj2 (Z.ltb_ge _ _)) by done.
      rewrite (bind_Ret _ _ _ _ _ (filedup_ok (with_fd i fd (Some f) s) f x Hfr Hx ltac:(lia))).
      unfold ret. rewrite wrap_small by (unfold NOFILE in *; lia). do 2 f_equal. cbn [fs_file with_fd set_fs_ofile].
      rewrite list_insert_alter. apply list_alter_ext; [|done]. intros y Hy. by simplify_eq.
    + eapply (files_ok_move s _ i t fd None (Some f)); [apply C|apply C|done|done| | |]; cbn [fs_file set_fs_file].
      * rewrite length_alter. apply C.
      * intros g [= <-]. rewrite <- (fo_files _ (cl_ok _ _ _ _ C)). by eapply lookup_lt_Some.
      * intros g y Hy. unfold is_ref. rewrite (decide_False (P := None = Some g)) by done. destruct (decide (g = f)) as [->|Hne].
        -- rewrite list_lookup_alter_eq, Hx in Hy. cbn in Hy. simplify_eq. exists x. rewrite decide_True by done. split; [done|cbn; lia].
        -- rewrite list_lookup_alter_ne in Hy by done. exists y. rewrite decide_False by congruence. split; [done|lia].
  - right. split; [done|]. assert (E1 : fdalloc f s = Ret (-1) s) by (unfold fdalloc; by run (calls_me _ _ _ _ C)). by run E1.
Qed.

(** C21: [close] frees its descriptor and takes back the reference; it answers -1,
    and changes nothing, if its argument is not an open descriptor. Only the last
    reference to a file gives up the pipe or the inode behind it, and frees the entry
    of the table. Afterwards the count of each file is again the number of
    descriptors that refer to it. *)
Theorem sys_close_unshares s i pr t :
  calls s i pr t ->
  match fd_file t (arg0 s pr) with
  | None => sys_close s = Ret err s
  | Some f => exists x, fs_file s !! f = Some x /\
      let s' := set_fs_file (<[f := closed x]> (fs_file s)) (with_fd i (arg0 s pr) None s) in
      files_ok s' /\
      sys_close s = if decide (refs f (fs_ofile s) = 1%nat) then (liftk (file_drop x) ;; ret 0) s' else Ret 0 s'
  end.
Proof.
  intros C. unfold sys_close. destruct (fd_file t (arg0 s pr)) as [f|] eqn:Ef; setoid_rewrite (bind_Ret _ _ _ _ _ (argfd_ok s i pr t C)); rewrite Ef; [|done].
  destruct (fd_open _ _ _ _ _ _ C Ef) as (x & Hx & Hr & Hr'). destruct (fd_file_Some _ _ _ Ef) as [H0 Hfd]. exists x. split; [done|].
  split.
  - eapply (files_ok_move s _ i t (arg0 s pr) (Some f) None); [apply C|apply C|done|done| |done|]; cbn [fs_file set_fs_file].
    + rewrite length_insert. apply C.
    + intros g y Hy. unfold is_ref. rewrite (decide_False (P := None = Some g)) by done.
      apply list_lookup_insert_Some in Hy as [(-> & <- & _)|[Hne Hy]].
      * exists x. rewrite decide_True by done. split; [done|]. unfold closed. destruct (Z.ltb_spec 1 (f_ref x)); cbn; lia.
      * exists y. rewrite decide_False by congruence. split; [done|lia].
  - cbn [fmap option_fmap option_map]. run (calls_me _ _ _ _ C). run (put_ofile_ok s i t _ _ None (cl_fds _ _ _ _ C) Hfd).
    unfold bind at 1. rewrite (fileclose_ok (with_fd i (arg0 s pr) None s) f x (cl_free _ _ _ _ C) Hx) by lia.
    unfold close_kernel. case_decide as Hd.
    + rewrite (proj2 (Z.ltb_ge _ _)) by lia. done.
    + rewrite (proj2 (Z.ltb_lt _ _)) by lia. done.
Qed.
End FileSpec.

(** * Two descriptors for one file *)

Module FileSample.
(** Descriptors 0 and 2 of process 0 refer to file 1; the argument of the call is 0. *)
Definition fds : list (option nat) := [Some 1; None; Some 1]%nat ++ replicate 13 None.
Definition ofs : list (list (option nat)) := fds :: replicate 63 (replicate NOFILE None).
Definition fl : list file := <[1%nat := set_f_type FD_PIPE (set_f_ref 2 zero_file)]> (replicate NFILE zero_file).
Definition st : fstate := mk_fstate sample_grow fl [] ofs.

Lemma refs_in_none f n : refs_in f (replicate n None) = 0%nat.
Proof. induction n as [|n IH]; [done|]. exact IH. Qed.

Lemma refs_st f : refs f ofs = if decide (f = 1%nat) then 2%nat else 0%nat.
Proof.
  assert (E : refs f ofs = refs_in f fds).
  { unfold refs, ofs. cbn [sum_list_with]. enough (sum_list_with (refs_in f) (replicate 63 (replicate NOFILE None)) = 0%nat) by lia.
    generalize 63%nat as n. induction n as [|n IH]; [done|]. cbn [replicate sum_list_with]. by rewrite refs_in_none, IH. }
  rewrite E. case_decide as Ef; [by subst|]. change fds with ([Some 1; None; Some 1]%nat ++ replicate 13 None). unfold refs_in. cbn [app].
  rewrite !filter_cons, !(decide_False (P := Some 1%nat = Some f)), (decide_False (P := None = Some f)) by congruence. apply refs_in_none.
Qed.

Lemma ok : files_ok st.
Proof.
  constructor; [reflexivity|reflexivity| | |].
  - intros p t Hp. change (ofs !! p = Some t) in Hp. destruct p as [|p]; [by simplify_eq/=|].
    cbn in Hp. apply (lookup_replicate_1 63) in Hp as [-> _]. reflexivity.
  - intros p t fd f Hp Hf. change (ofs !! p = Some t) in Hp. destruct p as [|p]; cbn in Hp.
    + simplify_eq/=. do 3 (destruct fd as [|fd]; [cbn in Hf; simplify_eq/=; unfold NFILE; lia|]).
      cbn in Hf. by apply (lookup_replicate_1 13) in Hf as [? _].
    + apply (lookup_replicate_1 63) in Hp as [-> _]. by apply (lookup_replicate_1 16) in Hf as [? _].
  - intros f x Hx. change (fs_ofile st) with ofs. rewrite refs_st. change (fl !! f = Some x) in Hx. unfold fl in Hx. case_decide as E.
    + subst f. rewrite list_lookup_insert_eq in Hx by (rewrite length_replicate; unfold NFILE; lia). by simplify_eq.
    + rewrite list_lookup_insert_ne in Hx by done. by apply lookup_replicate_1 in Hx as [-> _].
Qed.

Lemma makes_call : calls st 0 sample_proc fds.
Proof.
  constructor; [exact ok| |reflexivity|reflexivity|discriminate|reflexivity].
  split; [|reflexivity]. exists (mk_cpu (Some 0%nat) 0 false false). split; [reflexivity|by split_and!].
Qed.
End FileSample.

#[local] Existing Instance sample_layout.
#[local] Existing Instance Machine.ideal_disk.
#[local] Instance no_wakeups : Wakeups := 0%nat.
#[local] Instance no_sleep : PipeSleep := {| sleep_prepare := fun _ => ret tt; sleep_now := ret tt |}.

Lemma sys_dup_shares_witness : exists s', sys_dup FileSample.st = Ret 1 s' /\ files_ok s'.
Proof.
  pose proof (sys_dup_shares FileSample.st 0 sample_proc FileSample.fds FileSample.makes_call) as H.
  assert (Ha : arg0 FileSample.st sample_proc = 0) by (vm_compute; reflexivity).
  rewrite Ha in H. change (fd_file FileSample.fds 0) with (Some 1%nat) in H.
  destruct H as [(fd & (Hfd & Hf & Hlow) & E & Hok)|[Hn _]].
  - assert (fd = 1) as ->.
    { destruct (decide (fd = 0)) as [->|]; [discriminate|]. destruct (decide (fd = 1)) as [|]; [done|].
      destruct (Hlow 1) as [g Hg]; [lia|discriminate]. }
    eexists. split; [exact E|exact Hok].
  - exfalso. apply Hn. right. left.
Defined.

Lemma sys_close_unshares_witness : exists s', sys_close FileSample.st = Ret 0 s' /\ files_ok s'.
Proof.
  pose proof (sys_close_unshares FileSample.st 0 sample_proc FileSample.fds FileSample.makes_call) as H.
  assert (Ha : arg0 FileSample.st sample_proc = 0) by (vm_compute; reflexivity).
  rewrite Ha in H. change (fd_file FileSample.fds 0) with (Some 1%nat) in H.
  destruct H as (x & Hx & Hok & E). change (fs_ofile FileSample.st) with FileSample.ofs in E. rewrite FileSample.refs_st in E.
  eexists. split; [exact E|exact Hok].
Defined.
