(* ===== verification/PipeLife.v ===== *)
(** A pipe from [pipealloc] to its last [fileclose] (file.c, pipe.c, kalloc.c).

    The open files of a pipe, its page and the memory of the process that uses it
    are put together: what is written at one end is what is read at the other, a
    reader without writers sees the end of the file, and closing both ends gives
    the page and the entries of the table back. *)

From S2P Require Import Prelude Types Memory Spinlock Kalloc Vm PageTable UserMem UserCopy Sched Sleeplock Bio Uart Block Log Crash Fs InitCode Proc SleepWake ProcSpec Mach Syscall Pipe PipeSpec File Sysfile FileSpec.
Local Open Scope Z_scope.
Local Open Scope c_scope.

#[local] Opaque kalloc kfree pipewrite piperead pipeclose.

Section PipeLife.
Context {L : KernelLayout} {X : Text} {W : Wakeups} {D : DiskDriver} {P : PipeSleep}.

(** * The state while a pipe is in use *)

Record session (s : fstate) (i : nat) (p : proc) (t : ptree) (l : list Z) (pi : Z) (q : list Z) : Prop := {
  se_holds : holds_pipe (fs_k s) i p t l pi q;
  se_pipe : lock_free (fs_k s) (LK_pipe pi);
  se_kmem : lock_free (fs_k s) LK_kmem;
  se_ftable : lock_free (fs_k s) LK_ftable
}.

Lemma session_cpu s i p t l pi q : session s i p t l pi q -> cpu_ok (fs_k s).
Proof. intros S. apply (ca_cpu _ _ _ _ (hp_caller _ _ _ _ _ _ _ (se_holds _ _ _ _ _ _ _ S))). Qed.

Lemma session_table s i p t l pi q : session s i p t l pi q -> ftable_free s.
Proof. intros S. split; [by eapply session_cpu|apply S]. Qed.

Lemma wake_self i ch ps p : ps !! i = Some p -> wake (Some i) ch 0 ps !! i = Some p.
Proof. intros H. unfold wake. rewrite list_lookup_imap, H. cbn. by rewrite (bool_decide_true (Some i = Some i)), andb_false_r. Qed.

Lemma caller_wake s i p t ch : caller s i p t -> caller (set_k_procs (wake (Some i) ch 0 (k_procs s)) s) i p t.
Proof.
  intros [H1 H2 H3 H4 H5 H6 H7]. constructor; try done; cbn [k_procs set_k_procs].
  - by apply wake_self.
  - unfold wake. by rewrite length_imap.
Qed.

Lemma holds_wake s i p t l pi q ch :
  holds_pipe s i p t l pi q -> holds_pipe (set_k_procs (wake (Some i) ch 0 (k_procs s)) s) i p t l pi q.
Proof.
  intros [H1 [[[K1 K2 K3 K4] Hw Hu] Ha Hb Hc] H3 H4 H5]. constructor; [by apply caller_wake|by constructor|done..].
Qed.

(** After a call on the pipe. *)
Lemma session_after s i p t l pi q q' ch m fl :
  session s i p t l pi q -> holds_pipe (set_k_mem m (fs_k s)) i p t l pi q' ->
  session (set_fs_file fl (set_fs_k (after i ch m (fs_k s)) s)) i p t l pi q'.
Proof. intros [H1 H2 H3 H4] H. constructor; [apply (holds_wake _ _ _ _ _ _ _ ch H)|done..]. Qed.

(** The entries of the table for the two ends. *)
Definition read_end (pi : Z) (x : file) : file :=
  set_f_pipe pi (set_f_writable false (set_f_readable true (set_f_type FD_PIPE (set_f_ref 1 x)))).
Definition write_end (pi : Z) (x : file) : file :=
  set_f_pipe pi (set_f_writable true (set_f_readable false (set_f_type FD_PIPE (set_f_ref 1 x)))).

(** What [pipealloc] stores into the new page. *)
Definition init_pipe (m : gmap Z Z) (pi : Z) : gmap Z Z :=
  store 4 (store 4 (store 4 (store 4 m (pi + PI_readopen) 1) (pi + PI_writeopen) 1) (pi + PI_nwrite) 0) (pi + PI_nread) 0.

Lemma init_pipe_rep m pi :
  pipe_rep (init_pipe m pi) pi [] /\ load 4 (init_pipe m pi) (pi + PI_readopen) = 1 /\ load 4 (init_pipe m pi) (pi + PI_writeopen) = 1.
Proof.
  unfold init_pipe. split_and!; [constructor; [done| |done]|..]; unfold nwrite, nread; cbn [length];
    repeat first [rewrite load4_store4 by lia | rewrite (load_store_out 4 4) by (unfold PI_nread, PI_nwrite, PI_readopen, PI_writeopen; lia)]; done.
Qed.

Lemma init_pipe_page m pi : mem_ok m -> same_but_page pi m (init_pipe m pi) /\ mem_ok (init_pipe m pi).
Proof.
  intros Hm. unfold init_pipe. split; [|auto using store_ok]. intros x Hx.
  unfold PI_nread, PI_nwrite, PI_readopen, PI_writeopen, PGSIZE in *. by rewrite !mget_store_out by lia.
Qed.

(** The calls of [pipealloc] after [kalloc]. *)
Lemma pipealloc_run s r w x y pi k :
  ftable_free s -> length (fs_file s) = NFILE -> first_unused (fs_file s) r x -> first_unused (<[r := set_f_ref 1 x]> (fs_file s)) w y ->
  kalloc (fs_k s) = Ret pi k -> pi <> 0 ->
  pipealloc s = Ret (Some (r, w)) (set_fs_file (<[w := write_end pi y]> (<[r := read_end pi x]> (fs_file s)))
    (set_fs_k (lock_put (LK_pipe pi) unlocked (set_k_mem (init_pipe (k_mem k) pi) k)) s)).
Proof.
  intros Hfr Hlen Hx Hy Ek Hpi.
  assert (Hxl : (r < length (fs_file s))%nat) by (destruct Hx as [Hx _]; by apply lookup_lt_Some in Hx).
  assert (Hwr : w <> r). { intros ->. destruct Hy as (Hy & Hy0 & _). rewrite list_lookup_insert_eq in Hy by done. by simplify_eq. }
  assert (Hyl : (w < length (fs_file s))%nat) by (destruct Hy as [Hy _]; apply lookup_lt_Some in Hy; by rewrite length_insert in Hy).
  unfold pipealloc. rewrite (bind_Ret _ _ _ _ _ (filealloc_some s r x Hfr Hlen Hx)).
  set (s1 := set_fs_file (<[r := set_f_ref 1 x]> (fs_file s)) s).
  rewrite (bind_Ret _ _ _ _ _ (filealloc_some s1 w y Hfr ltac:(by unfold s1; cbn; rewrite length_insert) Hy)).
  cbn [fs_file s1 set_fs_file]. set (s2 := set_fs_file (<[w := set_f_ref 1 y]> (<[r := set_f_ref 1 x]> (fs_file s))) s1).
  rewrite (bind_Ret _ _ _ _ _ (liftk_Ret kalloc s2 pi k Ek)), (proj2 (Z.eqb_neq _ _) Hpi).
  set (k1 := lock_put (LK_pipe pi) unlocked (set_k_mem (init_pipe (k_mem k) pi) k)). set (s3 := set_fs_k k1 s2).
  match goal with |- ?m _ = _ => transitivity
    ((upd_file r (fun x => set_f_pipe pi (set_f_writable false (set_f_readable true (set_f_type FD_PIPE x)))) ;;
      upd_file w (fun x => set_f_pipe pi (set_f_writable true (set_f_readable false (set_f_type FD_PIPE x)))) ;;
      ret (Some (r, w))) s3); [reflexivity|] end.
  assert (Hr3 : fs_file s3 !! r = Some (set_f_ref 1 x)).
  { cbn. rewrite list_lookup_insert_ne by done. by apply list_lookup_insert_eq. }
  rewrite (bind_Ret _ _ _ _ _ (upd_file_ok s3 r _ _ Hr3)).
  set (s4 := set_fs_file _ s3).
  assert (Hw4 : fs_file s4 !! w = Some (set_f_ref 1 y)).
  { cbn. rewrite list_lookup_insert_ne by done. apply list_lookup_insert_eq. by rewrite length_insert. }
  rewrite (bind_Ret _ _ _ _ _ (upd_file_ok s4 w _ _ Hw4)). unfold ret. f_equal.
  cbn [fs_file s4 s3 s2 s1 set_fs_file set_fs_k]. rewrite (list_insert_insert_ne (<[r := _]> _) r w) by done.
  by rewrite !list_insert_insert_eq.
Qed.

Lemma pipealloc_ok s i p t pi l r w x y :
  caller (fs_k s) i p t -> as_inv (fs_k s) t (pi :: l) -> lock_free (fs_k s) LK_kmem -> lock_free (fs_k s) LK_ftable ->
  length (fs_file s) = NFILE -> first_unused (fs_file s) r x -> first_unused (<[r := set_f_ref 1 x]> (fs_file s)) w y ->
  exists k', pipealloc s = Ret (Some (r, w)) (set_fs_file (<[w := write_end pi y]> (<[r := read_end pi x]> (fs_file s))) (set_fs_k k' s)) /\
    session (set_fs_k k' s) i p t l pi [] /\ unseen t (k_mem (fs_k s)) (k_mem k') /\
    load 4 (k_mem k') (pi + PI_readopen) = 1 /\ load 4 (k_mem k') (pi + PI_writeopen) = 1.
Proof.
  intros C Hi Hlk Hlf Hlen Hx Hy. pose proof (ca_cpu _ _ _ _ C) as Hc.
  destruct (kalloc_page (fs_k s) t pi l (conj Hc Hlk) Hi) as (f & m & E & Hi' & Hno & Hun & Hs).
  destruct (free_page_apart _ _ _ _ Hi) as [Hp _].
  assert (Hm : mem_ok m) by apply (km_mem _ _ (pi_kmem _ _ _ (as_pt _ _ _ Hi'))).
  destruct (init_pipe_page m pi Hm) as [Hs2 Hm2]. destruct (init_pipe_rep m pi) as (Rp & Rr & Rw).
  destruct (other_page _ t l pi (init_pipe m pi) Hi' Hp Hno Hm2 Hs2) as (Hi2 & Hno2 & Hun2).
  set (k1 := set_k_mem (init_pipe m pi) (set_k_freelist f (fs_k s))). set (k' := lock_put (LK_pipe pi) unlocked k1).
  assert (Hlocks : forall lk, lock_free (fs_k s) lk \/ lk = LK_pipe pi -> lock_free k' lk).
  { intros lk H. unfold lock_free, k', lock_put. rewrite decide_True by done. cbn [k_locks set_k_locks].
    destruct (decide (lk = LK_pipe pi)) as [->|Hne]; [apply lookup_delete_eq|rewrite lookup_delete_ne by done]. destruct H; done. }
  exists k'. split; [|split_and!; [|by eapply unseen_trans|done|done]].
  - exact (pipealloc_run s r w x y pi _ (conj Hc Hlf) Hlen Hx Hy E (page_ok_nonzero _ Hp)).
  - constructor; [|by apply Hlocks; right|by apply Hlocks; left|by apply Hlocks; left].
    destruct Hi2 as [[[K1 K2 K3 K4] Hw Hu] Ha Hb Hd]. constructor; [|by constructor|done..].
    destruct C. constructor; try done. intros j. apply Hlocks. by left.
Qed.

(** * The calls on an end of the pipe *)

Lemma uread_unseen t m m' a n : unseen t m m' -> uprefix m' t a n = uprefix m t a n /\ wprefix m' t a n = wprefix m t a n.
Proof. intros [H1 H2]. split; [by apply uprefix_ext|by apply wprefix_ext]. Qed.

Lemma holds_unseen s i p t l pi q m q' :
  holds_pipe s i p t l pi q -> holds_pipe (set_k_mem m s) i p t l pi q' -> same_but_page pi (k_mem s) m -> unseen t (k_mem s) m.
Proof.
  intros H H' Hs. exact (proj2 (holds_pipe_set s i p t l pi q m q' H (hp_mem _ _ _ _ _ _ _ H') Hs (hp_rep _ _ _ _ _ _ _ H'))).
Qed.

Lemma write_step s i p t l pi q w y src n :
  session s i p t l pi q -> fs_file s !! w = Some (write_end pi y) -> load 4 (k_mem (fs_k s)) (pi + PI_readopen) <> 0 ->
  0 <= src < 2 ^ 64 -> 0 <= n -> Z.of_nat (length q) + n <= PIPESIZE ->
  let bs := uprefix (k_mem (fs_k s)) t src (Z.to_nat n) in
  length bs = Z.to_nat n ->
  exists k', filewrite w src n s = Ret n (set_fs_k k' s) /\ session (set_fs_k k' s) i p t l pi (q ++ bs) /\
    unseen t (k_mem (fs_k s)) (k_mem k') /\ same_ends pi (k_mem (fs_k s)) (k_mem k').
Proof.
  intros S Hw Hro Hs Hn Hq bs Hb.
  destruct (pipewrite_ok (fs_k s) i p t l pi q src n (se_holds _ _ _ _ _ _ _ S) (se_pipe _ _ _ _ _ _ _ S) Hro Hs Hn Hq) as (m' & E & H' & Hp & He).
  exists (after i (CH_pipe_r pi) m' (fs_k s)). split_and!.
  - unfold filewrite. run (get_file_ok s w _ Hw). cbn [f_writable f_type f_pipe write_end set_f_pipe set_f_writable set_f_readable set_f_type set_f_ref negb orb].
    rewrite (proj2 (Z.ltb_ge _ _)) by lia. rewrite (liftk_Ret _ _ _ _ E). f_equal. unfold answer. fold bs. rewrite Hb, Z2Nat.id by lia.
    by rewrite Z.ltb_irrefl, andb_false_r.
  - exact (session_after s i p t l pi q _ (CH_pipe_r pi) m' (fs_file s) S H').
  - by eapply holds_unseen; [apply S| |].
  - done.
Qed.

Lemma read_step s i p t l pi q r x dst n :
  session s i p t l pi q -> fs_file s !! r = Some (read_end pi x) -> load 4 (k_mem (fs_k s)) (pi + PI_writeopen) = 0 ->
  0 <= dst < 2 ^ 64 -> Z.of_nat (length q) <= n -> wprefix (k_mem (fs_k s)) t dst (length q) = length q ->
  exists k', fileread r dst n s = Ret (Z.of_nat (length q)) (set_fs_k k' s) /\ session (set_fs_k k' s) i p t l pi [] /\
    stored (k_mem (fs_k s)) (k_mem k') t dst q /\ same_ends pi (k_mem (fs_k s)) (k_mem k').
Proof.
  intros S Hr Hwo Hd Hn Hw.
  destruct (piperead_ok (fs_k s) i p t l pi q dst n (se_holds _ _ _ _ _ _ _ S) (se_pipe _ _ _ _ _ _ _ S) (or_intror Hwo) Hd ltac:(lia))
    as (m' & E & H' & Hst & He & _).
  replace (Z.to_nat n `min` length q)%nat with (length q) in * by lia. rewrite Hw, drop_all, take_ge in * by done.
  exists (after i (CH_pipe_w pi) m' (fs_k s)). split_and!; [| |done|done].
  - unfold fileread. run (get_file_ok s r _ Hr). cbn [f_readable f_type f_pipe read_end set_f_pipe set_f_writable set_f_readable set_f_type set_f_ref negb orb].
    rewrite (proj2 (Z.ltb_ge _ _)) by lia. rewrite (liftk_Ret _ _ _ _ E). f_equal. unfold answer. by rewrite Z.ltb_irrefl, andb_false_r.
  - exact (session_after s i p t l pi q _ (CH_pipe_w pi) m' (fs_file s) S H').
Qed.

(** An entry of the table nobody refers to any more. *)
Definition shut (x : file) : file := set_f_type FD_NONE (set_f_ref 0 x).

(** The first end that is closed. *)
Lemma close_writer s i p t l pi q w y :
  session s i p t l pi q -> fs_file s !! w = Some (write_end pi y) -> load 4 (k_mem (fs_k s)) (pi + PI_readopen) <> 0 ->
  exists k', fileclose w s = Ret tt (set_fs_file (<[w := shut (write_end pi y)]> (fs_file s)) (set_fs_k k' s)) /\
    session (set_fs_k k' s) i p t l pi q /\ unseen t (k_mem (fs_k s)) (k_mem k') /\ load 4 (k_mem k') (pi + PI_writeopen) = 0.
Proof.
  intros S Hw Hro. destruct (pipeclose_ok (fs_k s) i p t l pi q true (se_holds _ _ _ _ _ _ _ S) (se_pipe _ _ _ _ _ _ _ S)) as [H' E].
  cbn [negb end_flag] in *. rewrite (proj2 (Z.eqb_neq _ _) Hro) in E.
  set (m1 := store 4 (k_mem (fs_k s)) (pi + PI_writeopen) 0) in *. exists (after i (CH_pipe_r pi) m1 (fs_k s)). split_and!.
  - rewrite (fileclose_ok s w _ (session_table _ _ _ _ _ _ _ S) Hw) by done.
    exact (liftk_Ret (pipeclose pi true) (set_fs_file _ s) tt _ E).
  - exact (session_after s i p t l pi q _ (CH_pipe_r pi) m1 (fs_file s) S H').
  - eapply holds_unseen; [apply S|done|]. intros x Hx. apply mget_store_out. unfold PI_writeopen, PGSIZE in *. lia.
  - by apply load4_store4.
Qed.

(** The last end gives the page back. *)
Lemma close_reader s i p t l pi q r x :
  session s i p t l pi q -> fs_file s !! r = Some (read_end pi x) -> load 4 (k_mem (fs_k s)) (pi + PI_writeopen) = 0 ->
  exists k', fileclose r s = Ret tt (set_fs_file (<[r := shut (read_end pi x)]> (fs_file s)) (set_fs_k k' s)) /\
    caller k' i p t /\ as_inv k' t (pi :: l) /\ unseen t (k_mem (fs_k s)) (k_mem k') /\
    k_locks k' = k_locks (fs_k s).
Proof.
  intros S Hr Hwo. destruct (pipeclose_ok (fs_k s) i p t l pi q false (se_holds _ _ _ _ _ _ _ S) (se_pipe _ _ _ _ _ _ _ S)) as [H' E].
  cbn [negb end_flag] in *. rewrite (proj2 (Z.eqb_eq _ _) Hwo) in E.
  set (m1 := store 4 (k_mem (fs_k s)) (pi + PI_readopen) 0) in *. set (s1 := after i (CH_pipe_w pi) m1 (fs_k s)) in *.
  pose proof (session_after s i p t l pi q _ (CH_pipe_w pi) m1 (fs_file s) S H') as S1.
  pose proof (se_holds _ _ _ _ _ _ _ S1) as H1. change (holds_pipe s1 i p t l pi q) in H1.
  destruct (kfree_page s1 t pi l) as (m & E2 & Hi & _ & Hun & Hs); [split; apply S1 || by eapply session_cpu|apply H1..|].
  exists (set_k_freelist pi (set_k_mem m s1)). split_and!; [| |done| |done].
  - rewrite (fileclose_ok s r _ (session_table _ _ _ _ _ _ _ S) Hr) by done.
    rewrite E2 in E. exact (liftk_Ret (pipeclose pi false) (set_fs_file _ s) tt _ E).
  - destruct (hp_caller _ _ _ _ _ _ _ H1). by constructor.
  - eapply unseen_trans; [|exact Hun]. eapply holds_unseen; [apply S|exact H'|].
    intros z Hz. apply mget_store_out. unfold PI_readopen, PGSIZE in *. lia.
Qed.

(** A process makes a pipe, writes [n] bytes from [src], closes the writing end,
    reads to [dst] twice, and closes the reading end. *)
Definition pipe_session (src dst n : Z) : F (option (Z * Z * Z)) :=
  fs <- pipealloc ;;
  match fs with
  | None => ret None
  | Some (r, w) =>
      a <- filewrite w src n ;;
      fileclose w ;;
      b <- fileread r dst n ;;
      c <- fileread r dst n ;;
      fileclose r ;;
      ret (Some (a, b, c))
  end.

Lemma stored_unseen_l t m1 m2 m3 a bs : unseen t m1 m2 -> stored m2 m3 t a bs -> stored m1 m3 t a bs.
Proof. intros [H _] St x. rewrite (St x). by rewrite H. Qed.
Lemma stored_unseen_r t m1 m2 m3 a bs : stored m1 m2 t a bs -> unseen t m2 m3 -> stored m1 m3 t a bs.
Proof. intros St [H _] x. by rewrite H, (St x). Qed.
Lemma stored_nil t m1 m2 m3 a b bs : stored m1 m2 t a bs -> stored m2 m3 t b [] -> stored m1 m3 t a bs.
Proof.
  intros St Sn x. rewrite (Sn x), (St x). cbn [length].
  by destruct (Z.leb_spec b x), (Z.ltb_spec x (b + Z.of_nat 0)); cbn [andb]; try lia.
Qed.

(** C19: a pipe delivers. What the process writes to a new pipe is what it reads from
    it, byte for byte: the write and the first read answer [n], and with the writing
    end closed the second read answers 0, the end of the file. When both ends are
    closed the page of the pipe is back at the head of the allocator's list, the two
    entries of the file table are free again and the others as they were, and the
    memory of the process differs at [dst] only. *)
Theorem pipe_delivers s i p t pi l r w x y src dst n :
  caller (fs_k s) i p t -> as_inv (fs_k s) t (pi :: l) -> lock_free (fs_k s) LK_kmem -> lock_free (fs_k s) LK_ftable ->
  length (fs_file s) = NFILE -> first_unused (fs_file s) r x -> first_unused (<[r := set_f_ref 1 x]> (fs_file s)) w y ->
  0 <= src < 2 ^ 64 -> 0 <= dst < 2 ^ 64 -> 0 <= n <= PIPESIZE ->
  let bs := uprefix (k_mem (fs_k s)) t src (Z.to_nat n) in
  length bs = Z.to_nat n -> wprefix (k_mem (fs_k s)) t dst (Z.to_nat n) = Z.to_nat n ->
  exists k', pipe_session src dst n s =
      Ret (Some (n, n, 0)) (set_fs_file (<[r := shut (read_end pi x)]> (<[w := shut (write_end pi y)]> (fs_file s))) (set_fs_k k' s)) /\
    stored (k_mem (fs_k s)) (k_mem k') t dst bs /\ as_inv k' t (pi :: l) /\ caller k' i p t.
Proof.
  intros C Hi Hlk Hlf Hlen Hx Hy Hsrc Hdst Hn bs Hbs Hwp.
  assert (Hwr : w <> r). { intros ->. destruct Hy as (Hy & Hy0 & _). destruct Hx as [Hx _]. apply lookup_lt_Some in Hx.
    rewrite list_lookup_insert_eq in Hy by done. by simplify_eq. }
  pose proof (lookup_lt_Some _ _ _ (proj1 Hx)) as Hxl. pose proof (lookup_lt_Some _ _ _ (proj1 Hy)) as Hyl. rewrite length_insert in Hyl.
  destruct (pipealloc_ok s i p t pi l r w x y C Hi Hlk Hlf Hlen Hx Hy) as (k1 & E1 & S1 & U1 & R1 & W1).
  set (fl1 := <[w := write_end pi y]> (<[r := read_end pi x]> (fs_file s))) in *. set (s1 := set_fs_file fl1 (set_fs_k k1 s)) in *.
  assert (S1' : session s1 i p t l pi []) by (destruct S1; by constructor).
  assert (Hw1 : fl1 !! w = Some (write_end pi y)) by (apply list_lookup_insert_eq; by rewrite length_insert).
  assert (Hr1 : fl1 !! r = Some (read_end pi x)) by (unfold fl1; rewrite list_lookup_insert_ne by done; by apply list_lookup_insert_eq).
  destruct (uread_unseen t _ _ src (Z.to_nat n) U1) as [Eb _].
  destruct (write_step s1 i p t l pi [] w y src n S1' Hw1) as (k2 & E2 & S2 & U2 & He2); [cbn; by rewrite R1|done|lia|cbn; lia|by cbn; rewrite Eb|].
  cbn [fs_k s1 set_fs_file set_fs_k app] in *. rewrite Eb in S2. fold bs in S2.
  destruct (close_writer _ i p t l pi bs w y S2 Hw1) as (k3 & E3 & S3 & U3 & W3).
  { cbn. by rewrite (same_ends_readopen _ _ _ He2), R1. }
  set (s3 := set_fs_file (<[w := shut (write_end pi y)]> fl1) (set_fs_k k3 s)) in *.
  assert (S3' : session s3 i p t l pi bs) by (destruct S3; by constructor).
  assert (Hr3 : fs_file s3 !! r = Some (read_end pi x)) by (cbn; by rewrite list_lookup_insert_ne).
  assert (U : unseen t (k_mem (fs_k s)) (k_mem k3)) by exact (unseen_trans _ _ _ _ (unseen_trans _ _ _ _ U1 U2) U3).
  destruct (read_step s3 i p t l pi bs r x dst n S3' Hr3 W3) as (k4 & E4 & S4 & St4 & He4); [done|lia| |].
  { rewrite Hbs. cbn. by rewrite (proj2 (uread_unseen t _ _ dst (Z.to_nat n) U)). }
  destruct (read_step (set_fs_k k4 s3) i p t l pi [] r x dst n S4 Hr3) as (k5 & E5 & S5 & St5 & He5); [|done|cbn; lia|done|].
  { cbn. by rewrite (same_ends_writeopen _ _ _ He4). }
  destruct (close_reader (set_fs_k k5 (set_fs_k k4 s3)) i p t l pi [] r x S5 Hr3) as (k6 & E6 & C6 & I6 & U6 & _).
  { cbn in *. by rewrite (same_ends_writeopen _ _ _ He5), (same_ends_writeopen _ _ _ He4). }
  exists k6. split_and!; [|eapply stored_unseen_l; [exact U|]; eapply stored_unseen_r; [|exact U6]; by eapply stored_nil|done|done].
  unfold pipe_session. rewrite (bind_Ret _ _ _ _ _ E1). cbn beta iota. rewrite (bind_Ret _ _ _ _ _ E2), (bind_Ret _ _ _ _ _ E3).
  rewrite (bind_Ret _ _ _ _ _ E4), (bind_Ret _ _ _ _ _ E5), (bind_Ret _ _ _ _ _ E6). unfold ret. f_equal; [do 2 f_equal; f_equal; lia|].
  cbn [fs_file s3 set_fs_file set_fs_k]. unfold fl1. rewrite list_insert_insert_eq, (list_insert_insert_ne _ w r) by done.
  by rewrite list_insert_insert_eq.
Qed.
End PipeLife.

(** * A pipe of the sample process *)

#[local] Existing Instance sample_layout.
#[local] Existing Instance Machine.ideal_disk.
#[local] Instance no_wakeups : Wakeups := 0%nat.
#[local] Instance no_sleep : PipeSleep := {| sleep_prepare := fun _ => ret tt; sleep_now := ret tt |}.

Definition sample_files : fstate := mk_fstate sample_grow (replicate NFILE zero_file) [] [].

Lemma first_unused_replicate n k : (k < n)%nat -> first_unused (replicate k (set_f_ref 1 zero_file) ++ replicate (n - k) zero_file) k zero_file.
Proof.
  intros Hk. split_and!; [|done|].
  - rewrite lookup_app_r, length_replicate, Nat.sub_diag by (rewrite length_replicate; lia). apply lookup_replicate_2. lia.
  - intros g y Hg Hy. rewrite lookup_app_l in Hy by (by rewrite length_replicate). by apply lookup_replicate_1 in Hy as [-> _].
Qed.

Lemma pipe_delivers_witness :
  exists s', pipe_session 0 16 3 sample_files = Ret (Some (3, 3, 0)) s'.
Proof.
  destruct (pipe_delivers sample_files 0 sample_proc Sample.tree (KERNBASE + 0x30000) [KERNBASE + 0x40000] 0 1 zero_file zero_file 0 16 3)
    as (k' & E & _).
  - constructor; try reflexivity. exists (mk_cpu (Some 0%nat) 0 false false). split; [reflexivity|by split_and!].
  - exact (us_inv _ _ _ _ _ sample_space).
  - reflexivity.
  - reflexivity.
  - reflexivity.
  - exact (first_unused_replicate NFILE 0 ltac:(unfold NFILE; lia)).
  - exact (first_unused_replicate NFILE 1 ltac:(unfold NFILE; lia)).
  - lia.
  - lia.
  - unfold PIPESIZE. lia.
  - vm_compute. reflexivity.
  - vm_compute. reflexivity.
  - eexists. exact E.
Defined.
