(* ===== verification/Trap.v ===== *)
(** kernel/trap.c, kernel/plic.c, kernel/start.c, kernel/main.c and [forkret] of
    proc.c: entering and leaving the kernel, device interrupts, and booting.

    [userret] in trampoline.S does not come back to C: returning to user space
    is the end of [usertrapret], whose result is the page table register value
    that it hands to [userret]. *)

From S2P Require Import Prelude Types Memory Spinlock Kalloc Vm Sched Sleeplock Bio Uart Printf Block Log Fs Console InitCode Proc Exec Mach Virtio Syscall.
Local Open Scope Z_scope.
Local Open Scope c_scope.

(** riscv.h *)
Definition SSTATUS_SPP : Z := Z.shiftl 1 8.
Definition SSTATUS_SPIE : Z := Z.shiftl 1 5.
Definition SSTATUS_SIE : Z := Z.shiftl 1 1.
Definition SATP_SV39 : Z := Z.shiftl 8 60.
Definition MAKE_SATP (pagetable : Z) : Z := Z.lor SATP_SV39 (Z.shiftr pagetable 12).
Definition SIE_SEIE : Z := Z.shiftl 1 9.
Definition SIE_STIE : Z := Z.shiftl 1 5.
Definition MSTATUS_MPP_MASK : Z := Z.shiftl 3 11.
Definition MSTATUS_MPP_S : Z := Z.shiftl 1 11.
Definition MENVCFG_ADUE : Z := Z.shiftl 1 61.
Definition MENVCFG_STCE : Z := Z.shiftl 1 63.

(** [sstatus], whose SIE bit is kept with the hart. *)
Definition r_sstatus : H Z :=
  x <- r_csr C_sstatus ;;
  i <- lift intr_get ;;
  ret (if (i : bool) then Z.lor x SSTATUS_SIE else Z.land x (Z.lnot SSTATUS_SIE)).
Definition w_sstatus (x : Z) : H unit :=
  w_csr C_sstatus x ;;
  if has SSTATUS_SIE x then lift intr_on else lift intr_off.

(** memlayout.h, plic.c *)
Definition UART0_IRQ : Z := 10.
Definition VIRTIO0_IRQ : Z := 1.
Definition PLIC_SENABLE (hart : Z) : Z := PLIC + 0x2080 + hart * 0x100.
Definition PLIC_SPRIORITY (hart : Z) : Z := PLIC + 0x201000 + hart * 0x2000.

Definition w_plic (a v : Z) : H unit :=
  modify (fun s => set_m_plic (set_pl_regs (<[a := u32 v]> (pl_regs (m_plic s))) (m_plic s)) s).
Definition plicinit : H unit :=
  w_plic (PLIC + UART0_IRQ * 4) 1 ;;
  w_plic (PLIC + VIRTIO0_IRQ * 4) 1.
Definition plicinithart : H unit :=
  hart <- lift cpuid ;;
  w_plic (PLIC_SENABLE (Z.of_nat hart)) (Z.lor (Z.shiftl 1 UART0_IRQ) (Z.shiftl 1 VIRTIO0_IRQ)) ;;
  w_plic (PLIC_SPRIORITY (Z.of_nat hart)) 0.

(** Reading the claim register takes the next pending interrupt. *)
Definition plic_claim : H Z :=
  p <- gets m_plic ;;
  match pl_claims p with
  | [] => ret 0
  | irq :: l => modify (set_m_plic (set_pl_claims l p)) ;; ret irq
  end.
Definition plic_complete (irq : Z) : H unit :=
  modify (fun s => set_m_plic (set_pl_done (pl_done (m_plic s) ++ [irq]) (m_plic s)) s).

(** kvminithart of vm.c *)
Definition kvminithart : H unit :=
  kpgtbl <- lift (gets k_kpgtbl) ;; w_csr C_satp (MAKE_SATP kpgtbl).

Section Trap.
Context {L : KernelLayout} {X : Text} {W : Wakeups} {D : DiskDriver}.

(** * trap.c *)

Definition trapinit : H unit := lift (initlock LK_ticks).
Definition trapinithart : H unit := w_csr C_stvec t_kernelvec.

Definition clockintr : H unit :=
  hart <- lift cpuid ;;
  when (bool_decide (hart = 0%nat))
    (lift (acquire LK_ticks) ;;
     lift (modify (fun s => set_k_ticks (u32 (k_ticks s + 1)) s)) ;;
     lift (wakeup CH_ticks) ;;
     lift (release LK_ticks)) ;;
  t <- r_csr C_time ;;
  w_csr C_stimecmp (u64 (t + 1000000)).

Definition msg_irq : list Z := bytes "unexpected interrupt irq=%d" ++ [10].

Definition devintr : H Z :=
  scause <- r_csr C_scause ;;
  if scause =? 0x8000000000000009 then
    irq <- plic_claim ;;
    (if irq =? UART0_IRQ then lift uartintr
     else if irq =? VIRTIO0_IRQ then virtio_disk_intr
     else when (negb (irq =? 0)) (_ <- lift (printf msg_irq [VInt irq]) ;; ret tt)) ;;
    when (negb (irq =? 0)) (plic_complete irq) ;;
    ret 1
  else if scause =? 0x8000000000000005 then clockintr ;; ret 2
  else ret 0.

(** Returns [MAKE_SATP(p->pagetable)] to trampoline.S. *)
Definition usertrapret : H Z :=
  p <- lift me ;;
  lift intr_off ;;
  w_csr C_stvec (u64 (TRAMPOLINE + (t_uservec - l_trampoline))) ;;
  satp <- r_csr C_satp ;;
  lift (tf_put p TF_kernel_satp satp) ;;
  pr <- lift (get_proc p) ;;
  lift (tf_put p TF_kernel_sp (u64 (p_kstack pr + PGSIZE))) ;;
  lift (tf_put p TF_kernel_trap t_usertrap) ;;
  hart <- lift cpuid ;;
  lift (tf_put p TF_kernel_hartid (Z.of_nat hart)) ;;
  x <- r_sstatus ;;
  w_sstatus (Z.lor (Z.land x (Z.lnot SSTATUS_SPP)) SSTATUS_SPIE) ;;
  epc <- lift (tf_get p TF_epc) ;;
  w_csr C_sepc epc ;;
  pr <- lift (get_proc p) ;;
  ret (MAKE_SATP (p_pagetable pr)).

Definition msg_usertrap : list Z := bytes "usertrap: scause=0x%lx sepc=0x%lx stval=0x%lx" ++ [10].
Definition msg_kerneltrap : list Z := bytes "scause=0x%lx sepc=0x%lx stval=0x%lx" ++ [10].

Definition usertrap : H Z :=
  p <- lift me ;;
  x <- r_sstatus ;;
  if has SSTATUS_SPP x then panic "usertrap: not from user mode" else
  w_csr C_stvec t_kernelvec ;;
  epc <- r_csr C_sepc ;;
  lift (tf_put p TF_epc epc) ;;
  scause <- r_csr C_scause ;;
  which_dev <-
    (if scause =? 8 then
       k <- lift (killed p) ;;
       when (negb (k =? 0)) (lift (kexit (-1))) ;;
       epc <- lift (tf_get p TF_epc) ;;
       lift (tf_put p TF_epc (u64 (epc + 4))) ;;
       lift intr_on ;;
       syscall ;;
       ret 0
     else
       d <- devintr ;;
       if d =? 0 then
         scause <- r_csr C_scause ;;
         sepc <- r_csr C_sepc ;;
         stval <- r_csr C_stval ;;
         _ <- lift (printf msg_usertrap [VInt scause; VInt sepc; VInt stval]) ;;
         panic "usertrap"
       else ret d) ;;
  k <- lift (killed p) ;;
  when (negb (k =? 0)) (lift (kexit (-1))) ;;
  when (which_dev =? 2) (lift yield) ;;
  usertrapret.

Definition kerneltrap : H unit :=
  sepc <- r_csr C_sepc ;;
  sstatus <- r_sstatus ;;
  if negb (has SSTATUS_SPP sstatus) then panic "kerneltrap: not from supervisor mode" else
  i <- lift intr_get ;;
  if (i : bool) then panic "kerneltrap: interrupts enabled" else
  which_dev <- devintr ;;
  if which_dev =? 0 then
    scause <- r_csr C_scause ;;
    stval <- r_csr C_stval ;;
    _ <- lift (printf msg_kerneltrap [VInt scause; VInt sepc; VInt stval]) ;;
    panic "kerneltrap"
  else
  (if which_dev =? 2 then
     p <- lift myproc ;;
     match p with Some _ => lift yield | None => ret tt end
   else ret tt) ;;
  w_csr C_sepc sepc ;;
  w_sstatus sstatus.

(** * proc.c *)

Definition forkret : H Z :=
  p <- lift me ;;
  lift (release (LK_proc p)) ;;
  first <- gets m_first ;;
  when (first : bool)
    (lift (fsinit ROOTDEV) ;;
     ip <- lift (namei (bytes "/")) ;;
     lift (upd_proc p (set_p_cwd ip)) ;;
     r <- lift (kexec (bytes "init") [bytes "init"]) ;;
     if r <? 0 then panic "forkret: exec init" else
     modify (set_m_first false)) ;;
  usertrapret.

(** * start.c and main.c *)

Definition timerinit : H unit :=
  x <- r_csr C_menvcfg ;;
  w_csr C_menvcfg (Z.lor x MENVCFG_STCE) ;;
  x <- r_csr C_mcounteren ;;
  w_csr C_mcounteren (Z.lor x 2) ;;
  t <- r_csr C_time ;;
  w_csr C_stimecmp (u64 (t + 1000000)).

(** [main] is the address [start] returns to; [tp] becomes the number of the
    running hart. *)
Definition start (main : Z) : H unit :=
  x <- r_csr C_mstatus ;;
  w_csr C_mstatus (Z.lor (Z.land x (Z.lnot MSTATUS_MPP_MASK)) MSTATUS_MPP_S) ;;
  w_csr C_mepc main ;;
  w_csr C_satp 0 ;;
  w_csr C_medeleg 0xffff ;;
  w_csr C_mideleg 0xffff ;;
  sie <- r_csr C_sie ;;
  w_csr C_sie (Z.lor (Z.lor sie SIE_SEIE) SIE_STIE) ;;
  w_csr C_pmpaddr0 0x3fffffffffffff ;;
  w_csr C_pmpcfg0 0xf ;;
  x <- r_csr C_menvcfg ;;
  w_csr C_menvcfg (Z.lor x MENVCFG_ADUE) ;;
  timerinit ;;
  id <- r_csr C_mhartid ;;
  lift (modify (set_k_hart (Z.to_nat (i32 id)))).

Definition msg_boot : list Z := bytes "cpu %d is booting!" ++ [10].

(** [main] on hart 0, up to the call of [scheduler]. *)
Definition main_boot : H unit :=
  lift consoleinit ;;
  lift printfinit ;;
  lift kinit ;;
  lift kvminit ;;
  kvminithart ;;
  lift procinit ;;
  trapinit ;;
  trapinithart ;;
  plicinit ;;
  plicinithart ;;
  lift binit ;;
  virtio_disk_init ;;
  hart <- lift cpuid ;;
  _ <- lift (printf msg_boot [VInt (Z.of_nat hart)]) ;;
  lift userinit.

(** [main] on another hart, once [started] is set. *)
Definition main_secondary : H unit :=
  kvminithart ;;
  trapinithart ;;
  plicinithart ;;
  hart <- lift cpuid ;;
  _ <- lift (printf msg_boot [VInt (Z.of_nat hart)]) ;;
  ret tt.

End Trap.
