(* ===== verification/TrapSpec.v ===== *)
(** System calls from the trap to the return to user space (trap.c, syscall.c). *)

From S2P Require Import Prelude Types Memory Spinlock Kalloc Vm PageTable UserMem UserCopy Sched Sleeplock Bio Uart Printf Block Log Crash Fs Console InitCode Proc SleepWake SchedSpec ProcSpec Exec Mach Virtio Syscall Trap.
Local Open Scope Z_scope.
Local Open Scope c_scope.

(** * The running process *)

(** Process [p] runs on the hart of [k], outside of every critical section. *)
Record running (k : kstate) (p : nat) (pr : proc) : Prop := {
  rn_cpu : exists c, k_cpus k !! k_hart k = Some c /\ c_noff c = 0 /\ c_proc c = Some p;
  rn_proc : k_procs k !! p = Some pr;
  rn_lock : lock_free k (LK_proc p);
  rn_tf : p_trapframe pr <> 0
}.

Lemma running_settle k p pr : running k p pr -> running (settle k) p pr /\ cpu_ok (settle k) /\ cur (settle k) = Some p.
Proof.
  intros [(c & Hc & Hn & Hp) H1 H2 H3]. destruct (settle_ok k c Hc Hn) as [Hok _].
  assert (Hs : k_cpus (settle k) !! k_hart (settle k) = Some (set_c_intena (c_sie c) c)).
  { unfold settle. rewrite Hc. apply list_lookup_insert_eq. by eapply lookup_lt_Some. }
  split_and!; [|done|by unfold cur; rewrite Hs].
  constructor; [by eexists|by rewrite settle_procs| |done]. unfold lock_free, settle. by rewrite Hc.
Qed.

Lemma me_running k p pr : running k p pr -> me k = Ret p (settle k).
Proof.
  intros R. destruct (running_settle k p pr R) as (_ & Hok & Hcur).
  rewrite <- (me_ok (settle k) p Hok Hcur). destruct R as [(c & Hc & Hn & _) _ _ _].
  unfold me, myproc, bind at 1 2. unfold bind at 3 4. by rewrite (proj2 (settle_ok k c Hc Hn)).
Qed.

Lemma killed_running k p pr : running k p pr -> killed p k = Ret (p_killed pr) (settle k).
Proof.
  intros R. destruct (running_settle k p pr R) as ([_ Hp Hl _] & Hok & _). destruct R as [(c & Hc & Hn & _) _ Hl0 _].
  unfold killed. run (acquire_settle k c (LK_proc p) Hc Hn Hl0).
  assert (Hp' : k_procs (enter (LK_proc p) (settle k)) !! p = Some pr) by (by kproj).
  run (get_proc_ok _ p pr Hp'). leave. by rewrite restore_enter.
Qed.

(** The fields of the trap frame. *)
Lemma tf_get_running k p pr off :
  running k p pr -> tf_get p off k = Ret (load64 (k_mem k) (p_trapframe pr + off)) k.
Proof.
  intros [_ Hp _ Ht]. unfold tf_get, tf_of. unfold bind at 1. run (get_proc_ok k p pr Hp).
  by rewrite (proj2 (Z.eqb_neq _ _)) by done.
Qed.
Lemma tf_put_running k p pr off v :
  running k p pr -> tf_put p off v k = Ret tt (set_k_mem (store64 (k_mem k) (p_trapframe pr + off) v) k).
Proof.
  intros [_ Hp _ Ht]. unfold tf_put, tf_of. unfold bind at 1. run (get_proc_ok k p pr Hp).
  by rewrite (proj2 (Z.eqb_neq _ _)) by done.
Qed.

Lemma running_mem k p pr m : running k p pr -> running (set_k_mem m k) p pr.
Proof. intros [H1 H2 H3 H4]. by constructor. Qed.

(** Turning interrupts on and off. *)
Definition set_sie (b : bool) (k : kstate) : kstate :=
  match k_cpus k !! k_hart k with
  | Some c => set_k_cpus (<[k_hart k := set_c_sie b c]> (k_cpus k)) k
  | None => k
  end.

Lemma intr_set_ok (b : bool) k p pr :
  running k p pr -> (if b then intr_on else intr_off) k = Ret tt (set_sie b k) /\ running (set_sie b k) p pr.
Proof.
  intros [(c & Hc & Hn & Hp) H2 H3 H4]. unfold set_sie. rewrite Hc. split.
  - destruct b; unfold intr_on, intr_off, bind, mycpu; rewrite Hc; done.
  - constructor; [|done|done|done]. eexists. split; [apply list_lookup_insert_eq; by eapply lookup_lt_Some|done].
Qed.

Lemma settle_id k p pr : running k p pr -> cpu_ok k -> settle k = k.
Proof.
  intros [(c & Hc & Hn & _) _ _ _] (c' & Hc' & (_ & _ & H3)). simplify_eq. unfold settle. rewrite Hc.
  rewrite list_insert_id; [by destruct k|]. rewrite Hc. f_equal. rewrite <- H3 by done. by destruct c.
Qed.

Lemma settle_mem k m : settle (set_k_mem m k) = set_k_mem m (settle k).
Proof. unfold settle. cbn. by destruct (k_cpus k !! k_hart k). Qed.

Lemma settle_mem_eq k : k_mem (settle k) = k_mem k.
Proof. unfold settle. by destruct (k_cpus k !! k_hart k). Qed.
Lemma sie_mem_eq b k : k_mem (set_sie b k) = k_mem k.
Proof. unfold set_sie. by destruct (k_cpus k !! k_hart k). Qed.
Lemma sie_procs_eq b k : k_procs (set_sie b k) = k_procs k.
Proof. unfold set_sie. by destruct (k_cpus k !! k_hart k). Qed.

Lemma sie_free_eq b k : k_freelist (set_sie b k) = k_freelist k.
Proof. unfold set_sie. by destruct (k_cpus k !! k_hart k). Qed.
Lemma settle_free k : k_freelist (settle k) = k_freelist k.
Proof. unfold settle. by destruct (k_cpus k !! k_hart k). Qed.
Lemma sie_locks b k : k_locks (set_sie b k) = k_locks k.
Proof. unfold set_sie. by destruct (k_cpus k !! k_hart k). Qed.
Lemma settle_locks k : k_locks (settle k) = k_locks k.
Proof. unfold settle. by destruct (k_cpus k !! k_hart k). Qed.

Section Trap.
Context {L : KernelLayout} {X : Text} {W : Wakeups} {D : DiskDriver}.

(** A trap of process [p] from user mode by [ecall], with the trap frame at [T]. *)
Record from_user (m : mach) (p : nat) (pr : proc) : Prop := {
  fu_run : running (m_k m) p pr;
  fu_alive : p_killed pr = 0;
  fu_user : has SSTATUS_SPP (m_csr m C_sstatus) = false;
  fu_ecall : m_csr m C_scause = 8;
  fu_epc : 0 <= m_csr m C_sepc < 2 ^ 64
}.

Lemma spp_sie (x : Z) (b : bool) :
  has SSTATUS_SPP (if b then Z.lor x SSTATUS_SIE else Z.land x (Z.lnot SSTATUS_SIE)) = has SSTATUS_SPP x.
Proof.
  unfold has, SSTATUS_SPP, SSTATUS_SIE. f_equal. f_equal. apply Z.bits_inj'. intros n Hn.
  destruct b; rewrite ?Z.land_spec, ?Z.lor_spec, ?Z.lnot_spec by done;
    change (Z.shiftl 1 8) with (2 ^ 8); change (Z.shiftl 1 1) with (2 ^ 1);
    rewrite ?Z.pow2_bits_eqb by done; destruct (Z.eqb_spec 8 n), (Z.eqb_spec 1 n); try lia;
    destruct (Z.testbit x n); done.
Qed.

(** The machine [m0] with the kernel in state [k] and the registers [c]. *)
Definition at_regs (m0 : mach) (k : kstate) (c : csr -> Z) : mach := set_m_k k (set_m_csr c m0).

Lemma lift_regs {A} (f : K A) m0 k c a k' : f k = Ret a k' -> lift f (at_regs m0 k c) = Ret a (at_regs m0 k' c).
Proof. intros E. unfold lift. cbn. by rewrite E. Qed.
Lemma r_csr_regs x m0 k c : r_csr x (at_regs m0 k c) = Ret (c x) (at_regs m0 k c).
Proof. done. Qed.
Lemma w_csr_regs x v m0 k c : w_csr x v (at_regs m0 k c) = Ret tt (at_regs m0 k (<[x := v]> c)).
Proof. done. Qed.

Lemma r_sstatus_regs m0 k c p pr :
  running k p pr ->
  exists b : bool, r_sstatus (at_regs m0 k c) =
    Ret (if b then Z.lor (c C_sstatus) SSTATUS_SIE else Z.land (c C_sstatus) (Z.lnot SSTATUS_SIE)) (at_regs m0 k c).
Proof.
  intros [(x & Hx & _) _ _ _]. exists (c_sie x). unfold r_sstatus. rewrite (bind_Ret _ _ _ _ _ (r_csr_regs _ _ _ _)).
  erewrite bind_Ret; [reflexivity|]. apply lift_regs. unfold intr_get, bind, mycpu. by rewrite Hx.
Qed.

(** [r_sstatus] once interrupts are off. *)
Lemma r_sstatus_off m0 k c p pr :
  running k p pr -> r_sstatus (at_regs m0 (set_sie false k) c) =
    Ret (Z.land (c C_sstatus) (Z.lnot SSTATUS_SIE)) (at_regs m0 (set_sie false k) c).
Proof.
  intros [(x & Hx & _) _ _ _]. unfold r_sstatus. rewrite (bind_Ret _ _ _ _ _ (r_csr_regs _ _ _ _)).
  rewrite (bind_Ret _ _ _ false (at_regs m0 (set_sie false k) c)); [done|].
  apply lift_regs. unfold intr_get, bind, mycpu, set_sie. rewrite Hx. cbn.
  by rewrite list_lookup_insert_eq by (by eapply lookup_lt_Some).
Qed.

(** The state in which [syscall] is called. *)
Definition sys_call (m : mach) (pr : proc) : mach :=
  let a := p_trapframe pr + TF_epc in
  let epc := m_csr m C_sepc in
  at_regs m (set_sie true (set_k_mem (store64 (store64 (k_mem (m_k m)) a epc) a (u64 (epc + 4))) (settle (m_k m))))
    (<[C_stvec := t_kernelvec]> (m_csr m)).

Lemma usertrap_calls m p pr m2 :
  from_user m p pr -> syscall (sys_call m pr) = Ret tt m2 ->
  usertrap m = (k <- lift (killed p) ;; when (negb (k =? 0)) (lift (kexit (-1))) ;; usertrapret) m2.
Proof.
  intros [R Hk Hu He Hepc] Hsys. destruct (running_settle _ _ _ R) as (R1 & Hok & _).
  unfold usertrap. replace m with (at_regs m (m_k m) (m_csr m)) at 1 by (by destruct m).
  erewrite bind_Ret; [|apply lift_regs, (me_running _ _ _ R)].
  destruct (r_sstatus_regs m (settle (m_k m)) (m_csr m) p pr R1) as [b Eb].
  rewrite (bind_Ret _ _ _ _ _ Eb), spp_sie, Hu. rewrite (bind_Ret _ _ _ _ _ (w_csr_regs _ _ _ _ _)).
  rewrite (bind_Ret _ _ _ _ _ (r_csr_regs _ _ _ _)). rewrite fn_lookup_insert_ne by done.
  erewrite bind_Ret; [|apply lift_regs, (tf_put_running _ _ _ TF_epc _ R1)].
  rewrite (bind_Ret _ _ _ _ _ (r_csr_regs _ _ _ _)). rewrite fn_lookup_insert_ne, He by done.
  rewrite settle_mem_eq. set (k1 := set_k_mem _ (settle (m_k m))).
  assert (R2 : running k1 p pr) by (by apply running_mem).
  assert (E2 : settle k1 = k1) by (by apply (settle_id k1 p pr)).
  change (8 =? 8) with true. cbv iota. erewrite (bind_Ret _ _ _ 0 m2); [reflexivity|].
  erewrite bind_Ret; [|apply lift_regs; rewrite (killed_running _ _ _ R2), Hk, E2; reflexivity].
  cbn [negb Z.eqb when]. erewrite bind_Ret; [|reflexivity].
  erewrite bind_Ret; [|apply lift_regs, (tf_get_running _ _ _ TF_epc R2)].
  replace (load64 (k_mem k1) (p_trapframe pr + TF_epc)) with (m_csr m C_sepc) by (symmetry; apply load64_store64; lia).
  erewrite bind_Ret; [|apply lift_regs, (tf_put_running _ _ _ TF_epc _ R2)].
  erewrite bind_Ret; [|apply lift_regs, (intr_set_ok true _ p pr (running_mem _ _ _ _ R2))].
  by erewrite bind_Ret; [|exact Hsys].
Qed.
(** The machine when the system call itself starts: the return address is the
    instruction after the [ecall], interrupts are on, traps go to the kernel's
    vector. *)
Definition sys_entry (m : mach) (pr : proc) : mach :=
  set_m_k (settle (m_k (sys_call m pr))) (sys_call m pr).

Lemma sys_call_running m p pr : from_user m p pr -> running (m_k (sys_call m pr)) p pr.
Proof.
  intros [R _ _ _ _]. destruct (running_settle _ _ _ R) as (R1 & _ & _).
  apply (intr_set_ok true), running_mem, R1.
Qed.

Lemma sys_entry_running m p pr :
  from_user m p pr -> running (m_k (sys_entry m pr)) p pr /\ cpu_ok (m_k (sys_entry m pr)) /\ cur (m_k (sys_entry m pr)) = Some p.
Proof. intros F. apply running_settle, sys_call_running, F. Qed.

Lemma sys_entry_mem m pr :
  k_mem (m_k (sys_entry m pr)) = store64 (store64 (k_mem (m_k m)) (p_trapframe pr + TF_epc) (m_csr m C_sepc))
    (p_trapframe pr + TF_epc) (u64 (m_csr m C_sepc + 4)).
Proof. unfold sys_entry, sys_call. cbn. by rewrite settle_mem_eq, sie_mem_eq. Qed.

Lemma syscall_dispatches m p pr f r m3 pr3 :
  from_user m p pr ->
  let num := i32 (load64 (k_mem (m_k m)) (p_trapframe pr + TF_a 7)) in
  0 < num < NSYSCALLS -> syscalls num = Some f -> f (sys_entry m pr) = Ret r m3 -> running (m_k m3) p pr3 ->
  syscall (sys_call m pr) =
    Ret tt (set_m_k (set_k_mem (store64 (k_mem (m_k m3)) (p_trapframe pr3 + TF_a 0) r) (m_k m3)) m3).
Proof.
  intros F num Hnum Hf Er R3. destruct (sys_entry_running m p pr F) as (R & _ & _).
  unfold syscall. erewrite bind_Ret; [|apply lift_Ret, (me_running _ _ _ (sys_call_running m p pr F))].
  fold (sys_entry m pr). erewrite bind_Ret; [|apply lift_Ret, (tf_get_running _ _ _ (TF_a 7) R)].
  replace (set_m_k (m_k (sys_entry m pr)) (sys_entry m pr)) with (sys_entry m pr) by done.
  replace (load64 (k_mem (m_k (sys_entry m pr))) (p_trapframe pr + TF_a 7))
    with (load64 (k_mem (m_k m)) (p_trapframe pr + TF_a 7)).
  2: { rewrite sys_entry_mem, !(load_store_out 8 8) by (unfold TF_a, TF_epc; lia). done. }
  fold num. rewrite (proj2 (Z.ltb_lt _ _)), (proj2 (Z.ltb_lt _ _)), Hf by lia. cbn [andb].
  erewrite bind_Ret; [|exact Er]. apply lift_Ret, (tf_put_running _ _ _ (TF_a 0) _ R3).
Qed.

(** * Returning to user space *)

(** The machine [m'] in which trampoline.S takes over from [m]. *)
Record to_user (m : mach) (p : nat) (pr : proc) (m' : mach) : Prop := {
  tu_run : running (m_k m') p pr;
  tu_procs : k_procs (m_k m') = k_procs (m_k m);
  tu_free : k_freelist (m_k m') = k_freelist (m_k m);
  tu_ok : mem_ok (k_mem (m_k m)) -> mem_ok (k_mem (m_k m'));
  tu_mem : forall x, x < p_trapframe pr \/ p_trapframe pr + 40 <= x \/
             p_trapframe pr + TF_epc <= x < p_trapframe pr + TF_epc + 8 ->
             mget (k_mem (m_k m')) x = mget (k_mem (m_k m)) x;
  tu_sepc : m_csr m' C_sepc = load64 (k_mem (m_k m)) (p_trapframe pr + TF_epc);
  tu_stvec : m_csr m' C_stvec = u64 (TRAMPOLINE + (t_uservec - l_trampoline));
  tu_spp : has SSTATUS_SPP (m_csr m' C_sstatus) = false;
  tu_spie : has SSTATUS_SPIE (m_csr m' C_sstatus) = true;
  tu_sie : exists c, k_cpus (m_k m') !! k_hart (m_k m') = Some c /\ c_sie c = false
}.

Lemma sstatus_bits x :
  let y := Z.lor (Z.land (Z.land x (Z.lnot SSTATUS_SIE)) (Z.lnot SSTATUS_SPP)) SSTATUS_SPIE in
  has SSTATUS_SPP y = false /\ has SSTATUS_SPIE y = true /\ has SSTATUS_SIE y = false.
Proof.
  assert (Hb : forall k y, 0 <= k -> has (Z.shiftl 1 k) y = Z.testbit y k).
  { intros k y Hk. unfold has. rewrite Z.shiftl_1_l. destruct (Z.testbit y k) eqn:E.
    - apply negb_true_iff, Z.eqb_neq. intros H0. apply (f_equal (fun z => Z.testbit z k)) in H0.
      rewrite Z.land_spec, E, Z.pow2_bits_true, Z.bits_0 in H0 by done. done.
    - apply negb_false_iff, Z.eqb_eq. apply Z.bits_inj'. intros n Hn.
      rewrite Z.land_spec, Z.pow2_bits_eqb, Z.bits_0 by done. destruct (Z.eqb_spec k n) as [->|]; [by rewrite E|by rewrite andb_false_r]. }
  intros y. unfold y, SSTATUS_SPP, SSTATUS_SPIE, SSTATUS_SIE. rewrite !Hb by done.
  rewrite !Z.lor_spec, !Z.land_spec, !Z.lnot_spec by done.
  rewrite !Z.shiftl_1_l, !Z.pow2_bits_eqb by done. cbn. by rewrite !andb_false_r, ?orb_true_r.
Qed.
Lemma set_sie_twice b k p pr : running k p pr -> set_sie b (set_sie b k) = set_sie b k.
Proof.
  intros [(c & Hc & _) _ _ _]. assert (Hlt : (k_hart k < length (k_cpus k))%nat) by (by eapply lookup_lt_Some).
  unfold set_sie. rewrite Hc. cbn. rewrite list_lookup_insert_eq by done. cbn. unfold set_k_cpus. cbn.
  by rewrite list_insert_insert_eq.
Qed.
Lemma set_sie_mem b k m : set_sie b (set_k_mem m k) = set_k_mem m (set_sie b k).
Proof. unfold set_sie. cbn. by destruct (k_cpus k !! k_hart k). Qed.

(** The kernel's part of the trap frame: where the next trap finds the kernel. *)
Definition fill_frame (T satp sp trap hart : Z) (m : gmap Z Z) : gmap Z Z :=
  store64 (store64 (store64 (store64 m (T + TF_kernel_satp) satp) (T + TF_kernel_sp) sp)
    (T + TF_kernel_trap) trap) (T + TF_kernel_hartid) hart.

Lemma mget_fill_frame T satp sp trap hart m z :
  z < T \/ T + 40 <= z \/ T + TF_epc <= z < T + TF_epc + 8 -> mget (fill_frame T satp sp trap hart m) z = mget m z.
Proof.
  intros Hz. unfold fill_frame, TF_kernel_satp, TF_kernel_sp, TF_kernel_trap, TF_kernel_hartid, TF_epc in *.
  rewrite !mget_store_out by lia. done.
Qed.

(** [usertrapret] up to the trap frame. *)
Lemma usertrapret_frame m k c p pr (rest : H Z) :
  running k p pr ->
  (satp <- r_csr C_satp ;;
   lift (tf_put p TF_kernel_satp satp) ;;
   pr <- lift (get_proc p) ;;
   lift (tf_put p TF_kernel_sp (u64 (p_kstack pr + PGSIZE))) ;;
   lift (tf_put p TF_kernel_trap t_usertrap) ;;
   hart <- lift cpuid ;;
   lift (tf_put p TF_kernel_hartid (Z.of_nat hart)) ;; rest) (at_regs m k c) =
  rest (at_regs m (set_k_mem (fill_frame (p_trapframe pr) (c C_satp) (u64 (p_kstack pr + PGSIZE)) t_usertrap
    (Z.of_nat (k_hart k)) (k_mem k)) k) c).
Proof.
  intros R. rewrite (bind_Ret _ _ _ _ _ (r_csr_regs _ _ _ _)).
  rewrite (bind_Ret _ _ _ _ _ (lift_regs _ m _ c _ _ (tf_put_running _ _ _ TF_kernel_satp _ R))).
  set (k1 := set_k_mem _ k). assert (R1 : running k1 p pr) by (by apply running_mem).
  rewrite (bind_Ret _ _ _ _ _ (lift_regs _ m _ c _ _ (get_proc_ok k1 p pr (rn_proc _ _ _ R1)))).
  rewrite (bind_Ret _ _ _ _ _ (lift_regs _ m _ c _ _ (tf_put_running _ _ _ TF_kernel_sp _ R1))).
  set (k2 := set_k_mem _ k1). assert (R2 : running k2 p pr) by (by apply running_mem).
  rewrite (bind_Ret _ _ _ _ _ (lift_regs _ m _ c _ _ (tf_put_running _ _ _ TF_kernel_trap _ R2))).
  set (k3 := set_k_mem _ k2). assert (R3 : running k3 p pr) by (by apply running_mem).
  rewrite (bind_Ret _ _ _ _ _ (lift_regs cpuid m k3 c _ _ eq_refl)).
  by rewrite (bind_Ret _ _ _ _ _ (lift_regs _ m _ c _ _ (tf_put_running _ _ _ TF_kernel_hartid _ R3))).
Qed.

Lemma usertrapret_ok m p pr :
  running (m_k m) p pr -> exists m', usertrapret m = Ret (MAKE_SATP (p_pagetable pr)) m' /\ to_user m p pr m'.
Proof.
  intros R. destruct (running_settle _ _ _ R) as (R1 & _ & _). destruct (intr_set_ok false _ _ _ R1) as [E2 R2].
  replace (usertrapret m) with (usertrapret (at_regs m (m_k m) (m_csr m))) by (by destruct m).
  unfold usertrapret. setoid_rewrite (bind_Ret _ _ _ _ _ (lift_regs _ m _ (m_csr m) _ _ (me_running _ _ _ R))).
  setoid_rewrite (bind_Ret _ _ _ _ _ (lift_regs _ m _ (m_csr m) _ _ E2)). set (k0 := set_sie false (settle (m_k m))) in *.
  setoid_rewrite (bind_Ret _ _ _ _ _ (w_csr_regs _ _ _ _ _)). set (c1 := <[C_stvec := _]> (m_csr m)).
  setoid_rewrite (usertrapret_frame m k0 c1 p pr _ R2). set (k4 := set_k_mem _ k0).
  assert (R6 : running k4 p pr) by (by apply running_mem).
  assert (E4 : set_sie false k4 = k4) by (unfold k4, k0; by rewrite set_sie_mem, (set_sie_twice false _ p pr R1)).
  pose proof (r_sstatus_off m k4 c1 p pr R6) as Er. rewrite E4 in Er. setoid_rewrite (bind_Ret _ _ _ _ _ Er).
  set (x := Z.lor _ _). destruct (sstatus_bits (c1 C_sstatus)) as (B1 & B2 & B3). fold x in B1, B2, B3.
  assert (Ew : w_sstatus x (at_regs m k4 c1) = Ret tt (at_regs m k4 (<[C_sstatus := x]> c1))).
  { unfold w_sstatus. rewrite (bind_Ret _ _ _ _ _ (w_csr_regs _ _ _ _ _)), B3. apply lift_regs.
    rewrite <- E4 at 2. by apply (intr_set_ok false _ p pr). }
  setoid_rewrite (bind_Ret _ _ _ _ _ Ew).
  setoid_rewrite (bind_Ret _ _ _ _ _ (lift_regs _ m _ _ _ _ (tf_get_running _ _ _ TF_epc R6))).
  setoid_rewrite (bind_Ret _ _ _ _ _ (w_csr_regs _ _ _ _ _)).
  setoid_rewrite (bind_Ret _ _ _ _ _ (lift_regs _ m _ _ _ _ (get_proc_ok k4 p pr (rn_proc _ _ _ R6)))).
  eexists. split; [reflexivity|].
  assert (Hm : k_mem k0 = k_mem (m_k m)) by (unfold k0; by rewrite sie_mem_eq, settle_mem_eq).
  constructor; cbn [at_regs set_m_k m_k m_csr set_m_csr].
  - exact R6.
  - unfold k4, k0. cbn [k_procs set_k_mem]. by rewrite sie_procs_eq, settle_procs.
  - unfold k4, k0. cbn [k_freelist set_k_mem]. by rewrite sie_free_eq, settle_free.
  - intros Hok. unfold k4. cbn [k_mem set_k_mem]. rewrite Hm. by do 4 apply store_ok.
  - intros z Hz. unfold k4. cbn [k_mem set_k_mem]. by rewrite mget_fill_frame, Hm.
  - rewrite fn_lookup_insert. apply load_ext. intros z Hz. unfold k4. cbn [k_mem set_k_mem].
    rewrite mget_fill_frame, Hm; [done|]. lia.
  - unfold c1. by rewrite !fn_lookup_insert_ne, fn_lookup_insert by done.
  - by rewrite fn_lookup_insert_ne, fn_lookup_insert by done.
  - by rewrite fn_lookup_insert_ne, fn_lookup_insert by done.
  - destruct R1 as [(c & Hc & _) _ _ _]. unfold k4, k0, set_sie. cbn [k_cpus k_hart set_k_mem]. rewrite Hc. cbn.
    eexists. split; [apply list_lookup_insert_eq; by eapply lookup_lt_Some|done].
Qed.
(** * The whole trip *)

(** Where a system call ends: the result is in [a0], execution goes on at the
    address in the trap frame. *)
Record returned (m3 : mach) (p : nat) (pr3 : proc) (r : Z) (m' : mach) : Prop := {
  re_run : running (m_k m') p pr3;
  re_a0 : load64 (k_mem (m_k m')) (p_trapframe pr3 + TF_a 0) = r;
  re_sepc : m_csr m' C_sepc = load64 (k_mem (m_k m3)) (p_trapframe pr3 + TF_epc);
  re_stvec : m_csr m' C_stvec = u64 (TRAMPOLINE + (t_uservec - l_trampoline));
  re_mode : has SSTATUS_SPP (m_csr m' C_sstatus) = false /\ has SSTATUS_SPIE (m_csr m' C_sstatus) = true;
  re_procs : k_procs (m_k m') = k_procs (m_k m3);
  re_free : k_freelist (m_k m') = k_freelist (m_k m3);
  re_ok : mem_ok (k_mem (m_k m3)) -> mem_ok (k_mem (m_k m'));
  re_mem : forall x, x < p_trapframe pr3 \/ p_trapframe pr3 + TF_SIZE <= x ->
             mget (k_mem (m_k m')) x = mget (k_mem (m_k m3)) x
}.

Lemma usertrap_ok m p pr f r m3 pr3 :
  from_user m p pr ->
  let num := i32 (load64 (k_mem (m_k m)) (p_trapframe pr + TF_a 7)) in
  0 < num < NSYSCALLS -> syscalls num = Some f -> f (sys_entry m pr) = Ret r m3 ->
  running (m_k m3) p pr3 -> p_killed pr3 = 0 -> 0 <= r < 2 ^ 64 ->
  exists m', usertrap m = Ret (MAKE_SATP (p_pagetable pr3)) m' /\ returned m3 p pr3 r m'.
Proof.
  intros F num Hn Hf Er R3 Hk Hr.
  rewrite (usertrap_calls m p pr _ F (syscall_dispatches m p pr f r m3 pr3 F Hn Hf Er R3)). set (m4 := set_m_k _ m3).
  assert (R4 : running (m_k m4) p pr3) by (by apply running_mem).
  setoid_rewrite (bind_Ret _ _ _ _ _ (lift_Ret _ m4 _ _ (killed_running _ _ _ R4))). rewrite Hk. cbn [negb Z.eqb when].
  setoid_rewrite (bind_Ret _ _ _ tt _ eq_refl). set (m5 := set_m_k _ m4).
  assert (R5 : running (m_k m5) p pr3) by (by apply (running_settle (m_k m4))).
  destruct (usertrapret_ok m5 p pr3 R5) as (m' & E & [U1 U2 Uf Uo U3 U4 U5 U6 U7 U8]). exists m'. split; [exact E|].
  assert (Hm5 : k_mem (m_k m5) = store64 (k_mem (m_k m3)) (p_trapframe pr3 + TF_a 0) r) by (unfold m5; cbn; by rewrite settle_mem_eq).
  constructor; [done| | |done|done| | | |].
  - rewrite <- (load64_store64 (k_mem (m_k m3)) (p_trapframe pr3 + TF_a 0) r Hr), <- Hm5.
    apply load_ext. intros x Hx. apply U3. unfold TF_a in Hx. lia.
  - rewrite U4, Hm5. apply load_store_out. unfold TF_a, TF_epc. lia.
  - rewrite U2. unfold m5. cbn. by rewrite settle_procs.
  - rewrite Uf. unfold m5. cbn. by rewrite settle_free.
  - intros Hok. apply Uo. rewrite Hm5. by apply store_ok.
  - intros x Hx. rewrite U3 by (unfold TF_SIZE in Hx; lia). rewrite Hm5. apply mget_store_out. unfold TF_a, TF_SIZE in *. lia.
Qed.

(** C10: a system call from the trap to the return. When a process traps with an
    [ecall], [usertrap] finds the handler for the number in [a7], runs it with
    interrupts on and the return address advanced past the [ecall], and, once
    the handler has returned and nobody has killed the process, goes back to
    user mode with the result in [a0], at the address the trap frame holds, with
    traps directed at the trampoline and the rest of memory as the handler left
    it. *)
Theorem usertrap_syscall m p pr f r m3 pr3 :
  from_user m p pr ->
  let num := i32 (load64 (k_mem (m_k m)) (p_trapframe pr + TF_a 7)) in
  0 < num < NSYSCALLS -> syscalls num = Some f -> f (sys_entry m pr) = Ret r m3 ->
  running (m_k m3) p pr3 -> p_killed pr3 = 0 -> 0 <= r < 2 ^ 64 ->
  load64 (k_mem (m_k (sys_entry m pr))) (p_trapframe pr + TF_epc) = u64 (m_csr m C_sepc + 4) /\
  exists m', usertrap m = Ret (MAKE_SATP (p_pagetable pr3)) m' /\ returned m3 p pr3 r m'.
Proof.
  intros F num Hn Hf Er R3 Hk Hr. split; [|by apply (usertrap_ok m p pr f)].
  rewrite sys_entry_mem. apply load64_store64. apply wrap_range. lia.
Qed.
(** getpid returns the pid and changes nothing. *)
Lemma sys_getpid_ok m p pr :
  from_user m p pr -> lift sys_getpid (sys_entry m pr) = Ret (u64 (p_pid pr)) (sys_entry m pr).
Proof.
  intros F. destruct (sys_entry_running m p pr F) as (R & Hok & Hcur).
  erewrite lift_Ret; [|unfold sys_getpid; run (me_ok _ p Hok Hcur); run (get_proc_ok _ p pr (rn_proc _ _ _ R)); reflexivity].
  done.
Qed.

(** * The system call sbrk *)

(** The trap frame lies on a page of its own. *)
Definition own_page (s : kstate) (t : ptree) (l : list Z) (p : Z) : Prop := page_ok p /\ ~ owned (k_mem s) t l p.

Lemma user_space_page s s' i t l pr :
  user_space s i t l pr -> own_page s t l (p_trapframe pr) ->
  k_procs s' = k_procs s -> k_freelist s' = k_freelist s -> mem_ok (k_mem s') ->
  (forall x, x < p_trapframe pr \/ p_trapframe pr + TF_SIZE <= x -> mget (k_mem s') x = mget (k_mem s) x) ->
  user_space s' i t l pr /\ same_pages s t l s' t l.
Proof.
  intros [Hp Hr Hi Hsz Hm] [Hok Hno] Ep Ef Hmem Hx.
  destruct (as_inv_page s t l (p_trapframe pr) (k_mem s') Hi) as [Hi' Hl]; try done.
  - intros H. apply Hno. by left.
  - intros H. apply Hno. right. by left.
  - intros x H. apply Hx. unfold TF_SIZE. lia.
  - split.
    + constructor; [by rewrite Ep|done| |done|].
      * by apply (as_inv_ext (set_k_mem (k_mem s') s)).
      * intros va Hva. rewrite Hl. by apply Hm.
    + intros q. unfold owned, uvalid, upage. by setoid_rewrite Hl.
Qed.

(** The state [sys_sbrk] starts in. *)
Lemma sys_entry_space m p pr t l :
  from_user m p pr -> user_space (m_k m) p t l pr -> own_page (m_k m) t l (p_trapframe pr) ->
  user_space (m_k (sys_entry m pr)) p t l pr /\ same_pages (m_k m) t l (m_k (sys_entry m pr)) t l.
Proof.
  intros F U O. pose proof (km_mem _ _ (pi_kmem _ _ _ (as_pt _ _ _ (us_inv _ _ _ _ _ U)))) as Hm.
  apply (user_space_page (m_k m)); try done.
  - unfold sys_entry, sys_call. cbn. rewrite settle_procs, sie_procs_eq. cbn. by rewrite settle_procs.
  - unfold sys_entry, sys_call. cbn. rewrite settle_free, sie_free_eq. cbn. by rewrite settle_free.
  - rewrite sys_entry_mem. by do 2 apply store_ok.
  - intros x Hx. rewrite sys_entry_mem. unfold TF_epc, TF_SIZE in *. by rewrite !mget_store_out by lia.
Qed.

(** [sys_sbrk], for a process at the entry of a system call. *)
Lemma sys_sbrk_ok k p pr t l :
  running k p pr -> quiet k -> cur k = Some p -> user_space k p t l pr ->
  let n := i32 (load64 (k_mem k) (p_trapframe pr + TF_a 0)) in
  n <> - 2 ^ 31 ->
  exists v k' t' l' sz, sys_sbrk k = Ret v k' /\ user_space k' p t' l' (set_p_sz sz pr) /\
    running k' p (set_p_sz sz pr) /\ same_rest k t l k' /\ same_pages k t l k' t' l' /\
    ((v = p_sz pr /\ sz = p_sz pr + n) \/ (v = 2 ^ 64 - 1 /\ sz = p_sz pr)) /\
    (0 <= p_sz pr + n < TRAPFRAME -> 3 * (npages (p_sz pr + n) - npages (p_sz pr)) <= Z.of_nat (length l) ->
     v = p_sz pr /\ sz = p_sz pr + n).
Proof.
  intros R Hq Hc U n Hn. destruct (growproc_ok k p t l pr n Hq Hc U) as (r & k' & t' & l' & sz & E & U' & _ & (S1 & S2) & Hr & _ & Hs).
  { pose proof (swrap_range 32 (load64 (k_mem k) (p_trapframe pr + TF_a 0)) ltac:(lia)). unfold n, i32 in *. lia. }
  assert (Eme : me k = Ret p k) by (apply me_ok; [apply Hq|done]).
  assert (Ea : argint 0 k = Ret n k).
  { unfold argint. erewrite bind_Ret; [reflexivity|]. unfold argraw. run Eme. apply (tf_get_running k p pr (TF_a 0) R). }
  exists (if r <? 0 then u64 (-1) else p_sz pr), k', t', l', sz. split_and!; try done.
  - unfold sys_sbrk. run Ea. run Eme. run (get_proc_ok k p pr (us_proc _ _ _ _ _ U)). run E. by destruct (r <? 0).
  - destruct R as [(c & R1 & R2) _ R3 R4]. constructor; [|apply U'|unfold lock_free; by rewrite (sr_locks _ _ _ _ S1)|done].
    exists c. by rewrite (sr_cpus _ _ _ _ S1), (sr_hart _ _ _ _ S1).
  - destruct Hr as [[-> ->]|[-> ->]]; [by left|by right].
  - intros H1 H2. specialize (Hs H1 H2). subst r. split; [done|]. lia.
Qed.
(** C9: the system call sbrk from end to end. A process that traps with
    [ecall], 12 in [a7] and [n] in [a0] goes on after the [ecall] with the old
    size in [a0] and its memory changed by [n] bytes, or with -1 in [a0] and its
    memory as it was; it succeeds when the new size is legal and the allocator has
    three free pages for each page to add. *)
Theorem usertrap_sbrk m p pr t l :
  from_user m p pr -> lock_free (m_k m) LK_kmem -> user_space (m_k m) p t l pr ->
  own_page (m_k m) t l (p_trapframe pr) ->
  i32 (load64 (k_mem (m_k m)) (p_trapframe pr + TF_a 7)) = 12 ->
  let n := i32 (load64 (k_mem (m_k m)) (p_trapframe pr + TF_a 0)) in
  n <> - 2 ^ 31 ->
  exists v m' t' l' sz, usertrap m = Ret (MAKE_SATP (p_pagetable pr)) m' /\
    m_csr m' C_sepc = u64 (m_csr m C_sepc + 4) /\ load64 (k_mem (m_k m')) (p_trapframe pr + TF_a 0) = v /\
    user_space (m_k m') p t' l' (set_p_sz sz pr) /\
    ((v = p_sz pr /\ sz = p_sz pr + n) \/ (v = 2 ^ 64 - 1 /\ sz = p_sz pr)) /\
    (0 <= p_sz pr + n < TRAPFRAME -> 3 * (npages (p_sz pr + n) - npages (p_sz pr)) <= Z.of_nat (length l) ->
     v = p_sz pr /\ sz = p_sz pr + n).
Proof.
  intros F Hl U O H7 n Hn. destruct (sys_entry_space m p pr t l F U O) as [U1 P1].
  destruct (sys_entry_running m p pr F) as (R1 & Hok & Hcur). set (k1 := m_k (sys_entry m pr)) in *.
  pose proof (sys_entry_mem m pr) as Ek. fold k1 in Ek.
  assert (Hq : quiet k1).
  { split; [done|]. unfold lock_free, k1, sys_entry, sys_call. cbn. rewrite settle_locks, sie_locks. cbn. by rewrite settle_locks. }
  assert (En : i32 (load64 (k_mem k1) (p_trapframe pr + TF_a 0)) = n).
  { unfold n. rewrite Ek, !(load_store_out 8 8) by (unfold TF_a, TF_epc; lia). done. }
  destruct (sys_sbrk_ok k1 p pr t l R1 Hq Hcur U1) as (v & k3 & t' & l' & sz & E & U3 & R3 & S3 & P3 & Hv & Hs);
    rewrite En in *; [done|].
  destruct O as [Hpage Hown]. assert (Hown1 : ~ owned (k_mem k1) t l (p_trapframe pr)) by (by rewrite (P1 _)).
  destruct (usertrap_ok m p pr (lift sys_sbrk) v (set_m_k k3 (sys_entry m pr)) (set_p_sz sz pr) F) as (m' & Em & Ret').
  - rewrite H7. done.
  - by rewrite H7.
  - by apply lift_Ret.
  - exact R3.
  - apply F.
  - assert (TRAPFRAME < 2 ^ 64) by done. pose proof (us_sz _ _ _ _ _ U). lia.
  - exists v, m', t', l', sz. destruct Ret' as [A1 A2 A3 A4 A5 A6 A7 Ao A8]. split_and!; try done.
    + rewrite A3. cbn [m_k set_m_k]. transitivity (load64 (k_mem k1) (p_trapframe pr + TF_epc)).
      * apply load_ext. intros x Hx. apply (sr_mem _ _ _ _ S3). intros q Hq'.
        pose proof (owned_page_ok _ _ _ q (us_inv _ _ _ _ _ U1) Hq') as Hqok.
        destruct (page_ok_apart (p_trapframe pr) q Hpage Hqok) as [H|H]; [by intros <-|..]; unfold TF_epc in Hx; cbn in *; lia.
      * rewrite Ek. apply load64_store64, wrap_range. lia.
    + eapply (user_space_page k3); [exact U3|split; [exact Hpage|by rewrite (P3 _)]|exact A6|exact A7| |exact A8].
      apply Ao. exact (km_mem _ _ (pi_kmem _ _ _ (as_pt _ _ _ (us_inv _ _ _ _ _ U3)))).
Qed.
End Trap.

(** * A sample: process 0 of the sample address space traps *)

Module SampleTrap.
#[export] Instance text : Text := {|
  t_forkret := KERNBASE + 0x100; t_usertrap := KERNBASE + 0x200; t_uservec := KERNBASE + 0x7000;
  t_userret := KERNBASE + 0x709c; t_kernelvec := KERNBASE + 0x300 |}.
#[export] Existing Instance sample_layout.

Definition T : Z := p_trapframe sample_proc.

(** The trap frame with [a0] and [a7] as given. *)
Definition kernel (a0 a7 : Z) : kstate :=
  set_k_mem (store64 (store64 (k_mem sample_grow) (T + TF_a 0) a0) (T + TF_a 7) a7) sample_grow.
Definition regs (c : csr) : Z := match c with C_scause => 8 | C_sepc => 0x40 | _ => 0 end.
Definition machine (a0 a7 : Z) : mach :=
  mk_mach (kernel a0 a7) (mk_vdisk (0, 0, 0) [] 0 [] 0 [] [] 0 [] [] ∅ true) regs (mk_plic ∅ [] []) 1 false.

Lemma load_a7 a0 a7 : 0 <= a7 < 2 ^ 64 -> load64 (k_mem (m_k (machine a0 a7))) (p_trapframe sample_proc + TF_a 7) = a7.
Proof. apply load64_store64. Qed.
Lemma load_a0 a0 a7 : 0 <= a0 < 2 ^ 64 -> load64 (k_mem (m_k (machine a0 a7))) (p_trapframe sample_proc + TF_a 0) = a0.
Proof.
  intros H. cbn [machine m_k kernel k_mem set_k_mem]. rewrite (load_store_out 8 8) by (unfold TF_a, T; lia). by apply load64_store64.
Qed.

Lemma machine_from_user a0 a7 : from_user (machine a0 a7) 0 sample_proc.
Proof.
  constructor; [|reflexivity|reflexivity|reflexivity|cbn; lia].
  constructor; [|reflexivity|reflexivity|discriminate].
  eexists. split; [reflexivity|]. split; reflexivity.
Qed.

Lemma T_own : own_page sample_grow Sample.tree Sample.free T.
Proof.
  split; [split; [reflexivity|cbn; unfold T; cbn; lia]|].
  intros [Ht|[Hl|(va & [Hva Hv] & Hu)]].
  - apply Sample.is_table_st in Ht. unfold Sample.R, Sample.A, Sample.B, T in Ht. cbn in Ht. lia.
  - unfold Sample.free, T in Hl. cbn in Hl. set_solver by lia.
  - pose proof TRAPFRAME_MAXVA. unfold upage in Hu. rewrite (proj1 sample_mem) in Hv, Hu. rewrite Sample.leaf in Hv, Hu by lia.
    destruct (va / PGSIZE =? 0); [|done]. rewrite PTE2PA_entry in Hu by (apply Sample.U_ok || done).
    unfold Sample.U, T in Hu. cbn in Hu. lia.
Qed.

Lemma procs_set_mem m s : k_procs (set_k_mem m s) = k_procs s.
Proof. reflexivity. Qed.
Lemma free_set_mem m s : k_freelist (set_k_mem m s) = k_freelist s.
Proof. reflexivity. Qed.
Lemma mem_set_mem m s : k_mem (set_k_mem m s) = m.
Proof. reflexivity. Qed.
Lemma machine_mem a0 a7 :
  k_mem (m_k (machine a0 a7)) = store64 (store64 (k_mem sample_grow) (T + TF_a 0) a0) (T + TF_a 7) a7.
Proof. exact (mem_set_mem _ _). Qed.

Lemma machine_space a0 a7 :
  user_space (m_k (machine a0 a7)) 0 Sample.tree Sample.free sample_proc /\
  own_page (m_k (machine a0 a7)) Sample.tree Sample.free T.
Proof.
  destruct (user_space_page sample_grow (m_k (machine a0 a7)) 0 Sample.tree Sample.free sample_proc) as [H1 H2].
  - exact sample_space.
  - exact T_own.
  - exact (procs_set_mem _ _).
  - exact (free_set_mem _ _).
  - rewrite machine_mem. do 2 apply store_ok. rewrite (proj1 sample_mem). apply (km_mem _ _ Sample.kmem).
  - intros x Hx. rewrite machine_mem. unfold TF_a, TF_SIZE, T in *.
    rewrite !mget_store_out by lia. reflexivity.
  - exact (conj H1 (conj (proj1 T_own) (fun Ho => proj2 T_own (proj1 (H2 T) Ho)))).
Qed.
End SampleTrap.

Import (hints) SampleTrap.
Import (hints) Machine.

(** sbrk(-4096) gives the only page back. *)
Lemma usertrap_sbrk_witness :
  exists m', usertrap (SampleTrap.machine (2 ^ 64 - 4096) 12) = Ret (MAKE_SATP Sample.R) m' /\
    m_csr m' C_sepc = 0x44 /\ load64 (k_mem (m_k m')) (SampleTrap.T + TF_a 0) = 4096.
Proof.
  destruct (usertrap_sbrk (SampleTrap.machine (2 ^ 64 - 4096) 12) 0 sample_proc Sample.tree Sample.free)
    as (v & m' & t' & l' & sz & E & E1 & E2 & _ & _ & H).
  - apply SampleTrap.machine_from_user.
  - reflexivity.
  - apply SampleTrap.machine_space.
  - apply SampleTrap.machine_space.
  - rewrite SampleTrap.load_a7 by lia. reflexivity.
  - rewrite SampleTrap.load_a0 by lia. discriminate.
  - rewrite SampleTrap.load_a0 in H by lia. destruct H as [-> _]; [split; [discriminate|reflexivity]|discriminate|].
    exists m'. split; [exact E|]. split; [rewrite E1; reflexivity|exact E2].
Defined.

(** getpid() of a process with pid 7 *)
Lemma usertrap_syscall_witness :
  exists m', usertrap (SampleTrap.machine 0 11) = Ret (MAKE_SATP Sample.R) m' /\
    load64 (k_mem (m_k m')) (SampleTrap.T + TF_a 0) = 7.
Proof.
  pose proof (SampleTrap.machine_from_user 0 11) as F.
  destruct (usertrap_syscall (SampleTrap.machine 0 11) 0 sample_proc (lift sys_getpid) (u64 (p_pid sample_proc))
    (sys_entry (SampleTrap.machine 0 11) sample_proc) sample_proc F) as (_ & m' & E & Hr).
  - rewrite SampleTrap.load_a7 by lia. split; reflexivity.
  - rewrite SampleTrap.load_a7 by lia. reflexivity.
  - exact (sys_getpid_ok _ 0%nat sample_proc F).
  - exact (proj1 (sys_entry_running _ 0%nat sample_proc F)).
  - reflexivity.
  - split; [discriminate|reflexivity].
  - exists m'. split; [exact E|]. exact (re_a0 _ _ _ _ _ Hr).
Defined.
